(* ===== verification/_CoqProject ===== *)
-Q . S2P
Prelude.v
Containers.v
Varint.v
Words.v
Seria.v
SeriaMap.v
TreeHash.v
Text.v
CryptoNote.v
Amounts.v
TransactionExtra.v
Blocks.v
Currency.v
Difficulty.v
Db.v
ChainState.v
Store.v
Pool.v
Redo.v
BlockLaws.v
NodeLaws.v
RingChecker.v
Headers.v
WalletData.v
Wallet.v
WalletUndo.v
WalletIndex.v
WalletLaws.v
WalletSpec.v
WalletUnlock.v
WalletOpen.v
WalletTheorems.v
Selector.v
SelectorLaws.v
Scalars.v
ScalarLaws.v
Crypto.v
CryptoLaws.v
Builder.v
BuilderLaws.v
WalletSyncing.v
WalletSyncingLaws.v
WalletPool.v
RandomOutputs.v
RandomOutputsLaws.v
WalletNode.v
WalletCoins.v
PaymentLaws.v
Payments.v
PaymentSample.v
HeaderLaws.v
Consensus.v
ConsensusLaws.v
Mining.v
BlockStore.v
ChainUpdate.v
BlockStoreLaws.v
BranchLaws.v
ChainLaws.v
UpdateLaws.v
SampleNode.v
MiningLaws.v
NodeTheorems.v
