(* ===== verification/Prelude.v ===== *)
(** * Formal model of the Cryonero node core

    Cryonero is a CryptoNote currency: a node ([cryonerod]) keeps the tree of
    blocks, the state of the main chain and a pool of waiting transactions; a
    wallet ([walletd]) follows the chain and keeps the outputs that are its
    own.  This library models the code that decides what they accept and what
    they store, and proves what makes it correct.

    ** How the parts work together

    A block arrives as bytes.  [Blocks] and [CryptoNote] parse it with the
    binary archives of [Seria] and the integers of [Varint]; the hashes of its
    parts come from [TreeHash].  [Consensus] validates it by itself against the
    rules of [Currency], [Difficulty] and [Amounts]; [ChainUpdate] stores it
    through [BlockStore] and [Headers], decides which branch has the greatest
    cumulative difficulty ([Words]) and moves the main chain there by [Redo],
    which applies or takes back the block's transactions to the key images and
    outputs of [Store], by way of the deltas of [ChainState], and hands the
    rings of signatures to the threads of [RingChecker], which call [Crypto].
    Transactions alone go to the [Pool], from which [Mining] makes templates of
    blocks.  All of that is kept in one database, [Db].

    The wallet follows the same blocks ([WalletSyncing], over the database of
    [Wallet] and [WalletData]) and keeps a pool of its own.  To pay
    ([WalletNode]), it gathers the coins it has, chooses among them
    ([Selector]), asks the node for outputs to hide among ([RandomOutputs]), and
    builds and signs the transaction ([Builder], over [Crypto] and [Scalars]),
    which the node then judges by [Redo].

    ** Conventions

    C++ integers are [Z] within the range of their type; [u8], [u32], [u64]
    and the like write out every wrap-around the source relies on.  Bytes are
    [Z] from 0 to 255 and hashes, keys and strings of bytes lists of them.  A
    computation returns [result]: [Ok], [Throw] for an exception (a failed
    [invariant] is one), [Undefined] for what C++ leaves undefined: an index out
    of range, a division by zero, signed overflow, a failed [assert].  That a
    theorem concludes with [Ok] therefore also excludes all of these.  A
    [std::map] is a [gmap] walked in the order of its keys ([Containers]), a
    mutable object a [Record] that is passed along, a thread a step relation.

    External code is an argument: the hash functions ([cn_fast_hash],
    [cn_slow_hash]), random bytes, the clock, LMDB (class [Db.Lmdb], with
    its documented behaviour in [LmdbLaws] and an instance on finite maps), and
    the points of the curve (class [Crypto.Curve], [CurveLaws], with an
    instance).

    Loops whose end is not structural carry fuel, and running out of it is
    [Undefined]: that a theorem concludes with [Ok] says that the fuel is
    enough.  The bounds are those of the data: the bits of the argument
    for divisions ([Varint], [Amounts]), the number of keys in the database
    for cursors ([Db]), the height of a block for walks towards the genesis
    block ([Headers], [ChainUpdate]), the number of coins or of optimizations left
    for coin selection ([Selector]), the largest fee a block admits for the loop
    that raises the fee.

    ** Files

    Foundations
    - [Prelude]: results and their monad, machine words, automation, lemmas on
      lists and integers.
    - [Containers]: [std::map], [std::set] and loops that may throw.
    - [Varint] (common/Varint.hpp): the integers of the wire format and those of
      database keys.
    - [Words] (crypto/int-util.h, common/Int128.hpp, Core/Difficulty.cpp):
      128-bit arithmetic and the test of a proof of work.
    - [Seria], [SeriaMap] (seria/Binary*Stream.cpp, ISeria.hpp): archives as
      codecs, a reader and a writer with the laws that relate them.
    - [TreeHash] (crypto/tree-hash.c): Merkle trees and branches.
    - [Text] (common/StringTools.cpp, Base58.cpp, Base64.cpp): hexadecimal, base
      58 and base 64.

    Data and rules
    - [CryptoNote] (CryptoNote.hpp): transactions.  [TransactionExtra]
      (Core/TransactionExtra.cpp): their tagged fields.  [Blocks]
      (CryptoNote.hpp, Core/CryptoNoteTools.cpp): blocks with merge mining, and
      all hashes of blocks and transactions.
    - [Amounts] (Core/CryptoNoteTools.cpp, Currency.cpp): amounts and fees.
    - [Currency] (Core/Currency.cpp, CryptoNoteConfig.hpp): rewards, checkpoints,
      addresses, unlock times, the miner transaction.  [Difficulty]
      ([Currency::next_difficulty*]).

    State of the chain
    - [Db] (platform/DBlmdb.cpp): the database, its cursors and key formats.
    - [ChainState] (Core/BlockChainState.hpp): the interface [IBlockChainState]
      with its laws, and [DeltaState], an implementation over any parent.
    - [Store] (Core/BlockChainState.cpp): the implementation over the database.
    - [Pool] (same): the indexes of the pool.
    - [Redo] (same, with RingCheckerMulticore.cpp's jobs): transactions and
      blocks, forwards and backwards.  [BlockLaws] and [NodeLaws] have its
      theorems.
    - [RingChecker] (Core/RingCheckerMulticore.cpp): the threads.

    The tree of blocks
    - [Headers] (Core/BlockChain.cpp), with [HeaderLaws]: headers, caches, tip,
      common ancestors, sparse chains.
    - [Consensus] (Core/BlockChain.cpp, BlockChainState.cpp), with
      [ConsensusLaws]: the rules a block has to satisfy by itself.
    - [BlockStore] (Core/BlockChain.cpp), with [BlockStoreLaws] and
      [BranchLaws]: bodies, the index of transactions, counters of children.
    - [ChainUpdate] (Core/BlockChain.cpp, BlockChainState.cpp), with [ChainLaws]
      and [UpdateLaws]: [add_block] and reorganizations.
    - [Mining] (Core/BlockChainState.cpp), with [MiningLaws]: block templates.
    - [SampleNode]: a node of the test network with real blocks, on which the
      theorems are tried.  [NodeTheorems]: the properties of the whole node.

    The wallet
    - [WalletData] (rpc_api.hpp), [Wallet] (Core/WalletStateBasic.cpp): its
      database, handlers and reports.  [WalletUndo]: taking blocks back.
      [WalletIndex], [WalletLaws], [WalletSpec], [WalletUnlock]: the database
      shows contents, on which every handler acts as its specification says.
      [WalletOpen]: the constructor.  [WalletTheorems]: the properties.
    - [WalletSyncing] (Core/WalletState.cpp, WalletPrepMulticore.cpp, Wallet.cpp),
      with [WalletSyncingLaws] and [WalletPool]: blocks, the pool and the payment
      queue.
    - [Selector] (Core/TransactionBuilder.cpp), with [SelectorLaws]: the choice
      of coins.  [Builder] (same), with [BuilderLaws]: inputs with their rings,
      outputs, signing.
    - [RandomOutputs] (Core/BlockChainState.cpp, Node.cpp), with
      [RandomOutputsLaws]: what the node offers to hide among.
    - [WalletNode] (Core/WalletNode.cpp, Wallet.cpp): the handlers of the wallet's
      service, [create_transaction] and new addresses.  [WalletCoins],
      [PaymentLaws] and [Payments]: from a request to a transaction that the
      node accepts; [PaymentSample]: a wallet that pays.

    Cryptography
    - [Scalars] (crypto/crypto-ops.c, [sc_*]), with [ScalarLaws]: arithmetic
      modulo the order of the curve, in 64-bit limbs.
    - [Crypto] (crypto/crypto.cpp), with [CryptoLaws]: derivations, key images,
      signatures, ring signatures, payment proofs.

    ** What the theorems show

    - The node as a whole: a block that arrives extends the main chain, makes the
      node switch to the better branch, is kept, or is refused, each exactly when
      it should, and the node's invariant holds afterwards; transactions get a
      verdict whatever their bytes; templates become blocks that are accepted.
    - Money: blocks pay exactly the reward, no key image is spent twice,
      neither in the chain nor in the pool, and what a block creates is what its
      transactions spend and the emission grows by.
    - State: undoing is the inverse of redoing for the chain, the index of
      the main chain and the wallet; deltas refine the state they modify; caches
      change no answer; the wallet's balances are the sums of its outputs.
    - Payments: a request becomes a transaction that pays exactly what was asked
      and whose rings every node accepts that shares the confirmed outputs and
      has the coins, or an error that says what is missing; the wallet's own
      pool stays consistent whatever the node sends.
    - Formats: whatever is written is read back, and transactions, varints and
      addresses have one encoding each.
    - Arithmetic: no limb of a scalar leaves 64 bits; difficulty, rewards and
      penalties are computed without overflow where the source relies on it.
    - Threads and loops: the ring checker's verdict is exact under every
      interleaving and always comes; searches, cursors and selections end.
    - Cryptography: what is signed with the right key is accepted, and sender and
      receiver derive the same keys.

    Where the code does not do what it means to, the definitions do as the code
    does, and the theorems say what it takes to avoid the case.

    ** Not modelled

    The slow hash, keccak, the other hash functions and AES are vendored code
    with known test vectors; they are functions of unspecified results here.
    So are the field and point operations of crypto-ops.c.  The programs,
    the HTTP and P2P servers, the console, configuration, logging and files move
    data between the operating system and the parts above; JSON is their text
    interface.  Of the wallet, its encrypted files, the timers that ask the node
    for news (WalletSync.cpp) and the threads that prepare blocks ahead are
    left; the handlers are modelled with the node in the same process. *)

From stdpp Require Export prelude strings gmap sorting.
From Stdlib Require Export ZArith Lia ZifyBool ZifyNat.

(** ** Automation *)

Create HintDb cryo discriminated.
Create Rewrite HintDb words.

Declare Scope cryo_scope.
Delimit Scope cryo_scope with cryo.

Local Open Scope Z_scope.

(** ** Results of C++ computations

    [Ok a] is a normal return, [Throw e] a C++ exception (or an [invariant]
    failure) carrying its message, [Undefined w] a run that leaves the
    language: an out-of-range index, a division by zero, a failed [assert]. *)

Inductive result (A : Type) : Type :=
| Ok (a : A)
| Throw (e : string)
| Undefined (what : string).
Arguments Ok {A} a.
Arguments Throw {A} e.
Arguments Undefined {A} what.

Global Instance result_ret : MRet result := @Ok.
Global Instance result_bind : MBind result := λ A B f m,
  match m with
  | Ok a => f a
  | Throw e => Throw e
  | Undefined w => Undefined w
  end.

Definition is_ok {A} (r : result A) : Prop := ∃ a, r = Ok a.

Definition check (b : bool) (e : string) : result unit :=
  if b then Ok tt else Throw e.

Definition of_option {A} (o : option A) (r : result A) : result A :=
  match o with Some a => Ok a | None => r end.

Lemma bind_Ok_inv {A B} (m : result A) (f : A → result B) b :
  m ≫= f = Ok b → ∃ a, m = Ok a ∧ f a = Ok b.
Proof. destruct m; naive_solver. Qed.

Lemma check_Ok b e u : check b e = Ok u ↔ b = true.
Proof. destruct b, u; naive_solver. Qed.

(** [inv_ok H] takes apart a successful run [H : x ← m; k = Ok r]. *)
Ltac inv_ok H :=
  repeat lazymatch type of H with
  | mbind _ _ = Ok _ =>
      let a := fresh "a" in let Ha := fresh "Ha" in
      apply bind_Ok_inv in H; destruct H as (a & Ha & H);
      try (apply check_Ok in Ha)
  end.

(** ** Machine words *)

Definition u8 (z : Z) : Z := z mod 2 ^ 8.
Definition u16 (z : Z) : Z := z mod 2 ^ 16.
Definition u32 (z : Z) : Z := z mod 2 ^ 32.
Definition u64 (z : Z) : Z := z mod 2 ^ 64.
Definition i64 (z : Z) : Z := (z + 2 ^ 63) mod 2 ^ 64 - 2 ^ 63.

Definition UINT64_MAX : Z := 2 ^ 64 - 1.
Definition UINT32_MAX : Z := 2 ^ 32 - 1.

Definition in_u (w : Z) (z : Z) : Prop := 0 ≤ z < 2 ^ w.
Definition is_byte (z : Z) : Prop := 0 ≤ z < 256.
Abbreviation bytes := (Forall is_byte).

Global Instance in_u_dec w z : Decision (in_u w z).
Proof. unfold in_u. apply _. Defined.
Global Instance is_byte_dec z : Decision (is_byte z).
Proof. unfold is_byte. apply _. Defined.

(** [words] unfolds the word operations and leaves linear arithmetic with
    division to [lia]. *)
Ltac words :=
  unfold u8, u16, u32, u64, i64, UINT64_MAX, UINT32_MAX, in_u, is_byte in *;
  Z.div_mod_to_equations; lia.

Lemma u64_small z : 0 ≤ z < 2 ^ 64 → u64 z = z.
Proof. intros. by apply Z.mod_small. Qed.
Lemma u32_small z : 0 ≤ z < 2 ^ 32 → u32 z = z.
Proof. intros. by apply Z.mod_small. Qed.
Lemma u16_small z : 0 ≤ z < 2 ^ 16 → u16 z = z.
Proof. intros. by apply Z.mod_small. Qed.
Lemma u8_small z : 0 ≤ z < 2 ^ 8 → u8 z = z.
Proof. intros. by apply Z.mod_small. Qed.
Lemma u64_bound z : 0 ≤ u64 z < 2 ^ 64.
Proof. by apply Z.mod_pos_bound. Qed.
Lemma in_u_32_64 z : in_u 32 z → in_u 64 z.
Proof. unfold in_u. lia. Qed.
Lemma u32_bound z : 0 ≤ u32 z < 2 ^ 32.
Proof. by apply Z.mod_pos_bound. Qed.
Lemma u16_bound z : 0 ≤ u16 z < 2 ^ 16.
Proof. by apply Z.mod_pos_bound. Qed.
Lemma u8_byte z : is_byte (u8 z).
Proof. by apply Z.mod_pos_bound. Qed.
Lemma i64_small z : - 2 ^ 63 ≤ z < 2 ^ 63 → i64 z = z.
Proof. intros. unfold i64. rewrite Z.mod_small; lia. Qed.

#[export] Hint Resolve u64_bound u32_bound u16_bound u8_byte : cryo.
#[export] Hint Rewrite u64_small u32_small u16_small u8_small using lia : words.

Lemma testbit_small a n i : 0 ≤ a < 2 ^ n → 0 ≤ n ≤ i → Z.testbit a i = false.
Proof.
  intros Ha Hi. rewrite <- (Z.mod_small a (2 ^ n)) by done.
  by apply Z.mod_pow2_bits_high.
Qed.

Lemma land_shiftl_disjoint a b n :
  0 ≤ n → 0 ≤ a < 2 ^ n → Z.land a (Z.shiftl b n) = 0.
Proof.
  intros Hn Ha. apply Z.bits_inj'. intros i Hi. rewrite Z.land_spec, Z.bits_0.
  destruct (Z.lt_ge_cases i n).
  - rewrite Z.shiftl_spec_low by done. apply andb_false_r.
  - by rewrite (testbit_small a n i).
Qed.

(** [x | y] of two words that share no bits is their sum. *)
Lemma lor_shiftl_add a b n :
  0 ≤ n → 0 ≤ a < 2 ^ n → Z.lor a (Z.shiftl b n) = a + b * 2 ^ n.
Proof.
  intros Hn Ha. rewrite <- Z.shiftl_mul_pow2 by done.
  rewrite <- Z.lxor_lor by (by apply land_shiftl_disjoint).
  symmetry. apply Z.add_nocarry_lxor. by apply land_shiftl_disjoint.
Qed.

Lemma land_ones_mod a n : 0 ≤ n → Z.land a (2 ^ n - 1) = a mod 2 ^ n.
Proof. intros. rewrite <- Z.land_ones by done. f_equal. rewrite Z.ones_equiv. lia. Qed.

Lemma land_0x7f a : Z.land a 0x7f = a mod 2 ^ 7.
Proof. apply (land_ones_mod a 7). lia. Qed.
Lemma land_0xff a : Z.land a 0xff = a mod 2 ^ 8.
Proof. apply (land_ones_mod a 8). lia. Qed.

(** A lower bound in the same power-of-two block: [a] is below [2^n] when its
    quotient is. *)
Lemma shiftr_lt a n m : 0 ≤ n → 0 ≤ m → 0 ≤ a < 2 ^ (n + m) → 0 ≤ a / 2 ^ n < 2 ^ m.
Proof.
  intros Hn Hm Ha. rewrite Z.pow_add_r in Ha by done.
  assert (0 < 2 ^ n) by (by apply Z.pow_pos_nonneg).
  split; [apply Z.div_pos; lia|]. apply Z.div_lt_upper_bound; lia.
Qed.

Lemma bytes_app l k : bytes (l ++ k) ↔ bytes l ∧ bytes k.
Proof. apply Forall_app. Qed.

Lemma lor_0x80 a : 0 ≤ a < 128 → Z.lor a 0x80 = a + 128.
Proof. intros. apply (lor_shiftl_add a 1 7); lia. Qed.

(** A boolean property of bytes is decided by running through all of them. *)
Lemma byte_ind (P : Z → bool) :
  forallb P (seqZ 0 256) = true → ∀ b, is_byte b → P b = true.
Proof.
  intros H b Hb. rewrite forallb_forall in H. apply H.
  apply list_elem_of_In, elem_of_seqZ. unfold is_byte in Hb. lia.
Qed.

(** [byte_cases b Hb] proves a decidable goal about a byte [b] by [byte_ind]. *)
Ltac byte_cases b Hb :=
  pattern b;
  match goal with
  | |- ?P b =>
      refine (proj1 (bool_decide_eq_true (P b)) _);
      revert b Hb; apply (byte_ind (λ b, bool_decide (P b)));
      vm_compute; reflexivity
  end.

Lemma land_0x80_zero b : is_byte b → (Z.land b 0x80 =? 0) = (b <? 128).
Proof. intros Hb. byte_cases b Hb. Qed.

(** ** Byte strings in [memcmp] order

    The order of [std::string] and of database keys: byte by byte, a proper
    prefix first. *)

Fixpoint lex_ltb (a b : list Z) : bool :=
  match a, b with
  | _, [] => false
  | [], _ :: _ => true
  | x :: a, y :: b => if x <? y then true else if y <? x then false else lex_ltb a b
  end.

Lemma lex_ltb_irrefl a : lex_ltb a a = false.
Proof. induction a as [|x a IH]; simpl; [done|]. by rewrite Z.ltb_irrefl. Qed.

Lemma lex_ltb_trans a b c : lex_ltb a b = true → lex_ltb b c = true → lex_ltb a c = true.
Proof.
  revert b c. induction a as [|x a IH]; intros [|y b] [|z c]; simpl; try done.
  destruct (Z.ltb_spec x y), (Z.ltb_spec y z), (Z.ltb_spec y x), (Z.ltb_spec z y),
    (Z.ltb_spec x z), (Z.ltb_spec z x); try done; try lia. apply IH.
Qed.

Lemma lex_ltb_total a b : a = b ∨ lex_ltb a b = true ∨ lex_ltb b a = true.
Proof.
  revert b. induction a as [|x a IH]; intros [|y b]; simpl; auto.
  destruct (Z.ltb_spec x y), (Z.ltb_spec y x); auto; try lia.
  assert (x = y) as -> by lia. destruct (IH b) as [->|]; auto.
Qed.

Lemma lex_ltb_app l a b : lex_ltb (l ++ a) (l ++ b) = lex_ltb a b.
Proof. induction l; simpl; [done|]. by rewrite Z.ltb_irrefl. Qed.

Lemma lex_ltb_head x y a b : x < y → lex_ltb (x :: a) (y :: b) = true.
Proof. intros. simpl. by replace (x <? y) with true by lia. Qed.

Lemma lex_ltb_cons x a b : lex_ltb (x :: a) (x :: b) = lex_ltb a b.
Proof. apply (lex_ltb_app [x]). Qed.

(** ** Little-endian integers in memory *)

Fixpoint le_value (l : list Z) : Z :=
  match l with
  | [] => 0
  | b :: l => b + 2 ^ 8 * le_value l
  end.

Fixpoint le_bytes (n : nat) (z : Z) : list Z :=
  match n with
  | O => []
  | S n => z mod 2 ^ 8 :: le_bytes n (z / 2 ^ 8)
  end.

Lemma length_le_bytes n z : length (le_bytes n z) = n.
Proof. revert z. induction n; intros; simpl; auto. Qed.

Lemma bytes_le_bytes n z : bytes (le_bytes n z).
Proof. revert z. induction n; intros z; constructor; [words|done]. Qed.

Lemma le_value_bound l : bytes l → 0 ≤ le_value l < 2 ^ (8 * Z.of_nat (length l)).
Proof.
  induction 1 as [|b l Hb Hl IH]; [done|]. cbn [le_value length].
  replace (8 * Z.of_nat (S (length l))) with (8 + 8 * Z.of_nat (length l)) by lia.
  rewrite Z.pow_add_r by lia. unfold is_byte in Hb. lia.
Qed.

Lemma le_value_le_bytes n z : 0 ≤ z < 2 ^ (8 * Z.of_nat n) → le_value (le_bytes n z) = z.
Proof.
  revert z. induction n as [|n IH]; intros z Hz; [simpl in *; lia|].
  cbn [le_bytes le_value]. rewrite IH; [words|]. apply shiftr_lt; [lia..|].
  by replace (8 + 8 * Z.of_nat n) with (8 * Z.of_nat (S n)) by lia.
Qed.

Lemma le_bytes_le_value l : bytes l → le_bytes (length l) (le_value l) = l.
Proof.
  induction 1 as [|b l Hb Hl IH]; [done|]. cbn [length le_bytes le_value].
  replace ((b + 2 ^ 8 * le_value l) mod 2 ^ 8) with b by words.
  replace ((b + 2 ^ 8 * le_value l) / 2 ^ 8) with (le_value l) by words. by rewrite IH.
Qed.

Lemma le_value_app l k :
  le_value (l ++ k) = le_value l + 2 ^ (8 * Z.of_nat (length l)) * le_value k.
Proof.
  induction l as [|b l IH]; [simpl; lia|]. cbn [app le_value length]. rewrite IH.
  replace (8 * Z.of_nat (S (length l))) with (8 + 8 * Z.of_nat (length l)) by lia.
  rewrite Z.pow_add_r by lia. lia.
Qed.
