(* ===== verification/Containers.v ===== *)
(** * Ordered containers and loops of C++

    [std::map] and [std::set] as finite maps and sets that are walked in the
    order of their keys, and loops that carry a state and may throw. *)

From S2P Require Import Prelude.

Local Open Scope Z_scope.

Module Containers.

(** ** Loops *)

(** [for (b : l) a = f(a, b)], left by the first exception. *)
Fixpoint for_each {A B} (f : A → B → result A) (l : list B) (a : A) : result A :=
  match l with
  | [] => Ok a
  | b :: l => a ← f a b; for_each f l a
  end.

Lemma for_each_app {A B} (f : A → B → result A) l k a :
  for_each f (l ++ k) a = (a ← for_each f l a; for_each f k a).
Proof.
  revert a. induction l as [|b l IH]; intros a; [done|]. cbn [for_each app].
  destruct (f a b); [apply IH|done..].
Qed.

Lemma for_each_ext {A B} (f g : A → B → result A) l a : (∀ a b, f a b = g a b) → for_each f l a = for_each g l a.
Proof.
  intros Hfg. revert a. induction l as [|b l IH]; intros a; [done|]. cbn. rewrite Hfg.
  destruct (g a b); [apply IH|done..].
Qed.

Lemma for_each_fmap {A B C} (f : A → B → result A) (g : C → B) l a :
  for_each f (g <$> l) a = for_each (λ a c, f a (g c)) l a.
Proof. revert a. induction l as [|b l IH]; intros a; [done|]. cbn. destruct (f a (g b)); [apply IH|done..]. Qed.

(** A loop that keeps an invariant indexed by the items already visited. *)
Lemma for_each_inv {A B} (f : A → B → result A) (I : list B → A → Prop) l a :
  I [] a →
  (∀ k b r a, l = k ++ b :: r → I k a → ∃ a', f a b = Ok a' ∧ I (k ++ [b]) a') →
  ∃ a', for_each f l a = Ok a' ∧ I l a'.
Proof.
  intros HI Hstep.
  assert (∀ r k a, l = k ++ r → I k a → ∃ a', for_each f r a = Ok a' ∧ I l a') as Hgen.
  { intros r. induction r as [|b r IH]; intros k a' Hl Hk.
    - rewrite app_nil_r in Hl. subst k. by exists a'.
    - destruct (Hstep k b r a' Hl Hk) as (a2 & Hf & Ha2). cbn [for_each]. rewrite Hf. cbn [mbind result_bind].
      apply (IH (k ++ [b])); [|done]. by rewrite <- app_assoc. }
  by apply (Hgen l []).
Qed.

(** ** Keys and their order *)

Class KeyOrder (K : Type) := key_ltb : K → K → bool.
Class KeyOrderLaws (K : Type) `{KeyOrder K} := {
  key_ltb_irrefl a : key_ltb a a = false;
  key_ltb_trans a b c : key_ltb a b = true → key_ltb b c = true → key_ltb a c = true;
  key_ltb_total a b : a = b ∨ key_ltb a b = true ∨ key_ltb b a = true;
}.

Global Instance Z_order : KeyOrder Z := Z.ltb.
Global Instance Z_order_laws : KeyOrderLaws Z.
Proof. split; unfold key_ltb, Z_order; intros; lia. Qed.

(** Hashes and key images are compared with [memcmp]. *)
Global Instance bytes_order : KeyOrder (list Z) := lex_ltb.
Global Instance bytes_order_laws : KeyOrderLaws (list Z).
Proof. split; [apply lex_ltb_irrefl|apply lex_ltb_trans|apply lex_ltb_total]. Qed.

Definition key_le {K} `{KeyOrder K} (a b : K) : Prop := key_ltb b a = false.
Global Instance key_le_dec {K} `{KeyOrder K} : RelDecision (@key_le K _).
Proof. intros a b. unfold key_le. apply _. Defined.

Section order.
Context {K : Type} `{KeyOrderLaws K}.

Global Instance key_le_total : Total (@key_le K _).
Proof.
  intros a b. unfold key_le.
  destruct (key_ltb a b) eqn:E1; [left|by right]. destruct (key_ltb b a) eqn:E2; [|done].
  pose proof (key_ltb_trans _ _ _ E1 E2). by rewrite key_ltb_irrefl in *.
Qed.

Global Instance key_le_trans : Transitive (@key_le K _).
Proof.
  intros a b c. unfold key_le. intros Hab Hbc. destruct (key_ltb c a) eqn:Hca; [|done].
  destruct (key_ltb_total a b) as [->|[E|E]]; [congruence| |congruence].
  pose proof (key_ltb_trans _ _ _ Hca E). congruence.
Qed.

Lemma key_le_antisym (a b : K) : key_le a b → key_le b a → a = b.
Proof. unfold key_le. destruct (key_ltb_total a b) as [|[|]]; congruence. Qed.
End order.

(** ** [std::map] and [std::set] in iteration order *)

Definition entry_le {K A} `{KeyOrder K} (x y : K * A) : Prop := key_le x.1 y.1.
Global Instance entry_le_dec {K A} `{KeyOrder K} : RelDecision (@entry_le K A _).
Proof. intros x y. unfold entry_le. apply _. Defined.

Definition map_entries {K A} `{Countable K} `{KeyOrder K} (m : gmap K A) : list (K * A) :=
  merge_sort entry_le (map_to_list m).
Definition set_items {K} `{Countable K} `{KeyOrder K} (s : gset K) : list K :=
  merge_sort key_le (elements s).

(** [*begin()]. *)
Definition map_begin {K A} `{Countable K} `{KeyOrder K} (m : gmap K A) : option (K * A) := head (map_entries m).
Definition set_begin {K} `{Countable K} `{KeyOrder K} (s : gset K) : option K := head (set_items s).

Section entries.
Context {K : Type} `{Countable K, KeyOrderLaws K}.

Lemma map_entries_perm {A} (m : gmap K A) : map_entries m ≡ₚ map_to_list m.
Proof. apply merge_sort_Permutation. Qed.

Lemma elem_of_map_entries {A} (m : gmap K A) k x : (k, x) ∈ map_entries m ↔ m !! k = Some x.
Proof. by rewrite map_entries_perm, elem_of_map_to_list. Qed.

Lemma NoDup_map_entries {A} (m : gmap K A) : NoDup (map_entries m).*1.
Proof. rewrite map_entries_perm. apply NoDup_fst_map_to_list. Qed.

Global Instance entry_le_total {A} : Total (@entry_le K A _).
Proof. intros x y. apply key_le_total. Qed.
Global Instance entry_le_trans {A} : Transitive (@entry_le K A _).
Proof. intros x y z. apply key_le_trans. Qed.

Lemma map_begin_spec {A} (m : gmap K A) :
  match map_begin m with
  | Some (k, x) => m !! k = Some x ∧ ∀ k' x', m !! k' = Some x' → key_le k k'
  | None => m = ∅
  end.
Proof.
  unfold map_begin. pose proof (StronglySorted_merge_sort entry_le (map_to_list m)) as Hs.
  fold (map_entries m) in Hs. destruct (map_entries m) as [|[k x] l] eqn:He; cbn.
  - apply map_empty. intros k. apply eq_None_not_Some. intros [x Hx].
    apply elem_of_map_entries in Hx. rewrite He in Hx. by apply elem_of_nil in Hx.
  - split; [apply elem_of_map_entries; rewrite He; by left|]. intros k' x' Hx.
    apply elem_of_map_entries in Hx. rewrite He in Hx.
    apply elem_of_cons in Hx as [[= -> ->]|Hx]; [apply key_ltb_irrefl|].
    apply StronglySorted_inv in Hs as [_ Hall]. rewrite Forall_forall in Hall. apply (Hall _ Hx).
Qed.

Lemma set_begin_spec (s : gset K) :
  match set_begin s with
  | Some k => k ∈ s ∧ ∀ k', k' ∈ s → key_le k k'
  | None => s = ∅
  end.
Proof.
  unfold set_begin. pose proof (StronglySorted_merge_sort key_le (elements s)) as Hs.
  assert (∀ k, k ∈ set_items s ↔ k ∈ s) as Hin.
  { intros k. unfold set_items. by rewrite merge_sort_Permutation, elem_of_elements. }
  fold (set_items s) in Hs. destruct (set_items s) as [|k l] eqn:He; cbn.
  - apply leibniz_equiv. intros k. rewrite <- Hin. set_solver.
  - split; [apply Hin; by left|]. intros k' Hk'%Hin.
    apply elem_of_cons in Hk' as [->|Hk']; [apply key_ltb_irrefl|].
    apply StronglySorted_inv in Hs as [_ Hall]. rewrite Forall_forall in Hall. apply (Hall _ Hk').
Qed.

End entries.

End Containers.
