(* ===== verification/Varint.v ===== *)
(** * Variable-length integers (src/src/common/Varint.hpp, Varint.cpp, Streams.cpp)

    Two encodings.  The LEB128-style [write_varint]/[read_varint] is the wire
    format of every integer of a transaction or block; the sqlite4-style
    [write_varint_sqlite4]/[read_varint_sqlite4] builds database keys, whose
    byte order has to be the order of the integers. *)

From S2P Require Import Prelude.

Local Open Scope Z_scope.

Module Varint.

(** The [while] loop of [write_varint], writing into a buffer with room for
    [cap] bytes ([uint8_t buf[10]] in Streams.cpp). *)
Fixpoint write_varint_into (cap : nat) (i : Z) : result (list Z) :=
  match cap with
  | O => Undefined "write past the end of the varint buffer"
  | S cap =>
      if 0x80 <=? i
      then rest ← write_varint_into cap (Z.shiftr i 7);
           Ok (Z.lor (Z.land (u8 i) 0x7f) 0x80 :: rest)
      else Ok [u8 i]
  end.

(** [common::write_varint(IOutputStream&, uint64_t)]. *)
Definition write_varint (value : Z) : result (list Z) := write_varint_into 10 value.

(** [get_varint_data<uint64_t>]: the buffer has [(8 * 8 + 6) / 7] bytes. *)
Definition get_varint_data (v : Z) : result (list Z) :=
  write_varint_into (Z.to_nat ((8 * 8 + 6) / 7)) v.

(** [read_varint_helper<T>] of Streams.cpp for a [bits]-wide [T]: the loop is
    structural in the bytes it takes from the stream. *)
Fixpoint read_varint_loop (bits shift temp : Z) (s : list Z) : result (Z * list Z) :=
  match s with
  | [] => Throw "IInputStream reading from empty stream"
  | piece :: s =>
      if (bits - 7 <=? shift) && (Z.shiftl 1 (bits - shift) <=? piece)
      then Throw "read_varint, value overflow"
      else
        let temp := Z.lor temp (Z.shiftl (Z.land piece 0x7f) shift mod 2 ^ bits) in
        if Z.land piece 0x80 =? 0
        then if (piece =? 0) && negb (shift =? 0)
             then Throw "read_varint, invalid value representation"
             else Ok (temp, s)
        else read_varint_loop bits (shift + 7) temp s
  end.

Definition read_varint (bits : Z) (s : list Z) : result (Z * list Z) :=
  read_varint_loop bits 0 0 s.

(** The iterator version [read_varint<bits, InputIt, T>] of Varint.hpp: the
    returned [int] and the value left in the out-parameter [i]. *)
Fixpoint read_varint_iter_loop (bits shift read i : Z) (s : list Z) : Z * Z :=
  match s with
  | [] => (read, i)
  | byte :: s =>
      let read := read + 1 in
      if (bits <=? shift + 7) && (Z.shiftl 1 (bits - shift) <=? byte) then (-1, i)
      else if (byte =? 0) && negb (shift =? 0) then (-2, i)
      else
        let i := Z.lor i (Z.shiftl (Z.land byte 0x7f) shift mod 2 ^ bits) in
        if Z.land byte 0x80 =? 0 then (read, i)
        else read_varint_iter_loop bits (shift + 7) read i s
  end.

Definition read_varint_iter (bits : Z) (s : list Z) : Z * Z :=
  read_varint_iter_loop bits 0 0 0 s.

(** [uint_be_from_bytes<uint64_t>] and [uint_be_to_bytes<uint64_t>]. *)
Definition uint_be_from_bytes (buf : list Z) : Z :=
  foldl (λ result b, Z.lor (u64 (Z.shiftl result 8)) b) 0 buf.

Fixpoint uint_be_to_bytes (si : nat) (val : Z) : list Z :=
  match si with
  | O => []
  | S si => uint_be_to_bytes si (Z.shiftr val 8) ++ [u8 val]
  end.

Definition get_varint_sqlite4_size (val : Z) : Z :=
  if val <=? 240 then 1
  else if val <=? 2287 then 2
  else if val <=? 67823 then 3
  else if val <=? 16777215 then 4
  else if val <=? 4294967295 then 5
  else if val <=? 1099511627775 then 6
  else if val <=? 281474976710655 then 7
  else if val <=? 72057594037927935 then 8
  else 9.

Definition write_varint_sqlite4 (val : Z) : list Z :=
  if val <=? 240 then [u8 val]
  else if val <=? 2287 then [u8 ((val - 240) / 256 + 241); u8 (val - 240)]
  else if val <=? 67823 then [249; u8 ((val - 2288) / 256); u8 (val - 2288)]
  else if val <=? 16777215 then 250 :: uint_be_to_bytes 3 val
  else if val <=? 4294967295 then 251 :: uint_be_to_bytes 4 val
  else if val <=? 1099511627775 then 252 :: uint_be_to_bytes 5 val
  else if val <=? 281474976710655 then 253 :: uint_be_to_bytes 6 val
  else if val <=? 72057594037927935 then 254 :: uint_be_to_bytes 7 val
  else 255 :: uint_be_to_bytes 8 val.

(** [read(begin, end, to, len)]: [len] bytes, or an exception. *)
Definition read_n (len : nat) (s : list Z) : result (list Z * list Z) :=
  if (length s <? len)%nat then Throw "end of read"
  else Ok (take len s, drop len s).

(** [read_varint_sqlite4(begin, end)]: the value and the bytes left. *)
Definition read_varint_sqlite4 (s : list Z) : result (Z * list Z) :=
  '(a, s) ← read_n 1 s;
  let a0 := nth 0 a 0 in
  if a0 <=? 240 then Ok (a0, s)
  else if a0 <=? 248 then
    '(b, s) ← read_n 1 s;
    Ok (240 + 256 * (a0 - 241) + nth 0 b 0, s)
  else if a0 =? 249 then
    '(b, s) ← read_n 2 s;
    Ok (2288 + 256 * nth 0 b 0 + nth 1 b 0, s)
  else
    '(b, s) ← read_n (Z.to_nat (3 + a0 - 250)) s;
    Ok (uint_be_from_bytes b, s).

(** [read_varint_sqlite4(const std::string&)]. *)
Definition read_varint_sqlite4_str (str : list Z) : result Z :=
  '(val, s) ← read_varint_sqlite4 str;
  if bool_decide (s = []) then Ok val
  else Throw "read_varint_sqlite4 excess symbols in string".

(** ** LEB128 varints *)

Lemma write_varint_step cap i :
  0 ≤ i →
  write_varint_into (S cap) i =
    if 0x80 <=? i
    then rest ← write_varint_into cap (i / 2 ^ 7); Ok (i mod 2 ^ 7 + 128 :: rest)
    else Ok [i].
Proof.
  intros Hi. cbn [write_varint_into]. destruct (Z.leb_spec 0x80 i).
  - rewrite Z.shiftr_div_pow2 by lia. rewrite land_0x7f, lor_0x80 by words.
    replace (u8 i mod 2 ^ 7) with (i mod 2 ^ 7) by words. done.
  - by rewrite u8_small by lia.
Qed.

(** A [cap]-byte buffer is enough for [7 * cap]-bit values. *)
Lemma write_varint_fits cap i :
  0 ≤ i < 2 ^ (7 * Z.of_nat cap) → (0 < cap)%nat →
  ∃ bs, write_varint_into cap i = Ok bs ∧ bytes bs ∧ (0 < length bs ≤ cap)%nat.
Proof.
  revert i. induction cap as [|cap IH]; intros i Hi Hc; [lia|].
  rewrite write_varint_step by lia. destruct (Z.leb_spec 0x80 i).
  - destruct (decide (cap = O)) as [->|]; [simpl in *; lia|].
    destruct (IH (i / 2 ^ 7)) as (bs & -> & Hbs & Hl); [|lia|].
    + apply shiftr_lt; [lia..|].
      by replace (7 + 7 * Z.of_nat cap) with (7 * Z.of_nat (S cap)) by lia.
    + eexists; split; [done|]. split; [|simpl; lia].
      constructor; [words|done].
  - eexists; split; [done|]. split; [|simpl; lia]. repeat constructor; words.
Qed.

(** Seven more bits on top of [temp < p]: their value and their bounds. *)
Lemma pack_value temp m p q : temp + m * p + q * (p * 128) = temp + (128 * q + m) * p.
Proof. ring. Qed.
Lemma pack_bound temp m p : 0 ≤ temp < p → 0 ≤ m < 128 → 0 ≤ temp + m * p < p * 128.
Proof. nia. Qed.
Lemma pack_rest m p q n : 0 < p → 0 ≤ m → (128 * q + m) * p < n → q * (p * 128) < n.
Proof. nia. Qed.
Lemma pack_full m p q n : 0 < p → 0 ≤ m < 128 →
  q * (p * 128) < n → n mod (p * 128) = 0 → (128 * q + m) * p < n.
Proof.
  intros Hp Hm Hq Hn. apply Z.div_exact in Hn; [|lia].
  rewrite Hn in Hq |- *. set (k := n / (p * 128)) in *. clearbody k. clear Hn n.
  assert (q < k) by nia. nia.
Qed.

Section decode.
Context (bits : Z) (Hbits : 7 < bits).

(** The overflow guard of the reader never rejects what the writer of an
    in-range value produced. *)
Lemma overflow_guard shift piece v :
  0 ≤ shift < bits → 0 ≤ v → v * 2 ^ shift < 2 ^ bits → piece = v ∨ bits - 7 > shift →
  (bits - 7 <=? shift) && (Z.shiftl 1 (bits - shift) <=? piece) = false.
Proof.
  intros Hs Hv Hlt Hp. destruct (Z.leb_spec (bits - 7) shift); [|done]. simpl.
  rewrite Z.shiftl_1_l. apply Z.leb_gt. destruct Hp as [->|]; [|lia].
  apply (Z.mul_lt_mono_pos_r (2 ^ shift)); [apply Z.pow_pos_nonneg; lia|].
  rewrite <- Z.pow_add_r by lia. by replace (bits - shift + shift) with bits by lia.
Qed.

Lemma read_step_final shift temp b rest :
  0 ≤ shift < bits → 0 ≤ temp < 2 ^ shift → 0 ≤ b < 128 → b * 2 ^ shift < 2 ^ bits →
  (shift = 0 ∨ b ≠ 0) →
  read_varint_loop bits shift temp (b :: rest) = Ok (temp + b * 2 ^ shift, rest).
Proof.
  intros Hs Ht Hb Hlt Hz. cbn [read_varint_loop].
  rewrite (overflow_guard shift b b) by (lia || auto).
  rewrite land_0x80_zero by words. replace (b <? 128) with true by lia.
  replace ((b =? 0) && negb (shift =? 0)) with false by lia.
  rewrite land_0x7f, (Z.mod_small b) by lia.
  rewrite Z.mod_small, lor_shiftl_add; [done|lia..|].
  rewrite Z.shiftl_mul_pow2 by lia. pose proof (Z.pow_pos_nonneg 2 shift). nia.
Qed.

Lemma read_step_more shift temp b rest :
  0 ≤ shift < bits - 7 → 0 ≤ temp < 2 ^ shift → 0 ≤ b < 128 →
  read_varint_loop bits shift temp (b + 128 :: rest) =
  read_varint_loop bits (shift + 7) (temp + b * 2 ^ shift) rest.
Proof.
  intros Hs Ht Hb. cbn [read_varint_loop].
  replace (bits - 7 <=? shift) with false by lia. cbn [andb].
  rewrite land_0x80_zero by words. replace (b + 128 <? 128) with false by lia.
  rewrite land_0x7f. replace ((b + 128) mod 2 ^ 7) with b by words.
  rewrite Z.mod_small, lor_shiftl_add; [done|lia..|].
  rewrite Z.shiftl_mul_pow2 by lia.
  assert (0 < 2 ^ shift) by (apply Z.pow_pos_nonneg; lia).
  assert (2 ^ (7 + shift) < 2 ^ bits) as Hp by (apply Z.pow_lt_mono_r; lia).
  rewrite Z.pow_add_r in Hp by lia. nia.
Qed.

Lemma read_write_loop cap shift temp v rest :
  0 ≤ shift < bits → 0 ≤ temp < 2 ^ shift → 0 ≤ v → v * 2 ^ shift < 2 ^ bits →
  (shift = 0 ∨ v ≠ 0) → ∀ bs, write_varint_into cap v = Ok bs →
  read_varint_loop bits shift temp (bs ++ rest) = Ok (temp + v * 2 ^ shift, rest).
Proof.
  revert shift temp v. induction cap as [|cap IH];
    intros shift temp v Hs Ht Hv Hlt Hz bs Hw; [done|].
  rewrite write_varint_step in Hw by lia. destruct (Z.leb_spec 0x80 v).
  - inv_ok Hw. injection Hw as <-.
    assert (0 < 2 ^ shift) by (apply Z.pow_pos_nonneg; lia).
    assert (shift < bits - 7).
    { apply Z.lt_nge. intros Hge.
      assert (2 ^ bits ≤ 2 ^ (7 + shift)) as Hp by (apply Z.pow_le_mono_r; lia).
      rewrite Z.pow_add_r in Hp by lia. nia. }
    cbn [app]. rewrite read_step_more by words.
    assert (2 ^ (shift + 7) = 2 ^ shift * 2 ^ 7) as Hp by (apply Z.pow_add_r; lia).
    assert (v = 128 * (v / 2 ^ 7) + v mod 2 ^ 7) as Hdm by (apply Z.div_mod; lia).
    pose proof (Z.mod_pos_bound v (2 ^ 7) eq_refl) as Hm.
    assert (0 < v / 2 ^ 7) as Hq by words.
    set (q := v / 2 ^ 7) in *. set (m := v mod 2 ^ 7) in *. clearbody q m.
    subst v. change (2 ^ 7) with 128 in *. set (p := 2 ^ shift) in *. clearbody p.
    rewrite (IH (shift + 7) (temp + m * p) q); rewrite ?Hp;
      [do 2 f_equal; apply pack_value|lia|by apply pack_bound|lia| |lia|done].
    eapply pack_rest; [..|exact Hlt]; lia.
  - injection Hw as <-. cbn [app]. apply read_step_final; auto; lia.
Qed.

Lemma write_read_loop cap shift temp s r rest :
  bytes s → 0 ≤ shift < bits → bits ≤ shift + 7 * Z.of_nat cap → 0 ≤ temp < 2 ^ shift →
  read_varint_loop bits shift temp s = Ok (r, rest) →
  ∃ v bs, write_varint_into cap v = Ok bs ∧ s = bs ++ rest ∧ r = temp + v * 2 ^ shift ∧
    0 ≤ v ∧ v * 2 ^ shift < 2 ^ bits ∧ (shift = 0 ∨ v ≠ 0).
Proof.
  revert cap shift temp. induction s as [|b s IH];
    intros cap shift temp Hby Hs Hc Ht Hr; [done|].
  apply Forall_cons in Hby as [Hb Hby]. unfold is_byte in Hb.
  assert (0 < 2 ^ shift) by (apply Z.pow_pos_nonneg; lia).
  destruct cap as [|cap]; [lia|].
  destruct (Z.lt_ge_cases b 128) as [Hb'|Hb'].
  - assert ((bits - 7 <=? shift) && (Z.shiftl 1 (bits - shift) <=? b) = false ∧
            (shift = 0 ∨ b ≠ 0)) as [Hg Hz].
    { cbn [read_varint_loop] in Hr.
      destruct ((bits - 7 <=? shift) && _); [done|]. split; [done|].
      rewrite land_0x80_zero in Hr by words. replace (b <? 128) with true in Hr by lia.
      destruct ((b =? 0) && negb (shift =? 0)) eqn:E; [done|lia]. }
    assert (b * 2 ^ shift < 2 ^ bits) as Hlt.
    { replace bits with (bits - shift + shift) at 1 by lia.
      rewrite Z.pow_add_r by lia. apply Z.mul_lt_mono_pos_r; [done|].
      destruct (Z.leb_spec (bits - 7) shift).
      - simpl in Hg. rewrite Z.shiftl_1_l in Hg. lia.
      - eapply Z.lt_le_trans; [apply Hb'|]. change 128 with (2 ^ 7).
        apply Z.pow_le_mono_r; lia. }
    rewrite read_step_final in Hr by (lia || auto). injection Hr as <- <-.
    exists b, [b]. rewrite write_varint_step by lia.
    replace (0x80 <=? b) with false by lia. auto with lia.
  - assert (shift < bits - 7) as Hs'.
    { apply Z.lt_nge. intros Hge. cbn [read_varint_loop] in Hr.
      replace (bits - 7 <=? shift) with true in Hr by lia.
      rewrite Z.shiftl_1_l in Hr.
      assert (2 ^ (bits - shift) ≤ 2 ^ 7) by (apply Z.pow_le_mono_r; lia).
      replace (2 ^ (bits - shift) <=? b) with true in Hr by lia. done. }
    replace b with (b - 128 + 128) in Hr by lia. rewrite read_step_more in Hr by lia.
    assert (2 ^ (shift + 7) = 2 ^ shift * 2 ^ 7) as Hp by (apply Z.pow_add_r; lia).
    apply (IH cap) in Hr as (v & bs & Hw & -> & -> & Hv & Hlt & Hz); [|done|lia|lia|].
    + exists (b - 128 + v * 2 ^ 7), (b :: bs).
      rewrite write_varint_step by lia. replace (0x80 <=? _) with true by lia.
      replace ((b - 128 + v * 2 ^ 7) / 2 ^ 7) with v by words.
      replace ((b - 128 + v * 2 ^ 7) mod 2 ^ 7 + 128) with b by words.
      rewrite Hw. rewrite Hp in Hlt |- *.
      replace (b - 128 + v * 2 ^ 7) with (128 * v + (b - 128)) by lia.
      repeat split; [|lia| |lia].
      * rewrite <- pack_value. change (2 ^ 7) with 128. ring.
      * apply pack_full; [done|lia|exact Hlt|].
        change 128 with (2 ^ 7). rewrite <- Hp. replace bits with (bits - (shift + 7) + (shift + 7)) by lia.
        rewrite Z.pow_add_r by lia. apply Z.mod_mul. rewrite Hp. lia.
    + rewrite Hp. apply pack_bound; lia.
Qed.
End decode.

(** Reading any stream terminates normally or throws, and takes at least one byte. *)
Lemma read_varint_loop_ok bits shift temp s v rest :
  0 ≤ temp → read_varint_loop bits shift temp s = Ok (v, rest) →
  0 ≤ v ∧ ∃ used, s = used ++ rest ∧ used ≠ [].
Proof.
  revert shift temp. induction s as [|b s IH]; intros shift temp Ht Hr; [done|].
  cbn [read_varint_loop] in Hr.
  assert (0 ≤ Z.lor temp (Z.shiftl (Z.land b 0x7f) shift mod 2 ^ bits)).
  { apply Z.lor_nonneg. split; [done|].
    destruct (Z.lt_ge_cases bits 0).
    - rewrite Z.pow_neg_r by done. rewrite Z.mod_0_r. apply Z.shiftl_nonneg, Z.land_nonneg. lia.
    - apply Z.mod_pos_bound, Z.pow_pos_nonneg; lia. }
  repeat case_match; try done.
  - injection Hr as <- <-. split; [done|]. by exists [b].
  - apply IH in Hr as (? & used & -> & _); [|done]. split; [done|]. by exists (b :: used).
Qed.

(** The iterator reader agrees with the stream reader where that one succeeds
    (it also accepts a truncated varint, which the stream reader refuses). *)
Lemma read_varint_iter_loop_agrees bits shift temp read s v rest :
  read_varint_loop bits shift temp s = Ok (v, rest) →
  read_varint_iter_loop bits shift read temp s =
  (read + Z.of_nat (length s) - Z.of_nat (length rest), v).
Proof.
  revert shift temp read. induction s as [|b s IH]; intros shift temp read Hr; [done|].
  cbn [read_varint_loop read_varint_iter_loop] in *.
  replace (bits <=? shift + 7) with (bits - 7 <=? shift) by lia.
  destruct (_ && _); [done|]. destruct (Z.land b 0x80 =? 0) eqn:E.
  - destruct (_ && _); [done|]. injection Hr as <- <-. f_equal. simpl length. lia.
  - destruct (Z.eqb_spec b 0) as [->|]; [done|]. cbn [andb].
    rewrite (IH _ _ _ Hr). f_equal. simpl length. lia.
Qed.

Lemma read_varint_iter_agrees bits s v rest :
  read_varint bits s = Ok (v, rest) →
  read_varint_iter bits s = (Z.of_nat (length s) - Z.of_nat (length rest), v).
Proof. apply (read_varint_iter_loop_agrees bits 0 0 0). Qed.

Lemma read_varint_nonneg bits s v rest : read_varint bits s = Ok (v, rest) → 0 ≤ v.
Proof. intros Hr. destruct (read_varint_loop_ok _ _ _ _ _ _ (Z.le_refl 0) Hr). done. Qed.

Lemma read_varint_suffix bits s v rest :
  read_varint bits s = Ok (v, rest) → ∃ used, s = used ++ rest ∧ used ≠ [].
Proof. intros Hr. destruct (read_varint_loop_ok _ _ _ _ _ _ (Z.le_refl 0) Hr). done. Qed.

Lemma read_varint_defined bits s w : read_varint bits s ≠ Undefined w.
Proof.
  unfold read_varint. generalize 0 at 1 as shift. generalize 0 as temp.
  induction s as [|b s IH]; intros temp shift; [done|].
  cbn [read_varint_loop]. repeat case_match; done || apply IH.
Qed.

Definition width_ok (bits : Z) : Prop := 7 < bits ≤ 64.

Lemma write_varint_total v :
  in_u 64 v → ∃ bs, write_varint v = Ok bs ∧ bytes bs ∧ (0 < length bs ≤ 10)%nat.
Proof.
  intros [? Hv]. apply write_varint_fits; [|lia]. split; [done|].
  eapply Z.lt_trans; [exact Hv|]. by apply Z.pow_lt_mono_r.
Qed.

(** What is written as a varint is read back, whatever follows it. *)
Lemma read_write_varint bits v bs rest :
  width_ok bits → in_u bits v → write_varint v = Ok bs →
  read_varint bits (bs ++ rest) = Ok (v, rest).
Proof.
  intros Hb [??] Hw. unfold width_ok in Hb. unfold read_varint.
  erewrite read_write_loop; [..|exact Hw]; try lia.
  - do 2 f_equal. lia.
Qed.

(** Only the bytes [write_varint] produces are accepted: every integer has
    one encoding. *)
Lemma read_varint_canonical bits s v rest :
  width_ok bits → bytes s → read_varint bits s = Ok (v, rest) →
  in_u bits v ∧ ∃ bs, write_varint v = Ok bs ∧ s = bs ++ rest.
Proof.
  intros Hb Hs Hr. unfold width_ok in Hb.
  apply (write_read_loop bits ltac:(lia) 10) in Hr
    as (w & bs & Hw & -> & -> & Hv & Hlt & _); [|done|lia..].
  rewrite Z.add_0_l, Z.mul_1_r in *. split; [split; lia|]. eauto.
Qed.

(** ** sqlite4 varints *)

Lemma uint_be_to_bytes_S n v :
  uint_be_to_bytes (S n) v = uint_be_to_bytes n (v / 2 ^ 8) ++ [v mod 2 ^ 8].
Proof. cbn [uint_be_to_bytes]. by rewrite Z.shiftr_div_pow2 by lia. Qed.

Lemma length_uint_be_to_bytes n v : length (uint_be_to_bytes n v) = n.
Proof.
  revert v. induction n as [|n IH]; intros v; [done|].
  rewrite uint_be_to_bytes_S, length_app, IH. simpl. lia.
Qed.

Lemma bytes_uint_be_to_bytes n v : bytes (uint_be_to_bytes n v).
Proof.
  revert v. induction n as [|n IH]; intros v; [constructor|].
  rewrite uint_be_to_bytes_S. apply bytes_app. split; [apply IH|].
  repeat constructor; words.
Qed.

Lemma uint_be_from_to_bytes n v :
  (n ≤ 8)%nat → 0 ≤ v < 2 ^ (8 * Z.of_nat n) →
  uint_be_from_bytes (uint_be_to_bytes n v) = v.
Proof.
  revert v. induction n as [|n IH]; intros v Hn Hv.
  - simpl in *. cbv. lia.
  - rewrite uint_be_to_bytes_S. unfold uint_be_from_bytes in *.
    assert (0 ≤ v / 2 ^ 8 < 2 ^ (8 * Z.of_nat n)) as Hq.
    { apply shiftr_lt; [lia..|].
      by replace (8 + 8 * Z.of_nat n) with (8 * Z.of_nat (S n)) by lia. }
    rewrite foldl_app, IH by (lia || done). cbn [foldl].
    assert (2 ^ (8 * Z.of_nat n) ≤ 2 ^ 56) by (apply Z.pow_le_mono_r; lia).
    rewrite Z.shiftl_mul_pow2, u64_small by lia.
    rewrite Z.lor_comm, <- Z.shiftl_mul_pow2, lor_shiftl_add; words.
Qed.

Lemma uint_be_from_bytes_snoc l b :
  is_byte b → 0 ≤ uint_be_from_bytes l < 2 ^ 56 →
  uint_be_from_bytes (l ++ [b]) = uint_be_from_bytes l * 2 ^ 8 + b.
Proof.
  intros Hb Hl. unfold uint_be_from_bytes in *. rewrite foldl_app. cbn [foldl].
  set (x := foldl _ 0 l) in *. rewrite u64_small by (rewrite Z.shiftl_mul_pow2; lia).
  rewrite Z.lor_comm, lor_shiftl_add by (unfold is_byte in Hb; lia). lia.
Qed.

Lemma uint_be_from_bytes_bound l :
  bytes l → (length l ≤ 8)%nat → 0 ≤ uint_be_from_bytes l < 2 ^ (8 * Z.of_nat (length l)).
Proof.
  induction l as [|b l IH] using rev_ind; intros Hb Hl; [done|].
  rewrite length_app in *. simpl in Hl. apply bytes_app in Hb as [Hb Hbb].
  apply (proj1 (Forall_singleton _ _)) in Hbb. specialize (IH Hb ltac:(lia)).
  assert (2 ^ (8 * Z.of_nat (length l)) ≤ 2 ^ 56) by (apply Z.pow_le_mono_r; lia).
  rewrite uint_be_from_bytes_snoc by (done || lia).
  replace (8 * Z.of_nat (length l + length [b])) with (8 * Z.of_nat (length l) + 8) by (simpl; lia).
  rewrite Z.pow_add_r by lia. unfold is_byte in Hbb. lia.
Qed.

Lemma uint_be_to_from_bytes l :
  bytes l → (length l ≤ 8)%nat → uint_be_to_bytes (length l) (uint_be_from_bytes l) = l.
Proof.
  induction l as [|b l IH] using rev_ind; intros Hb Hl; [done|].
  rewrite length_app in *. simpl in Hl. apply bytes_app in Hb as [Hb Hbb].
  apply (proj1 (Forall_singleton _ _)) in Hbb. pose proof (uint_be_from_bytes_bound l Hb ltac:(lia)) as Hbd.
  assert (2 ^ (8 * Z.of_nat (length l)) ≤ 2 ^ 56) by (apply Z.pow_le_mono_r; lia).
  rewrite uint_be_from_bytes_snoc by (done || lia). simpl length. rewrite Nat.add_1_r.
  rewrite uint_be_to_bytes_S. unfold is_byte in Hbb.
  set (x := uint_be_from_bytes l) in *.
  replace ((x * 2 ^ 8 + b) / 2 ^ 8) with x by words.
  rewrite IH by (done || lia). do 2 f_equal. words.
Qed.

Lemma uint_be_lex n a b sa sb :
  0 ≤ a < b → b < 2 ^ (8 * Z.of_nat n) →
  lex_ltb (uint_be_to_bytes n a ++ sa) (uint_be_to_bytes n b ++ sb) = true.
Proof.
  revert a b sa sb. induction n as [|n IH]; intros a b sa sb Ha Hb; [simpl in *; lia|].
  rewrite !uint_be_to_bytes_S, <- !app_assoc.
  destruct (Z.eq_dec (a / 2 ^ 8) (b / 2 ^ 8)) as [Heq|Hne].
  - rewrite Heq, lex_ltb_app. apply lex_ltb_head. words.
  - apply IH; [words|]. apply shiftr_lt; [lia..|]. split; [lia|].
    by replace (8 + 8 * Z.of_nat n) with (8 * Z.of_nat (S n)) by lia.
Qed.

Lemma read_n_app n l rest : length l = n → read_n n (l ++ rest) = Ok (l, rest).
Proof.
  intros <-. unfold read_n. rewrite length_app.
  destruct (Nat.ltb_spec (length l + length rest) (length l)); [lia|].
  by rewrite take_app_length, drop_app_length.
Qed.

Lemma read_n_1 b rest : read_n 1 (b :: rest) = Ok ([b], rest).
Proof. apply (read_n_app 1 [b]). done. Qed.
Lemma read_n_2 b c rest : read_n 2 (b :: c :: rest) = Ok ([b; c], rest).
Proof. apply (read_n_app 2 [b; c]). done. Qed.

(** The nine shapes of an encoded value. *)
Inductive sqlite4_view (v : Z) : list Z → Prop :=
| view_1 : 0 ≤ v ≤ 240 → sqlite4_view v [v]
| view_2 : 240 < v ≤ 2287 → sqlite4_view v [(v - 240) / 256 + 241; (v - 240) mod 256]
| view_3 : 2287 < v ≤ 67823 → sqlite4_view v [249; (v - 2288) / 256; (v - 2288) mod 256]
| view_n n : (3 ≤ n ≤ 8)%nat → 67823 < v < 2 ^ (8 * Z.of_nat n) →
    ((n = 3)%nat ∨ 2 ^ (8 * Z.of_nat (n - 1)) ≤ v) →
    sqlite4_view v (250 + Z.of_nat (n - 3) :: uint_be_to_bytes n v).

Lemma write_varint_sqlite4_view v : in_u 64 v → sqlite4_view v (write_varint_sqlite4 v).
Proof.
  intros Hv. unfold write_varint_sqlite4, in_u in *.
  repeat match goal with |- context [v <=? ?k] => destruct (Z.leb_spec v k) end.
  - rewrite u8_small by lia. apply view_1. lia.
  - replace (u8 ((v - 240) / 256 + 241)) with ((v - 240) / 256 + 241) by words.
    apply view_2. lia.
  - replace (u8 ((v - 2288) / 256)) with ((v - 2288) / 256) by words.
    apply view_3. lia.
  - apply (view_n v 3); simpl; lia.
  - apply (view_n v 4); simpl; lia.
  - apply (view_n v 5); simpl; lia.
  - apply (view_n v 6); simpl; lia.
  - apply (view_n v 7); simpl; lia.
  - apply (view_n v 8); simpl; lia.
Qed.

Lemma read_write_varint_sqlite4 v rest :
  in_u 64 v → read_varint_sqlite4 (write_varint_sqlite4 v ++ rest) = Ok (v, rest).
Proof.
  intros Hv. destruct (write_varint_sqlite4_view v Hv) as [H|H|H|n Hn H _];
    unfold read_varint_sqlite4; cbn [app];
    rewrite read_n_1; cbn [mbind result_bind nth].
  - by replace (v <=? 240) with true by lia.
  - replace (_ <=? 240) with false by words. replace (_ <=? 248) with true by words.
    rewrite read_n_1. cbn [mbind result_bind nth].
    do 2 f_equal. words.
  - replace (249 <=? 240) with false by lia. replace (249 <=? 248) with false by lia.
    rewrite read_n_2. cbn [mbind result_bind nth].
    cbn -[Z.mul Z.add]. do 2 f_equal. words.
  - destruct (Z.leb_spec (250 + Z.of_nat (n - 3)) 240); [lia|].
    destruct (Z.leb_spec (250 + Z.of_nat (n - 3)) 248); [lia|].
    destruct (Z.eqb_spec (250 + Z.of_nat (n - 3)) 249); [lia|].
    rewrite read_n_app by (rewrite length_uint_be_to_bytes; lia).
    cbn [mbind result_bind]. by rewrite uint_be_from_to_bytes by lia.
Qed.

(** The order of the encodings, whatever follows them, is the order of the
    values. *)
Lemma write_varint_sqlite4_lex a b sa sb :
  in_u 64 a → in_u 64 b → a < b →
  lex_ltb (write_varint_sqlite4 a ++ sa) (write_varint_sqlite4 b ++ sb) = true.
Proof.
  intros Ha Hb Hlt.
  destruct (write_varint_sqlite4_view a Ha) as [Ha'|Ha'|Ha'|n Hn Ha' Hal],
    (write_varint_sqlite4_view b Hb) as [Hb'|Hb'|Hb'|m Hm Hb' Hbl]; cbn [app];
    try (exfalso; lia); try (apply lex_ltb_head; words).
  - destruct (Z.eq_dec ((a - 240) / 256) ((b - 240) / 256)) as [E|];
      [rewrite E, lex_ltb_cons|]; apply lex_ltb_head; words.
  - rewrite lex_ltb_cons.
    destruct (Z.eq_dec ((a - 2288) / 256) ((b - 2288) / 256)) as [E|];
      [rewrite E, lex_ltb_cons|]; apply lex_ltb_head; words.
  - destruct (decide (n = m)) as [->|Hne].
    + rewrite lex_ltb_cons. apply uint_be_lex; lia.
    + apply lex_ltb_head. destruct (decide (n < m)%nat); [lia|exfalso].
      destruct Hal as [->|Hal]; [lia|].
      assert (2 ^ (8 * Z.of_nat m) ≤ 2 ^ (8 * Z.of_nat (n - 1)))
        by (apply Z.pow_le_mono_r; lia). lia.
Qed.

Lemma length_write_varint_sqlite4 v :
  in_u 64 v → Z.of_nat (length (write_varint_sqlite4 v)) = get_varint_sqlite4_size v.
Proof.
  intros Hv. unfold write_varint_sqlite4, get_varint_sqlite4_size.
  repeat case_match; try done; simpl;
    by rewrite ?length_app, ?length_uint_be_to_bytes.
Qed.

Lemma bytes_write_varint_sqlite4 v : in_u 64 v → bytes (write_varint_sqlite4 v).
Proof.
  intros Hv. destruct (write_varint_sqlite4_view v Hv);
    repeat constructor; try apply bytes_uint_be_to_bytes; words.
Qed.

Lemma write_varint_sqlite4_app_inj a b sa sb :
  in_u 64 a → in_u 64 b →
  write_varint_sqlite4 a ++ sa = write_varint_sqlite4 b ++ sb → a = b ∧ sa = sb.
Proof.
  intros Ha Hb Heq. pose proof (read_write_varint_sqlite4 a sa Ha) as H1.
  rewrite Heq, read_write_varint_sqlite4 in H1 by done. naive_solver.
Qed.

(** ** Properties *)

(** C21: The wire varint is a bijection between the integers of the target
    width and their accepted encodings: a stream is read as [v] exactly when
    it starts with the bytes [write_varint] produces for [v], so no integer
    has two encodings and none is lost. *)
Theorem read_varint_iff_written bits s v rest :
  width_ok bits → bytes s →
  read_varint bits s = Ok (v, rest) ↔
  in_u bits v ∧ ∃ bs, write_varint v = Ok bs ∧ s = bs ++ rest.
Proof.
  intros Hb Hs. split; [by apply read_varint_canonical|].
  intros (Hv & bs & Hw & ->). by apply read_write_varint.
Qed.

Lemma read_varint_iff_written_witness :
  read_varint 32 [0xE5; 0x8E; 0x26; 7] = Ok (624485, [7]).
Proof.
  apply (read_varint_iff_written 32 [0xE5; 0x8E; 0x26; 7] 624485 [7]).
  - done.
  - repeat constructor; done.
  - split; [done|]. exists [0xE5; 0x8E; 0x26]. by vm_compute.
Defined.

(** The database varint is decoded back to the integer it encodes, and its
    byte order is the order of the integers whatever bytes follow it. *)
Lemma varint_sqlite4_ordered a b sa sb :
  in_u 64 a → in_u 64 b →
  read_varint_sqlite4 (write_varint_sqlite4 a ++ sa) = Ok (a, sa) ∧
  (a ≠ b → lex_ltb (write_varint_sqlite4 a ++ sa) (write_varint_sqlite4 b ++ sb) = (a <? b)).
Proof.
  intros Ha Hb. split; [by apply read_write_varint_sqlite4|]. intros Hne.
  destruct (Z.ltb_spec a b); [by apply write_varint_sqlite4_lex|].
  apply not_true_is_false. intros Hlt.
  pose proof (write_varint_sqlite4_lex b a sb sa Hb Ha ltac:(lia)) as Hgt.
  pose proof (lex_ltb_trans _ _ _ Hlt Hgt) as Hi. by rewrite lex_ltb_irrefl in Hi.
Qed.

Lemma varint_sqlite4_ordered_witness :
  lex_ltb (write_varint_sqlite4 2287 ++ [255]) (write_varint_sqlite4 2288 ++ []) = true.
Proof. apply (varint_sqlite4_ordered 2287 2288 [255] []); done. Defined.

End Varint.
