(* ===== verification/Words.v ===== *)
(** * Wide integer arithmetic and the proof-of-work test

    src/src/crypto/int-util.h ([mul128], [div128_32]), src/src/common/Int128.hpp
    ([Uint128]) and src/src/Core/Difficulty.cpp ([check_hash]). *)

From S2P Require Import Prelude.

Local Open Scope Z_scope.

Module Words.

Definition hi_dword (val : Z) : Z := Z.shiftr val 32.
Definition lo_dword (val : Z) : Z := Z.land val 0xFFFFFFFF.

(** [mul128] where the compiler has a 128-bit product: [(low, high)]. *)
Definition mul128 (multiplier multiplicand : Z) : Z * Z :=
  let res := multiplier * multiplicand in
  (u64 res, u64 (Z.shiftr res 64)).

(** [mul128] on other platforms: schoolbook multiplication on 32-bit halves. *)
Definition mul128_portable (multiplier multiplicand : Z) : result (Z * Z) :=
  let a := hi_dword multiplier in
  let b := lo_dword multiplier in
  let c := hi_dword multiplicand in
  let d := lo_dword multiplicand in
  let ac := u64 (a * c) in
  let ad := u64 (a * d) in
  let bc := u64 (b * c) in
  let bd := u64 (b * d) in
  let adbc := u64 (ad + bc) in
  let adbc_carry := if adbc <? ad then 1 else 0 in
  let product_lo := u64 (bd + u64 (Z.shiftl adbc 32)) in
  let product_lo_carry := if product_lo <? bd then 1 else 0 in
  let product_hi :=
    u64 (ac + Z.shiftr adbc 32 + u64 (Z.shiftl adbc_carry 32) + product_lo_carry) in
  if ac <=? product_hi then Ok (product_lo, product_hi)
  else Undefined "assert(ac <= *product_hi)".

(** [div_with_reminder]: the quotient and the new remainder. *)
Definition div_with_reminder (dividend divisor remainder : Z) : Z * Z :=
  let dividend := Z.lor dividend (u64 (Z.shiftl remainder 32)) in
  (dividend / divisor, u32 (dividend mod divisor)).

(** [div128_32]: [((quotient_hi, quotient_lo), remainder)]. *)
Definition div128_32 (dividend_hi dividend_lo divisor : Z) : result (Z * Z * Z) :=
  if divisor =? 0 then Undefined "division by zero" else
  let '(q3, remainder) := div_with_reminder (hi_dword dividend_hi) divisor 0 in
  let '(q2, remainder) := div_with_reminder (lo_dword dividend_hi) divisor remainder in
  let '(q1, remainder) := div_with_reminder (hi_dword dividend_lo) divisor remainder in
  let '(q0, remainder) := div_with_reminder (lo_dword dividend_lo) divisor remainder in
  Ok (Z.lor (u64 (Z.shiftl q3 32)) q2, Z.lor (u64 (Z.shiftl q1 32)) q0, remainder).

(** [common::Uint128] and its operators. *)
Record Uint128 := { lo : Z; hi : Z }.

Definition Uint128_add (a other : Uint128) : Uint128 :=
  let hi' := u64 (hi a + hi other) in
  let was_lo := lo a in
  let lo' := u64 (lo a + lo other) in
  {| lo := lo'; hi := if lo' <? was_lo then u64 (hi' + 1) else hi' |}.

Definition Uint128_sub (a other : Uint128) : Uint128 :=
  let hi' := u64 (hi a - hi other) in
  let hi' := if lo a <? lo other then u64 (hi' - 1) else hi' in
  {| lo := u64 (lo a - lo other); hi := hi' |}.

Definition Uint128_lt (a other : Uint128) : bool :=
  (hi a <? hi other) || ((hi a =? hi other) && (lo a <? lo other)).

(** [cadd] and [cadc] of Difficulty.cpp: carries out of 64-bit additions. *)
Definition cadd (a b : Z) : bool := u64 (a + b) <? a.
Definition cadc (a b : Z) (c : bool) : bool :=
  (u64 (a + b) <? a) || (c && (u64 (a + b) =? UINT64_MAX)).

(** The [i]-th [uint64_t] of a hash, little-endian. *)
Definition hash_word (hash : list Z) (i : nat) : Z := le_value (take 8 (drop (8 * i) hash)).

Definition check_hash (hash : list Z) (difficulty : Z) : bool :=
  let '(top, high) := mul128 (hash_word hash 3) difficulty in
  if negb (high =? 0) then false
  else
    let '(_, cur) := mul128 (hash_word hash 0) difficulty in
    let '(low, high) := mul128 (hash_word hash 1) difficulty in
    let carry := cadd cur low in
    let cur := high in
    let '(low, high) := mul128 (hash_word hash 2) difficulty in
    let carry := cadc cur low carry in
    let carry := cadc high top carry in
    negb carry.

(** ** 128-bit products *)

Lemma hi_lo_dword v : in_u 64 v →
  v = lo_dword v + hi_dword v * 2 ^ 32 ∧ 0 ≤ lo_dword v < 2 ^ 32 ∧ 0 ≤ hi_dword v < 2 ^ 32.
Proof.
  intros Hv. unfold lo_dword, hi_dword.
  change 0xFFFFFFFF with (2 ^ 32 - 1). rewrite land_ones_mod by lia.
  rewrite Z.shiftr_div_pow2 by lia. words.
Qed.

Lemma mul128_spec a b low high :
  in_u 64 a → in_u 64 b → mul128 a b = (low, high) →
  a * b = low + high * 2 ^ 64 ∧ 0 ≤ low < 2 ^ 64 ∧ 0 ≤ high < 2 ^ 64.
Proof.
  intros Ha Hb Heq. unfold mul128 in Heq. injection Heq as <- <-.
  rewrite Z.shiftr_div_pow2 by lia. unfold in_u in *.
  assert (0 ≤ a * b < 2 ^ 64 * 2 ^ 64) by nia.
  rewrite (u64_small (_ / _)); [unfold u64|];
    pose proof (Z.div_mod (a * b) (2 ^ 64) ltac:(lia));
    pose proof (Z.mod_pos_bound (a * b) (2 ^ 64) eq_refl);
    set (q := a * b / 2 ^ 64) in *; set (r := a * b mod 2 ^ 64) in *; clearbody q r; lia.
Qed.

(** Two additions of 64-bit words with their carries recombine. *)
Lemma add_carry a b : in_u 64 a → in_u 64 b →
  a + b = u64 (a + b) + (if u64 (a + b) <? a then 1 else 0) * 2 ^ 64.
Proof. intros Ha Hb. destruct (Z.ltb_spec (u64 (a + b)) a); words. Qed.

Lemma mul128_portable_unique low high low' high' :
  0 ≤ low < 2 ^ 64 → 0 ≤ low' < 2 ^ 64 →
  low + high * 2 ^ 64 = low' + high' * 2 ^ 64 → low = low' ∧ high = high'.
Proof. lia. Qed.

Lemma u64_shiftl32 x : in_u 64 x → u64 (Z.shiftl x 32) = lo_dword x * 2 ^ 32.
Proof.
  intros Hx. destruct (hi_lo_dword x Hx) as (E & Hl & Hh).
  rewrite Z.shiftl_mul_pow2 by lia. rewrite E at 1.
  set (l := lo_dword x) in *. set (h := hi_dword x) in *. clearbody l h. words.
Qed.

Lemma prod32 x y : 0 ≤ x < 2 ^ 32 → 0 ≤ y < 2 ^ 32 → 0 ≤ x * y ≤ (2 ^ 32 - 1) * (2 ^ 32 - 1).
Proof. nia. Qed.

Lemma mul128_portable_ok a b :
  in_u 64 a → in_u 64 b → mul128_portable a b = Ok (mul128 a b).
Proof.
  intros Ha Hb. destruct (mul128 a b) as [low high] eqn:E.
  destruct (mul128_spec a b low high Ha Hb E) as (HM & Hl & Hh). clear E.
  destruct (hi_lo_dword a Ha) as (Ea & Hal & Hah), (hi_lo_dword b Hb) as (Eb & Hbl & Hbh).
  unfold mul128_portable.
  set (x := lo_dword a) in *. set (y := hi_dword a) in *.
  set (z := lo_dword b) in *. set (w := hi_dword b) in *. clearbody x y z w. subst a b.
  pose proof (prod32 y w Hah Hbh). pose proof (prod32 y z Hah Hbl).
  pose proof (prod32 x w Hal Hbh). pose proof (prod32 x z Hal Hbl).
  assert ((x + y * 2 ^ 32) * (z + w * 2 ^ 32) =
          x * z + (y * z + x * w) * 2 ^ 32 + y * w * 2 ^ 64) as EM by ring.
  rewrite EM in HM. clear EM Ha Hb Hal Hah Hbl Hbh.
  set (ac := y * w) in *. set (ad := y * z) in *. set (bc := x * w) in *.
  set (bd := x * z) in *. clearbody ac ad bc bd. clear x y z w.
  rewrite (u64_small ac), (u64_small ad), (u64_small bc), (u64_small bd) by lia.
  assert (in_u 64 ad) as Had by words. assert (in_u 64 bc) as Hbc by words.
  assert (in_u 64 bd) as Hbd by words.
  pose proof (add_carry ad bc Had Hbc) as E1. pose proof (u64_bound (ad + bc)) as B1.
  set (adbc := u64 (ad + bc)) in *. clearbody adbc.
  rewrite !u64_shiftl32 by (case_match; words).
  destruct (hi_lo_dword adbc B1) as (E2 & Hlo & Hhi).
  change (Z.shiftr adbc 32) with (hi_dword adbc).
  set (al := lo_dword adbc) in *. set (ah := hi_dword adbc) in *. clearbody al ah.
  assert (in_u 64 (al * 2 ^ 32)) as Hal by words.
  pose proof (add_carry bd _ Hbd Hal) as E3. pose proof (u64_bound (bd + al * 2 ^ 32)) as B3.
  set (plo := u64 (bd + al * 2 ^ 32)) in *. clearbody plo.
  set (c1 := if adbc <? ad then 1 else 0) in *.
  set (c2 := if plo <? bd then 1 else 0) in *.
  assert (0 ≤ c1 ≤ 1) by (unfold c1; case_match; lia).
  assert (0 ≤ c2 ≤ 1) by (unfold c2; case_match; lia).
  assert (lo_dword c1 = c1) as -> by (unfold c1; by case_match).
  clearbody c1 c2. clear Had Hbc Hbd Hal.
  assert (plo = low ∧ ac + ah + c1 * 2 ^ 32 + c2 = high) as [-> EH] by lia.
  rewrite EH, (u64_small high) by lia. by replace (ac <=? high) with true by lia.
Qed.

(** ** Long division *)

Lemma div_with_reminder_spec x d r :
  0 ≤ x < 2 ^ 32 → 0 ≤ r < d → d < 2 ^ 32 →
  div_with_reminder x d r = ((x + r * 2 ^ 32) / d, (x + r * 2 ^ 32) mod d) ∧
  0 ≤ (x + r * 2 ^ 32) / d < 2 ^ 32.
Proof.
  intros Hx Hr Hd. unfold div_with_reminder.
  assert (Z.lor x (u64 (Z.shiftl r 32)) = x + r * 2 ^ 32) as ->.
  { rewrite u64_small; [by apply lor_shiftl_add|]. rewrite Z.shiftl_mul_pow2; lia. }
  pose proof (Z.mod_pos_bound (x + r * 2 ^ 32) d ltac:(lia)).
  rewrite u32_small by lia. split; [done|].
  split; [apply Z.div_pos; lia|]. apply Z.div_lt_upper_bound; nia.
Qed.

Lemma div_step x d r : 0 < d → 0 ≤ r < d →
  (x + r * 2 ^ 32) / d * d + (x + r * 2 ^ 32) mod d = x + r * 2 ^ 32 ∧
  0 ≤ (x + r * 2 ^ 32) mod d < d.
Proof.
  intros Hd Hr. split; [|by apply Z.mod_pos_bound].
  rewrite (Z.div_mod (x + r * 2 ^ 32) d) at 3 by lia. ring.
Qed.

Lemma div128_32_spec dh dl d qh ql r :
  in_u 64 dh → in_u 64 dl → in_u 32 d → div128_32 dh dl d = Ok (qh, ql, r) →
  dl + dh * 2 ^ 64 = (ql + qh * 2 ^ 64) * d + r ∧
  0 ≤ r < d ∧ 0 ≤ ql < 2 ^ 64 ∧ 0 ≤ qh < 2 ^ 64.
Proof.
  intros Hh Hl Hd Heq. unfold div128_32 in Heq.
  destruct (Z.eqb_spec d 0) as [|Hd0]; [done|]. unfold in_u in Hd.
  destruct (hi_lo_dword dh Hh) as (Eh & B2 & B3), (hi_lo_dword dl Hl) as (El & B0 & B1).
  set (x3 := hi_dword dh) in *. set (x2 := lo_dword dh) in *.
  set (x1 := hi_dword dl) in *. set (x0 := lo_dword dl) in *. clearbody x0 x1 x2 x3.
  destruct (div_with_reminder_spec x3 d 0) as [Q3 C3]; [lia..|].
  destruct (div_step x3 d 0) as [D3 R3]; [lia..|]. rewrite Q3 in Heq.
  set (q3 := _ / d) in *. set (r3 := _ mod d) in *. clearbody q3 r3.
  destruct (div_with_reminder_spec x2 d r3) as [Q2 C2]; [lia..|].
  destruct (div_step x2 d r3) as [D2 R2]; [lia..|]. rewrite Q2 in Heq.
  set (q2 := _ / d) in *. set (r2 := _ mod d) in *. clearbody q2 r2.
  destruct (div_with_reminder_spec x1 d r2) as [Q1 C1]; [lia..|].
  destruct (div_step x1 d r2) as [D1 R1]; [lia..|]. rewrite Q1 in Heq.
  set (q1 := _ / d) in *. set (r1 := _ mod d) in *. clearbody q1 r1.
  destruct (div_with_reminder_spec x0 d r1) as [Q0 C0]; [lia..|].
  destruct (div_step x0 d r1) as [D0 R0]; [lia..|]. rewrite Q0 in Heq.
  set (q0 := _ / d) in *. set (r0 := _ mod d) in *. clearbody q0 r0.
  injection Heq as <- <- <-.
  rewrite !u64_small by (rewrite Z.shiftl_mul_pow2 by lia; lia).
  rewrite !(Z.lor_comm (Z.shiftl _ _)), !lor_shiftl_add by lia. lia.
Qed.

Lemma div128_32_total dh dl d : 0 < d → is_ok (div128_32 dh dl d).
Proof.
  intros Hd. unfold div128_32. replace (d =? 0) with false by lia.
  repeat (destruct (div_with_reminder _ _ _)). by eexists.
Qed.

(** ** [Uint128] is arithmetic modulo [2 ^ 128] *)

Definition u128_val (a : Uint128) : Z := lo a + hi a * 2 ^ 64.
Definition u128_wf (a : Uint128) : Prop := in_u 64 (lo a) ∧ in_u 64 (hi a).

Lemma Uint128_add_val a b :
  u128_wf a → u128_wf b →
  u128_val (Uint128_add a b) = (u128_val a + u128_val b) mod 2 ^ 128 ∧
  u128_wf (Uint128_add a b).
Proof.
  destruct a as [al ah], b as [bl bh]. unfold u128_wf, u128_val, Uint128_add. simpl.
  intros [Ha1 Ha2] [Hb1 Hb2]. change (2 ^ 128) with (2 ^ 64 * 2 ^ 64).
  destruct (Z.ltb_spec (u64 (al + bl)) al); words.
Qed.

Lemma Uint128_sub_val a b :
  u128_wf a → u128_wf b →
  u128_val (Uint128_sub a b) = (u128_val a - u128_val b) mod 2 ^ 128 ∧
  u128_wf (Uint128_sub a b).
Proof.
  destruct a as [al ah], b as [bl bh]. unfold u128_wf, u128_val, Uint128_sub. simpl.
  intros [Ha1 Ha2] [Hb1 Hb2]. change (2 ^ 128) with (2 ^ 64 * 2 ^ 64).
  destruct (Z.ltb_spec al bl); words.
Qed.

Lemma Uint128_lt_val a b :
  u128_wf a → u128_wf b → Uint128_lt a b = (u128_val a <? u128_val b).
Proof.
  destruct a as [al ah], b as [bl bh]. unfold u128_wf, u128_val, Uint128_lt, in_u. simpl.
  intros [Ha1 Ha2] [Hb1 Hb2]. lia.
Qed.

(** ** The difficulty test *)

Lemma cadd_spec a b : in_u 64 a → in_u 64 b → cadd a b = (2 ^ 64 <=? a + b).
Proof.
  intros Ha Hb. unfold cadd. pose proof (add_carry a b Ha Hb) as E.
  pose proof (u64_bound (a + b)). destruct (u64 (a + b) <? a) eqn:L; lia.
Qed.

Lemma cadc_spec a b c :
  in_u 64 a → in_u 64 b → cadc a b c = (2 ^ 64 <=? a + b + (if c then 1 else 0)).
Proof.
  intros Ha Hb. unfold cadc, UINT64_MAX. pose proof (add_carry a b Ha Hb) as E.
  pose proof (u64_bound (a + b)). unfold in_u in *.
  destruct (u64 (a + b) <? a) eqn:L, c; cbn [andb orb]; lia.
Qed.

Lemma hash_words hash : bytes hash → length hash = 32%nat →
  le_value hash = hash_word hash 0 + hash_word hash 1 * 2 ^ 64 +
    hash_word hash 2 * 2 ^ 128 + hash_word hash 3 * 2 ^ 192 ∧
  ∀ i, in_u 64 (hash_word hash i).
Proof.
  intros Hb Hl. split.
  - do 32 (destruct hash as [|? hash]; [done|]). destruct hash; [|done].
    cbv [hash_word take drop Nat.mul Nat.add le_value]. ring.
  - intros i. unfold hash_word.
    assert (bytes (take 8 (drop (8 * i) hash))) as Hk by (by apply Forall_take, Forall_drop).
    destruct (le_value_bound _ Hk) as [H1 H2]. split; [done|].
    eapply Z.lt_le_trans; [exact H2|]. apply Z.pow_le_mono_r; [lia|].
    rewrite length_take. lia.
Qed.

(** Carrying through 64-bit columns computes the top carry of the sum. *)
Lemma check_hash_exact hash difficulty :
  bytes hash → length hash = 32%nat → in_u 64 difficulty →
  check_hash hash difficulty = (le_value hash * difficulty <? 2 ^ 256).
Proof.
  intros Hb Hl Hd. destruct (hash_words hash Hb Hl) as [-> Hw]. unfold check_hash.
  destruct (mul128 (hash_word hash 3) difficulty) as [l3 h3] eqn:E3.
  destruct (mul128 (hash_word hash 0) difficulty) as [l0 h0] eqn:E0.
  destruct (mul128 (hash_word hash 1) difficulty) as [l1 h1] eqn:E1.
  destruct (mul128 (hash_word hash 2) difficulty) as [l2 h2] eqn:E2.
  apply mul128_spec in E0 as (E0 & ? & ?), E1 as (E1 & ? & ?),
    E2 as (E2 & ? & ?), E3 as (E3 & ? & ?); auto.
  rewrite !Z.mul_add_distr_r, <- !(Z.mul_assoc _ (2 ^ _)), !(Z.mul_comm (2 ^ _)), !Z.mul_assoc.
  rewrite E0, E1, E2, E3. clear E0 E1 E2 E3 Hw.
  destruct (Z.eqb_spec h3 0) as [->|]; cbn [negb]; [|lia].
  rewrite cadd_spec, !cadc_spec by (unfold in_u; lia).
  repeat match goal with
  | |- context [if ?b then _ else _] =>
      lazymatch b with context [if _ then _ else _] => fail | _ => destruct b eqn:? end
  end; lia.
Qed.

(** ** Properties *)

(** C16: The proof-of-work test is exact: [check_hash] accepts a hash when the
    256-bit little-endian number it spells, times the difficulty, is below
    [2 ^ 256], whatever carries the four partial products produce. *)
Theorem check_hash_is_256_bit_test hash difficulty :
  bytes hash → length hash = 32%nat → in_u 64 difficulty →
  check_hash hash difficulty = true ↔ le_value hash * difficulty < 2 ^ 256.
Proof. intros. rewrite check_hash_exact by done. apply Z.ltb_lt. Qed.

Lemma check_hash_is_256_bit_test_witness :
  check_hash (replicate 31 0 ++ [1]) 256 = false ∧ check_hash (replicate 31 0 ++ [1]) 255 = true.
Proof.
  split.
  - apply not_true_is_false.
    intros H%(check_hash_is_256_bit_test (replicate 31 0 ++ [1]) 256); [done| |done..].
    by apply (bool_decide_unpack _).
  - apply (check_hash_is_256_bit_test (replicate 31 0 ++ [1]) 255); [|done..].
    by apply (bool_decide_unpack _).
Defined.

(** The portable 128-bit product and the 128-by-32 division used for
    rewards are exact: both [mul128] implementations give the full product,
    and [div128_32] returns for every positive divisor the quotient and
    remainder of the 128-bit dividend. *)
Lemma mul128_div128_exact a b d :
  in_u 64 a → in_u 64 b → in_u 32 d → 0 < d →
  ∃ low high qh ql r,
    mul128 a b = (low, high) ∧ mul128_portable a b = Ok (low, high) ∧
    a * b = low + high * 2 ^ 64 ∧
    div128_32 high low d = Ok (qh, ql, r) ∧
    ql + qh * 2 ^ 64 = a * b / d ∧ r = (a * b) mod d.
Proof.
  intros Ha Hb Hd Hpos. destruct (mul128 a b) as [low high] eqn:E.
  destruct (mul128_spec a b low high Ha Hb E) as (Hab & Hl & Hh).
  destruct (div128_32_total high low d Hpos) as [[[qh ql] r] Hdiv].
  destruct (div128_32_spec high low d qh ql r) as (Hq & Hr & _ & _); [done..|].
  exists low, high, qh, ql, r. rewrite mul128_portable_ok, E by done.
  split_and!; [done..| |].
  - rewrite Hab, Hq. apply Z.div_unique with r; lia.
  - rewrite Hab, Hq. apply Z.mod_unique with (ql + qh * 2 ^ 64); lia.
Qed.

Lemma mul128_div128_exact_witness :
  ∃ low high qh ql r, mul128 (2 ^ 64 - 1) (2 ^ 63 + 5) = (low, high) ∧
    mul128_portable (2 ^ 64 - 1) (2 ^ 63 + 5) = Ok (low, high) ∧
    (2 ^ 64 - 1) * (2 ^ 63 + 5) = low + high * 2 ^ 64 ∧
    div128_32 high low 1000003 = Ok (qh, ql, r) ∧
    ql + qh * 2 ^ 64 = (2 ^ 64 - 1) * (2 ^ 63 + 5) / 1000003 ∧
    r = ((2 ^ 64 - 1) * (2 ^ 63 + 5)) mod 1000003.
Proof. apply (mul128_div128_exact (2 ^ 64 - 1) (2 ^ 63 + 5) 1000003); done. Defined.

End Words.
