(* ===== verification/Seria.v ===== *)
(** * Memory streams and binary serialization

    src/src/common/Streams.cpp and MemoryStreams.cpp (reading), and the binary
    archives of src/src/seria (BinaryInputStream, BinaryOutputStream, the
    containers of ISeria.hpp).

    The C++ serializers are written once for both directions ([ISeria] is
    either an input or an output archive).  Here such a serializer is a
    [codec]: the two directions side by side, and the condition under which a
    value survives them.  [CodecLaws] is what a serializer promises to its
    clients (what is written is read back), [CodecCanonical] that nothing
    else is accepted; the combinators preserve both, so the laws of a whole
    message follow from its shape. *)

From S2P Require Import Prelude Varint.

Local Open Scope Z_scope.

Module Streams.

Definition CHUNK : Z := 1024 * 1024.

(** [MemoryInputStream::read_some]: the bytes delivered and the bytes left. *)
Definition read_some (size : Z) (s : list Z) : list Z * list Z :=
  let size := Z.to_nat (Z.min size (Z.of_nat (length s))) in
  (take size s, drop size s).

(** [IInputStream::read]: loop until [count] bytes came.  Every round but the
    last takes a byte from the stream, so [S (length s)] rounds are enough. *)
Fixpoint read_loop (fuel : nat) (count : Z) (s : list Z) : result (list Z * list Z) :=
  if count =? 0 then Ok ([], s) else
  match fuel with
  | O => Undefined "out of fuel"
  | S fuel =>
      let '(d, s) := read_some count s in
      let rc := Z.of_nat (length d) in
      if rc =? 0 then Throw "IInputStream reading from empty stream"
      else '(d', s) ← read_loop fuel (count - rc) s; Ok (d ++ d', s)
  end.

Definition stream_read (count : Z) (s : list Z) : result (list Z * list Z) :=
  read_loop (S (length s)) count s.

(** [common::read(in, data, size)]: grow [data] by at most [CHUNK] bytes at a
    time, so that a forged size does not allocate more than was sent. *)
Fixpoint read_chunks (fuel : nat) (data : list Z) (size : Z) (s : list Z) :
    result (list Z * list Z) :=
  if Z.of_nat (length data) =? size then Ok (data, s) else
  match fuel with
  | O => Undefined "out of fuel"
  | S fuel =>
      let add := Z.min CHUNK (size - Z.of_nat (length data)) in
      '(d, s) ← stream_read add s;
      read_chunks fuel (data ++ d) size s
  end.

Definition read_array (size : Z) (s : list Z) : result (list Z * list Z) :=
  '(data, s) ← stream_read (Z.min CHUNK size) s;
  read_chunks (S (length s)) data size s.

Lemma stream_read_spec count s :
  0 ≤ count →
  stream_read count s =
    if count <=? Z.of_nat (length s)
    then Ok (take (Z.to_nat count) s, drop (Z.to_nat count) s)
    else Throw "IInputStream reading from empty stream".
Proof.
  intros Hc. unfold stream_read. cbn [read_loop]. unfold read_some at 1.
  destruct (Z.eqb_spec count 0) as [->|].
  { replace (0 <=? Z.of_nat (length s)) with true by lia. done. }
  rewrite length_take. destruct (Z.leb_spec count (Z.of_nat (length s))) as [Hle|Hgt].
  - replace (Z.min count (Z.of_nat (length s))) with count by lia.
    rewrite Nat.min_l, Z2Nat.id by lia.
    replace (count =? 0) with false by lia. rewrite Z.sub_diag.
    destruct (length s); simpl; by rewrite app_nil_r.
  - replace (Z.min count (Z.of_nat (length s))) with (Z.of_nat (length s)) by lia.
    rewrite Nat2Z.id, drop_all, take_ge, Nat.min_id by lia.
    destruct s as [|b s]; [done|].
    replace (Z.of_nat (length (b :: s)) =? 0) with false by (simpl; lia).
    cbn [length read_loop].
    replace (count - _ =? 0) with false by (simpl in *; lia).
    unfold read_some. by rewrite take_nil, drop_nil.
Qed.

Lemma stream_read_app d s :
  stream_read (Z.of_nat (length d)) (d ++ s) = Ok (d, s).
Proof.
  rewrite stream_read_spec by lia. rewrite length_app.
  replace (_ <=? _) with true by lia. rewrite Nat2Z.id.
  by rewrite take_app_length, drop_app_length.
Qed.

Lemma stream_read_inv n s d rest :
  0 ≤ n → stream_read n s = Ok (d, rest) → s = d ++ rest ∧ Z.of_nat (length d) = n.
Proof.
  intros Hn. rewrite stream_read_spec by done.
  destruct (Z.leb_spec n (Z.of_nat (length s))); [|done]. intros [= <- <-].
  rewrite take_drop, length_take. split; [done|lia].
Qed.

Lemma read_chunks_spec fuel data size s :
  Z.of_nat (length data) ≤ size → (length s < fuel)%nat →
  read_chunks fuel data size s =
    '(d, s) ← stream_read (size - Z.of_nat (length data)) s; Ok (data ++ d, s).
Proof.
  revert data s. induction fuel as [|fuel IH]; intros data s Hle Hf; [lia|].
  cbn [read_chunks]. destruct (Z.eqb_spec (Z.of_nat (length data)) size) as [<-|Hne].
  { rewrite Z.sub_diag, stream_read_spec by lia.
    replace (0 <=? Z.of_nat (length s)) with true by lia. simpl. by rewrite app_nil_r. }
  set (n := size - Z.of_nat (length data)) in *.
  assert (0 < n) by lia. unfold CHUNK.
  rewrite (stream_read_spec (Z.min _ n)), (stream_read_spec n) by lia.
  destruct (Z.leb_spec (Z.min (1024 * 1024) n) (Z.of_nat (length s))) as [Hc|Hc].
  - cbn [mbind result_bind]. rewrite IH; rewrite ?length_app, ?length_take, ?length_drop; [|lia..].
    rewrite stream_read_spec, length_drop by lia.
    destruct (Z.leb_spec n (Z.of_nat (length s))) as [Hn|Hn].
    + replace (_ <=? _) with true by lia. cbn [mbind result_bind].
      rewrite <- app_assoc, drop_drop. rewrite take_take_drop. repeat f_equal; lia.
    + by replace (_ <=? _) with false by lia.
  - by replace (n <=? _) with false by lia.
Qed.

(** Reading in chunks is reading at once. *)
Lemma read_array_spec size s : 0 ≤ size → read_array size s = stream_read size s.
Proof.
  intros Hs. unfold read_array. rewrite stream_read_spec by (unfold CHUNK; lia).
  destruct (Z.leb_spec (Z.min CHUNK size) (Z.of_nat (length s))) as [Hc|Hc];
    cbn [mbind result_bind].
  - rewrite read_chunks_spec; rewrite ?length_take; [|unfold CHUNK in *; lia..].
    rewrite !stream_read_spec, length_drop by (unfold CHUNK in *; lia).
    destruct (Z.leb_spec size (Z.of_nat (length s))).
    + replace (_ <=? _) with true by (unfold CHUNK in *; lia). cbn [mbind result_bind].
      rewrite drop_drop, take_take_drop.
      repeat f_equal; unfold CHUNK in *; lia.
    + by replace (_ <=? _) with false by (unfold CHUNK in *; lia).
  - rewrite stream_read_spec by done.
    by replace (size <=? _) with false by (unfold CHUNK in *; lia).
Qed.

End Streams.

Module Codec.

(** One serializer, both directions.  [c_ok] is the well-formedness of a value
    (widths of its integers, lengths of its fixed arrays). *)
Record codec (A : Type) := {
  c_put : A → result (list Z);
  c_get : list Z → result (A * list Z);
  c_ok : A → Prop;
}.
Arguments c_put {A}.
Arguments c_get {A}.
Arguments c_ok {A}.

(** [to_binary] and [from_binary]: the latter refuses trailing bytes. *)
Definition to_binary {A} (c : codec A) (a : A) : result (list Z) := c_put c a.

Definition from_binary {A} (c : codec A) (blob : list Z) : result A :=
  '(a, rest) ← c_get c blob;
  if bool_decide (rest = []) then Ok a else Throw "Excess data in from_binary".

Definition binary_size {A} (c : codec A) (a : A) : result Z :=
  bs ← c_put c a; Ok (Z.of_nat (length bs)).

Class CodecLaws {A} (c : codec A) : Prop := {
  put_total : ∀ a, c_ok c a → ∃ bs, c_put c a = Ok bs ∧ bytes bs;
  get_put : ∀ a bs rest, c_ok c a → c_put c a = Ok bs → c_get c (bs ++ rest) = Ok (a, rest);
}.

Class CodecCanonical {A} (c : codec A) : Prop :=
  get_canonical : ∀ s a rest, bytes s → c_get c s = Ok (a, rest) →
    c_ok c a ∧ ∃ bs, c_put c a = Ok bs ∧ s = bs ++ rest.

(** An encoding takes at least one byte. *)
Class CodecNonempty {A} (c : codec A) : Prop :=
  put_nonempty : ∀ a bs, c_ok c a → c_put c a = Ok bs → bs ≠ [].

(** ** The archives' primitives *)

(** [seria_v] of an unsigned integer of [bits] bits. *)
Definition c_varint (bits : Z) : codec Z := {|
  c_put (v : Z) := Varint.write_varint v;
  c_get (s : list Z) := Varint.read_varint bits s;
  c_ok (v : Z) := in_u bits v;
|}.

(** [binary(&value, n)]: [n] raw bytes, no size written. *)
Definition c_binary (n : nat) : codec (list Z) := {|
  c_put (v : list Z) := Ok v;
  c_get (s : list Z) := Streams.stream_read (Z.of_nat n) s;
  c_ok (v : list Z) := bytes v ∧ length v = n;
|}.

(** [seria_v(BinaryArray &)] and [seria_v(std::string &)]. *)
Definition c_bytes : codec (list Z) := {|
  c_put (v : list Z) := size ← Varint.write_varint (Z.of_nat (length v)); Ok (size ++ v);
  c_get (s : list Z) := '(size, s) ← Varint.read_varint 64 s; Streams.read_array size s;
  c_ok (v : list Z) := bytes v ∧ in_u 64 (Z.of_nat (length v));
|}.

(** [seria_v(bool &)]: any non-zero byte reads as [true]. *)
Definition c_bool : codec bool := {|
  c_put (v : bool) := Ok [if v then 1 else 0];
  c_get (s : list Z) := '(b, s) ← Streams.stream_read 1 s; Ok (negb (nth 0 b 0 =? 0), s);
  c_ok (_ : bool) := True;
|}.

(** A little-endian integer written raw, [binary(&v, sizeof(v))]. *)
Definition c_raw_le (n : nat) : codec Z := {|
  c_put (v : Z) := Ok (le_bytes n v);
  c_get (s : list Z) := '(b, s) ← Streams.stream_read (Z.of_nat n) s; Ok (le_value b, s);
  c_ok (v : Z) := 0 ≤ v < 2 ^ (8 * Z.of_nat n);
|}.

Global Instance c_varint_laws bits : Varint.width_ok bits → CodecLaws (c_varint bits).
Proof.
  intros Hb. split; simpl.
  - intros v [? Hv]. destruct (Varint.write_varint_total v) as (bs & Hw & Hbs & _).
    + split; [done|]. eapply Z.lt_le_trans; [exact Hv|].
      apply Z.pow_le_mono_r; unfold Varint.width_ok in *; lia.
    + eauto.
  - intros v bs rest Hv Hw. by apply Varint.read_write_varint.
Qed.

Global Instance c_varint_canonical bits :
  Varint.width_ok bits → CodecCanonical (c_varint bits).
Proof. intros Hb s v rest Hs Hr. by apply Varint.read_varint_canonical. Qed.

Global Instance c_varint_nonempty bits : CodecNonempty (c_varint bits).
Proof.
  intros a bs _ Hw ->. simpl in Hw. unfold Varint.write_varint in Hw.
  cbn [Varint.write_varint_into] in Hw. case_match; [|done].
  inv_ok Hw. done.
Qed.

Global Instance c_binary_laws n : CodecLaws (c_binary n).
Proof.
  split; simpl.
  - intros v [Hb _]. eauto.
  - intros v bs rest [_ <-] [= <-]. apply Streams.stream_read_app.
Qed.

Global Instance c_binary_canonical n : CodecCanonical (c_binary n).
Proof.
  intros s a rest Hs Hg. simpl in *.
  apply Streams.stream_read_inv in Hg as [-> Hl]; [|lia].
  apply bytes_app in Hs as [Hs _]. split; [split; [done|lia]|eauto].
Qed.

Global Instance c_bytes_laws : CodecLaws c_bytes.
Proof.
  split; simpl.
  - intros v [Hb Hl]. destruct (Varint.write_varint_total _ Hl) as (bs & -> & Hbs & _).
    eexists. split; [done|]. by apply bytes_app.
  - intros v bs rest [Hb Hl] Hw. inv_ok Hw. injection Hw as <-.
    rewrite <- app_assoc.
    erewrite Varint.read_write_varint; [|done|exact Hl|done]. cbn [mbind result_bind].
    rewrite Streams.read_array_spec by lia. apply Streams.stream_read_app.
Qed.

Global Instance c_bytes_canonical : CodecCanonical c_bytes.
Proof.
  intros s a rest Hs Hg. simpl in *. inv_ok Hg. destruct a0 as [size s'].
  apply Varint.read_varint_canonical in Ha as (Hv & bs & Hw & ->); [|done|done].
  apply bytes_app in Hs as [_ Hs]. unfold in_u in Hv.
  rewrite Streams.read_array_spec in Hg by lia.
  apply Streams.stream_read_inv in Hg as [-> Hl]; [|lia].
  apply bytes_app in Hs as [Hs _]. split; [split; [done|unfold in_u; lia]|].
  exists (bs ++ a). rewrite Hl, Hw. simpl. by rewrite app_assoc.
Qed.

Global Instance c_bytes_nonempty : CodecNonempty c_bytes.
Proof.
  intros a bs [_ Hl] Hw ->. simpl in Hw. inv_ok Hw. injection Hw as Hw.
  apply app_eq_nil in Hw as [-> _]. by apply (c_varint_nonempty 64) in Ha.
Qed.

Global Instance c_bool_laws : CodecLaws c_bool.
Proof.
  split; simpl.
  - intros v _. eexists. split; [done|]. repeat constructor; destruct v; words.
  - intros v bs rest _ [= <-]. rewrite (Streams.stream_read_app [_] rest). by destruct v.
Qed.

Global Instance c_raw_le_laws n : CodecLaws (c_raw_le n).
Proof.
  split; simpl.
  - intros v Hv. eexists. split; [done|]. apply bytes_le_bytes.
  - intros v bs rest Hv [= <-].
    rewrite <- (length_le_bytes n v) at 1. rewrite Streams.stream_read_app. simpl.
    by rewrite le_value_le_bytes.
Qed.

Global Instance c_raw_le_canonical n : CodecCanonical (c_raw_le n).
Proof.
  intros s a rest Hs Hg. simpl in *. inv_ok Hg. destruct a0 as [b s'].
  injection Hg as <- <-. apply Streams.stream_read_inv in Ha as [-> Hl]; [|lia].
  apply bytes_app in Hs as [Hs _].
  assert (length b = n) as <- by lia. split; [by apply le_value_bound|].
  eexists. split; [done|]. by rewrite le_bytes_le_value.
Qed.

(** ** Safety of the input archive

    Reading any bytes returns or throws, takes a prefix of what it was given
    and never less than nothing of it; a [CodecProgress] reader takes at least
    one byte. *)

Class CodecSafe {A} (c : codec A) : Prop := {
  get_defined : ∀ s w, bytes s → c_get c s ≠ Undefined w;
  get_suffix : ∀ s a rest, c_get c s = Ok (a, rest) → ∃ used, s = used ++ rest;
}.

Class CodecProgress {A} (c : codec A) : Prop :=
  get_progress : ∀ s a rest, c_get c s = Ok (a, rest) → (length rest < length s)%nat.

Lemma get_suffix_bytes {A} (c : codec A) `{!CodecSafe c} s a rest :
  bytes s → c_get c s = Ok (a, rest) → bytes rest.
Proof. intros Hs [used ->]%get_suffix. by apply bytes_app in Hs as [_ ?]. Qed.

Lemma bind_defined {A B} (m : result A) (f : A → result B) w :
  (∀ w, m ≠ Undefined w) → (∀ a, m = Ok a → f a ≠ Undefined w) → m ≫= f ≠ Undefined w.
Proof. destruct m; naive_solver. Qed.

Lemma stream_read_defined n s w : 0 ≤ n → Streams.stream_read n s ≠ Undefined w.
Proof. intros. rewrite Streams.stream_read_spec by done. by case_match. Qed.

Global Instance c_varint_safe bits : CodecSafe (c_varint bits).
Proof.
  split; simpl.
  - intros s w Hs. by apply Varint.read_varint_defined.
  - intros s a rest Hr. by apply Varint.read_varint_suffix in Hr as (used & -> & _); eauto.
Qed.

Global Instance c_varint_progress bits : CodecProgress (c_varint bits).
Proof.
  intros s a rest (used & -> & Hn)%Varint.read_varint_suffix.
  rewrite length_app. destruct used; [done|simpl; lia].
Qed.

Global Instance c_binary_safe n : CodecSafe (c_binary n).
Proof.
  split; simpl.
  - intros s w _. apply stream_read_defined. lia.
  - intros s a rest [-> _]%Streams.stream_read_inv; [eauto|lia].
Qed.

Global Instance c_binary_progress n : CodecProgress (c_binary (S n)).
Proof.
  intros s a rest [-> Hl]%Streams.stream_read_inv; [|lia]. rewrite length_app. lia.
Qed.

Lemma c_bytes_get_inv s a rest :
  c_get c_bytes s = Ok (a, rest) → ∃ used, s = used ++ a ++ rest ∧ used ≠ [].
Proof.
  simpl. intros Hr. inv_ok Hr. destruct a0 as [size s'].
  pose proof (Varint.read_varint_nonneg _ _ _ _ Ha).
  apply Varint.read_varint_suffix in Ha as (used & -> & Hn).
  rewrite Streams.read_array_spec in Hr by done.
  apply Streams.stream_read_inv in Hr as [-> _]; eauto.
Qed.

Global Instance c_bytes_safe : CodecSafe c_bytes.
Proof.
  split.
  - intros s w Hs. apply bind_defined.
    + intros. apply Varint.read_varint_defined.
    + intros [size s'] Hr%Varint.read_varint_nonneg.
      rewrite Streams.read_array_spec by done. by apply stream_read_defined.
  - intros s a rest (used & -> & _)%c_bytes_get_inv. exists (used ++ a). by rewrite app_assoc.
Qed.

Global Instance c_bytes_progress : CodecProgress c_bytes.
Proof.
  intros s a rest (used & -> & Hn)%c_bytes_get_inv. rewrite !length_app.
  destruct used; [done|simpl; lia].
Qed.

Lemma c_raw_le_binary n s a rest :
  c_get (c_raw_le n) s = Ok (a, rest) → ∃ b, c_get (c_binary n) s = Ok (b, rest).
Proof. simpl. intros Hr. inv_ok Hr. destruct a0 as [b s']. injection Hr as _ <-. eauto. Qed.

Global Instance c_raw_le_safe n : CodecSafe (c_raw_le n).
Proof.
  split.
  - intros s w Hs. apply bind_defined; [|by intros []].
    intros. apply stream_read_defined. lia.
  - intros s a rest [b Hb]%c_raw_le_binary. exact (get_suffix _ _ _ Hb).
Qed.

Global Instance c_raw_le_progress n : CodecProgress (c_raw_le (S n)).
Proof. intros s a rest [b Hb]%c_raw_le_binary. exact (get_progress _ _ _ Hb). Qed.

(** ** Sequences and containers *)

(** The members of an object, each written by the serializer that the members
    before it select. *)
Definition c_seq {A B} (c : codec A) (d : A → codec B) : codec (A * B) := {|
  c_put (v : A * B) := x ← c_put c v.1; y ← c_put (d v.1) v.2; Ok (x ++ y);
  c_get (s : list Z) := '(a, s) ← c_get c s; '(b, s) ← c_get (d a) s; Ok ((a, b), s);
  c_ok (v : A * B) := c_ok c v.1 ∧ c_ok (d v.1) v.2;
|}.

(** A record is its tuple of members. *)
Definition c_iso {A B} (f : A → B) (g : B → A) (c : codec A) : codec B := {|
  c_put (v : B) := c_put c (g v);
  c_get (s : list Z) := '(a, s) ← c_get c s; Ok (f a, s);
  c_ok (v : B) := c_ok c (g v);
|}.

(** No bytes at all: a member that is absent on this branch. *)
Definition c_none {A} (a : A) : codec A := {|
  c_put (_ : A) := Ok [];
  c_get (s : list Z) := Ok (a, s);
  c_ok (v : A) := v = a;
|}.

(** An exception in both directions. *)
Definition c_throw {A} (e : string) : codec A := {|
  c_put (_ : A) := Throw e;
  c_get (_ : list Z) := Throw e;
  c_ok (_ : A) := False;
|}.

Fixpoint put_items {A} (c : codec A) (l : list A) : result (list Z) :=
  match l with
  | [] => Ok []
  | a :: l => x ← c_put c a; y ← put_items c l; Ok (x ++ y)
  end.

Fixpoint get_items {A} (c : codec A) (fuel : nat) (count : Z) (s : list Z) :
    result (list A * list Z) :=
  if count =? 0 then Ok ([], s) else
  match fuel with
  | O => Undefined "out of fuel"
  | S fuel =>
      '(a, s) ← c_get c s;
      '(l, s) ← get_items c fuel (count - 1) s; Ok (a :: l, s)
  end.

(** [seria_container]: the size, then the items.  Every item of the types
    stored in containers takes a byte, so [length s] items are the most a
    stream [s] can hold. *)
Definition c_vector {A} (c : codec A) : codec (list A) := {|
  c_put (v : list A) :=
    size ← Varint.write_varint (Z.of_nat (length v));
    items ← put_items c v; Ok (size ++ items);
  c_get (s : list Z) :=
    '(size, s) ← Varint.read_varint 64 s; get_items c (S (length s)) size s;
  c_ok (v : list A) := in_u 64 (Z.of_nat (length v)) ∧ Forall (c_ok c) v;
|}.

(** [begin_array(n, true)]: [n] items, the size not written; writing another
    number of items throws. *)
Definition c_array {A} (n : nat) (e : string) (c : codec A) : codec (list A) := {|
  c_put (v : list A) := check (Z.of_nat (length v) =? Z.of_nat n) e;; put_items c v;
  c_get (s : list Z) := get_items c n (Z.of_nat n) s;
  c_ok (v : list A) := length v = n ∧ Forall (c_ok c) v;
|}.

Section combinators.
Context {A B : Type}.

Global Instance c_seq_laws (c : codec A) (d : A → codec B) :
  CodecLaws c → (∀ a, CodecLaws (d a)) → CodecLaws (c_seq c d).
Proof.
  intros Hc Hd. split.
  - intros [a b] [Ha Hb]. simpl in *.
    destruct (put_total a Ha) as (x & -> & ?), (put_total b Hb) as (y & -> & ?).
    eexists. split; [done|]. by apply bytes_app.
  - intros [a b] bs rest [Ha Hb] Hp. simpl in *. inv_ok Hp. injection Hp as <-.
    rewrite <- app_assoc. erewrite (get_put (c:=c)) by done. cbn [mbind result_bind].
    by erewrite get_put by done.
Qed.

Global Instance c_seq_canonical (c : codec A) (d : A → codec B) :
  CodecSafe c → CodecCanonical c → (∀ a, CodecCanonical (d a)) → CodecCanonical (c_seq c d).
Proof.
  intros Hs Hc Hd s [a b] rest Hbs Hg. simpl in *. inv_ok Hg. destruct a0 as [a0 s'].
  inv_ok Hg. destruct a1 as [b0 s'']. injection Hg as -> -> ->.
  pose proof (get_suffix_bytes _ _ _ _ Hbs Ha) as Hs'.
  apply get_canonical in Ha as (? & x & Hx & ->); [|done].
  apply get_canonical in Ha0 as (? & y & Hy & ->); [|done].
  split; [done|]. exists (x ++ y). rewrite Hx. simpl. rewrite Hy. simpl. by rewrite app_assoc.
Qed.

Global Instance c_seq_safe (c : codec A) (d : A → codec B) :
  CodecSafe c → (∀ a, CodecSafe (d a)) → CodecSafe (c_seq c d).
Proof.
  intros Hc Hd. split; simpl.
  - intros s w Hs. apply bind_defined; [intros; by apply get_defined|].
    intros [a s'] Ha. apply bind_defined.
    + intros. apply get_defined. by eapply get_suffix_bytes.
    + intros [b s''] _. simpl. congruence.
  - intros s [a b] rest Hg. inv_ok Hg. destruct a0 as [a0 s']. inv_ok Hg.
    destruct a1 as [b0 s'']. injection Hg as <- <- <-.
    apply get_suffix in Ha as [u ->], Ha0 as [u' ->].
    exists (u ++ u'). by rewrite app_assoc.
Qed.

Global Instance c_seq_progress (c : codec A) (d : A → codec B) :
  CodecProgress c → (∀ a, CodecSafe (d a)) → CodecProgress (c_seq c d).
Proof.
  intros Hc Hd s [a b] rest Hg. simpl in Hg. inv_ok Hg. destruct a0 as [a0 s']. inv_ok Hg.
  destruct a1 as [b0 s'']. injection Hg as <- <- <-.
  apply get_progress in Ha. apply get_suffix in Ha0 as [u ->].
  rewrite length_app in Ha. lia.
Qed.

Lemma c_iso_get_inv (f : A → B) g (c : codec A) s b rest :
  c_get (c_iso f g c) s = Ok (b, rest) → ∃ a, c_get c s = Ok (a, rest) ∧ b = f a.
Proof. simpl. intros Hg. inv_ok Hg. destruct a as [a s']. injection Hg as <- <-. eauto. Qed.

Global Instance c_iso_laws (f : A → B) g (c : codec A) :
  Cancel (=) f g → CodecLaws c → CodecLaws (c_iso f g c).
Proof.
  intros Hfg Hc. split; simpl.
  - intros b Hb. by apply put_total.
  - intros b bs rest Hb Hp. erewrite get_put by done. simpl. by rewrite (cancel f g).
Qed.

Global Instance c_iso_canonical (f : A → B) g (c : codec A) :
  Cancel (=) g f → CodecCanonical c → CodecCanonical (c_iso f g c).
Proof.
  intros Hgf Hc s b rest Hs (a & Ha & ->)%c_iso_get_inv.
  apply get_canonical in Ha as (? & bs & ? & ?); [|done].
  split; [|exists bs]; simpl; by rewrite (cancel g f).
Qed.

Global Instance c_iso_safe (f : A → B) g (c : codec A) :
  CodecSafe c → CodecSafe (c_iso f g c).
Proof.
  intros Hc. split.
  - intros s w Hs. apply bind_defined; [intros; by apply get_defined|].
    intros [] _. simpl. congruence.
  - intros s b rest (a & Ha & ->)%c_iso_get_inv. exact (get_suffix _ _ _ Ha).
Qed.

Global Instance c_iso_progress (f : A → B) g (c : codec A) :
  CodecProgress c → CodecProgress (c_iso f g c).
Proof. intros Hc s b rest (a & Ha & ->)%c_iso_get_inv. exact (get_progress _ _ _ Ha). Qed.

Global Instance c_none_laws (a : A) : CodecLaws (c_none a).
Proof. split; simpl; [eauto|]. by intros ? bs rest -> [= <-]. Qed.
Global Instance c_none_canonical (a : A) : CodecCanonical (c_none a).
Proof. intros s v rest _ [= <- <-]. split; [done|]. by exists []. Qed.
Global Instance c_none_safe (a : A) : CodecSafe (c_none a).
Proof. split; simpl; [congruence|]. intros s v rest [= <- <-]. by exists []. Qed.

Global Instance c_throw_laws e : CodecLaws (c_throw (A:=A) e).
Proof. by split. Qed.
Global Instance c_throw_canonical e : CodecCanonical (c_throw (A:=A) e).
Proof. by intros s v rest. Qed.
Global Instance c_throw_safe e : CodecSafe (c_throw (A:=A) e).
Proof. by split. Qed.
End combinators.

Section items.
Context {A : Type} (c : codec A).

Lemma put_items_total `{!CodecLaws c} l :
  Forall (c_ok c) l → ∃ bs, put_items c l = Ok bs ∧ bytes bs.
Proof.
  induction 1 as [|a l Ha Hl (y & Hy & ?)]; simpl; [eauto|].
  destruct (put_total a Ha) as (x & -> & ?). simpl. rewrite Hy. simpl.
  eexists. split; [done|]. by apply bytes_app.
Qed.

Lemma get_put_items `{!CodecLaws c} l bs rest fuel :
  Forall (c_ok c) l → put_items c l = Ok bs → (length l ≤ fuel)%nat →
  get_items c fuel (Z.of_nat (length l)) (bs ++ rest) = Ok (l, rest).
Proof.
  intros Hl. revert bs fuel.
  induction Hl as [|a l Ha Hl IH]; intros bs fuel Hp Hf; simpl in Hp.
  { injection Hp as <-. by destruct fuel. }
  inv_ok Hp. injection Hp as <-. destruct fuel as [|fuel]; [simpl in Hf; lia|].
  cbn [get_items]. replace (_ =? 0) with false by (simpl; lia).
  rewrite <- app_assoc. erewrite get_put by done. cbn [mbind result_bind].
  replace (Z.of_nat (length (a :: l)) - 1) with (Z.of_nat (length l)) by (simpl; lia).
  by erewrite IH by (done || simpl in Hf; lia).
Qed.

Lemma put_items_length l bs :
  CodecNonempty c → Forall (c_ok c) l → put_items c l = Ok bs → (length l ≤ length bs)%nat.
Proof.
  intros Hne Hl. revert bs. induction Hl as [|a l Hok Hl IH]; intros bs Hp; simpl in *; [lia|].
  inv_ok Hp. injection Hp as <-. apply IH in Ha0. apply put_nonempty in Ha; [|done].
  rewrite length_app. destruct a0; [done|simpl; lia].
Qed.

Lemma get_items_canonical `{!CodecSafe c, !CodecCanonical c} fuel count s l rest :
  bytes s → get_items c fuel count s = Ok (l, rest) → 
  Z.of_nat (length l) = count ∧ Forall (c_ok c) l ∧
  ∃ bs, put_items c l = Ok bs ∧ s = bs ++ rest.
Proof.
  revert count s l. induction fuel as [|fuel IH]; intros count s l Hs Hg;
    cbn [get_items] in Hg; destruct (Z.eqb_spec count 0) as [->|]; try done.
  1,2: injection Hg as <- <-; split_and!; [done..|by exists []].
  inv_ok Hg. destruct a as [a s']. inv_ok Hg. destruct a0 as [l' s''].
  injection Hg as <- <-. pose proof (get_suffix_bytes _ _ _ _ Hs Ha) as Hs'.
  apply IH in Ha0 as (Hl & Hok & y & Hy & ->); [|done].
  apply get_canonical in Ha as (? & x & Hx & ->); [|done].
  split_and!; [simpl; lia|by constructor|]. exists (x ++ y). simpl. rewrite Hx. simpl.
  rewrite Hy. simpl. by rewrite app_assoc.
Qed.

Lemma get_items_suffix `{!CodecSafe c} fuel count s l rest :
  get_items c fuel count s = Ok (l, rest) → ∃ used, s = used ++ rest.
Proof.
  revert count s l. induction fuel as [|fuel IH]; intros count s l Hg;
    cbn [get_items] in Hg; destruct (count =? 0); try done.
  1,2: injection Hg as <- <-; by exists [].
  inv_ok Hg. destruct a as [a s']. inv_ok Hg. destruct a0 as [l' s'']. injection Hg as <- <-.
  apply get_suffix in Ha as [u ->]. apply IH in Ha0 as [u' ->].
  exists (u ++ u'). by rewrite app_assoc.
Qed.

(** The fuel never runs out: there is enough for the items asked for, or for
    the bytes there are. *)
Lemma get_items_defined `{!CodecSafe c} fuel count s w :
  bytes s → (0 ≤ count ≤ Z.of_nat fuel ∨ CodecProgress c ∧ (length s < fuel)%nat) →
  get_items c fuel count s ≠ Undefined w.
Proof.
  revert count s w. induction fuel as [|fuel IH]; intros count s w Hs Hf;
    cbn [get_items]; destruct (Z.eqb_spec count 0); try congruence.
  { destruct Hf as [|[]]; lia. }
  apply bind_defined; [intros; by apply get_defined|]. intros [a s'] Ha.
  apply bind_defined; [|intros [] _; simpl; congruence].
  intros w'. apply IH; [by eapply get_suffix_bytes|].
  destruct Hf as [?|[Hp ?]]; [left; lia|right].
  split; [done|]. apply Hp in Ha. lia.
Qed.

#[local] Arguments get_items : simpl never.

Global Instance c_vector_laws : CodecNonempty c → CodecLaws c → CodecLaws (c_vector c).
Proof.
  intros Hne Hc. split; simpl.
  - intros v [Hl Hv]. destruct (Varint.write_varint_total _ Hl) as (x & -> & ? & _).
    destruct (put_items_total v Hv) as (y & Hy & ?). simpl. rewrite Hy. simpl.
    eexists. split; [done|]. by apply bytes_app.
  - intros v bs rest [Hl Hv] Hp. inv_ok Hp. injection Hp as <-. rewrite <- app_assoc.
    erewrite Varint.read_write_varint; [|done|exact Hl|done]. cbn [mbind result_bind].
    apply get_put_items; [done..|]. apply put_items_length in Ha0; [|done..].
    rewrite length_app. lia.
Qed.

Global Instance c_vector_canonical :
  CodecSafe c → CodecCanonical c → CodecCanonical (c_vector c).
Proof.
  intros Hs Hc s v rest Hbs Hg. simpl in Hg. inv_ok Hg. destruct a as [size s'].
  apply Varint.read_varint_canonical in Ha as (Hv & x & Hx & ->); [|done..].
  apply bytes_app in Hbs as [_ Hbs].
  apply get_items_canonical in Hg as (<- & Hok & y & Hy & ->); [|done].
  split; [done|]. exists (x ++ y). simpl. rewrite Hx. simpl. rewrite Hy. simpl.
  by rewrite app_assoc.
Qed.

Global Instance c_vector_safe : CodecSafe c → CodecProgress c → CodecSafe (c_vector c).
Proof.
  intros Hc Hp. split.
  - intros s w Hs. apply bind_defined; [intros; apply Varint.read_varint_defined|].
    intros [size s'] (u & -> & _)%Varint.read_varint_suffix.
    apply bytes_app in Hs as [_ Hs]. apply get_items_defined; [done|]. right. auto with lia.
  - intros s v rest Hg. simpl in Hg. inv_ok Hg. destruct a as [size s'].
    apply Varint.read_varint_suffix in Ha as (u & -> & _).
    apply get_items_suffix in Hg as [u' ->]. exists (u ++ u'). by rewrite app_assoc.
Qed.

Global Instance c_vector_progress : CodecSafe c → CodecProgress (c_vector c).
Proof.
  intros Hc s v rest Hg. simpl in Hg. inv_ok Hg. destruct a as [size s'].
  apply Varint.read_varint_suffix in Ha as (u & -> & Hu).
  apply get_items_suffix in Hg as [u' ->]. rewrite !length_app.
  destruct u; [done|simpl; lia].
Qed.

Global Instance c_vector_nonempty : CodecNonempty (c_vector c).
Proof.
  intros a bs [Hl _] Hw ->. simpl in Hw. inv_ok Hw. injection Hw as Hw.
  apply app_eq_nil in Hw as [-> _]. by apply (c_varint_nonempty 64) in Ha.
Qed.

Global Instance c_array_laws n e : CodecLaws c → CodecLaws (c_array n e c).
Proof.
  intros Hc. split; simpl.
  - intros v [<- Hv]. rewrite Z.eqb_refl. simpl. by apply put_items_total.
  - intros v bs rest [<- Hv] Hp. rewrite Z.eqb_refl in Hp. simpl in Hp.
    by apply get_put_items.
Qed.

Global Instance c_array_canonical n e :
  CodecSafe c → CodecCanonical c → CodecCanonical (c_array n e c).
Proof.
  intros Hs Hc s v rest Hbs Hg. simpl in Hg.
  apply get_items_canonical in Hg as (Hl & Hok & y & Hy & ->); [|done].
  split; [split; [lia|done]|]. exists y. simpl.
  by replace (_ =? _) with true by lia.
Qed.

Global Instance c_array_safe n e : CodecSafe c → CodecSafe (c_array n e c).
Proof.
  intros Hs. split; simpl.
  - intros s w Hbs. apply get_items_defined; [done|]. left. lia.
  - intros s v rest Hg. by eapply get_items_suffix.
Qed.
End items.

Global Instance c_seq_nonempty {A B} (c : codec A) (d : A → codec B) :
  CodecNonempty c → CodecNonempty (c_seq c d).
Proof.
  intros Hc [a b] bs [Hok _] Hp ->. simpl in Hp. inv_ok Hp. injection Hp as Hp.
  apply app_eq_nil in Hp as [-> _]. by apply put_nonempty in Ha.
Qed.

Global Instance c_iso_nonempty {A B} (f : A → B) g (c : codec A) :
  CodecNonempty c → CodecNonempty (c_iso f g c).
Proof. intros Hc b bs Hb Hp. exact (Hc _ _ Hb Hp). Qed.

Global Instance c_binary_nonempty n : CodecNonempty (c_binary (S n)).
Proof. by intros v bs [_ Hl] [= <-] ->. Qed.

Global Instance c_raw_le_nonempty n : CodecNonempty (c_raw_le (S n)).
Proof. by intros v bs _ [= <-]. Qed.

(** ** Variants *)

(** [boost::variant] of one or two alternatives: a raw tag byte, then the
    alternative; any other tag throws. *)
Definition c_tag {A} (tag : Z) (e : string) (c : codec A) : codec A := {|
  c_put (v : A) := x ← c_put c v; Ok (tag :: x);
  c_get (s : list Z) :=
    '(b, s) ← Streams.stream_read 1 s;
    if nth 0 b 0 =? tag then c_get c s else Throw e;
  c_ok (v : A) := c_ok c v;
|}.

Definition c_switch {A B} (tag1 : Z) (c1 : codec A) (tag2 : Z) (c2 : codec B) (e : string) :
    codec (A + B) := {|
  c_put (v : A + B) :=
    match v with
    | inl a => x ← c_put c1 a; Ok (tag1 :: x)
    | inr b => x ← c_put c2 b; Ok (tag2 :: x)
    end;
  c_get (s : list Z) :=
    '(b, s) ← Streams.stream_read 1 s;
    if nth 0 b 0 =? tag1 then '(a, s) ← c_get c1 s; Ok (inl a, s)
    else if nth 0 b 0 =? tag2 then '(b, s) ← c_get c2 s; Ok (inr b, s)
    else Throw e;
  c_ok (v : A + B) := match v with inl a => c_ok c1 a | inr b => c_ok c2 b end;
|}.

Lemma stream_read_byte s b rest :
  Streams.stream_read 1 s = Ok (b, rest) → ∃ x, b = [x] ∧ s = x :: rest.
Proof.
  intros [-> Hl]%Streams.stream_read_inv; [|done]. destruct b as [|x [|]]; simpl in Hl; [lia|eauto|lia].
Qed.

Lemma stream_read_cons x s : Streams.stream_read 1 (x :: s) = Ok ([x], s).
Proof. apply (Streams.stream_read_app [x] s). Qed.

Section variants.
Context {A B : Type} (tag1 tag2 : Z) (e : string).
Context (Htag1 : is_byte tag1) (Htag2 : is_byte tag2) (Hne : tag1 ≠ tag2).

Lemma c_tag_laws (c : codec A) : CodecLaws c → CodecLaws (c_tag tag1 e c).
Proof.
  intros Hc. split; simpl.
  - intros v Hv. destruct (put_total v Hv) as (x & -> & ?). simpl.
    eexists. split; [done|]. by constructor.
  - intros v bs rest Hv Hp. inv_ok Hp. injection Hp as <-. cbn [app].
    rewrite stream_read_cons. simpl. rewrite Z.eqb_refl. by apply get_put.
Qed.

Lemma c_tag_canonical (c : codec A) : CodecCanonical c → CodecCanonical (c_tag tag1 e c).
Proof.
  intros Hc s v rest Hs Hg. simpl in Hg. inv_ok Hg. destruct a as [b s'].
  apply stream_read_byte in Ha as (x & -> & ->). simpl in Hg.
  destruct (Z.eqb_spec x tag1) as [->|]; [|done]. inversion Hs; subst.
  apply get_canonical in Hg as (? & bs & Hp & ->); [|done].
  split; [done|]. exists (tag1 :: bs). simpl. by rewrite Hp.
Qed.

Lemma c_switch_laws (c1 : codec A) (c2 : codec B) :
  CodecLaws c1 → CodecLaws c2 → CodecLaws (c_switch tag1 c1 tag2 c2 e).
Proof using Htag1 Htag2 Hne.
  intros H1 H2. split; simpl.
  - intros [v|v] Hv; destruct (put_total v Hv) as (x & -> & ?); simpl;
      eexists; (split; [done|]); by constructor.
  - intros [v|v] bs rest Hv Hp; inv_ok Hp; injection Hp as <-; cbn [app];
      rewrite stream_read_cons; cbn [mbind result_bind nth].
    + rewrite Z.eqb_refl. by erewrite get_put by done.
    + replace (tag2 =? tag1) with false by lia. rewrite Z.eqb_refl.
      by erewrite get_put by done.
Qed.

Lemma c_switch_canonical (c1 : codec A) (c2 : codec B) :
  CodecCanonical c1 → CodecCanonical c2 → CodecCanonical (c_switch tag1 c1 tag2 c2 e).
Proof.
  intros H1 H2 s v rest Hs Hg. simpl in Hg. inv_ok Hg. destruct a as [b s'].
  apply stream_read_byte in Ha as (x & -> & ->). simpl in Hg. inversion Hs; subst.
  destruct (Z.eqb_spec x tag1) as [->|]; [|destruct (Z.eqb_spec x tag2) as [->|]; [|done]];
    inv_ok Hg; destruct a as [a s'']; injection Hg as <- <-;
    apply get_canonical in Ha as (? & bs & Hp & ->); try done;
    (split; [done|]); [exists (tag1 :: bs)|exists (tag2 :: bs)]; simpl; by rewrite Hp.
Qed.
End variants.

Global Instance c_tag_nonempty {A} tag e (c : codec A) : CodecNonempty (c_tag tag e c).
Proof. intros v bs _ Hp ->. simpl in Hp. by inv_ok Hp. Qed.

Global Instance c_switch_nonempty {A B} tag1 tag2 e (c1 : codec A) (c2 : codec B) :
  CodecNonempty (c_switch tag1 c1 tag2 c2 e).
Proof. intros [v|v] bs _ Hp ->; simpl in Hp; by inv_ok Hp. Qed.

Global Instance c_tag_safe {A} tag e (c : codec A) : CodecSafe c → CodecSafe (c_tag tag e c).
Proof.
  intros Hc. split; simpl.
  - intros s w Hs. apply bind_defined; [intros; by apply stream_read_defined|].
    intros [b s'] (x & -> & ->)%stream_read_byte. inversion Hs; subst. case_match; [|done].
    by apply get_defined.
  - intros s v rest Hg. inv_ok Hg. destruct a as [b s'].
    apply stream_read_byte in Ha as (x & -> & ->). case_match; [|done].
    apply get_suffix in Hg as [u ->]. by exists (x :: u).
Qed.

Global Instance c_switch_safe {A B} tag1 tag2 e (c1 : codec A) (c2 : codec B) :
  CodecSafe c1 → CodecSafe c2 → CodecSafe (c_switch tag1 c1 tag2 c2 e).
Proof.
  intros H1 H2. split; simpl.
  - intros s w Hs. apply bind_defined; [intros; by apply stream_read_defined|].
    intros [b s'] (x & -> & ->)%stream_read_byte. inversion Hs; subst.
    repeat case_match; try done; (apply bind_defined; [intros; by apply get_defined|]);
      intros [] _; simpl; congruence.
  - intros s v rest Hg. inv_ok Hg. destruct a as [b s'].
    apply stream_read_byte in Ha as (x & -> & ->). repeat case_match; try done;
      inv_ok Hg; destruct a as [a s'']; injection Hg as <- <-;
      apply get_suffix in Ha as [u ->]; by exists (x :: u).
Qed.

Global Instance c_tag_progress {A} tag e (c : codec A) : CodecSafe c → CodecProgress (c_tag tag e c).
Proof.
  intros Hc s v rest Hg. simpl in Hg. inv_ok Hg. destruct a as [b s'].
  apply stream_read_byte in Ha as (x & -> & ->). case_match; [|done].
  apply get_suffix in Hg as [u ->]. simpl. rewrite length_app. lia.
Qed.

Global Instance c_switch_progress {A B} tag1 tag2 e (c1 : codec A) (c2 : codec B) :
  CodecSafe c1 → CodecSafe c2 → CodecProgress (c_switch tag1 c1 tag2 c2 e).
Proof.
  intros H1 H2 s v rest Hg. simpl in Hg. inv_ok Hg. destruct a as [b s'].
  apply stream_read_byte in Ha as (x & -> & ->). repeat case_match; try done;
    inv_ok Hg; destruct a as [a s'']; injection Hg as <- <-;
    apply get_suffix in Ha as [u ->]; simpl; rewrite length_app; lia.
Qed.

Global Existing Instance c_tag_canonical.
Global Existing Instance c_switch_canonical.
#[export] Hint Extern 1 (CodecLaws (c_tag _ _ _)) =>
  (apply c_tag_laws; [done|]) : typeclass_instances.
#[export] Hint Extern 1 (CodecLaws (c_switch _ _ _ _ _)) =>
  (apply c_switch_laws; [done..| |]) : typeclass_instances.

(** ** Whole messages *)

Lemma from_to_binary {A} (c : codec A) `{!CodecLaws c} a :
  c_ok c a → ∃ bs, to_binary c a = Ok bs ∧ bytes bs ∧ from_binary c bs = Ok a.
Proof.
  intros Ha. destruct (put_total a Ha) as (bs & Hp & Hb). exists bs. split_and!; [done..|].
  unfold from_binary. pose proof (get_put a bs [] Ha Hp) as Hg. rewrite app_nil_r in Hg.
  by rewrite Hg.
Qed.

Lemma to_from_binary {A} (c : codec A) `{!CodecCanonical c} blob a :
  bytes blob → from_binary c blob = Ok a → c_ok c a ∧ to_binary c a = Ok blob.
Proof.
  intros Hb Hf. unfold from_binary in Hf. inv_ok Hf. destruct a0 as [a' rest].
  destruct (bool_decide_reflect (rest = [])) as [->|]; [|done]. injection Hf as ->.
  apply get_canonical in Ha as (? & bs & Hp & ->); [|done]. rewrite app_nil_r. done.
Qed.

Lemma from_binary_defined {A} (c : codec A) `{!CodecSafe c} blob w :
  bytes blob → from_binary c blob ≠ Undefined w.
Proof.
  intros Hb. apply bind_defined; [intros; by apply get_defined|]. intros [a rest] _.
  by case_match.
Qed.

End Codec.
