(* ===== verification/SeriaMap.v ===== *)
(** * Maps in the binary archives (src/src/seria/ISeria.hpp: [seria_map_string];
    the [begin_map] and [next_map_key] of the binary archives)

    A map with string keys is written as the number of its entries and the
    entries in the order of their keys; reading inserts entry by entry, so of
    equal keys the first stays.  And signed integers, written as the unsigned
    words they convert to. *)

From S2P Require Import Prelude Containers Varint Seria.
Import Containers Codec.

Local Open Scope Z_scope.

Module SeriaMap.

#[local] Hint Extern 0 (Varint.width_ok _) => done : typeclass_instances.

(** [seria_v(int64_t &)]. *)
Definition c_int64 : codec Z := {|
  c_put (v : Z) := Varint.write_varint (u64 v);
  c_get (s : list Z) := '(v, s) ← Varint.read_varint 64 s; Ok (i64 v, s);
  c_ok (v : Z) := - 2 ^ 63 ≤ v < 2 ^ 63;
|}.

Lemma i64_u64 v : - 2 ^ 63 ≤ v < 2 ^ 63 → i64 (u64 v) = v.
Proof. intros Hv. unfold i64, u64. rewrite Zplus_mod_idemp_l, Z.mod_small; lia. Qed.

Global Instance c_int64_laws : CodecLaws c_int64.
Proof.
  split.
  - intros v Hv. apply (put_total (c := c_varint 64)). apply u64_bound.
  - intros v bs rest Hv Hp. cbn [c_get c_int64].
    pose proof (get_put (c := c_varint 64) (u64 v) bs rest ltac:(apply u64_bound) Hp) as Hg. cbn [c_get c_varint] in Hg.
    rewrite Hg. cbn [mbind result_bind]. by rewrite i64_u64.
Qed.
Global Instance c_int64_nonempty : CodecNonempty c_int64.
Proof. intros v bs Hv Hp. apply (put_nonempty (c := c_varint 64) (u64 v)); [apply u64_bound|done]. Qed.

Section map.
Context {V : Type} (c : codec V).

Definition c_entry : codec (list Z * V) := c_seq c_bytes (λ _, c).

(** [value.insert(..)]. *)
Definition insert_entry (m : gmap (list Z) V) (e : list Z * V) : gmap (list Z) V :=
  match m !! e.1 with Some _ => m | None => <[e.1 := e.2]> m end.

Definition c_map : codec (gmap (list Z) V) := {|
  c_put m := c_put (c_vector c_entry) (map_entries m);
  c_get s := '(l, s) ← c_get (c_vector c_entry) s; Ok (foldl insert_entry ∅ l, s);
  c_ok m := in_u 64 (Z.of_nat (base.size m)) ∧ map_Forall (λ k v, c_ok c_bytes k ∧ c_ok c v) m;
|}.

Lemma insert_entries l m : NoDup l.*1 → (∀ k, k ∈ l.*1 → m !! k = None) → foldl insert_entry m l = list_to_map l ∪ m.
Proof.
  revert m. induction l as [|[k v] l IH]; intros m Hnd Hm; [cbn; by rewrite (left_id_L ∅ (∪))|].
  apply NoDup_cons in Hnd as [Hk Hnd]. cbn [foldl]. unfold insert_entry at 2. cbn [fst snd].
  rewrite Hm by (by left). rewrite IH; [|done|].
  - cbn [list_to_map foldr]. rewrite <- insert_union_r, insert_union_l; [done|]. by apply not_elem_of_list_to_map_1.
  - intros k' Hk'. rewrite lookup_insert_ne by (intros ->; done). apply Hm. by right.
Qed.

Lemma map_entries_back (m : gmap (list Z) V) : foldl insert_entry ∅ (map_entries m) = m.
Proof.
  rewrite insert_entries; [|apply NoDup_map_entries|intros; apply lookup_empty].
  rewrite (right_id_L ∅ (∪)). rewrite <- (list_to_map_to_list m) at 2.
  apply list_to_map_proper; [apply NoDup_map_entries|apply map_entries_perm].
Qed.

Lemma map_entries_ok m : c_ok c_map m → c_ok (c_vector c_entry) (map_entries m).
Proof.
  intros [Hn Hm]. split; [by rewrite map_entries_perm, length_map_to_list|].
  apply Forall_forall. intros [k v] Hkv. apply elem_of_map_entries in Hkv. apply (Hm k v Hkv).
Qed.

Global Instance c_map_laws : CodecLaws c → CodecLaws c_map.
Proof.
  intros Hc. split.
  - intros m Hm. apply (put_total (c := c_vector c_entry)). by apply map_entries_ok.
  - intros m bs rest Hm Hp. cbn [c_get c_map].
    rewrite (get_put (c := c_vector c_entry) (map_entries m) bs rest (map_entries_ok m Hm) Hp).
    cbn [mbind result_bind]. by rewrite map_entries_back.
Qed.

End map.

End SeriaMap.
