(* ===== verification/TreeHash.v ===== *)
(** * Merkle trees (src/src/crypto/tree-hash.c, src/src/crypto/hash.hpp)

    [tree_hash] folds a list of 32-byte hashes bottom up in a scratch array,
    [tree_branch] collects the siblings of the first leaf in the same pass,
    [tree_hash_from_branch] recomputes the root from a leaf and a branch.  The
    compression function [cn_fast_hash] (keccak) is a parameter. *)

From S2P Require Import Prelude.

Local Open Scope Z_scope.

Module TreeHash.

Section tree.
Context (cn_fast_hash : list Z → list Z).
Abbreviation hash := (list Z).

(** Two adjacent 32-byte slots hashed as 64 bytes. *)
Definition hash2 (a b : hash) : hash := cn_fast_hash (a ++ b).

(** Reading and writing a C array of hashes; [None] is a slot of the
    [alloca]ted scratch array that was not written yet. *)
Definition slot (ints : list (option hash)) (i : nat) : result hash :=
  match ints !! i with
  | Some (Some h) => Ok h
  | Some None => Undefined "uninitialised read"
  | None => Undefined "read out of range"
  end.

Definition set_slot (j : nat) (h : hash) (ints : list (option hash)) :
    result (list (option hash)) :=
  if (j <? length ints)%nat then Ok (<[j := Some h]> ints)
  else Undefined "write out of range".

(** [for (...; n rounds; i += 2, ++j) cn_fast_hash(src[i], 64, ints[j])],
    reading from [hashes] and, below, from [ints] itself. *)
Fixpoint hash_leaves (n i j : nat) (hashes ints : list (option hash)) :
    result (list (option hash)) :=
  match n with
  | O => Ok ints
  | S n =>
      a ← slot hashes i; b ← slot hashes (S i);
      ints ← set_slot j (hash2 a b) ints;
      hash_leaves n (i + 2) (S j) hashes ints
  end.

Fixpoint hash_level (n i j : nat) (ints : list (option hash)) :
    result (list (option hash)) :=
  match n with
  | O => Ok ints
  | S n =>
      a ← slot ints i; b ← slot ints (S i);
      ints ← set_slot j (hash2 a b) ints;
      hash_level n (i + 2) (S j) ints
  end.

(** The largest power of two below [count], computed on [size_t] bits. *)
Definition tree_cnt (count : Z) : Z :=
  let cnt := foldl (λ cnt i, Z.lor cnt (Z.shiftr cnt i)) (count - 1) [1; 2; 4; 8; 16; 32] in
  Z.land cnt (u64 (Z.lnot (Z.shiftr cnt 1))).

(** [while (cnt > 2)] of [tree_hash]: [fuel] rounds. *)
Fixpoint tree_hash_loop (fuel : nat) (cnt : Z) (ints : list (option hash)) :
    result (list (option hash)) :=
  if cnt <=? 2 then Ok ints else
  match fuel with
  | O => Undefined "out of fuel"
  | S fuel =>
      let cnt := Z.shiftr cnt 1 in
      ints ← hash_level (Z.to_nat cnt) 0 0 ints;
      tree_hash_loop fuel cnt ints
  end.

(** [alloca(cnt * HASH_SIZE)] followed by [memcpy] of [n] hashes. *)
Definition scratch (cnt n : nat) (hashes : list hash) : list (option hash) :=
  (Some <$> take n hashes) ++ replicate (cnt - n) None.

(** The last branch of [tree_hash], more than two hashes. *)
Definition tree_hash_many (hashes : list hash) : result hash :=
  let count := Z.of_nat (length hashes) in
  let cnt := tree_cnt count in
  let n := Z.to_nat (2 * cnt - count) in
  let ints := scratch (Z.to_nat cnt) n hashes in
  ints ← hash_leaves (Z.to_nat cnt - n) n n (Some <$> hashes) ints;
  ints ← tree_hash_loop 64 cnt ints;
  a ← slot ints 0; b ← slot ints 1; Ok (hash2 a b).

Definition tree_hash (hashes : list hash) : result hash :=
  match hashes with
  | [] => Undefined "assert(count > 0)"
  | [h] => Ok h
  | [h1; h2] => Ok (hash2 h1 h2)
  | _ => tree_hash_many hashes
  end.

Definition tree_depth (count : Z) : result Z :=
  if count =? 0 then Undefined "assert(count > 0)"
  else Ok (foldl (λ '(count, depth) i,
                    if 0 <? Z.shiftr count i then (Z.shiftr count i, depth + i)
                    else (count, depth)) (count, 0) [32; 16; 8; 4; 2; 1]).2.

(** The first loop of [tree_branch]: [(cnt, depth)]. *)
Definition branch_cnt (count : Z) : Z * Z :=
  foldl (λ '(cnt, depth) i,
           if u64 (Z.shiftl cnt i) <=? count then (u64 (Z.shiftl cnt i), depth + i)
           else (cnt, depth)) (1, 0) [32; 16; 8; 4; 2; 1].

(** [while (depth > 0)]: [branch[depth]] is written from the top down. *)
Fixpoint tree_branch_loop (depth : nat) (cnt : Z) (ints branch : list (option hash)) :
    result (list (option hash)) :=
  match depth with
  | O => Ok branch
  | S depth =>
      let cnt := Z.shiftr cnt 1 in
      h ← slot ints 0;
      branch ← set_slot depth h branch;
      ints ← hash_level (Z.to_nat (cnt - 1)) 1 0 ints;
      tree_branch_loop depth cnt ints branch
  end.

Definition tree_branch (hashes : list hash) (branch : list (option hash)) :
    result (list (option hash)) :=
  let count := Z.of_nat (length hashes) in
  if count =? 0 then Undefined "assert(count > 0)" else
  let '(cnt, depth) := branch_cnt count in
  let n := Z.to_nat (2 * cnt - count - 1) in
  let ints := scratch (Z.to_nat (cnt - 1)) n (drop 1 hashes) in
  ints ← hash_leaves (Z.to_nat (cnt - 1) - n) (n + 1) n (Some <$> hashes) ints;
  tree_branch_loop (Z.to_nat depth) cnt ints branch.

(** [path[depth >> 3] & (1 << (depth & 7))]; a null [path] is all zeros. *)
Definition path_bit (path : option (list Z)) (depth : nat) : result bool :=
  match path with
  | None => Ok false
  | Some path =>
      b ← of_option (path !! Nat.div depth 8) (Undefined "path read out of range");
      Ok (Z.testbit b (Z.of_nat depth mod 8))
  end.

(** The loop of [tree_hash_from_branch]: [buffer] is [None] while
    [from_leaf] is set. *)
Fixpoint from_branch_loop (branch : list hash) (depth : nat) (leaf : hash)
    (path : option (list Z)) (buffer : option (hash * hash)) : result (option (hash * hash)) :=
  match depth with
  | O => Ok buffer
  | S depth =>
      bit ← path_bit path depth;
      let node := match buffer with None => leaf | Some (b0, b1) => hash2 b0 b1 end in
      sibling ← slot (Some <$> branch) depth;
      from_branch_loop branch depth leaf path
        (Some (if (bit : bool) then (sibling, node) else (node, sibling)))
  end.

Definition tree_hash_from_branch (branch : list hash) (depth : nat) (leaf : hash)
    (path : option (list Z)) : result hash :=
  buffer ← from_branch_loop branch depth leaf path None;
  Ok (match buffer with None => leaf | Some (b0, b1) => hash2 b0 b1 end).

(** ** Reference: the Merkle tree of a list *)

Fixpoint pairs (l : list hash) : list hash :=
  match l with
  | a :: b :: l => hash2 a b :: pairs l
  | _ => []
  end.

(** The root of a perfect tree over [2 ^ n] leaves. *)
Fixpoint perfect_root (n : nat) (l : list hash) : option hash :=
  match n with
  | O => head l
  | S n => perfect_root n (pairs l)
  end.

(** The lowest level is incomplete: its last leaves are paired until a power
    of two is left. *)
Definition bottom_level (n : nat) (l : list hash) : list hash :=
  let k := (2 * 2 ^ n - length l)%nat in take k l ++ pairs (drop k l).

Definition merkle_root (l : list hash) : option hash :=
  if (length l =? 1)%nat then head l else
  let n := Z.to_nat (Z.log2 (Z.of_nat (length l) - 1)) in
  perfect_root n (bottom_level n l).
(** ** Powers of two *)

(** One round of smearing doubles the run of ones below the top bit. *)
Lemma smear_step L k n :
  0 < k → (∀ i, L - k < i ≤ L → 0 ≤ i → Z.testbit n i = true) →
  (∀ i, L < i → Z.testbit n i = false) →
  let m := Z.lor n (Z.shiftr n k) in
  (∀ i, L - 2 * k < i ≤ L → 0 ≤ i → Z.testbit m i = true) ∧
  (∀ i, L < i → Z.testbit m i = false).
Proof.
  intros Hk H1 H0 m. split; intros i Hi.
  - intros Hi0. unfold m. rewrite Z.lor_spec, Z.shiftr_spec by done.
    destruct (decide (L - k < i)).
    + by rewrite H1 by lia.
    + rewrite (H1 (i + k)) by lia. apply orb_true_r.
  - unfold m. destruct (decide (0 ≤ i)); [|by rewrite Z.testbit_neg_r by lia].
    rewrite Z.lor_spec, Z.shiftr_spec, !H0 by lia. done.
Qed.

Lemma smear_ones n :
  0 < n < 2 ^ 64 →
  foldl (λ cnt i, Z.lor cnt (Z.shiftr cnt i)) n [1; 2; 4; 8; 16; 32] =
  2 ^ (Z.log2 n + 1) - 1.
Proof.
  intros Hn. set (L := Z.log2 n). pose proof (Z.log2_nonneg n).
  assert (L < 64) by (apply Z.log2_lt_pow2; lia).
  assert (HA : ∀ i, L - 1 < i ≤ L → 0 ≤ i → Z.testbit n i = true).
  { intros i Hi _. replace i with L by lia. apply Z.bit_log2. lia. }
  assert (HB : ∀ i, L < i → Z.testbit n i = false) by (intros; apply Z.bits_above_log2; lia).
  cbn [foldl].
  destruct (smear_step L 1 n eq_refl HA HB) as [A1 B1].
  destruct (smear_step L 2 _ eq_refl A1 B1) as [A2 B2].
  destruct (smear_step L 4 _ eq_refl A2 B2) as [A3 B3].
  destruct (smear_step L 8 _ eq_refl A3 B3) as [A4 B4].
  destruct (smear_step L 16 _ eq_refl A4 B4) as [A5 B5].
  destruct (smear_step L 32 _ eq_refl A5 B5) as [A6 B6].
  clear A1 B1 A2 B2 A3 B3 A4 B4 A5 B5 HA HB.
  apply Z.bits_inj'. intros i Hi.
  replace (2 ^ (L + 1) - 1) with (Z.ones (L + 1)) by (rewrite Z.ones_equiv; lia).
  rewrite Z.testbit_ones_nonneg by lia. destruct (Z.ltb_spec i (L + 1)).
  - apply A6; lia.
  - apply B6; lia.
Qed.

Lemma tree_cnt_spec count : 2 ≤ count < 2 ^ 64 → tree_cnt count = 2 ^ Z.log2 (count - 1).
Proof.
  intros Hc. unfold tree_cnt. rewrite smear_ones by lia.
  set (L := Z.log2 (count - 1)).
  assert (0 ≤ L) by apply Z.log2_nonneg.
  assert (L < 64) by (apply Z.log2_lt_pow2; lia).
  apply Z.bits_inj'. intros i Hi.
  replace (2 ^ (L + 1) - 1) with (Z.ones (L + 1)) by (rewrite Z.ones_equiv; lia).
  unfold u64. rewrite Z.land_spec, Z.testbit_ones_nonneg by lia.
  destruct (Z.ltb_spec i (L + 1)).
  - rewrite Z.mod_pow2_bits_low, Z.lnot_spec, Z.shiftr_spec by lia.
    rewrite Z.testbit_ones_nonneg, Z.pow2_bits_eqb by lia.
    destruct (Z.ltb_spec (i + 1) (L + 1)), (Z.eqb_spec L i); simpl; lia.
  - rewrite Z.pow2_bits_eqb by lia. destruct (Z.eqb_spec L i); simpl; lia.
Qed.

(** Binary search of an exponent below [2 ^ k], trying [2 ^ (k-1)] to [1]. *)
Fixpoint halves (k : nat) : list Z :=
  match k with O => [] | S k => 2 ^ Z.of_nat k :: halves k end.

Lemma log2_shift_test count i : 0 < count → 0 ≤ i →
  (0 <? Z.shiftr count i) = (i <=? Z.log2 count).
Proof.
  intros Hc Hi. apply eq_true_iff_eq. rewrite Z.ltb_lt, Z.leb_le.
  rewrite <- Z.log2_le_pow2, Z.shiftr_div_pow2 by lia. split; intros.
  - apply Z.nlt_ge. intros Hlt. rewrite Z.div_small in H; lia.
  - apply Z.div_str_pos. pose proof (Z.pow_pos_nonneg 2 i). lia.
Qed.

Lemma depth_loop k count depth :
  0 < count → Z.log2 count < 2 ^ Z.of_nat k →
  (foldl (λ '(count, depth) i,
            if 0 <? Z.shiftr count i then (Z.shiftr count i, depth + i)
            else (count, depth)) (count, depth) (halves k)).2 = depth + Z.log2 count.
Proof.
  revert count depth. induction k as [|k IH]; intros count depth Hc Hl.
  { pose proof (Z.log2_nonneg count). simpl in *. lia. }
  rewrite Nat2Z.inj_succ, Z.pow_succ_r in Hl by lia. cbn [halves foldl].
  pose proof (Z.pow_pos_nonneg 2 (Z.of_nat k)).
  destruct (0 <? Z.shiftr count (2 ^ Z.of_nat k)) eqn:E.
  - rewrite IH; rewrite ?Z.log2_shiftr by lia; [|lia..].
    rewrite log2_shift_test in E by lia. lia.
  - rewrite log2_shift_test in E by lia. apply IH; lia.
Qed.

Lemma tree_depth_spec count : 0 < count < 2 ^ 64 → tree_depth count = Ok (Z.log2 count).
Proof.
  intros Hc. unfold tree_depth. replace (count =? 0) with false by lia. f_equal.
  apply (depth_loop 6 count 0); [lia|]. change (2 ^ Z.of_nat 6) with 64. apply Z.log2_lt_pow2; lia.
Qed.

(** With [2 ^ d] reached and the exponent [e] in reach, the loop ends at [e]. *)
Lemma branch_loop k count d e :
  count < 2 ^ 64 → 0 ≤ d ≤ e → 2 ^ e ≤ count < 2 ^ (e + 1) → e < d + 2 ^ Z.of_nat k →
  d + 2 ^ Z.of_nat k ≤ 64 →
  foldl (λ '(cnt, depth) i,
           if u64 (Z.shiftl cnt i) <=? count then (u64 (Z.shiftl cnt i), depth + i)
           else (cnt, depth)) (2 ^ d, d) (halves k) = (2 ^ e, e).
Proof.
  intros Hc64. revert d. induction k as [|k IH]; intros d Hd Hc He Hk.
  { simpl in *. by replace d with e by lia. }
  rewrite Nat2Z.inj_succ, Z.pow_succ_r in He, Hk by lia. cbn [halves foldl].
  pose proof (Z.pow_pos_nonneg 2 (Z.of_nat k)). set (i := 2 ^ Z.of_nat k) in *.
  rewrite Z.shiftl_mul_pow2, <- Z.pow_add_r by lia.
  rewrite u64_small by (split; [lia|apply Z.pow_lt_mono_r; lia]).
  destruct (Z.leb_spec (2 ^ (d + i)) count) as [Hle|Hgt].
  - apply IH; [|done|lia..]. split; [lia|].
    assert (2 ^ (d + i) < 2 ^ (e + 1)) as Hp by lia.
    apply Z.pow_lt_mono_r_iff in Hp; lia.
  - apply IH; [lia|done| |lia].
    assert (2 ^ e < 2 ^ (d + i)) as Hp by lia. apply Z.pow_lt_mono_r_iff in Hp; lia.
Qed.

Lemma branch_cnt_spec count :
  0 < count < 2 ^ 64 → branch_cnt count = (2 ^ Z.log2 count, Z.log2 count).
Proof.
  intros Hc. assert (Z.log2 count < 64) by (apply Z.log2_lt_pow2; lia).
  apply (branch_loop 6 count 0); [lia|split; [lia|apply Z.log2_nonneg]| |lia|lia].
  apply Z.log2_spec. lia.
Qed.
(** ** The in-place loops compute [pairs] *)

Lemma slot_Some ints i h : ints !! i = Some (Some h) → slot ints i = Ok h.
Proof. unfold slot. by intros ->. Qed.

Lemma lookup_fmap_app (l : list hash) tl i :
  (i < length l)%nat → ((Some <$> l) ++ tl) !! i = Some <$> l !! i.
Proof. intros. by rewrite lookup_app_l, list_lookup_fmap by (by rewrite length_fmap). Qed.

Lemma drop_two (l : list hash) i :
  (2 ≤ length (drop i l))%nat →
  ∃ a b, l !! i = Some a ∧ l !! S i = Some b ∧ drop i l = a :: b :: drop (i + 2) l.
Proof.
  rewrite length_drop. intros Hl.
  destruct (lookup_lt_is_Some_2 l i) as [a Ha]; [lia|].
  destruct (lookup_lt_is_Some_2 l (S i)) as [b Hb]; [lia|].
  exists a, b. split_and!; [done..|].
  rewrite (drop_S l a i), (drop_S l b (S i)) by done. by replace (i + 2)%nat with (S (S i)) by lia.
Qed.

Lemma set_slot_next (r : list hash) x tl h :
  set_slot (length r) h ((Some <$> r) ++ x :: tl) = Ok ((Some <$> (r ++ [h])) ++ tl).
Proof.
  unfold set_slot. rewrite length_app, length_fmap. simpl.
  replace (_ <? _)%nat with true by (symmetry; apply Nat.ltb_lt; lia).
  rewrite insert_app_r_alt, length_fmap, Nat.sub_diag by (by rewrite length_fmap).
  simpl. by rewrite fmap_app, <- app_assoc.
Qed.

Lemma hash_leaves_spec n i l r tl :
  (2 * n ≤ length (drop i l))%nat → (n ≤ length tl)%nat →
  hash_leaves n i (length r) (Some <$> l) ((Some <$> r) ++ tl) =
  Ok ((Some <$> (r ++ pairs (take (2 * n) (drop i l)))) ++ drop n tl).
Proof.
  revert i r tl. induction n as [|n IH]; intros i r tl Hl Ht.
  { simpl. by rewrite app_nil_r. }
  destruct (drop_two l i) as (a & b & Ha & Hb & Hd); [lia|].
  cbn [hash_leaves].
  rewrite (slot_Some _ i a), (slot_Some _ (S i) b)
    by (by rewrite list_lookup_fmap, ?Ha, ?Hb).
  cbn [mbind result_bind].
  destruct tl as [|x tl]; [simpl in Ht; lia|]. rewrite set_slot_next. cbn [mbind result_bind].
  replace (S (length r)) with (length (r ++ [hash2 a b])) by (rewrite length_app; simpl; lia).
  rewrite IH; [|rewrite length_drop in *; lia|simpl in Ht; lia].
  rewrite Hd. replace (2 * S n)%nat with (S (S (2 * n))) by lia. simpl take.
  cbn [pairs]. by rewrite <- app_assoc.
Qed.

Lemma hash_level_spec n off l r tl :
  (off + 2 * (length r + n) ≤ length l)%nat →
  hash_level n (off + 2 * length r) (length r)
    ((Some <$> r) ++ drop (length r) ((Some <$> l) ++ tl)) =
  Ok ((Some <$> (r ++ pairs (take (2 * n) (drop (off + 2 * length r) l)))) ++
      drop (length r + n) ((Some <$> l) ++ tl)).
Proof.
  revert r. induction n as [|n IH]; intros r Hl.
  { simpl. by rewrite app_nil_r, Nat.add_0_r. }
  set (i := (off + 2 * length r)%nat) in *.
  destruct (drop_two l i) as (a & b & Ha & Hb & Hd); [rewrite length_drop; lia|].
  assert (∀ k h, (length r ≤ k)%nat → l !! k = Some h →
    slot ((Some <$> r) ++ drop (length r) ((Some <$> l) ++ tl)) k = Ok h) as Hslot.
  { intros k h Hk Hlk. apply slot_Some.
    rewrite lookup_app_r, length_fmap by (by rewrite length_fmap).
    rewrite lookup_drop. replace (length r + (k - length r))%nat with k by lia.
    rewrite lookup_fmap_app by (by eapply lookup_lt_Some). by rewrite Hlk. }
  cbn [hash_level]. rewrite (Hslot i a), (Hslot (S i) b) by (done || lia).
  cbn [mbind result_bind].
  destruct (drop (length r) ((Some <$> l) ++ tl)) as [|x tl'] eqn:Htl.
  { apply (f_equal length) in Htl. rewrite length_drop, length_app, length_fmap in Htl.
    simpl in Htl. lia. }
  rewrite set_slot_next. cbn [mbind result_bind].
  assert (tl' = drop (length (r ++ [hash2 a b])) ((Some <$> l) ++ tl)) as ->.
  { rewrite length_app. simpl. rewrite <- drop_drop, Htl. done. }
  replace (S (length r)) with (length (r ++ [hash2 a b])) by (rewrite length_app; simpl; lia).
  replace (i + 2)%nat with (off + 2 * length (r ++ [hash2 a b]))%nat
    by (rewrite length_app; simpl; lia).
  rewrite IH by (rewrite length_app; simpl; lia).
  rewrite Hd. replace (2 * S n)%nat with (S (S (2 * n))) by lia. simpl take. cbn [pairs].
  rewrite <- app_assoc, length_app. cbn [length].
  replace (off + _)%nat with (i + 2)%nat by lia.
  by replace (length r + 1 + n)%nat with (length r + S n)%nat by lia.
Qed.

(** A whole level from slot [off]. *)
Lemma hash_level_ok off n l tl :
  (off + 2 * n ≤ length l)%nat →
  hash_level n off 0 ((Some <$> l) ++ tl) =
  Ok ((Some <$> pairs (take (2 * n) (drop off l))) ++ drop n ((Some <$> l) ++ tl)).
Proof.
  intros Hl. pose proof (hash_level_spec n off l [] tl) as H. cbn [length Nat.add app] in H.
  replace (off + 2 * 0)%nat with off in H by lia. apply H. lia.
Qed.

Lemma length_pairs l n : length l = (2 * n)%nat → length (pairs l) = n.
Proof.
  revert l. induction n as [|n IH]; intros l Hl; [by destruct l|].
  destruct l as [|a [|b l]]; simpl in *; [lia..|]. rewrite IH; lia.
Qed.
Lemma perfect_root_total n l : length l = (2 ^ n)%nat → ∃ h, perfect_root n l = Some h.
Proof.
  revert l. induction n as [|n IH]; intros l Hl; simpl in *.
  - destruct l as [|h l]; [done|]. simpl. eauto.
  - apply IH. apply length_pairs. lia.
Qed.

(** ** [tree_hash] is the Merkle root *)

Lemma tree_hash_loop_spec fuel m l tl :
  (m < fuel)%nat → length l = (2 ^ S m)%nat →
  ∃ h, perfect_root (S m) l = Some h ∧
    (ints ← tree_hash_loop fuel (2 ^ Z.of_nat (S m)) ((Some <$> l) ++ tl);
     a ← slot ints 0; b ← slot ints 1; Ok (hash2 a b)) = Ok h.
Proof.
  revert m l tl. induction fuel as [|fuel IH]; intros m l tl Hf Hl; [lia|].
  cbn [tree_hash_loop]. destruct m as [|m].
  { destruct l as [|a [|b [|]]]; try done. simpl. eauto. }
  assert (2 < 2 ^ Z.of_nat (S (S m))).
  { rewrite !Nat2Z.inj_succ, !Z.pow_succ_r by lia. pose proof (Z.pow_pos_nonneg 2 (Z.of_nat m)). lia. }
  replace (_ <=? 2) with false by lia.
  rewrite Z.shiftr_div_pow2 by lia.
  replace (2 ^ Z.of_nat (S (S m)) / 2 ^ 1) with (2 ^ Z.of_nat (S m))
    by (rewrite (Nat2Z.inj_succ (S m)), Z.pow_succ_r, Z.mul_comm, Z.div_mul by lia; done).
  rewrite Z2Nat.inj_pow, Nat2Z.id by lia. change (Z.to_nat 2) with 2%nat.
  assert (length l = 2 * 2 ^ S m)%nat as Hl' by (rewrite Hl; simpl; lia).
  rewrite hash_level_ok by lia. cbn [mbind result_bind].
  rewrite take_ge by (rewrite drop_0; lia). rewrite drop_0.
  destruct (IH m (pairs l) (drop (2 ^ S m) ((Some <$> l) ++ tl))) as (h & Hh & He);
    [lia|by apply length_pairs|]. by exists h.
Qed.

Lemma pow2_Z m : Z.to_nat (2 ^ Z.of_nat m) = (2 ^ m)%nat.
Proof. by rewrite Z2Nat.inj_pow, Nat2Z.id by lia. Qed.

Lemma tree_hash_merkle l :
  l ≠ [] → Z.of_nat (length l) < 2 ^ 63 →
  ∃ h, merkle_root l = Some h ∧ tree_hash l = Ok h.
Proof.
  intros Hn Hlt. destruct l as [|h1 [|h2 [|h3 l']]]; [done| | |].
  1,2: unfold merkle_root, bottom_level; simpl; eauto.
  change (tree_hash (h1 :: h2 :: h3 :: l')) with (tree_hash_many (h1 :: h2 :: h3 :: l')).
  assert (3 ≤ length (h1 :: h2 :: h3 :: l'))%nat as H3 by (simpl; lia).
  set (l := h1 :: h2 :: h3 :: l') in *. clearbody l.
  unfold merkle_root. replace (length l =? 1)%nat with false by (symmetry; apply Nat.eqb_neq; lia).
  set (c := Z.of_nat (length l)) in *.
  assert (0 < Z.log2 (c - 1)) by (apply Z.log2_pos; lia).
  destruct (Z.log2_spec (c - 1)) as [Hlo Hhi]; [lia|].
  destruct (Z_of_nat_complete (Z.log2 (c - 1))) as [[|m] Hm]; [lia..|].
  rewrite Hm, Nat2Z.id. rewrite Hm in Hlo, Hhi.
  assert (2 ^ Z.succ (Z.of_nat (S m)) = 2 * 2 ^ Z.of_nat (S m)) as Hp
    by (apply Z.pow_succ_r; lia). rewrite Hp in Hhi.
  assert (Z.of_nat (2 ^ S m) = 2 ^ Z.of_nat (S m)) as Hz by (by rewrite Nat2Z.inj_pow).
  unfold tree_hash_many, scratch. fold c. rewrite tree_cnt_spec by lia. rewrite Hm.
  rewrite pow2_Z. set (n := Z.to_nat (2 * 2 ^ Z.of_nat (S m) - c)).
  assert (n = 2 * 2 ^ S m - length l)%nat as Hn' by lia.
  assert (length (take n l) = n) as Hln by (rewrite length_take; lia).
  pose proof (hash_leaves_spec (2 ^ S m - n) n l (take n l)
    (replicate (2 ^ S m - n) None)) as HL.
  rewrite Hln, length_drop, length_replicate in HL. rewrite HL by lia.
  cbn [mbind result_bind]. rewrite (take_ge (drop n l)) by (rewrite length_drop; lia).
  destruct (tree_hash_loop_spec 64 m (take n l ++ pairs (drop n l))
    (drop (2 ^ S m - n) (replicate (2 ^ S m - n) None))) as (h & Hh & He).
  - assert (2 ^ Z.of_nat (S m) < 2 ^ 63) as Hb by lia. apply Z.pow_lt_mono_r_iff in Hb; lia.
  - rewrite length_app, Hln, (length_pairs _ (2 ^ S m - n)); [lia|].
    rewrite length_drop. lia.
  - exists h. split; [|done]. unfold bottom_level. by rewrite <- Hn'.
Qed.
(** ** A branch leads from the first leaf to the root *)

Definition node_of (leaf : hash) (buffer : option (hash * hash)) : hash :=
  match buffer with None => leaf | Some (b0, b1) => hash2 b0 b1 end.

Lemma set_slot_last d (l : list (option hash)) h :
  (d < length l)%nat → set_slot d h l = Ok (<[d:=Some h]> l).
Proof.
  intros. unfold set_slot.
  by replace (_ <? _)%nat with true by (symmetry; by apply Nat.ltb_lt).
Qed.

Lemma tree_branch_loop_spec d l tl branch :
  S (length l) = (2 ^ d)%nat → (d ≤ length branch)%nat →
  ∃ bl, tree_branch_loop d (2 ^ Z.of_nat d) ((Some <$> l) ++ tl) branch =
          Ok ((Some <$> bl) ++ drop d branch) ∧
    length bl = d ∧
    ∀ bl' leaf buffer, ∃ buffer' h,
      from_branch_loop (bl ++ bl') d leaf None buffer = Ok buffer' ∧
      perfect_root d (node_of leaf buffer :: l) = Some h ∧ node_of leaf buffer' = h.
Proof.
  revert l tl branch. induction d as [|d IH]; intros l tl branch Hl Hb.
  { exists []. split_and!; [by rewrite drop_0|done|]. intros bl' leaf buffer.
    exists buffer. destruct l; [|done]. simpl. eauto. }
  cbn [tree_branch_loop]. rewrite Z.shiftr_div_pow2 by lia.
  replace (2 ^ Z.of_nat (S d) / 2 ^ 1) with (2 ^ Z.of_nat d)
    by (rewrite (Nat2Z.inj_succ d), Z.pow_succ_r, Z.mul_comm, Z.div_mul by lia; done).
  destruct l as [|x l]; [simpl in Hl; pose proof (Nat.pow_nonzero 2 d); lia|].
  rewrite (slot_Some _ 0 x) by done. cbn [mbind result_bind].
  rewrite set_slot_last by lia. cbn [mbind result_bind].
  replace (Z.to_nat (2 ^ Z.of_nat d - 1)) with (2 ^ d - 1)%nat
    by (rewrite <- pow2_Z; pose proof (Z.pow_pos_nonneg 2 (Z.of_nat d)); lia).
  simpl in Hl. rewrite hash_level_ok by (simpl; lia). cbn [mbind result_bind drop].
  rewrite drop_0, take_ge by lia.
  destruct (IH (pairs l) (drop (2 ^ d - 1) ((Some <$> x :: l) ++ tl)) (<[d:=Some x]> branch))
    as (bl & Hbl & Hlen & Hroot).
  { rewrite (length_pairs l (2 ^ d - 1)) by lia. pose proof (Nat.pow_nonzero 2 d). lia. }
  { rewrite length_insert. lia. }
  exists (bl ++ [x]). split_and!.
  - rewrite Hbl, fmap_app, <- app_assoc. do 2 f_equal. simpl.
    rewrite (drop_S (<[d:=Some x]> branch) (Some x) d) by (apply list_lookup_insert_eq; lia).
    by rewrite drop_insert_lt by lia.
  - rewrite length_app. simpl. lia.
  - intros bl' leaf buffer. cbn [from_branch_loop path_bit mbind result_bind].
    rewrite (slot_Some _ d x).
    + cbn [mbind result_bind]. rewrite <- app_assoc.
      destruct (Hroot ([x] ++ bl') leaf (Some (node_of leaf buffer, x))) as (b' & h & He & Hp & Hn).
      exists b', h. split; [exact He|]. split; [|done].
      by destruct buffer as [[]|].
    + rewrite list_lookup_fmap, <- app_assoc, lookup_app_r by lia.
      by rewrite Hlen, Nat.sub_diag.
Qed.

(** The bottom level of [tree_branch] starts at the second leaf and keeps
    one more level when the leaves are a power of two. *)
Lemma merkle_root_full d x l :
  (2 ^ d ≤ S (length l) < 2 ^ S d)%nat →
  merkle_root (x :: l) =
  perfect_root d (x :: take (2 * 2 ^ d - S (length l) - 1) l ++
                       pairs (drop (2 * 2 ^ d - S (length l) - 1) l)).
Proof.
  intros Hd. unfold merkle_root. destruct l as [|y l].
  { destruct d; [done|]. simpl in *. pose proof (Nat.pow_nonzero 2 d). lia. }
  cbn [length Nat.eqb] in *. set (c := S (S (length l))) in *.
  destruct d as [|d]; [simpl in Hd; lia|].
  destruct (decide (c = 2 ^ S d)%nat) as [He|He].
  - replace (Z.log2 (Z.of_nat c - 1)) with (Z.of_nat d).
    2: { symmetry. apply Z.log2_unique; [lia|].
         assert (2 ^ Z.of_nat d = Z.of_nat (2 ^ d)) as -> by (by rewrite Nat2Z.inj_pow).
         rewrite Z.pow_succ_r by lia.
         assert (2 ^ Z.of_nat d = Z.of_nat (2 ^ d)) as -> by (by rewrite Nat2Z.inj_pow).
         simpl Nat.pow in He. pose proof (Nat.pow_nonzero 2 d). lia. }
    rewrite Nat2Z.id. unfold bottom_level. cbn [length]. fold c.
    replace (2 * 2 ^ d - c)%nat with 0%nat by (simpl in He; lia).
    rewrite take_0, drop_0.
    assert (length (y :: l) ≤ 2 * 2 ^ S d - c - 1)%nat by (simpl length; lia).
    rewrite take_ge, drop_ge by done.
    simpl. by rewrite app_nil_r.
  - replace (Z.log2 (Z.of_nat c - 1)) with (Z.of_nat (S d)).
    2: { symmetry. apply Z.log2_unique; [lia|].
         rewrite Z.pow_succ_r by lia.
         replace (2 ^ Z.of_nat (S d)) with (Z.of_nat (2 ^ S d)) by (by rewrite Nat2Z.inj_pow).
         simpl Nat.pow in *. lia. }
    rewrite Nat2Z.id. unfold bottom_level. cbn [length]. fold c.
    assert (∃ k, 2 * 2 ^ S d - c = S k)%nat as [k Hk]
      by (exists (2 * 2 ^ S d - c - 1)%nat; simpl in *; lia).
    rewrite Hk. simpl. by rewrite Nat.sub_0_r.
Qed.

(** [tree_branch] writes the siblings of the first leaf: folding them from
    the leaf gives the root [tree_hash] computes. *)
Lemma tree_branch_correct leaf l branch :
  Z.of_nat (length (leaf :: l)) < 2 ^ 63 →
  tree_depth (Z.of_nat (length (leaf :: l))) = Ok (Z.of_nat (length branch)) →
  ∃ bl h, tree_branch (leaf :: l) branch = Ok (Some <$> bl) ∧ length bl = length branch ∧
    tree_hash_from_branch bl (length bl) leaf None = Ok h ∧ tree_hash (leaf :: l) = Ok h.
Proof.
  set (c := Z.of_nat (length (leaf :: l))). intros Hc Hdepth.
  assert (0 < c) by (unfold c; simpl; lia).
  rewrite tree_depth_spec in Hdepth by lia. set (d := length branch) in *.
  assert (Z.log2 c = Z.of_nat d) as Hd by congruence. clear Hdepth.
  destruct (Z.log2_spec c) as [Hlo Hhi]; [done|]. rewrite Hd in Hlo, Hhi.
  rewrite Z.pow_succ_r in Hhi by lia.
  assert (2 ^ Z.of_nat d = Z.of_nat (2 ^ d)) as Hz by (by rewrite Nat2Z.inj_pow).
  assert (2 ^ d ≤ S (length l) < 2 * 2 ^ d)%nat as Hr by (unfold c in *; simpl length in *; lia).
  destruct (tree_hash_merkle (leaf :: l)) as (h & Hm & Ht); [done|done|].
  rewrite (merkle_root_full d) in Hm by (simpl Nat.pow; lia).
  unfold tree_branch. fold c. replace (c =? 0) with false by lia.
  rewrite branch_cnt_spec by lia. rewrite Hd. unfold scratch.
  change (drop 1 (leaf :: l)) with l.
  set (n := (2 * 2 ^ d - S (length l) - 1)%nat) in *.
  replace (Z.to_nat (2 * 2 ^ Z.of_nat d - c - 1)) with n
    by (unfold n, c in *; simpl length in *; lia).
  replace (Z.to_nat (2 ^ Z.of_nat d - 1)) with (2 ^ d - 1)%nat by lia.
  assert (length (take n l) = n) as Hln by (rewrite length_take; lia).
  pose proof (hash_leaves_spec (2 ^ d - 1 - n) (n + 1) (leaf :: l) (take n l)
    (replicate (2 ^ d - 1 - n) None)) as HL.
  rewrite Hln, length_drop, length_replicate in HL. rewrite HL by (simpl length; lia). clear HL.
  cbn [mbind result_bind]. rewrite Nat.add_1_r.
  change (drop (S n) (leaf :: l)) with (drop n l).
  rewrite (take_ge (drop n l)) by (rewrite length_drop; lia). rewrite Nat2Z.id.
  destruct (tree_branch_loop_spec d (take n l ++ pairs (drop n l))
    (drop (2 ^ d - 1 - n) (replicate (2 ^ d - 1 - n) None)) branch)
    as (bl & Hbl & Hlen & Hroot); [|done|].
  { rewrite length_app, Hln, (length_pairs _ (2 ^ d - 1 - n)); [|rewrite length_drop]; lia. }
  exists bl, h. rewrite Hbl, drop_ge, app_nil_r by done. split_and!; [done..| |done].
  destruct (Hroot [] leaf None) as (b' & h' & He & Hp & Hn).
  unfold tree_hash_from_branch. rewrite app_nil_r in He. rewrite Hlen, He. simpl in *.
  f_equal. rewrite <- Hn in Hp. rewrite Hm in Hp. by injection Hp as ->.
Qed.
(** ** A root binds its leaf and branch *)

Section binding.
Context (n : nat) (Hlen : ∀ x, length (cn_fast_hash x) = n).

Definition collision : Prop := ∃ x y, x ≠ y ∧ cn_fast_hash x = cn_fast_hash y.

Lemma hash2_inj a b a' b' :
  length a = length a' → hash2 a b = hash2 a' b' → (a = a' ∧ b = b') ∨ collision.
Proof.
  intros Hl Hh. destruct (decide (a ++ b = a' ++ b')) as [He|].
  - left. by apply app_inj_1.
  - right. by exists (a ++ b), (a' ++ b').
Qed.

Lemma slot_inv (l : list hash) i h : slot (Some <$> l) i = Ok h → l !! i = Some h.
Proof.
  unfold slot. rewrite list_lookup_fmap. destruct (l !! i); simpl; congruence.
Qed.

Lemma from_branch_binding d br br' leaf leaf' path b b' r r' :
  Forall (λ h, length h = n) (br ++ br') → length leaf = n → length leaf' = n →
  from_branch_loop br d leaf path b = Ok r → from_branch_loop br' d leaf' path b' = Ok r' →
  node_of leaf r = node_of leaf' r' →
  (node_of leaf b = node_of leaf' b' ∧ take d br = take d br') ∨ collision.
Proof.
  intros Hbr Hl Hl'. apply Forall_app in Hbr as [Hbr Hbr'].
  revert b b'. induction d as [|d IH]; intros b b' H H' Hn.
  { injection H as <-. injection H' as <-. by left. }
  cbn [from_branch_loop] in H, H'. inv_ok H. inv_ok H'.
  rewrite Ha in Ha1. injection Ha1 as ->.
  apply slot_inv in Ha0, Ha2.
  pose proof (proj1 (Forall_lookup _ _) Hbr _ _ Ha0) as Hs.
  pose proof (proj1 (Forall_lookup _ _) Hbr' _ _ Ha2) as Hs'.
  destruct (IH _ _ H H' Hn) as [[He Ht]|]; [|by right].
  assert (∀ c leaf, length leaf = n → length (node_of leaf c) = n) as Hnode.
  { intros [[]|] ? ?; [apply Hlen|done]. }
  fold (node_of leaf b) in He. fold (node_of leaf' b') in He.
  pose proof (Hnode b leaf Hl). pose proof (Hnode b' leaf' Hl').
  assert ((node_of leaf b = node_of leaf' b' ∧ a0 = a2) ∨ collision) as [[? ->]|];
    [|left; split; [done|]|by right].
  - destruct a1; simpl in He; (apply hash2_inj in He as [[]|]; [by left|by right|congruence]).
  - by rewrite !(take_S_r _ _ a2), Ht by done.
Qed.
End binding.
End tree.

(** ** Properties *)

(** A stand-in for the hash function: a one-byte checksum. *)
Definition toy_hash (x : list Z) : list Z := [foldl (λ h b, (31 * h + b) mod 251) 7 x].

(** C18: [tree_hash], which works in place on a scratch array whose size it
    finds by bit smearing, returns the Merkle root of any non-empty list of
    hashes and never reads or writes out of bounds. *)
Theorem tree_hash_is_merkle_root cn_fast_hash hashes :
  hashes ≠ [] → Z.of_nat (length hashes) < 2 ^ 63 →
  ∃ h, merkle_root cn_fast_hash hashes = Some h ∧ tree_hash cn_fast_hash hashes = Ok h.
Proof. apply tree_hash_merkle. Qed.

Lemma tree_hash_is_merkle_root_witness :
  ∃ h, merkle_root toy_hash [[1]; [2]; [3]; [4]; [5]; [6]; [7]] = Some h ∧
       tree_hash toy_hash [[1]; [2]; [3]; [4]; [5]; [6]; [7]] = Ok h.
Proof. apply (tree_hash_is_merkle_root toy_hash [[1]; [2]; [3]; [4]; [5]; [6]; [7]]); done. Defined.

(** A branch proves the first leaf: for an array of [tree_depth] slots,
    [tree_branch] fills every slot and [tree_hash_from_branch] leads from the
    first leaf along it to the root that [tree_hash] computes. *)
Lemma tree_branch_leads_to_root cn_fast_hash leaf l branch :
  Z.of_nat (length (leaf :: l)) < 2 ^ 63 →
  tree_depth (Z.of_nat (length (leaf :: l))) = Ok (Z.of_nat (length branch)) →
  ∃ bl h, tree_branch cn_fast_hash (leaf :: l) branch = Ok (Some <$> bl) ∧
    length bl = length branch ∧
    tree_hash_from_branch cn_fast_hash bl (length bl) leaf None = Ok h ∧
    tree_hash cn_fast_hash (leaf :: l) = Ok h.
Proof. apply tree_branch_correct. Qed.

Lemma tree_branch_leads_to_root_witness :
  ∃ bl h, tree_branch toy_hash [[1]; [2]; [3]; [4]; [5]; [6]] [None; None] = Ok (Some <$> bl) ∧
    length bl = 2%nat ∧ tree_hash_from_branch toy_hash bl (length bl) [1] None = Ok h ∧
    tree_hash toy_hash [[1]; [2]; [3]; [4]; [5]; [6]] = Ok h.
Proof.
  apply (tree_branch_leads_to_root toy_hash [1] [[2]; [3]; [4]; [5]; [6]] [None; None]); done.
Defined.

(** C17: A root binds what is proved against it: two leaves accepted with
    branches of the same depth and path for the same root are equal and have
    equal branches, unless the hash function collides. *)
Theorem tree_hash_from_branch_binding cn_fast_hash n d br br' leaf leaf' path root :
  (∀ x, length (cn_fast_hash x) = n) →
  Forall (λ h, length h = n) (br ++ br') → length leaf = n → length leaf' = n →
  tree_hash_from_branch cn_fast_hash br d leaf path = Ok root →
  tree_hash_from_branch cn_fast_hash br' d leaf' path = Ok root →
  (leaf = leaf' ∧ take d br = take d br') ∨ ∃ x y, x ≠ y ∧ cn_fast_hash x = cn_fast_hash y.
Proof.
  intros Hlen Hbr Hl Hl' H H'. unfold tree_hash_from_branch in *. inv_ok H. inv_ok H'.
  injection H as H. injection H' as H'.
  destruct (from_branch_binding cn_fast_hash n Hlen d br br' leaf leaf' path None None a a0)
    as [|]; auto. by rewrite <- H in H'.
Qed.

Lemma tree_hash_from_branch_binding_witness :
  ([1] = [1] ∧ take 2 [[5]; [6]] = take 2 [[5]; [6]]) ∨
  ∃ x y, x ≠ y ∧ toy_hash x = toy_hash y.
Proof.
  apply (tree_hash_from_branch_binding toy_hash 1 2 [[5]; [6]] [[5]; [6]] [1] [1] (Some [2])
           (toy_hash (toy_hash ([6] ++ [1]) ++ [5]))).
  - done.
  - by repeat constructor.
  - done.
  - done.
  - by vm_compute.
  - by vm_compute.
Defined.

End TreeHash.
