(* ===== verification/Text.v ===== *)
(** * Text encodings (src/src/common/StringTools.cpp, Base58.cpp, Base64.cpp)

    Hexadecimal, the block-wise base 58 of addresses with its checksum, and
    base 64.  A [std::string] is the list of its bytes. *)

From S2P Require Import Prelude Varint Words.

Local Open Scope Z_scope.

(** The bytes of an ASCII literal. *)
Definition chars (s : string) : list Z :=
  (λ a, Z.of_nat (Ascii.nat_of_ascii a)) <$> String.list_ascii_of_string s.

Module Hex.

Definition alphabet : list Z := chars "0123456789abcdef".

(** [character_values]. *)
Definition character_values : list Z :=
  replicate 48 0xff ++ seqZ 0 10 ++ replicate 7 0xff ++ seqZ 10 6 ++ replicate 26 0xff ++
  seqZ 10 6 ++ replicate 153 0xff.

Definition from_hex_char (character : Z) : option Z :=
  let v := nth (Z.to_nat character) character_values 0xff in
  if 0x0f <? v then None else Some v.

(** The loop of [from_hex(const std::string &, BinaryArray &)], two characters
    a round; an odd size is refused before it. *)
Fixpoint from_hex_loop (text : list Z) : option (list Z) :=
  match text with
  | c1 :: c2 :: text =>
      value1 ← from_hex_char c1; value2 ← from_hex_char c2;
      data ← from_hex_loop text;
      Some (u8 (Z.lor (Z.shiftl value1 4) value2) :: data)
  | _ => Some []
  end.

Definition from_hex (text : list Z) : option (list Z) :=
  if negb (Z.land (Z.of_nat (length text)) 1 =? 0) then None else from_hex_loop text.

(** [pod_from_hex] into a [size]-byte structure. *)
Definition pod_from_hex (size : nat) (text : list Z) : option (list Z) :=
  if negb (Z.land (Z.of_nat (length text)) 1 =? 0) then None
  else if Z.of_nat size <? Z.shiftr (Z.of_nat (length text)) 1 then None
  else data ← from_hex_loop text; if (length data =? size)%nat then Some data else None.

Fixpoint to_hex (data : list Z) : list Z :=
  match data with
  | [] => []
  | b :: data =>
      nth (Z.to_nat (Z.shiftr b 4)) alphabet 0 :: nth (Z.to_nat (Z.land b 15)) alphabet 0 ::
      to_hex data
  end.

(** [extract(text, delimiter)]: the part before the delimiter and the rest. *)
Fixpoint extract (text : list Z) (delimiter : Z) : list Z * list Z :=
  match text with
  | [] => ([], [])
  | c :: text =>
      if c =? delimiter then ([], text)
      else let '(sub, rest) := extract text delimiter in (c :: sub, rest)
  end.

Lemma from_hex_digit v : 0 ≤ v < 16 → from_hex_char (nth (Z.to_nat v) alphabet 0) = Some v.
Proof.
  intros Hv. assert (is_byte v) as Hb by (unfold is_byte; lia).
  revert Hv. byte_cases v Hb.
Qed.

Lemma from_hex_byte b : is_byte b →
  from_hex_char (nth (Z.to_nat (Z.shiftr b 4)) alphabet 0) = Some (Z.shiftr b 4) ∧
  from_hex_char (nth (Z.to_nat (Z.land b 15)) alphabet 0) = Some (Z.land b 15) ∧
  u8 (Z.lor (Z.shiftl (Z.shiftr b 4) 4) (Z.land b 15)) = b.
Proof. intros Hb. byte_cases b Hb. Qed.

Lemma length_to_hex data : length (to_hex data) = (2 * length data)%nat.
Proof. induction data; simpl; lia. Qed.

Lemma from_hex_loop_to_hex data : bytes data → from_hex_loop (to_hex data) = Some data.
Proof.
  induction 1 as [|b data Hb Hd IH]; [done|]. cbn [to_hex from_hex_loop].
  destruct (from_hex_byte b Hb) as (-> & -> & He). cbn [mbind option_bind].
  by rewrite IH, <- He at 1.
Qed.

Lemma even_size n : negb (Z.land (Z.of_nat (2 * n)) 1 =? 0) = false.
Proof.
  change 1 with (2 ^ 1 - 1). rewrite land_ones_mod by lia.
  apply negb_false_iff, Z.eqb_eq. words.
Qed.

Lemma from_to_hex data : bytes data → from_hex (to_hex data) = Some data.
Proof.
  intros Hd. unfold from_hex. by rewrite length_to_hex, even_size, from_hex_loop_to_hex.
Qed.

Lemma pod_from_to_hex data : bytes data → pod_from_hex (length data) (to_hex data) = Some data.
Proof.
  intros Hd. unfold pod_from_hex. rewrite length_to_hex, even_size.
  rewrite Z.shiftr_div_pow2 by lia. replace (_ <? _) with false by words.
  rewrite from_hex_loop_to_hex by done. cbn [mbind option_bind]. by rewrite Nat.eqb_refl.
Qed.

End Hex.

Module Base58.

Definition alphabet : list Z := chars "123456789ABCDEFGHJKLMNPQRSTUVWXYZabcdefghijkmnopqrstuvwxyz".
Definition alphabet_size : Z := Z.of_nat (length alphabet).
Definition encoded_block_sizes : list nat := [0; 2; 3; 5; 6; 7; 9; 10; 11]%nat.
Definition full_block_size : nat := length encoded_block_sizes - 1.
Definition full_encoded_block_size : nat := nth full_block_size encoded_block_sizes 0%nat.
Definition addr_checksum_size : nat := 4.

Definition letter (i : Z) : Z := nth (Z.to_nat i) alphabet 0.

(** [reverse_alphabet]: the table is filled by running through the alphabet. *)
Definition reverse_alphabet_data : list Z :=
  foldl (λ m i, <[Z.to_nat (letter i - letter 0) := i]> m)
    (replicate (Z.to_nat (letter (alphabet_size - 1) - letter 0 + 1)) (-1))
    (seqZ 0 alphabet_size).

Definition reverse_alphabet (l : Z) : Z :=
  if (letter 0 <=? l) && (Z.to_nat (l - letter 0) <? length reverse_alphabet_data)%nat
  then nth (Z.to_nat (l - letter 0)) reverse_alphabet_data (-1) else -1.

Definition decoded_block_sizes_data : list Z :=
  foldl (λ m i, <[nth i encoded_block_sizes 0%nat := Z.of_nat i]> m)
    (replicate (full_encoded_block_size + 1) (-1)) (seq 0 (full_block_size + 1)).

Definition decoded_block_sizes (n : nat) : result Z :=
  if (n <=? full_encoded_block_size)%nat then Ok (nth n decoded_block_sizes_data (-1))
  else Undefined "assert(encoded_block_size <= full_encoded_block_size)".

Definition uint_8be_to_64 (data : list Z) : result Z :=
  if (1 <=? length data)%nat && (length data <=? 8)%nat then Ok (Varint.uint_be_from_bytes data)
  else Undefined "assert(1 <= size && size <= sizeof(uint64_t))".

Definition uint_64_to_8be (num : Z) (size : nat) : result (list Z) :=
  if (1 <=? size)%nat && (size <=? 8)%nat then Ok (Varint.uint_be_to_bytes size num)
  else Undefined "assert(1 <= size && size <= sizeof(uint64_t))".

(** The [while (0 < num)] loop of [encode_block], filling [res] from the
    right; eleven digits are enough for 64 bits. *)
Fixpoint encode_loop (fuel : nat) (num : Z) (i : Z) (res : list Z) : result (list Z) :=
  if negb (0 <? num) then Ok res else
  match fuel with
  | O => Undefined "out of fuel"
  | S fuel =>
      if i <? 0 then Undefined "res[i] out of range"
      else encode_loop fuel (num / alphabet_size) (i - 1)
             (<[Z.to_nat i := letter (num mod alphabet_size)]> res)
  end.

Definition encode_block (block : list Z) : result (list Z) :=
  let size := length block in
  num ← uint_8be_to_64 block;
  let n := nth size encoded_block_sizes 0%nat in
  encode_loop 11 num (Z.of_nat n - 1) (replicate n (letter 0)).

(** The loop of [decode_block], on the characters from right to left. *)
Fixpoint decode_loop (rev_block : list Z) (res_num order : Z) : option Z :=
  match rev_block with
  | [] => Some res_num
  | c :: block =>
      let digit := reverse_alphabet c in
      if digit <? 0 then None else
      let '(product_lo, product_hi) := Words.mul128 order digit in
      let tmp := u64 (res_num + product_lo) in
      if (tmp <? res_num) || negb (0 =? product_hi) then None
      else decode_loop block tmp (u64 (order * alphabet_size))
  end.

Definition decode_block (block : list Z) : result (option (list Z)) :=
  if negb ((1 <=? length block)%nat && (length block <=? full_encoded_block_size)%nat)
  then Undefined "assert(1 <= size && size <= full_encoded_block_size)" else
  res_size ← decoded_block_sizes (length block);
  if res_size <=? 0 then Ok None else
  match decode_loop (rev block) 0 1 with
  | None => Ok None
  | Some res_num =>
      if (res_size <? Z.of_nat full_block_size) && (Z.shiftl 1 (8 * res_size) <=? res_num)
      then Ok None
      else res ← uint_64_to_8be res_num (Z.to_nat res_size); Ok (Some res)
  end.

Fixpoint encode_blocks (n : nat) (data : list Z) : result (list Z) :=
  match n with
  | O => if (0 <? length data)%nat then encode_block data else Ok []
  | S n =>
      b ← encode_block (take full_block_size data);
      res ← encode_blocks n (drop full_block_size data); Ok (b ++ res)
  end.

Definition encode (data : list Z) : result (list Z) :=
  if bool_decide (data = []) then Ok []
  else encode_blocks (length data / full_block_size) data.

Fixpoint decode_blocks (n : nat) (enc : list Z) : result (option (list Z)) :=
  match n with
  | O => if (0 <? length enc)%nat then decode_block enc else Ok (Some [])
  | S n =>
      b ← decode_block (take full_encoded_block_size enc);
      match b with
      | None => Ok None
      | Some b =>
          res ← decode_blocks n (drop full_encoded_block_size enc);
          Ok (option_map (app b) res)
      end
  end.

Definition decode (enc : list Z) : result (option (list Z)) :=
  if bool_decide (enc = []) then Ok (Some []) else
  last_block_decoded_size ← decoded_block_sizes (length enc mod full_encoded_block_size);
  if last_block_decoded_size <? 0 then Ok None
  else decode_blocks (length enc / full_encoded_block_size) enc.

(** ** Digits *)

(** The last [n] base-58 digits of [num], most significant first. *)
Fixpoint digits_be (n : nat) (num : Z) : list Z :=
  match n with
  | O => []
  | S n => digits_be n (num / 58) ++ [letter (num mod 58)]
  end.

Lemma reverse_letter i : 0 ≤ i < 58 → reverse_alphabet (letter i) = i.
Proof.
  intros Hi. assert (is_byte i) as Hb by (unfold is_byte; lia). revert Hi. byte_cases i Hb.
Qed.

Lemma letter_reverse c : is_byte c → 0 ≤ reverse_alphabet c →
  reverse_alphabet c < 58 ∧ letter (reverse_alphabet c) = c.
Proof. intros Hc. byte_cases c Hc. Qed.

Lemma length_digits_be n num : length (digits_be n num) = n.
Proof. revert num. induction n as [|n IH]; intros; simpl; [done|]. rewrite length_app, IH. simpl. lia. Qed.

Lemma digits_be_zero n : digits_be n 0 = replicate n (letter 0).
Proof.
  induction n as [|n IH]; [done|]. cbn [digits_be]. rewrite Z.div_0_l, Z.mod_0_l, IH by lia.
  change [letter 0] with (replicate 1 (letter 0)). rewrite <- replicate_add.
  f_equal. lia.
Qed.

Lemma insert_replicate_last k (a x : Z) suf :
  <[k := x]> (replicate (S k) a ++ suf) = replicate k a ++ x :: suf.
Proof. induction k as [|k IH]; [done|]. simpl in *. by rewrite IH. Qed.

Lemma encode_loop_digits fuel k num suf :
  (k ≤ fuel)%nat → 0 ≤ num < 58 ^ Z.of_nat k →
  encode_loop fuel num (Z.of_nat k - 1) (replicate k (letter 0) ++ suf) =
  Ok (digits_be k num ++ suf).
Proof.
  revert k num suf. induction fuel as [|fuel IH]; intros k num suf Hk Hn;
    cbn [encode_loop]; destruct (Z.ltb_spec 0 num); simpl negb; cbn iota.
  - assert (k = 0%nat) as -> by lia. simpl in Hn. lia.
  - assert (num = 0) as -> by lia. by rewrite digits_be_zero.
  - destruct k as [|k]; [simpl in Hn; lia|].
    replace (Z.of_nat (S k) - 1 <? 0) with false by lia.
    replace (Z.of_nat (S k) - 1) with (Z.of_nat k) by lia.
    rewrite Nat2Z.id, insert_replicate_last. change alphabet_size with 58.
    rewrite IH; [|lia|].
    + cbn [digits_be]. by rewrite <- app_assoc.
    + rewrite Nat2Z.inj_succ, Z.pow_succ_r in Hn by lia.
      split; [apply Z.div_pos; lia|apply Z.div_lt_upper_bound; lia].
  - assert (num = 0) as -> by lia. by rewrite digits_be_zero.
Qed.

Lemma decode_loop_digits n num res_num k :
  0 ≤ num < 58 ^ Z.of_nat n → (k + n ≤ 11)%nat → 0 ≤ res_num →
  res_num + 58 ^ Z.of_nat k * num < 2 ^ 64 →
  decode_loop (rev (digits_be n num)) res_num (u64 (58 ^ Z.of_nat k)) =
  Some (res_num + 58 ^ Z.of_nat k * num).
Proof.
  revert num res_num k. induction n as [|n IH]; intros num res_num k Hn Hk Hr Hlt.
  { simpl in *. f_equal. lia. }
  cbn [digits_be]. rewrite rev_unit. cbn [decode_loop].
  assert (58 ^ Z.of_nat k ≤ 58 ^ 10) as Hp by (apply Z.pow_le_mono_r; lia).
  assert (0 < 58 ^ Z.of_nat k) by (apply Z.pow_pos_nonneg; lia).
  rewrite u64_small by (vm_compute (58 ^ 10) in Hp; lia).
  rewrite reverse_letter by words. change alphabet_size with 58.
  replace (58 ^ Z.of_nat k * 58) with (58 ^ Z.of_nat (S k))
    by (rewrite Nat2Z.inj_succ, Z.pow_succ_r by lia; lia).
  rewrite Nat2Z.inj_succ, Z.pow_succ_r in Hn by lia.
  assert (num = 58 * (num / 58) + num mod 58) as Hdm by (apply Z.div_mod; lia).
  assert (0 ≤ num mod 58 < 58) as Hm by words. assert (0 ≤ num / 58) by words.
  replace (num mod 58 <? 0) with false by lia.
  set (q := num / 58) in *. set (m := num mod 58) in *. set (p := 58 ^ Z.of_nat k) in *.
  assert (p * num = p * m + p * 58 * q) as Hpn by (rewrite Hdm; ring).
  assert (0 ≤ p * m) by nia. assert (0 ≤ p * 58 * q) by nia.
  unfold Words.mul128. rewrite Z.shiftr_div_pow2 by lia.
  rewrite (u64_small (p * m)) by lia. rewrite (Z.div_small (p * m)) by lia.
  rewrite u64_small by lia. replace (res_num + p * m <? res_num) with false by lia.
  simpl orb. cbn iota. rewrite IH.
  - f_equal. rewrite Nat2Z.inj_succ, Z.pow_succ_r by lia. fold p. lia.
  - unfold q. split; [done|]. apply Z.div_lt_upper_bound; lia.
  - lia.
  - lia.
  - rewrite Nat2Z.inj_succ, Z.pow_succ_r by lia. fold p. lia.
Qed.

Lemma decode_loop_inv l res_num k r :
  bytes l → 0 ≤ res_num < 2 ^ 64 → (k + length l ≤ 11)%nat →
  decode_loop l res_num (u64 (58 ^ Z.of_nat k)) = Some r →
  ∃ num, 0 ≤ num < 58 ^ Z.of_nat (length l) ∧ l = rev (digits_be (length l) num) ∧
    r = res_num + 58 ^ Z.of_nat k * num ∧ r < 2 ^ 64.
Proof.
  intros Hl. revert res_num k. induction Hl as [|c l Hc Hl IH]; intros res_num k Hr Hk Hd.
  { simpl in Hd. injection Hd as <-. exists 0. simpl. split_and!; lia || done. }
  cbn [decode_loop] in Hd. simpl in Hk.
  assert (58 ^ Z.of_nat k ≤ 58 ^ 10) as Hp by (apply Z.pow_le_mono_r; lia).
  assert (0 < 58 ^ Z.of_nat k) by (apply Z.pow_pos_nonneg; lia).
  rewrite u64_small in Hd by (vm_compute (58 ^ 10) in Hp; lia).
  destruct (Z.ltb_spec (reverse_alphabet c) 0) as [|Hdig]; [done|].
  destruct (letter_reverse c Hc Hdig) as [Hd58 Hlet].
  set (m := reverse_alphabet c) in *. set (p := 58 ^ Z.of_nat k) in *.
  unfold Words.mul128 in Hd. rewrite Z.shiftr_div_pow2 in Hd by lia.
  assert (0 ≤ p * m) by nia.
  destruct (_ || _) eqn:Hov in Hd; [done|]. apply orb_false_iff in Hov as [Hov1 Hov2].
  assert (p * m ≤ 58 ^ 10 * 58) by (apply Z.mul_le_mono_nonneg; lia).
  assert (p * m < 2 ^ 64) by (clear - Hov2 H0 H1; words).
  rewrite (u64_small (p * m)) in * by lia.
  assert (res_num + p * m < 2 ^ 64) by (apply Z.nle_gt; intros Hge;
    assert (u64 (res_num + p * m) = res_num + p * m - 2 ^ 64) by words; lia).
  rewrite u64_small in Hd by lia. change alphabet_size with 58 in Hd.
  replace (p * 58) with (58 ^ Z.of_nat (S k)) in Hd
    by (rewrite Nat2Z.inj_succ, Z.pow_succ_r by lia; unfold p; lia).
  apply IH in Hd as (q & Hq & Hrev & -> & Hlt); [|lia..].
  exists (58 * q + m). cbn [length].
  rewrite !Nat2Z.inj_succ, !Z.pow_succ_r in * by lia. fold p in Hlt |- *.
  split_and!; [lia|lia| |ring|lia].
  cbn [digits_be]. rewrite rev_unit.
  replace ((58 * q + m) / 58) with q by words. replace ((58 * q + m) mod 58) with m by words.
  by rewrite Hlet, <- Hrev.
Qed.

Section addr.
Context (cn_fast_hash : list Z → list Z).

Definition encode_addr (tag : Z) (data : list Z) : result (list Z) :=
  buf ← Varint.get_varint_data tag;
  let buf := buf ++ data in
  encode (buf ++ take addr_checksum_size (cn_fast_hash buf)).

Definition decode_addr (addr : list Z) : result (option (Z * list Z)) :=
  r ← decode addr;
  match r with
  | None => Ok None
  | Some addr_data =>
      if (length addr_data <=? addr_checksum_size)%nat then Ok None else
      let n := (length addr_data - addr_checksum_size)%nat in
      let checksum := drop n addr_data in
      let addr_data := take n addr_data in
      if negb (bool_decide (take addr_checksum_size (cn_fast_hash addr_data) = checksum))
      then Ok None else
      let '(read, tag) := Varint.read_varint_iter 64 addr_data in
      if read <=? 0 then Ok None
      else Ok (Some (tag, drop (Z.to_nat read) addr_data))
  end.
End addr.

(** ** Blocks *)

Definition size_of (s : nat) : nat := nth s encoded_block_sizes 0%nat.

(** The nine block sizes: enough base-58 digits for the bytes, and back. *)
Lemma block_sizes s : (s ≤ 8)%nat →
  256 ^ Z.of_nat s ≤ 58 ^ Z.of_nat (size_of s) ∧ (s ≤ size_of s ≤ 11)%nat ∧
  decoded_block_sizes (size_of s) = Ok (Z.of_nat s) ∧ (s < 8 → size_of s < 11)%nat.
Proof.
  intros Hs. do 9 (destruct s as [|s]; [split; [by vm_compute|split; [cbn; lia|split; [done|cbn; lia]]]|]).
  lia.
Qed.

Lemma decoded_sizes n res :
  decoded_block_sizes n = Ok res → 0 ≤ res → size_of (Z.to_nat res) = n ∧ res ≤ 8.
Proof.
  unfold decoded_block_sizes. destruct (Nat.leb_spec n full_encoded_block_size) as [Hn|]; [|done].
  intros [= <-]. change full_encoded_block_size with 11%nat in Hn.
  do 12 (destruct n as [|n]; [vm_compute; split; congruence|]). lia.
Qed.

Lemma pow_256 s : 256 ^ Z.of_nat s = 2 ^ (8 * Z.of_nat s).
Proof. change 256 with (2 ^ 8). by rewrite <- Z.pow_mul_r by lia. Qed.

Lemma encode_block_spec block :
  bytes block → (1 ≤ length block ≤ 8)%nat →
  encode_block block =
  Ok (digits_be (size_of (length block)) (Varint.uint_be_from_bytes block)).
Proof.
  intros Hb Hl. destruct (block_sizes (length block)) as (Hp & Hs & _); [lia|].
  pose proof (Varint.uint_be_from_bytes_bound block Hb ltac:(lia)) as Hbd.
  rewrite <- pow_256 in Hbd. unfold encode_block, uint_8be_to_64.
  replace ((1 <=? length block)%nat && (length block <=? 8)%nat) with true by lia.
  cbn [mbind result_bind]. fold (size_of (length block)).
  rewrite <- (app_nil_r (replicate _ _)), encode_loop_digits by lia.
  by rewrite app_nil_r.
Qed.

Lemma decode_loop_start l : decode_loop l 0 1 = decode_loop l 0 (u64 (58 ^ Z.of_nat 0)).
Proof. done. Qed.

Lemma shiftl_pow res : 0 ≤ res → Z.shiftl 1 (8 * res) = 256 ^ res.
Proof. intros. rewrite Z.shiftl_mul_pow2, Z.mul_1_l, Z.pow_mul_r by lia. done. Qed.

Lemma decode_encode_block block enc :
  bytes block → (1 ≤ length block ≤ 8)%nat → encode_block block = Ok enc →
  decode_block enc = Ok (Some block).
Proof.
  intros Hb Hl. rewrite encode_block_spec by done. intros [= <-].
  destruct (block_sizes (length block)) as (Hp & Hs & Hd & _); [lia|].
  pose proof (Varint.uint_be_from_bytes_bound block Hb ltac:(lia)) as Hbd.
  rewrite <- pow_256 in Hbd. unfold decode_block. rewrite length_digits_be.
  change full_encoded_block_size with 11%nat.
  replace (negb _) with false by lia.
  rewrite Hd. cbn [mbind result_bind]. replace (Z.of_nat (length block) <=? 0) with false by lia.
  assert (256 ^ Z.of_nat (length block) ≤ 256 ^ 8) by (apply Z.pow_le_mono_r; lia).
  rewrite decode_loop_start, decode_loop_digits by (simpl Z.of_nat; change (58 ^ 0) with 1; lia).
  change (58 ^ Z.of_nat 0) with 1. rewrite Z.add_0_l, Z.mul_1_l, shiftl_pow by lia.
  replace (256 ^ _ <=? _) with false by lia. rewrite andb_false_r.
  unfold uint_64_to_8be. rewrite Nat2Z.id.
  replace ((1 <=? length block)%nat && (length block <=? 8)%nat) with true by lia.
  cbn [mbind result_bind]. by rewrite Varint.uint_be_to_from_bytes by (done || lia).
Qed.

Lemma encode_decode_block enc block :
  bytes enc → decode_block enc = Ok (Some block) →
  bytes block ∧ (1 ≤ length block ≤ 8)%nat ∧ length enc = size_of (length block) ∧
  encode_block block = Ok enc.
Proof.
  intros Hb Hd. unfold decode_block in Hd. change full_encoded_block_size with 11%nat in Hd.
  destruct ((1 <=? length enc)%nat && (length enc <=? 11)%nat) eqn:Hl; [|done].
  simpl in Hd. inv_ok Hd. destruct (Z.leb_spec a 0); [done|].
  destruct (decoded_sizes _ _ Ha) as [Hs Ha8]; [lia|].
  destruct (decode_loop _ _ _) as [num|] eqn:Hloop; [|done]. rewrite decode_loop_start in Hloop.
  apply decode_loop_inv in Hloop as (num' & Hn & Hrev & -> & Hlt);
    [|by apply Forall_rev|lia|rewrite length_rev; lia].
  rewrite length_rev in *. change (58 ^ Z.of_nat 0) with 1 in *.
  rewrite Z.add_0_l, Z.mul_1_l in *.
  apply (f_equal (@rev Z)) in Hrev. rewrite !rev_involutive in Hrev.
  destruct (_ && _) eqn:Hov in Hd; [done|]. inv_ok Hd. injection Hd as <-.
  unfold uint_64_to_8be in Ha0.
  replace ((1 <=? Z.to_nat a)%nat && (Z.to_nat a <=? 8)%nat) with true in Ha0 by lia.
  injection Ha0 as <-. rewrite Varint.length_uint_be_to_bytes.
  assert (num' < 256 ^ a) as Hnum.
  { rewrite shiftl_pow in Hov by lia. change (Z.of_nat full_block_size) with 8 in Hov.
    destruct (Z.ltb_spec a 8); [simpl in Hov; lia|]. replace a with 8 by lia. done. }
  split_and!; [apply Varint.bytes_uint_be_to_bytes|lia|lia|done|].
  rewrite encode_block_spec; rewrite ?Varint.length_uint_be_to_bytes;
    [|apply Varint.bytes_uint_be_to_bytes|lia].
  rewrite Hs, Varint.uint_be_from_to_bytes; [by rewrite <- Hrev|lia|].
  rewrite <- pow_256, Z2Nat.id by lia. lia.
Qed.

(** ** Whole strings *)

Lemma bytes_digits_be n num : bytes (digits_be n num).
Proof.
  revert num. induction n as [|n IH]; intros num; [constructor|].
  cbn [digits_be]. apply bytes_app. split; [done|]. apply Forall_singleton.
  assert (0 ≤ num mod 58 < 58) as Hm by words. revert Hm. generalize (num mod 58). clear.
  intros m Hm. assert (is_byte m) as Hb by (unfold is_byte; lia). revert Hm. byte_cases m Hb.
Qed.

Lemma encode_blocks_spec n data :
  bytes data → (8 * n ≤ length data < 8 * n + 8)%nat →
  ∃ enc, encode_blocks n data = Ok enc ∧ bytes enc ∧
    length enc = (11 * n + size_of (length data - 8 * n))%nat ∧
    decode_blocks n enc = Ok (Some data).
Proof.
  revert data. induction n as [|n IH]; intros data Hb Hl; cbn [encode_blocks decode_blocks].
  { rewrite Nat.mul_0_r, Nat.sub_0_r. destruct data as [|b data]; [by exists []|].
    set (d := b :: data) in *. change (0 <? length d)%nat with true. cbn iota.
    pose proof (encode_block_spec d Hb ltac:(simpl in *; lia)) as He. rewrite He.
    eexists. split; [done|]. rewrite length_digits_be. split_and!; [apply bytes_digits_be|done|].
    destruct (block_sizes (length d)) as (_ & Hs & _); [simpl in *; lia|].
    replace (0 <? size_of (length d))%nat with true by (simpl length in *; lia).
    apply decode_encode_block; [done|simpl in *; lia|done]. }
  change full_block_size with 8%nat. change full_encoded_block_size with 11%nat.
  assert (length (take 8 data) = 8)%nat as Ht by (rewrite length_take; lia).
  pose proof (Forall_take is_byte 8 _ Hb) as Hbt. pose proof (Forall_drop is_byte 8 _ Hb) as Hbd.
  pose proof (encode_block_spec (take 8 data) Hbt ltac:(lia)) as He. rewrite He.
  destruct (IH (drop 8 data) Hbd) as (enc & Henc & Hbe & Hle & Hde); [rewrite length_drop; lia|].
  cbn [mbind result_bind]. rewrite Henc. cbn [mbind result_bind].
  eexists. split; [done|]. rewrite Ht in *. change (size_of 8) with 11%nat in *.
  set (d := digits_be 11 _) in *. assert (length d = 11%nat) as Hld by apply length_digits_be.
  split_and!.
  - apply bytes_app. split; [apply bytes_digits_be|done].
  - rewrite length_app, Hld, Hle, length_drop.
    replace (length data - 8 - 8 * n)%nat with (length data - 8 * S n)%nat by lia. lia.
  - rewrite <- Hld, take_app_length, drop_app_length.
    rewrite (decode_encode_block (take 8 data)) by (done || lia).
    cbn [mbind result_bind]. rewrite Hde. cbn. by rewrite take_drop.
Qed.

Lemma div_mod_unique q r d n : (n = d * q + r)%nat → (r < d)%nat → (n / d = q ∧ n mod d = r)%nat.
Proof.
  intros -> Hr. split; [symmetry; by eapply Nat.div_unique|symmetry; by eapply Nat.mod_unique].
Qed.

Lemma decode_encode data :
  bytes data → ∃ enc, encode data = Ok enc ∧ bytes enc ∧ decode enc = Ok (Some data).
Proof.
  intros Hb. unfold encode. destruct (bool_decide_reflect (data = [])) as [->|Hne].
  { exists []. done. }
  change full_block_size with 8%nat. set (n := (length data / 8)%nat).
  pose proof (Nat.div_mod (length data) 8 ltac:(lia)) as Hdm. fold n in Hdm.
  pose proof (Nat.mod_upper_bound (length data) 8 ltac:(lia)) as Hr.
  set (r := (length data mod 8)%nat) in *.
  destruct (encode_blocks_spec n data Hb ltac:(lia)) as (enc & He & Hbe & Hl & Hd).
  replace (length data - 8 * n)%nat with r in Hl by lia.
  destruct (block_sizes r) as (_ & Hs & Hdec & Hlt); [lia|].
  destruct (div_mod_unique n (size_of r) 11 (length enc)) as [Hq Hm]; [lia|lia|].
  exists enc. split_and!; [done|done|]. unfold decode.
  rewrite bool_decide_eq_false_2.
  - change full_encoded_block_size with 11%nat. rewrite Hq, Hm, Hdec. cbn [mbind result_bind].
    by replace (Z.of_nat r <? 0) with false by lia.
  - intros ->. simpl in Hl. assert (length data ≠ 0)%nat; [by destruct data|]. lia.
Qed.

Lemma decode_blocks_inv n enc data :
  bytes enc → (11 * n ≤ length enc < 11 * n + 11)%nat → decode_blocks n enc = Ok (Some data) →
  bytes data ∧ (8 * n ≤ length data < 8 * n + 8)%nat ∧ encode_blocks n data = Ok enc.
Proof.
  revert enc data. induction n as [|n IH]; intros enc data Hb Hl Hd;
    cbn [encode_blocks decode_blocks] in *.
  { destruct enc as [|c enc].
    { injection Hd as <-. split; [constructor|]. split; [simpl; lia|done]. }
    change (0 <? length (c :: enc))%nat with true in Hd. cbn iota in Hd.
    apply encode_decode_block in Hd as (? & ? & Hs & He); [|done].
    replace (0 <? length data)%nat with true by lia. split_and!; [done|lia| |done].
    assert (length data ≠ 8)%nat; [|lia]. intros H8. rewrite H8 in Hs.
    change (size_of 8) with 11%nat in Hs. simpl in *. lia. }
  change full_block_size with 8%nat. change full_encoded_block_size with 11%nat in Hd.
  inv_ok Hd. destruct a as [b|]; [|done]. inv_ok Hd. destruct a as [res|]; [|done].
  injection Hd as <-.
  apply encode_decode_block in Ha as (Hbb & Hbl & Hs & He); [|by apply Forall_take].
  rewrite length_take in Hs.
  assert (length b = 8%nat) as Hb8.
  { destruct (block_sizes (length b)) as (_ & _ & _ & Hlt); [lia|].
    apply Nat.le_antisymm; [lia|]. apply Nat.nlt_ge. intros ?%Hlt. lia. }
  apply IH in Ha0 as (Hbr & Hlr & Her); [|by apply Forall_drop|rewrite length_drop; lia].
  split_and!; [by apply bytes_app|rewrite length_app; lia..|].
  rewrite <- Hb8, take_app_length, drop_app_length, He. cbn [mbind result_bind].
  rewrite Her. cbn [mbind result_bind]. by rewrite take_drop.
Qed.

Lemma encode_decode enc data :
  bytes enc → decode enc = Ok (Some data) → bytes data ∧ encode data = Ok enc.
Proof.
  intros Hb Hd. unfold decode in Hd. destruct (bool_decide_reflect (enc = [])) as [->|Hne].
  { by injection Hd as <-. }
  inv_ok Hd. destruct (a <? 0); [done|]. change full_encoded_block_size with 11%nat in Hd.
  pose proof (Nat.div_mod (length enc) 11 ltac:(lia)) as Hdm.
  pose proof (Nat.mod_upper_bound (length enc) 11 ltac:(lia)) as Hr.
  apply decode_blocks_inv in Hd as (Hbd & Hl & He); [|done|lia]. split; [done|].
  unfold encode. rewrite bool_decide_eq_false_2.
  - change full_block_size with 8%nat.
    destruct (div_mod_unique (length enc / 11) (length data - 8 * (length enc / 11)) 8 (length data))
      as [-> _]; [lia|lia|done].
  - intros ->. cbn [length] in Hl. clear Hdm Hr Ha.
    assert (length enc / 11 = 0)%nat as Hz by lia. rewrite Hz in He.
    simpl in He. by injection He as <-.
Qed.

(** An address is decoded to its tag and data, its checksum verified. *)
Lemma decode_encode_addr cn_fast_hash tag data :
  (∀ x, bytes (cn_fast_hash x) ∧ length (cn_fast_hash x) = 32%nat) →
  in_u 64 tag → bytes data →
  ∃ addr, encode_addr cn_fast_hash tag data = Ok addr ∧ bytes addr ∧
    decode_addr cn_fast_hash addr = Ok (Some (tag, data)).
Proof.
  intros Hhash Htag Hb. unfold encode_addr.
  destruct (Varint.write_varint_total tag Htag) as (bs & Hw & Hbs & _).
  change (Varint.get_varint_data tag) with (Varint.write_varint tag). rewrite Hw.
  cbn [mbind result_bind]. set (buf := bs ++ data).
  assert (length (take addr_checksum_size (cn_fast_hash buf)) = 4%nat) as Hcl
    by (rewrite length_take, (proj2 (Hhash buf)); done).
  set (sum := take addr_checksum_size (cn_fast_hash buf)) in *.
  destruct (decode_encode (buf ++ sum)) as (enc & He & Hbe & Hd).
  { apply bytes_app. split; [by apply bytes_app|]. apply Forall_take, Hhash. }
  exists enc. split_and!; [done|done|]. unfold decode_addr. rewrite Hd. cbn [mbind result_bind].
  assert (bs ≠ []) as Hne.
  { intros ->. apply (Varint.read_write_varint 64 tag [] []) in Hw; done. }
  rewrite length_app, Hcl. change addr_checksum_size with 4%nat in *.
  replace (length buf + 4 <=? 4)%nat with false.
  2: { symmetry. apply Nat.leb_gt. unfold buf. rewrite length_app. destruct bs; [done|simpl; lia]. }
  replace (length buf + 4 - 4)%nat with (length buf) by lia.
  rewrite take_app_length, drop_app_length. rewrite bool_decide_eq_true_2 by done. cbn [negb].
  pose proof (Varint.read_write_varint 64 tag bs data ltac:(done) Htag Hw) as Hr.
  apply Varint.read_varint_iter_agrees in Hr. fold buf in Hr. rewrite Hr.
  unfold buf. rewrite length_app.
  replace (Z.of_nat (length bs + length data) - Z.of_nat (length data))
    with (Z.of_nat (length bs)) by lia.
  replace (Z.of_nat (length bs) <=? 0) with false by (destruct bs; [done|simpl; lia]).
  by rewrite Nat2Z.id, drop_app_length.
Qed.

End Base58.

Module Base64.

Definition from_base64 : list Z :=
  replicate 43 255 ++ [62; 255; 62; 255; 63] ++ seqZ 52 10 ++ [255; 255; 0; 255; 255; 255; 255] ++
  seqZ 0 26 ++ [255; 255; 255; 255; 63; 255] ++ seqZ 26 26 ++ replicate 5 255.

Definition to_base64 : list Z :=
  chars "ABCDEFGHIJKLMNOPQRSTUVWXYZabcdefghijklmnopqrstuvwxyz0123456789+/".

Definition to_char (b : Z) : Z := nth (Z.to_nat b) to_base64 0.

(** One group of three bytes, as four characters. *)
Definition encode_group (b0 b1 b2 : Z) : list Z :=
  [to_char (Z.shiftr (Z.land b0 0xfc) 2);
   to_char (Z.shiftl (Z.land b0 0x03) 4 + Z.shiftr (Z.land b1 0xf0) 4);
   to_char (Z.shiftl (Z.land b1 0x0f) 2 + Z.shiftr (Z.land b2 0xc0) 6);
   to_char (Z.shiftl (Z.land b2 0x3f) 0)].

(** Bytes past the end count as zero and their characters become [=]. *)
Fixpoint encode (data : list Z) : list Z :=
  match data with
  | [] => []
  | [b0] => take 2 (encode_group b0 0 0) ++ chars "=="
  | [b0; b1] => take 3 (encode_group b0 b1 0) ++ chars "="
  | b0 :: b1 :: b2 :: data => encode_group b0 b1 b2 ++ encode data
  end.

(** The value of the [k]-th character of a group, [0xff] past the end. *)
Definition char_value (g : list Z) (k : nat) : Z :=
  match g !! k with
  | Some c => if c <=? 122 then nth (Z.to_nat c) from_base64 255 else 0xff
  | None => 0xff
  end.

Definition decode_group (g : list Z) : list Z :=
  let b4_0 := char_value g 0 in
  let b4_1 := char_value g 1 in
  let b4_2 := char_value g 2 in
  let b4_3 := char_value g 3 in
  (if b4_1 =? 0xff then [] else
     [u8 (Z.shiftl (Z.land b4_0 0x3f) 2 + Z.shiftr (Z.land b4_1 0x30) 4)]) ++
  (if b4_2 =? 0xff then [] else
     [u8 (Z.shiftl (Z.land b4_1 0x0f) 4 + Z.shiftr (Z.land b4_2 0x3c) 2)]) ++
  (if b4_3 =? 0xff then [] else
     [u8 (Z.shiftl (Z.land b4_2 0x03) 6 + Z.shiftr (Z.land b4_3 0x3f) 0)]).

Fixpoint decode (text : list Z) : list Z :=
  match text with
  | [] => []
  | c0 :: c1 :: c2 :: c3 :: text => decode_group [c0; c1; c2; c3] ++ decode text
  | g => decode_group g
  end.

(** ** Round trip *)

Lemma to_char_value k : 0 ≤ k < 64 →
  to_char k <= 122 ∧ nth (Z.to_nat (to_char k)) from_base64 255 = k.
Proof.
  intros Hk. assert (is_byte k) as Hb by (unfold is_byte; lia). revert Hk. byte_cases k Hb.
Qed.

Lemma char_value_to_char g i k : 0 ≤ k < 64 → g !! i = Some (to_char k) → char_value g i = k.
Proof.
  intros Hk Hg. unfold char_value. rewrite Hg. destruct (to_char_value k Hk) as [Hle Hv].
  by replace (to_char k <=? 122) with true by lia.
Qed.

(** The six-bit pieces of a byte. *)
Lemma pieces b : is_byte b →
  Z.shiftr (Z.land b 0xfc) 2 = b / 4 ∧ Z.shiftl (Z.land b 0x03) 4 = b mod 4 * 16 ∧
  Z.shiftr (Z.land b 0xf0) 4 = b / 16 ∧ Z.shiftl (Z.land b 0x0f) 2 = b mod 16 * 4 ∧
  Z.shiftr (Z.land b 0xc0) 6 = b / 64 ∧ Z.shiftl (Z.land b 0x3f) 0 = b mod 64.
Proof. intros Hb. byte_cases b Hb. Qed.

Lemma unpieces k : 0 ≤ k < 64 →
  Z.shiftl (Z.land k 0x3f) 2 = k * 4 ∧ Z.shiftr (Z.land k 0x30) 4 = k / 16 ∧
  Z.shiftl (Z.land k 0x0f) 4 = k mod 16 * 16 ∧ Z.shiftr (Z.land k 0x3c) 2 = k / 4 ∧
  Z.shiftl (Z.land k 0x03) 6 = k mod 4 * 64 ∧ Z.shiftr (Z.land k 0x3f) 0 = k.
Proof.
  intros Hk. assert (is_byte k) as Hb by (unfold is_byte; lia). revert Hk. byte_cases k Hb.
Qed.

(** Decoding the first characters of a group gives its first bytes back. *)
Lemma decode_group_spec b0 b1 b2 g :
  is_byte b0 → is_byte b1 → is_byte b2 →
  let e := encode_group b0 b1 b2 in
  (g = e → decode_group g = [b0; b1; b2]) ∧
  (b2 = 0 → g = take 3 e ++ [61] → decode_group g = [b0; b1]) ∧
  (b1 = 0 → b2 = 0 → g = take 2 e ++ [61; 61] → decode_group g = [b0]).
Proof.
  intros H0 H1 H2 e. unfold e, encode_group.
  destruct (pieces b0 H0) as (-> & -> & _), (pieces b1 H1) as (_ & _ & -> & -> & _),
    (pieces b2 H2) as (_ & _ & _ & _ & -> & ->). unfold is_byte in *.
  set (k0 := b0 / 4). set (k1 := b0 mod 4 * 16 + b1 / 16).
  set (k2 := b1 mod 16 * 4 + b2 / 64). set (k3 := b2 mod 64).
  assert (0 ≤ k0 < 64) as R0 by words. assert (0 ≤ k1 < 64) as R1 by words.
  assert (0 ≤ k2 < 64) as R2 by words. assert (0 ≤ k3 < 64) as R3 by words.
  destruct (unpieces k0 R0) as (U0 & _), (unpieces k1 R1) as (_ & U1 & U1' & _),
    (unpieces k2 R2) as (_ & _ & _ & U2 & U2' & _), (unpieces k3 R3) as (_ & _ & _ & _ & _ & U3).
  split_and!; intros; subst g; unfold decode_group;
    rewrite (char_value_to_char _ 0 k0 R0), (char_value_to_char _ 1 k1 R1) by done;
    replace (k1 =? 255) with false by lia.
  - rewrite (char_value_to_char _ 2 k2 R2), (char_value_to_char _ 3 k3 R3) by done.
    replace (k2 =? 255) with false by lia. replace (k3 =? 255) with false by lia.
    rewrite U0, U1, U1', U2, U2', U3. cbn [app].
    repeat f_equal; unfold k0, k1, k2, k3; words.
  - rewrite (char_value_to_char _ 2 k2 R2) by done.
    replace (k2 =? 255) with false by lia. change (char_value _ 3) with 255. cbn [Z.eqb].
    rewrite U0, U1, U1', U2. cbn [app]. change (255 =? 255) with true. cbn iota.
    rewrite ?app_nil_r. repeat f_equal; unfold k0, k1, k2; words.
  - change (char_value _ 2) with 255. change (char_value _ 3) with 255.
    change (255 =? 255) with true. cbn iota. rewrite U0, U1. cbn [app].
    f_equal. unfold k0, k1; words.
Qed.

Lemma three_ind (P : list Z → Prop) :
  P [] → (∀ a, P [a]) → (∀ a b, P [a; b]) → (∀ a b c l, P l → P (a :: b :: c :: l)) →
  ∀ l, P l.
Proof.
  intros H0 H1 H2 H3. fix IH 1. intros [|a [|b [|c l]]]; [done|done|done|]. apply H3, IH.
Qed.

Lemma base64_decode_encode data : bytes data → decode (encode data) = data.
Proof.
  induction data as [|a|a b|a b c l IH] using three_ind; intros Hb; [done|..];
    repeat match goal with H : bytes (_ :: _) |- _ => inversion H; clear H; subst end.
  - change (decode (encode [a])) with (decode_group (take 2 (encode_group a 0 0) ++ [61; 61]) ++ []).
    rewrite app_nil_r. by apply (decode_group_spec a 0 0).
  - change (decode (encode [a; b])) with (decode_group (take 3 (encode_group a b 0) ++ [61]) ++ []).
    rewrite app_nil_r. by apply (decode_group_spec a b 0).
  - change (decode (encode (a :: b :: c :: l))) with
      (decode_group (encode_group a b c) ++ decode (encode l)).
    rewrite IH by done. by rewrite (proj1 (decode_group_spec a b c _ ltac:(done) ltac:(done) ltac:(done))).
Qed.

End Base64.

(** ** Properties *)

(** C29: Base 58 is a bijection onto the strings it accepts: bytes are decoded
    from their encoding, and a string that decodes is the encoding of what it
    decodes to, so overlong blocks, bad letters and bad sizes are refused and
    an address has one spelling. *)
Theorem base58_bijection data enc :
  bytes data → bytes enc →
  Base58.encode data = Ok enc ↔ Base58.decode enc = Ok (Some data).
Proof.
  intros Hd He. split.
  - intros Henc. destruct (Base58.decode_encode data Hd) as (enc' & H & _ & ?). congruence.
  - intros Hdec. by apply Base58.encode_decode in Hdec as [_ ?].
Qed.

Lemma base58_bijection_witness :
  Base58.decode (chars "1An6UebxCZd1m8") = Ok (Some [1; 2; 3; 4; 5; 6; 7; 8; 9; 255]).
Proof.
  apply (base58_bijection [1; 2; 3; 4; 5; 6; 7; 8; 9; 255] (chars "1An6UebxCZd1m8")).
  - by repeat constructor.
  - by apply (bool_decide_unpack _).
  - by vm_compute.
Defined.

(** Hexadecimal and base 64 give back the bytes they encode. *)
Lemma hex_base64_roundtrip data :
  bytes data →
  Hex.from_hex (Hex.to_hex data) = Some data ∧
  Hex.pod_from_hex (length data) (Hex.to_hex data) = Some data ∧
  Base64.decode (Base64.encode data) = data.
Proof.
  intros Hd. split_and!; [by apply Hex.from_to_hex|by apply Hex.pod_from_to_hex|].
  by apply Base64.base64_decode_encode.
Qed.

Lemma hex_base64_roundtrip_witness :
  Base64.decode (Base64.encode (chars "any carnal pleas")) = chars "any carnal pleas".
Proof.
  apply (hex_base64_roundtrip (chars "any carnal pleas")). by apply (bool_decide_unpack _).
Defined.
