(* ===== verification/CryptoNote.v ===== *)
(** * Transactions and their wire format

    src/src/CryptoNote.hpp (the data) and Core/rpc_api_serialization.cpp (the
    [ser_members] functions).  The tagged fields of [TransactionPrefix::extra]
    are in TransactionExtra.v; blocks, whose merge-mining header needs hashes,
    in Blocks.v. *)

From S2P Require Import Prelude Varint Seria.
Import Streams Codec.

Local Open Scope Z_scope.

Module CryptoNote.

(** A 32-byte key, hash or scalar, and a 64-byte signature. *)
Abbreviation Hash := (list Z).
Abbreviation PublicKey := (list Z).
Abbreviation KeyImage := (list Z).
Abbreviation Signature := (list Z).
Abbreviation BinaryArray := (list Z).
Abbreviation Height := Z.
Abbreviation Amount := Z.
Abbreviation Timestamp := Z.
Abbreviation Difficulty := Z.

Definition null_hash : Hash := replicate 32 0.

Inductive TransactionInput :=
| CoinbaseInput (block_index : Height)
| KeyInput (amount : Amount) (output_indexes : list Z) (key_image : KeyImage).

Inductive TransactionOutputTarget :=
| KeyOutput (key : PublicKey).

Record TransactionOutput := {
  out_amount : Amount;
  out_target : TransactionOutputTarget;
}.

Record TransactionPrefix := {
  version : Z;
  unlock_time : Z;
  inputs : list TransactionInput;
  outputs : list TransactionOutput;
  extra : BinaryArray;
}.

Record Transaction := {
  tx_prefix : TransactionPrefix;
  signatures : list (list Signature);
}.

Record AccountPublicAddress := {
  spend_public_key : PublicKey;
  view_public_key : PublicKey;
}.

Record RawBlock := {
  raw_block : BinaryArray;
  raw_transactions : list BinaryArray;
}.

Definition default_prefix : TransactionPrefix :=
  {| version := 0; unlock_time := 0; inputs := []; outputs := []; extra := [] |}.

Global Instance TransactionInput_eq_dec : EqDecision TransactionInput.
Proof. solve_decision. Defined.
Global Instance TransactionOutputTarget_eq_dec : EqDecision TransactionOutputTarget.
Proof. solve_decision. Defined.
Global Instance TransactionOutput_eq_dec : EqDecision TransactionOutput.
Proof. solve_decision. Defined.
Global Instance TransactionPrefix_eq_dec : EqDecision TransactionPrefix.
Proof. solve_decision. Defined.
Global Instance Transaction_eq_dec : EqDecision Transaction.
Proof. solve_decision. Defined.
Global Instance AccountPublicAddress_eq_dec : EqDecision AccountPublicAddress.
Proof. solve_decision. Defined.

(** ** [ser_members] *)

Definition ser_Hash : codec Hash := c_binary 32.
Definition ser_Signature : codec Signature := c_binary 64.

Definition TagBase : Z := 0xff.
Definition TagKey : Z := 0x2.

Definition ser_CoinbaseInput : codec Z := c_varint 32.

Definition ser_KeyInput : codec (Z * (list Z * KeyImage)) :=
  c_seq (c_varint 64) (λ _, c_seq (c_vector (c_varint 32)) (λ _, ser_Hash)).

Definition ser_TransactionInput : codec TransactionInput :=
  c_iso (λ v, match v with
              | inl block_index => CoinbaseInput block_index
              | inr (amount, (output_indexes, key_image)) =>
                  KeyInput amount output_indexes key_image
              end)
        (λ v, match v with
              | CoinbaseInput block_index => inl block_index
              | KeyInput amount output_indexes key_image =>
                  inr (amount, (output_indexes, key_image))
              end)
        (c_switch TagBase ser_CoinbaseInput TagKey ser_KeyInput
           "Deserialization error - unknown input tag").

Definition ser_TransactionOutputTarget : codec TransactionOutputTarget :=
  c_iso KeyOutput (λ '(KeyOutput key), key)
        (c_tag TagKey "Deserialization error - unknown output tag" ser_Hash).

Definition ser_TransactionOutput : codec TransactionOutput :=
  c_iso (λ '(amount, target), {| out_amount := amount; out_target := target |})
        (λ o, (out_amount o, out_target o))
        (c_seq (c_varint 64) (λ _, ser_TransactionOutputTarget)).

Definition ser_TransactionPrefix : codec TransactionPrefix :=
  c_iso (λ '(v, (u, (i, (o, e)))),
           {| version := v; unlock_time := u; inputs := i; outputs := o; extra := e |})
        (λ t, (version t, (unlock_time t, (inputs t, (outputs t, extra t)))))
        (c_seq (c_varint 8) (λ _, c_seq (c_varint 64) (λ _,
           c_seq (c_vector ser_TransactionInput) (λ _,
             c_seq (c_vector ser_TransactionOutput) (λ _, c_bytes))))).

(** [ignored]: written as zero, any value accepted when read. *)
Definition ser_ignored : codec unit := {|
  c_put (_ : unit) := Varint.write_varint 0;
  c_get (s : list Z) := '(_, s) ← Varint.read_varint 64 s; Ok (tt, s);
  c_ok (_ : unit) := True;
|}.

(** A [BaseTransaction] has no signatures; from version 2 a count of them is
    written all the same. *)
Definition ser_BaseTransaction : codec TransactionPrefix :=
  c_iso fst (λ t, (t, tt))
    (c_seq ser_TransactionPrefix
       (λ t, if 2 <=? version t then ser_ignored else c_none tt)).

Definition get_signatures_count (input : TransactionInput) : nat :=
  match input with
  | CoinbaseInput _ => 0
  | KeyInput _ output_indexes _ => length output_indexes
  end.

Definition is_base (t : TransactionPrefix) : bool :=
  match inputs t with [CoinbaseInput _] => true | _ => false end.

Definition unexpected_signatures : string := "Serialization error: unexpected signatures size".

(** Ring signatures: as many per input as it has ring members; none at all
    are read or written for a base transaction. *)
Definition ser_ring (input : TransactionInput) : codec (list Signature) :=
  c_array (get_signatures_count input) unexpected_signatures ser_Signature.

Fixpoint put_rings (ins : list TransactionInput) (v : list (list Signature)) :
    result (list Z) :=
  match ins, v with
  | i :: ins, r :: v => x ← c_put (ser_ring i) r; y ← put_rings ins v; Ok (x ++ y)
  | _, _ => Ok []
  end.

Fixpoint get_rings (ins : list TransactionInput) (s : list Z) :
    result (list (list Signature) * list Z) :=
  match ins with
  | [] => Ok ([], s)
  | i :: ins =>
      '(r, s) ← c_get (ser_ring i) s; '(v, s) ← get_rings ins s; Ok (r :: v, s)
  end.

Definition ser_signatures (t : TransactionPrefix) : codec (list (list Signature)) := {|
  c_put (v : list (list Signature)) :=
    let sig_size := if is_base t then 0%nat else length (inputs t) in
    if negb (sig_size =? 0)%nat && negb (length (inputs t) =? length v)%nat
    then Throw unexpected_signatures
    else put_rings (take sig_size (inputs t)) v;
  c_get (s : list Z) :=
    let sig_size := if is_base t then 0%nat else length (inputs t) in
    get_rings (take sig_size (inputs t)) s;
  c_ok (v : list (list Signature)) :=
    Forall2 (λ i, c_ok (ser_ring i)) (if is_base t then [] else inputs t) v;
|}.

Definition ser_Transaction : codec Transaction :=
  c_iso (λ '(t, sigs), {| tx_prefix := t; signatures := sigs |})
        (λ t, (tx_prefix t, signatures t))
        (c_seq ser_TransactionPrefix ser_signatures).

Definition ser_AccountPublicAddress : codec AccountPublicAddress :=
  c_iso (λ '(s, v), {| spend_public_key := s; view_public_key := v |})
        (λ a, (spend_public_key a, view_public_key a))
        (c_seq ser_Hash (λ _, ser_Hash)).

Definition ser_RawBlock : codec RawBlock :=
  c_iso (λ '(b, t), {| raw_block := b; raw_transactions := t |})
        (λ r, (raw_block r, raw_transactions r))
        (c_seq c_bytes (λ _, c_vector c_bytes)).

(** ** Laws *)

Lemma width_8 : Varint.width_ok 8. Proof. done. Qed.
Lemma width_16 : Varint.width_ok 16. Proof. done. Qed.
Lemma width_32 : Varint.width_ok 32. Proof. done. Qed.
Lemma width_64 : Varint.width_ok 64. Proof. done. Qed.
#[export] Hint Resolve width_8 width_16 width_32 width_64 : typeclass_instances.

Global Instance ser_Hash_laws : CodecLaws ser_Hash.
Proof. unfold ser_Hash. apply _. Qed.
Global Instance ser_Hash_canonical : CodecCanonical ser_Hash.
Proof. unfold ser_Hash. apply _. Qed.
Global Instance ser_Hash_safe : CodecSafe ser_Hash.
Proof. unfold ser_Hash. apply _. Qed.
Global Instance ser_Hash_progress : CodecProgress ser_Hash.
Proof. unfold ser_Hash. apply _. Qed.
Global Instance ser_Hash_nonempty : CodecNonempty ser_Hash.
Proof. unfold ser_Hash. apply _. Qed.

Global Instance ser_Signature_laws : CodecLaws ser_Signature.
Proof. unfold ser_Signature. apply _. Qed.
Global Instance ser_Signature_canonical : CodecCanonical ser_Signature.
Proof. unfold ser_Signature. apply _. Qed.
Global Instance ser_Signature_safe : CodecSafe ser_Signature.
Proof. unfold ser_Signature. apply _. Qed.

(** Records and their tuples correspond. *)
#[export] Hint Extern 1 (Cancel _ _ _) =>
  (intros v; repeat match goal with
   | v : prod _ _ |- _ => destruct v
   | v : sum _ _ |- _ => destruct v
   | v : unit |- _ => destruct v
   end; first [done | by destruct v]) : typeclass_instances.

Global Instance ser_TransactionInput_laws : CodecLaws ser_TransactionInput.
Proof. unfold ser_TransactionInput, ser_CoinbaseInput, ser_KeyInput. apply _. Qed.
Global Instance ser_TransactionInput_canonical : CodecCanonical ser_TransactionInput.
Proof. unfold ser_TransactionInput, ser_CoinbaseInput, ser_KeyInput. apply _. Qed.
Global Instance ser_TransactionInput_safe : CodecSafe ser_TransactionInput.
Proof. unfold ser_TransactionInput, ser_CoinbaseInput, ser_KeyInput. apply _. Qed.
Global Instance ser_TransactionInput_progress : CodecProgress ser_TransactionInput.
Proof. unfold ser_TransactionInput, ser_CoinbaseInput, ser_KeyInput. apply _. Qed.
Global Instance ser_TransactionInput_nonempty : CodecNonempty ser_TransactionInput.
Proof. unfold ser_TransactionInput, ser_CoinbaseInput, ser_KeyInput. apply _. Qed.

Global Instance ser_TransactionOutputTarget_laws : CodecLaws ser_TransactionOutputTarget.
Proof. unfold ser_TransactionOutputTarget. apply _. Qed.
Global Instance ser_TransactionOutputTarget_canonical : CodecCanonical ser_TransactionOutputTarget.
Proof. unfold ser_TransactionOutputTarget. apply _. Qed.
Global Instance ser_TransactionOutputTarget_safe : CodecSafe ser_TransactionOutputTarget.
Proof. unfold ser_TransactionOutputTarget. apply _. Qed.
Global Instance ser_TransactionOutputTarget_progress : CodecProgress ser_TransactionOutputTarget.
Proof. unfold ser_TransactionOutputTarget. apply _. Qed.
Global Instance ser_TransactionOutputTarget_nonempty : CodecNonempty ser_TransactionOutputTarget.
Proof. unfold ser_TransactionOutputTarget. apply _. Qed.

Global Instance ser_TransactionOutput_laws : CodecLaws ser_TransactionOutput.
Proof. unfold ser_TransactionOutput. apply _. Qed.
Global Instance ser_TransactionOutput_canonical : CodecCanonical ser_TransactionOutput.
Proof. unfold ser_TransactionOutput. apply _. Qed.
Global Instance ser_TransactionOutput_safe : CodecSafe ser_TransactionOutput.
Proof. unfold ser_TransactionOutput. apply _. Qed.
Global Instance ser_TransactionOutput_progress : CodecProgress ser_TransactionOutput.
Proof. unfold ser_TransactionOutput. apply _. Qed.
Global Instance ser_TransactionOutput_nonempty : CodecNonempty ser_TransactionOutput.
Proof. unfold ser_TransactionOutput. apply _. Qed.

Global Instance ser_TransactionPrefix_laws : CodecLaws ser_TransactionPrefix.
Proof. unfold ser_TransactionPrefix. apply _. Qed.
Global Instance ser_TransactionPrefix_canonical : CodecCanonical ser_TransactionPrefix.
Proof. unfold ser_TransactionPrefix. apply _. Qed.
Global Instance ser_TransactionPrefix_safe : CodecSafe ser_TransactionPrefix.
Proof. unfold ser_TransactionPrefix. apply _. Qed.
Global Instance ser_TransactionPrefix_progress : CodecProgress ser_TransactionPrefix.
Proof. unfold ser_TransactionPrefix. apply _. Qed.
Global Instance ser_TransactionPrefix_nonempty : CodecNonempty ser_TransactionPrefix.
Proof. unfold ser_TransactionPrefix. apply _. Qed.

Global Instance ser_AccountPublicAddress_laws : CodecLaws ser_AccountPublicAddress.
Proof. unfold ser_AccountPublicAddress. apply _. Qed.
Global Instance ser_AccountPublicAddress_canonical : CodecCanonical ser_AccountPublicAddress.
Proof. unfold ser_AccountPublicAddress. apply _. Qed.
Global Instance ser_AccountPublicAddress_safe : CodecSafe ser_AccountPublicAddress.
Proof. unfold ser_AccountPublicAddress. apply _. Qed.

Global Instance ser_RawBlock_laws : CodecLaws ser_RawBlock.
Proof. unfold ser_RawBlock. apply _. Qed.
Global Instance ser_RawBlock_canonical : CodecCanonical ser_RawBlock.
Proof. unfold ser_RawBlock. apply _. Qed.
Global Instance ser_RawBlock_safe : CodecSafe ser_RawBlock.
Proof. unfold ser_RawBlock. apply _. Qed.

Global Instance ser_ignored_laws : CodecLaws ser_ignored.
Proof. split; simpl; [intros; eexists; split; [done|by repeat constructor]|]. by intros [] bs rest _ [= <-]. Qed.

Lemma ser_ignored_get_inv s u rest :
  c_get ser_ignored s = Ok (u, rest) → ∃ used, s = used ++ rest.
Proof.
  simpl. intros Hg. inv_ok Hg. destruct a as [v s']. injection Hg as _ <-.
  apply Varint.read_varint_suffix in Ha as (used & -> & _). eauto.
Qed.

Global Instance ser_ignored_safe : CodecSafe ser_ignored.
Proof.
  split; [|apply ser_ignored_get_inv]. intros s w _. apply bind_defined.
  - intros. apply Varint.read_varint_defined.
  - intros [] _. simpl. congruence.
Qed.

Global Instance ser_BaseTransaction_laws : CodecLaws ser_BaseTransaction.
Proof. apply c_iso_laws; [by intros ?|]. apply c_seq_laws; [apply _|]. intros t. case_match; apply _. Qed.
Global Instance ser_BaseTransaction_safe : CodecSafe ser_BaseTransaction.
Proof. apply c_iso_safe, c_seq_safe; [apply _|]. intros t. case_match; apply _. Qed.
Global Instance ser_BaseTransaction_nonempty : CodecNonempty ser_BaseTransaction.
Proof. apply _. Qed.

Global Instance ser_ring_laws i : CodecLaws (ser_ring i).
Proof. unfold ser_ring. apply _. Qed.
Global Instance ser_ring_canonical i : CodecCanonical (ser_ring i).
Proof. unfold ser_ring. apply _. Qed.
Global Instance ser_ring_safe i : CodecSafe (ser_ring i).
Proof. unfold ser_ring. apply _. Qed.

(** The inputs whose signatures are stored. *)
Definition signed_inputs (t : TransactionPrefix) : list TransactionInput :=
  if is_base t then [] else inputs t.

Lemma signed_inputs_take t :
  take (if is_base t then 0 else length (inputs t)) (inputs t) = signed_inputs t.
Proof. unfold signed_inputs. destruct (is_base t); [done|]. by rewrite firstn_all. Qed.

Lemma signatures_ok_length t v :
  c_ok (ser_signatures t) v → length v = length (signed_inputs t).
Proof. intros Hok. symmetry. exact (Forall2_length _ _ _ Hok). Qed.

Lemma put_signatures t v :
  length v = length (signed_inputs t) →
  c_put (ser_signatures t) v = put_rings (signed_inputs t) v.
Proof.
  intros Hl. simpl. rewrite signed_inputs_take. unfold signed_inputs in *.
  destruct (is_base t); [done|].
  replace (negb (length (inputs t) =? length v)%nat) with false by (rewrite Hl, Nat.eqb_refl; done).
  by rewrite andb_false_r.
Qed.

Lemma get_signatures t s : c_get (ser_signatures t) s = get_rings (signed_inputs t) s.
Proof. simpl. by rewrite signed_inputs_take. Qed.

Global Instance ser_signatures_laws t : CodecLaws (ser_signatures t).
Proof.
  split.
  - intros v Hok. rewrite put_signatures by (by apply signatures_ok_length).
    change (c_ok (ser_signatures t) v) with (Forall2 (λ i, c_ok (ser_ring i)) (signed_inputs t) v) in Hok.
    induction Hok as [|i r ins v Hr Hv (y & Hy & ?)]; [by exists []|].
    destruct (put_total r Hr) as (x & Hx & ?). exists (x ++ y).
    cbn [put_rings]. rewrite Hx. cbn [mbind result_bind]. rewrite Hy. split; [done|].
    by apply bytes_app.
  - intros v bs rest Hok. rewrite put_signatures by (by apply signatures_ok_length).
    rewrite get_signatures.
    change (c_ok (ser_signatures t) v) with (Forall2 (λ i, c_ok (ser_ring i)) (signed_inputs t) v) in Hok.
    revert bs. induction Hok as [|i r ins v Hr Hv IH]; intros bs Hp; cbn [put_rings] in Hp.
    + by injection Hp as <-.
    + inv_ok Hp. injection Hp as <-. cbn [get_rings]. rewrite <- app_assoc.
      erewrite get_put by done. cbn [mbind result_bind]. by rewrite IH.
Qed.

Global Instance ser_signatures_canonical t : CodecCanonical (ser_signatures t).
Proof.
  intros s v rest Hs. rewrite get_signatures. intros Hg.
  assert (Forall2 (λ i, c_ok (ser_ring i)) (signed_inputs t) v ∧
          ∃ bs, put_rings (signed_inputs t) v = Ok bs ∧ s = bs ++ rest) as (Hok & bs & Hp & ->).
  { generalize dependent s. generalize dependent v.
    induction (signed_inputs t) as [|i ins IH]; intros v s Hs Hg; cbn [get_rings] in Hg.
    { injection Hg as <- <-. split; [done|by exists []]. }
    inv_ok Hg. destruct a as [r s']. inv_ok Hg. destruct a as [v' s'']. injection Hg as <- <-.
    pose proof (get_suffix_bytes _ _ _ _ Hs Ha) as Hs'.
    apply get_canonical in Ha as (? & x & Hx & ->); [|done].
    destruct (IH _ _ Hs' Ha0) as (? & y & Hy & ->).
    split; [by constructor|]. exists (x ++ y). cbn [put_rings]. rewrite Hx.
    cbn [mbind result_bind]. rewrite Hy. by rewrite app_assoc. }
  split; [done|]. exists bs. by rewrite put_signatures by (by apply signatures_ok_length).
Qed.

Global Instance ser_signatures_safe t : CodecSafe (ser_signatures t).
Proof.
  split.
  - intros s w. rewrite get_signatures. revert s w.
    induction (signed_inputs t) as [|i ins IH]; intros s w Hs; cbn [get_rings]; [done|].
    apply bind_defined; [intros; by apply get_defined|]. intros [r s'] Ha.
    apply bind_defined; [|intros [] _; simpl; congruence].
    intros. apply IH. exact (get_suffix_bytes _ _ _ _ Hs Ha).
  - intros s v rest. rewrite get_signatures. revert s v.
    induction (signed_inputs t) as [|i ins IH]; intros s v Hg; cbn [get_rings] in Hg.
    { injection Hg as _ <-. by exists []. }
    inv_ok Hg. destruct a as [r s']. inv_ok Hg. destruct a as [v' s'']. injection Hg as _ <-.
    apply get_suffix in Ha as [u ->]. apply IH in Ha0 as [u' ->]. exists (u ++ u').
    by rewrite app_assoc.
Qed.

Global Instance ser_Transaction_laws : CodecLaws ser_Transaction.
Proof. unfold ser_Transaction. apply _. Qed.
Global Instance ser_Transaction_canonical : CodecCanonical ser_Transaction.
Proof. unfold ser_Transaction. apply _. Qed.
Global Instance ser_Transaction_safe : CodecSafe ser_Transaction.
Proof. unfold ser_Transaction. apply _. Qed.
Global Instance ser_Transaction_nonempty : CodecNonempty ser_Transaction.
Proof. unfold ser_Transaction. apply _. Qed.
Global Instance ser_Transaction_progress : CodecProgress ser_Transaction.
Proof. unfold ser_Transaction. apply _. Qed.

(** ** Properties *)

(** A transaction every member of which has its width, and one ring of
    signatures per signed input. *)
Definition transaction_ok (t : Transaction) : Prop := c_ok ser_Transaction t.

(** C15: Transactions survive the wire: every well-formed transaction
    serializes, and parsing the bytes gives the transaction back. *)
Theorem transaction_roundtrip t :
  transaction_ok t →
  ∃ blob, to_binary ser_Transaction t = Ok blob ∧ from_binary ser_Transaction blob = Ok t.
Proof. intros Ht. destruct (from_to_binary _ t Ht) as (bs & ? & _ & ?). eauto. Qed.

Definition sample_transaction : Transaction := {|
  tx_prefix := {|
    version := 1; unlock_time := 300;
    inputs := [KeyInput 1000 [3; 1] (replicate 32 7); KeyInput 20 [9] (replicate 32 8)];
    outputs := [{| out_amount := 900; out_target := KeyOutput (replicate 32 9) |}];
    extra := [1; 2; 3] |};
  signatures := [[replicate 64 4; replicate 64 5]; [replicate 64 6]];
|}.

Lemma sample_transaction_ok : transaction_ok sample_transaction.
Proof.
  unfold transaction_ok, sample_transaction, ser_Transaction. simpl.
  repeat first [done | split | apply Forall_nil_2 | apply Forall_cons_2 | apply Forall2_nil_2
               | apply Forall2_cons_2 | apply Forall_replicate].
Qed.

Lemma transaction_roundtrip_witness :
  ∃ blob, to_binary ser_Transaction sample_transaction = Ok blob ∧
          from_binary ser_Transaction blob = Ok sample_transaction.
Proof. apply (transaction_roundtrip sample_transaction). exact sample_transaction_ok. Defined.

(** C14: Transactions are not malleable on the wire: bytes that parse are the
    serialization of the transaction they parse to, so two different byte
    strings never denote the same transaction, and a transaction hash, which
    is taken over the re-serialized object, is the hash of the bytes received. *)
Theorem transaction_not_malleable blob t :
  bytes blob → from_binary ser_Transaction blob = Ok t →
  transaction_ok t ∧ to_binary ser_Transaction t = Ok blob.
Proof. apply to_from_binary. apply _. Qed.

Lemma transaction_not_malleable_witness :
  ∃ blob, to_binary ser_Transaction sample_transaction = Ok blob.
Proof.
  destruct (from_to_binary ser_Transaction sample_transaction sample_transaction_ok)
    as (blob & Hp & Hb & Hf).
  exists blob. exact (proj2 (transaction_not_malleable blob sample_transaction Hb Hf)).
Defined.

(** Parsing hostile bytes as a transaction is safe: it returns or throws
    and never leaves the defined behaviour of the archive. *)
Lemma transaction_parse_safe blob w :
  bytes blob → from_binary ser_Transaction blob ≠ Undefined w.
Proof. apply from_binary_defined. apply _. Qed.

Lemma transaction_parse_safe_witness :
  from_binary ser_Transaction [1; 0; 1; 5] ≠ Undefined "".
Proof. apply (transaction_parse_safe [1; 0; 1; 5] ""). by repeat constructor. Defined.

End CryptoNote.
