(* ===== verification/Amounts.v ===== *)
(** * Amounts (src/src/Core/CryptoNoteTools.cpp, Currency.cpp)

    Splitting an amount into round outputs, transaction fees, the table of
    round amounts, and the decimal text of amounts. *)

From S2P Require Import Prelude Varint Seria CryptoNote Text.
Import CryptoNote.

Local Open Scope Z_scope.

Module Amounts.

(** ** [decompose_amount] *)

(** The loop of [decompose_amount_into_digits]; the amounts handed to
    [chunk_handler] and, as [inr], to [dust_handler], in order.  A 64-bit
    amount has at most twenty digits. *)
Fixpoint digits_loop (fuel : nat) (amount dust order dust_threshold : Z) (is_dust_handled : bool) :
    result (list (Z + Z)) :=
  if amount =? 0 then
    Ok (if negb is_dust_handled && negb (0 =? dust) then [inr dust] else [])
  else
  match fuel with
  | O => Undefined "out of fuel"
  | S fuel =>
      let chunk := u64 (amount mod 10 * order) in
      let amount := amount / 10 in
      let order := u64 (order * 10) in
      if u64 (dust + chunk) <=? dust_threshold then
        digits_loop fuel amount (u64 (dust + chunk)) order dust_threshold is_dust_handled
      else
        let flush := negb is_dust_handled && negb (0 =? dust) in
        rest ← digits_loop fuel amount dust order dust_threshold (is_dust_handled || flush);
        Ok ((if flush then [inr dust] else []) ++
            (if negb (0 =? chunk) then [inl chunk] else []) ++ rest)
  end.

Definition decompose_amount_into_digits (amount dust_threshold : Amount) : result (list (Z + Z)) :=
  if 0 =? amount then Ok [] else digits_loop 20 amount 0 1 dust_threshold false.

(** What the two handlers of [decompose_amount] push. *)
Definition handle_chunk (c : Z + Z) : list Amount :=
  match c with
  | inl chunk => [chunk]
  | inr dust =>
      let du0 := dust mod 1000 in
      let du1 := u64 (dust - du0) in
      (if negb (du0 =? 0) then [du0] else []) ++ (if negb (du1 =? 0) then [du1] else [])
  end.

Definition decompose_amount (amount dust_threshold : Amount) : result (list Amount) :=
  chunks ← decompose_amount_into_digits amount dust_threshold;
  Ok (chunks ≫= handle_chunk).

(** ** Fees and sizes *)

Definition amount_in (tx : TransactionPrefix) : Amount :=
  foldl (λ a i, match i with KeyInput amount _ _ => u64 (a + amount) | _ => a end) 0 (inputs tx).
Definition amount_out (tx : TransactionPrefix) : Amount :=
  foldl (λ a o, u64 (a + out_amount o)) 0 (outputs tx).

(** [get_tx_fee(tx, &fee)]; the sums wrap as [uint64_t] do. *)
Definition get_tx_fee_opt (tx : TransactionPrefix) : option Amount :=
  if amount_in tx <? amount_out tx then None else Some (amount_in tx - amount_out tx).

Definition get_tx_fee (tx : TransactionPrefix) : Amount := default 0 (get_tx_fee_opt tx).

Definition get_maximum_tx_size (input_count output_count mixin_count : Z) : Z :=
  let AMOUNT_SIZE := 8 + 2 in
  let outputs_size := u64 (output_count * (1 + 32 + AMOUNT_SIZE)) in
  let header_size := 1 + 8 + 1 + 32 in
  let input_size := u64 (1 + AMOUNT_SIZE + 32 + 64 + 1 + 4 + u64 (mixin_count * (4 + 64))) in
  u64 (header_size + outputs_size + u64 (input_size * input_count)).

(** ** Round amounts *)

Definition DECIMAL_PLACES : list Amount := (λ k, 10 ^ k) <$> seqZ 0 20.

(** One to nine times a power of ten, in ascending order. *)
Definition PRETTY_AMOUNTS : list Amount :=
  (seqZ 0 19 ≫= λ k, (λ d, d * 10 ^ k) <$> seqZ 1 9) ++ [10 ^ 19].

(** [std::lower_bound]: the first element that is not below [x]. *)
Definition lower_bound (l : list Z) (x : Z) : option Z := List.find (λ p, x <=? p) l.

Definition is_dust (amount : Amount) : bool :=
  match lower_bound PRETTY_AMOUNTS amount with
  | None => true
  | Some p => negb (p =? amount) || (amount <? 1000000)
  end.

(** ** Decimal text *)

(** [std::to_string] of an unsigned integer: twenty digits are enough. *)
Fixpoint to_string_loop (fuel : nat) (n : Z) : list Z :=
  match fuel with
  | O => []
  | S fuel => if n <? 10 then [48 + n] else to_string_loop fuel (n / 10) ++ [48 + n mod 10]
  end.
Definition to_string (n : Z) : list Z := to_string_loop 20 n.

Definition ffw (am : Amount) (digs : nat) : list Z :=
  let result := to_string am in replicate (digs - length result) 48 ++ result.

Definition decimal_place (n : nat) : result Amount :=
  of_option (DECIMAL_PLACES !! n) (Throw "vector::at").

(** The thousands of the whole part, and what is left of it. *)
Fixpoint format_groups (fuel : nat) (ia : Z) (result : list Z) : Z * list Z :=
  match fuel with
  | O => (ia, result)
  | S fuel =>
      if 1000 <=? ia
      then format_groups fuel (ia / 1000) (chars "'" ++ ffw (ia mod 1000) 3 ++ result)
      else (ia, result)
  end.

Definition format_amount (number_of_decimal_places : nat) (amount : Amount) : result (list Z) :=
  place ← decimal_place number_of_decimal_places;
  let ia := amount / place in
  let fa := amount - ia * place in
  let '(ia, result) := format_groups 7 ia [] in
  let result := to_string ia ++ result in
  '(fa, result) ←
    (if negb (fa =? 0) then
       cents ← (if (number_of_decimal_places <? 2)%nat then Throw "vector::at"
                else decimal_place (number_of_decimal_places - 2));
       Ok (fa mod cents, result ++ chars "." ++ ffw (fa / cents) 2)
     else Ok (fa, result));
  let '(fa, result) :=
    if negb (fa =? 0) then (fa mod 1000, result ++ chars "'" ++ ffw (fa / 1000) 3)
    else (fa, result) in
  Ok (if negb (fa =? 0) then result ++ chars "'" ++ ffw fa 3 else result).

(** [format_amount(SignedAmount)]. *)
Definition format_signed_amount (number_of_decimal_places : nat) (amount : Z) : result (list Z) :=
  s ← format_amount number_of_decimal_places (Z.abs amount);
  Ok (if amount <? 0 then chars "-" ++ s else s).

Definition is_space (c : Z) : bool := (c =? 32) || ((9 <=? c) && (c <=? 13)).
Definition is_digit (c : Z) : bool := (48 <=? c) && (c <=? 57).

(** [boost::algorithm::trim] with the classic locale. *)
Fixpoint trim_left (s : list Z) : list Z :=
  match s with
  | [] => []
  | c :: s' => if is_space c then trim_left s' else s
  end.
Definition trim (s : list Z) : list Z := rev (trim_left (rev (trim_left s))).

(** The position of the first [c]. *)
Fixpoint find_first (c : Z) (s : list Z) : option nat :=
  match s with
  | [] => None
  | x :: s => if x =? c then Some O else option_map S (find_first c s)
  end.

(** The [while] loop that drops excess zeros: the reversed string and the size
    of the fraction. *)
Fixpoint drop_zeros (places : Z) (rev_s : list Z) (fraction_size : Z) : list Z * Z :=
  match rev_s with
  | c :: rev_s' =>
      if (places <? fraction_size) && (c =? 48) then drop_zeros places rev_s' (fraction_size - 1)
      else (rev_s, fraction_size)
  | [] => ([], fraction_size)
  end.

Definition decimal_value (s : list Z) : Z := foldl (λ v c, v * 10 + (c - 48)) 0 s.

(** [parse_amount]; reading a [uint64_t] from a stream fails on overflow. *)
Definition parse_amount (number_of_decimal_places : nat) (str : list Z) : option Amount :=
  let places := Z.of_nat number_of_decimal_places in
  let str_amount := filter (λ c, c ≠ 39) (trim str) in
  r ← (match find_first 46 str_amount with
       | Some point_index =>
           let fraction_size := Z.of_nat (length str_amount) - Z.of_nat point_index - 1 in
           let '(rev_s, fraction_size) := drop_zeros places (rev str_amount) fraction_size in
           if places <? fraction_size then None
           else let s := rev rev_s in
                Some (take point_index s ++ drop (S point_index) s, fraction_size)
       | None => Some (str_amount, 0)
       end);
  let '(str_amount, fraction_size) := r in
  if bool_decide (str_amount = []) then None
  else if negb (forallb is_digit str_amount) then None
  else
    let str_amount := str_amount ++ replicate (Z.to_nat (places - fraction_size)) 48 in
    let v := decimal_value str_amount in
    if v <=? UINT64_MAX then Some v else None.

(** ** Splitting preserves the amount *)

Definition sum (l : list Z) : Z := foldr Z.add 0 l.

Lemma sum_app l k : sum (l ++ k) = sum l + sum k.
Proof. unfold sum. induction l; simpl; lia. Qed.

Definition chunk_value (c : Z + Z) : Z := match c with inl v | inr v => v end.

(** The amount left at a point of the loop, what has been called dust so far,
    and why no later chunk joins the dust once it was handed over. *)
Definition loop_inv (amount dust order dust_threshold : Z) (handled : bool) : Prop :=
  amount = 0 ∨
  1 ≤ order ∧ dust + amount * order < 2 ^ 64 ∧ (handled = true → dust_threshold < dust + order).

Lemma digits_loop_step q m order dust :
  0 ≤ q → 0 ≤ m < 10 → 1 ≤ order → 0 ≤ dust → dust + (10 * q + m) * order < 2 ^ 64 →
  u64 (m * order) = m * order ∧ 0 ≤ m * order ∧ dust + m * order < 2 ^ 64 ∧
  (q ≠ 0 → u64 (order * 10) = order * 10) ∧
  (10 * q + m) * order = m * order + q * (order * 10).
Proof.
  intros Hq Hm Ho Hd Hlt.
  assert ((10 * q + m) * order = m * order + q * (order * 10)) as He by ring.
  assert (0 ≤ m * order) by nia. assert (0 ≤ q * (order * 10)) by nia.
  assert (q ≠ 0 → order * 10 ≤ q * (order * 10)) by nia.
  split_and!; [apply u64_small; lia|lia|lia| |done]. intros Hq0. apply u64_small.
  specialize (H1 Hq0). lia.
Qed.

Lemma digits_end dust (h : bool) : 0 ≤ dust < 2 ^ 64 →
  let l : list (Z + Z) := if negb h && negb (0 =? dust) then [inr dust] else [] in
  sum (chunk_value <$> l) = (if h then 0 else dust) ∧
  Forall (λ c, 0 < chunk_value c < 2 ^ 64) l.
Proof.
  intros Hd. destruct h, (Z.eqb_spec 0 dust); cbn; (split; [lia|]); try constructor;
    by (simpl; lia) || constructor.
Qed.

Lemma digits_loop_sum fuel amount dust order dust_threshold h :
  0 ≤ amount < 10 ^ Z.of_nat fuel → 0 ≤ dust < 2 ^ 64 →
  loop_inv amount dust order dust_threshold h →
  ∃ l, digits_loop fuel amount dust order dust_threshold h = Ok l ∧
    sum (chunk_value <$> l) = (if h then 0 else dust) + amount * order ∧
    Forall (λ c, 0 < chunk_value c < 2 ^ 64) l.
Proof.
  revert amount dust order h. induction fuel as [|fuel IH]; intros amount dust order h Ha Hd Hinv.
  { assert (amount = 0) as -> by (simpl in Ha; lia). cbn [digits_loop].
    destruct (digits_end dust h Hd) as [Hs Hp]. eexists. split; [done|]. split; [lia|done]. }
  cbn [digits_loop]. destruct (Z.eqb_spec amount 0) as [->|Hne].
  { destruct (digits_end dust h Hd) as [Hs Hp]. eexists. split; [done|]. split; [lia|done]. }
  destruct Hinv as [|(Ho & Hlt & Hh)]; [done|].
  rewrite Nat2Z.inj_succ, Z.pow_succ_r in Ha by lia.
  assert (amount = 10 * (amount / 10) + amount mod 10) as Hdm by (apply Z.div_mod; lia).
  assert (0 ≤ amount mod 10 < 10) as Hm by words.
  assert (0 ≤ amount / 10 < 10 ^ Z.of_nat fuel) as Hq
    by (split; [words|apply Z.div_lt_upper_bound; lia]).
  set (q := amount / 10) in *. set (m := amount mod 10) in *. clearbody q m. subst amount.
  destruct (digits_loop_step q m order dust) as (-> & Hc0 & Hc1 & Ho' & He); [lia..|].
  rewrite (u64_small (dust + m * order)) by lia.
  assert (∀ dust' h', dust' ≤ dust + m * order → (h' = true → dust_threshold < dust' + order * 10) →
    loop_inv q dust' (u64 (order * 10)) dust_threshold h') as Hnext.
  { intros dust' h' Hle Hh'. destruct (Z.eq_dec q 0) as [|Hq0]; [by left|right].
    rewrite Ho' by done. split_and!; [lia|lia|done]. }
  assert (q * u64 (order * 10) = q * (order * 10)) as Hqo.
  { destruct (Z.eq_dec q 0) as [->|Hq0]; [done|by rewrite Ho']. }
  assert (m = 0 ∨ order ≤ m * order) as Hmo by (destruct (Z.eq_dec m 0); [by left|right; nia]).
  assert (m * order ≤ 9 * order) by nia.
  destruct (Z.leb_spec (dust + m * order) dust_threshold) as [Hle|Hgt].
  - destruct (IH q (dust + m * order) (u64 (order * 10)) h) as (l & Hl & Hs & Hp);
      [lia|lia|apply Hnext; lia|].
    exists l. split_and!; [done| |done]. rewrite Hs, Hqo.
    destruct h; [|lia]. specialize (Hh eq_refl). destruct Hmo as [->|]; lia.
  - set (flush := negb h && negb (0 =? dust)).
    destruct (IH q dust (u64 (order * 10)) (h || flush)) as (l & Hl & Hs & Hp); [lia|lia| |].
    { apply Hnext; [lia|]. intros _. destruct h; [specialize (Hh eq_refl); lia|lia]. }
    rewrite Hl. cbn [mbind result_bind]. eexists. split_and!; [done| |].
    + rewrite !fmap_app, !sum_app, Hs, Hqo. unfold flush.
      destruct (Z.eqb_spec 0 (m * order)), h, (Z.eqb_spec 0 dust); cbn; lia.
    + rewrite !Forall_app. split_and!; [| |done].
      * by destruct (digits_end dust h Hd).
      * destruct (Z.eqb_spec 0 (m * order)); cbn [negb]; [constructor|].
        apply Forall_singleton. simpl. lia.
Qed.

Lemma handle_chunk_sum l :
  Forall (λ c, 0 < chunk_value c < 2 ^ 64) l →
  sum (l ≫= handle_chunk) = sum (chunk_value <$> l) ∧ Forall (λ a, 0 < a) (l ≫= handle_chunk).
Proof.
  induction 1 as [|c l Hc Hl [IHs IHp]]; [done|]. cbn [mbind list_bind fmap list_fmap].
  fold (list_bind _ _ handle_chunk l). change (list_bind _ _ handle_chunk l) with (l ≫= handle_chunk).
  rewrite sum_app, IHs, Forall_app. destruct c as [v|v]; simpl in *.
  - split; [lia|]. split; [|done]. apply Forall_singleton. lia.
  - rewrite u64_small by words. rewrite sum_app.
    destruct (Z.eqb_spec (v mod 1000) 0), (Z.eqb_spec (v - v mod 1000) 0); simpl;
      rewrite ?Forall_cons; (split; [lia|]); split_and!; try done; words.
Qed.

Lemma decompose_amount_sum amount dust_threshold :
  in_u 64 amount →
  ∃ l, decompose_amount amount dust_threshold = Ok l ∧ sum l = amount ∧ Forall (λ a, 0 < a) l.
Proof.
  intros Ha. unfold decompose_amount, decompose_amount_into_digits.
  destruct (Z.eqb_spec 0 amount) as [<-|Hne]; [by eexists|].
  destruct (digits_loop_sum 20 amount 0 1 dust_threshold false) as (l & -> & Hs & Hp).
  - unfold in_u in Ha. lia.
  - lia.
  - right. unfold in_u in Ha. split_and!; [lia|lia|done].
  - cbn [mbind result_bind]. destruct (handle_chunk_sum l Hp) as [Hsum Hpos].
    eexists. split_and!; [done| |done]. lia.
Qed.

(** ** Properties *)

(** Splitting an amount into outputs creates and loses no money: for every
    64-bit amount and any dust threshold the pieces are positive and add up
    to the amount. *)
Lemma decompose_amount_preserves_sum amount dust_threshold :
  in_u 64 amount →
  ∃ l, decompose_amount amount dust_threshold = Ok l ∧ sum l = amount ∧ Forall (λ a, 0 < a) l.
Proof. apply decompose_amount_sum. Qed.

Lemma decompose_amount_preserves_sum_witness :
  ∃ l, decompose_amount 18446744073709551615 1000000 = Ok l ∧ sum l = 18446744073709551615 ∧
    Forall (λ a, 0 < a) l.
Proof. apply (decompose_amount_preserves_sum 18446744073709551615 1000000). done. Defined.

(** With ten decimal places the text of an amount need not parse back to it:
    a thousand units print as [0.00'001], which reads as a hundred thousand. *)
Lemma format_amount_ten_places_bug :
  (s ← format_amount 10 1000; Ok (parse_amount 10 s)) = Ok (Some 100000).
Proof. by vm_compute. Qed.

End Amounts.
