(* ===== verification/TransactionExtra.v ===== *)
(** * The [extra] field of a transaction (src/src/Core/TransactionExtra.cpp, TransactionExtra.hpp)

    [extra] is a sequence of tagged fields: padding, a public key, a nonce (in
    which a payment id may hide) and a merge-mining tag. *)

From S2P Require Import Prelude Varint Seria CryptoNote.
Import Streams Codec CryptoNote.

Local Open Scope Z_scope.

Module TransactionExtra.

Definition TX_EXTRA_PADDING_MAX_COUNT : Z := 255.
Definition TX_EXTRA_NONCE_MAX_COUNT : Z := 255.
Definition TX_EXTRA_NONCE_PAYMENT_ID : Z := 0x00.

Inductive TransactionExtraField :=
| TransactionExtraPadding (size : Z)
| TransactionExtraPublicKey (public_key : PublicKey)
| TransactionExtraNonce (nonce : BinaryArray)
| TransactionExtraMergeMiningTag (depth : Z) (merkle_root : Hash).

Definition tag_padding : Z := 0x00.
Definition tag_public_key : Z := 0x01.
Definition tag_nonce : Z := 0x02.
Definition tag_merge_mining : Z := 0x03.

Definition do_serialize : codec (Z * Hash) := c_seq (c_varint 64) (λ _, ser_Hash).

(** [ser(TransactionExtraMergeMiningTag &)]: the members inside a string;
    what follows them in the string is not looked at. *)
Definition ser_mm_tag : codec (Z * Hash) := {|
  c_put (v : Z * Hash) := field ← c_put do_serialize v; c_put c_bytes field;
  c_get (s : list Z) :=
    '(field, s) ← c_get c_bytes s; '(v, _) ← c_get do_serialize field; Ok (v, s);
  c_ok (v : Z * Hash) := c_ok do_serialize v;
|}.

(** The [for] loop over padding: [None] when a non-zero byte is met, the size
    otherwise, with the bytes left. *)
Fixpoint read_padding (size : Z) (s : list Z) : option (Z * list Z) :=
  match s with
  | [] => Some (size, [])
  | b :: s' =>
      if size <=? TX_EXTRA_PADDING_MAX_COUNT
      then if negb (b =? 0) then None else read_padding (size + 1) s'
      else Some (size, s)
  end.

(** The [while] loop of [parse_transaction_extra]; an exception is [false],
    with the fields pushed before it.  Each round takes a byte. *)
Fixpoint parse_loop (fuel : nat) (s : list Z) : bool * list TransactionExtraField :=
  match s, fuel with
  | [], _ => (true, [])
  | _, O => (false, [])
  | c :: s, S fuel =>
      let push f s := let '(ok, fields) := parse_loop fuel s in (ok, f :: fields) in
      if c =? tag_padding then
        match read_padding 1 s with
        | None => (false, [])
        | Some (size, s) =>
            if TX_EXTRA_PADDING_MAX_COUNT <? size then (false, [])
            else push (TransactionExtraPadding size) s
        end
      else if c =? tag_public_key then
        match stream_read 32 s with
        | Ok (key, s) => push (TransactionExtraPublicKey key) s
        | _ => (false, [])
        end
      else if c =? tag_nonce then
        match ('(size, s) ← stream_read 1 s; stream_read (nth 0 size 0) s) with
        | Ok (nonce, s) => push (TransactionExtraNonce nonce) s
        | _ => (false, [])
        end
      else if c =? tag_merge_mining then
        match c_get ser_mm_tag s with
        | Ok ((depth, root), s) => push (TransactionExtraMergeMiningTag depth root) s
        | _ => (false, [])
        end
      else parse_loop fuel s
  end.

Definition parse_transaction_extra (extra : BinaryArray) : bool * list TransactionExtraField :=
  parse_loop (length extra) extra.

Definition add_transaction_public_key_to_extra (tx_extra : BinaryArray) (tx_pub_key : PublicKey) :
    BinaryArray := tx_extra ++ [tag_public_key] ++ tx_pub_key.

Definition add_extra_nonce_to_transaction_extra (tx_extra extra_nonce : BinaryArray) :
    bool * BinaryArray :=
  if TX_EXTRA_NONCE_MAX_COUNT <? Z.of_nat (length extra_nonce) then (false, tx_extra)
  else (true, tx_extra ++ [tag_nonce; u8 (Z.of_nat (length extra_nonce))] ++ extra_nonce).

Definition append_merge_mining_tag_to_extra (tx_extra : BinaryArray) (depth : Z) (root : Hash) :
    result BinaryArray :=
  blob ← to_binary ser_mm_tag (depth, root); Ok (tx_extra ++ [tag_merge_mining] ++ blob).

(** [ExtraSerializerVisitor]. *)
Definition write_field (extra : BinaryArray) (f : TransactionExtraField) :
    result (bool * BinaryArray) :=
  match f with
  | TransactionExtraPadding size =>
      if TX_EXTRA_PADDING_MAX_COUNT <? size then Ok (false, extra)
      else Ok (true, extra ++ replicate (Z.to_nat size) 0)
  | TransactionExtraPublicKey key => Ok (true, add_transaction_public_key_to_extra extra key)
  | TransactionExtraNonce nonce => Ok (add_extra_nonce_to_transaction_extra extra nonce)
  | TransactionExtraMergeMiningTag depth root =>
      extra ← append_merge_mining_tag_to_extra extra depth root; Ok (true, extra)
  end.

Fixpoint write_transaction_extra (tx_extra : BinaryArray) (fields : list TransactionExtraField) :
    result (bool * BinaryArray) :=
  match fields with
  | [] => Ok (true, tx_extra)
  | f :: fields =>
      '(ok, tx_extra) ← write_field tx_extra f;
      if negb ok then Ok (false, tx_extra) else write_transaction_extra tx_extra fields
  end.

(** [find_transaction_extra_field_by_type], one instance per type used. *)
Definition find_public_key (fields : list TransactionExtraField) : option PublicKey :=
  head (omap (λ f, match f with TransactionExtraPublicKey k => Some k | _ => None end) fields).
Definition find_nonce (fields : list TransactionExtraField) : option BinaryArray :=
  head (omap (λ f, match f with TransactionExtraNonce n => Some n | _ => None end) fields).
Definition find_mm_tag (fields : list TransactionExtraField) : option (Z * Hash) :=
  head (omap (λ f, match f with
                   | TransactionExtraMergeMiningTag d r => Some (d, r) | _ => None end) fields).

Definition get_transaction_public_key_from_extra (tx_extra : BinaryArray) : PublicKey :=
  default null_hash (find_public_key (parse_transaction_extra tx_extra).2).

Definition get_merge_mining_tag_from_extra (tx_extra : BinaryArray) : option (Z * Hash) :=
  find_mm_tag (parse_transaction_extra tx_extra).2.

Definition set_payment_id_to_transaction_extra_nonce (payment_id : Hash) : BinaryArray :=
  TX_EXTRA_NONCE_PAYMENT_ID :: payment_id.

Definition get_payment_id_from_transaction_extra_nonce (extra_nonce : BinaryArray) : option Hash :=
  if negb (Z.of_nat (length extra_nonce) =? 32 + 1) then None
  else if negb (nth 0 extra_nonce 0 =? TX_EXTRA_NONCE_PAYMENT_ID) then None
  else Some (drop 1 extra_nonce).

Definition get_payment_id_from_tx_extra (extra : BinaryArray) : option Hash :=
  nonce ← find_nonce (parse_transaction_extra extra).2;
  get_payment_id_from_transaction_extra_nonce nonce.

(** ** The class [TransactionExtra] *)

Definition same_type (f g : TransactionExtraField) : bool :=
  match f, g with
  | TransactionExtraPadding _, TransactionExtraPadding _
  | TransactionExtraPublicKey _, TransactionExtraPublicKey _
  | TransactionExtraNonce _, TransactionExtraNonce _
  | TransactionExtraMergeMiningTag _ _, TransactionExtraMergeMiningTag _ _ => true
  | _, _ => false
  end.

(** [set]: the first field of the type is replaced, or the field appended. *)
Fixpoint set_field (value : TransactionExtraField) (fields : list TransactionExtraField) :
    list TransactionExtraField :=
  match fields with
  | [] => [value]
  | f :: fields => if same_type value f then value :: fields else f :: set_field value fields
  end.

(** [serialize]: whether all fields were written is not looked at. *)
Definition serialize (fields : list TransactionExtraField) : result BinaryArray :=
  '(_, extra) ← write_transaction_extra [] fields; mret extra.

(** ** Laws *)

Global Instance do_serialize_laws : CodecLaws do_serialize.
Proof. unfold do_serialize. apply _. Qed.
Global Instance do_serialize_safe : CodecSafe do_serialize.
Proof. unfold do_serialize. apply _. Qed.

Lemma do_serialize_length v field :
  c_ok do_serialize v → c_put do_serialize v = Ok field → (length field ≤ 42)%nat.
Proof.
  intros [Hv [_ Hr]] Hp. simpl in *. inv_ok Hp. injection Hp as <-.
  destruct (Varint.write_varint_total _ Hv) as (bs & Hw & _ & Hl).
  rewrite Ha in Hw. injection Hw as ->. rewrite length_app, Hr. lia.
Qed.

Global Instance ser_mm_tag_laws : CodecLaws ser_mm_tag.
Proof.
  assert (∀ v field, c_ok do_serialize v → c_put do_serialize v = Ok field → bytes field →
    c_ok c_bytes field) as Hok.
  { intros v field Hv Hp Hb. split; [done|].
    pose proof (do_serialize_length v field Hv Hp). unfold in_u. lia. }
  split.
  - intros v Hv. destruct (put_total (c:=do_serialize) v Hv) as (field & Hf & Hb).
    cbn [c_put ser_mm_tag]. rewrite Hf. cbn [mbind result_bind].
    apply put_total. by eapply Hok.
  - intros v bs rest Hv Hp. cbn [c_put c_get ser_mm_tag] in *. inv_ok Hp.
    destruct (put_total (c:=do_serialize) v Hv) as (field & Hf & Hb).
    rewrite Ha in Hf. injection Hf as <-.
    erewrite (get_put (c:=c_bytes)); [|by eapply Hok|done]. cbn [mbind result_bind].
    pose proof (get_put (c:=do_serialize) v a [] Hv Ha) as Hg. rewrite app_nil_r in Hg.
    by rewrite Hg.
Qed.

Global Instance ser_mm_tag_safe : CodecSafe ser_mm_tag.
Proof.
  split.
  - intros s w Hs. cbn [c_get ser_mm_tag]. apply bind_defined; [intros; by apply get_defined|].
    intros [field s'] Hf. apply bind_defined.
    + intros. apply get_defined. apply c_bytes_canonical in Hf as [[? _] _]; done.
    + intros [] _. congruence.
  - intros s v rest Hg. cbn [c_get ser_mm_tag] in Hg. inv_ok Hg. destruct a as [field s'].
    inv_ok Hg. destruct a as [v' ?]. injection Hg as _ <-. exact (get_suffix _ _ _ Ha).
Qed.

(** A field that [write_transaction_extra] accepts. *)
Definition field_ok (f : TransactionExtraField) : Prop :=
  match f with
  | TransactionExtraPadding size => 1 ≤ size ≤ TX_EXTRA_PADDING_MAX_COUNT
  | TransactionExtraPublicKey key => bytes key ∧ length key = 32%nat
  | TransactionExtraNonce nonce => bytes nonce ∧ Z.of_nat (length nonce) ≤ TX_EXTRA_NONCE_MAX_COUNT
  | TransactionExtraMergeMiningTag depth root => in_u 64 depth ∧ bytes root ∧ length root = 32%nat
  end.

(** Padding runs to the end, so it can only be the last field. *)
Fixpoint fields_ok (fields : list TransactionExtraField) : Prop :=
  match fields with
  | [] => True
  | f :: fields =>
      field_ok f ∧ (if f is TransactionExtraPadding _ then fields = [] else True) ∧
      fields_ok fields
  end.

Lemma read_padding_zeros n size :
  0 ≤ size → size + Z.of_nat n ≤ 256 →
  read_padding size (replicate n 0) = Some (size + Z.of_nat n, []).
Proof.
  revert size. induction n as [|n IH]; intros size Hs Hn; simpl.
  { by rewrite Z.add_0_r. }
  unfold TX_EXTRA_PADDING_MAX_COUNT. replace (size <=? 255) with true by lia.
  rewrite IH by lia. do 2 f_equal. lia.
Qed.

(** What one field adds to [extra], and how the parser takes it off again. *)
Lemma write_field_spec f extra :
  field_ok f → ∃ enc, write_field extra f = Ok (true, extra ++ enc) ∧ bytes enc ∧ enc ≠ [] ∧
    ∀ fuel rest, (if f is TransactionExtraPadding _ then rest = [] else True) →
      parse_loop (S fuel) (enc ++ rest) =
      let '(ok, fields) := parse_loop fuel rest in (ok, f :: fields).
Proof.
  destruct f as [size|key|nonce|depth root]; simpl field_ok; intros Hok.
  - unfold write_field, TX_EXTRA_PADDING_MAX_COUNT in *.
    replace (255 <? size) with false by lia. eexists. split_and!; [done| | |].
    + apply Forall_replicate. done.
    + destruct (Z.to_nat size) eqn:E; [lia|done].
    + intros fuel rest ->. destruct (Z.to_nat size) as [|n] eqn:E; [lia|].
      rewrite app_nil_r. cbn [replicate parse_loop]. rewrite read_padding_zeros by lia.
      replace (1 + Z.of_nat n) with size by lia. unfold TX_EXTRA_PADDING_MAX_COUNT.
      replace (255 <? size) with false by lia. by destruct fuel.
  - destruct Hok as [Hb Hl]. eexists. split_and!; [done| |done|].
    + apply bytes_app. split; [|done]. by repeat constructor.
    + intros fuel rest _. cbn [app parse_loop].
      change (tag_public_key =? tag_padding) with false.
      change (tag_public_key =? tag_public_key) with true. cbn iota.
      change 32 with (Z.of_nat 32). rewrite <- Hl, stream_read_app. done.
  - destruct Hok as [Hb Hl]. unfold write_field, add_extra_nonce_to_transaction_extra.
    unfold TX_EXTRA_NONCE_MAX_COUNT in *. replace (255 <? _) with false by lia.
    eexists. split_and!; [done| |done|].
    + apply bytes_app. split; [|done]. apply Forall_cons; split; [done|apply Forall_singleton; words].
    + intros fuel rest _. cbn [app parse_loop].
      change (tag_nonce =? tag_padding) with false.
      change (tag_nonce =? tag_public_key) with false.
      change (tag_nonce =? tag_nonce) with true. cbn iota.
      rewrite stream_read_cons. cbn [mbind result_bind nth].
      rewrite u8_small by lia. rewrite stream_read_app. done.
  - destruct Hok as [Hd [Hb Hl]].
    assert (c_ok ser_mm_tag (depth, root)) as Hok by done.
    destruct (put_total _ Hok) as (blob & Hp & Hblob).
    unfold write_field, append_merge_mining_tag_to_extra, to_binary. rewrite Hp. cbn [mbind result_bind].
    eexists. split_and!; [done| |done|].
    + apply bytes_app. split; [|done]. by repeat constructor.
    + intros fuel rest _. cbn [app parse_loop].
      change (tag_merge_mining =? tag_padding) with false.
      change (tag_merge_mining =? tag_public_key) with false.
      change (tag_merge_mining =? tag_nonce) with false.
      change (tag_merge_mining =? tag_merge_mining) with true. cbn iota.
      rewrite (get_put _ _ _ Hok Hp). done.
Qed.

Lemma write_parse_loop fields extra :
  fields_ok fields → ∃ enc, write_transaction_extra extra fields = Ok (true, extra ++ enc) ∧
    bytes enc ∧ ∀ fuel, (length enc ≤ fuel)%nat → parse_loop fuel enc = (true, fields).
Proof.
  revert extra. induction fields as [|f fields IH]; intros extra Hok; cbn [write_transaction_extra].
  { exists []. rewrite app_nil_r. split_and!; [done|done|]. by intros []. }
  destruct Hok as (Hf & Hpad & Hfs).
  destruct (write_field_spec f extra Hf) as (enc & Hw & Hb & Hne & Hparse).
  rewrite Hw. cbn [mbind result_bind negb].
  destruct (IH (extra ++ enc) Hfs) as (enc' & Hw' & Hb' & Hparse').
  exists (enc ++ enc'). rewrite Hw', app_assoc. split_and!; [done|by apply bytes_app|].
  intros [|fuel] Hl; rewrite length_app in Hl.
  { destruct enc; [done|simpl in Hl; lia]. }
  rewrite Hparse.
  - rewrite Hparse'; [done|]. destruct enc; [done|simpl in Hl; lia].
  - destruct f; try done. subst fields. cbn [write_transaction_extra] in Hw'.
    injection Hw' as Hw'. apply (f_equal (drop (length (extra ++ enc)))) in Hw'.
    rewrite drop_all, drop_app_length in Hw'. done.
Qed.

(** ** Properties *)

(** C20: Extra fields survive: a list of well-formed fields with padding only
    at the end is written, and parsing what was written returns exactly these
    fields. *)
Theorem extra_roundtrip fields :
  fields_ok fields → ∃ extra, write_transaction_extra [] fields = Ok (true, extra) ∧
    parse_transaction_extra extra = (true, fields).
Proof.
  intros Hok. destruct (write_parse_loop fields [] Hok) as (enc & Hw & _ & Hp).
  exists enc. split; [done|]. by apply Hp.
Qed.

Definition sample_fields : list TransactionExtraField :=
  [TransactionExtraPublicKey (replicate 32 5); TransactionExtraNonce [0; 1; 2];
   TransactionExtraMergeMiningTag 3 (replicate 32 200); TransactionExtraPadding 255].

Lemma extra_roundtrip_witness :
  ∃ extra, write_transaction_extra [] sample_fields = Ok (true, extra) ∧
    parse_transaction_extra extra = (true, sample_fields).
Proof.
  apply (extra_roundtrip sample_fields). unfold sample_fields. simpl fields_ok.
  repeat first [done | split | apply Forall_replicate | apply Forall_nil_2 | apply Forall_cons_2].
Defined.

(** A payment id put into the nonce of a transaction is the payment id
    its readers find, next to the transaction's public key. *)
Lemma payment_id_roundtrip key payment_id :
  bytes key → length key = 32%nat → bytes payment_id → length payment_id = 32%nat →
  ∃ extra,
    add_extra_nonce_to_transaction_extra (add_transaction_public_key_to_extra [] key)
      (set_payment_id_to_transaction_extra_nonce payment_id) = (true, extra) ∧
    get_payment_id_from_tx_extra extra = Some payment_id ∧
    get_transaction_public_key_from_extra extra = key.
Proof.
  intros Hkb Hkl Hpb Hpl. set (nonce := set_payment_id_to_transaction_extra_nonce payment_id).
  assert (Z.of_nat (length nonce) = 33) as Hn by (unfold nonce; simpl; lia).
  destruct (write_parse_loop
    [TransactionExtraPublicKey key; TransactionExtraNonce nonce] []) as (enc & Hw & _ & Hp).
  { simpl. repeat split; try done; [by constructor|unfold TX_EXTRA_NONCE_MAX_COUNT; lia]. }
  assert (add_extra_nonce_to_transaction_extra (add_transaction_public_key_to_extra [] key) nonce
          = (true, enc)) as Hadd.
  { simpl in Hw. unfold add_extra_nonce_to_transaction_extra, TX_EXTRA_NONCE_MAX_COUNT in *.
    rewrite Hn in *. simpl in *. by injection Hw as ->. }
  exists enc. split; [done|].
  unfold get_payment_id_from_tx_extra, get_transaction_public_key_from_extra,
    parse_transaction_extra. rewrite Hp by done. simpl.
  unfold get_payment_id_from_transaction_extra_nonce. rewrite Hn. done.
Qed.

Lemma payment_id_roundtrip_witness :
  ∃ extra,
    add_extra_nonce_to_transaction_extra
      (add_transaction_public_key_to_extra [] (replicate 32 1))
      (set_payment_id_to_transaction_extra_nonce (replicate 32 2)) = (true, extra) ∧
    get_payment_id_from_tx_extra extra = Some (replicate 32 2) ∧
    get_transaction_public_key_from_extra extra = replicate 32 1.
Proof.
  apply (payment_id_roundtrip (replicate 32 1) (replicate 32 2)); try done;
    by apply Forall_replicate.
Defined.

End TransactionExtra.
