(* ===== verification/Blocks.v ===== *)
(** * Blocks, their wire format and their hashes

    src/src/CryptoNote.hpp, Core/rpc_api_serialization.cpp (block parts),
    Core/CryptoNoteTools.cpp ([ParentBlockSerializer], the merge-mining header) and
    the hashing functions at the end of Currency.cpp.  The hash functions
    [cn_fast_hash], [cn_slow_hash] and [cn_lite_slow_hash_v1] are parameters. *)

From S2P Require Import Prelude Varint Seria TreeHash CryptoNote TransactionExtra.
Import Streams Codec CryptoNote TransactionExtra.

Local Open Scope Z_scope.

Module Blocks.

Record ParentBlock := {
  pb_major_version : Z;
  pb_minor_version : Z;
  pb_previous_block_hash : Hash;
  transaction_count : Z;
  base_transaction_branch : list Hash;
  pb_base_transaction : TransactionPrefix;
  blockchain_branch : list Hash;
}.

Record BlockHeader := {
  major_version : Z;
  minor_version : Z;
  nonce : Z;
  timestamp : Timestamp;
  previous_block_hash : Hash;
}.

Record BlockTemplate := {
  header : BlockHeader;
  parent_block : ParentBlock;
  base_transaction : Transaction;
  transaction_hashes : list Hash;
}.

Record Block := {
  block_header : BlockTemplate;
  block_transactions : list Transaction;
}.

Definition default_parent_block : ParentBlock := {|
  pb_major_version := 0; pb_minor_version := 0; pb_previous_block_hash := null_hash;
  transaction_count := 0; base_transaction_branch := [];
  pb_base_transaction := default_prefix; blockchain_branch := [];
|}.

Global Instance ParentBlock_eq_dec : EqDecision ParentBlock.
Proof. solve_decision. Defined.
Global Instance BlockHeader_eq_dec : EqDecision BlockHeader.
Proof. solve_decision. Defined.
Global Instance BlockTemplate_eq_dec : EqDecision BlockTemplate.
Proof. solve_decision. Defined.

(** ** The merge-mining parent block *)

(** [transaction_count] travels as a [uint64_t] and is cut to 16 bits when
    read; zero throws in both directions. *)
Definition ser_transaction_count : codec Z := {|
  c_put (v : Z) :=
    bs ← Varint.write_varint v;
    check (negb (u16 v <? 1)) "Wrong transactions number";; Ok bs;
  c_get (s : list Z) :=
    '(v, s) ← Varint.read_varint 64 s;
    check (negb (u16 v <? 1)) "Wrong transactions number";; Ok (u16 v, s);
  c_ok (v : Z) := 1 ≤ v < 2 ^ 16;
|}.

(** The branch of the base transaction has the depth of its tree; the size is
    not written. *)
Definition ser_base_branch (count : Z) : codec (list Hash) :=
  match TreeHash.tree_depth count with
  | Ok depth => c_array (Z.to_nat depth) "Wrong miner transaction branch size" ser_Hash
  | _ => c_throw "Wrong transactions number"
  end.

Definition MAX_BLOCKCHAIN_BRANCH : Z := 8 * 32.

(** The blockchain branch has the depth the merge-mining tag announces. *)
Definition ser_blockchain_branch (t : TransactionPrefix) : codec (list Hash) :=
  match get_merge_mining_tag_from_extra (extra t) with
  | None => c_throw "Can't get extra merge mining tag"
  | Some (depth, _) =>
      if MAX_BLOCKCHAIN_BRANCH <? depth then c_throw "Wrong merge mining tag depth"
      else c_array (Z.to_nat depth)
             "Blockchain branch size must be equal to merge mining tag depth" ser_Hash
  end.

(** [ParentBlockSerializer] with neither [m_hashing_serialization] nor
    [m_header_only]: the parent block with the timestamp and nonce of the
    block that carries it. *)
Definition ser_ParentBlock : codec (ParentBlock * Timestamp * Z) :=
  c_iso
    (λ '(major, (minor, (time, (prev, (nonce, (count, (branch, (base, bbranch)))))))),
       ({| pb_major_version := major; pb_minor_version := minor;
           pb_previous_block_hash := prev; transaction_count := count;
           base_transaction_branch := branch; pb_base_transaction := base;
           blockchain_branch := bbranch |}, time, nonce))
    (λ '(pb, time, nonce),
       (pb_major_version pb, (pb_minor_version pb, (time, (pb_previous_block_hash pb,
         (nonce, (transaction_count pb, (base_transaction_branch pb,
           (pb_base_transaction pb, blockchain_branch pb)))))))))
    (c_seq (c_varint 8) (λ _, c_seq (c_varint 8) (λ _, c_seq (c_varint 32) (λ _,
       c_seq ser_Hash (λ _, c_seq (c_raw_le 4) (λ _,
         c_seq ser_transaction_count (λ count, c_seq (ser_base_branch count) (λ _,
           c_seq ser_BaseTransaction ser_blockchain_branch)))))))).

(** ** Headers and templates *)

(** The part of a header that follows the versions: [(previous, (timestamp,
    nonce))].  From version 2 the timestamp and nonce are the parent's. *)
Definition ser_header_tail (major : Z) : codec (Hash * (Timestamp * Z)) :=
  if major =? 1 then
    c_iso (λ '(t, (p, n)), (p, (t, n))) (λ '(p, (t, n)), (t, (p, n)))
      (c_seq (c_varint 32) (λ _, c_seq ser_Hash (λ _, c_raw_le 4)))
  else if 2 <=? major then c_seq ser_Hash (λ _, c_none (0, 0))
  else c_throw "Wrong major version".

Definition make_header (major minor : Z) (tail : Hash * (Timestamp * Z)) : BlockHeader := {|
  major_version := major; minor_version := minor; nonce := tail.2.2;
  timestamp := tail.2.1; previous_block_hash := tail.1;
|}.

Definition header_tuple (h : BlockHeader) : (Z * Z) * (Hash * (Timestamp * Z)) :=
  ((major_version h, minor_version h), (previous_block_hash h, (timestamp h, nonce h))).

Definition ser_BlockHeader : codec BlockHeader :=
  c_iso (λ '((major, minor), tail), make_header major minor tail) header_tuple
    (c_seq (c_seq (c_varint 8) (λ _, c_varint 8)) (λ '(major, _), ser_header_tail major)).

(** What [ser_BlockHeader] writes does not depend on the fields it skips. *)
Definition put_BlockHeader (h : BlockHeader) : result (list Z) := c_put ser_BlockHeader h.

(** The header and parent block of a template: [(previous, (parent, timestamp, nonce))]. *)
Definition ser_template_tail (major : Z) : codec (Hash * (ParentBlock * Timestamp * Z)) :=
  if major =? 1 then
    c_iso (λ '(t, (p, (n, pb))), (p, (pb, t, n))) (λ '(p, (pb, t, n)), (t, (p, (n, pb))))
      (c_seq (c_varint 32) (λ _, c_seq ser_Hash (λ _, c_seq (c_raw_le 4)
         (λ _, c_none default_parent_block))))
  else if 2 <=? major then c_seq ser_Hash (λ _, ser_ParentBlock)
  else c_throw "Wrong major version".

Definition ser_BlockTemplate : codec BlockTemplate :=
  c_iso
    (λ '((major, minor), ((prev, (pb, time, nonce)), (base, hashes))),
       {| header := make_header major minor (prev, (time, nonce)); parent_block := pb;
          base_transaction := base; transaction_hashes := hashes |})
    (λ b, ((major_version (header b), minor_version (header b)),
           ((previous_block_hash (header b),
             (parent_block b, timestamp (header b), nonce (header b))),
            (base_transaction b, transaction_hashes b))))
    (c_seq (c_seq (c_varint 8) (λ _, c_varint 8)) (λ '(major, _),
       c_seq (ser_template_tail major) (λ _,
         c_seq ser_Transaction (λ _, c_vector ser_Hash)))).

Definition ser_Block : codec Block :=
  c_iso (λ '(h, t), {| block_header := h; block_transactions := t |})
        (λ b, (block_header b, block_transactions b))
        (c_seq ser_BlockTemplate (λ _, c_vector ser_Transaction)).

(** ** Hashes *)

Section hashes.
Context (cn_fast_hash cn_slow_hash cn_lite_slow_hash_v1 : list Z → Hash).

Definition get_object_hash {A} (c : codec A) (object : A) : result Hash :=
  ba ← to_binary c object; Ok (cn_fast_hash ba).

Definition get_transaction_inputs_hash (tx : TransactionPrefix) : result Hash :=
  get_object_hash (c_vector ser_TransactionInput) (inputs tx).
Definition get_transaction_prefix_hash (tx : TransactionPrefix) : result Hash :=
  get_object_hash ser_TransactionPrefix tx.
Definition get_transaction_hash (tx : Transaction) : result Hash :=
  get_object_hash ser_Transaction tx.

(** The constant tail hashed after a version-2 base transaction's prefix. *)
Definition base_transaction_tail : list Z :=
  [0xbc; 0x36; 0x78; 0x9e; 0x7a; 0x1e; 0x28; 0x14; 0x36; 0x46; 0x42; 0x29; 0x82; 0x8f; 0x81;
   0x7d; 0x66; 0x12; 0xf7; 0xb4; 0x77; 0xd6; 0x65; 0x91; 0xff; 0x96; 0xa9; 0xe0; 0x64; 0xbc;
   0xc9; 0x8a] ++ replicate 32 0.

Definition get_base_transaction_hash (tx : TransactionPrefix) : result Hash :=
  if version tx <? 2 then get_object_hash ser_BaseTransaction tx
  else h ← get_object_hash ser_TransactionPrefix tx;
       Ok (cn_fast_hash (h ++ base_transaction_tail)).

(** [ParentBlockSerializer] as an output archive, with both flags. *)
Definition put_ParentBlock (hashing_serialization header_only : bool)
    (pb : ParentBlock) (time nonce : Z) : result (list Z) :=
  a ← c_put (c_varint 8) (pb_major_version pb);
  b ← c_put (c_varint 8) (pb_minor_version pb);
  c ← c_put (c_varint 32) time;
  d ← c_put ser_Hash (pb_previous_block_hash pb);
  e ← c_put (c_raw_le 4) nonce;
  root ←
    (if hashing_serialization then
       miner_tx_hash ← get_base_transaction_hash (pb_base_transaction pb);
       merkle_root ← TreeHash.tree_hash_from_branch cn_fast_hash
         (base_transaction_branch pb) (length (base_transaction_branch pb)) miner_tx_hash None;
       c_put ser_Hash merkle_root
     else Ok []);
  count ← c_put ser_transaction_count (transaction_count pb);
  let head := a ++ b ++ c ++ d ++ e ++ root ++ count in
  if header_only then Ok head else
  f ← c_put (ser_base_branch (transaction_count pb)) (base_transaction_branch pb);
  g ← c_put ser_BaseTransaction (pb_base_transaction pb);
  h ← c_put (ser_blockchain_branch (pb_base_transaction pb)) (blockchain_branch pb);
  Ok (head ++ f ++ g ++ h).

Definition parent_serializer (bh : BlockTemplate) (hashing header_only : bool) :
    result (list Z) :=
  put_ParentBlock hashing header_only (parent_block bh) (timestamp (header bh)) (nonce (header bh)).

Definition get_transaction_tree_hash (bh : BlockTemplate) : result Hash :=
  h ← get_transaction_hash (base_transaction bh);
  TreeHash.tree_hash cn_fast_hash (h :: transaction_hashes bh).

Definition get_block_hashing_binary_array (bh : BlockTemplate) : result BinaryArray :=
  ba ← put_BlockHeader (header bh);
  tree_hash ← get_transaction_tree_hash bh;
  tx_count ← Varint.get_varint_data (Z.of_nat (length (transaction_hashes bh)) + 1);
  Ok (ba ++ tree_hash ++ tx_count).

(** The hashing blob is itself hashed as a serialized byte array. *)
Definition get_block_hash (bh : BlockTemplate) : result Hash :=
  ba2 ← get_block_hashing_binary_array bh;
  ba2 ← (if 2 <=? major_version (header bh)
         then parent_ba2 ← parent_serializer bh true false; Ok (ba2 ++ parent_ba2)
         else Ok ba2);
  get_object_hash c_bytes ba2.

Definition get_auxiliary_block_header_hash (bh : BlockTemplate) : result Hash :=
  ba ← get_block_hashing_binary_array bh; get_object_hash c_bytes ba.

Definition get_block_long_hash (bh : BlockTemplate) : result Hash :=
  let v := major_version (header bh) in
  if v =? 1 then
    raw_hashing_block ← get_block_hashing_binary_array bh; Ok (cn_slow_hash raw_hashing_block)
  else if (2 <=? v) && (v <? 4) then
    raw_hashing_block ← parent_serializer bh true true; Ok (cn_slow_hash raw_hashing_block)
  else if 4 <=? v then
    raw_hashing_block ← parent_serializer bh true true;
    Ok (cn_lite_slow_hash_v1 raw_hashing_block)
  else Throw "Unknown block major version.".

(** [fix_merge_mining_tag]: a solo miner's own merge-mining tag. *)
Definition fix_merge_mining_tag (block : BlockTemplate) : result BlockTemplate :=
  if 2 <=? major_version (header block) then
    let pb := parent_block block in
    let tx := pb_base_transaction pb in
    let with_extra e := {|
      header := header block;
      parent_block := {|
        pb_major_version := pb_major_version pb; pb_minor_version := pb_minor_version pb;
        pb_previous_block_hash := pb_previous_block_hash pb;
        transaction_count := transaction_count pb;
        base_transaction_branch := base_transaction_branch pb;
        pb_base_transaction := {|
          version := version tx; unlock_time := unlock_time tx; inputs := inputs tx;
          outputs := outputs tx; extra := e |};
        blockchain_branch := blockchain_branch pb |};
      base_transaction := base_transaction block;
      transaction_hashes := transaction_hashes block |} in
    merkle_root ← get_auxiliary_block_header_hash (with_extra []);
    extra ← append_merge_mining_tag_to_extra [] 0 merkle_root;
    Ok (with_extra extra)
  else Ok block.
End hashes.

(** ** Laws *)

Global Instance ser_transaction_count_laws : CodecLaws ser_transaction_count.
Proof.
  split.
  - intros v Hv. simpl in *. destruct (Varint.write_varint_total v) as (bs & Hw & Hb & _).
    { unfold in_u. lia. }
    rewrite Hw. simpl. rewrite u16_small by lia. replace (v <? 1) with false by lia. simpl. eauto.
  - intros v bs rest Hv Hp. simpl in *. inv_ok Hp. injection Hp as ->.
    erewrite Varint.read_write_varint; [|done| |done]; [|unfold in_u; lia].
    cbn [mbind result_bind]. rewrite u16_small in Ha0 |- * by lia. by rewrite Ha0.
Qed.

Global Instance ser_transaction_count_safe : CodecSafe ser_transaction_count.
Proof.
  split.
  - intros s w _. simpl. apply bind_defined; [intros; apply Varint.read_varint_defined|].
    intros [v s'] _. unfold check. by case_match.
  - intros s v rest Hg. simpl in Hg. inv_ok Hg. destruct a as [v' s']. inv_ok Hg.
    injection Hg as _ <-. apply Varint.read_varint_suffix in Ha as (u & -> & _). eauto.
Qed.

Global Instance ser_base_branch_laws count : CodecLaws (ser_base_branch count).
Proof. unfold ser_base_branch. case_match; apply _. Qed.
Global Instance ser_base_branch_safe count : CodecSafe (ser_base_branch count).
Proof. unfold ser_base_branch. case_match; apply _. Qed.

Global Instance ser_blockchain_branch_laws t : CodecLaws (ser_blockchain_branch t).
Proof. unfold ser_blockchain_branch. repeat case_match; apply _. Qed.
Global Instance ser_blockchain_branch_safe t : CodecSafe (ser_blockchain_branch t).
Proof. unfold ser_blockchain_branch. repeat case_match; apply _. Qed.

Global Instance ser_ParentBlock_laws : CodecLaws ser_ParentBlock.
Proof. apply c_iso_laws; [|apply _]. by intros [[[] ?] ?]. Qed.
Global Instance ser_ParentBlock_safe : CodecSafe ser_ParentBlock.
Proof. unfold ser_ParentBlock. apply _. Qed.

Global Instance ser_header_tail_laws major : CodecLaws (ser_header_tail major).
Proof. unfold ser_header_tail. repeat case_match; apply _. Qed.
Global Instance ser_header_tail_canonical major : CodecCanonical (ser_header_tail major).
Proof. unfold ser_header_tail. repeat case_match; apply _. Qed.
Global Instance ser_header_tail_safe major : CodecSafe (ser_header_tail major).
Proof. unfold ser_header_tail. repeat case_match; apply _. Qed.

Global Instance ser_BlockHeader_laws : CodecLaws ser_BlockHeader.
Proof. apply c_iso_laws; [by intros []|]. apply c_seq_laws; [apply _|]. intros []. apply _. Qed.
Global Instance ser_BlockHeader_canonical : CodecCanonical ser_BlockHeader.
Proof.
  apply c_iso_canonical; [by intros [[] [? []]]|].
  apply c_seq_canonical; [apply _..|]. intros []. apply _.
Qed.
Global Instance ser_BlockHeader_safe : CodecSafe ser_BlockHeader.
Proof. apply c_iso_safe, c_seq_safe; [apply _|]. intros []. apply _. Qed.

Global Instance ser_template_tail_laws major : CodecLaws (ser_template_tail major).
Proof.
  unfold ser_template_tail. repeat case_match; try apply _.
Qed.
Global Instance ser_template_tail_safe major : CodecSafe (ser_template_tail major).
Proof. unfold ser_template_tail. repeat case_match; apply _. Qed.

Global Instance ser_BlockTemplate_laws : CodecLaws ser_BlockTemplate.
Proof. apply c_iso_laws; [by intros [[]]|]. apply c_seq_laws; [apply _|]. intros []. apply _. Qed.
Global Instance ser_BlockTemplate_safe : CodecSafe ser_BlockTemplate.
Proof. apply c_iso_safe, c_seq_safe; [apply _|]. intros []. apply _. Qed.

Global Instance ser_Block_laws : CodecLaws ser_Block.
Proof. unfold ser_Block. apply _. Qed.
Global Instance ser_Block_safe : CodecSafe ser_Block.
Proof. unfold ser_Block. apply _. Qed.

(** ** Properties *)

(** A well-formed template: widths, branch depths, and no parent block data
    where the version has no parent block. *)
Definition template_ok (b : BlockTemplate) : Prop := c_ok ser_BlockTemplate b.

(** Block templates of every version survive the wire, merge-mining parent
    block included. *)
Lemma template_roundtrip b :
  template_ok b →
  ∃ blob, to_binary ser_BlockTemplate b = Ok blob ∧ from_binary ser_BlockTemplate blob = Ok b.
Proof. intros Hb. destruct (from_to_binary _ b Hb) as (bs & ? & _ & ?). eauto. Qed.

Definition sample_coinbase : Transaction := {|
  tx_prefix := {| version := 1; unlock_time := 70; inputs := [CoinbaseInput 10];
    outputs := [{| out_amount := 5; out_target := KeyOutput (replicate 32 3) |}];
    extra := 1 :: replicate 32 4 |};
  signatures := [] |}.

Definition sample_template : BlockTemplate := {|
  header := {| major_version := 2; minor_version := 0; nonce := 77; timestamp := 1500000000;
               previous_block_hash := replicate 32 2 |};
  parent_block := {|
    pb_major_version := 1; pb_minor_version := 0; pb_previous_block_hash := replicate 32 1;
    transaction_count := 3; base_transaction_branch := [replicate 32 9];
    pb_base_transaction := {| version := 2; unlock_time := 0; inputs := [CoinbaseInput 10];
      outputs := []; extra := 3 :: 33 :: 1 :: replicate 32 6 |};
    blockchain_branch := [replicate 32 8] |};
  base_transaction := sample_coinbase;
  transaction_hashes := [replicate 32 7] |}.

Lemma sample_template_ok : template_ok sample_template.
Proof.
  unfold template_ok. simpl. unfold ser_blockchain_branch.
  change (get_merge_mining_tag_from_extra _) with (Some (1, replicate 32 6)).
  simpl. repeat first [done | split | apply Forall_replicate | apply Forall_nil_2 | apply Forall_cons_2
               | apply Forall2_nil_2].
Qed.

Lemma template_roundtrip_witness :
  ∃ blob, to_binary ser_BlockTemplate sample_template = Ok blob ∧
          from_binary ser_BlockTemplate blob = Ok sample_template.
Proof. apply (template_roundtrip sample_template). exact sample_template_ok. Defined.

(** Parsing hostile bytes as a block with its transactions is safe: the
    forged sizes, counts, tags and depths in it can only make it throw. *)
Lemma block_parse_safe blob w : bytes blob → from_binary ser_Block blob ≠ Undefined w.
Proof. apply from_binary_defined. apply _. Qed.

Lemma block_parse_safe_witness : from_binary ser_Block [2; 0; 255; 255] ≠ Undefined "".
Proof. apply (block_parse_safe [2; 0; 255; 255] ""). by repeat constructor. Defined.

End Blocks.
