(* ===== verification/Currency.v ===== *)
(** * Consensus parameters and rules (src/src/Core/Currency.cpp, Currency.hpp, src/src/CryptoNoteConfig.hpp)

    Emission and block rewards, size limits, unlock times, the genesis block,
    checkpoints, addresses and the proof-of-work checks.  The two difficulty
    algorithms are in Difficulty.v. *)

From S2P Require Import Prelude Varint Words Seria TreeHash Text CryptoNote Amounts TransactionExtra Blocks.
Import Codec CryptoNote Amounts TransactionExtra Blocks.

Local Open Scope Z_scope.

Module Currency.

(** ** Parameters *)

Definition DIFFICULTY_SCATTER_V2 : Z := 32.
Definition HARDFORK_V2_HEIGHT : Height := 7080.
Definition CRYPTONOTE_BLOCK_GRANTED_FULL_REWARD_ZONE_V2 : Z := 20000.
Definition CRYPTONOTE_BLOCK_GRANTED_FULL_REWARD_ZONE_V1 : Z := 10000.

(** [CHECKPOINTS] of CryptoNoteConfig.hpp: height and hexadecimal hash. *)
Definition CHECKPOINTS : list (Height * list Z) := [].

Record Currency := {
  is_testnet : bool;
  genesis_block_template : BlockTemplate;
  genesis_block_hash : Hash;
  checkpoints : list (Height * list Z);
  max_block_height : Height;
  max_block_blob_size : Z;
  max_tx_size : Z;
  public_address_base58_prefix : Z;
  mined_money_unlock_window : Height;
  timestamp_check_window : Height;
  block_future_time_limit : Timestamp;
  money_supply : Amount;
  emission_speed_factor : Z;
  reward_blocks_window : Height;
  block_granted_full_reward_zone : Z;
  miner_tx_blob_reserved_size : Z;
  number_of_decimal_places : nat;
  minimum_fee : Amount;
  default_dust_threshold : Amount;
  difficulty_target : Timestamp;
  difficulty_window : Height;
  difficulty_lag : Height;
  difficulty_cut : Z;
  max_block_size_initial : Z;
  max_block_size_growth_speed_numerator : Z;
  max_block_size_growth_speed_denominator : Z;
  locked_tx_allowed_delta_seconds : Timestamp;
  locked_tx_allowed_delta_blocks : Height;
  upgrade_height_v2 : Height;
  upgrade_height_v3 : Height;
  upgrade_height_v4 : Height;
  current_transaction_version : Z;
  hardfork_v1_height : Height;
  hardfork_v2_height : Height;
  hardfork_v3_height : Height;
  timestamp_check_window_v2 : Height;
  block_future_time_limit_v2 : Timestamp;
  difficulty_window_v2 : Height;
  difficulty_blocks_count_v2 : Height;
}.

Definition EXPECTED_NUMBER_OF_BLOCKS_PER_DAY (difficulty_target : Z) : Z :=
  24 * 60 * 60 / difficulty_target.
Definition DIFFICULTY_WINDOW (difficulty_target : Z) : Z :=
  EXPECTED_NUMBER_OF_BLOCKS_PER_DAY difficulty_target.
Definition MAX_BLOCK_SIZE_GROWTH_SPEED_DENOMINATOR (difficulty_target : Z) : Z :=
  365 * 24 * 60 * 60 / difficulty_target.
Definition CRYPTONOTE_LOCKED_TX_ALLOWED_DELTA_SECONDS (difficulty_target : Z) : Z :=
  difficulty_target * 1.

(** ** The genesis block *)

Definition genesis_coinbase_tx_hex : list Z := chars
  "010a01ff0001ffffffffffff3f029b2e4c0281c0b02e7c53291a94d1d0cbff8883f8024f5142ee494ffbbd088071210152bfaef5e5681a5d7eaeaca878d53ed2a80445e4f6adc5550fc4b4b0e69b765a".

Definition make_genesis (is_testnet : bool) : result BlockTemplate :=
  miner_tx_blob ← of_option (Hex.from_hex genesis_coinbase_tx_hex)
    (Throw "Currency failed to parse coinbase tx from hard coded blob");
  base ← from_binary ser_Transaction miner_tx_blob;
  Ok {|
    header := {| major_version := 1; minor_version := 0; timestamp := 0;
                 nonce := if is_testnet then 71 else 70; previous_block_hash := null_hash |};
    parent_block := default_parent_block;
    base_transaction := base;
    transaction_hashes := [];
  |}.

(** The constructor.  On the test network a block is due every second and only
    version 2 follows the genesis block. *)
Definition make_Currency (cn_fast_hash : list Z → Hash) (is_testnet : bool) : result Currency :=
  let difficulty_target := if is_testnet then 1 else 60 in
  genesis ← make_genesis is_testnet;
  hash ← get_block_hash cn_fast_hash genesis;
  Ok {|
    is_testnet := is_testnet;
    genesis_block_template := genesis;
    genesis_block_hash := hash;
    checkpoints := CHECKPOINTS;
    max_block_height := 500000000;
    max_block_blob_size := 500000000;
    max_tx_size := 1000000000;
    public_address_base58_prefix := 126;
    mined_money_unlock_window := 10;
    timestamp_check_window := 60;
    block_future_time_limit := 60 * 60 * 2;
    money_supply := UINT64_MAX;
    emission_speed_factor := 16;
    reward_blocks_window := 100;
    block_granted_full_reward_zone := 100000;
    miner_tx_blob_reserved_size := 600;
    number_of_decimal_places := 10;
    minimum_fee := 1000000;
    default_dust_threshold := 1000000;
    difficulty_target := difficulty_target;
    difficulty_window := DIFFICULTY_WINDOW difficulty_target;
    difficulty_lag := 15;
    difficulty_cut := 60;
    max_block_size_initial := 20 * 1024;
    max_block_size_growth_speed_numerator := 100 * 1024;
    max_block_size_growth_speed_denominator :=
      MAX_BLOCK_SIZE_GROWTH_SPEED_DENOMINATOR difficulty_target;
    locked_tx_allowed_delta_seconds :=
      CRYPTONOTE_LOCKED_TX_ALLOWED_DELTA_SECONDS difficulty_target;
    locked_tx_allowed_delta_blocks := 1;
    upgrade_height_v2 := if is_testnet then 0 else 1;
    upgrade_height_v3 := if is_testnet then UINT32_MAX else 2;
    upgrade_height_v4 := HARDFORK_V2_HEIGHT;
    current_transaction_version := 1;
    hardfork_v1_height := 7070;
    hardfork_v2_height := HARDFORK_V2_HEIGHT;
    hardfork_v3_height := 4294967294;
    timestamp_check_window_v2 := 11;
    block_future_time_limit_v2 := 60 * 3;
    difficulty_window_v2 := 60;
    difficulty_blocks_count_v2 := 60 + 1;
  |}.

Section currency.
Context (cn_fast_hash : list Z → Hash) (currency : Currency).

(** ** Checkpoints *)

Definition sw_checkpoint_count : nat :=
  if is_testnet currency then 1 else length (checkpoints currency).

Definition is_in_sw_checkpoint_zone (index : Height) : result bool :=
  if is_testnet currency then Ok (index =? 0) else
  match sw_checkpoint_count with
  | O => Undefined "CHECKPOINTS[-1]"
  | S n =>
      '(height, _) ← of_option (checkpoints currency !! n) (Undefined "CHECKPOINTS out of range");
      Ok (index <=? height)
  end.

(** [check_sw_checkpoint]: the result and [is_sw_checkpoint]. *)
Definition check_sw_checkpoint (index : Height) (h : Hash) : bool * bool :=
  if is_testnet currency || (index =? 0) then
    (if index =? 0 then bool_decide (h = genesis_block_hash currency) else true, index =? 0)
  else
    match List.find (λ '(height, _), index <=? height) (checkpoints currency) with
    | None => (true, false)
    | Some (height, hash) =>
        if negb (height =? index) then (true, false)
        else (bool_decide (Hex.to_hex h = hash), true)
    end.

Definition last_sw_checkpoint : Height * Hash :=
  if is_testnet currency || (sw_checkpoint_count =? 0)%nat then (0, genesis_block_hash currency)
  else match last (checkpoints currency) with
       | Some (height, hash) => (height, default null_hash (Hex.pod_from_hex 32 hash))
       | None => (0, genesis_block_hash currency)
       end.

(** ** Block versions, rewards and sizes *)

Definition get_block_major_version_for_height (height : Height) : Z :=
  if height <=? upgrade_height_v2 currency then 1
  else if (upgrade_height_v2 currency <? height) && (height <=? upgrade_height_v3 currency) then 2
  else if (upgrade_height_v3 currency <? height) && (height <=? upgrade_height_v4 currency) then 3
  else 4.

Definition block_granted_full_reward_zone_by_block_version (block_major_version : Z) : Z :=
  if 3 <=? block_major_version then block_granted_full_reward_zone currency
  else if block_major_version =? 2 then CRYPTONOTE_BLOCK_GRANTED_FULL_REWARD_ZONE_V2
  else CRYPTONOTE_BLOCK_GRANTED_FULL_REWARD_ZONE_V1.

Definition calc_base_reward (block_major_version : Z) (already_generated_coins : Amount) : Amount :=
  let base_reward :=
    Z.shiftr (u64 (money_supply currency - already_generated_coins)) (emission_speed_factor currency) in
  if (4 <=? block_major_version) && (DIFFICULTY_SCATTER_V2 <=? base_reward)
  then base_reward / DIFFICULTY_SCATTER_V2 else base_reward.

(** [amount * (current * (2 * median - current)) / median^2] on 128 bits. *)
Definition get_penalized_amount (amount median_size current_block_size : Z) : result Z :=
  if negb (current_block_size <=? u64 (2 * median_size)) then
    Undefined "assert(current_block_size <= 2 * median_size)"
  else if negb (median_size <=? UINT32_MAX) then Undefined "assert(median_size <= UINT32_MAX)"
  else if negb (current_block_size <=? UINT32_MAX) then
    Undefined "assert(current_block_size <= UINT32_MAX)"
  else if amount =? 0 then Ok 0
  else if current_block_size <=? median_size then Ok amount
  else
    let '(product_lo, product_hi) :=
      Words.mul128 amount
        (u64 (current_block_size * u64 (2 * median_size - current_block_size))) in
    '(hi, lo, _) ← Words.div128_32 product_hi product_lo (u32 median_size);
    '(hi, lo, _) ← Words.div128_32 hi lo (u32 median_size);
    if negb (0 =? hi) then Undefined "assert(0 == penalized_amount_hi)"
    else if negb (lo <? amount) then Undefined "assert(penalized_amount_lo < amount)"
    else Ok lo.

(** [get_block_reward]: the reward and the change of the emission. *)
Definition get_block_reward (block_major_version effective_median_size current_block_size : Z)
    (already_generated_coins fee : Amount) : result (Amount * Z) :=
  if negb (already_generated_coins <=? money_supply currency) then
    Undefined "assert(already_generated_coins <= money_supply)"
  else if negb ((0 <? emission_speed_factor currency) && (emission_speed_factor currency <=? 64)) then
    Undefined "assert(emission_speed_factor)"
  else
    let base_reward := calc_base_reward block_major_version already_generated_coins in
    penalized_base_reward ←
      get_penalized_amount base_reward effective_median_size current_block_size;
    penalized_fee ←
      (if 2 <=? block_major_version
       then get_penalized_amount fee effective_median_size current_block_size else Ok fee);
    Ok (u64 (penalized_base_reward + penalized_fee),
        i64 (penalized_base_reward - (fee - penalized_fee))).

Definition max_block_cumulative_size (height : Height) : result Z :=
  if negb (height <=? UINT64_MAX / max_block_size_growth_speed_numerator currency) then
    Undefined "assert(height <= max / numerator)"
  else
    let max_size :=
      u64 (max_block_size_initial currency +
           u64 (height * max_block_size_growth_speed_numerator currency) /
           max_block_size_growth_speed_denominator currency) in
    if negb (max_block_size_initial currency <=? max_size) then
      Undefined "assert(max_size >= max_block_size_initial)"
    else Ok (u32 max_size).

Definition max_transaction_allowed_size (effective_block_size_median : Z) : result Z :=
  if negb (miner_tx_blob_reserved_size currency <? u32 (effective_block_size_median * 2)) then
    Undefined "assert(effective_block_size_median * 2 > miner_tx_blob_reserved_size)"
  else
    Ok (Z.min (max_tx_size currency)
          (u32 (effective_block_size_median * 2 - miner_tx_blob_reserved_size currency))).

(** ** The miner's transaction *)

(** [while (out_amounts.size() > max_outs)]: the last two amounts are merged;
    the list is kept in reverse. *)
Fixpoint merge_outs (fuel : nat) (max_outs : Z) (rev_amounts : list Amount) : list Amount :=
  match fuel, rev_amounts with
  | S fuel, back :: prev :: rest =>
      if max_outs <? Z.of_nat (length rev_amounts)
      then merge_outs fuel max_outs (u64 (prev + back) :: rest) else rev_amounts
  | _, _ => rev_amounts
  end.

Definition miner_out_amounts (block_reward : Amount) (max_outs : Z) : result (list Amount) :=
  out_amounts ← decompose_amount block_reward (default_dust_threshold currency);
  let max_outs := if max_outs =? 0 then 1 else max_outs in
  Ok (rev (merge_outs (length out_amounts) max_outs (rev out_amounts))).

Section miner.
Context (generate_key_derivation : PublicKey → list Z → option (list Z)).
Context (derive_public_key : list Z → nat → PublicKey → option PublicKey).

(** The loop over the amounts: the outputs, or [None] on a derivation failure. *)
Fixpoint miner_outputs (miner_address : AccountPublicAddress) (secret_key : list Z) (no : nat)
    (out_amounts : list Amount) : option (list TransactionOutput) :=
  match out_amounts with
  | [] => Some []
  | amount :: out_amounts =>
      derivation ← generate_key_derivation (view_public_key miner_address) secret_key;
      key ← derive_public_key derivation no (spend_public_key miner_address);
      rest ← miner_outputs miner_address secret_key (S no) out_amounts;
      Some ({| out_amount := amount; out_target := KeyOutput key |} :: rest)
  end.

(** [construct_miner_tx] with the random key pair [txkey] as an argument. *)
Definition construct_miner_tx (txkey_public txkey_secret : list Z) (block_major_version : Z)
    (height : Height) (effective_median_size : Z) (already_generated_coins : Amount)
    (current_block_size : Z) (fee : Amount) (miner_address : AccountPublicAddress)
    (extra_nonce : BinaryArray) (max_outs : Z) : result (option Transaction) :=
  let extra := add_transaction_public_key_to_extra [] txkey_public in
  let '(nonce_ok, extra) :=
    if bool_decide (extra_nonce = []) then (true, extra)
    else add_extra_nonce_to_transaction_extra extra extra_nonce in
  if negb nonce_ok then Ok None else
  '(block_reward, _) ← get_block_reward block_major_version effective_median_size
     current_block_size already_generated_coins fee;
  out_amounts ← miner_out_amounts block_reward max_outs;
  match miner_outputs miner_address txkey_secret 0 out_amounts with
  | None => Ok None
  | Some outs =>
      if negb (foldl (λ s o, u64 (s + out_amount o)) 0 outs =? block_reward) then Ok None
      else Ok (Some {|
        tx_prefix := {|
          version := current_transaction_version currency;
          unlock_time := u32 (height + mined_money_unlock_window currency);
          inputs := [CoinbaseInput height]; outputs := outs; extra := extra |};
        signatures := [] |})
  end.
End miner.

(** ** Addresses *)

Definition get_account_address_as_str (prefix : Z) (adr : AccountPublicAddress) : result (list Z) :=
  ba ← to_binary ser_AccountPublicAddress adr;
  Base58.encode_addr cn_fast_hash prefix ba.

(** The static [parse_account_address_string]: prefix and address. *)
Definition parse_account_address_with_prefix (key_isvalid : PublicKey → bool) (str : list Z) :
    result (option (Z * AccountPublicAddress)) :=
  r ← Base58.decode_addr cn_fast_hash str;
  match r with
  | None => Ok None
  | Some (prefix, data) =>
      match from_binary ser_AccountPublicAddress data with
      | Ok adr =>
          if key_isvalid (spend_public_key adr) && key_isvalid (view_public_key adr)
          then Ok (Some (prefix, adr)) else Ok None
      | Throw _ => Ok None
      | Undefined w => Undefined w
      end
  end.

Definition account_address_as_string (adr : AccountPublicAddress) : result (list Z) :=
  get_account_address_as_str (public_address_base58_prefix currency) adr.

Definition parse_account_address_string (key_isvalid : PublicKey → bool) (str : list Z) :
    result (option AccountPublicAddress) :=
  r ← parse_account_address_with_prefix key_isvalid str;
  Ok (match r with
      | Some (prefix, adr) =>
          if negb (prefix =? public_address_base58_prefix currency) then None else Some adr
      | None => None
      end).

(** ** Proof of work *)

Definition check_proof_of_work_v1 (long_block_hash : Hash) (block : BlockTemplate)
    (current_difficulty : Difficulty) : bool :=
  if negb (major_version (header block) =? 1) then false
  else Words.check_hash long_block_hash current_difficulty.

Definition check_proof_of_work_v2 (long_block_hash : Hash) (block : BlockTemplate)
    (current_difficulty : Difficulty) : result bool :=
  if major_version (header block) <? 2 then Ok false else
  let pb := parent_block block in
  match get_merge_mining_tag_from_extra (extra (pb_base_transaction pb)) with
  | None => Ok false
  | Some (_, merkle_root) =>
      if 8 * 32 <? Z.of_nat (length (blockchain_branch pb)) then Ok false else
      aux ← get_auxiliary_block_header_hash cn_fast_hash block;
      aux_blocks_merkle_root ←
        TreeHash.tree_hash_from_branch cn_fast_hash (blockchain_branch pb)
          (length (blockchain_branch pb)) aux (Some (genesis_block_hash currency));
      if negb (bool_decide (aux_blocks_merkle_root = merkle_root)) then Ok false
      else Ok (Words.check_hash long_block_hash current_difficulty)
  end.

Definition check_proof_of_work (long_block_hash : Hash) (block : BlockTemplate)
    (current_difficulty : Difficulty) : result bool :=
  let v := major_version (header block) in
  if v =? 1 then Ok (check_proof_of_work_v1 long_block_hash block current_difficulty)
  else if (v =? 2) || (v =? 3) || (v =? 4) then
    check_proof_of_work_v2 long_block_hash block current_difficulty
  else Ok false.

(** ** Unlock times and windows *)

Definition is_transaction_spend_time (unlock_time : Z) : bool :=
  max_block_height currency <=? unlock_time.
Definition is_transaction_spend_time_block (unlock_time : Z) : bool :=
  unlock_time <? max_block_height currency.

Definition is_transaction_spend_time_unlocked (unlock_time : Z) (block_index : Height)
    (block_time : Timestamp) : bool :=
  if unlock_time <? max_block_height currency
  then unlock_time <=? u32 (block_index + locked_tx_allowed_delta_blocks currency)
  else unlock_time <=? u32 (block_time + locked_tx_allowed_delta_seconds currency).

Definition get_timestamp_check_window (height : Height) : Height :=
  if hardfork_v2_height currency <=? height then timestamp_check_window_v2 currency
  else timestamp_check_window currency.

Definition get_block_future_time_limit (height : Height) : Timestamp :=
  if hardfork_v2_height currency <=? height then block_future_time_limit_v2 currency
  else block_future_time_limit currency.

Definition difficulty_blocks_count : Height :=
  u32 (difficulty_window currency + difficulty_lag currency).

Definition get_difficulty_blocks_count (height : Height) : Height :=
  if height <=? hardfork_v2_height currency then difficulty_blocks_count
  else difficulty_blocks_count_v2 currency.

Definition expected_blocks_per_day : Z := 24 * 60 * 60 / difficulty_target currency.
Definition coin : result Amount := decimal_place (number_of_decimal_places currency).

End currency.

(** ** Penalties *)

Lemma penalty_square m c : c * (2 * m - c) = m * m - (c - m) * (c - m).
Proof. ring. Qed.

Lemma mul_lt_cancel a b c : 0 < c → a * c < b * c → a < b.
Proof. intros. by apply (Z.mul_lt_mono_pos_r c). Qed.

Lemma rem_square m r r' : 0 ≤ r < m → 0 ≤ r' < m → 0 ≤ r' * m + r < m * m.
Proof. nia. Qed.

Lemma quot_below a k q s r : a * k = q * s + r → k < s → 0 < a → 0 ≤ k → 0 ≤ r → q < a.
Proof. intros. apply (mul_lt_cancel _ _ s); [lia|]. nia. Qed.

Lemma penalized_spec amount median current :
  in_u 64 amount → 0 ≤ median ≤ UINT32_MAX → 0 ≤ current ≤ UINT32_MAX → current ≤ 2 * median →
  get_penalized_amount amount median current =
  Ok (if current <=? median then amount else amount * (current * (2 * median - current)) / (median * median)).
Proof.
  intros Ha Hm Hc H2. unfold get_penalized_amount. unfold UINT32_MAX in *.
  rewrite (u64_small (2 * median)) by lia.
  replace (current <=? 2 * median) with true by lia.
  replace (median <=? _) with true by lia. replace (current <=? 2 ^ 32 - 1) with true by lia.
  cbn [negb]. destruct (Z.eqb_spec amount 0) as [->|Hne].
  { rewrite Z.mul_0_l, Zdiv_0_l. by destruct (_ <=? _). }
  destruct (Z.leb_spec current median) as [|Hgt]; [done|].
  rewrite (u64_small (2 * median - current)) by lia.
  pose proof (penalty_square median current) as Hsq.
  assert (0 ≤ current * (2 * median - current)) by nia.
  assert (0 < (current - median) * (current - median)) by nia.
  assert (median * median ≤ (2 ^ 32 - 1) * (2 ^ 32 - 1)) by nia.
  set (k := current * (2 * median - current)) in *.
  rewrite (u64_small k) by lia.
  destruct (Words.mul128 amount k) as [lo hi] eqn:Emul.
  destruct (Words.mul128_spec amount k lo hi Ha ltac:(unfold in_u; lia) Emul) as (Hp & Hlo & Hhi).
  rewrite u32_small by lia.
  destruct (Words.div128_32_total hi lo median) as [[[qh ql] r] Hd]; [lia|].
  rewrite Hd. cbn [mbind result_bind].
  destruct (Words.div128_32_spec hi lo median qh ql r) as (Hq & Hr & Hql & Hqh); [done..|unfold in_u; lia|done|].
  destruct (Words.div128_32_total qh ql median) as [[[qh' ql'] r'] Hd']; [lia|].
  rewrite Hd'. cbn [mbind result_bind].
  destruct (Words.div128_32_spec qh ql median qh' ql' r') as (Hq' & Hr' & Hql' & Hqh');
    [done..|unfold in_u; lia|done|].
  set (Q := ql + qh * 2 ^ 64) in *. set (Q' := ql' + qh' * 2 ^ 64) in *.
  assert (amount * k = Q' * (median * median) + (r' * median + r)) as Htot
    by (rewrite Hp, Hq, Hq'; ring).
  pose proof (rem_square median r r' Hr Hr') as Hrem.
  assert (amount * k / (median * median) = Q') as ->
    by (symmetry; apply (Z.div_unique _ _ _ (r' * median + r)); lia).
  assert (Q' < amount) as Hlt.
  { unfold in_u in Ha. apply (quot_below amount k Q' (median * median) (r' * median + r)); lia. }
  assert (qh' = 0) as -> by (unfold Q', in_u in *; lia).
  replace (ql' <? amount) with true by (unfold Q' in Hlt; lia).
  cbn. unfold Q'. f_equal. lia.
Qed.

(** What is left of an amount for a block of size [current]. *)
Definition penalized (amount median current : Z) : Z :=
  if current <=? median then amount else amount * (current * (2 * median - current)) / (median * median).

Lemma penalized_bounds amount median current r :
  in_u 64 amount → 0 ≤ median ≤ UINT32_MAX → 0 ≤ current ≤ UINT32_MAX → current ≤ 2 * median →
  get_penalized_amount amount median current = Ok r → 0 ≤ r ≤ amount.
Proof.
  intros Ha Hm Hc H2. rewrite penalized_spec by done. intros [= <-]. unfold in_u in Ha.
  destruct (Z.leb_spec current median); [lia|].
  assert (0 ≤ current * (2 * median - current) ≤ median * median) as Hk.
  { rewrite penalty_square. split; [|nia]. nia. }
  split; [apply Z.div_pos; nia|]. apply Z.div_le_upper_bound; nia.
Qed.

(** ** Rewards *)

(** The reward of a block of normal size without fees. *)
Definition base_reward_at (c : Currency) (v agc : Z) : Z :=
  let share := (money_supply c - agc) / 2 ^ emission_speed_factor c in
  if (4 <=? v) && (DIFFICULTY_SCATTER_V2 <=? share) then share / DIFFICULTY_SCATTER_V2 else share.

Lemma calc_base_reward_at c v agc : in_u 64 (money_supply c) → 0 < emission_speed_factor c → 0 ≤ agc ≤ money_supply c →
  calc_base_reward c v agc = base_reward_at c v agc.
Proof.
  intros Hs He Ha. unfold in_u in Hs. unfold calc_base_reward, base_reward_at.
  by rewrite u64_small, Z.shiftr_div_pow2 by lia.
Qed.

Lemma calc_base_reward_bound c v agc :
  in_u 64 (money_supply c) → 0 < emission_speed_factor c → 0 ≤ agc ≤ money_supply c →
  0 ≤ calc_base_reward c v agc ≤ money_supply c - agc.
Proof.
  intros Hs He Ha. unfold in_u in Hs. unfold calc_base_reward, DIFFICULTY_SCATTER_V2.
  rewrite u64_small by lia. rewrite Z.shiftr_div_pow2 by lia.
  set (d := money_supply c - agc) in *.
  assert (2 ≤ 2 ^ emission_speed_factor c) by (apply (Z.pow_le_mono_r 2 1); lia).
  assert (0 ≤ d / 2 ^ emission_speed_factor c ≤ d) by
    (split; [apply Z.div_pos; lia|apply Z.div_le_upper_bound; nia]).
  destruct (_ && _); [|lia]. split; [apply Z.div_pos; lia|]. apply Z.div_le_upper_bound; lia.
Qed.

(** The parameters a currency object is built with. *)
Definition params_ok (c : Currency) : Prop :=
  in_u 64 (money_supply c) ∧ 0 < emission_speed_factor c ≤ 64.

(** What the caller of [get_block_reward] guarantees about block sizes. *)
Definition sizes_ok (median current : Z) : Prop :=
  0 ≤ median ≤ UINT32_MAX ∧ 0 ≤ current ≤ UINT32_MAX ∧ current ≤ 2 * median.

Lemma get_block_reward_spec c v median current agc fee :
  params_ok c → sizes_ok median current → 0 ≤ agc ≤ money_supply c →
  0 ≤ fee < 2 ^ 63 →
  ∃ base pfee,
    base = penalized (calc_base_reward c v agc) median current ∧
    pfee = (if 2 <=? v then penalized fee median current else fee) ∧
    0 ≤ base ≤ calc_base_reward c v agc ∧ 0 ≤ pfee ≤ fee ∧
    get_block_reward c v median current agc fee =
      Ok (u64 (base + pfee), i64 (base - (fee - pfee))).
Proof.
  intros (Hs & He) (Hm & Hc & H2) Ha Hf. unfold get_block_reward.
  replace (agc <=? money_supply c) with true by lia.
  replace ((0 <? emission_speed_factor c) && (emission_speed_factor c <=? 64)) with true by lia.
  cbn [negb]. pose proof (calc_base_reward_bound c v agc Hs ltac:(lia) Ha) as Hb.
  unfold in_u in Hs. set (b := calc_base_reward c v agc) in *.
  pose proof (penalized_spec b median current ltac:(unfold in_u; lia) Hm Hc H2) as Hpb.
  pose proof (penalized_bounds b median current _ ltac:(unfold in_u; lia) Hm Hc H2 Hpb) as Hbb.
  pose proof (penalized_spec fee median current ltac:(unfold in_u; lia) Hm Hc H2) as Hpf.
  pose proof (penalized_bounds fee median current _ ltac:(unfold in_u; lia) Hm Hc H2 Hpf) as Hbf.
  fold (penalized b median current) in *. fold (penalized fee median current) in *.
  rewrite Hpb, Hpf. cbn [mbind result_bind].
  destruct (2 <=? v); cbn [mbind result_bind]; eexists _, _; split_and!; try done; lia.
Qed.

Lemma block_reward_conserves c v median current agc fee :
  params_ok c → sizes_ok median current → 0 ≤ agc ≤ money_supply c → 0 ≤ fee ≤ agc → fee < 2 ^ 62 →
  money_supply c - agc < 2 ^ 62 ∨ 2 ≤ emission_speed_factor c →
  ∃ reward emission, get_block_reward c v median current agc fee = Ok (reward, emission) ∧
    reward = penalized (base_reward_at c v agc) median current + (if 2 <=? v then penalized fee median current else fee) ∧
    reward ≤ base_reward_at c v agc + fee ∧ reward = emission + fee ∧ 0 ≤ agc + emission ≤ money_supply c.
Proof.
  intros Hp Hs Ha Hf Hf2 Hbig.
  destruct (get_block_reward_spec c v median current agc fee Hp Hs Ha ltac:(lia))
    as (base & pfee & Hbe & Hpe & Hb & Hpf & ->).
  destruct Hp as [Hms Hes]. unfold in_u in Hms.
  pose proof (calc_base_reward_bound c v agc Hms ltac:(lia) Ha) as Hcb.
  assert (calc_base_reward c v agc < 2 ^ 62) as Hc62.
  { destruct Hbig as [|He]; [lia|]. unfold calc_base_reward, DIFFICULTY_SCATTER_V2.
    rewrite u64_small, Z.shiftr_div_pow2 by lia.
    set (d := money_supply c - agc) in *.
    assert (4 ≤ 2 ^ emission_speed_factor c) by (apply (Z.pow_le_mono_r 2 2); lia).
    assert (0 ≤ d / 2 ^ emission_speed_factor c < 2 ^ 62)
      by (split; [apply Z.div_pos; lia|apply Z.div_lt_upper_bound; nia]).
    destruct (_ && _); [|lia]. apply Z.div_lt_upper_bound; lia. }
  rewrite u64_small, i64_small by lia. rewrite <- calc_base_reward_at by (unfold in_u; lia).
  rewrite <- Hbe, <- Hpe. eexists _, _. split; [done|]. lia.
Qed.

(** The parameters of the main network. *)
Definition zero_hash (_ : list Z) : Hash := null_hash.
Definition mainnet : Currency :=
  ltac:(let r := eval vm_compute in (make_Currency zero_hash false) in
        match r with Ok ?c => exact c end).

(** ** The miner's outputs *)

Lemma sum_rev l : sum (rev l) = sum l.
Proof. induction l as [|a l IH]; [done|]. simpl. rewrite sum_app, IH. simpl. lia. Qed.

Lemma sum_nonneg l : Forall (λ a, 0 < a) l → 0 ≤ sum l.
Proof. induction 1; simpl; lia. Qed.

Lemma merge_outs_spec fuel max_outs l :
  1 ≤ max_outs → (length l ≤ fuel)%nat → Forall (λ a, 0 < a) l → sum l < 2 ^ 64 →
  sum (merge_outs fuel max_outs l) = sum l ∧ Forall (λ a, 0 < a) (merge_outs fuel max_outs l) ∧
  Z.of_nat (length (merge_outs fuel max_outs l)) ≤ max_outs.
Proof.
  intros Hmax. revert l. induction fuel as [|fuel IH]; intros l Hl Hp Hs.
  { destruct l; [|simpl in Hl; lia]. simpl. split_and!; [done|done|lia]. }
  destruct l as [|b [|a l]]; cbn [merge_outs].
  { split_and!; [done|done|simpl; lia]. }
  { split_and!; [done|done|simpl; lia]. }
  destruct (Z.ltb_spec max_outs (Z.of_nat (length (b :: a :: l)))) as [Hlt|Hge]; [|done].
  inversion Hp as [|? ? Hb Hp']; subst. inversion Hp' as [|? ? Ha Hp'']; subst.
  pose proof (sum_nonneg _ Hp''). simpl in Hs, Hl. fold (sum l) in Hs.
  rewrite u64_small by lia. destruct (IH (a + b :: l)) as (IHs & IHp & IHl);
    [simpl; lia|by constructor; [lia|]|simpl; fold (sum l); lia|].
  split_and!; [|done|done]. rewrite IHs. simpl. fold (sum l). lia.
Qed.

Lemma miner_out_amounts_spec c reward max_outs :
  in_u 64 reward → 0 ≤ max_outs →
  ∃ l, miner_out_amounts c reward max_outs = Ok l ∧ sum l = reward ∧ Forall (λ a, 0 < a) l ∧
    Z.of_nat (length l) ≤ Z.max 1 max_outs.
Proof.
  intros Hr Hm. unfold miner_out_amounts.
  destruct (decompose_amount_sum reward (default_dust_threshold c) Hr) as (l & -> & Hs & Hp).
  cbn [mbind result_bind]. set (k := if max_outs =? 0 then 1 else max_outs).
  assert (k = Z.max 1 max_outs) as Hk by (unfold k; destruct (Z.eqb_spec max_outs 0); lia).
  destruct (merge_outs_spec (length l) k (rev l)) as (Hs' & Hp' & Hl').
  - lia.
  - by rewrite length_rev.
  - by apply Forall_rev.
  - rewrite sum_rev, Hs. unfold in_u in Hr. lia.
  - eexists. split; [done|]. rewrite sum_rev, Hs', sum_rev, length_rev.
    split_and!; [done|by apply Forall_rev|lia].
Qed.

Lemma miner_outputs_amounts gd dp addr sk no amounts outs :
  miner_outputs gd dp addr sk no amounts = Some outs → out_amount <$> outs = amounts.
Proof.
  revert no outs. induction amounts as [|a l IH]; intros no outs H; cbn [miner_outputs] in H.
  { by injection H as <-. }
  destruct (gd _ _); [|done]. cbn [mbind option_bind] in H. destruct (dp _ _ _); [|done].
  cbn [mbind option_bind] in H. destruct (miner_outputs _ _ _ _ (S no) l) eqn:E; [|done].
  injection H as <-. rewrite fmap_cons. cbn [out_amount]. f_equal. exact (IH _ _ E).
Qed.

(** Every output goes to a derived key. *)
Lemma miner_outputs_keys gd dp addr sk no amounts outs :
  miner_outputs gd dp addr sk no amounts = Some outs →
  Forall (λ o, ∃ d i a key, out_target o = KeyOutput key ∧ dp d i a = Some key) outs.
Proof.
  revert no outs. induction amounts as [|a l IH]; intros no outs H; cbn [miner_outputs] in H.
  { injection H as <-. constructor. }
  destruct (gd _ _) as [d|]; [|done]. cbn [mbind option_bind] in H. destruct (dp _ _ _) as [key|] eqn:Hk; [|done].
  cbn [mbind option_bind] in H. destruct (miner_outputs _ _ _ _ (S no) l) eqn:E; [|done].
  injection H as <-. constructor; [|exact (IH _ _ E)]. by exists d, no, (spend_public_key addr), key.
Qed.

Lemma foldl_sum_outs outs acc :
  0 ≤ acc → Forall (λ a, 0 < a) (out_amount <$> outs) → acc + sum (out_amount <$> outs) < 2 ^ 64 →
  foldl (λ s o, u64 (s + out_amount o)) acc outs = acc + sum (out_amount <$> outs).
Proof.
  revert acc. induction outs as [|o outs IH]; intros acc Ha Hp Hs; [simpl; lia|].
  rewrite fmap_cons in *. inversion Hp as [|? ? Ho Hp']; subst.
  pose proof (sum_nonneg _ Hp') as Hnn.
  change (sum (out_amount o :: (out_amount <$> outs)))
    with (out_amount o + sum (out_amount <$> outs)) in *.
  cbn [foldl]. rewrite u64_small by lia. rewrite IH; [lia|lia|done|lia].
Qed.

(** What a transaction that [construct_miner_tx] built is. *)
Lemma construct_miner_tx_inv c gd dp pk sk v height median agc current fee addr nonce max_outs tx :
  0 ≤ max_outs →
  construct_miner_tx c gd dp pk sk v height median agc current fee addr nonce max_outs = Ok (Some tx) →
  ∃ reward emission, get_block_reward c v median current agc fee = Ok (reward, emission) ∧ in_u 64 reward ∧
    inputs (tx_prefix tx) = [CoinbaseInput height] ∧
    sum (out_amount <$> outputs (tx_prefix tx)) = reward ∧
    Forall (λ o, 0 < out_amount o) (outputs (tx_prefix tx)) ∧
    Forall (λ o, ∃ d i a key, out_target o = KeyOutput key ∧ dp d i a = Some key) (outputs (tx_prefix tx)) ∧
    Z.of_nat (length (outputs (tx_prefix tx))) ≤ Z.max 1 max_outs ∧
    unlock_time (tx_prefix tx) = u32 (height + mined_money_unlock_window c).
Proof.
  intros Hmo H. unfold construct_miner_tx in H. destruct (if bool_decide _ then _ else _) as [ok ex].
  destruct ok; [|done]. cbn [negb] in H. inv_ok H. destruct a as [reward emission].
  assert (in_u 64 reward) as Hr.
  { unfold get_block_reward in Ha. repeat case_match; try done; inv_ok Ha; injection Ha as <- _; apply u64_bound. }
  inv_ok H. destruct (miner_out_amounts_spec c reward max_outs Hr Hmo) as (l & Hl & Hs & Hp & Hn).
  rewrite Ha0 in Hl. injection Hl as ->.
  destruct (miner_outputs _ _ _ _ _ _) as [outs|] eqn:Ho; [|done].
  pose proof (miner_outputs_keys _ _ _ _ _ _ _ Ho) as Hk.
  apply miner_outputs_amounts in Ho. destruct (negb _); [done|]. injection H as <-. simpl.
  exists reward, emission. rewrite Ho. split_and!; try done.
  - apply (Forall_fmap out_amount (λ a, 0 < a)). by rewrite Ho.
  - rewrite <- (length_fmap out_amount outs), Ho. done.
Qed.

(** ** Properties *)

(** The penalty for an oversized block is exact: [get_penalized_amount]
    computes [amount * c * (2 * m - c) / m^2] without losing a bit on its
    way through 128-bit words, its final assertions hold, and the penalty
    never increases an amount. *)
Lemma get_penalized_amount_exact amount median current :
  in_u 64 amount → sizes_ok median current →
  get_penalized_amount amount median current =
    Ok (if current <=? median then amount
        else amount * (current * (2 * median - current)) / (median * median)) ∧
  ∀ r, get_penalized_amount amount median current = Ok r → 0 ≤ r ≤ amount.
Proof.
  intros Ha (Hm & Hc & H2). split; [by apply penalized_spec|]. intros r.
  by apply penalized_bounds.
Qed.

Lemma get_penalized_amount_exact_witness :
  get_penalized_amount (2 ^ 64 - 1) 100000 150000 =
  Ok ((2 ^ 64 - 1) * (150000 * (2 * 100000 - 150000)) / (100000 * 100000)).
Proof.
  apply (get_penalized_amount_exact (2 ^ 64 - 1) 100000 150000); [done|].
  unfold sizes_ok, UINT32_MAX. lia.
Defined.

(** C22: The reward of a block is exact and the emission bounded: for any
    accepted block size and fees below [2^62] that are coins already
    generated, the miner gets the base reward, the share of the coins not yet
    generated that the version of the block sets, and the fees, both cut by the
    penalty [current * (2 * median - current) / median^2] of a block larger
    than the median (before version 2 only the base reward is cut); that is at
    most the base reward and the fees.  The emission changes by just what is
    paid beyond the fees, and the coins generated stay between zero and the
    money supply. *)
Theorem get_block_reward_conserves c v median current agc fee :
  params_ok c → sizes_ok median current → 0 ≤ agc ≤ money_supply c → 0 ≤ fee ≤ agc → fee < 2 ^ 62 →
  money_supply c - agc < 2 ^ 62 ∨ 2 ≤ emission_speed_factor c →
  ∃ reward emission, get_block_reward c v median current agc fee = Ok (reward, emission) ∧
    reward = penalized (base_reward_at c v agc) median current + (if 2 <=? v then penalized fee median current else fee) ∧
    reward ≤ base_reward_at c v agc + fee ∧ reward = emission + fee ∧ 0 ≤ agc + emission ≤ money_supply c.
Proof. apply block_reward_conserves. Qed.

Lemma get_block_reward_conserves_witness :
  ∃ reward emission, get_block_reward mainnet 2 20000 30000 (2 ^ 60) 5000000 = Ok (reward, emission) ∧
    reward = penalized (base_reward_at mainnet 2 (2 ^ 60)) 20000 30000 + penalized 5000000 20000 30000 ∧
    reward ≤ base_reward_at mainnet 2 (2 ^ 60) + 5000000 ∧ reward = emission + 5000000 ∧ 0 ≤ 2 ^ 60 + emission ≤ money_supply mainnet.
Proof.
  apply (get_block_reward_conserves mainnet 2 20000 30000 (2 ^ 60) 5000000).
  - by vm_compute.
  - unfold sizes_ok, UINT32_MAX. lia.
  - cbn. lia.
  - lia.
  - lia.
  - right. cbn. lia.
Defined.

(** C23: The miner's transaction pays out exactly the block reward: a
    transaction that [construct_miner_tx] builds is a coinbase transaction of
    that height whose positive outputs sum to the reward of the block and are
    at most [max_outs] (one if zero), locked for the unlock window. *)
Theorem construct_miner_tx_pays_reward c gd dp pk sk v height median agc current fee addr nonce
    max_outs tx :
  0 ≤ max_outs →
  construct_miner_tx c gd dp pk sk v height median agc current fee addr nonce max_outs = Ok (Some tx) →
  ∃ reward emission, get_block_reward c v median current agc fee = Ok (reward, emission) ∧
    inputs (tx_prefix tx) = [CoinbaseInput height] ∧
    sum (out_amount <$> outputs (tx_prefix tx)) = reward ∧
    Forall (λ o, 0 < out_amount o) (outputs (tx_prefix tx)) ∧
    Z.of_nat (length (outputs (tx_prefix tx))) ≤ Z.max 1 max_outs ∧
    unlock_time (tx_prefix tx) = u32 (height + mined_money_unlock_window c).
Proof.
  intros Hmo H. destruct (construct_miner_tx_inv _ _ _ _ _ _ _ _ _ _ _ _ _ _ _ Hmo H) as (r & e & ?). naive_solver.
Qed.

Definition sample_miner_tx : result (option Transaction) :=
  construct_miner_tx mainnet (λ _ _, Some []) (λ _ _ _, Some (replicate 32 7))
    (replicate 32 1) (replicate 32 2) 1 5 10000 1000 500 0
    {| spend_public_key := null_hash; view_public_key := null_hash |} [] 3.

Definition sample_tx : Transaction :=
  ltac:(let r := eval vm_compute in sample_miner_tx in
        match r with Ok (Some ?t) => exact t end).

Lemma construct_miner_tx_pays_reward_witness :
  ∃ reward emission, get_block_reward mainnet 1 10000 500 1000 0 = Ok (reward, emission) ∧
    sum (out_amount <$> outputs (tx_prefix sample_tx)) = reward.
Proof.
  destruct (construct_miner_tx_pays_reward mainnet (λ _ _, Some []) (λ _ _ _, Some (replicate 32 7))
    (replicate 32 1) (replicate 32 2) 1 5 10000 1000 500 0
    {| spend_public_key := null_hash; view_public_key := null_hash |} [] 3 sample_tx)
    as (reward & emission & Hr & _ & Hs & _).
  - lia.
  - vm_compute. reflexivity.
  - exists reward, emission. split; [exact Hr|exact Hs].
Defined.

(** C24: Addresses survive: the text of an account address parses back to its
    prefix and keys when the keys are valid points. *)
Theorem address_roundtrip cn_fast_hash key_isvalid prefix adr :
  (∀ x, bytes (cn_fast_hash x) ∧ length (cn_fast_hash x) = 32%nat) →
  in_u 64 prefix → c_ok ser_AccountPublicAddress adr →
  key_isvalid (spend_public_key adr) = true → key_isvalid (view_public_key adr) = true →
  ∃ str, get_account_address_as_str cn_fast_hash prefix adr = Ok str ∧
    parse_account_address_with_prefix cn_fast_hash key_isvalid str = Ok (Some (prefix, adr)).
Proof.
  intros Hh Hp Hok Hs Hv.
  destruct (from_to_binary ser_AccountPublicAddress adr Hok) as (ba & Hba & Hb & Hf).
  destruct (Base58.decode_encode_addr cn_fast_hash prefix ba Hh Hp Hb) as (str & He & _ & Hd).
  exists str. unfold get_account_address_as_str, parse_account_address_with_prefix.
  rewrite Hba. cbn [mbind result_bind]. split; [done|]. rewrite Hd. cbn [mbind result_bind].
  by rewrite Hf, Hs, Hv.
Qed.

Lemma address_roundtrip_witness :
  ∃ str, get_account_address_as_str zero_hash 126
    {| spend_public_key := replicate 32 5; view_public_key := replicate 32 6 |} = Ok str ∧
    parse_account_address_with_prefix zero_hash (λ _, true) str =
    Ok (Some (126, {| spend_public_key := replicate 32 5; view_public_key := replicate 32 6 |})).
Proof.
  apply (address_roundtrip zero_hash (λ _, true) 126
    {| spend_public_key := replicate 32 5; view_public_key := replicate 32 6 |}); try done.
  - intros x. split; [by apply Forall_replicate|done].
  - simpl. split_and!; try done; by apply (bool_decide_unpack _).
Defined.

(** With no checkpoint in the table the main network's zone test indexes
    before its start. *)
Lemma checkpoint_zone_undefined cn_fast_hash c index :
  make_Currency cn_fast_hash false = Ok c →
  is_in_sw_checkpoint_zone c index = Undefined "CHECKPOINTS[-1]".
Proof.
  unfold make_Currency. intros H. inv_ok H. by injection H as <-.
Qed.

End Currency.
