(* ===== verification/Difficulty.v ===== *)
(** * Difficulty adjustment ([Currency::next_difficulty*], src/src/Core/Currency.cpp)

    Version 1 divides the work of a window, its outlying timestamps cut off, by
    the time it took; version 2 is a linearly weighted moving average.  Both
    are translated with the widths of the C++ types: 32-bit timestamps, 64-bit
    unsigned work, and the mixed signed arithmetic of version 2. *)

From S2P Require Import Prelude Words CryptoNote Currency.
Import CryptoNote Currency.

Local Open Scope Z_scope.

Module Difficulty.

(** [std::sort] on timestamps. *)
Definition sort (l : list Z) : list Z := merge_sort Z.le l.

Definition at_ (l : list Z) (i : Z) : result Z :=
  of_option (if i <? 0 then None else l !! Z.to_nat i) (Undefined "vector index out of range").

(** The part of the sorted window that is kept. *)
Definition cut_bounds (length window cut : Z) : result (Z * Z) :=
  if negb (2 * cut <=? window - 2) then Undefined "assert(2 * cut <= window - 2)" else
  let '(cut_begin, cut_end) :=
    if length <=? window - 2 * cut then (0, length)
    else let b := (length - (window - 2 * cut) + 1) / 2 in (b, b + (window - 2 * cut)) in
  if negb ((cut_begin + 2 <=? cut_end) && (cut_end <=? length))
  then Undefined "assert(cutBegin + 2 <= cutEnd && cutEnd <= length)"
  else Ok (cut_begin, cut_end).

(** One pass over a window: either the difficulty is returned at once, or the
    scaled work [low] and the time span are left. *)
Definition window_work (target : Timestamp) (timestamps : list Timestamp)
    (cumulative_difficulties : list Difficulty) (window cut : Z) : result (Z + Z * Z) :=
  let n := Z.of_nat (length timestamps) in
  if negb (2 <=? window) then Undefined "assert(difficulty_window >= 2)" else
  if negb (n =? Z.of_nat (length cumulative_difficulties)) then
    Undefined "assert(length == cumulative_difficulties.size())" else
  if negb (n <=? window) then Undefined "assert(length <= window)" else
  if n <=? 1 then Ok (inl 1) else
  let timestamps := sort timestamps in
  '(cut_begin, cut_end) ← cut_bounds n window cut;
  t1 ← at_ timestamps (cut_end - 1); t0 ← at_ timestamps cut_begin;
  let time_span := u32 (t1 - t0) in
  let time_span := if time_span =? 0 then 1 else time_span in
  c1 ← at_ cumulative_difficulties (cut_end - 1); c0 ← at_ cumulative_difficulties cut_begin;
  let total_work := u64 (c1 - c0) in
  if negb (0 <? total_work) then Undefined "assert(totalWork > 0)" else
  let '(low, high) := Words.mul128 total_work target in
  if negb (high =? 0) || (UINT64_MAX - low <? time_span - 1) then Ok (inl 0)
  else Ok (inr (low, time_span)).

(** [v.end() - t]: the last [t] elements. *)
Definition last_n (t : Z) (l : list Z) : list Z := drop (length l - Z.to_nat t) l.

Section difficulty.
Context (currency : Currency).

Definition next_difficulty_v1 (block_index : Height) (timestamps_o : list Timestamp)
    (cumulative_o : list Difficulty) : result Difficulty :=
  let w := difficulty_window currency in
  let resize := w <? Z.of_nat (length timestamps_o) in
  let timestamps := if resize then take (Z.to_nat w) timestamps_o else timestamps_o in
  let cumulative := if resize then take (Z.to_nat w) cumulative_o else cumulative_o in
  r ← window_work (difficulty_target currency) timestamps cumulative w (difficulty_cut currency);
  match r with
  | inl d => Ok d
  | inr (low, time_span) =>
      if hardfork_v1_height currency <=? block_index then
        let t := Z.min 17 (Z.of_nat (length timestamps)) in
        r ← window_work (difficulty_target currency) (last_n t timestamps_o)
              (last_n t cumulative_o) 17 0;
        match r with
        | inl d => Ok d
        | inr (low, time_span) => Ok (Z.max 100 (low / time_span))
        end
      else Ok (u64 (low + time_span - 1) / time_span)
  end.

(** The solve time of one block, clamped. *)
Definition solve_time (T FTL t0 t1 : Z) : Z := Z.max (- FTL) (Z.min (t1 - t0) (6 * T)).

(** [for (i = 1; i <= N; i++)]: [L] and [sum_3_ST]; [n] rounds are left. *)
Fixpoint lwma_loop (n : nat) (i N T FTL : Z) (timestamps : list Timestamp) (L sum_3_ST : Z) :
    result (Z * Z) :=
  match n with
  | O => Ok (L, sum_3_ST)
  | S n =>
      t1 ← at_ timestamps i; t0 ← at_ timestamps (i - 1);
      let ST := solve_time T FTL t0 t1 in
      lwma_loop n (i + 1) N T FTL timestamps (L + ST * i)
        (if N - 3 <? i then sum_3_ST + ST else sum_3_ST)
  end.

Definition next_difficulty_v2 (timestamps : list Timestamp)
    (cumulative_difficulties : list Difficulty) : result Difficulty :=
  let T := difficulty_target currency in
  let N := difficulty_window_v2 currency in
  let FTL := block_future_time_limit_v2 currency in
  if Z.of_nat (length timestamps) <=? N then Ok 1000 else
  '(L, sum_3_ST) ← lwma_loop (Z.to_nat N) 1 N T FTL timestamps 0 0;
  cN ← at_ cumulative_difficulties N; c0 ← at_ cumulative_difficulties 0;
  cN1 ← at_ cumulative_difficulties (N - 1);
  let divisor := u64 (100 * 2 * L) in
  if divisor =? 0 then Undefined "division by zero" else
  let next_D := i64 (u64 (u64 (u64 (u64 (cN - c0) * T) * (N + 1)) * 99) / divisor) in
  let prev_D := i64 (u64 (cN - cN1)) in
  if sum_3_ST <? Z.quot (8 * T) 10 then
    if (prev_D * 110 <? - 2 ^ 63) || (2 ^ 63 <=? prev_D * 110) then Undefined "signed overflow"
    else Ok (u64 (Z.quot (prev_D * 110) 100))
  else Ok (u64 next_D).

Definition next_difficulty (block_index : Height) (timestamps : list Timestamp)
    (cumulative_difficulties : list Difficulty) : result Difficulty :=
  if block_index <=? hardfork_v2_height currency
  then next_difficulty_v1 block_index timestamps cumulative_difficulties
  else next_difficulty_v2 timestamps cumulative_difficulties.

End difficulty.

(** ** Version 1 never fails an assertion *)

Lemma at_lookup l i : 0 ≤ i < Z.of_nat (length l) → ∃ x, at_ l i = Ok x ∧ l !! Z.to_nat i = Some x.
Proof.
  intros Hi. unfold at_. replace (i <? 0) with false by lia.
  destruct (lookup_lt_is_Some_2 l (Z.to_nat i)) as [x Hx]; [lia|]. rewrite Hx. by exists x.
Qed.

Lemma length_sort l : length (sort l) = length l.
Proof. unfold sort. by rewrite merge_sort_Permutation. Qed.

(** Work accumulates: every later entry is greater. *)
Definition increasing (l : list Z) : Prop := StronglySorted Z.lt l.

Lemma increasing_lookup l i j x y :
  increasing l → (i < j)%nat → l !! i = Some x → l !! j = Some y → x < y.
Proof.
  intros Hs. revert i j. induction Hs as [|a l Hl IH Ha]; intros i j Hij Hi Hj; [done|].
  destruct j as [|j]; [lia|]. destruct i as [|i]; simpl in *.
  - injection Hi as ->. rewrite Forall_lookup in Ha. by eapply Ha.
  - eapply IH; [|done..]. lia.
Qed.

Lemma cut_bounds_spec n window cut :
  0 ≤ cut → 2 * cut <= window - 2 → 2 ≤ n ≤ window →
  ∃ b e, cut_bounds n window cut = Ok (b, e) ∧ 0 ≤ b ∧ b + 2 ≤ e ≤ n.
Proof.
  intros Hc Hw Hn. unfold cut_bounds. replace (2 * cut <=? window - 2) with true by lia.
  cbn [negb]. destruct (Z.leb_spec n (window - 2 * cut)).
  - replace ((0 + 2 <=? n) && (n <=? n)) with true by lia. eexists _, _. split; [done|]. lia.
  - set (b := (n - (window - 2 * cut) + 1) / 2).
    assert (0 ≤ b ∧ b + (window - 2 * cut) ≤ n) by (unfold b; words).
    replace (_ && _) with true by lia. eexists _, _. split; [done|]. lia.
Qed.

Lemma window_work_spec target ts cum window cut :
  in_u 32 target → 0 ≤ cut → 2 * cut <= window - 2 → 
  length ts = length cum → Z.of_nat (length ts) ≤ window →
  increasing cum → Forall (in_u 64) cum →
  ∃ r, window_work target ts cum window cut = Ok r ∧
    match r with
    | inl d => d = 1 ∧ Z.of_nat (length ts) ≤ 1 ∨ d = 0
    | inr (low, span) => ∃ work, 0 < work < 2 ^ 64 ∧ low = work * target ∧
        1 ≤ span < 2 ^ 32 ∧ low + span - 1 < 2 ^ 64
    end.
Proof.
  intros Ht Hc Hw Hl Hn Hinc Hcum. unfold window_work. unfold in_u in Ht.
  replace (2 <=? window) with true by lia. rewrite Hl, Z.eqb_refl, <- Hl.
  replace (_ <=? window) with true by lia. cbn [negb].
  destruct (Z.leb_spec (Z.of_nat (length ts)) 1); [eexists; split; [done|]; simpl; auto|].
  destruct (cut_bounds_spec (Z.of_nat (length ts)) window cut) as (b & e & -> & Hb & He); [lia..|].
  cbn [mbind result_bind].
  destruct (at_lookup (sort ts) (e - 1)) as (t1 & -> & _); [rewrite length_sort; lia|].
  destruct (at_lookup (sort ts) b) as (t0 & -> & _); [rewrite length_sort; lia|].
  destruct (at_lookup cum (e - 1)) as (c1 & -> & H1); [lia|].
  destruct (at_lookup cum b) as (c0 & -> & H0); [lia|].
  cbn [mbind result_bind].
  pose proof (increasing_lookup cum (Z.to_nat b) (Z.to_nat (e - 1)) c0 c1 Hinc ltac:(lia) H0 H1) as Hlt.
  rewrite Forall_lookup in Hcum. pose proof (Hcum _ _ H0) as B0. pose proof (Hcum _ _ H1) as B1.
  unfold in_u in B0, B1. rewrite (u64_small (c1 - c0)) by lia.
  replace (0 <? c1 - c0) with true by lia. cbn [negb].
  set (span := if u32 (t1 - t0) =? 0 then 1 else u32 (t1 - t0)).
  assert (1 ≤ span < 2 ^ 32) as Hspan.
  { unfold span. pose proof (u32_bound (t1 - t0)). destruct (Z.eqb_spec (u32 (t1 - t0)) 0); lia. }
  destruct (Words.mul128 (c1 - c0) target) as [low high] eqn:E.
  destruct (Words.mul128_spec (c1 - c0) target low high) as (Hm & Hlo & Hhi);
    [unfold in_u; lia|unfold in_u; lia|done|].
  unfold UINT64_MAX. destruct (Z.eqb_spec high 0) as [->|]; cbn [negb orb].
  - destruct (Z.ltb_spec (2 ^ 64 - 1 - low) (span - 1)); eexists; (split; [done|]); [by right|].
    cbn beta iota. exists (c1 - c0). lia.
  - eexists. split; [done|]. by right.
Qed.

(** The settings the algorithm was written for. *)
Definition difficulty_params_ok (c : Currency) : Prop :=
  in_u 32 (difficulty_target c) ∧ 0 ≤ difficulty_cut c ∧
  2 * difficulty_cut c <= difficulty_window c - 2.

Lemma increasing_take n l : increasing l → increasing (take n l).
Proof.
  intros Hs. revert n. induction Hs as [|a l Hl IH Ha]; intros [|n]; simpl; try constructor; auto.
  - apply IH.
  - by apply Forall_take.
Qed.

Lemma increasing_drop n l : increasing l → increasing (drop n l).
Proof. intros Hs. revert n. induction Hs; intros [|n]; simpl; try by constructor. apply IHHs. Qed.

Lemma next_difficulty_v1_total c block_index ts cum :
  difficulty_params_ok c → length ts = length cum → increasing cum → Forall (in_u 64) cum →
  ∃ d, next_difficulty_v1 c block_index ts cum = Ok d ∧
    (hardfork_v1_height c ≤ block_index → 2 ≤ Z.of_nat (length ts) → 2 ≤ difficulty_window c →
     d = 0 ∨ 100 ≤ d).
Proof.
  intros (Ht & Hc & Hw) Hl Hinc Hcum. unfold next_difficulty_v1.
  set (w := difficulty_window c) in *. set (rs := w <? Z.of_nat (length ts)).
  assert (∃ n, (if rs then take (Z.to_nat w) ts else ts) = take n ts ∧
    (if rs then take (Z.to_nat w) cum else cum) = take n cum ∧ Z.of_nat (length (take n ts)) ≤ w ∧
    Z.min (Z.of_nat (length ts)) w ≤ Z.of_nat (length (take n ts)))
    as (n & -> & -> & Hn & Hn2).
  { destruct rs eqn:E; unfold rs in E.
    - exists (Z.to_nat w). rewrite length_take. split_and!; [done..|lia|lia].
    - exists (length ts). rewrite firstn_all. split_and!; [done| |lia|lia].
      by rewrite Hl, firstn_all. }
  destruct (window_work_spec (difficulty_target c) (take n ts) (take n cum) w (difficulty_cut c))
    as (r & -> & Hr); [done..|by rewrite !length_take, Hl|done|by apply increasing_take|
      by apply Forall_take|].
  cbn [mbind result_bind]. destruct r as [d|[low span]].
  { exists d. split; [done|]. intros _ Hlen Hw2. destruct Hr as [[_ Hr]|]; [lia|by left]. }
  destruct (Z.leb_spec (hardfork_v1_height c) block_index); [|by eexists; split; [done|lia]].
  set (t := Z.min 17 _).
  destruct (window_work_spec (difficulty_target c) (last_n t ts) (last_n t cum) 17 0)
    as (r & -> & Hr'); [done|lia|lia| | | | |].
  - unfold last_n. rewrite !length_drop, Hl. done.
  - unfold last_n. rewrite length_drop. lia.
  - by apply increasing_drop.
  - by apply Forall_drop.
  - cbn [mbind result_bind]. destruct r as [d|[low' span']]; eexists; (split; [done|]); [|lia].
    intros _ Hlen Hw2. destruct Hr' as [[_ Hr']|]; [|by left].
    unfold last_n, t in Hr'. rewrite length_drop in Hr'. lia.
Qed.

(** ** Version 2 at its target *)

Lemma solve_time_target T FTL t : 0 ≤ T → 0 ≤ FTL → solve_time T FTL t (t + T) = T.
Proof. intros. unfold solve_time. lia. Qed.

Lemma lwma_steady n i N T FTL ts L S3 start :
  0 ≤ T → 0 ≤ FTL → 1 ≤ i → i + Z.of_nat n = N + 1 →
  (∀ k, 0 ≤ k ≤ N → at_ ts k = Ok (start + k * T)) →
  ∃ L' S3', lwma_loop n i N T FTL ts L S3 = Ok (L', S3') ∧
    2 * (L' - L) = T * (N * (N + 1) - (i - 1) * i) ∧
    S3' - S3 = T * Z.min (Z.of_nat n) (Z.max 0 (N - Z.max (i - 1) (N - 3))).
Proof.
  intros HT HF Hi HN Hts. revert i L S3 Hi HN.
  induction n as [|n IH]; intros i L S3 Hi HN; cbn [lwma_loop].
  { exists L, S3. split; [done|]. assert (N = i - 1) as -> by lia. split; [ring|lia]. }
  rewrite (Hts i), (Hts (i - 1)) by lia. cbn [mbind result_bind].
  replace (start + i * T) with (start + (i - 1) * T + T) by ring.
  rewrite solve_time_target by done.
  destruct (IH (i + 1) (L + T * i) (if N - 3 <? i then S3 + T else S3)) as (L' & S3' & -> & HL & HS);
    [lia|lia|].
  exists L', S3'. split; [done|]. split; [lia|].
  destruct (Z.ltb_spec (N - 3) i) as [H3|H3].
  - replace (Z.min (Z.of_nat (S n)) _) with
      (1 + Z.min (Z.of_nat n) (Z.max 0 (N - Z.max (i + 1 - 1) (N - 3)))) by lia. lia.
  - replace (Z.min (Z.of_nat (S n)) _) with
      (Z.min (Z.of_nat n) (Z.max 0 (N - Z.max (i + 1 - 1) (N - 3)))) by lia. lia.
Qed.

(** ** Properties *)

(** C25: The first difficulty algorithm never fails one of its assertions: with
    as many timestamps as cumulative difficulties, the latter increasing, it
    returns a difficulty for any timestamps whatever their order, and after
    the first hard fork not less than 100 (or zero when the work overflows). *)
Theorem next_difficulty_v1_defined c block_index ts cum :
  difficulty_params_ok c → length ts = length cum → increasing cum → Forall (in_u 64) cum →
  ∃ d, next_difficulty_v1 c block_index ts cum = Ok d ∧
    (hardfork_v1_height c ≤ block_index → 2 ≤ Z.of_nat (length ts) → 2 ≤ difficulty_window c →
     d = 0 ∨ 100 ≤ d).
Proof. apply next_difficulty_v1_total. Qed.

Lemma next_difficulty_v1_defined_witness :
  ∃ d, next_difficulty_v1 mainnet 7075 [1000; 900; 1300] [10; 500; 2000000] = Ok d ∧
    (d = 0 ∨ 100 ≤ d).
Proof.
  destruct (next_difficulty_v1_defined mainnet 7075 [1000; 900; 1300] [10; 500; 2000000])
    as (d & Hd & Hd').
  - by vm_compute.
  - done.
  - repeat constructor.
  - by repeat constructor.
  - exists d. split; [exact Hd|]. apply Hd'; by vm_compute.
Defined.

(** The second algorithm holds its target: when the last blocks came
    exactly [difficulty_target] seconds apart and together did [work], the
    next difficulty is 99 percent of the average work per block. *)
Lemma next_difficulty_v2_steady c ts cum start work :
  let T := difficulty_target c in let N := difficulty_window_v2 c in
  1 ≤ T → 3 ≤ N → 0 ≤ block_future_time_limit_v2 c →
  N < Z.of_nat (length ts) → (∀ k, 0 ≤ k ≤ N → at_ ts k = Ok (start + k * T)) →
  N < Z.of_nat (length cum) →
  (∃ c0 cN, at_ cum 0 = Ok c0 ∧ at_ cum N = Ok cN ∧ work = cN - c0) →
  0 ≤ work → work * T * (N + 1) * 99 < 2 ^ 63 → 100 * T * N * (N + 1) < 2 ^ 64 →
  next_difficulty_v2 c ts cum = Ok (work * 99 / (100 * N)).
Proof.
  intros T N HT HN HF Hl Hts Hlc (c0 & cN & H0 & HcN & ->) Hw Hov Hdiv.
  unfold next_difficulty_v2. fold T N. replace (_ <=? N) with false by lia.
  destruct (lwma_steady (Z.to_nat N) 1 N T (block_future_time_limit_v2 c) ts 0 0 start)
    as (L & S3 & -> & HL & HS); [lia|lia|lia|lia|done|].
  cbn [mbind result_bind]. rewrite H0, HcN. cbn [mbind result_bind].
  destruct (at_lookup cum (N - 1)) as (x & -> & _); [lia|]. cbn [mbind result_bind].
  set (w := cN - c0) in *.
  assert (100 * 2 * L = 100 * T * N * (N + 1)) as HLe by lia.
  assert (0 < T * N * (N + 1)) by nia.
  rewrite HLe, (u64_small (100 * T * N * (N + 1))) by lia.
  replace (_ =? 0) with false by lia.
  assert (0 ≤ w * T) by nia. assert (0 ≤ w * T * (N + 1)) by nia.
  assert (w ≤ w * T) by nia. assert (w * T ≤ w * T * (N + 1)) by nia.
  rewrite (u64_small w), (u64_small (w * T)), (u64_small (w * T * (N + 1))),
    (u64_small (w * T * (N + 1) * 99)) by lia.
  replace (w * T * (N + 1) * 99 / (100 * T * N * (N + 1))) with (w * 99 / (100 * N)).
  2: { replace (w * T * (N + 1) * 99) with ((w * 99) * (T * (N + 1))) by ring.
       replace (100 * T * N * (N + 1)) with ((100 * N) * (T * (N + 1))) by ring.
       rewrite Z.div_mul_cancel_r; [done|lia|nia]. }
  replace (Z.min _ _) with 3 in HS by lia. assert (S3 = 3 * T) as -> by lia.
  rewrite Z.quot_div_nonneg by lia.
  replace (3 * T <? 8 * T / 10) with false by (symmetry; apply Z.ltb_ge, Z.div_le_upper_bound; lia).
  assert (0 ≤ w * 99 / (100 * N) ≤ w * 99)
    by (split; [apply Z.div_pos; lia|apply Z.div_le_upper_bound; nia]).
  rewrite i64_small, u64_small by lia. done.
Qed.

Lemma next_difficulty_v2_steady_witness :
  next_difficulty_v2 mainnet ((λ k, 1500000000 + k * 60) <$> seqZ 0 61)
    ((λ k, 5 + k * 1000) <$> seqZ 0 61) = Ok (60000 * 99 / (100 * 60)).
Proof.
  apply (next_difficulty_v2_steady mainnet ((λ k, 1500000000 + k * 60) <$> seqZ 0 61)
    ((λ k, 5 + k * 1000) <$> seqZ 0 61) 1500000000 60000);
    [by vm_compute|by vm_compute|by vm_compute|by vm_compute| |by vm_compute| |by vm_compute
    |by vm_compute|by vm_compute].
  - intros k Hk. change (difficulty_window_v2 mainnet) with 60 in Hk.
    change (difficulty_target mainnet) with 60. unfold at_.
    replace (k <? 0) with false by lia.
    rewrite list_lookup_fmap, lookup_seqZ_lt by lia. simpl. by rewrite Z2Nat.id by lia.
  - exists 5, 60005. split_and!; by vm_compute.
Defined.

(** Blocks with equal timestamps, which the timestamp rule allows, make the
    second algorithm divide by zero. *)
Lemma next_difficulty_v2_division_by_zero :
  next_difficulty_v2 mainnet (replicate 61 1500000000) ((λ k, 5 + k * 1000) <$> seqZ 0 61) =
  Undefined "division by zero".
Proof. by vm_compute. Qed.

End Difficulty.
