(* ===== verification/Db.v ===== *)
(** * The database (src/src/platform/DBlmdb.cpp, DBlmdb.hpp)

    The wrappers the node calls over LMDB.  LMDB itself is external: class
    [Lmdb] holds the calls of it that the wrappers make and [LmdbLaws] its
    documented behaviour, an ordered map from byte strings to byte strings;
    an instance on finite maps shows that the laws can be met. *)

From S2P Require Import Prelude Varint.

Local Open Scope Z_scope.

Module Db.

Abbreviation Key := (list Z) (only parsing).
Abbreviation Value := (list Z) (only parsing).

(** ** LMDB *)

(** Return codes: [MDB_OTHER] is every failure the wrappers do not name. *)
Inductive rc := MDB_SUCCESS | MDB_KEYEXIST | MDB_NOTFOUND | MDB_OTHER.

Global Instance rc_eq_dec : EqDecision rc.
Proof. solve_decision. Defined.

(** Cursor calls return the key found; [mdb_entries] is [ms_entries] of
    [mdb_env_stat]. *)
Class Lmdb (D : Type) := {
  mdb_env_get_maxkeysize : D → nat;
  mdb_get : D → Key → option Value;
  mdb_put : D → Key → Value → bool → D * rc;
  mdb_del : D → Key → D * rc;
  mdb_first : D → option Key;
  mdb_last : D → option Key;
  mdb_set_range : D → Key → option Key;
  mdb_next : D → Key → option Key;
  mdb_prev : D → Key → option Key;
  mdb_entries : D → nat;
}.

Definition is_least (S : Key → Prop) (o : option Key) : Prop :=
  match o with
  | Some k => S k ∧ ∀ k', S k' → lex_ltb k' k = false
  | None => ∀ k', ¬ S k'
  end.
Definition is_greatest (S : Key → Prop) (o : option Key) : Prop :=
  match o with
  | Some k => S k ∧ ∀ k', S k' → lex_ltb k k' = false
  | None => ∀ k', ¬ S k'
  end.

Definition stored {D} `{Lmdb D} (d : D) (k : Key) : Prop := is_Some (mdb_get d k).

(** LMDB refuses empty and overlong keys. *)
Definition key_ok {D} `{Lmdb D} (d : D) (k : Key) : Prop :=
  (0 < length k ≤ mdb_env_get_maxkeysize d)%nat.

Class LmdbLaws (D : Type) `{Lmdb D} := {
  mdb_put_maxkeysize d k v no : mdb_env_get_maxkeysize (mdb_put d k v no).1 = mdb_env_get_maxkeysize d;
  mdb_del_maxkeysize d k : mdb_env_get_maxkeysize (mdb_del d k).1 = mdb_env_get_maxkeysize d;
  mdb_stored_ok d k : stored d k → key_ok d k;
  mdb_put_rc d k v no : key_ok d k →
    (mdb_put d k v no).2 = (if no && bool_decide (stored d k) then MDB_KEYEXIST else MDB_SUCCESS);
  mdb_put_get d k v no k' :
    mdb_get (mdb_put d k v no).1 k' =
      if bool_decide ((mdb_put d k v no).2 = MDB_SUCCESS ∧ k' = k) then Some v else mdb_get d k';
  mdb_put_bad d k v no : ¬ key_ok d k → (mdb_put d k v no).2 = MDB_OTHER;
  mdb_del_rc d k : k ≠ [] →
    (mdb_del d k).2 = (if bool_decide (stored d k) then MDB_SUCCESS else MDB_NOTFOUND);
  mdb_del_get d k k' :
    mdb_get (mdb_del d k).1 k' =
      if bool_decide ((mdb_del d k).2 = MDB_SUCCESS ∧ k' = k) then None else mdb_get d k';
  mdb_first_least d : is_least (stored d) (mdb_first d);
  mdb_last_greatest d : is_greatest (stored d) (mdb_last d);
  mdb_set_range_least d k : is_least (λ k', stored d k' ∧ lex_ltb k' k = false) (mdb_set_range d k);
  mdb_next_least d k : is_least (λ k', stored d k' ∧ lex_ltb k k' = true) (mdb_next d k);
  mdb_prev_greatest d k : is_greatest (λ k', stored d k' ∧ lex_ltb k' k = true) (mdb_prev d k);
  mdb_entries_bound d l : NoDup l → Forall (stored d) l → (length l ≤ mdb_entries d)%nat;
}.

(** ** The wrappers *)

Section wrappers.
Context {D : Type} `{Lmdb D}.

Definition put (d : D) (key : Key) (value : Value) (nooverwrite : bool) : result D :=
  let '(d', r) := mdb_put d key value nooverwrite in
  if negb (bool_decide (r = MDB_SUCCESS)) && negb (bool_decide (r = MDB_KEYEXIST)) then
    Throw "DBlmdb::put failed"
  else if nooverwrite && bool_decide (r = MDB_KEYEXIST) then
    Throw "DBlmdb::put failed or nooverwrite key already exists"
  else Ok d'.

Definition get (d : D) (key : Key) : option Value := mdb_get d key.

Definition del (d : D) (key : Key) (mustexist : bool) : result D :=
  let '(d', r) := mdb_del d key in
  if negb (bool_decide (r = MDB_SUCCESS)) && negb (bool_decide (r = MDB_NOTFOUND)) then
    Throw "DBlmdb::del failed"
  else if mustexist && bool_decide (r = MDB_NOTFOUND) then
    Throw "DBlmdb::del key does not exist"
  else Ok d'.

(** A cursor: where LMDB's own cursor stands, and what the class keeps. *)
Record Cursor := {
  position : option Key;
  suffix : Key;
  data : Value;
  is_end : bool;
  prefix : Key;
  forward : bool;
}.

(** [check_prefix] on the key the LMDB cursor moved to, [None] when it found
    none. *)
Definition check_prefix (d : D) (prefix : Key) (forward : bool) (itkey : option Key) : Cursor :=
  match itkey with
  | Some k =>
      if (length k <? length prefix)%nat || negb (bool_decide (take (length prefix) k = prefix)) then
        {| position := Some k; suffix := []; data := []; is_end := true;
           prefix := prefix; forward := forward |}
      else
        {| position := Some k; suffix := drop (length prefix) k; data := default [] (mdb_get d k);
           is_end := false; prefix := prefix; forward := forward |}
  | None =>
      {| position := None; suffix := []; data := []; is_end := true;
         prefix := prefix; forward := forward |}
  end.

(** [Cursor::Cursor]. *)
Definition make_Cursor (d : D) (prefix middle : Key) (max_key_size : nat) (forward : bool) : Cursor :=
  let start := prefix ++ middle in
  let itkey :=
    if forward then
      if bool_decide (start = []) then mdb_first d else mdb_set_range d start
    else if bool_decide (start = []) then mdb_last d
    else
      let start := start ++ replicate (max_key_size - length start) 0xff in
      match mdb_set_range d start with
      | Some k => mdb_prev d k
      | None => mdb_last d
      end in
  check_prefix d prefix forward itkey.

Definition begin (d : D) (prefix middle : Key) : Cursor :=
  make_Cursor d prefix middle (mdb_env_get_maxkeysize d) true.
Definition rbegin (d : D) (prefix middle : Key) : Cursor :=
  make_Cursor d prefix middle (mdb_env_get_maxkeysize d) false.

Definition next (d : D) (c : Cursor) : Cursor :=
  check_prefix d (prefix c) (forward c)
    (k ← position c; if forward c then mdb_next d k else mdb_prev d k).

(** After [mdb_cursor_del] the neighbours of the deleted key are found from
    where it stood. *)
Definition erase (d : D) (c : Cursor) : result (D * Cursor) :=
  if is_end c then Ok (d, c)
  else
    match position c with
    | Some k =>
        let '(d', r) := mdb_del d k in
        if bool_decide (r = MDB_SUCCESS) then Ok (d', next d' c) else Throw "mdb_cursor_del "
    | None => Ok (d, c)
    end.

Definition get_approximate_items_count (d : D) : Z := Z.of_nat (mdb_entries d).

(** [for (auto cur = ..; !cur.end(); cur.next())] over a database that the body
    [f] does not change; [f] says whether to go on.  A cursor stands at every
    entry at most once, so [fuel] is their number. *)
Fixpoint cursor_loop {A} (fuel : nat) (d : D) (c : Cursor) (f : A → Cursor → result (bool * A)) (a : A) : result A :=
  if is_end c then Ok a
  else
    match fuel with
    | O => Undefined "fuel"
    | S fuel =>
        '(go_on, a) ← f a c;
        if go_on : bool then cursor_loop fuel d (next d c) f a else Ok a
    end.
Definition for_cursor {A} (d : D) (c : Cursor) (f : A → Cursor → result (bool * A)) (a : A) : result A :=
  cursor_loop (mdb_entries d) d c f a.

End wrappers.

(** *** Keys *)

Definition hex_digit (v : Z) : Z := if v <? 10 then 48 + v else 55 + v.

(** [sprintf("%08X")] of a 32-bit word. *)
Definition to_ascending_key (key : Z) : Key :=
  (λ k : nat, hex_digit (Z.shiftr key (4 * Z.of_nat k) mod 16)) <$> rev (seq 0 8).

Definition digit_value (c : Z) : option Z :=
  if (48 <=? c) && (c <=? 57) then Some (c - 48)
  else if (65 <=? c) && (c <=? 70) then Some (c - 55)
  else if (97 <=? c) && (c <=? 102) then Some (c - 87)
  else None.

Fixpoint hex_prefix (v : Z) (s : list Z) : Z :=
  match s with
  | c :: s => match digit_value c with Some x => hex_prefix (16 * v + x) s | None => v end
  | [] => v
  end.

Fixpoint skip_space (s : list Z) : list Z :=
  match s with
  | c :: s' => if (c =? 32) || ((9 <=? c) && (c <=? 13)) then skip_space s' else s
  | [] => []
  end.

(** [std::stoull(key, nullptr, 16)]. *)
Definition stoull16 (s : list Z) : result Z :=
  let s := skip_space s in
  let '(negative, s) :=
    match s with
    | c :: s' => if c =? 45 then (true, s') else if c =? 43 then (false, s') else (false, s)
    | [] => (false, s)
    end in
  let s :=
    match s with
    | z :: x :: c :: r =>
        if (z =? 48) && ((x =? 120) || (x =? 88)) && bool_decide (is_Some (digit_value c)) then c :: r else s
    | _ => s
    end in
  match s with
  | c :: _ =>
      match digit_value c with
      | None => Throw "stoull: no conversion"
      | Some _ =>
          let v := hex_prefix 0 s in
          if v >? UINT64_MAX then Throw "stoull: out of range"
          else Ok (if negative then u64 (- v) else v)
      end
  | [] => Throw "stoull: no conversion"
  end.

Definition from_ascending_key (key : Key) : result Z :=
  v ← stoull16 key;
  if v <=? UINT32_MAX then Ok v else Throw "bad lexical cast".

Definition clean_key (key : Key) : Key :=
  (λ ch,
     let uch := if ch >=? 128 then ch - 128 else ch in
     let uch := if uch =? 127 then 70 else uch in
     if uch <? 32 then 48 + uch else uch) <$> key.

(** ** An instance *)

(** The least key of a list that satisfies [P], in the order [lt]. *)
Definition pick (lt : Key → Key → bool) (P : Key → bool) (l : list Key) : option Key :=
  foldr (λ k acc,
    if P k then
      match acc with Some k' => if lt k' k then acc else Some k | None => Some k end
    else acc) None l.

Definition keys (d : gmap Key Value) : list Key := (map_to_list d).*1.
Definition MAX_KEY_SIZE : nat := 511.
Definition size_ok (k : Key) : bool := (0 <? length k)%nat && (length k <=? MAX_KEY_SIZE)%nat.

(** Finite maps whose keys have sizes LMDB accepts. *)
Definition memory_db : Type := { d : gmap Key Value | map_Forall (λ k _, size_ok k = true) d }.

Definition memory_put (d : memory_db) (k : Key) (v : Value) (Hk : size_ok k = true) : memory_db :=
  exist _ (<[k := v]> (`d)) (map_Forall_insert_2 _ _ _ _ Hk (proj2_sig d)).
Definition memory_del (d : memory_db) (k : Key) : memory_db :=
  exist _ (delete k (`d)) (map_Forall_delete _ _ _ (proj2_sig d)).

Definition gt (a b : Key) : bool := lex_ltb b a.

Global Instance memory_lmdb : Lmdb memory_db := {|
  mdb_env_get_maxkeysize _ := MAX_KEY_SIZE;
  mdb_get d k := `d !! k;
  mdb_put d k v no :=
    match bool_dec (size_ok k) true with
    | left Hk =>
        if no && bool_decide (is_Some (`d !! k)) then (d, MDB_KEYEXIST)
        else (memory_put d k v Hk, MDB_SUCCESS)
    | right _ => (d, MDB_OTHER)
    end;
  mdb_del d k :=
    if bool_decide (k = []) then (d, MDB_OTHER)
    else if bool_decide (is_Some (`d !! k)) then (memory_del d k, MDB_SUCCESS) else (d, MDB_NOTFOUND);
  mdb_first d := pick lex_ltb (λ _, true) (keys (`d));
  mdb_last d := pick gt (λ _, true) (keys (`d));
  mdb_set_range d k := pick lex_ltb (λ k', negb (lex_ltb k' k)) (keys (`d));
  mdb_next d k := pick lex_ltb (λ k', lex_ltb k k') (keys (`d));
  mdb_prev d k := pick gt (λ k', lex_ltb k' k) (keys (`d));
  mdb_entries d := base.size (`d);
|}.

Lemma elem_of_keys d k : k ∈ keys d ↔ is_Some (d !! k).
Proof.
  unfold keys. rewrite list_elem_of_fmap. split.
  - intros ([k' v] & -> & Hin). apply elem_of_map_to_list in Hin. by exists v.
  - intros [v Hv]. exists (k, v). by rewrite elem_of_map_to_list.
Qed.

Section pick.
Context (lt : Key → Key → bool).
Hypothesis lt_irrefl : ∀ a, lt a a = false.
Hypothesis lt_trans : ∀ a b c, lt a b = true → lt b c = true → lt a c = true.
Hypothesis lt_total : ∀ a b, a = b ∨ lt a b = true ∨ lt b a = true.

Lemma pick_spec P l :
  match pick lt P l with
  | Some k => (k ∈ l ∧ P k = true) ∧ ∀ k', k' ∈ l ∧ P k' = true → lt k' k = false
  | None => ∀ k', ¬ (k' ∈ l ∧ P k' = true)
  end.
Proof.
  induction l as [|x l IH]; cbn [pick foldr]; [by intros k' [?%not_elem_of_nil ?]|].
  fold (pick lt P l). destruct (P x) eqn:Hx.
  - destruct (pick lt P l) as [k|].
    + destruct IH as [[Hk HP] Hmin]. destruct (lt k x) eqn:Hkx.
      * split; [split; [by right|done]|]. intros k' [[->|Hin]%elem_of_cons HP'].
        -- destruct (lt x k) eqn:Hxk; [|done]. pose proof (lt_trans _ _ _ Hkx Hxk). by rewrite lt_irrefl in *.
        -- by apply Hmin.
      * split; [split; [by left|done]|]. intros k' [[->|Hin]%elem_of_cons HP']; [apply lt_irrefl|].
        destruct (lt k' x) eqn:Hk'x; [|done]. specialize (Hmin k' (conj Hin HP')).
        destruct (lt_total x k) as [->|[Hxk|Hxk]]; [congruence| |congruence].
        rewrite (lt_trans _ _ _ Hk'x Hxk) in Hmin. done.
    + split; [split; [by left|done]|]. intros k' [[->|Hin]%elem_of_cons HP']; [apply lt_irrefl|].
      by destruct (IH k').
  - destruct (pick lt P l) as [k|].
    + destruct IH as [[Hk HP] Hmin]. split; [split; [by right|done]|].
      intros k' [[->|Hin]%elem_of_cons HP']; [congruence|by apply Hmin].
    + intros k' [[->|Hin]%elem_of_cons HP']; [congruence|by apply (IH k')].
Qed.

End pick.

Lemma gt_trans a b c : gt a b = true → gt b c = true → gt a c = true.
Proof. unfold gt. intros. by eapply lex_ltb_trans. Qed.
Lemma gt_total a b : a = b ∨ gt a b = true ∨ gt b a = true.
Proof. unfold gt. destruct (lex_ltb_total a b) as [|[]]; auto. Qed.

Lemma pick_least (d : gmap Key Value) P (S : Key → Prop) :
  (∀ k, S k ↔ is_Some (d !! k) ∧ P k = true) → is_least S (pick lex_ltb P (keys d)).
Proof.
  intros HS. pose proof (pick_spec lex_ltb lex_ltb_irrefl lex_ltb_trans lex_ltb_total P (keys d)) as Hp.
  unfold is_least. destruct (pick _ _ _) as [k|]; setoid_rewrite HS; setoid_rewrite elem_of_keys in Hp;
    naive_solver.
Qed.

Lemma pick_greatest (d : gmap Key Value) P (S : Key → Prop) :
  (∀ k, S k ↔ is_Some (d !! k) ∧ P k = true) → is_greatest S (pick gt P (keys d)).
Proof.
  intros HS. pose proof (pick_spec gt lex_ltb_irrefl gt_trans gt_total P (keys d)) as Hp.
  unfold is_greatest. destruct (pick _ _ _) as [k|]; setoid_rewrite HS; setoid_rewrite elem_of_keys in Hp;
    naive_solver.
Qed.

Lemma size_ok_spec k : size_ok k = true ↔ (0 < length k ≤ MAX_KEY_SIZE)%nat.
Proof. unfold size_ok. rewrite andb_true_iff, Nat.ltb_lt, Nat.leb_le. done. Qed.

Global Instance memory_lmdb_laws : LmdbLaws memory_db.
Proof.
  split.
  - done.
  - done.
  - intros [d Hd] k [v Hv]. unfold key_ok. cbn. apply size_ok_spec, (Hd k v Hv).
  - intros d k v no Hk. cbn. destruct (bool_dec _ _) as [Hs|[]]; [|by apply size_ok_spec in Hk].
    unfold stored. cbn. by destruct (no && _).
  - intros d k v no k'. cbn. destruct (bool_dec _ _) as [Hs|Hs]; cbn.
    + destruct (no && _); cbn.
      * by rewrite bool_decide_eq_false_2 by (by intros [? _]).
      * destruct (decide (k' = k)) as [->|Hne].
        -- by rewrite lookup_insert_eq, bool_decide_eq_true_2.
        -- rewrite lookup_insert_ne, bool_decide_eq_false_2 by naive_solver. done.
    + by rewrite bool_decide_eq_false_2 by (by intros [? _]).
  - intros d k v no Hk. cbn. destruct (bool_dec _ _) as [Hs|Hs]; [|done]. destruct Hk. by apply size_ok_spec in Hs.
  - intros d k Hk. cbn. rewrite bool_decide_eq_false_2 by done. unfold stored. cbn. by destruct (bool_decide _).
  - intros d k k'. cbn. destruct (bool_decide (k = [])); cbn; [|destruct (bool_decide (is_Some _)); cbn].
    + by rewrite bool_decide_eq_false_2 by (by intros [? _]).
    + destruct (decide (k' = k)) as [->|Hne].
      * by rewrite lookup_delete_eq, bool_decide_eq_true_2.
      * rewrite lookup_delete_ne, bool_decide_eq_false_2 by naive_solver. done.
    + by rewrite bool_decide_eq_false_2 by (by intros [? _]).
  - intros d. apply pick_least. unfold stored. cbn. naive_solver.
  - intros d. apply pick_greatest. unfold stored. cbn. naive_solver.
  - intros d k. apply pick_least. unfold stored. cbn. intros k'. by rewrite negb_true_iff.
  - intros d k. apply pick_least. unfold stored. cbn. done.
  - intros d k. apply pick_greatest. unfold stored. cbn. done.
  - intros d l Hnd Hl. cbn. rewrite <- length_map_to_list, <- (length_fmap fst (map_to_list (`d))).
    apply submseteq_length, NoDup_submseteq; [done|]. intros k Hk. rewrite Forall_forall in Hl. by apply elem_of_keys, Hl.
Qed.

(** ** What the wrappers do *)

Section laws.
Context {D : Type} `{LmdbLaws D}.

(** [written d k v d'] : [d'] is [d] with [k] bound to [v] ([None]: unbound). *)
Definition written (d : D) (k : Key) (v : option Value) (d' : D) : Prop :=
  mdb_env_get_maxkeysize d' = mdb_env_get_maxkeysize d ∧
  ∀ k', get d' k' = if decide (k' = k) then v else get d k'.

Lemma put_ok d k v no : key_ok d k → (no = true → get d k = None) →
  ∃ d', put d k v no = Ok d' ∧ written d k (Some v) d'.
Proof.
  intros Hk Hno. unfold put, written, get in *. pose proof (mdb_put_rc d k v no Hk) as Hrc.
  pose proof (mdb_put_get d k v no) as Hget. pose proof (mdb_put_maxkeysize d k v no) as Hm.
  assert ((if no && bool_decide (stored d k) then MDB_KEYEXIST else MDB_SUCCESS) = MDB_SUCCESS) as Heq.
  { destruct no; [|done]. cbn [andb]. rewrite bool_decide_eq_false_2; [done|].
    unfold stored. rewrite Hno by done. by intros []. }
  rewrite Heq in Hrc. destruct (mdb_put d k v no) as [d' r]. simpl in *. subst r.
  rewrite andb_false_r. exists d'. split; [done|]. split; [done|]. intros k'. rewrite Hget.
  destruct (decide (k' = k)) as [->|Hne]; [by rewrite bool_decide_eq_true_2|].
    by rewrite bool_decide_eq_false_2 by naive_solver.
Qed.

Lemma put_exists d k v : key_ok d k → stored d k →
  put d k v true = Throw "DBlmdb::put failed or nooverwrite key already exists".
Proof.
  intros Hk Hs. unfold put. pose proof (mdb_put_rc d k v true Hk) as Hrc.
  rewrite (bool_decide_eq_true_2 _ Hs) in Hrc. destruct (mdb_put d k v true) as [d' r].
  simpl in *. by subst r.
Qed.

Lemma del_total d k must : k ≠ [] → (must = true → stored d k) →
  ∃ d', del d k must = Ok d' ∧ written d k None d'.
Proof.
  intros Hk Hm. unfold del, written, get. pose proof (mdb_del_rc d k Hk) as Hrc.
  pose proof (mdb_del_get d k) as Hget. pose proof (mdb_del_maxkeysize d k) as Hmx.
  destruct (mdb_del d k) as [d' r]. simpl in *.
  case_bool_decide as Hs; subst r; simpl.
  - rewrite andb_false_r. exists d'. split; [done|]. split; [done|]. intros k'. rewrite Hget.
    destruct (decide (k' = k)) as [->|Hne]; [by rewrite bool_decide_eq_true_2|].
    by rewrite bool_decide_eq_false_2 by naive_solver.
  - rewrite andb_true_r. destruct must; [exfalso; by apply Hs, Hm|]. exists d'. split; [done|].
    split; [done|]. intros k'. rewrite Hget, bool_decide_eq_false_2 by naive_solver.
    destruct (decide (k' = k)) as [->|Hne]; [|done]. unfold stored in Hs. destruct (mdb_get d k); [by destruct Hs|done].
Qed.

Lemma del_absent d k : k ≠ [] → ¬ stored d k →
  del d k true = Throw "DBlmdb::del key does not exist".
Proof.
  intros Hk Hs. unfold del. pose proof (mdb_del_rc d k Hk) as Hrc.
  rewrite (bool_decide_eq_false_2 _ Hs) in Hrc. destruct (mdb_del d k) as [d' r].
  simpl in *. by subst r.
Qed.

Lemma key_ok_nonempty d k : key_ok d k → k ≠ [].
Proof. intros [Hk _] ->. simpl in Hk. lia. Qed.

Lemma del_ok d k must : key_ok d k → (must = true → stored d k) →
  ∃ d', del d k must = Ok d' ∧ written d k None d'.
Proof. intros Hk%key_ok_nonempty. by apply del_total. Qed.
Lemma del_missing d k : key_ok d k → ¬ stored d k → del d k true = Throw "DBlmdb::del key does not exist".
Proof. intros Hk%key_ok_nonempty. by apply del_absent. Qed.

(** What a successful call says. *)
Lemma put_inv d k v no d' : put d k v no = Ok d' →
  key_ok d k ∧ (no = true → get d k = None) ∧ written d k (Some v) d'.
Proof.
  intros Hp. destruct (decide (key_ok d k)) as [Hk|Hk].
  - destruct (decide (no = true ∧ stored d k)) as [[-> Hs]|Hn]; [by rewrite put_exists in Hp|].
    assert (no = true → get d k = None) as Hno.
    { intros ->. unfold get, stored in *. destruct (mdb_get d k); [|done]. destruct Hn; by eauto. }
    destruct (put_ok d k v no Hk Hno) as (d2 & Hp2 & Hw). rewrite Hp in Hp2. by injection Hp2 as <-.
  - unfold put in Hp. pose proof (mdb_put_bad d k v no Hk) as Hb. destruct (mdb_put d k v no) as [d2 r]. cbn in Hb. by subst r.
Qed.

Lemma del_inv d k must d' : k ≠ [] → del d k must = Ok d' → (must = true → stored d k) ∧ written d k None d'.
Proof.
  intros Hk Hd. destruct (decide (must = true ∧ ¬ stored d k)) as [[-> Hs]|Hn]; [by rewrite del_absent in Hd|].
  assert (must = true → stored d k) as Hm.
  { intros ->. destruct (decide (stored d k)) as [?|Hs]; [done|]. by destruct Hn. }
  destruct (del_total d k must Hk Hm) as (d2 & Hd2 & Hw). rewrite Hd in Hd2. by injection Hd2 as <-.
Qed.

Lemma written_stored d k v d' k' :
  written d k v d' → stored d' k' ↔ (k' = k ∧ is_Some v) ∨ (k' ≠ k ∧ stored d k').
Proof.
  intros [_ Hw]. unfold stored. specialize (Hw k'). unfold get in Hw. rewrite Hw.
  case_decide; naive_solver.
Qed.

(** *** Cursors *)

Lemma lex_ltb_nil_r a : lex_ltb a [] = false.
Proof. by destruct a. Qed.

Lemma lex_between p s t k :
  lex_ltb k (p ++ s) = false → lex_ltb k (p ++ t) = true → ∃ u, k = p ++ u.
Proof.
  revert k. induction p as [|x p IH]; intros k; [by exists k|]. cbn [app].
  destruct k as [|y k]; simpl; [done|].
  destruct (Z.ltb_spec y x); [done|]. destruct (Z.ltb_spec x y); [done|].
  intros K1 K2. assert (x = y) as -> by lia. destruct (IH k K1 K2) as [u ->]. by exists u.
Qed.

Lemma lex_ltb_below_ff s n : bytes s → (length s < n)%nat → lex_ltb s (replicate n 0xff) = true.
Proof.
  revert n. induction s as [|b s IH]; intros [|n] Hb Hn; simpl in *; try lia; try done.
  apply Forall_cons in Hb as [Hb Hs]. unfold is_byte in Hb.
  destruct (Z.ltb_spec b 255); [done|]. replace (255 <? b) with false by lia. apply IH; [done|lia].
Qed.

Lemma lex_ltb_ff_ne s n : bytes s → s ≠ replicate n 0xff → length s = n → lex_ltb s (replicate n 0xff) = true.
Proof.
  revert n. induction s as [|b s IH]; intros [|n] Hb Hne Hn; simpl in *; try done.
  apply Forall_cons in Hb as [Hb Hs]. unfold is_byte in Hb.
  destruct (Z.ltb_spec b 255); [done|]. replace (255 <? b) with false by lia.
  apply IH; [done| |lia]. intros ->. apply Hne. f_equal. lia.
Qed.

Lemma lex_ltb_asym a b : lex_ltb a b = true → lex_ltb b a = false.
Proof.
  intros Hab. destruct (lex_ltb b a) eqn:Hba; [|done].
  pose proof (lex_ltb_trans _ _ _ Hab Hba). by rewrite lex_ltb_irrefl in *.
Qed.

Lemma is_greatest_ext (S T : Key → Prop) o : (∀ k, S k ↔ T k) → is_greatest T o → is_greatest S o.
Proof. intros HST. unfold is_greatest. destruct o; setoid_rewrite HST; done. Qed.

Lemma lex_ltb_prefix p s : lex_ltb (p ++ s) p = false.
Proof. induction p as [|x p IH]; simpl; [apply lex_ltb_nil_r|]. by rewrite Z.ltb_irrefl. Qed.

Lemma check_prefix_match d p fwd s :
  check_prefix d p fwd (Some (p ++ s)) =
    {| position := Some (p ++ s); suffix := s; data := default [] (get d (p ++ s)); is_end := false;
       prefix := p; forward := fwd |}.
Proof.
  unfold check_prefix. rewrite length_app.
  replace (length p + length s <? length p)%nat with false by (symmetry; apply Nat.ltb_ge; lia).
  rewrite take_app_length, drop_app_length. by rewrite bool_decide_eq_true_2.
Qed.

Lemma check_prefix_end d p fwd o :
  (∀ s, o ≠ Some (p ++ s)) → is_end (check_prefix d p fwd o) = true.
Proof.
  intros Ho. unfold check_prefix. destruct o as [k|]; [|done].
  destruct (_ <? _)%nat; [done|]. cbn [orb]. case_bool_decide as Hk; [|done].
  destruct (Ho (drop (length p) k)). f_equal. rewrite <- Hk at 1. symmetry. apply take_drop.
Qed.

Lemma check_prefix_fields d p fwd o :
  prefix (check_prefix d p fwd o) = p ∧ forward (check_prefix d p fwd o) = fwd.
Proof. unfold check_prefix. by repeat case_match. Qed.

Lemma prefixed (p : Key) (o : option Key) : (∃ s, o = Some (p ++ s)) ∨ ∀ s, o ≠ Some (p ++ s).
Proof.
  destruct o as [k|]; [|by right]. destruct (decide (p `prefix_of` k)) as [[s ->]|Hp]; [left; by exists s|].
  right. intros s [= ->]. apply Hp. by exists s.
Qed.

(** A cursor of prefix [p] that stands at the least (greatest) of the keys [S]
    of that prefix, or is at its end when there is none. *)
Definition cursor_at (d : D) (c : Cursor) (p : Key) (fwd : bool) (S : Key → Prop) : Prop :=
  prefix c = p ∧ forward c = fwd ∧
  if is_end c then ∀ s, ¬ S (p ++ s)
  else position c = Some (p ++ suffix c) ∧ get d (p ++ suffix c) = Some (data c) ∧
    S (p ++ suffix c) ∧
    ∀ s, S (p ++ s) → (if fwd then lex_ltb s (suffix c) else lex_ltb (suffix c) s) = false.

Lemma check_prefix_cursor d p (fwd : bool) (o : option Key) (S T : Key → Prop) :
  (if fwd then is_least T o else is_greatest T o) →
  (∀ k, T k → stored d k) →
  (∀ s, S (p ++ s) ↔ T (p ++ s)) →
  (∀ k s, T k → T (p ++ s) → (if fwd then lex_ltb (p ++ s) k else lex_ltb k (p ++ s)) = false →
     ∃ u, k = p ++ u) →
  cursor_at d (check_prefix d p fwd o) p fwd S.
Proof.
  intros Ho Hst HS Hpre. unfold cursor_at.
  assert (∀ k s, o = Some k → T (p ++ s) → (if fwd then lex_ltb (p ++ s) k else lex_ltb k (p ++ s)) = false)
    as Hext.
  { intros k s -> Hs. destruct fwd; by apply Ho. }
  destruct (prefixed p o) as [[s ->]|Hno].
  - rewrite check_prefix_match. cbn. split_and!; try done.
    + assert (T (p ++ s)) as [v Hv]%Hst by (destruct fwd; by apply Ho). unfold get. by rewrite Hv.
    + apply HS. destruct fwd; by apply Ho.
    + intros s' Hs'. apply HS in Hs'. specialize (Hext _ s' eq_refl Hs').
      destruct fwd; by rewrite lex_ltb_app in Hext.
  - destruct (check_prefix_fields d p fwd o) as [-> ->]. split_and!; [done..|].
    rewrite check_prefix_end by naive_solver. intros s Hs%HS.
    destruct o as [k|].
    + assert (T k) as Hk by (destruct fwd; by apply Ho).
      destruct (Hpre k s Hk Hs (Hext k s eq_refl Hs)) as [u ->]. by apply (Hno u).
    + destruct fwd; by apply (Ho (p ++ s)).
Qed.

(** [begin] stands at the least key of the prefix from [middle] on. *)
Lemma begin_cursor d p middle : (p ++ middle ≠ []) →
  cursor_at d (begin d p middle) p true (λ k, stored d k ∧ lex_ltb k (p ++ middle) = false).
Proof.
  intros Hne. unfold begin, make_Cursor. rewrite bool_decide_eq_false_2 by done.
  apply (check_prefix_cursor _ _ true _ _ (λ k, stored d k ∧ lex_ltb k (p ++ middle) = false)).
  - apply mdb_set_range_least.
  - by intros k [? _].
  - done.
  - intros k s [Hk Hlow] [Hs _] Hle.
    destruct (lex_ltb_total k (p ++ s)) as [->|[Hlt|Hlt]]; [by exists s| |congruence].
    by apply (lex_between _ middle s).
Qed.

(** [next] moves to the following key of the prefix in the cursor's
    direction. *)
Lemma next_cursor d c p (fwd : bool) :
  prefix c = p → forward c = fwd → position c = Some (p ++ suffix c) →
  cursor_at d (next d c) p fwd
    (λ k, stored d k ∧ (if fwd then lex_ltb (p ++ suffix c) k else lex_ltb k (p ++ suffix c)) = true).
Proof.
  intros Hp Hf Hpos. unfold next. rewrite Hp, Hf, Hpos. cbn [mbind option_bind].
  apply (check_prefix_cursor _ _ fwd _ _
    (λ k, stored d k ∧ (if fwd then lex_ltb (p ++ suffix c) k else lex_ltb k (p ++ suffix c)) = true)).
  - destruct fwd; [apply mdb_next_least|apply mdb_prev_greatest].
  - by intros k [? _].
  - done.
  - intros k s [Hk Hlow] [Hs Hs'] Hle.
    destruct (lex_ltb_total k (p ++ s)) as [->|Hlt]; [by exists s|].
    destruct fwd.
    + destruct Hlt as [Hlt|]; [|congruence]. apply (lex_between _ (suffix c) s); [|done].
      destruct (lex_ltb k (p ++ suffix c)) eqn:E; [|done]. by rewrite (lex_ltb_asym _ _ Hlow) in E.
    + destruct Hlt as [|Hlt]; [congruence|]. apply (lex_between _ s (suffix c)); [|done].
      by apply lex_ltb_asym.
Qed.

(** [rbegin] stands at the greatest key of the prefix.  It seeks the prefix
    filled up with 0xff bytes to the size of the largest key, so it relies on
    no stored key being those bytes. *)
Lemma rbegin_cursor d p :
  p ≠ [] → bytes p → (∀ k, stored d k → bytes k) →
  ¬ stored d (p ++ replicate (mdb_env_get_maxkeysize d - length p) 0xff) →
  cursor_at d (rbegin d p []) p false (stored d).
Proof.
  intros Hne Hp Hby Hff. unfold rbegin, make_Cursor. rewrite app_nil_r, bool_decide_eq_false_2 by done.
  set (start := p ++ replicate _ _) in *.
  assert (∀ s, stored d (p ++ s) → lex_ltb (p ++ s) start = true) as Hbelow.
  { intros s Hs. unfold start. rewrite lex_ltb_app. pose proof (mdb_stored_ok d _ Hs) as Hok.
    unfold key_ok in Hok. rewrite length_app in Hok. pose proof (Hby _ Hs) as [_ Hbs]%Forall_app.
    destruct (decide (length s = mdb_env_get_maxkeysize d - length p)%nat) as [Heq|].
    - rewrite <- Heq. apply lex_ltb_ff_ne; [done| |done]. intros Hr. apply Hff. unfold start.
      by rewrite <- Heq, <- Hr.
    - apply lex_ltb_below_ff; [done|lia]. }
  assert (is_greatest (λ k, stored d k ∧ lex_ltb k start = true)
    match mdb_set_range d start with Some k => mdb_prev d k | None => mdb_last d end) as Hg.
  { pose proof (mdb_set_range_least d start) as Hr. destruct (mdb_set_range d start) as [k0|]; cbn in Hr.
    - destruct Hr as [[Hk0 Hge] Hmin]. pose proof (mdb_prev_greatest d k0) as Hpg.
      eapply is_greatest_ext; [|exact Hpg]. intros k. cbn. split; intros [Hk Hl]; split; [done| |done|].
      + destruct (lex_ltb_total k0 start) as [->|[|Hgt]]; [done|congruence|].
        by eapply lex_ltb_trans.
      + destruct (lex_ltb k start) eqn:E; [done|]. by rewrite (Hmin k) in Hl.
    - pose proof (mdb_last_greatest d) as Hlast. eapply is_greatest_ext; [|exact Hlast].
      intros k. cbn. split; [by intros [? _]|]. intros Hk. split; [done|].
      destruct (lex_ltb k start) eqn:E; [done|]. by destruct (Hr k). }
  apply (check_prefix_cursor _ _ false _ _ (λ k, stored d k ∧ lex_ltb k start = true)); [done|..].
  - by intros k [? _].
  - intros s. split; [auto|by intros [? _]].
  - intros k s [Hk Hl] [Hs Hsl] Hle. unfold start in Hl. apply (lex_between _ s _ _ Hle Hl).
Qed.

(** *** Loops over a prefix *)

(** What a loop from [c] on visits: suffixes and values. *)
Fixpoint entries (fuel : nat) (d : D) (c : Cursor) : list (Key * Value) :=
  if is_end c then [] else match fuel with O => [] | S fuel => (suffix c, data c) :: entries fuel d (next d c) end.

(** The body on a list of entries. *)
Fixpoint visit {A} (f : A → Key * Value → result (bool * A)) (l : list (Key * Value)) (a : A) : result A :=
  match l with
  | [] => Ok a
  | e :: l => '(go_on, a) ← f a e; if go_on : bool then visit f l a else Ok a
  end.

(** [l] is what is stored under [p] and in [S], in the order of the keys. *)
Definition listing (d : D) (p : Key) (S : Key → Prop) (l : list (Key * Value)) : Prop :=
  StronglySorted (λ e e', lex_ltb e.1 e'.1 = true) l ∧
  ∀ s v, (s, v) ∈ l ↔ get d (p ++ s) = Some v ∧ S (p ++ s).

Lemma listing_loop {A} fuel d c p S (f : A → Cursor → result (bool * A)) (g : A → Key * Value → result (bool * A)) :
  cursor_at d c p true S → (∀ k, S k → stored d k) → (∀ k k', S k → stored d k' → lex_ltb k k' = true → S k') →
  (∀ ks, NoDup ks → Forall S ks → (length ks ≤ fuel)%nat) → (∀ a c, f a c = g a (suffix c, data c)) →
  listing d p S (entries fuel d c) ∧ ∀ a, cursor_loop fuel d c f a = visit g (entries fuel d c) a.
Proof.
  intros Hc HS Hup Hfuel Hfg. revert c S Hc HS Hup Hfuel. induction fuel as [|fuel IH]; intros c S Hc HS Hup Hfuel;
    destruct Hc as (Hp & Hf & Hc); cbn [entries cursor_loop]; destruct (is_end c) eqn:He.
  - split; [|done]. split; [constructor|]. intros s v. split; [by intros ?%elem_of_nil|]. intros [_ Hs]. by destruct (Hc s).
  - destruct Hc as (_ & _ & Hk & _). specialize (Hfuel [p ++ suffix c] ltac:(apply NoDup_singleton) ltac:(by apply Forall_singleton)).
    cbn in Hfuel. lia.
  - split; [|done]. split; [constructor|]. intros s v. split; [by intros ?%elem_of_nil|]. intros [_ Hs]. by destruct (Hc s).
  - destruct Hc as (Hpos & Hget & Hk & Hmin).
    destruct (IH (next d c) (λ k, stored d k ∧ lex_ltb (p ++ suffix c) k = true)) as [[Hsort Hin] Hloop].
    + by apply (next_cursor d c p true).
    + by intros k [? _].
    + intros k k' [_ Hlt] Hk' Hlt'. split; [done|]. by eapply lex_ltb_trans.
    + intros ks Hnd Hks. assert (length ((p ++ suffix c) :: ks) ≤ Datatypes.S fuel)%nat as Hlen; [|cbn in Hlen; lia].
      apply Hfuel.
      * apply NoDup_cons. split; [|done]. intros Hin. rewrite Forall_forall in Hks. destruct (Hks _ Hin) as [_ Hl].
        by rewrite lex_ltb_irrefl in Hl.
      * constructor; [done|]. eapply Forall_impl; [exact Hks|]. intros k [Hs Hl]. by eapply Hup.
    + split.
      * split; [constructor; [done|]|].
        -- apply Forall_forall. intros [s v] Hsv. apply Hin in Hsv as (_ & _ & Hl). by rewrite lex_ltb_app in Hl.
        -- intros s v. rewrite elem_of_cons, Hin. split.
           ++ intros [Heq|(Hg & Hs & Hl)]; [injection Heq as -> ->; done|]. split; [done|]. by eapply Hup.
           ++ intros [Hg Hs]. destruct (lex_ltb_total s (suffix c)) as [->|[Hl|Hl]]; [left; congruence|by rewrite Hmin in Hl|].
              right. split; [done|]. split; [by apply HS|]. by rewrite lex_ltb_app.
      * intros a. rewrite Hfg. cbn [visit]. destruct (g a (suffix c, data c)) as [[[|] a']| |]; [apply Hloop|done..].
Qed.

(** A loop from [begin] on visits what is stored under the prefix, from
    [middle] on, and comes to an end. *)
Lemma for_cursor_ok {A} d p middle (f : A → Cursor → result (bool * A)) g : p ++ middle ≠ [] →
  (∀ a c, f a c = g a (suffix c, data c)) →
  ∃ l, listing d p (λ k, stored d k ∧ lex_ltb k (p ++ middle) = false) l ∧ ∀ a, for_cursor d (begin d p middle) f a = visit g l a.
Proof.
  intros Hne Hfg. eexists. eapply listing_loop; [by apply begin_cursor|by intros k [? _]| | |done].
  - intros k k' [_ Hge] Hk' Hlt. split; [done|]. destruct (lex_ltb k' (p ++ middle)) eqn:Hx; [|done].
    by rewrite (lex_ltb_trans _ _ _ Hlt Hx) in Hge.
  - intros ks Hnd Hks. apply mdb_entries_bound; [done|]. eapply Forall_impl; [exact Hks|]. by intros k [? _].
Qed.

End laws.

(** *** Ascending keys *)

(** The last [n] hexadecimal digits of [key], most significant first. *)
Fixpoint nibbles (n : nat) (key : Z) : Key :=
  match n with
  | O => []
  | S n => hex_digit (Z.shiftr key (4 * Z.of_nat n) mod 16) :: nibbles n key
  end.

Lemma to_ascending_key_nibbles key : to_ascending_key key = nibbles 8 key.
Proof. done. Qed.

Lemma nibble_cases (P : Z → Prop) :
  Forall P (seqZ 0 16) → ∀ v, 0 ≤ v < 16 → P v.
Proof. intros HP v Hv. rewrite Forall_forall in HP. apply HP, elem_of_seqZ. lia. Qed.

Lemma digit_hex_digit v : 0 ≤ v < 16 → digit_value (hex_digit v) = Some v.
Proof. revert v. apply nibble_cases. by repeat constructor. Qed.

Lemma hex_digit_lt v w : 0 ≤ v < w → w < 16 → hex_digit v < hex_digit w.
Proof. unfold hex_digit. intros. repeat case_match; lia. Qed.

Lemma mod_16_S n a :
  a mod 16 ^ Z.of_nat (S n) =
    16 ^ Z.of_nat n * (Z.shiftr a (4 * Z.of_nat n) mod 16) + a mod 16 ^ Z.of_nat n.
Proof.
  rewrite Z.shiftr_div_pow2, Z.pow_mul_r by lia. change (2 ^ 4) with 16.
  rewrite Nat2Z.inj_succ, Z.pow_succ_r, (Z.mul_comm 16) by lia.
  rewrite Z.rem_mul_r by (try apply Z.pow_nonzero; lia). lia.
Qed.

Lemma hex_prefix_nibbles n key v :
  hex_prefix v (nibbles n key) = v * 16 ^ Z.of_nat n + key mod 16 ^ Z.of_nat n.
Proof.
  revert v. induction n as [|n IH]; intros v; [cbn; rewrite Z.mod_1_r; lia|].
  cbn [nibbles hex_prefix]. rewrite digit_hex_digit by (by apply Z.mod_pos_bound).
  rewrite IH, mod_16_S, Nat2Z.inj_succ, Z.pow_succ_r by lia. lia.
Qed.

Lemma nibbles_lex n a b :
  a mod 16 ^ Z.of_nat n < b mod 16 ^ Z.of_nat n → lex_ltb (nibbles n a) (nibbles n b) = true.
Proof.
  induction n as [|n IH]; [cbn; rewrite !Z.mod_1_r; lia|]. rewrite !mod_16_S. intros Hlt.
  set (x := Z.shiftr a _ mod 16) in *. set (y := Z.shiftr b _ mod 16) in *.
  assert (0 ≤ x < 16) by (by apply Z.mod_pos_bound). assert (0 ≤ y < 16) by (by apply Z.mod_pos_bound).
  assert (0 < 16 ^ Z.of_nat n) as Hpos by (apply Z.pow_pos_nonneg; lia).
  pose proof (Z.mod_pos_bound a _ Hpos). pose proof (Z.mod_pos_bound b _ Hpos).
  change (lex_ltb (hex_digit x :: nibbles n a) (hex_digit y :: nibbles n b) = true).
  destruct (Z.lt_trichotomy x y) as [Hxy|[->|Hxy]].
  - apply lex_ltb_head. apply hex_digit_lt; lia.
  - rewrite lex_ltb_cons. apply IH. lia.
  - assert (16 ^ Z.of_nat n * (y + 1) ≤ 16 ^ Z.of_nat n * x) by (apply Z.mul_le_mono_nonneg_l; lia). lia.
Qed.

Lemma mod_16_8 a : in_u 32 a → a mod 16 ^ Z.of_nat 8 = a.
Proof. intros. by apply Z.mod_small. Qed.

Lemma hex_digit_range v : 0 ≤ v < 16 → 48 ≤ hex_digit v ≤ 70.
Proof. unfold hex_digit. intros. case_match; lia. Qed.

Lemma stoull16_digits x y z s :
  48 ≤ x ≤ 70 → 48 ≤ y ≤ 70 → is_Some (digit_value x) → 0 ≤ hex_prefix 0 (x :: y :: z :: s) ≤ UINT64_MAX →
  stoull16 (x :: y :: z :: s) = Ok (hex_prefix 0 (x :: y :: z :: s)).
Proof.
  intros Hx Hy [v Hv] Hbound. unfold stoull16. cbn [skip_space].
  replace (x =? 32) with false by lia. replace (9 <=? x) with true by lia.
  replace (x <=? 13) with false by lia. cbn [orb andb].
  replace (x =? 45) with false by lia. replace (x =? 43) with false by lia.
  replace (y =? 120) with false by lia. replace (y =? 88) with false by lia. cbn [orb].
  rewrite andb_false_r. cbn [andb]. rewrite Hv.
  by replace (_ >? UINT64_MAX) with false by lia.
Qed.

Lemma stoull16_nibbles a : in_u 32 a → stoull16 (nibbles 8 a) = Ok a.
Proof.
  intros Ha. pose proof (hex_prefix_nibbles 8 a 0) as Hv. rewrite mod_16_8 in Hv by done.
  assert (∀ k, 0 ≤ Z.shiftr a k mod 16 < 16) as Hd by (intros k; by apply Z.mod_pos_bound).
  cbn [nibbles] in *. rewrite stoull16_digits; [by rewrite Hv|by apply hex_digit_range, Hd..| |].
  - rewrite digit_hex_digit by apply Hd. by eexists.
  - rewrite Hv. unfold in_u, UINT64_MAX in *. lia.
Qed.

(** ** Properties *)

(** Cursors find what they should in the ordered store: with [begin] and
    [rbegin] a cursor stands at the first (last) key of its prefix, holding
    its suffix and value, and is at its end exactly when there is none; [next]
    moves to the neighbouring key of the prefix and skips none. *)
Lemma cursor_scan {D : Type} `{LmdbLaws D} (d : D) (p middle : Key) :
  p ≠ [] → bytes p → (∀ k, stored d k → bytes k) →
  ¬ stored d (p ++ replicate (mdb_env_get_maxkeysize d - length p) 0xff) →
  cursor_at d (begin d p middle) p true (λ k, stored d k ∧ lex_ltb k (p ++ middle) = false) ∧
  cursor_at d (rbegin d p []) p false (stored d) ∧
  ∀ c fwd S, cursor_at d c p fwd S → is_end c = false →
    cursor_at d (next d c) p fwd
      (λ k, stored d k ∧ (if fwd then lex_ltb (p ++ suffix c) k else lex_ltb k (p ++ suffix c)) = true).
Proof.
  intros Hp Hb Hby Hff. split_and!.
  - apply begin_cursor. by destruct p.
  - by apply rbegin_cursor.
  - intros c fwd S (Hpr & Hf & Hc) He. rewrite He in Hc. apply (next_cursor _ _ _ _ Hpr Hf (proj1 Hc)).
Qed.

Definition sample_db : memory_db :=
  ltac:(refine (memory_put (memory_put (memory_put (exist _ ∅ _) [97; 5] [1] _) [97; 7; 1] [2] _) [98] [3] _);
        [apply map_Forall_empty|reflexivity..]).

Lemma cursor_scan_witness :
  cursor_at sample_db (rbegin sample_db [97] []) [97] false (stored sample_db) ∧
  suffix (rbegin sample_db [97] []) = [7; 1] ∧
  suffix (next sample_db (rbegin sample_db [97] [])) = [5].
Proof.
  destruct (cursor_scan sample_db [97] []) as (_ & Hr & _).
  - done.
  - by apply (bool_decide_unpack _).
  - assert (Forall bytes (keys (`sample_db))) as Hb
      by (apply (bool_decide_unpack _); vm_compute; exact I).
    intros k Hk. rewrite Forall_forall in Hb. by apply Hb, elem_of_keys.
  - intros [v Hv]. vm_compute in Hv. discriminate.
  - split_and!; [exact Hr|by vm_compute|by vm_compute].
Defined.

(** Ascending keys keep the order of the integers: the eight hexadecimal
    digits of a 32-bit number read back as the number and compare as it does. *)
Lemma ascending_keys_ordered a b :
  in_u 32 a → in_u 32 b →
  from_ascending_key (to_ascending_key a) = Ok a ∧
  lex_ltb (to_ascending_key a) (to_ascending_key b) = (a <? b).
Proof.
  intros Ha Hb. rewrite (to_ascending_key_nibbles a), (to_ascending_key_nibbles b). split.
  - unfold from_ascending_key. rewrite stoull16_nibbles by done. cbn [mbind result_bind].
    unfold in_u, UINT32_MAX in *. by replace (a <=? 2 ^ 32 - 1) with true by lia.
  - destruct (Z.ltb_spec a b) as [Hlt|Hge].
    + apply nibbles_lex. by rewrite !mod_16_8.
    + destruct (Z.eq_dec a b) as [->|Hne]; [apply lex_ltb_irrefl|]. apply lex_ltb_asym, nibbles_lex.
      rewrite !mod_16_8 by done. lia.
Qed.

Lemma ascending_keys_ordered_witness :
  lex_ltb (to_ascending_key 0x9FFFFFFF) (to_ascending_key 0xA0000000) = (0x9FFFFFFF <? 0xA0000000).
Proof. by apply (ascending_keys_ordered 0x9FFFFFFF 0xA0000000). Defined.

End Db.
