(* ===== verification/ChainState.v ===== *)
(** * The chain's state as transactions see it
    (src/src/Core/BlockChainState.hpp: [IBlockChainState], [DeltaState])

    Spent key images and, per amount, the sequence of outputs numbered by
    global index.  [IBlockChainState] is the interface; [ChainStateLaws] says
    what it promises, in terms of a [view], the abstract state it shows; and
    [DeltaState], the modifications pending over a parent state, is proved to
    keep those promises over any parent that does. *)

From stdpp Require Import functions.
From S2P Require Import Prelude Varint Containers Seria CryptoNote.
Import Containers Codec CryptoNote.

Local Open Scope Z_scope.

Module ChainState.

(** [UnlockTimePublickKeyHeightSpent]. *)
Record Output := {
  o_unlock_time : Z;
  o_public_key : PublicKey;
  o_height : Height;
  o_spent : bool;
}.

Definition ser_Output : codec Output :=
  c_iso (λ '(u, (k, (h, s))), {| o_unlock_time := u; o_public_key := k; o_height := h; o_spent := s |})
        (λ o, (o_unlock_time o, (o_public_key o, (o_height o, o_spent o))))
        (c_seq (c_varint 64) (λ _, c_seq ser_Hash (λ _, c_seq (c_varint 32) (λ _, c_bool)))).

(** ** The interface *)

Class IBlockChainState (S : Type) := {
  store_keyimage : S → KeyImage → Height → result S;
  delete_keyimage : S → KeyImage → result S;
  read_keyimage : S → KeyImage → result (option Height);
  push_amount_output : S → Amount → Z → Height → PublicKey → result (S * Z);
  pop_amount_output : S → Amount → Z → PublicKey → result S;
  next_global_index_for_amount : S → Amount → result Z;
  read_amount_output : S → Amount → Z → result (option Output);
  spend_output : S → Amount → Z → result S;
}.

(** ** [DeltaState] *)

Record DeltaState (S : Type) := {
  m_keyimages : gmap KeyImage Height;
  m_global_amounts : gmap Amount (list (Z * PublicKey));
  m_spent_outputs : list (Amount * Z);
  m_block_height : Height;
  m_unlock_timestamp : Timestamp;
  m_parent_state : S;
}.
Arguments m_keyimages {S} d : rename.
Arguments m_global_amounts {S} d : rename.
Arguments m_spent_outputs {S} d : rename.
Arguments m_block_height {S} d : rename.
Arguments m_unlock_timestamp {S} d : rename.
Arguments m_parent_state {S} d : rename.

Module Delta.
Section delta.
Context {S : Type} `{IBlockChainState S}.

Definition make_DeltaState (block_height : Height) (unlock_timestamp : Timestamp) (parent : S) : DeltaState S :=
  {| m_keyimages := ∅; m_global_amounts := ∅; m_spent_outputs := [];
     m_block_height := block_height; m_unlock_timestamp := unlock_timestamp; m_parent_state := parent |}.

Definition with_keyimages (d : DeltaState S) (k : gmap KeyImage Height) : DeltaState S :=
  {| m_keyimages := k; m_global_amounts := m_global_amounts d; m_spent_outputs := m_spent_outputs d;
     m_block_height := m_block_height d; m_unlock_timestamp := m_unlock_timestamp d;
     m_parent_state := m_parent_state d |}.
Definition with_global_amounts (d : DeltaState S) (g : gmap Amount (list (Z * PublicKey))) : DeltaState S :=
  {| m_keyimages := m_keyimages d; m_global_amounts := g; m_spent_outputs := m_spent_outputs d;
     m_block_height := m_block_height d; m_unlock_timestamp := m_unlock_timestamp d;
     m_parent_state := m_parent_state d |}.

Definition store_keyimage (d : DeltaState S) (key_image : KeyImage) (height : Height) : result (DeltaState S) :=
  check (bool_decide (m_keyimages d !! key_image = None)) "store_keyimage";;
  Ok (with_keyimages d (<[key_image := height]> (m_keyimages d))).

Definition delete_keyimage (d : DeltaState S) (key_image : KeyImage) : result (DeltaState S) :=
  check (negb (bool_decide (m_keyimages d !! key_image = None))) "delete_keyimage";;
  Ok (with_keyimages d (delete key_image (m_keyimages d))).

Definition read_keyimage (d : DeltaState S) (key_image : KeyImage) : result (option Height) :=
  match m_keyimages d !! key_image with
  | None => ChainState.read_keyimage (m_parent_state d) key_image
  | Some _ => Ok (Some (m_block_height d))
  end.

Definition push_amount_output (d : DeltaState S) (amount : Amount) (unlock_time : Z) (block_height : Height)
    (pk : PublicKey) : result (DeltaState S * Z) :=
  pg ← ChainState.next_global_index_for_amount (m_parent_state d) amount;
  let ga := default [] (m_global_amounts d !! amount) ++ [(unlock_time, pk)] in
  Ok (with_global_amounts d (<[amount := ga]> (m_global_amounts d)), u32 (pg + Z.of_nat (length ga) - 1)).

Definition pop_amount_output (d : DeltaState S) (amount : Amount) (unlock_time : Z) (pk : PublicKey) :
    result (DeltaState S) :=
  let el := default [] (m_global_amounts d !! amount) in
  match last el with
  | None => Throw "DeltaState::pop_amount_output underflow"
  | Some (u, k) =>
      check (bool_decide (u = unlock_time ∧ k = pk)) "DeltaState::pop_amount_output wrong element";;
      Ok (with_global_amounts d (<[amount := take (length el - 1) el]> (m_global_amounts d)))
  end.

Definition next_global_index_for_amount (d : DeltaState S) (amount : Amount) : result Z :=
  pg ← ChainState.next_global_index_for_amount (m_parent_state d) amount;
  match m_global_amounts d !! amount with
  | None => Ok pg
  | Some ga => Ok (u32 (Z.of_nat (length ga) + pg))
  end.

Definition read_amount_output (d : DeltaState S) (amount : Amount) (global_index : Z) : result (option Output) :=
  pg ← ChainState.next_global_index_for_amount (m_parent_state d) amount;
  if global_index <? pg then ChainState.read_amount_output (m_parent_state d) amount global_index
  else
    match m_global_amounts d !! amount with
    | None => Ok None
    | Some ga =>
        match ga !! Z.to_nat (global_index - pg) with
        | None => Ok None
        | Some (u, k) =>
            Ok (Some {| o_unlock_time := u; o_public_key := k; o_height := m_block_height d; o_spent := false |})
        end
    end.

Definition spend_output (d : DeltaState S) (amount : Amount) (global_index : Z) : result (DeltaState S) :=
  Ok {| m_keyimages := m_keyimages d; m_global_amounts := m_global_amounts d;
        m_spent_outputs := m_spent_outputs d ++ [(amount, global_index)];
        m_block_height := m_block_height d; m_unlock_timestamp := m_unlock_timestamp d;
        m_parent_state := m_parent_state d |}.

(** Hand the modifications to [parent_state]. *)
Definition apply {P : Type} `{IBlockChainState P} (d : DeltaState S) (parent_state : P) : result P :=
  p ← for_each (λ p '(ki, height), ChainState.store_keyimage p ki height)
        (map_entries (m_keyimages d)) parent_state;
  p ← for_each (λ p '(amount, els),
        for_each (λ p '(unlock_time, pk),
          '(p, _) ← ChainState.push_amount_output p amount unlock_time (m_block_height d) pk; Ok p) els p)
        (map_entries (m_global_amounts d)) p;
  for_each (λ p '(amount, global_index), ChainState.spend_output p amount global_index) (m_spent_outputs d) p.

Definition clear (d : DeltaState S) (new_block_height : Height) : DeltaState S :=
  {| m_keyimages := ∅; m_global_amounts := ∅; m_spent_outputs := [];
     m_block_height := new_block_height; m_unlock_timestamp := m_unlock_timestamp d;
     m_parent_state := m_parent_state d |}.

End delta.
End Delta.

Global Instance delta_state {S} `{IBlockChainState S} : IBlockChainState (DeltaState S) := {|
  store_keyimage := Delta.store_keyimage;
  delete_keyimage := Delta.delete_keyimage;
  read_keyimage := Delta.read_keyimage;
  push_amount_output := Delta.push_amount_output;
  pop_amount_output := Delta.pop_amount_output;
  next_global_index_for_amount := Delta.next_global_index_for_amount;
  read_amount_output := Delta.read_amount_output;
  spend_output := Delta.spend_output;
|}.

(** ** What a state shows *)

Record view := {
  v_keys : KeyImage → option Height;
  v_outs : Amount → list Output;
}.

Global Instance view_equiv : Equiv view := λ v w,
  (∀ ki, v_keys v ki = v_keys w ki) ∧ (∀ a, v_outs v a = v_outs w a).
Global Instance view_equivalence : Equivalence (≡@{view}).
Proof.
  split.
  - by intros v.
  - intros v w [Hk Ho]. by split.
  - intros v w x [Hk Ho] [Hk' Ho']. split; intros; congruence.
Qed.

Definition set_spent (b : bool) (o : Output) : Output :=
  {| o_unlock_time := o_unlock_time o; o_public_key := o_public_key o; o_height := o_height o; o_spent := b |}.

Definition v_store (ki : KeyImage) (h : option Height) (v : view) : view :=
  {| v_keys := <[ki := h]> (v_keys v); v_outs := v_outs v |}.
Definition v_push (a : Amount) (o : Output) (v : view) : view :=
  {| v_keys := v_keys v; v_outs := <[a := v_outs v a ++ [o]]> (v_outs v) |}.
Definition v_spend (b : bool) (a : Amount) (gi : Z) (v : view) : view :=
  {| v_keys := v_keys v; v_outs := alter (alter (set_spent b) (Z.to_nat gi)) a (v_outs v) |}.

Global Instance v_store_proper ki h : Proper ((≡) ==> (≡)) (v_store ki h).
Proof.
  intros v w [Hk Ho]. split; [|done]. intros ki'. cbn. unfold insert, fn_insert.
  case_decide; [done|apply Hk].
Qed.
Global Instance v_push_proper a o : Proper ((≡) ==> (≡)) (v_push a o).
Proof.
  intros v w [Hk Ho]. split; [done|]. intros a'. cbn. unfold insert, fn_insert.
  case_decide; [by rewrite Ho|apply Ho].
Qed.
Global Instance v_spend_proper b a gi : Proper ((≡) ==> (≡)) (v_spend b a gi).
Proof.
  intros v w [Hk Ho]. split; [done|]. intros a'. cbn. unfold alter at 1 3, fn_alter.
  case_decide; [by rewrite Ho|apply Ho].
Qed.

(** Machine ranges of what is stored. *)
Definition ki_ok (ki : KeyImage) : Prop := c_ok ser_Hash ki.
Definition output_ok (a : Amount) (o : Output) : Prop := in_u 64 a ∧ c_ok ser_Output o.

Class ChainStateLaws (S : Type) `{IBlockChainState S} := {
  (** [shows s v]: [s] is well formed and its content is [v]. *)
  shows : S → view → Prop;
  (** The height under which a write given some height is recorded. *)
  stamp : S → Height → Height;
  (** Whether spending shows at once; else it is [pending], as in a
      [DeltaState]. *)
  spends_now : bool;
  pending : S → list (Amount * Z);
  (** What no operation changes. *)
  keeps : S → S → Prop;
  keeps_preorder : PreOrder keeps;
  keeps_stamp s s' h : keeps s s' → stamp s' h = stamp s h;
  shows_proper : Proper ((=) ==> (≡) ==> iff) shows;
  shows_length s v a : shows s v → Z.of_nat (length (v_outs v a)) < 2 ^ 32;
  shows_ok s v a o : shows s v → o ∈ v_outs v a → output_ok a o;
  shows_read_keyimage s v ki : shows s v → ki_ok ki → read_keyimage s ki = Ok (v_keys v ki);
  shows_next s v a : shows s v → in_u 64 a →
    next_global_index_for_amount s a = Ok (Z.of_nat (length (v_outs v a)));
  shows_read_output s v a gi : shows s v → in_u 64 a → in_u 32 gi →
    read_amount_output s a gi = Ok (v_outs v a !! Z.to_nat gi);
  shows_store s v ki h : shows s v → ki_ok ki → in_u 32 h → stamp s h = h → v_keys v ki = None →
    ∃ s', store_keyimage s ki h = Ok s' ∧ shows s' (v_store ki (Some h) v) ∧ keeps s s' ∧
      pending s' = pending s;
  shows_push s v a u h pk :
    let o := {| o_unlock_time := u; o_public_key := pk; o_height := stamp s h; o_spent := false |} in
    shows s v → output_ok a o → Z.of_nat (length (v_outs v a)) < 2 ^ 32 - 1 →
    ∃ s', push_amount_output s a u h pk = Ok (s', Z.of_nat (length (v_outs v a))) ∧
      shows s' (v_push a o v) ∧ keeps s s' ∧ pending s' = pending s;
  shows_spend s v a gi : shows s v → in_u 64 a → in_u 32 gi →
    ∃ s', spend_output s a gi = Ok s' ∧ shows s' (if spends_now then v_spend true a gi v else v) ∧
      keeps s s' ∧ pending s' = pending s ++ (if spends_now then [] else [(a, gi)]);
}.
Global Existing Instance shows_proper.
Global Existing Instance keeps_preorder.
Arguments spends_now S {_ _}.

(** ** A [DeltaState] shows its parent overlaid by its modifications *)

Section delta_laws.
Context {S : Type} `{ChainStateLaws S}.

Definition delta_outs (d : DeltaState S) (a : Amount) : list Output :=
  (λ '(u, k), {| o_unlock_time := u; o_public_key := k; o_height := m_block_height d; o_spent := false |})
    <$> default [] (m_global_amounts d !! a).

Definition overlay (d : DeltaState S) (v : view) : view := {|
  v_keys ki := match m_keyimages d !! ki with Some _ => Some (m_block_height d) | None => v_keys v ki end;
  v_outs a := v_outs v a ++ delta_outs d a;
|}.

Record delta_ok (d : DeltaState S) (v : view) : Prop := {
  ok_height : in_u 32 (m_block_height d);
  ok_keys ki h : m_keyimages d !! ki = Some h → h = m_block_height d ∧ ki_ok ki ∧ v_keys v ki = None;
  ok_outs a o : o ∈ v_outs v a ++ delta_outs d a → output_ok a o;
  ok_length a : Z.of_nat (length (v_outs v a ++ delta_outs d a)) < 2 ^ 32;
  ok_amounts a els : m_global_amounts d !! a = Some els → in_u 64 a;
  ok_spent a gi : (a, gi) ∈ m_spent_outputs d → in_u 64 a ∧ in_u 32 gi;
}.

Global Instance overlay_proper d : Proper ((≡) ==> (≡)) (overlay d).
Proof. intros v w [Hk Ho]. split; intros; cbn; [by rewrite Hk|by rewrite Ho]. Qed.

Definition delta_shows (d : DeltaState S) (v : view) : Prop :=
  ∃ vp, shows (m_parent_state d) vp ∧ delta_ok d vp ∧ v ≡ overlay d vp.

Lemma length_delta_outs d a : length (delta_outs d a) = length (default [] (m_global_amounts d !! a)).
Proof. apply length_fmap. Qed.

Lemma delta_read_keyimage d vp ki : shows (m_parent_state d) vp → ki_ok ki →
  Delta.read_keyimage d ki = Ok (v_keys (overlay d vp) ki).
Proof.
  intros Hs Hki. unfold Delta.read_keyimage. cbn. destruct (m_keyimages d !! ki); [done|].
  by apply shows_read_keyimage.
Qed.

Lemma delta_next d vp a : shows (m_parent_state d) vp → delta_ok d vp → in_u 64 a →
  Delta.next_global_index_for_amount d a = Ok (Z.of_nat (length (v_outs vp a ++ delta_outs d a))).
Proof.
  intros Hs Hok Ha. pose proof (ok_length _ _ Hok a) as Hl.
  unfold Delta.next_global_index_for_amount. rewrite (shows_next _ _ _ Hs Ha). cbn [mbind result_bind].
  rewrite length_app, length_delta_outs in *. destruct (m_global_amounts d !! a); cbn [from_option id] in *.
  - rewrite u32_small by lia. f_equal. lia.
  - cbn. f_equal. lia.
Qed.

Lemma delta_read_output d vp a gi : shows (m_parent_state d) vp → delta_ok d vp → in_u 64 a → in_u 32 gi →
  Delta.read_amount_output d a gi = Ok ((v_outs vp a ++ delta_outs d a) !! Z.to_nat gi).
Proof.
  intros Hs Hok Ha Hg. unfold in_u in Hg. unfold Delta.read_amount_output.
  rewrite (shows_next _ _ _ Hs Ha). cbn [mbind result_bind].
  destruct (Z.ltb_spec gi (Z.of_nat (length (v_outs vp a)))).
  - rewrite (shows_read_output _ _ _ _ Hs Ha Hg). by rewrite lookup_app_l by lia.
  - rewrite lookup_app_r by lia. unfold delta_outs.
    replace (Z.to_nat (gi - Z.of_nat (length (v_outs vp a)))) with (Z.to_nat gi - length (v_outs vp a))%nat by lia.
    destruct (m_global_amounts d !! a) as [ga|]; cbn [from_option id]; [|done].
    rewrite list_lookup_fmap. by destruct (ga !! _) as [[u k]|].
Qed.

Lemma overlay_store d vp ki h : m_keyimages d !! ki = None → h = m_block_height d →
  overlay (Delta.with_keyimages d (<[ki := h]> (m_keyimages d))) vp ≡ v_store ki (Some h) (overlay d vp).
Proof.
  intros Hki ->. split; [|done]. intros ki'. cbn. destruct (decide (ki = ki')) as [<-|Hne].
  - by rewrite lookup_insert_eq, fn_lookup_insert.
  - by rewrite lookup_insert_ne, fn_lookup_insert_ne.
Qed.

Lemma delta_outs_push d a u pk a' :
  delta_outs (Delta.with_global_amounts d
    (<[a := default [] (m_global_amounts d !! a) ++ [(u, pk)]]> (m_global_amounts d))) a' =
  delta_outs d a' ++ if decide (a = a') then
    [{| o_unlock_time := u; o_public_key := pk; o_height := m_block_height d; o_spent := false |}] else [].
Proof.
  unfold delta_outs. cbn [m_global_amounts m_block_height Delta.with_global_amounts].
  destruct (decide (a = a')) as [<-|Hne].
  - rewrite lookup_insert_eq. cbn [from_option id]. by rewrite fmap_app.
  - by rewrite lookup_insert_ne, app_nil_r.
Qed.

Lemma overlay_push d vp a u pk :
  overlay (Delta.with_global_amounts d
    (<[a := default [] (m_global_amounts d !! a) ++ [(u, pk)]]> (m_global_amounts d))) vp ≡
  v_push a {| o_unlock_time := u; o_public_key := pk; o_height := m_block_height d; o_spent := false |}
    (overlay d vp).
Proof.
  split; [done|]. intros a'. cbn. rewrite delta_outs_push. destruct (decide (a = a')) as [<-|Hne].
  - by rewrite fn_lookup_insert, app_assoc.
  - by rewrite fn_lookup_insert_ne, app_nil_r.
Qed.

(** A state whose modifications were extended to show [w]. *)
Definition delta_keeps (d d' : DeltaState S) : Prop :=
  m_block_height d' = m_block_height d ∧ m_unlock_timestamp d' = m_unlock_timestamp d ∧
  m_parent_state d' = m_parent_state d.

Global Instance delta_keeps_preorder : PreOrder delta_keeps.
Proof. split; [done|]. intros d e f (?&?&?) (?&?&?). unfold delta_keeps. split_and!; congruence. Qed.

Lemma delta_store d v ki h : delta_shows d v → ki_ok ki → in_u 32 h → m_block_height d = h →
  v_keys v ki = None →
  ∃ d', Delta.store_keyimage d ki h = Ok d' ∧ delta_shows d' (v_store ki (Some h) v) ∧ delta_keeps d d' ∧
    m_spent_outputs d' = m_spent_outputs d.
Proof.
  intros (vp & Hs & Hok & Hv) Hki Hh Hst Hnone.
  rewrite (proj1 Hv) in Hnone. cbn in Hnone.
  destruct (m_keyimages d !! ki) as [h'|] eqn:Hd; [done|].
  unfold Delta.store_keyimage. rewrite Hd, bool_decide_eq_true_2 by done. cbn [check mbind result_bind].
  eexists. split; [done|]. split_and!; [|done..]. exists vp. split_and!; [done| |].
  - destruct Hok as [? Hk ? ? ? ?]. split; cbn; try done.
    by intros ki' h' [[<- <-]|[Hne Hl%Hk]]%lookup_insert_Some.
  - rewrite Hv. symmetry. by apply overlay_store.
Qed.

Lemma delta_push d v a u h pk :
  let o := {| o_unlock_time := u; o_public_key := pk; o_height := m_block_height d; o_spent := false |} in
  delta_shows d v → output_ok a o → Z.of_nat (length (v_outs v a)) < 2 ^ 32 - 1 →
  ∃ d', Delta.push_amount_output d a u h pk = Ok (d', Z.of_nat (length (v_outs v a))) ∧
    delta_shows d' (v_push a o v) ∧ delta_keeps d d' ∧ m_spent_outputs d' = m_spent_outputs d.
Proof.
  intros o (vp & Hs & Hok & Hv) Ho Hlen. rewrite (proj2 Hv a) in *. cbn [overlay v_outs] in *.
  unfold Delta.push_amount_output. rewrite (shows_next _ _ _ Hs (proj1 Ho)). cbn [mbind result_bind].
  eexists. split.
  { f_equal. f_equal. rewrite !length_app, length_delta_outs in *. cbn [length]. rewrite u32_small by lia. lia. }
  split_and!; [|done..]. exists vp. split_and!; [done| |].
  - destruct Hok as [? Hk Houts Hl Hamt ?]. split; cbn; try done.
    + intros a' o'. rewrite delta_outs_push, app_assoc. case_decide; [|rewrite app_nil_r; apply Houts].
      subst a'. rewrite elem_of_app, list_elem_of_singleton. intros [?| ->]; [by apply Houts|done].
    + intros a'. rewrite delta_outs_push, app_assoc, length_app. specialize (Hl a').
      case_decide; [subst a'|]; cbn [length]; lia.
    + intros a' els [[<- _]|[_ Ha]]%lookup_insert_Some; [apply Ho|by eapply Hamt].
  - rewrite Hv. symmetry. apply overlay_push.
Qed.

Lemma delta_spend d v a gi : delta_shows d v → in_u 64 a → in_u 32 gi →
  ∃ d', Delta.spend_output d a gi = Ok d' ∧ delta_shows d' v ∧ delta_keeps d d' ∧
    m_spent_outputs d' = m_spent_outputs d ++ [(a, gi)].
Proof.
  intros (vp & Hs & Hok & Hv) Ha Hg. eexists. split; [done|]. split_and!; [|done..].
  exists vp. split_and!; [done| |done]. destruct Hok as [? ? ? ? ? Hsp]. split; cbn; try done.
  intros a' gi' [?|[= -> ->]%list_elem_of_singleton]%elem_of_app; auto.
Qed.

Global Instance delta_laws : ChainStateLaws (DeltaState S).
Proof.
  refine {| shows := delta_shows; stamp d _ := m_block_height d; spends_now := false;
            pending := m_spent_outputs; keeps := delta_keeps |}.
  - by intros d d' _ (Hh & _).
  - intros d ? <- v w Hvw. unfold delta_shows. by setoid_rewrite Hvw.
  - intros d v a (vp & Hs & Hok & Hv). rewrite (proj2 Hv). apply (ok_length _ _ Hok).
  - intros d v a o (vp & Hs & Hok & Hv). rewrite (proj2 Hv). apply (ok_outs _ _ Hok).
  - intros d v ki (vp & Hs & Hok & Hv) Hki. rewrite (proj1 Hv). by apply delta_read_keyimage.
  - intros d v a (vp & Hs & Hok & Hv) Ha. rewrite (proj2 Hv). by apply delta_next.
  - intros d v a gi (vp & Hs & Hok & Hv) Ha Hg. rewrite (proj2 Hv). by apply delta_read_output.
  - intros d v ki h Hs Hki Hh Hst Hn. by apply delta_store.
  - intros d v a u h pk o Hs Ho Hl. by apply delta_push.
  - intros d v a gi Hs Ha Hg. cbn. by apply delta_spend.
Defined.

End delta_laws.

(** ** Applying a delta leaves what it showed *)

Definition fresh_output (height : Height) (e : Z * PublicKey) : Output :=
  {| o_unlock_time := e.1; o_public_key := e.2; o_height := height; o_spent := false |}.

Definition v_append (a : Amount) (os : list Output) (v : view) : view :=
  {| v_keys := v_keys v; v_outs := <[a := v_outs v a ++ os]> (v_outs v) |}.

Definition v_stores (l : list (KeyImage * Height)) (v : view) : view :=
  foldl (λ v e, v_store e.1 (Some e.2) v) v l.
Definition v_appends (h : Height) (l : list (Amount * list (Z * PublicKey))) (v : view) : view :=
  foldl (λ v e, v_append e.1 (fresh_output h <$> e.2) v) v l.
Definition v_spends (l : list (Amount * Z)) (v : view) : view :=
  foldl (λ v e, v_spend true e.1 e.2 v) v l.

Lemma v_stores_outs l v : v_outs (v_stores l v) = v_outs v.
Proof. revert v. induction l as [|e l IH]; intros v; [done|]. by etrans; [apply (IH (v_store _ _ v))|]. Qed.

Lemma v_stores_keys l v ki : NoDup l.*1 →
  v_keys (v_stores l v) ki = match list_to_map (M := gmap _ _) l !! ki with Some h => Some h | None => v_keys v ki end.
Proof.
  revert v. induction l as [|[k h] l IH]; intros v Hnd; [done|]. apply NoDup_cons in Hnd as [Hk Hnd].
  change (v_stores ((k, h) :: l) v) with (v_stores l (v_store k (Some h) v)).
  rewrite IH by done. cbn. destruct (decide (ki = k)) as [->|Hne].
  - rewrite (not_elem_of_list_to_map_1 l) by done. by rewrite lookup_insert_eq, fn_lookup_insert.
  - rewrite lookup_insert_ne by done. destruct (list_to_map l !! ki); [done|].
    by rewrite fn_lookup_insert_ne.
Qed.

Lemma v_appends_keys h l v : v_keys (v_appends h l v) = v_keys v.
Proof. revert v. induction l as [|e l IH]; intros v; [done|]. by etrans; [apply (IH (v_append _ _ v))|]. Qed.

Lemma v_appends_outs h l v a : NoDup l.*1 →
  v_outs (v_appends h l v) a =
    v_outs v a ++ (fresh_output h <$> default [] (list_to_map (M := gmap _ _) l !! a)).
Proof.
  revert v. induction l as [|[k els] l IH]; intros v Hnd; [cbn; by rewrite app_nil_r|].
  apply NoDup_cons in Hnd as [Hk Hnd]. 
  change (v_appends h ((k, els) :: l) v) with (v_appends h l (v_append k (fresh_output h <$> els) v)).
  rewrite IH by done. cbn. destruct (decide (a = k)) as [->|Hne].
  - rewrite (not_elem_of_list_to_map_1 l), lookup_insert_eq, fn_lookup_insert by done. cbn.
    by rewrite app_nil_r.
  - by rewrite lookup_insert_ne, fn_lookup_insert_ne by done.
Qed.

Lemma list_to_map_entries {A} (m : gmap KeyImage A) : list_to_map (map_entries m) = m.
Proof. rewrite <- (list_to_map_to_list m) at 2. apply list_to_map_proper; [apply NoDup_map_entries|apply map_entries_perm]. Qed.
Lemma list_to_map_amount_entries {A} (m : gmap Amount A) : list_to_map (map_entries m) = m.
Proof. rewrite <- (list_to_map_to_list m) at 2. apply list_to_map_proper; [apply NoDup_map_entries|apply map_entries_perm]. Qed.

Section apply.
Context {P : Type} `{ChainStateLaws P}.

Lemma stores_shows l (p : P) v :
  shows p v → NoDup l.*1 →
  (∀ ki h, (ki, h) ∈ l → ki_ok ki ∧ in_u 32 h ∧ stamp p h = h ∧ v_keys v ki = None) →
  ∃ p', for_each (λ p '(ki, height), store_keyimage p ki height) l p = Ok p' ∧
    shows p' (v_stores l v) ∧ keeps p p' ∧ pending p' = pending p.
Proof.
  revert p v. induction l as [|[ki h] l IH]; intros p v Hs Hnd Hall.
  { exists p. by split_and!. }
  apply NoDup_cons in Hnd as [Hnotin Hnd].
  destruct (Hall ki h) as (Hki & Hh & Hst & Hnone); [by left|].
  destruct (shows_store p v ki h Hs Hki Hh Hst Hnone) as (p1 & Hp1 & Hs1 & Hk1 & Hpe1).
  destruct (IH p1 _ Hs1 Hnd) as (p2 & Hp2 & Hs2 & Hk2 & Hpe2).
  { intros ki' h' Hin. destruct (Hall ki' h') as (? & ? & ? & Hn); [by right|].
    rewrite (keeps_stamp _ _ _ Hk1). split_and!; try done. cbn. rewrite fn_lookup_insert_ne; [done|].
    intros ->. apply Hnotin, list_elem_of_fmap. by exists (ki', h'). }
  exists p2. cbn [for_each]. rewrite Hp1. cbn [mbind result_bind]. rewrite Hp2.
  split_and!; [done|exact Hs2|by etrans|congruence].
Qed.

Lemma v_append_nil a v : v_append a [] v ≡ v.
Proof.
  split; [done|]. intros a'. cbn. destruct (decide (a = a')) as [<-|Hne].
  - by rewrite fn_lookup_insert, app_nil_r.
  - by rewrite fn_lookup_insert_ne.
Qed.

Lemma v_append_cons a o os v : v_append a os (v_push a o v) ≡ v_append a (o :: os) v.
Proof.
  split; [done|]. intros a'. cbn. destruct (decide (a = a')) as [<-|Hne].
  - by rewrite !fn_lookup_insert, <- app_assoc.
  - by rewrite !fn_lookup_insert_ne.
Qed.

Definition push_all (a : Amount) (h : Height) (els : list (Z * PublicKey)) (p : P) : result P :=
  for_each (λ p '(unlock_time, pk), '(p, _) ← push_amount_output p a unlock_time h pk; Ok p) els p.

Lemma pushes_shows a h els (p : P) v :
  shows p v → stamp p h = h → in_u 64 a → (∀ e, e ∈ els → output_ok a (fresh_output h e)) →
  Z.of_nat (length (v_outs v a) + length els) < 2 ^ 32 →
  ∃ p', push_all a h els p = Ok p' ∧
    shows p' (v_append a (fresh_output h <$> els) v) ∧ keeps p p' ∧ pending p' = pending p.
Proof.
  unfold push_all. revert p v. induction els as [|[u pk] els IH]; intros p v Hs Hst Ha Hok Hlen.
  { exists p. split_and!; try done. cbn. by rewrite v_append_nil. }
  destruct (shows_push p v a u h pk Hs) as (p1 & Hp1 & Hs1 & Hk1 & Hpe1).
  { rewrite Hst. apply (Hok (u, pk)). by left. }
  { cbn [length] in Hlen. lia. }
  rewrite Hst in Hs1.
  destruct (IH p1 _ Hs1) as (p2 & Hp2 & Hs2 & Hk2 & Hpe2); [|done|..].
  { by rewrite (keeps_stamp _ _ _ Hk1). }
  { intros e He. apply Hok. by right. }
  { cbn. rewrite fn_lookup_insert, length_app. cbn [length] in *. lia. }
  exists p2. cbn [for_each]. rewrite Hp1. cbn [mbind result_bind]. rewrite Hp2.
  split_and!; [done| |by etrans|congruence]. cbn [fmap list_fmap]. by rewrite <- v_append_cons.
Qed.

Lemma appends_shows h l (p : P) v :
  shows p v → stamp p h = h → NoDup l.*1 →
  (∀ a els, (a, els) ∈ l → in_u 64 a ∧ (∀ e, e ∈ els → output_ok a (fresh_output h e)) ∧
     Z.of_nat (length (v_outs v a) + length els) < 2 ^ 32) →
  ∃ p', for_each (λ p '(a, els), push_all a h els p) l p = Ok p' ∧
    shows p' (v_appends h l v) ∧ keeps p p' ∧ pending p' = pending p.
Proof.
  revert p v. induction l as [|[a els] l IH]; intros p v Hs Hst Hnd Hall.
  { exists p. by split_and!. }
  apply NoDup_cons in Hnd as [Hnotin Hnd].
  destruct (Hall a els) as (Ha & Hok & Hlen); [by left|].
  destruct (pushes_shows a h els p v Hs Hst Ha Hok Hlen) as (p1 & Hp1 & Hs1 & Hk1 & Hpe1).
  destruct (IH p1 _ Hs1) as (p2 & Hp2 & Hs2 & Hk2 & Hpe2); [|done|..].
  { by rewrite (keeps_stamp _ _ _ Hk1). }
  { intros a' els' Hin. destruct (Hall a' els') as (? & ? & Hl); [by right|]. split_and!; try done.
    cbn. rewrite fn_lookup_insert_ne; [done|]. intros ->. apply Hnotin, list_elem_of_fmap.
    by exists (a', els'). }
  exists p2. cbn [for_each]. rewrite Hp1. cbn [mbind result_bind]. rewrite Hp2.
  split_and!; [done|exact Hs2|by etrans|congruence].
Qed.

Lemma spends_shows l (p : P) v :
  shows p v → (∀ a gi, (a, gi) ∈ l → in_u 64 a ∧ in_u 32 gi) →
  ∃ p', for_each (λ p '(a, gi), spend_output p a gi) l p = Ok p' ∧
    shows p' (if spends_now P then v_spends l v else v) ∧ keeps p p' ∧
    pending p' = pending p ++ (if spends_now P then [] else l).
Proof.
  revert p v. induction l as [|[a gi] l IH]; intros p v Hs Hall.
  { exists p. split_and!; try done; destruct (spends_now P); try done; by rewrite app_nil_r. }
  destruct (Hall a gi) as (Ha & Hg); [by left|].
  destruct (shows_spend p v a gi Hs Ha Hg) as (p1 & Hp1 & Hs1 & Hk1 & Hpe1).
  destruct (IH p1 _ Hs1) as (p2 & Hp2 & Hs2 & Hk2 & Hpe2).
  { intros a' gi' Hin. apply Hall. by right. }
  exists p2. cbn [for_each]. rewrite Hp1. cbn [mbind result_bind]. rewrite Hp2.
  split_and!; [done| |by etrans|].
  - by destruct (spends_now P).
  - rewrite Hpe2, Hpe1, <- app_assoc. by destruct (spends_now P).
Qed.

Lemma overlay_entries {S} (d : DeltaState S) v :
  (∀ ki h, m_keyimages d !! ki = Some h → h = m_block_height d) →
  v_appends (m_block_height d) (map_entries (m_global_amounts d)) (v_stores (map_entries (m_keyimages d)) v) ≡
  overlay d v.
Proof.
  intros Hh. split.
  - intros ki. rewrite v_appends_keys, v_stores_keys, list_to_map_entries by apply NoDup_map_entries.
    cbn. destruct (m_keyimages d !! ki) as [h|] eqn:E; [by rewrite (Hh _ _ E)|done].
  - intros a. rewrite v_appends_outs, v_stores_outs, list_to_map_amount_entries by apply NoDup_map_entries.
    cbn. f_equal. unfold delta_outs. by apply list_fmap_ext; intros ? [u k].
Qed.

Lemma apply_shows {S} (d : DeltaState S) (p : P) v :
  shows p v → delta_ok d v →
  stamp p (m_block_height d) = m_block_height d →
  ∃ p', Delta.apply d p = Ok p' ∧
    shows p' (if spends_now P then v_spends (m_spent_outputs d) (overlay d v) else overlay d v) ∧
    keeps p p' ∧ pending p' = pending p ++ (if spends_now P then [] else m_spent_outputs d).
Proof.
  intros Hs Hok Hst.
  destruct (stores_shows (map_entries (m_keyimages d)) p v Hs (NoDup_map_entries _))
    as (p1 & Hp1 & Hs1 & Hk1 & Hpe1).
  { intros ki h Hin%elem_of_map_entries. destruct (ok_keys _ _ Hok _ _ Hin) as (-> & ? & ?).
    split_and!; try done. apply (ok_height _ _ Hok). }
  destruct (appends_shows (m_block_height d) (map_entries (m_global_amounts d)) p1 _ Hs1)
    as (p2 & Hp2 & Hs2 & Hk2 & Hpe2).
  { by rewrite (keeps_stamp _ _ _ Hk1). }
  { apply NoDup_map_entries. }
  { intros a els Hin%elem_of_map_entries. pose proof (ok_length _ _ Hok a) as Hl.
    rewrite v_stores_outs. rewrite length_app, length_delta_outs, Hin in Hl. split_and!; [by eapply ok_amounts| |done].
    intros e He. apply (ok_outs _ _ Hok), elem_of_app. right. unfold delta_outs. rewrite Hin.
    apply list_elem_of_fmap. exists e. by destruct e. }
  rewrite overlay_entries in Hs2 by (intros ki h Hin; by destruct (ok_keys _ _ Hok _ _ Hin)).
  destruct (spends_shows (m_spent_outputs d) p2 _ Hs2 (ok_spent _ _ Hok)) as (p3 & Hp3 & Hs3 & Hk3 & Hpe3).
  exists p3. unfold Delta.apply. rewrite Hp1. cbn [mbind result_bind]. unfold push_all in Hp2.
  rewrite Hp2. cbn [mbind result_bind]. split_and!; [done|done|etrans; [exact Hk1|by etrans]|congruence].
Qed.

End apply.

End ChainState.
