(* ===== verification/Store.v ===== *)
(** * Key images and outputs in the database
    (src/src/Core/BlockChainState.cpp: [store_keyimage] ... [spend_output])

    The part of [BlockChainState] that keeps the spent key images and, under
    keys that sort by amount and global index, the outputs; with the cache of
    the next global index of each amount.  It is proved to keep the promises
    of [ChainStateLaws] over any database that behaves as LMDB documents. *)

From stdpp Require Import functions.
From S2P Require Import Prelude Varint Containers Seria Text CryptoNote Db ChainState.
Import Varint Containers Codec CryptoNote Db ChainState.

Local Open Scope Z_scope.

Module Store.

Definition KEYIMAGE_PREFIX : Key := chars "i".
Definition AMOUNT_OUTPUT_PREFIX : Key := chars "a".

(** The database and the cache of next indices. *)
Record Store (D : Type) := {
  m_db : D;
  m_next_gi_for_amount : gmap Amount Z;
}.
Arguments m_db {D} s : rename.
Arguments m_next_gi_for_amount {D} s : rename.

Definition ser_Height : codec Height := c_varint 32.

Definition keyimage_key (key_image : KeyImage) : Key := KEYIMAGE_PREFIX ++ key_image.
Definition amount_prefix (amount : Amount) : Key := AMOUNT_OUTPUT_PREFIX ++ write_varint_sqlite4 amount.
Definition output_key (amount : Amount) (global_index : Z) : Key :=
  amount_prefix amount ++ write_varint_sqlite4 global_index.

(** [boost::lexical_cast<Height>] of a 64-bit number. *)
Definition lexical_cast_u32 (v : Z) : result Z :=
  if v <=? UINT32_MAX then Ok v else Throw "bad lexical cast".

Section store.
Context {D : Type} `{Lmdb D}.

Definition with_db (s : Store D) (d : D) : Store D :=
  {| m_db := d; m_next_gi_for_amount := m_next_gi_for_amount s |}.
Definition with_next (s : Store D) (amount : Amount) (gi : Z) : Store D :=
  {| m_db := m_db s; m_next_gi_for_amount := <[amount := gi]> (m_next_gi_for_amount s) |}.

Definition store_keyimage (s : Store D) (key_image : KeyImage) (height : Height) : result (Store D) :=
  value ← to_binary ser_Height height;
  d ← put (m_db s) (keyimage_key key_image) value true;
  Ok (with_db s d).

Definition delete_keyimage (s : Store D) (key_image : KeyImage) : result (Store D) :=
  d ← del (m_db s) (keyimage_key key_image) true; Ok (with_db s d).

Definition read_keyimage (s : Store D) (key_image : KeyImage) : result (option Height) :=
  match get (m_db s) (keyimage_key key_image) with
  | None => Ok None
  | Some rb => height ← from_binary ser_Height rb; Ok (Some height)
  end.

(** The cache is [mutable]: looking an index up fills it in. *)
Definition next_global_index_for_amount (s : Store D) (amount : Amount) : result (Store D * Z) :=
  match m_next_gi_for_amount s !! amount with
  | Some n => Ok (s, n)
  | None =>
      let cur2 := rbegin (m_db s) (amount_prefix amount) [] in
      alt_in ←
        (if is_end cur2 then Ok 0
         else v ← read_varint_sqlite4_str (suffix cur2); v ← lexical_cast_u32 v; Ok (u32 (v + 1)));
      Ok (with_next s amount alt_in, alt_in)
  end.

Definition read_amount_output (s : Store D) (amount : Amount) (global_index : Z) : result (option Output) :=
  match get (m_db s) (output_key amount global_index) with
  | None => Ok None
  | Some rb => unp ← from_binary ser_Output rb; Ok (Some unp)
  end.

Definition push_amount_output (s : Store D) (amount : Amount) (unlock_time : Z) (block_height : Height)
    (pk : PublicKey) : result (Store D * Z) :=
  '(s, my_gi) ← next_global_index_for_amount s amount;
  ba ← to_binary ser_Output
    {| o_unlock_time := unlock_time; o_public_key := pk; o_height := block_height; o_spent := false |};
  d ← put (m_db s) (output_key amount my_gi) ba true;
  let s := with_db s d in
  Ok (with_next s amount (u32 (default 0 (m_next_gi_for_amount s !! amount) + 1)), my_gi).

Definition pop_amount_output (s : Store D) (amount : Amount) (unlock_time : Z) (pk : PublicKey) :
    result (Store D) :=
  '(s, next_gi) ← next_global_index_for_amount s amount;
  check (negb (next_gi =? 0)) "BlockChainState::pop_amount_output underflow";;
  let next_gi := next_gi - 1 in
  let s := with_next s amount (u32 (default 0 (m_next_gi_for_amount s !! amount) - 1)) in
  o ← read_amount_output s amount next_gi;
  match o with
  | None => Throw "BlockChainState::pop_amount_output element does not exist"
  | Some unp =>
      check (negb (o_spent unp) && (o_unlock_time unp =? unlock_time) && bool_decide (o_public_key unp = pk))
        "BlockChainState::pop_amount_output popping wrong element";;
      d ← del (m_db s) (output_key amount next_gi) true;
      Ok (with_db s d)
  end.

(** [spend_output(amount, global_index, spent)]. *)
Definition mark_output (s : Store D) (amount : Amount) (global_index : Z) (spent : bool) : result (Store D) :=
  let key := output_key amount global_index in
  match get (m_db s) key with
  | None => Ok s
  | Some rb =>
      was ← from_binary ser_Output rb;
      ba ← to_binary ser_Output
        {| o_unlock_time := o_unlock_time was; o_public_key := o_public_key was;
           o_height := o_height was; o_spent := spent |};
      d ← put (m_db s) key ba false;
      Ok (with_db s d)
  end.

Definition spend_output (s : Store D) (amount : Amount) (global_index : Z) : result (Store D) :=
  mark_output s amount global_index true.

End store.

(** The interface's [const] readers drop the filled-in cache, which no
    operation can tell. *)
Global Instance store_state {D} `{Lmdb D} : IBlockChainState (Store D) := {|
  ChainState.store_keyimage := store_keyimage;
  ChainState.delete_keyimage := delete_keyimage;
  ChainState.read_keyimage := read_keyimage;
  ChainState.push_amount_output := push_amount_output;
  ChainState.pop_amount_output := pop_amount_output;
  ChainState.next_global_index_for_amount s amount := '(_, n) ← next_global_index_for_amount s amount; Ok n;
  ChainState.read_amount_output := read_amount_output;
  ChainState.spend_output := spend_output;
|}.

(** ** Keys *)

Lemma keyimage_key_inj ki ki' : keyimage_key ki = keyimage_key ki' → ki = ki'.
Proof. unfold keyimage_key. by intros ?%app_inv_head. Qed.

Lemma output_key_prefix a gi : output_key a gi = AMOUNT_OUTPUT_PREFIX ++ write_varint_sqlite4 a ++ write_varint_sqlite4 gi.
Proof. unfold output_key, amount_prefix. by rewrite <- app_assoc. Qed.

#[local] Hint Resolve in_u_32_64 : core.

Lemma write_varint_sqlite4_inj a b :
  in_u 64 a → in_u 64 b → write_varint_sqlite4 a = write_varint_sqlite4 b → a = b.
Proof.
  intros Ha Hb Heq. apply (write_varint_sqlite4_app_inj a b [] [] Ha Hb). by rewrite Heq.
Qed.

Lemma amount_prefix_inj a b s gi :
  in_u 64 a → in_u 64 b → amount_prefix a ++ s = output_key b gi → a = b ∧ s = write_varint_sqlite4 gi.
Proof.
  unfold output_key, amount_prefix. rewrite <- !app_assoc. intros Ha Hb Heq%app_inv_head.
  by apply write_varint_sqlite4_app_inj in Heq.
Qed.

Lemma output_key_inj a b gi gj :
  in_u 64 a → in_u 64 b → in_u 32 gi → in_u 32 gj → output_key a gi = output_key b gj → a = b ∧ gi = gj.
Proof.
  intros Ha Hb Hi Hj Heq. apply amount_prefix_inj in Heq as [-> Heq]; [|done..].
  split; [done|]. apply write_varint_sqlite4_inj in Heq; auto.
Qed.

Lemma output_keyimage a gi ki : output_key a gi ≠ keyimage_key ki.
Proof. by rewrite output_key_prefix. Qed.

Lemma varint_size v : in_u 64 v → (0 < length (write_varint_sqlite4 v) ≤ 9)%nat.
Proof.
  intros Hv. pose proof (length_write_varint_sqlite4 v Hv) as Hl. unfold get_varint_sqlite4_size in Hl.
  repeat case_match; lia.
Qed.

Lemma output_key_size a gi : in_u 64 a → in_u 32 gi → (0 < length (output_key a gi) ≤ 19)%nat.
Proof.
  intros Ha Hg%in_u_32_64. rewrite output_key_prefix, !length_app.
  pose proof (varint_size a Ha). pose proof (varint_size gi Hg). cbn [length AMOUNT_OUTPUT_PREFIX]. 
  change (length AMOUNT_OUTPUT_PREFIX) with 1%nat. lia.
Qed.

Lemma keyimage_key_size ki : ki_ok ki → length (keyimage_key ki) = 33%nat.
Proof. intros [_ Hl]. unfold keyimage_key. rewrite length_app. by rewrite Hl. Qed.

Lemma bytes_output_key a gi : in_u 64 a → in_u 32 gi → bytes (output_key a gi).
Proof.
  intros Ha Hg. rewrite output_key_prefix. apply bytes_app. split; [by apply (bool_decide_unpack _)|].
  apply bytes_app. split; apply bytes_write_varint_sqlite4; auto.
Qed.

Lemma bytes_keyimage_key ki : ki_ok ki → bytes (keyimage_key ki).
Proof. intros [Hb _]. apply bytes_app. split; [by apply (bool_decide_unpack _)|done]. Qed.

(** ** What the database shows *)

(** The bytes stored for a value. *)
Definition encoding {A} (c : codec A) (a : A) : list Z :=
  match to_binary c a with Ok bs => bs | _ => [] end.

Lemma encoding_ok {A} (c : codec A) `{!CodecLaws c} a : c_ok c a →
  to_binary c a = Ok (encoding c a) ∧ bytes (encoding c a) ∧ from_binary c (encoding c a) = Ok a.
Proof.
  intros Ha. destruct (from_to_binary c a Ha) as (bs & Hbs & Hb & Hf). unfold encoding. by rewrite Hbs.
Qed.

Global Instance ser_Height_laws : CodecLaws ser_Height.
Proof. unfold ser_Height. apply _. Qed.
Global Instance ser_Output_laws : CodecLaws ser_Output.
Proof. unfold ser_Output. apply _. Qed.

Section laws.
Context {D : Type} `{LmdbLaws D}.

Record store_shows (s : Store D) (v : view) : Prop := {
  st_size : (64 ≤ mdb_env_get_maxkeysize (m_db s))%nat;
  st_bytes k : stored (m_db s) k → bytes k;
  st_keys ki : ki_ok ki → get (m_db s) (keyimage_key ki) = encoding ser_Height <$> v_keys v ki;
  st_height ki h : ki_ok ki → v_keys v ki = Some h → in_u 32 h;
  st_outs a gi : in_u 64 a → in_u 32 gi →
    get (m_db s) (output_key a gi) = encoding ser_Output <$> v_outs v a !! Z.to_nat gi;
  st_only k : stored (m_db s) (AMOUNT_OUTPUT_PREFIX ++ k) →
    ∃ a gi, in_u 64 a ∧ in_u 32 gi ∧ AMOUNT_OUTPUT_PREFIX ++ k = output_key a gi;
  st_cache a n : m_next_gi_for_amount s !! a = Some n → n = Z.of_nat (length (v_outs v a));
  st_length a : Z.of_nat (length (v_outs v a)) < 2 ^ 32;
  st_ok a o : o ∈ v_outs v a → output_ok a o;
}.

Global Instance store_shows_proper : Proper ((=) ==> (≡) ==> iff) store_shows.
Proof.
  intros s ? <- v w [Hk Ho]. split; intros []; split; try done; intros *.
  all: rewrite ?Hk, ?Ho; eauto. all: rewrite <- ?Hk, <- ?Ho; eauto.
Qed.

(** Keys the component does not touch. *)
Definition other_key (k : Key) : Prop :=
  (∀ x, k ≠ KEYIMAGE_PREFIX ++ x) ∧ ∀ x, k ≠ AMOUNT_OUTPUT_PREFIX ++ x.
Definition db_keeps (d d' : D) : Prop :=
  mdb_env_get_maxkeysize d' = mdb_env_get_maxkeysize d ∧ ∀ k, other_key k → get d' k = get d k.
Definition store_keeps (s s' : Store D) : Prop := db_keeps (m_db s) (m_db s').

Global Instance db_keeps_preorder : PreOrder db_keeps.
Proof.
  split; [done|]. intros d e f [Hm Hk] [Hm' Hk']. split; [congruence|].
  intros k Ho. by rewrite Hk', Hk.
Qed.
Global Instance store_keeps_preorder : PreOrder store_keeps.
Proof. split; [done|]. intros s t u. unfold store_keeps. apply transitivity. Qed.

Lemma written_keeps d k x d' : written d k x d' → ¬ other_key k → db_keeps d d'.
Proof.
  intros [Hm Hw] Hk. split; [done|]. intros k' Hk'. rewrite Hw, decide_False; [done|]. by intros ->.
Qed.

Lemma keyimage_not_other ki : ¬ other_key (keyimage_key ki).
Proof. intros [Ho _]. by apply (Ho ki). Qed.
Lemma output_not_other a gi : ¬ other_key (output_key a gi).
Proof. rewrite output_key_prefix. intros [_ Ho]. by eapply Ho. Qed.

Lemma shows_write_keyimage s v ki o d' :
  store_shows s v → ki_ok ki → (∀ h, o = Some h → in_u 32 h) →
  written (m_db s) (keyimage_key ki) (encoding ser_Height <$> o) d' →
  store_shows (with_db s d') (v_store ki o v).
Proof.
  intros Hs Hki Ho Hw. destruct Hs as [Hsz Hb Hk Hh Hout Honly Hc Hl Hok]. split; cbn [m_db m_next_gi_for_amount v_keys v_outs v_store with_db]; try done.
  - by rewrite (proj1 Hw).
  - intros k. rewrite (written_stored _ _ _ _ _ Hw). intros [[-> _]|[_ Hst]]; [by apply bytes_keyimage_key|].
    by apply Hb.
  - intros ki' Hki'. rewrite (proj2 Hw). destruct (decide (ki = ki')) as [<-|Hne].
    + by rewrite decide_True, fn_lookup_insert.
    + rewrite decide_False by (intros Heq; by apply keyimage_key_inj in Heq). rewrite fn_lookup_insert_ne by done.
      by apply Hk.
  - intros ki' h Hki'. destruct (decide (ki = ki')) as [<-|Hne].
    + rewrite fn_lookup_insert. apply Ho.
    + rewrite fn_lookup_insert_ne by done. by apply Hh.
  - intros a gi Ha Hg. rewrite (proj2 Hw), decide_False by apply output_keyimage. by apply Hout.
  - intros k. rewrite (written_stored _ _ _ _ _ Hw). intros [[Heq _]|[_ Hst]]; [done|]. by apply Honly.
Qed.

Lemma shows_write_output s v a gi outs cache d' :
  store_shows s v → in_u 64 a → in_u 32 gi →
  (∀ i, i ≠ Z.to_nat gi → outs !! i = v_outs v a !! i) →
  (∀ o, o ∈ outs → output_ok a o) → Z.of_nat (length outs) < 2 ^ 32 →
  (∀ a' n, cache !! a' = Some n → n = Z.of_nat (length ((<[a := outs]> (v_outs v)) a'))) →
  written (m_db s) (output_key a gi) (encoding ser_Output <$> outs !! Z.to_nat gi) d' →
  store_shows {| m_db := d'; m_next_gi_for_amount := cache |}
    {| v_keys := v_keys v; v_outs := <[a := outs]> (v_outs v) |}.
Proof.
  intros Hs Ha Hg Houts Hoo Hlen Hcache Hw. destruct Hs as [Hsz Hb Hk Hh Hout Honly Hc Hl Hok].
  split; cbn [m_db m_next_gi_for_amount v_keys v_outs v_store with_db]; try done.
  - by rewrite (proj1 Hw).
  - intros k. rewrite (written_stored _ _ _ _ _ Hw). intros [[-> _]|[_ Hst]]; [by apply bytes_output_key|].
    by apply Hb.
  - intros ki Hki. rewrite (proj2 Hw), decide_False; [by apply Hk|]. intros Heq. by apply (output_keyimage a gi ki).
  - intros a' gi' Ha' Hg'. rewrite (proj2 Hw). destruct (decide (a = a')) as [<-|Hne].
    + rewrite fn_lookup_insert. case_decide as Heq.
      * by apply output_key_inj in Heq as [_ ->].
      * rewrite Houts; [by apply Hout|]. intros Hn. apply Heq. f_equal. unfold in_u in *. lia.
    + rewrite fn_lookup_insert_ne, decide_False by (try done; intros Heq; by apply output_key_inj in Heq as [? _]).
      by apply Hout.
  - intros k. rewrite (written_stored _ _ _ _ _ Hw). intros [[-> _]|[_ Hst]]; [by exists a, gi|]. by apply Honly.
  - intros a'. destruct (decide (a = a')) as [<-|]; [by rewrite fn_lookup_insert|by rewrite fn_lookup_insert_ne].
  - intros a' o. destruct (decide (a = a')) as [<-|]; [rewrite fn_lookup_insert; auto|].
    rewrite fn_lookup_insert_ne by done. apply Hok.
Qed.

(** *** Reading *)

Lemma store_read_keyimage s v ki : store_shows s v → ki_ok ki → read_keyimage s ki = Ok (v_keys v ki).
Proof.
  intros Hs Hki. unfold read_keyimage. rewrite (st_keys _ _ Hs _ Hki).
  destruct (v_keys v ki) as [h|] eqn:Hh; [|done]. cbn [fmap option_fmap option_map].
  destruct (encoding_ok ser_Height h) as (_ & _ & ->); [by apply (st_height _ _ Hs _ _ Hki Hh)|]. done.
Qed.

Lemma store_read_output s v a gi : store_shows s v → in_u 64 a → in_u 32 gi →
  read_amount_output s a gi = Ok (v_outs v a !! Z.to_nat gi).
Proof.
  intros Hs Ha Hg. unfold read_amount_output. rewrite (st_outs _ _ Hs _ _ Ha Hg).
  destruct (v_outs v a !! Z.to_nat gi) as [o|] eqn:Ho; [|done]. cbn [fmap option_fmap option_map].
  destruct (encoding_ok ser_Output o) as (_ & _ & ->); [|done].
  by apply (st_ok _ _ Hs a), list_elem_of_lookup_2 with (Z.to_nat gi).
Qed.

Lemma output_stored s v a gi : store_shows s v → in_u 64 a → in_u 32 gi →
  stored (m_db s) (output_key a gi) ↔ gi < Z.of_nat (length (v_outs v a)).
Proof.
  intros Hs Ha Hg. unfold stored. pose proof (st_outs _ _ Hs _ _ Ha Hg) as Hout. unfold get in Hout.
  rewrite Hout, fmap_is_Some, lookup_lt_is_Some. unfold in_u in Hg. lia.
Qed.

Lemma bytes_amount_prefix a : in_u 64 a → bytes (amount_prefix a).
Proof.
  intros Ha. apply bytes_app. split; [by apply (bool_decide_unpack _)|]. by apply bytes_write_varint_sqlite4.
Qed.

Lemma no_ff_key s v a : store_shows s v → in_u 64 a →
  ¬ stored (m_db s) (amount_prefix a ++ replicate (mdb_env_get_maxkeysize (m_db s) - length (amount_prefix a)) 0xff).
Proof.
  intros Hs Ha Hst. pose proof (st_size _ _ Hs) as Hsz. unfold amount_prefix in Hst.
  rewrite <- app_assoc in Hst. destruct (st_only _ _ Hs _ Hst) as (b & gi & Hb & Hg & Heq).
  rewrite app_assoc in Heq. apply amount_prefix_inj in Heq as [<- Heq]; [|done..].
  apply (f_equal length) in Heq. rewrite length_replicate in Heq.
  pose proof (varint_size gi (in_u_32_64 _ Hg)). pose proof (varint_size a Ha).
  unfold AMOUNT_OUTPUT_PREFIX in *. rewrite length_app in Heq. cbn [length chars] in Heq. cbn in Heq. lia.
Qed.

(** The cursor on the last key of an amount finds its last global index. *)
Lemma last_output s v a : store_shows s v → in_u 64 a →
  let c := rbegin (m_db s) (amount_prefix a) [] in
  if is_end c then v_outs v a = []
  else ∃ gi, in_u 32 gi ∧ suffix c = write_varint_sqlite4 gi ∧ Z.of_nat (length (v_outs v a)) = gi + 1.
Proof.
  intros Hs Ha c. assert (amount_prefix a ≠ []) as Hne by done.
  pose proof (rbegin_cursor (m_db s) (amount_prefix a) Hne (bytes_amount_prefix a Ha) (st_bytes _ _ Hs)
    (no_ff_key s v a Hs Ha)) as (_ & _ & Hc). fold c in Hc. destruct (is_end c).
  - destruct (v_outs v a) as [|o l] eqn:Ho; [done|]. exfalso. apply (Hc (write_varint_sqlite4 0)).
    apply (output_stored s v a 0 Hs Ha); [done|]. rewrite Ho. cbn. lia.
  - destruct Hc as (_ & _ & Hst & Hmax). pose proof Hst as Hst'. unfold amount_prefix in Hst.
    rewrite <- app_assoc in Hst. destruct (st_only _ _ Hs _ Hst) as (b & gi & Hb & Hg & Heq).
    rewrite app_assoc in Heq. apply amount_prefix_inj in Heq as [<- Heq]; [|done..].
    exists gi. split_and!; [done..|]. rewrite Heq in *. fold (output_key a gi) in Hst'.
    apply (output_stored s v a gi Hs Ha Hg) in Hst'. pose proof (st_length _ _ Hs a) as Hl.
    destruct (decide (Z.of_nat (length (v_outs v a)) = gi + 1)) as [|Hneq]; [done|]. exfalso.
    unfold in_u in Hg. assert (in_u 32 (gi + 1)) as Hg1 by (unfold in_u; lia).
    specialize (Hmax (write_varint_sqlite4 (gi + 1))). cbn in Hmax.
    pose proof (write_varint_sqlite4_lex gi (gi + 1) [] []) as Hlex. rewrite !app_nil_r in Hlex.
    rewrite Hlex in Hmax; [|unfold in_u; lia..]. enough (true = false) by done. apply Hmax.
    apply (output_stored s v a (gi + 1) Hs Ha Hg1). lia.
Qed.

Lemma shows_cache s v a : store_shows s v →
  store_shows (with_next s a (Z.of_nat (length (v_outs v a)))) v.
Proof.
  intros []. split; try done. cbn. intros a' n [[<- <-]|[_ Hn]]%lookup_insert_Some; auto.
Qed.

Lemma store_next s v a : store_shows s v → in_u 64 a →
  ∃ s', next_global_index_for_amount s a = Ok (s', Z.of_nat (length (v_outs v a))) ∧
    store_shows s' v ∧ m_db s' = m_db s ∧
    m_next_gi_for_amount s' !! a = Some (Z.of_nat (length (v_outs v a))).
Proof.
  intros Hs Ha. unfold next_global_index_for_amount.
  destruct (m_next_gi_for_amount s !! a) as [n|] eqn:Hn.
  - pose proof (st_cache _ _ Hs _ _ Hn) as ->. by exists s.
  - pose proof (last_output s v a Hs Ha) as Hlast. cbn zeta in *. destruct (is_end _).
    + rewrite Hlast. cbn [mbind result_bind]. eexists. split; [done|].
      split_and!; [|done|apply lookup_insert_eq]. pose proof (shows_cache s v a Hs) as Hsc.
      by rewrite Hlast in Hsc.
    + destruct Hlast as (gi & Hg & -> & Hlen). unfold read_varint_sqlite4_str, lexical_cast_u32.
      pose proof (read_write_varint_sqlite4 gi [] (in_u_32_64 _ Hg)) as Hr. rewrite app_nil_r in Hr.
      rewrite Hr. cbn [mbind result_bind]. rewrite bool_decide_eq_true_2 by done. cbn [mbind result_bind].
      pose proof (st_length _ _ Hs a) as Hl. unfold in_u, UINT32_MAX in *.
      replace (gi <=? 2 ^ 32 - 1) with true by lia. cbn [mbind result_bind].
      rewrite u32_small by lia. rewrite <- Hlen. eexists. split; [done|].
      split_and!; [by apply shows_cache|done|apply lookup_insert_eq].
Qed.

(** *** Writing *)

Lemma key_ok_small (d : D) k : (64 ≤ mdb_env_get_maxkeysize d)%nat → (0 < length k ≤ 64)%nat → key_ok d k.
Proof. unfold key_ok. lia. Qed.

Lemma store_put_keyimage s v ki h : store_shows s v → ki_ok ki → in_u 32 h → v_keys v ki = None →
  ∃ d', store_keyimage s ki h = Ok (with_db s d') ∧
    written (m_db s) (keyimage_key ki) (Some (encoding ser_Height h)) d' ∧
    store_shows (with_db s d') (v_store ki (Some h) v).
Proof.
  intros Hs Hki Hh Hn. unfold store_keyimage. destruct (encoding_ok ser_Height h Hh) as (-> & _ & _).
  cbn [mbind result_bind].
  destruct (put_ok (m_db s) (keyimage_key ki) (encoding ser_Height h) true) as (d' & -> & Hw).
  { apply key_ok_small; [apply (st_size _ _ Hs)|]. rewrite keyimage_key_size by done. lia. }
  { intros _. by rewrite (st_keys _ _ Hs _ Hki), Hn. }
  exists d'. split_and!; [done..|]. by apply shows_write_keyimage; [..|intros ? [= <-]|].
Qed.

Lemma store_twice s v ki h h' : store_shows s v → ki_ok ki → in_u 32 h → v_keys v ki = Some h' →
  store_keyimage s ki h = Throw "DBlmdb::put failed or nooverwrite key already exists".
Proof.
  intros Hs Hki Hh Hv. unfold store_keyimage. destruct (encoding_ok ser_Height h Hh) as (-> & _).
  cbn [mbind result_bind]. rewrite put_exists; [done|..].
  - apply key_ok_small; [apply (st_size _ _ Hs)|]. rewrite keyimage_key_size by done. lia.
  - pose proof (st_keys _ _ Hs _ Hki) as Hk. unfold get in Hk. unfold stored. rewrite Hk, Hv. by eexists.
Qed.

Lemma store_delete_keyimage s v ki h : store_shows s v → ki_ok ki → v_keys v ki = Some h →
  ∃ d', delete_keyimage s ki = Ok (with_db s d') ∧ db_keeps (m_db s) d' ∧
    store_shows (with_db s d') (v_store ki None v).
Proof.
  intros Hs Hki Hn. unfold delete_keyimage.
  destruct (del_ok (m_db s) (keyimage_key ki) true) as (d' & -> & Hw).
  { apply key_ok_small; [apply (st_size _ _ Hs)|]. rewrite keyimage_key_size by done. lia. }
  { intros _. pose proof (st_keys _ _ Hs _ Hki) as Hk. unfold get in Hk. unfold stored. rewrite Hk, Hn. by eexists. }
  exists d'. split_and!; [done|by eapply written_keeps, keyimage_not_other|].
  by apply shows_write_keyimage.
Qed.

Lemma output_key_ok s v a gi : store_shows s v → in_u 64 a → in_u 32 gi → key_ok (m_db s) (output_key a gi).
Proof.
  intros Hs Ha Hg. apply key_ok_small; [apply (st_size _ _ Hs)|]. pose proof (output_key_size a gi Ha Hg). lia.
Qed.

Lemma in_u_length n : Z.of_nat n < 2 ^ 32 → in_u 32 (Z.of_nat n).
Proof. unfold in_u. lia. Qed.

Lemma store_push s v a u h pk :
  let o := {| o_unlock_time := u; o_public_key := pk; o_height := h; o_spent := false |} in
  store_shows s v → output_ok a o → Z.of_nat (length (v_outs v a)) < 2 ^ 32 - 1 →
  ∃ s', push_amount_output s a u h pk = Ok (s', Z.of_nat (length (v_outs v a))) ∧
    store_shows s' (v_push a o v) ∧ store_keeps s s'.
Proof.
  intros o Hs [Ha Ho] Hlen. unfold push_amount_output.
  destruct (store_next s v a Hs Ha) as (s1 & -> & Hs1 & Hdb & Hc1). cbn [mbind result_bind].
  destruct (encoding_ok ser_Output o Ho) as (Henc & _ & _). unfold o in Henc at 1. rewrite Henc. cbn [mbind result_bind].
  pose proof (in_u_length (length (v_outs v a)) ltac:(lia)) as Hg.
  destruct (put_ok (m_db s1) (output_key a (Z.of_nat (length (v_outs v a)))) (encoding ser_Output o) true)
    as (d' & -> & Hw).
  { by eapply output_key_ok. }
  { intros _. rewrite (st_outs _ _ Hs1 _ _ Ha Hg), Nat2Z.id. by rewrite lookup_ge_None_2. }
  eexists. split; [done|]. cbn [m_next_gi_for_amount with_db with_next]. rewrite Hc1. split.
  - unfold with_next, with_db. cbn [m_db m_next_gi_for_amount from_option id].
    eapply (shows_write_output s1 v a (Z.of_nat (length (v_outs v a))) (v_outs v a ++ [o])); try done.
    + intros i Hi. rewrite Nat2Z.id in Hi. destruct (decide (i < length (v_outs v a))%nat).
      * by rewrite lookup_app_l.
      * rewrite !lookup_ge_None_2; [done|lia|rewrite length_app; cbn; lia].
    + intros o' [Ho'| ->%list_elem_of_singleton]%elem_of_app; [by eapply st_ok|done].
    + rewrite length_app. cbn. lia.
    + intros a' n [[<- <-]|[Hne Hn]]%lookup_insert_Some.
      * rewrite fn_lookup_insert, length_app, u32_small by lia. cbn. lia.
      * rewrite fn_lookup_insert_ne by done. by apply (st_cache _ _ Hs1).
    + rewrite Nat2Z.id, lookup_app_r, Nat.sub_diag by lia. done.
  - unfold store_keeps. rewrite <- Hdb. eapply written_keeps; [exact Hw|apply output_not_other].
Qed.

Lemma store_pop s v a u pk l o :
  store_shows s v → in_u 64 a → v_outs v a = l ++ [o] →
  o_spent o = false → o_unlock_time o = u → o_public_key o = pk →
  ∃ s', pop_amount_output s a u pk = Ok s' ∧
    store_shows s' {| v_keys := v_keys v; v_outs := <[a := l]> (v_outs v) |} ∧ store_keeps s s'.
Proof.
  intros Hs Ha Hl Hsp Hu Hpk. unfold pop_amount_output.
  destruct (store_next s v a Hs Ha) as (s1 & -> & Hs1 & Hdb & Hc1). cbn [mbind result_bind].
  pose proof (st_length _ _ Hs a) as Hlen. rewrite Hl, length_app in *. cbn [length] in *.
  replace (Z.of_nat (length l + 1) =? 0) with false by lia. cbn [negb check mbind result_bind].
  set (s2 := with_next s1 a _). assert (in_u 32 (Z.of_nat (length l))) as Hg by (apply in_u_length; lia).
  replace (Z.of_nat (length l + 1) - 1) with (Z.of_nat (length l)) by lia.
  assert (read_amount_output s2 a (Z.of_nat (length l)) = Ok (Some o)) as ->.
  { etrans; [apply (store_read_output s1 v a _ Hs1 Ha Hg)|].
    by rewrite Hl, Nat2Z.id, lookup_app_r, Nat.sub_diag by lia. }
  cbn [mbind result_bind]. rewrite Hsp, Hu, Hpk, Z.eqb_refl, bool_decide_eq_true_2 by done.
  cbn [negb andb check mbind result_bind].
  destruct (del_ok (m_db s2) (output_key a (Z.of_nat (length l))) true) as (d' & -> & Hw).
  { by eapply (output_key_ok s1). }
  { intros _. apply (output_stored s1 v a _ Hs1 Ha Hg). rewrite Hl, length_app. cbn. lia. }
  eexists. split; [done|]. split.
  - unfold with_db. eapply (shows_write_output s1 v a (Z.of_nat (length l)) l); try done.
    + intros i Hi. rewrite Nat2Z.id in Hi. rewrite Hl. destruct (decide (i < length l)%nat).
      * by rewrite lookup_app_l.
      * rewrite !lookup_ge_None_2; [done|rewrite length_app; cbn; lia|lia].
    + intros o' Ho'. apply (st_ok _ _ Hs1). rewrite Hl. apply elem_of_app. by left.
    + lia.
    + subst s2. cbn [m_next_gi_for_amount with_next]. rewrite Hc1. cbn [from_option id].
      intros a' n [[<- <-]|[Hne Hn]]%lookup_insert_Some.
      * rewrite fn_lookup_insert, u32_small by lia. lia.
      * rewrite fn_lookup_insert_ne by done. by apply (st_cache _ _ Hs1).
    + by rewrite Nat2Z.id, lookup_ge_None_2.
  - unfold store_keeps. rewrite <- Hdb. eapply written_keeps; [exact Hw|apply output_not_other].
Qed.

Lemma store_mark s v a gi b :
  store_shows s v → in_u 64 a → in_u 32 gi →
  ∃ s', mark_output s a gi b = Ok s' ∧ store_shows s' (v_spend b a gi v) ∧ store_keeps s s'.
Proof.
  intros Hs Ha Hg. unfold mark_output. rewrite (st_outs _ _ Hs _ _ Ha Hg).
  destruct (v_outs v a !! Z.to_nat gi) as [o|] eqn:Ho; cbn [fmap option_fmap option_map].
  - assert (output_ok a o) as [_ Hoo] by (by apply (st_ok _ _ Hs), list_elem_of_lookup_2 with (Z.to_nat gi)).
    destruct (encoding_ok ser_Output o Hoo) as (_ & _ & ->). cbn [mbind result_bind].
    destruct (encoding_ok ser_Output (set_spent b o) Hoo) as (Henc & _ & _).
    unfold set_spent in Henc at 1. rewrite Henc. cbn [mbind result_bind].
    destruct (put_ok (m_db s) (output_key a gi) (encoding ser_Output (set_spent b o)) false) as (d' & -> & Hw);
      [by eapply output_key_ok|done|].
    eexists. split; [done|]. split; [|by eapply written_keeps, output_not_other].
    unfold with_db. set (outs := alter (set_spent b) (Z.to_nat gi) (v_outs v a)).
    assert (v_spend b a gi v ≡ {| v_keys := v_keys v; v_outs := <[a := outs]> (v_outs v) |}) as ->.
    { split; [done|]. intros a'. cbn. destruct (decide (a = a')) as [<-|Hne].
      - by rewrite fn_lookup_alter, fn_lookup_insert.
      - by rewrite fn_lookup_alter_ne, fn_lookup_insert_ne. }
    eapply (shows_write_output s v a gi outs); try done.
    + intros i Hi. unfold outs. by rewrite list_lookup_alter_ne.
    + intros o' [i Hi]%list_elem_of_lookup. unfold outs in Hi. destruct (decide (Z.to_nat gi = i)) as [<-|Hne].
      * rewrite list_lookup_alter_eq, Ho in Hi. injection Hi as <-. by split.
      * rewrite list_lookup_alter_ne in Hi by done. by eapply st_ok, list_elem_of_lookup_2.
    + unfold outs. rewrite length_alter. apply (st_length _ _ Hs).
    + intros a' n Hn%(st_cache _ _ Hs). destruct (decide (a = a')) as [<-|Hne].
      * rewrite fn_lookup_insert. unfold outs. by rewrite length_alter.
      * by rewrite fn_lookup_insert_ne.
    + unfold outs. by rewrite list_lookup_alter_eq, Ho.
  - exists s. split_and!; [done| |done]. assert (v_spend b a gi v ≡ v) as ->; [|done].
    split; [done|]. intros a'. cbn. destruct (decide (a = a')) as [<-|Hne].
    + rewrite fn_lookup_alter. apply list_eq. intros i. destruct (decide (Z.to_nat gi = i)) as [<-|].
      * by rewrite list_lookup_alter_eq, Ho.
      * by rewrite list_lookup_alter_ne.
    + by rewrite fn_lookup_alter_ne.
Qed.

Global Instance store_laws : ChainStateLaws (Store D).
Proof.
  refine {| shows := store_shows; stamp _ h := h; spends_now := true; pending _ := []; keeps := store_keeps |}.
  - done.
  - intros s v a Hs. apply (st_length _ _ Hs).
  - intros s v a o Hs. apply (st_ok _ _ Hs).
  - apply store_read_keyimage.
  - intros s v a Hs Ha. cbn. by destruct (store_next s v a Hs Ha) as (s' & -> & _).
  - apply store_read_output.
  - intros s v ki h Hs Hki Hh _ Hn. 
    destruct (store_put_keyimage s v ki h Hs Hki Hh Hn) as (d' & Hput & Hw & Hs'). exists (with_db s d').
    split_and!; [exact Hput|done| |done]. eapply written_keeps; [exact Hw|apply keyimage_not_other].
  - intros s v a u h pk o Hs Ho Hl. cbn. destruct (store_push s v a u h pk Hs Ho Hl) as (s' & ? & ? & ?).
    by exists s'.
  - intros s v a gi Hs Ha Hg. cbn. destruct (store_mark s v a gi true Hs Ha Hg) as (s' & ? & ? & ?).
    by exists s'.
Defined.

End laws.

(** Spending changes no more than the flags. *)
Definition unflag (o : Output) : Output := set_spent false o.

Lemma v_spend_unflag b a gi v a' : unflag <$> v_outs (v_spend b a gi v) a' = unflag <$> v_outs v a'.
Proof.
  cbn. destruct (decide (a = a')) as [<-|Hne]; [|by rewrite fn_lookup_alter_ne].
  rewrite fn_lookup_alter. apply list_eq. intros i. rewrite !list_lookup_fmap.
  destruct (decide (Z.to_nat gi = i)) as [<-|].
  - rewrite list_lookup_alter_eq. by destruct (v_outs v a !! Z.to_nat gi).
  - by rewrite list_lookup_alter_ne.
Qed.

Lemma v_spends_unflag l v a : unflag <$> v_outs (v_spends l v) a = unflag <$> v_outs v a.
Proof.
  revert v. induction l as [|[b gi] l IH]; intros v; [done|].
  etrans; [apply (IH (v_spend true b gi v))|apply v_spend_unflag].
Qed.

Lemma v_spends_keys l v : v_keys (v_spends l v) = v_keys v.
Proof. revert v. induction l as [|e l IH]; intros v; [done|]. by etrans; [apply (IH (v_spend _ _ _ v))|]. Qed.

Lemma length_unflag (l k : list Output) : unflag <$> l = unflag <$> k → length l = length k.
Proof. intros Heq. apply (f_equal length) in Heq. by rewrite !length_fmap in Heq. Qed.

(** An empty database. *)
Definition empty_db : memory_db := exist _ ∅ (map_Forall_empty _).
Definition empty_store : Store memory_db := {| m_db := empty_db; m_next_gi_for_amount := ∅ |}.
Definition empty_view : view := {| v_keys _ := None; v_outs _ := [] |}.

Lemma empty_store_shows : store_shows empty_store empty_view.
Proof.
  assert (∀ k, mdb_get empty_db k = None) as Hget by (intros k; apply lookup_empty).
  assert (∀ k, ¬ stored empty_db k) as Hno by (intros k [x Hx]; by rewrite Hget in Hx).
  split; cbn [m_db empty_store empty_view v_keys v_outs]; try done.
  - cbn. unfold MAX_KEY_SIZE. lia.
  - intros k Hk. by destruct (Hno k).
  - intros k Hk. by destruct (Hno _ Hk).
  - intros a o Hin. by apply elem_of_nil in Hin.
Qed.

(** ** Properties *)

(** C26: The outputs of an amount are numbered without gaps: a new one gets as
    its global index the number of outputs of that amount there were, whether
    or not the cache knew it; it is found under that index, every other output
    is found as before, and popping it gives a database that reads as before
    with the index free again. *)
Theorem push_pop_output {D : Type} `{LmdbLaws D} (s : Store D) v a u h pk :
  let o := {| o_unlock_time := u; o_public_key := pk; o_height := h; o_spent := false |} in
  let n := Z.of_nat (length (v_outs v a)) in
  store_shows s v → output_ok a o → n < 2 ^ 32 - 1 →
  ∃ s1 s2, push_amount_output s a u h pk = Ok (s1, n) ∧
    read_amount_output s1 a n = Ok (Some o) ∧
    (∀ a' gi, in_u 64 a' → in_u 32 gi → (a', gi) ≠ (a, n) →
       read_amount_output s1 a' gi = read_amount_output s a' gi) ∧
    pop_amount_output s1 a u pk = Ok s2 ∧
    (∀ a' gi, in_u 64 a' → in_u 32 gi → read_amount_output s2 a' gi = read_amount_output s a' gi) ∧
    ∃ s3, next_global_index_for_amount s2 a = Ok (s3, n).
Proof.
  intros o n Hs Ho Hn. pose proof (proj1 Ho) as Ha.
  destruct (store_push s v a u h pk Hs Ho Hn) as (s1 & Hp & Hs1 & _).
  destruct (store_pop s1 _ a u pk (v_outs v a) o Hs1 Ha) as (s2 & Hp2 & Hs2 & _);
    [by cbn; rewrite fn_lookup_insert|done..|].
  assert (store_shows s2 v) as Hs2v.
  { eapply store_shows_proper; [done| |exact Hs2]. split; [done|]. intros a'. cbn.
    destruct (decide (a = a')) as [<-|Hne]; [by rewrite fn_lookup_insert|by rewrite !fn_lookup_insert_ne]. }
  assert (in_u 32 n) as Hg by (apply in_u_length; lia).
  exists s1, s2. split_and!; try done.
  - rewrite (store_read_output s1 _ a n Hs1 Ha Hg). cbn. rewrite fn_lookup_insert.
    unfold n. by rewrite Nat2Z.id, lookup_app_r, Nat.sub_diag by lia.
  - intros a' gi Ha' Hgi Hne. rewrite (store_read_output s1 _ _ _ Hs1 Ha' Hgi), (store_read_output s v _ _ Hs Ha' Hgi).
    f_equal. cbn. destruct (decide (a = a')) as [<-|]; [|by rewrite fn_lookup_insert_ne].
    rewrite fn_lookup_insert. assert (gi ≠ n) by congruence. unfold in_u in Hgi.
    destruct (decide (Z.to_nat gi < length (v_outs v a))%nat); [by rewrite lookup_app_l|].
    rewrite !lookup_ge_None_2; [done|lia|rewrite length_app; cbn; lia].
  - intros a' gi Ha' Hgi. by rewrite (store_read_output s2 v _ _ Hs2v Ha' Hgi), (store_read_output s v _ _ Hs Ha' Hgi).
  - destruct (store_next s2 v a Hs2v Ha) as (s3 & Hs3 & _). by exists s3.
Qed.

Lemma push_pop_output_witness :
  ∃ s1 s2, push_amount_output empty_store 1000000 7 3 (replicate 32 9) = Ok (s1, 0) ∧
    pop_amount_output s1 1000000 7 (replicate 32 9) = Ok s2.
Proof.
  destruct (push_pop_output empty_store empty_view 1000000 7 3 (replicate 32 9))
    as (s1 & s2 & Hp & _ & _ & Hpop & _).
  - apply empty_store_shows.
  - by split; [|by apply (bool_decide_unpack _)].
  - done.
  - by exists s1, s2.
Defined.

(** C28: A key image is spent at most once: storing one that the database
    already holds throws, storing a new one makes exactly it read as spent at
    that height, and deleting it undoes that. *)
Theorem keyimage_spent_once {D : Type} `{LmdbLaws D} (s : Store D) v ki h :
  store_shows s v → ki_ok ki → in_u 32 h →
  match v_keys v ki with
  | Some h' =>
      read_keyimage s ki = Ok (Some h') ∧
      store_keyimage s ki h = Throw "DBlmdb::put failed or nooverwrite key already exists"
  | None =>
      read_keyimage s ki = Ok None ∧
      ∃ s1 s2, store_keyimage s ki h = Ok s1 ∧ read_keyimage s1 ki = Ok (Some h) ∧
        (∀ ki', ki_ok ki' → ki' ≠ ki → read_keyimage s1 ki' = read_keyimage s ki') ∧
        delete_keyimage s1 ki = Ok s2 ∧
        ∀ ki', ki_ok ki' → read_keyimage s2 ki' = read_keyimage s ki'
  end.
Proof.
  intros Hs Hki Hh. rewrite (store_read_keyimage s v ki Hs Hki).
  destruct (v_keys v ki) as [h'|] eqn:Hv; (split; [done|]).
  - by eapply store_twice.
  - destruct (store_put_keyimage s v ki h Hs Hki Hh Hv) as (d1 & Hp & _ & Hs1).
    destruct (store_delete_keyimage _ _ ki h Hs1 Hki) as (d2 & Hd & _ & Hs2);
      [by cbn; rewrite fn_lookup_insert|].
    eexists _, _. split_and!; [exact Hp| | |exact Hd|].
    + rewrite (store_read_keyimage _ _ _ Hs1 Hki). cbn. by rewrite fn_lookup_insert.
    + intros ki' Hki' Hne. rewrite (store_read_keyimage _ _ _ Hs1 Hki'), (store_read_keyimage _ _ _ Hs Hki').
      cbn. by rewrite fn_lookup_insert_ne.
    + intros ki' Hki'. rewrite (store_read_keyimage _ _ _ Hs2 Hki'), (store_read_keyimage _ _ _ Hs Hki').
      cbn. destruct (decide (ki = ki')) as [<-|]; [by rewrite fn_lookup_insert, Hv|].
      by rewrite !fn_lookup_insert_ne.
Qed.

Lemma keyimage_spent_once_witness :
  ∃ s1, store_keyimage empty_store (replicate 32 5) 9 = Ok s1 ∧ read_keyimage s1 (replicate 32 5) = Ok (Some 9).
Proof.
  destruct (keyimage_spent_once empty_store empty_view (replicate 32 5) 9) as (_ & s1 & s2 & Hp & Hr & _).
  - apply empty_store_shows.
  - by apply (bool_decide_unpack _).
  - done.
  - by exists s1.
Defined.

(** C27: Applying a delta makes real what it showed: over any two states that
    show the same, reading the parent after [DeltaState::apply] finds the key
    images, next indices and outputs that reading through the delta found,
    but for the spent flags, which a delta only keeps to pass on. *)
Theorem delta_apply_refines {S P : Type} `{ChainStateLaws S} `{ChainStateLaws P} (d : DeltaState S) (p : P) v :
  shows (m_parent_state d) v → shows p v → delta_ok d v →
  stamp p (m_block_height d) = m_block_height d →
  ∃ p', Delta.apply d p = Ok p' ∧
    (∀ ki, ki_ok ki → ChainState.read_keyimage p' ki = Delta.read_keyimage d ki) ∧
    (∀ a, in_u 64 a → ChainState.next_global_index_for_amount p' a = Delta.next_global_index_for_amount d a) ∧
    ∀ a gi, in_u 64 a → in_u 32 gi → ∃ o o',
      ChainState.read_amount_output p' a gi = Ok o ∧ Delta.read_amount_output d a gi = Ok o' ∧
      unflag <$> o = unflag <$> o'.
Proof.
  intros Hd Hp Hok Hst. destruct (apply_shows d p v Hp Hok Hst) as (p' & Hp' & Hs' & _).
  set (w := if spends_now P then _ else _) in Hs'.
  assert (v_keys w = v_keys (overlay d v)) as Hwk by (unfold w; destruct (spends_now P); [apply v_spends_keys|done]).
  assert (∀ a, unflag <$> v_outs w a = unflag <$> v_outs (overlay d v) a) as Hwo.
  { intros a. unfold w. destruct (spends_now P); [apply v_spends_unflag|done]. }
  exists p'. split_and!; [done|..].
  - intros ki Hki. rewrite (shows_read_keyimage _ _ _ Hs' Hki), Hwk.
    by rewrite (delta_read_keyimage d v ki Hd Hki).
  - intros a Ha. rewrite (shows_next _ _ _ Hs' Ha), (length_unflag _ _ (Hwo a)).
    by rewrite (delta_next d v a Hd Hok Ha).
  - intros a gi Ha Hg. eexists _, _. split; [by apply shows_read_output|].
    split; [by apply (delta_read_output d v a gi Hd Hok Ha Hg)|].
    change (v_outs v a ++ delta_outs d a) with (v_outs (overlay d v) a).
    by rewrite <- !list_lookup_fmap, Hwo.
Qed.

Definition sample_delta : DeltaState (Store memory_db) := {|
  m_keyimages := {[replicate 32 5 := 9]};
  m_global_amounts := {[1000000 := [(7, replicate 32 9)]]};
  m_spent_outputs := [(1000000, 0)];
  m_block_height := 9;
  m_unlock_timestamp := 0;
  m_parent_state := empty_store;
|}.

Lemma sample_delta_ok : delta_ok sample_delta empty_view.
Proof.
  split; cbn.
  - done.
  - intros ki h [<- <-]%lookup_singleton_Some. split_and!; try done; by apply (bool_decide_unpack _).
  - intros a o. unfold delta_outs. cbn. destruct (decide (a = 1000000)) as [->|Hne].
    + rewrite lookup_singleton_eq. cbn. intros ->%list_elem_of_singleton.
      split; [done|by apply (bool_decide_unpack _)].
    + rewrite lookup_singleton_ne by done. cbn. by intros ?%elem_of_nil.
  - intros a. unfold delta_outs. cbn. rewrite length_fmap. destruct (decide (a = 1000000)) as [->|Hne].
    + rewrite lookup_singleton_eq. cbn. lia.
    + rewrite lookup_singleton_ne by done. cbn. lia.
  - by intros a els [<- _]%lookup_singleton_Some.
  - by intros a gi [= -> ->]%list_elem_of_singleton.
Qed.

Lemma delta_apply_refines_witness :
  ∃ p', Delta.apply sample_delta empty_store = Ok p' ∧
    read_keyimage p' (replicate 32 5) = Delta.read_keyimage sample_delta (replicate 32 5).
Proof.
  destruct (delta_apply_refines sample_delta empty_store empty_view) as (p' & Hp & Hk & _).
  - apply empty_store_shows.
  - apply empty_store_shows.
  - apply sample_delta_ok.
  - done.
  - exists p'. split; [exact Hp|]. apply Hk. by apply (bool_decide_unpack _).
Defined.

End Store.
