(* ===== verification/Pool.v ===== *)
(** * The transaction pool (src/src/Core/BlockChainState.cpp)

    The four containers that index the transactions waiting for a block (by
    hash, by key image, by fee per byte) and their total size: removal,
    displacement of conflicting transactions, insertion and trimming to
    [MAX_POOL_SIZE].  The checks of [add_transaction] against the chain are in
    Redo.v. *)

From S2P Require Import Prelude Containers CryptoNote Amounts.
Import Containers CryptoNote Amounts.

Local Open Scope Z_scope.

Module Pool.

Definition MAX_POOL_SIZE : Z := 2000000.

Record PoolTransaction := {
  pt_tx : Transaction;
  binary_tx : BinaryArray;
  fee : Amount;
  timestamp : Timestamp;
}.

Definition size (l : BinaryArray) : Z := Z.of_nat (length l).

(** A division by zero for an empty transaction. *)
Definition per_byte (fee : Amount) (binary_tx : BinaryArray) : result Amount :=
  if size binary_tx =? 0 then Undefined "division by zero" else Ok (fee / size binary_tx).
Definition fee_per_byte (t : PoolTransaction) : result Amount := per_byte (fee t) (binary_tx t).

Record Pool := {
  m_tx_pool_version : Z;
  m_memory_state_tx : gmap Hash PoolTransaction;
  m_memory_state_ki_tx : gmap KeyImage Hash;
  m_memory_state_fee_tx : gmap Amount (gset Hash);
  m_memory_state_total_size : Z;
}.

Definition empty_pool : Pool :=
  {| m_tx_pool_version := 2; m_memory_state_tx := ∅; m_memory_state_ki_tx := ∅;
     m_memory_state_fee_tx := ∅; m_memory_state_total_size := 0 |}.

Inductive AddTransactionResult :=
| BAN | BROADCAST_ALL | ALREADY_IN_POOL | INCREASE_FEE | FAILED_TO_REDO | OUTPUT_ALREADY_SPENT.

Global Instance AddTransactionResult_eq_dec : EqDecision AddTransactionResult.
Proof. solve_decision. Defined.

(** The key images that a transaction spends, in the order of its inputs. *)
Definition key_image_of (i : TransactionInput) : option KeyImage :=
  match i with KeyInput _ _ key_image => Some key_image | CoinbaseInput _ => None end.
Definition key_images (tx : TransactionPrefix) : list KeyImage := omap key_image_of (inputs tx).

(** [m_memory_state_tx.at(tid)]. *)
Definition tx_at (p : Pool) (tid : Hash) : result PoolTransaction :=
  of_option (m_memory_state_tx p !! tid) (Throw "std::out_of_range").

(** What the log lines read: the cheapest transaction's size. *)
Definition log_min_size (p : Pool) : result Z :=
  match map_begin (m_memory_state_fee_tx p) with
  | None => Ok 0
  | Some (_, s) =>
      match set_begin s with
      | None => Ok 0
      | Some tid => t ← tx_at p tid; Ok (size (binary_tx t))
      end
  end.

(** [m_memory_state_fee_tx[f].erase(tid)], and the entry with its last. *)
Definition erase_fee (m : gmap Amount (gset Hash)) (f : Amount) (tid : Hash) : gmap Amount (gset Hash) * bool :=
  let s := default ∅ (m !! f) in
  let s' := s ∖ {[tid]} in
  (if bool_decide (s' = ∅) then delete f m else <[f := s']> m, bool_decide (tid ∈ s)).

Fixpoint erase_key_images (kis : list KeyImage) (m : gmap KeyImage Hash) (all_erased : bool) :
    gmap KeyImage Hash * bool :=
  match kis with
  | [] => (m, all_erased)
  | ki :: kis => erase_key_images kis (delete ki m) (all_erased && bool_decide (is_Some (m !! ki)))
  end.

Definition remove_from_pool (p : Pool) (tid : Hash) : result Pool :=
  match m_memory_state_tx p !! tid with
  | None => Ok p
  | Some t =>
      let '(ki_tx, all_erased) :=
        erase_key_images (key_images (tx_prefix (pt_tx t))) (m_memory_state_ki_tx p) true in
      my_fee_per_byte ← fee_per_byte t;
      let '(fee_tx, erased) := erase_fee (m_memory_state_fee_tx p) my_fee_per_byte tid in
      let p' :=
        {| m_tx_pool_version := m_tx_pool_version p;
           m_memory_state_tx := delete tid (m_memory_state_tx p);
           m_memory_state_ki_tx := ki_tx;
           m_memory_state_fee_tx := fee_tx;
           m_memory_state_total_size := u64 (m_memory_state_total_size p - size (binary_tx t)) |} in
      check (all_erased && erased) "remove_memory_pool failed to erase everything";;
      _ ← log_min_size p';
      Ok p'
  end.

Definition minimum_pool_fee_per_byte (p : Pool) : result (Amount * Hash) :=
  match map_begin (m_memory_state_fee_tx p) with
  | None => Ok (0, null_hash)
  | Some (f, s) =>
      match set_begin s with
      | None => Throw "Invariant dead, memory_state_fee_tx empty set"
      | Some tid => Ok (f, tid)
      end
  end.

(** *** [add_transaction], the pool's side *)

(** Too cheap for a full pool? *)
Definition refuses (p : Pool) (tid : Hash) (my_fee_per_byte : Amount) : result bool :=
  '(minimal_fee, minimal_tid) ← minimum_pool_fee_per_byte p;
  Ok ((m_memory_state_total_size p >=? MAX_POOL_SIZE) && (my_fee_per_byte <? minimal_fee) ||
      (m_memory_state_total_size p >=? MAX_POOL_SIZE) && (my_fee_per_byte =? minimal_fee) &&
        key_ltb tid minimal_tid).

(** Does the transaction that spends [ki] too pay more? *)
Definition outbid (p : Pool) (tid other : Hash) (my_fee_per_byte : Amount) : result bool :=
  other_tx ← tx_at p other;
  other_fee_per_byte ← fee_per_byte other_tx;
  Ok ((my_fee_per_byte <? other_fee_per_byte) ||
      (my_fee_per_byte =? other_fee_per_byte) && key_ltb tid other).

(** The first conflicting input decides, the rest are looked at after the
    transaction was verified. *)
Fixpoint outbid_first (p : Pool) (tid : Hash) (my_fee_per_byte : Amount) (kis : list KeyImage) : result bool :=
  match kis with
  | [] => Ok false
  | ki :: kis =>
      match m_memory_state_ki_tx p !! ki with
      | None => outbid_first p tid my_fee_per_byte kis
      | Some other => outbid p tid other my_fee_per_byte
      end
  end.

(** Remove the transactions in conflict, unless one pays more. *)
Fixpoint displace (p : Pool) (tid : Hash) (my_fee_per_byte : Amount) (kis : list KeyImage) :
    result (Pool * bool) :=
  match kis with
  | [] => Ok (p, false)
  | ki :: kis =>
      match m_memory_state_ki_tx p !! ki with
      | None => displace p tid my_fee_per_byte kis
      | Some other =>
          refused ← outbid p tid other my_fee_per_byte;
          if refused : bool then Ok (p, true)
          else p ← remove_from_pool p other; displace p tid my_fee_per_byte kis
      end
  end.

(** [std::map::insert]: nothing when the key is there. *)
Definition map_insert {K A} `{Countable K} (m : gmap K A) (k : K) (a : A) : gmap K A * bool :=
  match m !! k with Some _ => (m, false) | None => (<[k := a]> m, true) end.

Fixpoint insert_key_images (kis : list KeyImage) (tid : Hash) (m : gmap KeyImage Hash) (all_inserted : bool) :
    gmap KeyImage Hash * bool :=
  match kis with
  | [] => (m, all_inserted)
  | ki :: kis => let '(m, ok) := map_insert m ki tid in insert_key_images kis tid m (all_inserted && ok)
  end.

Definition insert_tx (p : Pool) (tid : Hash) (t : PoolTransaction) (my_fee_per_byte : Amount)
    (kis : list KeyImage) : result Pool :=
  let '(ki_tx, ok1) := insert_key_images kis tid (m_memory_state_ki_tx p) true in
  let '(txs, ok2) := map_insert (m_memory_state_tx p) tid t in
  let s := default ∅ (m_memory_state_fee_tx p !! my_fee_per_byte) in
  check (ok1 && ok2 && negb (bool_decide (tid ∈ s))) "memory_state_fee_tx empty";;
  Ok {| m_tx_pool_version := m_tx_pool_version p;
        m_memory_state_tx := txs;
        m_memory_state_ki_tx := ki_tx;
        m_memory_state_fee_tx := <[my_fee_per_byte := {[tid]} ∪ s]> (m_memory_state_fee_tx p);
        m_memory_state_total_size := u64 (m_memory_state_total_size p + size (binary_tx t)) |}.

(** Trim the pool to its size, cheapest first; [fuel] bounds the turns by the
    number of transactions. *)
Fixpoint trim (fuel : nat) (p : Pool) : result Pool :=
  if m_memory_state_total_size p >? MAX_POOL_SIZE then
    match fuel with
    | O => Undefined "out of fuel"
    | S fuel =>
        match map_begin (m_memory_state_fee_tx p) with
        | None => Throw "memory_state_fee_tx empty"
        | Some (_, be) =>
            match set_begin be with
            | None => Throw "memory_state_fee_tx empty set"
            | Some rhash =>
                minimal_tx ← tx_at p rhash;
                if m_memory_state_total_size p <? u64 (MAX_POOL_SIZE + size (binary_tx minimal_tx)) then Ok p
                else p ← remove_from_pool p rhash; trim fuel p
            end
        end
    end
  else Ok p.

(** From the removal of conflicts to the new version; [true]: refused. *)
Definition add_to_pool (p : Pool) (tid : Hash) (t : PoolTransaction) (my_fee_per_byte : Amount)
    (kis : list KeyImage) : result (Pool * AddTransactionResult) :=
  '(p, refused) ← displace p tid my_fee_per_byte kis;
  if refused : bool then Ok (p, INCREASE_FEE)
  else
    p ← insert_tx p tid t my_fee_per_byte kis;
    p ← trim (base.size (m_memory_state_tx p)) p;
    _ ← log_min_size p;
    Ok ({| m_tx_pool_version := u32 (m_tx_pool_version p + 1);
           m_memory_state_tx := m_memory_state_tx p;
           m_memory_state_ki_tx := m_memory_state_ki_tx p;
           m_memory_state_fee_tx := m_memory_state_fee_tx p;
           m_memory_state_total_size := m_memory_state_total_size p |}, BROADCAST_ALL).

(** ** The pool's invariant *)

Definition tx_size (t : PoolTransaction) : Z := size (binary_tx t).
Definition tx_fee (t : PoolTransaction) : Amount := fee t / tx_size t.
Definition tx_kis (t : PoolTransaction) : list KeyImage := key_images (tx_prefix (pt_tx t)).
Definition total (m : gmap Hash PoolTransaction) : Z := map_fold (λ _ t n, tx_size t + n) 0 m.

Definition tx_ok (t : PoolTransaction) : Prop := 0 < tx_size t ∧ NoDup (tx_kis t).

Record pool_ok (p : Pool) : Prop := {
  po_tx tid t : m_memory_state_tx p !! tid = Some t → tx_ok t;
  po_ki ki tid : m_memory_state_ki_tx p !! ki = Some tid ↔
    ∃ t, m_memory_state_tx p !! tid = Some t ∧ ki ∈ tx_kis t;
  po_fee_ne f s : m_memory_state_fee_tx p !! f = Some s → s ≠ ∅;
  po_fee f tid : tid ∈ default ∅ (m_memory_state_fee_tx p !! f) ↔
    ∃ t, m_memory_state_tx p !! tid = Some t ∧ tx_fee t = f;
  po_total : m_memory_state_total_size p = total (m_memory_state_tx p);
  po_bound : m_memory_state_total_size p < 2 ^ 63;
}.

(** The order in which transactions are trimmed; one has to come after those
    it displaces. *)
Definition before (tid1 : Hash) (t1 : PoolTransaction) (tid2 : Hash) (t2 : PoolTransaction) : Prop :=
  tx_fee t1 < tx_fee t2 ∨ tx_fee t1 = tx_fee t2 ∧ key_ltb tid1 tid2 = true.

Definition conflict (t1 t2 : PoolTransaction) : Prop := ∃ ki, ki ∈ tx_kis t1 ∧ ki ∈ tx_kis t2.

(** The transaction to be trimmed next. *)
Definition cheapest (p : Pool) (tid : Hash) (t : PoolTransaction) : Prop :=
  m_memory_state_tx p !! tid = Some t ∧
  ∀ tid' t', m_memory_state_tx p !! tid' = Some t' → tid' = tid ∨ before tid t tid' t'.

(** A transaction that is gone because the pool is full without it, all others
    coming after. *)
Definition trimmed (p : Pool) (tid : Hash) (t : PoolTransaction) : Prop :=
  MAX_POOL_SIZE ≤ m_memory_state_total_size p ∧
  ∀ tid' t', m_memory_state_tx p !! tid' = Some t' → before tid t tid' t'.

Lemma total_insert m tid t : m !! tid = None → total (<[tid := t]> m) = tx_size t + total m.
Proof. intros Hm. apply (map_fold_insert_L (λ _ t n, tx_size t + n)); [lia|done]. Qed.
Lemma total_delete m tid t : m !! tid = Some t → total m = tx_size t + total (delete tid m).
Proof. intros Hm. apply (map_fold_delete_L (λ _ t n, tx_size t + n)); [lia|done]. Qed.
Lemma total_nonneg m : 0 ≤ total m.
Proof.
  unfold total. apply (map_fold_weak_ind (λ n _, 0 ≤ n)); [lia|]. intros tid t m' n _ Hn.
  unfold tx_size, size. lia.
Qed.

Lemma pool_tx_size p tid t : pool_ok p → m_memory_state_tx p !! tid = Some t → 0 < size (binary_tx t) < 2 ^ 63.
Proof.
  intros Hp Ht. destruct (po_tx _ Hp _ _ Ht) as [Hs _]. pose proof (po_bound _ Hp) as Hb.
  rewrite (po_total _ Hp), (total_delete _ _ _ Ht) in Hb. pose proof (total_nonneg (delete tid (m_memory_state_tx p))).
  unfold tx_size in *. lia.
Qed.

Lemma fee_per_byte_ok t : tx_ok t → fee_per_byte t = Ok (tx_fee t).
Proof.
  intros [Hs _]. unfold fee_per_byte, per_byte, tx_fee, tx_size in *.
  by replace (size (binary_tx t) =? 0) with false by lia.
Qed.

Lemma fee_begin p : pool_ok p →
  match map_begin (m_memory_state_fee_tx p) with
  | None => m_memory_state_tx p = ∅
  | Some (f, s) => ∃ tid t, set_begin s = Some tid ∧ cheapest p tid t ∧ tx_fee t = f
  end.
Proof.
  intros Hp. pose proof (map_begin_spec (m_memory_state_fee_tx p)) as Hb.
  destruct (map_begin _) as [[f s]|].
  - destruct Hb as [Hf Hmin]. pose proof (set_begin_spec s) as Hsb.
    destruct (set_begin s) as [tid|]; [|by destruct (po_fee_ne _ Hp _ _ Hf)].
    destruct Hsb as [Hin Hfirst]. assert (tid ∈ default ∅ (m_memory_state_fee_tx p !! f)) as Htid by (by rewrite Hf).
    apply (po_fee _ Hp) in Htid as (t & Ht & Hft). exists tid, t. split_and!; try done.
    split; [done|]. intros tid' t' Ht'. unfold before. rewrite Hft. assert (tid' ∈ default ∅ (m_memory_state_fee_tx p !! tx_fee t')) as Hin'.
    { apply (po_fee _ Hp). by exists t'. }
    destruct (m_memory_state_fee_tx p !! tx_fee t') as [s'|] eqn:Hs'; [|by apply not_elem_of_empty in Hin'].
    pose proof (Hmin _ _ Hs') as Hle. unfold key_le, key_ltb, Z_order in Hle.
    destruct (decide (f = tx_fee t')) as [He|]; [|right; left; lia]. rewrite <- He, Hf in Hs'. injection Hs' as <-.
    destruct (key_ltb_total tid' tid) as [|[Hl|Hl]]; [by left| |by auto].
    apply Hfirst in Hin'. unfold key_le in Hin'. congruence.
  - apply map_empty. intros tid. apply eq_None_not_Some. intros [t Ht].
    assert (tid ∈ default ∅ (m_memory_state_fee_tx p !! tx_fee t)) as Hin by (apply (po_fee _ Hp); by exists t).
    rewrite Hb, lookup_empty in Hin. by apply not_elem_of_empty in Hin.
Qed.

Lemma log_min_size_ok p : pool_ok p → ∃ n, log_min_size p = Ok n.
Proof.
  intros Hp. unfold log_min_size. pose proof (fee_begin p Hp) as Hb.
  destruct (map_begin _) as [[f s]|]; [|by eexists]. destruct Hb as (tid & t & -> & [Ht _] & _).
  unfold tx_at. rewrite Ht. by eexists.
Qed.

(** *** Removal *)

Lemma erase_key_images_spec kis m : NoDup kis → (∀ ki, ki ∈ kis → is_Some (m !! ki)) →
  ∃ m', erase_key_images kis m true = (m', true) ∧
    ∀ ki, m' !! ki = if decide (ki ∈ kis) then None else m !! ki.
Proof.
  revert m. induction kis as [|k kis IH]; intros m Hnd Hin.
  { exists m. split; [done|]. intros ki. by rewrite decide_False by apply not_elem_of_nil. }
  apply NoDup_cons in Hnd as [Hk Hnd]. cbn [erase_key_images].
  rewrite bool_decide_eq_true_2 by (apply Hin; by left). cbn [andb].
  destruct (IH (delete k m) Hnd) as (m' & Hm' & Hl).
  { intros ki Hki. rewrite lookup_delete_ne; [|by intros ->]. apply Hin. by right. }
  exists m'. split; [done|]. intros ki. rewrite Hl. destruct (decide (ki = k)) as [->|Hne].
  - rewrite (decide_False (P := k ∈ kis)), decide_True by (done || by left). apply lookup_delete_eq.
  - rewrite lookup_delete_ne by done. destruct (decide (ki ∈ kis)).
    + by rewrite decide_True by (by right).
    + rewrite decide_False; [done|]. by intros [->|?]%elem_of_cons.
Qed.

Lemma erase_fee_lookup m f tid f' : (∀ f s, m !! f = Some s → s ≠ ∅) →
  default ∅ ((erase_fee m f tid).1 !! f') = default ∅ (m !! f') ∖ (if decide (f' = f) then {[tid]} else ∅) ∧
  ∀ s, (erase_fee m f tid).1 !! f' = Some s → s ≠ ∅.
Proof.
  intros Hne. unfold erase_fee. cbn. case_bool_decide as He.
  - destruct (decide (f' = f)) as [->|].
    + rewrite lookup_delete_eq, He. done.
    + rewrite lookup_delete_ne by done. split; [set_solver|apply Hne].
  - destruct (decide (f' = f)) as [->|].
    + rewrite lookup_insert_eq. split; [done|]. by intros s [= <-].
    + rewrite lookup_insert_ne by done. split; [set_solver|apply Hne].
Qed.

Lemma remove_ok p tid t : pool_ok p → m_memory_state_tx p !! tid = Some t →
  ∃ p', remove_from_pool p tid = Ok p' ∧ pool_ok p' ∧
    m_tx_pool_version p' = m_tx_pool_version p ∧
    m_memory_state_tx p' = delete tid (m_memory_state_tx p) ∧
    m_memory_state_total_size p' = m_memory_state_total_size p - tx_size t.
Proof.
  intros Hp Ht. pose proof (po_tx _ Hp _ _ Ht) as [Hsz Hnd]. unfold remove_from_pool. rewrite Ht.
  destruct (erase_key_images_spec (tx_kis t) (m_memory_state_ki_tx p) Hnd) as (ki_tx & He & Hki).
  { intros ki Hki. exists tid. apply (po_ki _ Hp). by exists t. }
  unfold tx_kis in He. rewrite He. rewrite (fee_per_byte_ok t) by done. cbn [mbind result_bind].
  pose proof (λ f', erase_fee_lookup (m_memory_state_fee_tx p) (tx_fee t) tid f' (po_fee_ne _ Hp)) as Hfee.
  assert ((erase_fee (m_memory_state_fee_tx p) (tx_fee t) tid).2 = true) as Her.
  { apply bool_decide_eq_true_2, (po_fee _ Hp). by exists t. }
  destruct (erase_fee _ _ _) as [fee_tx erased]. cbn in Her, Hfee. subst erased. cbn [andb check mbind result_bind].
  pose proof (total_delete _ _ _ Ht) as Htot. pose proof (total_nonneg (delete tid (m_memory_state_tx p))).
  pose proof (po_total _ Hp) as Hpt. pose proof (po_bound _ Hp). unfold tx_size in *.
  set (p' := Build_Pool _ _ _ _ _).
  assert (pool_ok p') as Hp'.
  { split; subst p'; cbn.
    - intros tid' t' [_ Ht']%lookup_delete_Some. by eapply po_tx.
    - intros ki tid'. rewrite Hki. split.
      + case_decide as Hin; [done|]. intros (t' & Ht' & Hin')%(po_ki _ Hp). exists t'. split; [|done].
        rewrite lookup_delete_ne; [done|]. intros <-. rewrite Ht in Ht'. by injection Ht' as <-.
      + intros (t' & [Hne Ht']%lookup_delete_Some & Hin'). rewrite decide_False.
        * apply (po_ki _ Hp). by exists t'.
        * intros Hin. apply Hne. assert (m_memory_state_ki_tx p !! ki = Some tid) as H1 by (apply (po_ki _ Hp); by exists t).
          assert (m_memory_state_ki_tx p !! ki = Some tid') as H2 by (apply (po_ki _ Hp); by exists t').
          congruence.
    - intros f s. apply Hfee.
    - intros f tid'. rewrite (proj1 (Hfee f)), elem_of_difference, (po_fee _ Hp). split.
      + intros [(t' & Ht' & Hf) Hnot]. exists t'. split; [|done]. rewrite lookup_delete_ne; [done|].
        intros <-. apply Hnot. rewrite Ht in Ht'. injection Ht' as <-. rewrite decide_True by done. set_solver.
      + intros (t' & [Hne Ht']%lookup_delete_Some & Hf). split; [by exists t'|].
        case_decide; set_solver.
    - rewrite u64_small by lia. lia.
    - rewrite u64_small by lia. lia. }
  destruct (log_min_size_ok p' Hp') as [n ->]. cbn [mbind result_bind]. exists p'.
  split_and!; try done. subst p'. cbn. rewrite u64_small by lia. done.
Qed.

Lemma ki_after_remove p p' tid t ki :
  pool_ok p → pool_ok p' → m_memory_state_tx p' = delete tid (m_memory_state_tx p) →
  m_memory_state_tx p !! tid = Some t →
  m_memory_state_ki_tx p' !! ki = if decide (ki ∈ tx_kis t) then None else m_memory_state_ki_tx p !! ki.
Proof.
  intros Hp Hp' Hm Ht. apply option_eq. intros tid'. rewrite (po_ki _ Hp'), Hm. split.
  - intros (t' & [Hne Ht']%lookup_delete_Some & Hin).
    assert (m_memory_state_ki_tx p !! ki = Some tid') as Hk by (apply (po_ki _ Hp); by exists t').
    rewrite decide_False; [done|]. intros Hin'. apply Hne.
    assert (m_memory_state_ki_tx p !! ki = Some tid) by (apply (po_ki _ Hp); by exists t). congruence.
  - case_decide as Hin; [done|]. intros (t' & Ht' & Hin')%(po_ki _ Hp). exists t'. split; [|done].
    rewrite lookup_delete_ne; [done|]. intros <-. rewrite Ht in Ht'. by injection Ht' as <-.
Qed.

(** *** Displacement *)

Lemma outbid_ok p tid other f ki : pool_ok p → m_memory_state_ki_tx p !! ki = Some other →
  ∃ t, m_memory_state_tx p !! other = Some t ∧ outbid p tid other f =
    Ok ((f <? tx_fee t) || (f =? tx_fee t) && key_ltb tid other).
Proof.
  intros Hp (t & Ht & _)%(po_ki _ Hp). exists t. split; [done|]. unfold outbid, tx_at. rewrite Ht.
  cbn [of_option mbind result_bind]. rewrite fee_per_byte_ok by (by eapply po_tx). done.
Qed.

(** Only transactions in conflict are displaced, and none that comes after. *)
Lemma displace_ok kis p tid t0 : pool_ok p →
  ∃ p' b, displace p tid (tx_fee t0) kis = Ok (p', b) ∧ pool_ok p' ∧
    m_tx_pool_version p' = m_tx_pool_version p ∧
    m_memory_state_tx p' ⊆ m_memory_state_tx p ∧
    m_memory_state_total_size p' ≤ m_memory_state_total_size p ∧
    (∀ other t, m_memory_state_tx p !! other = Some t → m_memory_state_tx p' !! other = None →
       ¬ before tid t0 other t ∧ ∃ ki, ki ∈ kis ∧ ki ∈ tx_kis t) ∧
    (if b then ∃ other t ki, m_memory_state_tx p' !! other = Some t ∧ before tid t0 other t ∧ ki ∈ kis ∧ ki ∈ tx_kis t
     else ∀ ki, ki ∈ kis → m_memory_state_ki_tx p' !! ki = None).
Proof.
  revert p. induction kis as [|k kis IH]; intros p Hp.
  { exists p, false. split_and!; try done; [by intros ? ? -> |]. intros ki Hin. by apply elem_of_nil in Hin. }
  cbn [displace]. destruct (m_memory_state_ki_tx p !! k) as [other|] eqn:Hk.
  - destruct (outbid_ok p tid other (tx_fee t0) k Hp Hk) as (t & Ht & ->). cbn [mbind result_bind].
    assert (k ∈ tx_kis t) as Hkt.
    { apply (po_ki _ Hp) in Hk as (t' & Ht' & Hin). rewrite Ht in Ht'. by injection Ht' as <-. }
    destruct (_ || _) eqn:Hb.
    { exists p, true. split_and!; try done; [by intros ? ? ->|]. exists other, t, k. split_and!; [done| |by left|done].
      apply orb_true_iff in Hb as [Hb|[Hb ?]%andb_true_iff]; [left|right]; [|split; [|done]]; lia. }
    destruct (remove_ok p other t Hp Ht) as (p1 & -> & Hp1 & Hv1 & Hm1 & Hs1). cbn [mbind result_bind].
    pose proof (λ ki, ki_after_remove p p1 other t ki Hp Hp1 Hm1 Ht) as Hki.
    destruct (IH p1 Hp1) as (p2 & b & -> & Hp2 & Hv2 & Hm2 & Hs2 & Hf2 & Hn2).
    pose proof (po_tx _ Hp _ _ Ht) as [Hsz _].
    exists p2, b. split_and!; try done; [congruence| |lia| |].
    + etrans; [exact Hm2|]. rewrite Hm1. apply delete_subseteq.
    + intros other' t' Ht' Hnone. destruct (decide (other' = other)) as [->|Hne].
      * rewrite Ht in Ht'. injection Ht' as <-. split; [|exists k; split; [by left|done]].
        apply orb_false_iff in Hb as [Hb1 Hb2]. intros [?|[He Hl]]; [lia|]. rewrite He, Hl, Z.eqb_refl in Hb2. done.
      * destruct (Hf2 other' t') as [Hle (ki & Hin & Hin')]; [by rewrite Hm1, lookup_delete_ne|done|].
        split; [done|]. exists ki. split; [by right|done].
    + destruct b.
      { destruct Hn2 as (o & t' & ki & ? & ? & ? & ?). exists o, t', ki. split_and!; [done|done|by right|done]. }
      intros ki [->|Hin]%elem_of_cons; [|by apply Hn2].
      assert (m_memory_state_ki_tx p1 !! k = None) as Hk1 by (by rewrite Hki, decide_True).
      apply eq_None_not_Some. intros [o (t' & Ht' & Hin')%(po_ki _ Hp2)].
      apply (lookup_weaken _ (m_memory_state_tx p1)) in Ht'; [|done].
      assert (m_memory_state_ki_tx p1 !! k = Some o) by (apply (po_ki _ Hp1); by exists t'). congruence.
  - destruct (IH p Hp) as (p2 & b & -> & Hp2 & Hv2 & Hm2 & Hs2 & Hf2 & Hn2). exists p2, b. split_and!; try done.
    + intros other t Ht Hnone. destruct (Hf2 other t Ht Hnone) as [? (ki & ? & ?)]. split; [done|].
      exists ki. split; [by right|done].
    + destruct b.
      { destruct Hn2 as (o & t' & ki & ? & ? & ? & ?). exists o, t', ki. split_and!; [done|done|by right|done]. }
      intros ki [->|Hin]%elem_of_cons; [|by apply Hn2].
      apply eq_None_not_Some. intros [o (t' & Ht' & Hin')%(po_ki _ Hp2)].
      apply (lookup_weaken _ (m_memory_state_tx p)) in Ht'; [|done].
      assert (m_memory_state_ki_tx p !! k = Some o) by (apply (po_ki _ Hp); by exists t'). congruence.
Qed.

(** *** Insertion *)

Lemma insert_key_images_spec kis tid m : NoDup kis → (∀ ki, ki ∈ kis → m !! ki = None) →
  ∃ m', insert_key_images kis tid m true = (m', true) ∧
    ∀ ki, m' !! ki = if decide (ki ∈ kis) then Some tid else m !! ki.
Proof.
  revert m. induction kis as [|k kis IH]; intros m Hnd Hin.
  { exists m. split; [done|]. intros ki. by rewrite decide_False by apply not_elem_of_nil. }
  apply NoDup_cons in Hnd as [Hk Hnd]. cbn [insert_key_images]. unfold map_insert at 1.
  rewrite (Hin k) by (by left). cbn [andb].
  destruct (IH (<[k := tid]> m) Hnd) as (m' & Hm' & Hl).
  { intros ki Hki. rewrite lookup_insert_ne; [|by intros ->]. apply Hin. by right. }
  exists m'. split; [done|]. intros ki. rewrite Hl. destruct (decide (ki = k)) as [->|Hne].
  - rewrite (decide_False (P := k ∈ kis)), decide_True by (done || by left). apply lookup_insert_eq.
  - rewrite lookup_insert_ne by done. destruct (decide (ki ∈ kis)).
    + by rewrite decide_True by (by right).
    + rewrite decide_False; [done|]. by intros [->|?]%elem_of_cons.
Qed.

Lemma insert_ok p tid t kis : pool_ok p → m_memory_state_tx p !! tid = None → tx_ok t →
  kis ≡ₚ tx_kis t → (∀ ki, ki ∈ kis → m_memory_state_ki_tx p !! ki = None) →
  m_memory_state_total_size p + tx_size t < 2 ^ 63 →
  ∃ p', insert_tx p tid t (tx_fee t) kis = Ok p' ∧ pool_ok p' ∧
    m_tx_pool_version p' = m_tx_pool_version p ∧
    m_memory_state_tx p' = <[tid := t]> (m_memory_state_tx p) ∧
    m_memory_state_total_size p' = m_memory_state_total_size p + tx_size t.
Proof.
  intros Hp Hnone [Hsz Hnd] Hperm Hfree Hbound. unfold insert_tx.
  destruct (insert_key_images_spec kis tid (m_memory_state_ki_tx p)) as (m' & -> & Hki); [by rewrite Hperm|done|].
  unfold map_insert. rewrite Hnone.
  assert (∀ f, tid ∉ default ∅ (m_memory_state_fee_tx p !! f)) as Hnotin.
  { intros f (t' & Ht' & _)%(po_fee _ Hp). congruence. }
  rewrite (bool_decide_eq_false_2 (tid ∈ _)) by apply Hnotin. cbn [andb negb check mbind result_bind].
  pose proof (po_total _ Hp). pose proof (total_nonneg (m_memory_state_tx p)).
  assert (u64 (m_memory_state_total_size p + size (binary_tx t)) = m_memory_state_total_size p + tx_size t) as Hu.
  { unfold tx_size in *. apply u64_small. lia. }
  eexists. split; [done|]. rewrite Hu. split_and!; try done. split; cbn.
  - intros tid' t' [[<- <-]|[_ Ht']]%lookup_insert_Some; [done|by eapply po_tx].
  - intros ki tid'. rewrite Hki. destruct (decide (ki ∈ kis)) as [Hin|Hout].
    + split.
      * intros [= <-]. exists t. by rewrite lookup_insert_eq, <- Hperm.
      * intros (t' & [[-> ->]|[Hne Ht']]%lookup_insert_Some & Hin'); [done|].
        assert (m_memory_state_ki_tx p !! ki = Some tid') by (apply (po_ki _ Hp); by exists t').
        rewrite Hfree in *; done.
    + rewrite (po_ki _ Hp). split.
      * intros (t' & Ht' & Hin'). exists t'. split; [|done]. rewrite lookup_insert_ne; [done|]. congruence.
      * intros (t' & [[-> ->]|[Hne Ht']]%lookup_insert_Some & Hin'); [by rewrite <- Hperm in Hin'|]. by exists t'.
  - intros f s [[<- <-]|[_ Hs]]%lookup_insert_Some; [set_solver|by eapply po_fee_ne].
  - intros f tid'. destruct (decide (f = tx_fee t)) as [->|Hne].
    + rewrite lookup_insert_eq. cbn. rewrite elem_of_union, elem_of_singleton, (po_fee _ Hp). split.
      * intros [->|(t' & Ht' & Hf)]; [by exists t; rewrite lookup_insert_eq|].
        exists t'. split; [|done]. rewrite lookup_insert_ne; [done|]. congruence.
      * intros (t' & [[-> ->]|[Hne Ht']]%lookup_insert_Some & Hf); [by left|]. right. by exists t'.
    + rewrite lookup_insert_ne by done. rewrite (po_fee _ Hp). split.
      * intros (t' & Ht' & Hf). exists t'. split; [|done]. rewrite lookup_insert_ne; [done|]. congruence.
      * intros (t' & [[-> ->]|[Hne' Ht']]%lookup_insert_Some & Hf); [congruence|]. by exists t'.
  - rewrite total_insert by done. lia.
  - lia.
Qed.

(** *** Trimming *)

Lemma trim_ok fuel p : pool_ok p → (base.size (m_memory_state_tx p) ≤ fuel)%nat →
  ∃ p', trim fuel p = Ok p' ∧ pool_ok p' ∧
    m_tx_pool_version p' = m_tx_pool_version p ∧
    m_memory_state_tx p' ⊆ m_memory_state_tx p ∧
    (m_memory_state_total_size p' ≤ MAX_POOL_SIZE ∨
       ∃ tid t, cheapest p' tid t ∧ m_memory_state_total_size p' < MAX_POOL_SIZE + tx_size t) ∧
    (MAX_POOL_SIZE ≤ m_memory_state_total_size p → MAX_POOL_SIZE ≤ m_memory_state_total_size p') ∧
    ∀ tid t, m_memory_state_tx p !! tid = Some t → m_memory_state_tx p' !! tid = None →
      MAX_POOL_SIZE ≤ m_memory_state_total_size p ∧
      ∀ tid' t', m_memory_state_tx p' !! tid' = Some t' → before tid t tid' t'.
Proof.
  revert p. induction fuel as [|fuel IH]; intros p Hp Hfuel.
  { assert (m_memory_state_tx p = ∅) as Hm by (apply map_size_empty_iff; lia).
    pose proof (po_total _ Hp) as Ht. rewrite Hm in Ht. change (total ∅) with 0 in Ht. cbn [trim].
    rewrite Ht. cbn. exists p. split_and!; try done; [left; unfold MAX_POOL_SIZE; lia|].
    intros ??. by rewrite Hm, lookup_empty. }
  cbn [trim]. destruct (Z.gtb_spec (m_memory_state_total_size p) MAX_POOL_SIZE) as [Hbig|Hsmall].
  2: { exists p. split_and!; try done; [by left|]. intros ?? ->. done. }
  pose proof (fee_begin p Hp) as Hb. destruct (map_begin _) as [[f s]|].
  2: { pose proof (po_total _ Hp) as Ht. rewrite Hb in Ht. change (total ∅) with 0 in Ht.
       unfold MAX_POOL_SIZE in Hbig. lia. }
  destruct Hb as (tid & t & -> & Hcheap & Hf). pose proof Hcheap as [Ht Hmin]. unfold tx_at. rewrite Ht. cbn [of_option mbind result_bind].
  pose proof (total_delete _ _ _ Ht) as Htot. pose proof (total_nonneg (delete tid (m_memory_state_tx p))).
  pose proof (po_total _ Hp) as Hpt. pose proof (po_bound _ Hp) as Hpb.
  pose proof (po_tx _ Hp _ _ Ht) as [Hsz _].
  rewrite u64_small by (unfold MAX_POOL_SIZE, tx_size in *; lia).
  destruct (Z.ltb_spec (m_memory_state_total_size p) (MAX_POOL_SIZE + size (binary_tx t))).
  { exists p. split_and!; try done; [right; by exists tid, t|]. intros ?? ->. done. }
  destruct (remove_ok p tid t Hp Ht) as (p1 & -> & Hp1 & Hv1 & Hm1 & Hs1). cbn [mbind result_bind].
  destruct (IH p1 Hp1) as (p2 & -> & Hp2 & Hv2 & Hm2 & Hs2 & Hb2 & Hf2).
  { rewrite Hm1, map_size_delete, Ht. lia. }
  exists p2. split_and!; try done; [congruence| | |].
  - etrans; [exact Hm2|]. rewrite Hm1. apply delete_subseteq.
  - intros _. apply Hb2. unfold tx_size in *. lia.
  - intros tid1 t1 Ht1 Hnone. split; [unfold tx_size in *; lia|]. intros tid' t' Ht'.
    destruct (decide (tid1 = tid)) as [->|Hne].
    + rewrite Ht in Ht1. injection Ht1 as <-. destruct (Hmin tid' t') as [->|]; [|congruence|done].
      apply (lookup_weaken _ _ _ _ Ht'). etrans; [exact Hm2|]. rewrite Hm1. apply delete_subseteq.
    + apply (Hf2 tid1 t1); [by rewrite Hm1, lookup_delete_ne|done|done].
Qed.

Lemma empty_pool_ok : pool_ok empty_pool.
Proof.
  split; cbn; try done.
  - intros ki tid. rewrite lookup_empty. split; [done|]. intros (t & Ht & _). by rewrite lookup_empty in Ht.
  - intros f tid. rewrite lookup_empty. split; [by intros ?%not_elem_of_empty|].
    intros (t & Ht & _). by rewrite lookup_empty in Ht.
Qed.

(** No two transactions of the pool spend the same key image. *)
Lemma pool_spends_once p : pool_ok p → ∀ tid1 t1 tid2 t2 ki, m_memory_state_tx p !! tid1 = Some t1 →
  m_memory_state_tx p !! tid2 = Some t2 → ki ∈ tx_kis t1 → ki ∈ tx_kis t2 → tid1 = tid2.
Proof.
  intros Hp tid1 t1 tid2 t2 ki H1 H2 K1 K2.
  assert (m_memory_state_ki_tx p !! ki = Some tid1) by (apply (po_ki _ Hp); by exists t1).
  assert (m_memory_state_ki_tx p !! ki = Some tid2) by (apply (po_ki _ Hp); by exists t2). congruence.
Qed.

(** All of adding a transaction, once it was verified. *)
Lemma add_to_pool_ok p tid t kis :
  pool_ok p → m_memory_state_tx p !! tid = None → tx_ok t → kis ≡ₚ tx_kis t →
  m_memory_state_total_size p + tx_size t < 2 ^ 63 →
  ∃ p' r, add_to_pool p tid t (tx_fee t) kis = Ok (p', r) ∧ pool_ok p' ∧
    m_memory_state_tx p' ⊆ <[tid := t]> (m_memory_state_tx p) ∧
    (∀ tid1 t1, m_memory_state_tx p !! tid1 = Some t1 → m_memory_state_tx p' !! tid1 = None →
       conflict t t1 ∧ ¬ before tid t tid1 t1 ∨ r = BROADCAST_ALL ∧ trimmed p' tid1 t1) ∧
    (r = INCREASE_FEE ∧ m_memory_state_tx p' !! tid = None ∧
       (∃ tid2 t2, m_memory_state_tx p' !! tid2 = Some t2 ∧ conflict t t2 ∧ before tid t tid2 t2) ∨
     r = BROADCAST_ALL ∧ (m_memory_state_tx p' !! tid = Some t ∨ trimmed p' tid t) ∧
       (∀ tid2 t2, m_memory_state_tx p' !! tid2 = Some t2 → conflict t t2 → tid2 = tid) ∧
       (m_memory_state_total_size p' ≤ MAX_POOL_SIZE ∨
          ∃ tid2 t2, cheapest p' tid2 t2 ∧ m_memory_state_total_size p' < MAX_POOL_SIZE + tx_size t2)).
Proof.
  intros Hp Hnone Ht Hperm Hbound. unfold add_to_pool.
  destruct (displace_ok kis p tid t Hp) as (p1 & b & -> & Hp1 & Hv1 & Hm1 & Hs1 & Hf1 & Hn1).
  assert (m_memory_state_tx p1 !! tid = None) as Hnone1.
  { destruct (m_memory_state_tx p1 !! tid) eqn:E; [|done]. by rewrite (lookup_weaken _ _ _ _ E Hm1) in Hnone. }
  assert (∀ tid1 t1, m_memory_state_tx p !! tid1 = Some t1 → m_memory_state_tx p1 !! tid1 = None →
    conflict t t1 ∧ ¬ before tid t tid1 t1) as Hdis.
  { intros tid1 t1 H1 H2. destruct (Hf1 tid1 t1 H1 H2) as [Hb (ki & Hki & Hin)]. split; [|done].
    exists ki. split; [by rewrite <- Hperm|done]. }
  cbn [mbind result_bind]. destruct b.
  { exists p1, INCREASE_FEE. split_and!; try done.
    - etrans; [exact Hm1|]. by apply insert_subseteq.
    - intros tid1 t1 H1 H2. left. by apply Hdis.
    - left. destruct Hn1 as (o & t' & ki & Ho & Hb & Hki & Hin). split_and!; [done|done|]. exists o, t'.
      split_and!; [done| |done]. exists ki. split; [by rewrite <- Hperm|done]. }
  destruct (insert_ok p1 tid t kis Hp1 Hnone1 Ht Hperm Hn1) as (p2 & -> & Hp2 & Hv2 & Hm2 & Hs2); [lia|].
  cbn [mbind result_bind].
  destruct (trim_ok (base.size (m_memory_state_tx p2)) p2 Hp2 (le_n _)) as (p3 & -> & Hp3 & Hv3 & Hm3 & Hs3 & Hb3 & Hf3).
  cbn [mbind result_bind]. destruct (log_min_size_ok p3 Hp3) as [n ->]. cbn [mbind result_bind].
  assert (∀ tid1 t1, m_memory_state_tx p2 !! tid1 = Some t1 → m_memory_state_tx p3 !! tid1 = None → trimmed p3 tid1 t1) as Htrim.
  { intros tid1 t1 H1 H3. destruct (Hf3 tid1 t1 H1 H3) as [Hbig Hcheap]. split; [by apply Hb3|done]. }
  eexists _, BROADCAST_ALL. split; [done|]. split_and!; cbn; try done.
  - destruct Hp3. by split.
  - etrans; [exact Hm3|]. rewrite Hm2. by apply insert_mono.
  - intros tid1 t1 H1 H3. destruct (m_memory_state_tx p1 !! tid1) as [t1'|] eqn:E; [|left; by apply Hdis].
    right. split; [done|]. apply (Htrim tid1 t1); [|done].
    rewrite Hm2. pose proof (lookup_weaken _ _ _ _ E Hm1) as E'. rewrite H1 in E'. injection E' as <-.
    rewrite lookup_insert_ne; [done|]. intros <-. congruence.
  - right. assert (m_memory_state_tx p2 !! tid = Some t) as H2 by (rewrite Hm2; apply lookup_insert_eq).
    split_and!; [done| | |done].
    + destruct (m_memory_state_tx p3 !! tid) as [t'|] eqn:E; [left|right; by apply Htrim].
      pose proof (lookup_weaken _ _ _ _ E Hm3). congruence.
    + intros tid2 t2 H3 (ki & K1 & K2). pose proof (lookup_weaken _ _ _ _ H3 Hm3) as H2'.
      symmetry. by apply (pool_spends_once p2 Hp2 tid t tid2 t2 ki).
Qed.

(** ** Properties *)

(** C30: Adding to the pool keeps its indices consistent: it never fails one of
    its assertions, and no two transactions of the pool spend the same key
    image.  A transaction leaves the pool either because it is in conflict with
    the new one and does not come after it in the order of fee per byte and
    hash, or because it is trimmed: then it comes before all that stay, and
    what stays fills the pool by itself.  The new transaction is refused
    exactly with one left that is in conflict and comes after it; otherwise
    none in conflict is left, it is in the pool or was itself the one to
    trim, and the pool exceeds [MAX_POOL_SIZE] by less than its cheapest
    transaction. *)
Theorem add_to_pool_safe p tid t kis :
  pool_ok p → m_memory_state_tx p !! tid = None → tx_ok t → kis ≡ₚ tx_kis t →
  m_memory_state_total_size p + tx_size t < 2 ^ 63 →
  ∃ p' r, add_to_pool p tid t (tx_fee t) kis = Ok (p', r) ∧ pool_ok p' ∧
    (∀ tid1 t1 tid2 t2 ki, m_memory_state_tx p' !! tid1 = Some t1 → m_memory_state_tx p' !! tid2 = Some t2 →
       ki ∈ tx_kis t1 → ki ∈ tx_kis t2 → tid1 = tid2) ∧
    m_memory_state_tx p' ⊆ <[tid := t]> (m_memory_state_tx p) ∧
    (∀ tid1 t1, m_memory_state_tx p !! tid1 = Some t1 → m_memory_state_tx p' !! tid1 = None →
       conflict t t1 ∧ ¬ before tid t tid1 t1 ∨ r = BROADCAST_ALL ∧ trimmed p' tid1 t1) ∧
    (r = INCREASE_FEE ∧ m_memory_state_tx p' !! tid = None ∧
       (∃ tid2 t2, m_memory_state_tx p' !! tid2 = Some t2 ∧ conflict t t2 ∧ before tid t tid2 t2) ∨
     r = BROADCAST_ALL ∧ (m_memory_state_tx p' !! tid = Some t ∨ trimmed p' tid t) ∧
       (∀ tid2 t2, m_memory_state_tx p' !! tid2 = Some t2 → conflict t t2 → tid2 = tid) ∧
       (m_memory_state_total_size p' ≤ MAX_POOL_SIZE ∨
          ∃ tid2 t2, cheapest p' tid2 t2 ∧ m_memory_state_total_size p' < MAX_POOL_SIZE + tx_size t2)).
Proof.
  intros Hp Hnone Ht Hperm Hbound.
  destruct (add_to_pool_ok p tid t kis Hp Hnone Ht Hperm Hbound) as (p' & r & Ha & Hp' & Hrest).
  exists p', r. split_and!; [done|done|by apply pool_spends_once|apply Hrest..].
Qed.

Definition spend_tx (kis : list KeyImage) : Transaction :=
  {| tx_prefix := {| version := 1; unlock_time := 0; inputs := (λ ki, KeyInput 1000 [0] ki) <$> kis;
                     outputs := []; extra := [] |};
     signatures := [] |}.
Definition pool_tx (kis : list KeyImage) (fee : Amount) : PoolTransaction :=
  {| pt_tx := spend_tx kis; binary_tx := replicate 100 0; fee := fee; timestamp := 0 |}.

Lemma add_to_pool_safe_witness :
  ∃ p' r, add_to_pool empty_pool [1] (pool_tx [[5]] 700) 7 [[5]] = Ok (p', r) ∧ pool_ok p'.
Proof.
  destruct (add_to_pool_safe empty_pool [1] (pool_tx [[5]] 700) [[5]]) as (p' & r & Ha & Hp & _).
  - apply empty_pool_ok.
  - done.
  - split; [done|]. by apply (bool_decide_unpack _).
  - done.
  - done.
  - exists p', r. split; [exact Ha|exact Hp].
Defined.

(** A transaction in conflict with two others is checked against the first
    only before the pool is changed: when the second pays more it is refused
    after the first was removed. *)
Lemma refused_transaction_displaces :
  match
    (p ← add_to_pool empty_pool [1] (pool_tx [[5]] 100) 1 [[5]];
     p ← add_to_pool p.1 [2] (pool_tx [[6]] 900) 9 [[6]];
     refused ← outbid_first p.1 [3] 4 [[5]; [6]];
     p' ← add_to_pool p.1 [3] (pool_tx [[5]; [6]] 400) 4 [[5]; [6]];
     Ok (refused, p'.2, m_memory_state_tx p'.1 !! [1], m_memory_state_tx p'.1 !! [3]))
  with
  | Ok (false, INCREASE_FEE, None, None) => True
  | _ => False
  end.
Proof. by vm_compute. Qed.

End Pool.
