(* ===== verification/Redo.v ===== *)
(** * Applying transactions and blocks to the chain's state
    (src/src/Core/BlockChainState.cpp: [validate_semantic],
    [redo_transaction_get_error], [redo_block], [undo_block],
    [add_transaction]; RingCheckerMulticore.cpp: [start_work_get_error])

    A node's state is the store of Store.v and the pool of Pool.v.  Signature
    checks and hashes are external functions. *)

From stdpp Require Import functions.
From S2P Require Import Prelude Varint Containers Seria Text CryptoNote Amounts Blocks Currency Db ChainState Store Pool.
Import Containers Codec CryptoNote Amounts Blocks Currency Db ChainState Pool.

Local Open Scope Z_scope.

Module Redo.

(** ** Checks that need no state *)

Section semantic.
Variable key_isvalid : PublicKey → bool.

(** The outputs' sum, or the error. *)
Fixpoint validate_outputs (check_output_key : bool) (outs : list TransactionOutput) (summary : Z) : string + Z :=
  match outs with
  | [] => inr summary
  | o :: outs =>
      if out_amount o =? 0 then inl "OUTPUT_ZERO_AMOUNT"%string
      else
        let '(KeyOutput key) := out_target o in
        if check_output_key && negb (key_isvalid key) then inl "OUTPUT_INVALID_KEY"%string
        else if UINT64_MAX - out_amount o <? summary then inl "OUTPUTS_AMOUNT_OVERFLOW"%string
        else validate_outputs check_output_key outs (summary + out_amount o)
  end.

(** The inputs' sum, or the error; [ki] are the key images seen. *)
Fixpoint validate_inputs (generating : bool) (ins : list TransactionInput) (ki : gset KeyImage) (summary : Z) :
    string + Z :=
  match ins with
  | [] => inr summary
  | CoinbaseInput _ :: ins =>
      if negb generating then inl "INPUT_UNKNOWN_TYPE"%string else validate_inputs generating ins ki summary
  | KeyInput amount output_indexes key_image :: ins =>
      if generating then inl "INPUT_UNKNOWN_TYPE"%string
      else if bool_decide (key_image ∈ ki) then inl "INPUT_IDENTICAL_KEYIMAGES"%string
      else if bool_decide (output_indexes = []) then inl "INPUT_EMPTY_OUTPUT_USAGE"%string
      else if bool_decide (0 ∈ tail output_indexes) then inl "INPUT_IDENTICAL_OUTPUT_INDEXES"%string
      else if UINT64_MAX - amount <? summary then inl "INPUTS_AMOUNT_OVERFLOW"%string
      else validate_inputs generating ins ({[key_image]} ∪ ki) (summary + amount)
  end.

(** [validate_semantic]: the fee, or the error. *)
Definition validate_semantic (generating : bool) (tx : Transaction) (check_output_key : bool) : string + Z :=
  let p := tx_prefix tx in
  if bool_decide (inputs p = []) then inl "EMPTY_INPUTS"%string
  else
    match validate_outputs check_output_key (outputs p) 0 with
    | inl e => inl e
    | inr summary_output_amount =>
        match validate_inputs generating (inputs p) ∅ 0 with
        | inl e => inl e
        | inr summary_input_amount =>
            if (summary_output_amount >? summary_input_amount) && negb generating then inl "WRONG_AMOUNT"%string
            else if negb (length (signatures tx) =? length (inputs p))%nat && negb generating then
              inl "INPUT_UNKNOWN_TYPE"%string
            else if negb (bool_decide (signatures tx = [])) && generating then inl "INPUT_UNKNOWN_TYPE"%string
            else inr (u64 (summary_input_amount - summary_output_amount))
        end
    end.

End semantic.

(** ** Redoing a transaction *)

(** Ring members are coded by differences of global indices. *)
Fixpoint absolute (prev : Z) (l : list Z) : list Z :=
  match l with
  | [] => []
  | d :: l => u32 (prev + d) :: absolute (u32 (prev + d)) l
  end.
Definition global_indexes (output_indexes : list Z) : list Z :=
  match output_indexes with
  | [] => []
  | d :: l => d :: absolute d l
  end.

Record RingSignatureArg := {
  tx_prefix_hash : Hash;
  arg_key_image : KeyImage;
  arg_output_keys : list PublicKey;
  arg_signatures : list Signature;
}.

Section redo.
Context (currency : Currency) (cn_fast_hash : list Z → Hash).
(** The signature is valid; one of the keys is no point. *)
Variable check_ring_signature : RingSignatureArg → bool * bool.

Section ring.
Context {S : Type} `{IBlockChainState S}.

(** The ring members' keys, or the error, with the greatest height met. *)
Fixpoint output_keys (state : S) (amount : Amount) (gis : list Z) (height : Height) (timestamp : Timestamp)
    (conflict_height : Height) : result ((string + list PublicKey) * Height) :=
  match gis with
  | [] => Ok (inr [], conflict_height)
  | gi :: gis =>
      o ← read_amount_output state amount gi;
      match o with
      | None => Ok (inl "INPUT_INVALID_GLOBAL_INDEX"%string, max_block_height currency)
      | Some unp =>
          let conflict_height := Z.max conflict_height (o_height unp) in
          if negb (is_transaction_spend_time_unlocked currency (o_unlock_time unp) height timestamp) then
            Ok (inl "INPUT_SPEND_LOCKED_OUT"%string, conflict_height)
          else
            '(r, conflict_height) ← output_keys state amount gis height timestamp conflict_height;
            Ok (match r with inl e => inl e | inr keys => inr (o_public_key unp :: keys) end, conflict_height)
      end
  end.

(** One input's ring, checked against [state]. *)
Definition ring_of_input (state : S) (prefix_hash : Hash) (amount : Amount) (output_indexes : list Z)
    (key_image : KeyImage) (sigs : option (list Signature)) (height : Height) (timestamp : Timestamp)
    (conflict_height : Height) : result ((string + RingSignatureArg) * Height) :=
  spent ← read_keyimage state key_image;
  match spent with
  | Some h => Ok (inl "INPUT_KEYIMAGE_ALREADY_SPENT"%string, h)
  | None =>
      if bool_decide (output_indexes = []) then Ok (inl "INPUT_UNKNOWN_TYPE"%string, conflict_height)
      else
        '(r, conflict_height) ←
          output_keys state amount (global_indexes output_indexes) height timestamp conflict_height;
        match r with
        | inl e => Ok (inl e, conflict_height)
        | inr keys =>
            sigs ← of_option sigs (Undefined "signatures[input_index]");
            Ok (inr {| tx_prefix_hash := prefix_hash; arg_key_image := key_image;
                       arg_output_keys := keys; arg_signatures := sigs |}, conflict_height)
        end
  end.

End ring.

Section delta.
Context {S : Type} `{IBlockChainState S}.

(** The inputs, over [tx_delta]; [i] is the input's index. *)
Fixpoint redo_inputs (check_sigs : bool) (prefix_hash : Hash) (sigs : list (list Signature)) (height : Height)
    (timestamp : Timestamp) (i : nat) (ins : list TransactionInput)
    (tx_delta : DeltaState (DeltaState S)) (conflict_height : Height) :
    result ((string + DeltaState (DeltaState S)) * Height) :=
  match ins with
  | [] => Ok (inr tx_delta, conflict_height)
  | CoinbaseInput _ :: ins =>
      redo_inputs check_sigs prefix_hash sigs height timestamp (Datatypes.S i) ins tx_delta conflict_height
  | KeyInput amount output_indexes key_image :: ins =>
      '(error, conflict_height) ←
        (if check_sigs then
           '(r, conflict_height) ←
             ring_of_input tx_delta prefix_hash amount output_indexes key_image (sigs !! i) height timestamp
               conflict_height;
           Ok (match r with
               | inl e => Some e
               | inr arg =>
                   let '(valid, key_corrupted) := check_ring_signature arg in
                   if valid : bool then None
                   else if key_corrupted : bool then Some "INPUT_CORRUPTED_SIGNATURES"%string
                   else Some "INPUT_INVALID_SIGNATURES"%string
               end, conflict_height)
         else Ok (None, conflict_height));
      match error with
      | Some e => Ok (inl e, conflict_height)
      | None =>
          tx_delta ←
            match output_indexes with
            | [gi] => spend_output tx_delta amount gi
            | _ => Ok tx_delta
            end;
          tx_delta ← store_keyimage tx_delta key_image height;
          redo_inputs check_sigs prefix_hash sigs height timestamp (Datatypes.S i) ins tx_delta conflict_height
      end
  end.

(** The outputs, with their global indices. *)
Fixpoint redo_outputs (unlock_time : Z) (outs : list TransactionOutput) (tx_delta : DeltaState (DeltaState S)) :
    result (DeltaState (DeltaState S) * list Z) :=
  match outs with
  | [] => Ok (tx_delta, [])
  | o :: outs =>
      let '(KeyOutput key) := out_target o in
      '(tx_delta, global_index) ← push_amount_output tx_delta (out_amount o) unlock_time 0 key;
      '(tx_delta, my_indices) ← redo_outputs unlock_time outs tx_delta;
      Ok (tx_delta, global_index :: my_indices)
  end.

(** [redo_transaction_get_error]: the error, or the delta and the indices of
    the outputs; and the conflict height. *)
Definition redo_transaction (tx : Transaction) (delta_state : DeltaState S) (check_sigs : bool) :
    result ((string + DeltaState S * list Z) * Height) :=
  let p := tx_prefix tx in
  tx_prefix_hash ← (if check_sigs then get_transaction_prefix_hash cn_fast_hash p else Ok null_hash);
  let tx_delta :=
    Delta.make_DeltaState (m_block_height delta_state) (m_unlock_timestamp delta_state) delta_state in
  '(r, conflict_height) ←
    redo_inputs check_sigs tx_prefix_hash (signatures tx) (m_block_height delta_state)
      (m_unlock_timestamp delta_state) 0 (inputs p) tx_delta 0;
  match r with
  | inl e => Ok (inl e, conflict_height)
  | inr tx_delta =>
      '(tx_delta, my_indices) ← redo_outputs (unlock_time p) (outputs p) tx_delta;
      delta_state ← Delta.apply tx_delta delta_state;
      Ok (inr (delta_state, my_indices), conflict_height)
  end.

(** [redo_block] into a delta: the base transaction and the transactions in
    order, no signatures checked. *)
Fixpoint redo_transactions (txs : list Transaction) (delta_state : DeltaState S) :
    result (option (DeltaState S * list (list Z))) :=
  match txs with
  | [] => Ok (Some (delta_state, []))
  | tx :: txs =>
      '(r, _) ← redo_transaction tx delta_state false;
      match r with
      | inl _ => Ok None
      | inr (delta_state, my_indices) =>
          r ← redo_transactions txs delta_state;
          match r with
          | None => Ok None
          | Some (delta_state, indices) => Ok (Some (delta_state, my_indices :: indices))
          end
      end
  end.

End delta.

(** [start_work_get_error]: the jobs for the checking threads, or the error,
    against the state before the block. *)
Section checker.
Context {S : Type} `{IBlockChainState S}.

Fixpoint ring_jobs_inputs (state : S) (prefix_hash : Hash) (sigs : list (list Signature)) (height : Height)
    (timestamp : Timestamp) (i : nat) (ins : list TransactionInput) : result (string + list RingSignatureArg) :=
  match ins with
  | [] => Ok (inr [])
  | CoinbaseInput _ :: ins => ring_jobs_inputs state prefix_hash sigs height timestamp (Datatypes.S i) ins
  | KeyInput amount output_indexes key_image :: ins =>
      input_sigs ← of_option (sigs !! i) (Undefined "signatures[input_index]");
      '(r, _) ←
        ring_of_input state prefix_hash amount output_indexes key_image (Some input_sigs) height timestamp 0;
      match r with
      | inl e => Ok (inl e)
      | inr arg =>
          rest ← ring_jobs_inputs state prefix_hash sigs height timestamp (Datatypes.S i) ins;
          Ok (match rest with inl e => inl e | inr args => inr (arg :: args) end)
      end
  end.

Fixpoint ring_jobs (state : S) (txs : list Transaction) (height : Height) (timestamp : Timestamp) :
    result (string + list RingSignatureArg) :=
  match txs with
  | [] => Ok (inr [])
  | tx :: txs =>
      prefix_hash ← get_transaction_prefix_hash cn_fast_hash (tx_prefix tx);
      r ← ring_jobs_inputs state prefix_hash (signatures tx) height timestamp 0 (inputs (tx_prefix tx));
      match r with
      | inl e => Ok (inl e)
      | inr args =>
          rest ← ring_jobs state txs height timestamp;
          Ok (match rest with inl e => inl e | inr args' => inr (args ++ args') end)
      end
  end.

End checker.

(** ** The node *)

Section node.
Context {D : Type} `{Lmdb D}.

Record Node := {
  store : Store.Store D;
  pool : Pool;
}.

Definition with_store (n : Node) (s : Store.Store D) : Node := {| store := s; pool := pool n |}.

(** A key image that enters the chain takes its transaction out of the pool. *)
Definition store_keyimage (n : Node) (key_image : KeyImage) (height : Height) : result Node :=
  s ← Store.store_keyimage (store n) key_image height;
  match m_memory_state_ki_tx (pool n) !! key_image with
  | None => Ok (with_store n s)
  | Some tid => p ← remove_from_pool (pool n) tid; Ok {| store := s; pool := p |}
  end.
Definition delete_keyimage (n : Node) (key_image : KeyImage) : result Node :=
  s ← Store.delete_keyimage (store n) key_image; Ok (with_store n s).
Definition push_amount_output (n : Node) (amount : Amount) (unlock_time : Z) (block_height : Height)
    (pk : PublicKey) : result (Node * Z) :=
  '(s, gi) ← Store.push_amount_output (store n) amount unlock_time block_height pk; Ok (with_store n s, gi).
Definition pop_amount_output (n : Node) (amount : Amount) (unlock_time : Z) (pk : PublicKey) : result Node :=
  s ← Store.pop_amount_output (store n) amount unlock_time pk; Ok (with_store n s).
Definition mark_output (n : Node) (amount : Amount) (global_index : Z) (spent : bool) : result Node :=
  s ← Store.mark_output (store n) amount global_index spent; Ok (with_store n s).

Global Instance node_state : IBlockChainState Node := {|
  ChainState.store_keyimage := store_keyimage;
  ChainState.delete_keyimage := delete_keyimage;
  ChainState.read_keyimage n := ChainState.read_keyimage (store n);
  ChainState.push_amount_output := push_amount_output;
  ChainState.pop_amount_output := pop_amount_output;
  ChainState.next_global_index_for_amount n := ChainState.next_global_index_for_amount (store n);
  ChainState.read_amount_output n := ChainState.read_amount_output (store n);
  ChainState.spend_output n amount global_index := mark_output n amount global_index true;
|}.

Definition block_indices_key (bid : Hash) : Key := chars "b" ++ bid ++ chars "g".
Definition ser_BlockGlobalIndices : codec (list (list Z)) := c_vector (c_vector (c_varint 32)).

Definition with_version (p : Pool) (version : Z) : Pool :=
  {| m_tx_pool_version := version; m_memory_state_tx := m_memory_state_tx p;
     m_memory_state_ki_tx := m_memory_state_ki_tx p; m_memory_state_fee_tx := m_memory_state_fee_tx p;
     m_memory_state_total_size := m_memory_state_total_size p |}.

(** [redo_block]: [None] when the block is refused. *)
Definition redo_block (n : Node) (bhash : Hash) (block : Block) (height : Height) (timestamp : Timestamp) :
    result (option Node) :=
  let delta := Delta.make_DeltaState height timestamp n in
  in_zone ← is_in_sw_checkpoint_zone currency (u32 (height + 1));
  let check_sigs := negb in_zone in
  jobs ← (if check_sigs then ring_jobs n (block_transactions block) height timestamp else Ok (inr []));
  match jobs with
  | inl _ => Ok None
  | inr args =>
      r ← redo_transactions (base_transaction (block_header block) :: block_transactions block) delta;
      match r with
      | None => Ok None
      | Some (delta, global_indices) =>
          if check_sigs && negb (forallb (λ arg, (check_ring_signature arg).1) args) then Ok None
          else
            n ← Delta.apply delta n;
            ba ← to_binary ser_BlockGlobalIndices global_indices;
            d ← put (Store.m_db (store n)) (block_indices_key bhash) ba true;
            Ok (Some {| store := Store.with_db (store n) d; pool := with_version (pool n) 2 |})
      end
  end.

Definition undo_outputs (unlock_time : Z) (outs : list TransactionOutput) (n : Node) : result Node :=
  for_each (λ n o, let '(KeyOutput key) := out_target o in pop_amount_output n (out_amount o) unlock_time key)
    (rev outs) n.

Definition undo_inputs (ins : list TransactionInput) (n : Node) : result Node :=
  for_each (λ n i,
    match i with
    | CoinbaseInput _ => Ok n
    | KeyInput amount output_indexes key_image =>
        n ← delete_keyimage n key_image;
        match output_indexes with
        | [gi] => mark_output n amount gi false
        | _ => Ok n
        end
    end) (rev ins) n.

Definition undo_transaction (n : Node) (tx : Transaction) : result Node :=
  n ← undo_outputs (unlock_time (tx_prefix tx)) (outputs (tx_prefix tx)) n;
  undo_inputs (inputs (tx_prefix tx)) n.

Definition undo_block (n : Node) (bhash : Hash) (block : Block) : result Node :=
  n ← for_each undo_transaction (rev (block_transactions block)) n;
  n ← undo_transaction n (base_transaction (block_header block));
  d ← del (Store.m_db (store n)) (block_indices_key bhash) true;
  Ok (with_store n (Store.with_db (store n) d)).

Definition read_block_output_global_indices (n : Node) (bid : Hash) : result (option (list (list Z))) :=
  match get (Store.m_db (store n)) (block_indices_key bid) with
  | None => Ok None
  | Some rb => indices ← from_binary ser_BlockGlobalIndices rb; Ok (Some indices)
  end.

(** The highest block that one of the transaction's ring members is in; only
    the greatest index of each amount is looked up. *)
Definition largest_index (output_indexes : list Z) : Z :=
  match output_indexes with [] => 0 | d :: l => u32 (foldl (λ x y, u32 (x + y)) d l) end.

Fixpoint largest_indices (ins : list TransactionInput) (m : gmap Amount Z) : option (gmap Amount Z) :=
  match ins with
  | [] => Some m
  | CoinbaseInput _ :: ins => largest_indices ins m
  | KeyInput amount output_indexes _ :: ins =>
      if bool_decide (output_indexes = []) then None
      else
        let lit := default 0 (m !! amount) in
        let largest := largest_index output_indexes in
        largest_indices ins (<[amount := if largest >? lit then largest else lit]> m)
  end.

Fixpoint max_height_of (n : Node) (l : list (Amount * Z)) (max_height : Height) : result (option Height) :=
  match l with
  | [] => Ok (Some max_height)
  | (amount, gi) :: l =>
      o ← ChainState.read_amount_output n amount gi;
      match o with
      | None => Ok None
      | Some unp => max_height_of n l (Z.max max_height (o_height unp))
      end
  end.

Definition get_largest_referenced_height (n : Node) (tx : TransactionPrefix) : result (option Height) :=
  match largest_indices (inputs tx) ∅ with
  | None => Ok None
  | Some m => max_height_of n (map_entries m) 0
  end.

(** ** Adding to the pool *)

Variable key_isvalid : PublicKey → bool.

(** Is one of the key images spent in the main chain? *)
Fixpoint spent_in_chain (n : Node) (kis : list KeyImage) : result (option Height) :=
  match kis with
  | [] => Ok None
  | ki :: kis =>
      h ← ChainState.read_keyimage n ki;
      match h with Some h => Ok (Some h) | None => spent_in_chain n kis end
  end.

(** [add_transaction]: the new node, the verdict and the conflict height. *)
Definition add_transaction (n : Node) (tid : Hash) (tx : Transaction) (binary_tx : BinaryArray)
    (unlock_height : Height) (unlock_timestamp : Timestamp) (conflict_height : Height) (check_sigs : bool) :
    result (Node * AddTransactionResult * Height) :=
  let p := pool n in
  if bool_decide (is_Some (m_memory_state_tx p !! tid)) then Ok (n, ALREADY_IN_POOL, conflict_height)
  else
    let my_fee := get_tx_fee (tx_prefix tx) in
    my_fee_per_byte ← per_byte my_fee binary_tx;
    refused ← refuses p tid my_fee_per_byte;
    if refused : bool then Ok (n, INCREASE_FEE, conflict_height)
    else
      refused ← outbid_first p tid my_fee_per_byte (key_images (tx_prefix tx));
      if refused : bool then Ok (n, INCREASE_FEE, conflict_height)
      else
        spent ← spent_in_chain n (key_images (tx_prefix tx));
        match spent with
        | Some h => Ok (n, OUTPUT_ALREADY_SPENT, h)
        | None =>
            match validate_semantic key_isvalid false tx check_sigs with
            | inl _ => Ok (n, BAN, conflict_height)
            | inr my_fee3 =>
                '(r, conflict_height) ←
                  redo_transaction tx (Delta.make_DeltaState unlock_height unlock_timestamp n) check_sigs;
                match r with
                | inl _ => Ok (n, FAILED_TO_REDO, conflict_height)
                | inr (memory_state, _) =>
                    '(p, verdict) ←
                      add_to_pool p tid
                        {| pt_tx := tx; binary_tx := binary_tx; fee := my_fee; timestamp := 0 |}
                        my_fee_per_byte (map_entries (m_keyimages memory_state)).*1;
                    Ok ({| store := store n; pool := p |}, verdict, conflict_height)
                end
            end
        end.

End node.
End redo.
Arguments Node D : clear implicits.

(** ** The node keeps the interface's promises *)

Section node_laws.
Context {D : Type} `{LmdbLaws D}.

Record node_shows (n : Node D) (v : view) : Prop := {
  nd_store : Store.store_shows (store n) v;
  nd_pool : pool_ok (pool n);
  (** No transaction of the pool spends what the chain has spent. *)
  nd_unspent ki tid : m_memory_state_ki_tx (pool n) !! ki = Some tid → v_keys v ki = None;
}.

Global Instance node_shows_proper : Proper ((=) ==> (≡) ==> iff) node_shows.
Proof.
  intros n ? <- v w Hvw. split; intros [Hs Hp Hu]; split; try done.
  - by rewrite <- Hvw.
  - intros ki tid Hki. rewrite <- (proj1 Hvw). by eapply Hu.
  - by rewrite Hvw.
  - intros ki tid Hki. rewrite (proj1 Hvw). by eapply Hu.
Qed.

Definition node_keeps (n n' : Node D) : Prop := Store.store_keeps (store n) (store n').
Global Instance node_keeps_preorder : PreOrder node_keeps.
Proof. split; [done|]. intros a b c. unfold node_keeps. apply transitivity. Qed.

Lemma node_with_store n s v w : node_shows n v → Store.store_shows s w → v_keys w = v_keys v →
  node_shows (with_store n s) w.
Proof. intros [_ Hp Hu] Hs Hk. split; [done|done|]. cbn. by rewrite Hk. Qed.

Lemma node_store_keyimage n v ki h : node_shows n v → ki_ok ki → in_u 32 h → v_keys v ki = None →
  ∃ n', store_keyimage n ki h = Ok n' ∧ node_shows n' (v_store ki (Some h) v) ∧ node_keeps n n' ∧
    m_memory_state_tx (pool n') ⊆ m_memory_state_tx (pool n).
Proof.
  intros [Hs Hp Hu] Hki Hh Hn.
  destruct (Store.store_put_keyimage _ v ki h Hs Hki Hh Hn) as (d' & Hput & Hw & Hs').
  unfold store_keyimage. rewrite Hput. cbn [mbind result_bind].
  assert (Store.store_keeps (store n) (Store.with_db (store n) d')) as Hkeep.
  { eapply Store.written_keeps; [exact Hw|apply Store.keyimage_not_other]. }
  destruct (m_memory_state_ki_tx (pool n) !! ki) as [tid|] eqn:Hk.
  - pose proof Hk as (t & Ht & Hin)%(po_ki _ Hp).
    destruct (remove_ok _ tid t Hp Ht) as (p' & -> & Hp' & _ & Hm & _). cbn [mbind result_bind].
    eexists. split; [done|]. split_and!; [|done|cbn; rewrite Hm; apply delete_subseteq].
    split; [done|done|]. cbn. intros ki' tid'.
    rewrite (ki_after_remove _ p' tid t ki' Hp Hp' Hm Ht). case_decide as Hin'; [done|]. intros Hk'.
    rewrite fn_lookup_insert_ne by (by intros ->). by eapply Hu.
  - eexists. split; [done|]. split_and!; [|done|done]. split; [done|done|]. cbn. intros ki' tid' Hk'.
    rewrite fn_lookup_insert_ne by congruence. by eapply Hu.
Qed.

Lemma node_delete_keyimage n v ki h : node_shows n v → ki_ok ki → v_keys v ki = Some h →
  ∃ n', delete_keyimage n ki = Ok n' ∧ node_shows n' (v_store ki None v) ∧ node_keeps n n' ∧ pool n' = pool n.
Proof.
  intros [Hs Hp Hu] Hki Hn. destruct (Store.store_delete_keyimage _ v ki h Hs Hki Hn) as (d' & Hd & Hk & Hs').
  unfold delete_keyimage. rewrite Hd. eexists. split; [done|]. split_and!; [|done|done]. split; [done|done|].
  cbn. intros ki' tid' Hk'. destruct (decide (ki = ki')) as [<-|]; [by rewrite fn_lookup_insert|].
  rewrite fn_lookup_insert_ne by done. by eapply Hu.
Qed.

Lemma node_push n v a u h pk :
  let o := {| o_unlock_time := u; o_public_key := pk; o_height := h; o_spent := false |} in
  node_shows n v → output_ok a o → Z.of_nat (length (v_outs v a)) < 2 ^ 32 - 1 →
  ∃ n', push_amount_output n a u h pk = Ok (n', Z.of_nat (length (v_outs v a))) ∧
    node_shows n' (v_push a o v) ∧ node_keeps n n' ∧ pool n' = pool n.
Proof.
  intros o Hn Ho Hl. destruct (Store.store_push _ v a u h pk (nd_store _ _ Hn) Ho Hl) as (s' & Hp & Hs' & Hk).
  unfold push_amount_output. rewrite Hp. eexists. split; [done|]. split_and!; [|done|done].
  by eapply node_with_store.
Qed.

Lemma node_pop n v a u pk l o :
  node_shows n v → in_u 64 a → v_outs v a = l ++ [o] →
  o_spent o = false → o_unlock_time o = u → o_public_key o = pk →
  ∃ n', pop_amount_output n a u pk = Ok n' ∧
    node_shows n' {| v_keys := v_keys v; v_outs := <[a := l]> (v_outs v) |} ∧ node_keeps n n' ∧ pool n' = pool n.
Proof.
  intros Hn Ha Hl Hsp Hu Hpk.
  destruct (Store.store_pop _ v a u pk l o (nd_store _ _ Hn) Ha Hl Hsp Hu Hpk) as (s' & Hp & Hs' & Hk).
  unfold pop_amount_output. rewrite Hp. eexists. split; [done|]. split_and!; [|done|done].
  by eapply node_with_store.
Qed.

Lemma node_mark n v a gi b : node_shows n v → in_u 64 a → in_u 32 gi →
  ∃ n', mark_output n a gi b = Ok n' ∧ node_shows n' (v_spend b a gi v) ∧ node_keeps n n' ∧ pool n' = pool n.
Proof.
  intros Hn Ha Hg. destruct (Store.store_mark _ v a gi b (nd_store _ _ Hn) Ha Hg) as (s' & Hp & Hs' & Hk).
  unfold mark_output. rewrite Hp. eexists. split; [done|]. split_and!; [|done|done].
  by eapply node_with_store.
Qed.

Global Instance node_laws : ChainStateLaws (Node D).
Proof.
  refine {| shows := node_shows; stamp _ h := h; spends_now := true; pending _ := []; keeps := node_keeps |}.
  - done.
  - intros n v a Hn. apply (Store.st_length _ _ (nd_store _ _ Hn)).
  - intros n v a o Hn. apply (Store.st_ok _ _ (nd_store _ _ Hn)).
  - intros n v ki Hn Hki. apply (Store.store_read_keyimage _ _ _ (nd_store _ _ Hn) Hki).
  - intros n v a Hn Ha. cbn. by destruct (Store.store_next _ v a (nd_store _ _ Hn) Ha) as (s' & -> & _).
  - intros n v a gi Hn Ha Hg. apply (Store.store_read_output _ _ _ _ (nd_store _ _ Hn) Ha Hg).
  - intros n v ki h Hn Hki Hh _ Hnone.
    destruct (node_store_keyimage n v ki h Hn Hki Hh Hnone) as (n' & ? & ? & ? & _). by exists n'.
  - intros n v a u h pk o Hn Ho Hl. destruct (node_push n v a u h pk Hn Ho Hl) as (n' & ? & ? & ? & _).
    by exists n'.
  - intros n v a gi Hn Ha Hg. destruct (node_mark n v a gi true Hn Ha Hg) as (n' & ? & ? & ? & _).
    by exists n'.
Defined.

End node_laws.

End Redo.
