(* ===== verification/BlockLaws.v ===== *)
(** * Blocks as sequences of effects: theorems on redoing and undoing

    A block does to the chain's state a list of effects, in order: outputs
    marked spent, key images stored, outputs pushed.  Redoing it through two
    levels of deltas has exactly these effects, and undoing it takes them back
    one by one. *)

From stdpp Require Import functions.
From S2P Require Import Prelude Varint Containers Seria Text CryptoNote Blocks Currency Db ChainState Store Pool Redo.
Import Containers Codec CryptoNote Blocks Currency Db ChainState Pool Redo.

Local Open Scope Z_scope.

Module BlockLaws.

Inductive effect :=
| ESpend (a : Amount) (gi : Z)
| EStore (ki : KeyImage) (h : Height)
| EPush (a : Amount) (o : Output).

Definition input_effects (h : Height) (i : TransactionInput) : list effect :=
  match i with
  | CoinbaseInput _ => []
  | KeyInput a output_indexes ki =>
      match output_indexes with [gi] => [ESpend a gi] | _ => [] end ++ [EStore ki h]
  end.
Definition new_output (h : Height) (u : Z) (o : TransactionOutput) : Output :=
  {| o_unlock_time := u; o_public_key := match out_target o with KeyOutput key => key end;
     o_height := h; o_spent := false |}.
Definition output_effect (h : Height) (u : Z) (o : TransactionOutput) : effect :=
  EPush (out_amount o) (new_output h u o).
Definition tx_effects (h : Height) (tx : Transaction) : list effect :=
  concat (input_effects h <$> inputs (tx_prefix tx)) ++
  (output_effect h (unlock_time (tx_prefix tx)) <$> outputs (tx_prefix tx)).
Definition block_txs (block : Block) : list Transaction :=
  base_transaction (block_header block) :: block_transactions block.
Definition block_effects (h : Height) (block : Block) : list effect :=
  concat (tx_effects h <$> block_txs block).

(** What an effect does to a view at once, and through a delta. *)
Definition v_effect (v : view) (e : effect) : view :=
  match e with
  | ESpend a gi => v_spend true a gi v
  | EStore ki h => v_store ki (Some h) v
  | EPush a o => v_push a o v
  end.
Definition d_effect (v : view) (e : effect) : view :=
  match e with ESpend _ _ => v | _ => v_effect v e end.
Definition spend_of (e : effect) : option (Amount * Z) :=
  match e with ESpend a gi => Some (a, gi) | _ => None end.
Definition key_of (e : effect) : option KeyImage := match e with EStore ki _ => Some ki | _ => None end.
Definition push_of (e : effect) : option (Amount * Output) := match e with EPush a o => Some (a, o) | _ => None end.
Definition spends (es : list effect) : list (Amount * Z) := omap spend_of es.
Definition stores (es : list effect) : list KeyImage := omap key_of es.
Definition pushes (es : list effect) : list (Amount * Output) := omap push_of es.

(** The effects can be done, and undone, from [v]. *)
Definition effect_ok (v : view) (e : effect) : Prop :=
  match e with
  | ESpend a gi => in_u 64 a ∧ in_u 32 gi ∧ ∀ o, v_outs v a !! Z.to_nat gi = Some o → o_spent o = false
  | EStore ki h => ki_ok ki ∧ in_u 32 h ∧ v_keys v ki = None
  | EPush a o => output_ok a o ∧ o_spent o = false ∧ Z.of_nat (length (v_outs v a)) < 2 ^ 32 - 1
  end.
Fixpoint effects_ok (v : view) (es : list effect) : Prop :=
  match es with
  | [] => True
  | e :: es => effect_ok v e ∧ effects_ok (v_effect v e) es
  end.

Lemma effects_ok_app v es fs :
  effects_ok v (es ++ fs) ↔ effects_ok v es ∧ effects_ok (foldl v_effect v es) fs.
Proof. revert v. induction es as [|e es IH]; intros v; cbn; [naive_solver|]. rewrite IH. naive_solver. Qed.

Global Instance v_effect_proper : Proper ((≡) ==> (=) ==> (≡)) v_effect.
Proof. intros v w Hvw e ? <-. destruct e; cbn [v_effect]; by rewrite Hvw. Qed.
Global Instance d_effect_proper : Proper ((≡) ==> (=) ==> (≡)) d_effect.
Proof. intros v w Hvw e ? <-. destruct e; cbn [d_effect v_effect]; try done; by rewrite Hvw. Qed.

(** ** Views that differ in spent flags only *)

Definition same (v w : view) : Prop :=
  (∀ ki, v_keys v ki = v_keys w ki) ∧ ∀ a, length (v_outs v a) = length (v_outs w a).

Global Instance same_equivalence : Equivalence same.
Proof.
  split; [done| |].
  - intros v w [Hk Ho]. by split.
  - intros v w x [Hk Ho] [Hk' Ho']. split; intros; congruence.
Qed.

Lemma v_effect_same v w e : same v w → same (v_effect v e) (v_effect w e).
Proof.
  intros [Hk Ho]. destruct e as [a gi|ki h|a o]; (split; cbn; [intros ki'|intros a']).
  - apply Hk.
  - destruct (decide (a = a')) as [<-|Hne].
    + by rewrite !fn_lookup_alter, !length_alter.
    + by rewrite !fn_lookup_alter_ne.
  - destruct (decide (ki = ki')) as [<-|Hne]; [by rewrite !fn_lookup_insert|by rewrite !fn_lookup_insert_ne].
  - apply Ho.
  - apply Hk.
  - destruct (decide (a = a')) as [<-|Hne]; [|by rewrite !fn_lookup_insert_ne].
    by rewrite !fn_lookup_insert, !length_app, Ho.
Qed.

Lemma d_effect_same v e : same (d_effect v e) (v_effect v e).
Proof.
  destruct e as [a gi|ki h|a o]; [|done|done]. split; [done|]. intros a'. cbn.
  destruct (decide (a = a')) as [<-|]; [by rewrite fn_lookup_alter, length_alter|by rewrite fn_lookup_alter_ne].
Qed.

(** ** Deltas, where spending is pending *)

(** What a delta needs of an effect. *)
Definition effect_fits (v : view) (e : effect) : Prop :=
  match e with
  | ESpend a gi => in_u 64 a ∧ in_u 32 gi
  | EStore ki h => ki_ok ki ∧ in_u 32 h ∧ v_keys v ki = None
  | EPush a o => output_ok a o ∧ Z.of_nat (length (v_outs v a)) < 2 ^ 32 - 1
  end.
Fixpoint effects_fit (v : view) (es : list effect) : Prop :=
  match es with
  | [] => True
  | e :: es => effect_fits v e ∧ effects_fit (v_effect v e) es
  end.

Lemma effects_fit_app v es fs :
  effects_fit v (es ++ fs) ↔ effects_fit v es ∧ effects_fit (foldl v_effect v es) fs.
Proof. revert v. induction es as [|e es IH]; intros v; cbn; [naive_solver|]. rewrite IH. naive_solver. Qed.

Lemma effects_ok_fit v es : effects_ok v es → effects_fit v es.
Proof.
  revert v. induction es as [|e es IH]; intros v; [done|]. intros [He Hes]. split; [|by apply IH].
  destruct e; cbn in *; naive_solver.
Qed.

Lemma effects_fit_same v w es : same v w → effects_fit v es → effects_fit w es.
Proof.
  revert v w. induction es as [|e es IH]; intros v w Hs; [done|]. intros [He Hes]. split.
  - destruct e; cbn in *; [done|by rewrite <- (proj1 Hs)|by rewrite <- (proj2 Hs)].
  - eapply IH; [|exact Hes]. by apply v_effect_same.
Qed.

Lemma foldl_same v w es : same v w → same (foldl d_effect v es) (foldl v_effect w es).
Proof.
  revert v w. induction es as [|e es IH]; intros v w Hs; [done|]. cbn. apply IH.
  etrans; [apply d_effect_same|by apply v_effect_same].
Qed.

Section delta.
Context {S : Type} `{ChainStateLaws S} (currency : Currency) (cn_fast_hash : list Z → Hash).
Variable check_ring_signature : RingSignatureArg → bool * bool.

(** A delta that now shows [v] after the effects [es] were done to it. *)
Definition reached {P} `{ChainStateLaws P} (d d' : DeltaState P) (v : view) (es : list effect) : Prop :=
  delta_shows d' (foldl d_effect v es) ∧ delta_keeps d d' ∧ m_spent_outputs d' = m_spent_outputs d ++ spends es.

Lemma reached_trans {P} `{ChainStateLaws P} (d1 d2 d3 : DeltaState P) v es fs :
  reached d1 d2 v es → reached d2 d3 (foldl d_effect v es) fs → reached d1 d3 v (es ++ fs).
Proof.
  intros (_ & Hk1 & Hp1) (Hs & Hk2 & Hp2). split_and!; [by rewrite foldl_app|by etrans|].
  rewrite Hp2, Hp1, <- app_assoc. unfold spends. by rewrite omap_app.
Qed.

Lemma redo_inputs_reached prefix_hash sigs h t i ins (td : DeltaState (DeltaState S)) v c :
  delta_shows td v → m_block_height td = h →
  effects_fit v (concat (input_effects h <$> ins)) →
  ∃ td', redo_inputs currency check_ring_signature false prefix_hash sigs h t i ins td c = Ok (inr td', c) ∧
    reached td td' v (concat (input_effects h <$> ins)).
Proof.
  revert td v i. induction ins as [|[bi|a idx ki] ins IH]; intros td v i Hs Hh Hok.
  - exists td. split; [done|]. split_and!; [done|done|by rewrite app_nil_r].
  - cbn [redo_inputs]. by apply IH.
  - cbn [fmap list_fmap concat redo_inputs]. cbn [fmap list_fmap concat] in Hok.
    apply effects_fit_app in Hok as [Hi Hins].
    set (es := input_effects h (KeyInput a idx ki)) in *.
    assert (∃ td1, (match idx with [gi] => spend_output td a gi | _ => Ok td end) = Ok td1 ∧
      delta_shows td1 v ∧ delta_keeps td td1 ∧ m_spent_outputs td1 = m_spent_outputs td ++ spends es ∧
      ki_ok ki ∧ in_u 32 h ∧ v_keys v ki = None) as (td1 & -> & Hs1 & Hk1 & Hp1 & Hki & Hh32 & Hnone).
    { unfold es in *. destruct idx as [|gi [|gi' idx]]; cbn in Hi.
      - exists td. split_and!; [done|done|done|by rewrite app_nil_r|by destruct Hi as [(?&?&?) _]..].
      - destruct Hi as [[Ha Hg] [(Hki & Hh32 & Hn) _]].
        destruct (delta_spend td v a gi Hs Ha Hg) as (td1 & Hsp & Hs1 & Hk1 & Hp1). exists td1.
        split_and!; done.
      - exists td. split_and!; [done|done|done|by rewrite app_nil_r|by destruct Hi as [(?&?&?) _]..]. }
    cbn [mbind result_bind].
    destruct (delta_store td1 v ki h Hs1 Hki Hh32) as (td2 & Hst & Hs2 & Hk2 & Hp2);
      [by rewrite (proj1 Hk1)|done|].
    change (ChainState.store_keyimage td1 ki h) with (Delta.store_keyimage td1 ki h). rewrite Hst.
    cbn [mbind result_bind].
    assert (reached td td2 v es) as Hr.
    { split_and!; [|by etrans|by rewrite Hp2]. unfold es. by destruct idx as [|gi [|gi' idx]]. }
    destruct (IH td2 (foldl d_effect v es) (Datatypes.S i)) as (td3 & Hr3 & Hreach).
    { apply Hr. }
    { rewrite (proj1 (proj1 (proj2 Hr))). done. }
    { eapply effects_fit_same; [|exact Hins]. symmetry. by apply foldl_same. }
    exists td3. split; [exact Hr3|]. by eapply reached_trans.
Qed.

(** The global indices that the pushes of a list of effects get. *)
Fixpoint new_indices (v : view) (es : list effect) : list Z :=
  match es with
  | [] => []
  | e :: es =>
      match e with EPush a _ => [Z.of_nat (length (v_outs v a))] | _ => [] end ++ new_indices (v_effect v e) es
  end.

Lemma new_indices_same v w es : same v w → new_indices v es = new_indices w es.
Proof.
  revert v w. induction es as [|e es IH]; intros v w Hs; [done|]. cbn.
  rewrite (IH (v_effect v e) (v_effect w e)) by (by apply v_effect_same).
  destruct e; [done..|]. by rewrite (proj2 Hs).
Qed.

Lemma new_indices_app v es fs :
  new_indices v (es ++ fs) = new_indices v es ++ new_indices (foldl v_effect v es) fs.
Proof. revert v. induction es as [|e es IH]; intros v; [done|]. cbn. by rewrite IH, app_assoc. Qed.

Lemma new_indices_inputs v h ins : new_indices v (concat (input_effects h <$> ins)) = [].
Proof.
  revert v. induction ins as [|[bi|a [|gi [|gi' idx]] ki] ins IH]; intros v; cbn; done || apply IH.
Qed.

Lemma redo_outputs_reached h u outs (td : DeltaState (DeltaState S)) v :
  delta_shows td v → m_block_height td = h →
  effects_fit v (output_effect h u <$> outs) →
  ∃ td', redo_outputs u outs td = Ok (td', new_indices v (output_effect h u <$> outs)) ∧
    reached td td' v (output_effect h u <$> outs).
Proof.
  revert td v. induction outs as [|o outs IH]; intros td v Hs Hh Hok.
  - exists td. split; [done|]. split_and!; [done|done|by rewrite app_nil_r].
  - cbn [fmap list_fmap effects_fit redo_outputs] in *. destruct Hok as [[Ho Hl] Hok].
    destruct o as [a [key]]. cbn [out_target out_amount] in *.
    destruct (delta_push td v a u 0 key Hs) as (td1 & Hp & Hs1 & Hk1 & Hp1).
    { by rewrite Hh. }
    { done. }
    change (ChainState.push_amount_output td a u 0 key) with (Delta.push_amount_output td a u 0 key).
    rewrite Hp. cbn [mbind result_bind].
    assert (reached td td1 v [output_effect h u {| out_amount := a; out_target := KeyOutput key |}]) as Hr.
    { split_and!; [|done|by rewrite Hp1, app_nil_r]. cbn. by rewrite <- Hh. }
    destruct (IH td1 _ (proj1 Hr)) as (td2 & Hr2 & Hreach); [by rewrite (proj1 Hk1)|done|].
    rewrite Hr2. cbn [mbind result_bind]. exists td2. split; [done|].
    by apply (reached_trans td td1 td2 v [_] _).
Qed.

Lemma effects_room v es a : effects_fit v es →
  Z.of_nat (length (v_outs v a)) < 2 ^ 32 → Z.of_nat (length (v_outs (foldl v_effect v es) a)) < 2 ^ 32.
Proof.
  revert v. induction es as [|e es IH]; intros v Hok Hl; [done|]. destruct Hok as [He Hes]. cbn.
  apply IH; [done|]. destruct e as [a' gi|ki h|a' o]; cbn in *; [|done|].
  - destruct (decide (a' = a)) as [<-|]; [by rewrite fn_lookup_alter, length_alter|by rewrite fn_lookup_alter_ne].
  - destruct (decide (a' = a)) as [<-|]; [|by rewrite fn_lookup_insert_ne].
    rewrite fn_lookup_insert, length_app. cbn. lia.
Qed.

(** A fresh delta shows its parent. *)
Lemma make_shows {P} `{ChainStateLaws P} (p : P) v h t : shows p v → in_u 32 h →
  delta_shows (Delta.make_DeltaState h t p) v.
Proof.
  intros Hs Hh. exists v. split_and!; [done| |].
  - split; cbn; try done.
    + intros a o. unfold delta_outs. cbn. rewrite lookup_empty. cbn. rewrite app_nil_r. by eapply shows_ok.
    + intros a. unfold delta_outs. cbn. rewrite lookup_empty. cbn. rewrite app_nil_r. by eapply shows_length.
    + by intros a gi ?%elem_of_nil.
  - split; intros; cbn; [by rewrite lookup_empty|]. unfold delta_outs. cbn. rewrite lookup_empty. cbn.
    by rewrite app_nil_r.
Qed.

(** Applying a delta to its own parent. *)
Lemma apply_to_parent {P} `{ChainStateLaws P} (d : DeltaState P) w :
  delta_shows d w → stamp (m_parent_state d) (m_block_height d) = m_block_height d →
  ∃ p', Delta.apply d (m_parent_state d) = Ok p' ∧
    shows p' (if spends_now P then v_spends (m_spent_outputs d) w else w) ∧
    keeps (m_parent_state d) p' ∧
    pending p' = pending (m_parent_state d) ++ (if spends_now P then [] else m_spent_outputs d).
Proof.
  intros (vp & Hs & Hok & Hw) Hst.
  destruct (apply_shows d (m_parent_state d) vp Hs Hok Hst) as (p' & Hp & Hs' & Hk & Hpe).
  exists p'. split_and!; try done. eapply shows_proper; [done| |exact Hs'].
  destruct (spends_now P); [|done]. clear -Hw. revert w vp Hw.
  intros w vp Hw. generalize (overlay d vp) w Hw. induction (m_spent_outputs d) as [|e l IH]; intros x y Hxy; [done|].
  cbn. apply IH. by rewrite Hxy.
Qed.

Lemma redo_transaction_reached tx (d : DeltaState S) v :
  delta_shows d v → in_u 32 (m_block_height d) →
  effects_fit v (tx_effects (m_block_height d) tx) →
  ∃ d', redo_transaction currency cn_fast_hash check_ring_signature tx d false =
      Ok (inr (d', new_indices v (tx_effects (m_block_height d) tx)), 0) ∧
    reached d d' v (tx_effects (m_block_height d) tx).
Proof.
  intros Hs Hh Hok. unfold redo_transaction. cbn [mbind result_bind].
  set (h := m_block_height d) in *. set (td := Delta.make_DeltaState h _ d).
  apply effects_fit_app in Hok as [Hin Hout].
  assert (delta_shows td v) as Htd by (by apply (make_shows (P := DeltaState S))).
  destruct (redo_inputs_reached null_hash (signatures tx) h (m_unlock_timestamp d) 0 (inputs (tx_prefix tx)) td v 0
    Htd eq_refl Hin) as (td1 & -> & Hr1). cbn [mbind result_bind].
  destruct (redo_outputs_reached h (unlock_time (tx_prefix tx)) (outputs (tx_prefix tx)) td1 _ (proj1 Hr1))
    as (td2 & -> & Hr2).
  { by rewrite (proj1 (proj1 (proj2 Hr1))). }
  { eapply effects_fit_same; [|exact Hout]. symmetry. by apply foldl_same. }
  cbn [mbind result_bind]. pose proof (reached_trans _ _ _ _ _ _ Hr1 Hr2) as (Hs2 & (Hbh & _ & Hpar) & Hsp).
  destruct (apply_to_parent td2 _ Hs2) as (d' & Hap & Hs' & Hk' & Hpe).
  { rewrite Hpar. cbn. by rewrite Hbh. }
  rewrite Hpar in Hap, Hk', Hpe. cbn [td Delta.make_DeltaState m_parent_state] in Hap, Hk', Hpe.
  rewrite Hap. cbn [mbind result_bind]. exists d'. split.
  - unfold tx_effects. rewrite new_indices_app, new_indices_inputs. cbn [app]. do 4 f_equal.
    apply new_indices_same, foldl_same. done.
  - split_and!; [done|done|]. cbn in Hpe. rewrite Hpe, Hsp. done.
Qed.

Fixpoint new_indices_txs (h : Height) (v : view) (txs : list Transaction) : list (list Z) :=
  match txs with
  | [] => []
  | tx :: txs => new_indices v (tx_effects h tx) :: new_indices_txs h (foldl v_effect v (tx_effects h tx)) txs
  end.

Lemma new_indices_txs_same h v w txs : same v w → new_indices_txs h v txs = new_indices_txs h w txs.
Proof.
  revert v w. induction txs as [|tx txs IH]; intros v w Hs; [done|]. cbn. f_equal; [by apply new_indices_same|].
  apply IH. etrans; [|by apply foldl_same]. symmetry. by apply foldl_same.
Qed.

Lemma redo_transactions_reached txs (d : DeltaState S) v :
  delta_shows d v → in_u 32 (m_block_height d) →
  effects_fit v (concat (tx_effects (m_block_height d) <$> txs)) →
  ∃ d', redo_transactions currency cn_fast_hash check_ring_signature txs d =
      Ok (Some (d', new_indices_txs (m_block_height d) v txs)) ∧
    reached d d' v (concat (tx_effects (m_block_height d) <$> txs)).
Proof.
  revert d v. induction txs as [|tx txs IH]; intros d v Hs Hh Hok.
  - exists d. split; [done|]. split_and!; [done|done|by rewrite app_nil_r].
  - cbn [fmap list_fmap concat redo_transactions] in *. apply effects_fit_app in Hok as [Htx Htxs].
    destruct (redo_transaction_reached tx d v Hs Hh Htx) as (d1 & -> & Hr1). cbn [mbind result_bind].
    pose proof Hr1 as (Hs1 & (Hbh & _) & _).
    assert (same (foldl v_effect v (tx_effects (m_block_height d) tx))
      (foldl d_effect v (tx_effects (m_block_height d) tx))) as Hsame by (symmetry; by apply foldl_same).
    destruct (IH d1 _ Hs1) as (d2 & Hd2 & Hr2).
    { by rewrite Hbh. }
    { rewrite Hbh. by eapply effects_fit_same. }
    rewrite Hd2. cbn [mbind result_bind]. rewrite Hbh in *. exists d2. split.
    + cbn. by rewrite (new_indices_txs_same _ _ _ txs Hsame).
    + by eapply reached_trans.
Qed.

End delta.

(** ** Pending spends, done at the end, had done at once *)

Definition targets (v : view) (l : list (Amount * Z)) : Prop :=
  ∀ a gi, (a, gi) ∈ l → (Z.to_nat gi < length (v_outs v a))%nat.

Lemma v_spend_d_effect a gi v e : (Z.to_nat gi < length (v_outs v a))%nat →
  v_spend true a gi (d_effect v e) ≡ d_effect (v_spend true a gi v) e.
Proof.
  intros Hlt. destruct e as [a1 gi1|ki h|a1 o]; [done|done|]. split; [done|]. intros a'. cbn.
  destruct (decide (a = a')) as [<-|Hne].
  - rewrite fn_lookup_alter. destruct (decide (a1 = a)) as [->|Hne].
    + rewrite !fn_lookup_insert, fn_lookup_alter. by rewrite alter_app_l.
    + by rewrite !fn_lookup_insert_ne, fn_lookup_alter.
  - rewrite fn_lookup_alter_ne by done. destruct (decide (a1 = a')) as [->|Hne'].
    + rewrite !fn_lookup_insert. by rewrite fn_lookup_alter_ne.
    + rewrite !fn_lookup_insert_ne by done. by rewrite fn_lookup_alter_ne.
Qed.

Lemma targets_d_effect v e l : targets v l → targets (d_effect v e) l.
Proof.
  intros Ht a gi Hin. specialize (Ht a gi Hin). destruct e as [|ki h|a1 o]; [done|done|]. cbn.
  destruct (decide (a1 = a)) as [->|]; [rewrite fn_lookup_insert, length_app; cbn; lia|].
  by rewrite fn_lookup_insert_ne.
Qed.

Lemma targets_spend a gi v l : targets v l → targets (v_spend true a gi v) l.
Proof.
  intros Ht a' gi' Hin. specialize (Ht a' gi' Hin). cbn. destruct (decide (a = a')) as [<-|].
  - by rewrite fn_lookup_alter, length_alter.
  - by rewrite fn_lookup_alter_ne.
Qed.

Lemma v_spend_d_effects a gi v es : (Z.to_nat gi < length (v_outs v a))%nat →
  v_spend true a gi (foldl d_effect v es) ≡ foldl d_effect (v_spend true a gi v) es.
Proof.
  revert v. induction es as [|e es IH]; intros v Hlt; [done|]. cbn. rewrite IH.
  - clear IH. assert (∀ x y, x ≡ y → foldl d_effect x es ≡ foldl d_effect y es) as Hp.
    { clear. induction es as [|e es IH]; intros x y Hxy; [done|]. cbn. apply IH. by rewrite Hxy. }
    apply Hp. by apply v_spend_d_effect.
  - apply (targets_d_effect v e [(a, gi)]); [|by left]. by intros a' gi' [= -> ->]%list_elem_of_singleton.
Qed.

Lemma spends_at_end v es : targets v (spends es) →
  v_spends (spends es) (foldl d_effect v es) ≡ foldl v_effect v es.
Proof.
  revert v. induction es as [|e es IH]; intros v Ht; [done|].
  destruct e as [a gi|ki h|a o]; cbn [spends omap list_omap spend_of foldl] in *.
  - assert (targets v (spends es)) as Ht' by (intros a' gi' Hin; apply Ht; by right).
    change (v_spends (spends es) (v_spend true a gi (foldl d_effect v es)) ≡
      foldl v_effect (v_spend true a gi v) es).
    rewrite <- IH by (by apply targets_spend).
    assert (∀ l x y, x ≡ y → v_spends l x ≡ v_spends l y) as Hp.
    { intros l. induction l as [|p l IHl]; intros x y Hxy; [done|]. cbn. apply IHl. by rewrite Hxy. }
    apply Hp, v_spend_d_effects, Ht. by left.
  - apply (IH (v_store ki (Some h) v)). exact (targets_d_effect v (EStore ki h) _ Ht).
  - apply (IH (v_push a o v)). exact (targets_d_effect v (EPush a o) _ Ht).
Qed.

(** ** Undoing, effect by effect *)

Section undo.
Context {D : Type} `{LmdbLaws D}.

Definition undo_effect (n : Node D) (e : effect) : result (Node D) :=
  match e with
  | ESpend a gi => mark_output n a gi false
  | EStore ki _ => delete_keyimage n ki
  | EPush a o => pop_amount_output n a (o_unlock_time o) (o_public_key o)
  end.

Lemma undo_outputs_effects h u outs (n : Node D) :
  undo_outputs u outs n = for_each undo_effect (rev (output_effect h u <$> outs)) n.
Proof.
  unfold undo_outputs. replace (rev (output_effect h u <$> outs)) with (output_effect h u <$> rev outs)
    by apply map_rev.
  rewrite for_each_fmap. apply for_each_ext. by intros n' [a [key]].
Qed.

Lemma undo_inputs_effects h ins (n : Node D) :
  undo_inputs ins n = for_each undo_effect (rev (concat (input_effects h <$> ins))) n.
Proof.
  unfold undo_inputs. revert n. induction ins as [|i ins IH]; intros n; [done|].
  cbn [fmap list_fmap concat rev]. rewrite rev_app_distr, !for_each_app, IH.
  destruct (for_each undo_effect _ n) as [n'| |]; [|done..]. cbn [mbind result_bind].
  destruct i as [bi|a [|gi [|gi' idx]] ki]; cbn; [done|..]; destruct (delete_keyimage n' ki); done.
Qed.

Lemma undo_transaction_effects h tx (n : Node D) :
  undo_transaction n tx = for_each undo_effect (rev (tx_effects h tx)) n.
Proof.
  unfold undo_transaction, tx_effects. rewrite rev_app_distr, for_each_app, <- undo_outputs_effects.
  destruct (undo_outputs _ _ n); [|done..]. apply undo_inputs_effects.
Qed.

Lemma undo_block_effects h bhash block (n : Node D) :
  undo_block n bhash block =
    (n ← for_each undo_effect (rev (block_effects h block)) n;
     d ← del (Store.m_db (store n)) (block_indices_key bhash) true;
     Ok (with_store n (Store.with_db (store n) d))).
Proof.
  unfold undo_block, block_effects, block_txs. cbn [fmap list_fmap concat].
  rewrite rev_app_distr, for_each_app.
  assert (∀ txs n, for_each undo_transaction (rev txs) n =
    for_each undo_effect (rev (concat (tx_effects h <$> txs))) n) as ->.
  { clear. intros txs. induction txs as [|tx txs IH]; intros n; [done|].
    cbn [fmap list_fmap concat rev]. rewrite rev_app_distr, !for_each_app, IH.
    destruct (for_each undo_effect _ n) as [n'| |]; [|done..]. cbn [mbind result_bind for_each].
    rewrite (undo_transaction_effects h). by destruct (for_each _ _ _). }
  destruct (for_each undo_effect _ n) as [n'| |]; [|done..]. cbn [mbind result_bind].
  by rewrite (undo_transaction_effects h).
Qed.

Lemma v_store_undo v ki h : v_keys v ki = None → v_store ki None (v_store ki (Some h) v) ≡ v.
Proof.
  intros Hn. split; [|done]. intros ki'. cbn. destruct (decide (ki = ki')) as [<-|].
  - by rewrite fn_lookup_insert.
  - by rewrite !fn_lookup_insert_ne.
Qed.

Lemma v_spend_undo v a gi : (∀ o, v_outs v a !! Z.to_nat gi = Some o → o_spent o = false) →
  v_spend false a gi (v_spend true a gi v) ≡ v.
Proof.
  intros Hun. split; [done|]. intros a'. cbn. destruct (decide (a = a')) as [<-|]; [|by rewrite !fn_lookup_alter_ne].
  rewrite !fn_lookup_alter. apply list_eq. intros i. destruct (decide (Z.to_nat gi = i)) as [<-|].
  - rewrite !list_lookup_alter_eq. destruct (v_outs v a !! Z.to_nat gi) as [o|] eqn:Ho; [|done]. cbn.
    specialize (Hun o eq_refl). destruct o. cbn in *. by subst.
  - by rewrite !list_lookup_alter_ne.
Qed.

Lemma undo_effects_ok es v (n : Node D) :
  node_shows n (foldl v_effect v es) → effects_ok v es →
  ∃ n', for_each undo_effect (rev es) n = Ok n' ∧ node_shows n' v ∧ node_keeps n n' ∧ pool n' = pool n.
Proof.
  revert n. induction es as [|e es IH] using rev_ind; intros n Hn Hok; [by exists n|].
  apply effects_ok_app in Hok as [Hes [He _]]. rewrite foldl_app in Hn. cbn [foldl] in Hn.
  set (w := foldl v_effect v es) in *.
  assert (∃ n1, undo_effect n e = Ok n1 ∧ node_shows n1 w ∧ node_keeps n n1 ∧ pool n1 = pool n)
    as (n1 & Hu & Hs1 & Hk1 & Hp1).
  { destruct e as [a gi|ki h|a o]; cbn [v_effect effect_ok undo_effect] in *.
    - destruct He as (Ha & Hg & Hun). destruct (node_mark n _ a gi false Hn Ha Hg) as (n1 & ? & Hs & ? & ?).
      exists n1. split_and!; try done. by rewrite v_spend_undo in Hs.
    - destruct He as (Hki & Hh & Hnone). destruct (node_delete_keyimage n _ ki h Hn Hki) as (n1 & ? & Hs & ? & ?).
      { cbn. by rewrite fn_lookup_insert. }
      exists n1. split_and!; try done. by rewrite v_store_undo in Hs.
    - destruct He as ([Ha Ho] & Hun & Hl).
      destruct (node_pop n _ a (o_unlock_time o) (o_public_key o) (v_outs w a) o Hn Ha) as (n1 & ? & Hs & ? & ?);
        [by cbn; rewrite fn_lookup_insert|done..|].
      exists n1. split_and!; try done. eapply node_shows_proper; [done| |exact Hs]. split; [done|].
      intros a'. cbn. destruct (decide (a = a')) as [<-|]; [by rewrite fn_lookup_insert|by rewrite !fn_lookup_insert_ne]. }
  destruct (IH n1 Hs1 Hes) as (n2 & Hf & Hs2 & Hk2 & Hp2).
  exists n2. rewrite rev_unit. cbn [for_each]. rewrite Hu. cbn [mbind result_bind].
  split_and!; [done|done|by etrans|congruence].
Qed.

End undo.

(** ** When a block's effects can be done *)

(** The block's key images are new and distinct, its outputs in range, and
    the outputs that rings of one member name exist and are spent once. *)
Record fits (v : view) (es : list effect) : Prop := {
  fit_keys_distinct : NoDup (stores es);
  fit_keys ki h : EStore ki h ∈ es → ki_ok ki ∧ in_u 32 h ∧ v_keys v ki = None;
  fit_pushes a o : EPush a o ∈ es → output_ok a o ∧ o_spent o = false;
  fit_room a : Z.of_nat (length (v_outs v a) + length (pushes es)) < 2 ^ 32;
  fit_spends_distinct : NoDup (spends es);
  fit_spends a gi : ESpend a gi ∈ es → in_u 64 a ∧ in_u 32 gi ∧
    ∃ o, v_outs v a !! Z.to_nat gi = Some o ∧ o_spent o = false;
}.

Lemma fits_effects_ok v es : fits v es → effects_ok v es.
Proof.
  revert v. induction es as [|e es IH]; intros v [Hkd Hk Hp Hr Hsd Hs]; [done|].
  assert (effect_ok v e) as He.
  { destruct e as [a gi|ki h|a o]; cbn.
    - destruct (Hs a gi) as (? & ? & o & Ho & Hun); [by left|]. split_and!; [done..|]. intros o' Ho'.
      rewrite Ho in Ho'. by injection Ho' as <-.
    - apply Hk. by left.
    - destruct (Hp a o) as [? ?]; [by left|]. split_and!; [done..|]. specialize (Hr a).
      cbn [pushes omap list_omap push_of length] in Hr. lia. }
  split; [done|]. apply IH. destruct e as [a gi|ki h|a o]; split; cbn [v_effect v_keys v_outs v_store v_push v_spend].
  - done.
  - intros ki' h' Hin. apply Hk. by right.
  - intros a' o' Hin. apply Hp. by right.
  - intros a'. specialize (Hr a'). destruct (decide (a = a')) as [<-|]; [by rewrite fn_lookup_alter, length_alter|].
    by rewrite fn_lookup_alter_ne.
  - by apply NoDup_cons in Hsd as [_ ?].
  - apply NoDup_cons in Hsd as [Hnot _]. intros a' gi' Hin. destruct (Hs a' gi') as (? & Hg' & o & Ho & Hun); [by right|].
    destruct (Hs a gi) as (_ & Hg & _); [by left|]. split_and!; [done..|]. exists o. split; [|done].
    destruct (decide (a = a')) as [<-|]; [|by rewrite fn_lookup_alter_ne]. rewrite fn_lookup_alter.
    rewrite list_lookup_alter_ne; [done|]. intros Heq. apply Hnot. apply list_elem_of_omap.
    exists (ESpend a gi'). split; [done|]. cbn. unfold in_u in *. do 2 f_equal. lia.
  - by apply NoDup_cons in Hkd as [_ ?].
  - intros ki' h' Hin. destruct (Hk ki' h') as (? & ? & ?); [by right|]. split_and!; [done..|].
    apply NoDup_cons in Hkd as [Hnot _]. rewrite fn_lookup_insert_ne; [done|]. intros ->.
    apply Hnot, list_elem_of_omap. by exists (EStore ki' h').
  - intros a' o' Hin. apply Hp. by right.
  - apply Hr.
  - done.
  - intros a' gi' Hin. apply Hs. by right.
  - done.
  - intros ki' h' Hin. apply Hk. by right.
  - intros a' o' Hin. apply Hp. by right.
  - intros a'. specialize (Hr a'). cbn [pushes omap list_omap push_of length] in Hr. fold (pushes es) in Hr.
    destruct (decide (a = a')) as [<-|].
    + rewrite fn_lookup_insert, length_app. cbn. lia.
    + rewrite fn_lookup_insert_ne by done. lia.
  - done.
  - intros a' gi' Hin. destruct (Hs a' gi') as (? & Hg' & o' & Ho' & Hun); [by right|]. split_and!; [done..|].
    exists o'. split; [|done]. destruct (decide (a = a')) as [<-|]; [|by rewrite fn_lookup_insert_ne].
    rewrite fn_lookup_insert. by apply lookup_app_l_Some.
Qed.

Lemma fits_targets v es : fits v es → targets v (spends es).
Proof.
  intros Hf a gi ([a' gi'| |] & Hin & [= <- <-])%list_elem_of_omap.
  destruct (fit_spends _ _ Hf _ _ Hin) as (_ & _ & o & Ho & _). by eapply lookup_lt_Some.
Qed.

(** ** The key images that pass through a delta *)

(** The key images of a delta after some [kis] were stored in it
    under height [h]. *)
Definition grown {S} (h : Height) (d d' : DeltaState S) (kis : list KeyImage) : Prop :=
  NoDup kis ∧ (∀ ki, ki ∈ kis → m_keyimages d !! ki = None) ∧
  (∀ ki, is_Some (m_keyimages d' !! ki) ↔ ki ∈ kis ∨ is_Some (m_keyimages d !! ki)) ∧
  (∀ ki x, m_keyimages d' !! ki = Some x → x = h ∨ m_keyimages d !! ki = Some x) ∧
  m_block_height d' = m_block_height d.

Lemma grown_refl {S} h (d d' : DeltaState S) : m_keyimages d' = m_keyimages d →
  m_block_height d' = m_block_height d → grown h d d' [].
Proof.
  intros Hk Hh. split_and!; [by constructor|by intros ki ?%elem_of_nil| |rewrite Hk; by right|done].
  intros ki. rewrite Hk. split; [by right|]. by intros [?%elem_of_nil|].
Qed.

Lemma grown_trans {S} h (d1 d2 d3 : DeltaState S) kis kis' :
  grown h d1 d2 kis → grown h d2 d3 kis' → grown h d1 d3 (kis ++ kis').
Proof.
  intros (Hn & Hf & Hs & Hx & Hh) (Hn' & Hf' & Hs' & Hx' & Hh'). split_and!.
  - apply NoDup_app. split_and!; [done| |done]. intros ki Hin Hin'.
    assert (is_Some (m_keyimages d2 !! ki)) as [x Hx0] by (apply Hs; by left). by rewrite Hf' in Hx0.
  - intros ki [Hin|Hin]%elem_of_app; [by apply Hf|]. apply eq_None_not_Some. intros Hsome.
    assert (is_Some (m_keyimages d2 !! ki)) as [x Hx0] by (apply Hs; by right). by rewrite Hf' in Hx0.
  - intros ki. rewrite Hs', Hs, elem_of_app. naive_solver.
  - intros ki x [->|Hx2]%Hx'; [by left|by apply Hx].
  - congruence.
Qed.

Lemma grown_store {S} `{IBlockChainState S} (d d' : DeltaState S) ki h :
  Delta.store_keyimage d ki h = Ok d' → grown h d d' [ki].
Proof.
  unfold Delta.store_keyimage. intros Hst. inv_ok Hst. apply bool_decide_eq_true in Ha. injection Hst as <-.
  split_and!; [apply NoDup_singleton|by intros ki' ->%list_elem_of_singleton| | |done].
  - intros ki'. cbn. rewrite list_elem_of_singleton. destruct (decide (ki = ki')) as [<-|Hne].
    + rewrite lookup_insert_eq. split; [by left|by eexists].
    + rewrite lookup_insert_ne by done. naive_solver.
  - intros ki' x. cbn. intros [[_ <-]|[_ Hl]]%lookup_insert_Some; auto.
Qed.

Lemma grown_push {S} `{IBlockChainState S} x (d d' : DeltaState S) a u h pk gi :
  Delta.push_amount_output d a u h pk = Ok (d', gi) → grown x d d' [].
Proof. unfold Delta.push_amount_output. intros Hp. inv_ok Hp. injection Hp as <- <-. by apply grown_refl. Qed.

(** A loop whose every step grows the delta. *)
Lemma grown_for_each {S B} h (f : DeltaState S → B → result (DeltaState S)) (k : B → list KeyImage) l d d' :
  (∀ d d' b, b ∈ l → f d b = Ok d' → grown h d d' (k b)) → for_each f l d = Ok d' →
  grown h d d' (concat (k <$> l)).
Proof.
  revert d. induction l as [|b l IH]; intros d Hstep Hf; [injection Hf as <-; by apply grown_refl|].
  cbn [for_each fmap list_fmap concat] in *. inv_ok Hf. eapply grown_trans; [apply Hstep; [by left|done]|].
  apply IH; [|done]. intros e e' b' Hb'. apply Hstep. by right.
Qed.

Lemma concat_nil {A B} (l : list B) : concat ((λ _, [] : list A) <$> l) = [].
Proof. by induction l. Qed.
Lemma concat_singleton {A B} (f : B → A) (l : list B) : concat ((λ b, [f b]) <$> l) = f <$> l.
Proof. induction l as [|b l IH]; [done|]. cbn. by f_equal. Qed.

Lemma redo_outputs_grown {S} `{IBlockChainState S} x u outs (td td' : DeltaState (DeltaState S)) gis :
  redo_outputs u outs td = Ok (td', gis) → grown x td td' [].
Proof.
  revert td gis. induction outs as [|[a [key]] outs IH]; intros td gis Hr.
  - injection Hr as <- <-. by apply grown_refl.
  - cbn [redo_outputs out_target out_amount] in Hr. inv_ok Hr. destruct a0 as [td1 gi].
    inv_ok Hr. destruct a0 as [td2 gis']. injection Hr as <- <-. apply IH in Ha0.
    exact (grown_trans _ _ _ _ _ _ (grown_push x td td1 a u 0 key gi Ha) Ha0).
Qed.

Lemma apply_grown {S Q} `{IBlockChainState S} h (td : DeltaState Q) (d d' : DeltaState S) :
  (∀ ki x, m_keyimages td !! ki = Some x → x = h) →
  Delta.apply td d = Ok d' → grown h d d' (map_entries (m_keyimages td)).*1.
Proof.
  unfold Delta.apply. intros Hh Hap. inv_ok Hap.
  apply (grown_for_each h _ (λ e, [e.1])) in Ha.
  2: { intros ? ? [ki x] Hin%elem_of_map_entries. rewrite (Hh _ _ Hin). apply grown_store. }
  apply (grown_for_each h _ (λ _, [])) in Ha0.
  2: { intros p p' [am els] _ Hf. apply (grown_for_each h _ (λ _, [])) in Hf; [by rewrite concat_nil in Hf|].
       intros q q' [u pk] _ Hq. inv_ok Hq. destruct a1 as [q1 gi]. injection Hq as <-. exact (grown_push h q q1 am u (m_block_height td) pk gi Ha1). }
  apply (grown_for_each h _ (λ _, [])) in Hap.
  2: { intros p p' [am gi] _ Hf. injection Hf as <-. by apply grown_refl. }
  rewrite concat_nil in Ha0. rewrite concat_nil in Hap. rewrite concat_singleton in Ha.
  pose proof (grown_trans _ _ _ _ _ _ (grown_trans _ _ _ _ _ _ Ha Ha0) Hap) as Hg. by rewrite !app_nil_r in Hg.
Qed.

(** ** Redoing and undoing a block *)

Section node.
Context {D : Type} `{LmdbLaws D}.

Lemma store_shows_other (s : Store.Store D) v k x d' :
  Store.store_shows s v → Store.other_key k → bytes k → written (Store.m_db s) k x d' →
  Store.store_shows (Store.with_db s d') v.
Proof.
  intros Hs [Hki Hout] Hb Hw. destruct Hs as [Hsz Hby Hk Hh Ho Honly Hc Hl Hok].
  split; cbn [Store.m_db Store.m_next_gi_for_amount Store.with_db]; try done.
  - by rewrite (proj1 Hw).
  - intros k'. rewrite (written_stored _ _ _ _ _ Hw). intros [[-> _]|[_ Hst]]; [done|by apply Hby].
  - intros ki Hkk. rewrite (proj2 Hw), decide_False; [by apply Hk|]. intros <-. by apply (Hki ki).
  - intros a gi Ha Hg. rewrite (proj2 Hw), decide_False; [by apply Ho|]. intros <-.
    rewrite Store.output_key_prefix in Hout. by eapply Hout.
  - intros k'. rewrite (written_stored _ _ _ _ _ Hw). intros [[Heq _]|[_ Hst]]; [|by apply Honly].
    by destruct (Hout k').
Qed.

Lemma node_shows_other (n : Node D) v k x d' version :
  node_shows n v → Store.other_key k → bytes k → written (Store.m_db (store n)) k x d' →
  node_shows {| store := Store.with_db (store n) d'; pool := with_version (pool n) version |} v.
Proof.
  intros [Hs Hp Hu] Ho Hb Hw. split; [by eapply store_shows_other| |done]. destruct Hp. by split.
Qed.

Lemma block_key_other bid : Store.other_key (block_indices_key bid).
Proof. by split. Qed.

Definition hash_ok (h : Hash) : Prop := bytes h ∧ length h = 32%nat.

Lemma block_key_ok bid (n : Node D) v : hash_ok bid → node_shows n v →
  bytes (block_indices_key bid) ∧ key_ok (Store.m_db (store n)) (block_indices_key bid).
Proof.
  intros [Hb Hl] Hn. unfold block_indices_key. split.
  - rewrite !bytes_app. split_and!; [by apply (bool_decide_unpack _)|done|by apply (bool_decide_unpack _)].
  - apply Store.key_ok_small; [apply (Store.st_size _ _ (nd_store _ _ Hn))|]. rewrite !length_app, Hl.
    change (length (chars "b")) with 1%nat. change (length (chars "g")) with 1%nat. lia.
Qed.

Global Instance ser_BlockGlobalIndices_laws : CodecLaws ser_BlockGlobalIndices.
Proof. unfold ser_BlockGlobalIndices. apply _. Qed.

Definition counts_ok (txs : list Transaction) : Prop :=
  in_u 64 (Z.of_nat (length txs)) ∧ Forall (λ tx, in_u 64 (Z.of_nat (length (outputs (tx_prefix tx))))) txs.

Lemma new_indices_range v es : effects_fit v es → Forall (in_u 32) (new_indices v es).
Proof.
  revert v. induction es as [|e es IH]; intros v; [by constructor|]. intros [He Hes]. cbn.
  apply Forall_app. split; [|by apply IH]. destruct e as [| |a o]; [done|done|].
  apply Forall_singleton. destruct He as [_ Hl]. unfold in_u. lia.
Qed.

Lemma length_new_indices v h tx : length (new_indices v (tx_effects h tx)) = length (outputs (tx_prefix tx)).
Proof.
  unfold tx_effects. rewrite new_indices_app, new_indices_inputs. cbn [app].
  generalize (foldl v_effect v (concat (input_effects h <$> inputs (tx_prefix tx)))) as w.
  induction (outputs (tx_prefix tx)) as [|o outs IH]; intros w; [done|]. cbn. f_equal. apply IH.
Qed.

Lemma new_indices_ok h v txs : counts_ok txs → effects_fit v (concat (tx_effects h <$> txs)) →
  c_ok ser_BlockGlobalIndices (new_indices_txs h v txs).
Proof.
  intros [Hc Hall] Hfit. split.
  - clear Hall Hfit. replace (length (new_indices_txs h v txs)) with (length txs); [done|].
    clear Hc. revert v. induction txs as [|tx txs IH]; intros v; [done|]. cbn. f_equal. apply IH.
  - clear Hc. revert v Hall Hfit. induction txs as [|tx txs IH]; intros v Hall Hfit; [by constructor|].
    apply Forall_cons in Hall as [Htx Hall]. cbn [fmap list_fmap concat] in Hfit.
    apply effects_fit_app in Hfit as [Hf1 Hf2]. constructor; [|by apply IH].
    split; [by rewrite length_new_indices|]. by apply new_indices_range.
Qed.

Lemma encoding_ok_block v h block : counts_ok (block_txs block) → effects_fit v (block_effects h block) →
  ∃ ba, to_binary ser_BlockGlobalIndices (new_indices_txs h v (block_txs block)) = Ok ba.
Proof.
  intros Hc Hfit. pose proof (new_indices_ok h v _ Hc Hfit) as Hok.
  destruct (from_to_binary _ _ Hok) as (ba & Hba & _). by exists ba.
Qed.

End node.

Section block.
Context {D : Type} `{LmdbLaws D} (currency : Currency) (cn_fast_hash : list Z → Hash).
Variable check_ring_signature : RingSignatureArg → bool * bool.

(** The rings of the block are signed, or it is below a checkpoint. *)
Definition signed (n : Node D) (block : Block) (height : Height) (timestamp : Timestamp) : Prop :=
  is_in_sw_checkpoint_zone currency (u32 (height + 1)) = Ok true ∨
  is_in_sw_checkpoint_zone currency (u32 (height + 1)) = Ok false ∧
  ∃ args, ring_jobs currency cn_fast_hash n (block_transactions block) height timestamp = Ok (inr args) ∧
    forallb (λ arg, (check_ring_signature arg).1) args = true.

Lemma redo_block_ok (n : Node D) v bid block h t :
  node_shows n v → in_u 32 h → hash_ok bid → get (Store.m_db (store n)) (block_indices_key bid) = None →
  fits v (block_effects h block) → counts_ok (block_txs block) → signed n block h t →
  ∃ n' ba, redo_block currency cn_fast_hash check_ring_signature n bid block h t = Ok (Some n') ∧
    node_shows n' (foldl v_effect v (block_effects h block)) ∧
    to_binary ser_BlockGlobalIndices (new_indices_txs h v (block_txs block)) = Ok ba ∧
    (∀ k, Store.other_key k → get (Store.m_db (store n')) k =
       if decide (k = block_indices_key bid) then Some ba else get (Store.m_db (store n)) k).
Proof.
  intros Hn Hh Hbid Hfree Hfits Hc Hsig.
  pose proof (effects_ok_fit _ _ (fits_effects_ok _ _ Hfits)) as Hfit.
  unfold redo_block. set (delta := Delta.make_DeltaState h t n).
  assert (delta_shows delta v) as Hds by (by apply (make_shows (P := Node D))).
  destruct (redo_transactions_reached currency cn_fast_hash check_ring_signature (block_txs block) delta v Hds Hh Hfit)
    as (d1 & Hr & Hs1 & (Hbh & _ & Hpar) & Hsp). unfold block_txs in Hr.
  cbn [delta Delta.make_DeltaState m_block_height m_parent_state m_spent_outputs app] in *.
  destruct (apply_to_parent d1 _ Hs1 eq_refl) as (n1 & Hap & Hs2 & Hk2 & _).
  rewrite Hpar in Hap, Hk2. rewrite Hsp in Hs2. cbn in Hs2.
  rewrite (spends_at_end _ _ (fits_targets _ _ Hfits)) in Hs2.
  destruct (encoding_ok_block v h block Hc Hfit) as (ba & Hba).
  destruct (block_key_ok bid n1 _ Hbid Hs2) as [Hkb Hko].
  destruct (put_ok (Store.m_db (store n1)) (block_indices_key bid) ba true Hko) as (d2 & Hput & Hw).
  { intros _. by rewrite (proj2 Hk2 _ (block_key_other bid)). }
  eexists _, ba. split.
  - destruct Hsig as [Hz|(Hz & args & Hjobs & Hvalid)]; rewrite Hz; cbn [mbind result_bind negb].
    + rewrite Hr. cbn [mbind result_bind andb]. rewrite Hap. cbn [mbind result_bind].
      unfold block_txs in Hba. rewrite Hba. cbn [mbind result_bind]. by rewrite Hput.
    + rewrite Hjobs. cbn [mbind result_bind]. rewrite Hr. cbn [mbind result_bind]. rewrite Hvalid. cbn [negb andb].
      rewrite Hap. cbn [mbind result_bind]. unfold block_txs in Hba. rewrite Hba. cbn [mbind result_bind].
      by rewrite Hput.
  - split; [by eapply node_shows_other; [exact Hs2|apply block_key_other|done|]|].
    split; [done|]. intros k Hk. cbn [store Store.m_db Store.with_db]. rewrite (proj2 Hw). case_decide; [done|]. by apply (proj2 Hk2).
Qed.

Lemma undo_block_ok (n : Node D) v bid block h :
  node_shows n (foldl v_effect v (block_effects h block)) → effects_ok v (block_effects h block) → hash_ok bid →
  is_Some (get (Store.m_db (store n)) (block_indices_key bid)) →
  ∃ n', undo_block n bid block = Ok n' ∧ node_shows n' v ∧ pool n' = pool n ∧
    (∀ k, Store.other_key k → get (Store.m_db (store n')) k =
       if decide (k = block_indices_key bid) then None else get (Store.m_db (store n)) k).
Proof.
  intros Hn Hok Hbid Hst. destruct (undo_effects_ok _ _ n Hn Hok) as (n2 & Hu & Hn2 & Hk2 & Hp2).
  destruct (block_key_ok bid n2 v Hbid Hn2) as [Hkb Hko].
  destruct (del_ok (Store.m_db (store n2)) (block_indices_key bid) true Hko) as (d & Hdel & Hw).
  { intros _. rewrite <- (proj2 Hk2 _ (block_key_other bid)) in Hst. exact Hst. }
  exists (with_store n2 (Store.with_db (store n2) d)). split_and!.
  - rewrite (undo_block_effects h), Hu. cbn [mbind result_bind]. by rewrite Hdel.
  - destruct (node_shows_other n2 v (block_indices_key bid) None d (m_tx_pool_version (pool n2)) Hn2
      (block_key_other bid) Hkb Hw) as [Hs _ _].
    split; [exact Hs|apply (nd_pool _ _ Hn2)|apply (nd_unspent _ _ Hn2)].
  - exact Hp2.
  - intros k Hk. cbn [with_store store Store.m_db Store.with_db]. rewrite (proj2 Hw).
    case_decide as Heq; [done|]. by rewrite (proj2 Hk2 k Hk).
Qed.

(** ** A block that is accepted spends nothing twice *)

Lemma redo_inputs_grown {S} `{IBlockChainState S} checked prefix_hash sigs h t i ins (td td' : DeltaState (DeltaState S)) c c' :
  redo_inputs currency check_ring_signature checked prefix_hash sigs h t i ins td c = Ok (inr td', c') →
  grown h td td' (omap key_image_of ins).
Proof.
  revert td c i. induction ins as [|[bi|a idx ki] ins IH]; intros td c i Hr.
  - injection Hr as <- <-. by apply grown_refl.
  - cbn in *. by eapply IH.
  - cbn [redo_inputs] in Hr. inv_ok Hr. destruct a0 as [[e|] c1]; [done|]. inv_ok Hr.
    assert (grown h td a0 []) as Hg1.
    { destruct idx as [|gi [|gi' idx]]; [by injection Ha0 as <-; apply grown_refl| |by injection Ha0 as <-; apply grown_refl].
      injection Ha0 as <-. by apply grown_refl. }
    apply grown_store in Ha1. apply IH in Hr.
    exact (grown_trans _ _ _ _ _ _ (grown_trans _ _ _ _ _ _ Hg1 Ha1) Hr).
Qed.

Lemma stores_tx_effects h tx : stores (tx_effects h tx) = key_images (tx_prefix tx).
Proof.
  unfold tx_effects, stores, key_images. rewrite omap_app.
  assert (omap key_of (output_effect h (unlock_time (tx_prefix tx)) <$> outputs (tx_prefix tx)) = []) as ->
    by (by induction (outputs (tx_prefix tx))).
  rewrite app_nil_r. induction (inputs (tx_prefix tx)) as [|[bi|a [|gi [|gi' idx]] ki] ins IH]; [done|..];
    cbn [fmap list_fmap concat input_effects app omap list_omap key_of key_image_of]; by rewrite ?IH.
Qed.

Lemma grown_perm {S} h (d d' : DeltaState S) kis kis' : kis ≡ₚ kis' → grown h d d' kis → grown h d d' kis'.
Proof.
  intros Hp (Hn & Hf & Hs & Hx & Hh). split_and!; [by rewrite <- Hp| | |done|done]; setoid_rewrite <- Hp; done.
Qed.

Lemma redo_transaction_grown {S} `{IBlockChainState S} checked tx (d d' : DeltaState S) gis c :
  redo_transaction currency cn_fast_hash check_ring_signature tx d checked = Ok (inr (d', gis), c) →
  grown (m_block_height d) d d' (key_images (tx_prefix tx)).
Proof.
  unfold redo_transaction. set (td := Delta.make_DeltaState _ _ d). intros Hr. inv_ok Hr.
  inv_ok Hr. destruct a0 as [[e|td1] c1]; [done|]. inv_ok Hr. destruct a0 as [td2 gis2]. inv_ok Hr. injection Hr as <- <- <-.
  apply redo_inputs_grown in Ha0. apply (redo_outputs_grown (m_block_height d)) in Ha1.
  pose proof (grown_trans _ _ _ _ _ _ Ha0 Ha1) as (Hnd & _ & Hsome & Hx & _). rewrite app_nil_r in *.
  apply (apply_grown (m_block_height d)) in Ha2.
  2: { intros ki x [->|Hl]%Hx; [done|]. cbn in Hl. by rewrite lookup_empty in Hl. }
  eapply grown_perm; [|exact Ha2]. apply NoDup_Permutation; [apply NoDup_map_entries|done|].
  intros ki. rewrite list_elem_of_fmap. split.
  - intros ([k x] & -> & Hin%elem_of_map_entries). cbn. assert (is_Some (m_keyimages td2 !! k)) as Hk by (by eexists).
    apply Hsome in Hk as [?|[y Hy]]; [done|]. cbn in Hy. by rewrite lookup_empty in Hy.
  - intros Hin. assert (is_Some (m_keyimages td2 !! ki)) as [x Hx0] by (apply Hsome; by left).
    exists (ki, x). split; [done|]. by apply elem_of_map_entries.
Qed.

Definition txs_key_images (txs : list Transaction) : list KeyImage := concat ((λ tx, key_images (tx_prefix tx)) <$> txs).

Lemma redo_transactions_grown {S} `{IBlockChainState S} txs (d d' : DeltaState S) gis :
  redo_transactions currency cn_fast_hash check_ring_signature txs d = Ok (Some (d', gis)) →
  grown (m_block_height d) d d' (txs_key_images txs).
Proof.
  revert d gis. induction txs as [|tx txs IH]; intros d gis Hr; [injection Hr as <- _; by apply grown_refl|].
  cbn [redo_transactions] in Hr. inv_ok Hr. destruct a as [[e|[d1 gis1]] c]; [done|]. inv_ok Hr.
  destruct a as [[d2 gis2]|]; [|done]. injection Hr as <- _.
  apply redo_transaction_grown in Ha. apply IH in Ha0. destruct Ha as (? & ? & ? & ? & Hh).
  rewrite Hh in Ha0. by eapply grown_trans.
Qed.

(** Storing succeeds for fresh key images only. *)
Lemma stores_fresh l (n n' : Node D) v :
  node_shows n v → (∀ e, e ∈ l → ki_ok e.1 ∧ in_u 32 e.2) →
  for_each (λ p '(ki, height), ChainState.store_keyimage p ki height) l n = Ok n' →
  ∀ e, e ∈ l → v_keys v e.1 = None.
Proof.
  revert n v. induction l as [|[ki h] l IH]; intros n v Hn Hok Hf e Hin; [by apply elem_of_nil in Hin|].
  cbn [for_each] in Hf. inv_ok Hf. destruct (Hok (ki, h)) as [Hki Hh]; [by left|]. cbn in Hki, Hh.
  destruct (v_keys v ki) as [x|] eqn:Hv.
  - exfalso. clear IH. change (store_keyimage n ki h = Ok a) in Ha. unfold store_keyimage in Ha.
    pose proof (Store.store_twice (store n) v ki h x (nd_store _ _ Hn) Hki Hh Hv) as Ht. rewrite Ht in Ha. done.
  - destruct (node_store_keyimage n v ki h Hn Hki Hh Hv) as (n1 & Hst & Hn1 & _).
    change (store_keyimage n ki h = Ok a) in Ha. rewrite Hst in Ha. injection Ha as <-.
    apply elem_of_cons in Hin as [->|Hin]; [done|].
    assert (v_keys (v_store ki (Some h) v) e.1 = None) as Hk.
    { eapply IH; [exact Hn1| |exact Hf|done]. intros e' He'. apply Hok. by right. }
    cbn in Hk. destruct (decide (ki = e.1)) as [<-|Hne]; [done|]. by rewrite fn_lookup_insert_ne in Hk.
Qed.

End block.

(** ** Properties *)

Section shown.
Context {D : Type} `{LmdbLaws D}.

Lemma shown_same (n n' : Node D) v w : node_shows n v → node_shows n' w → v ≡ w →
  (∀ ki, ki_ok ki → ChainState.read_keyimage n' ki = ChainState.read_keyimage n ki) ∧
  (∀ a gi, in_u 64 a → in_u 32 gi →
     ChainState.read_amount_output n' a gi = ChainState.read_amount_output n a gi).
Proof.
  intros Hn Hn' [Hk Ho]. split.
  - intros ki Hki. rewrite (shows_read_keyimage n v), (shows_read_keyimage n' w) by done. by rewrite Hk.
  - intros a gi Ha Hg. rewrite (shows_read_output n v), (shows_read_output n' w) by done. by rewrite Ho.
Qed.

Lemma stores_keys v es : (∀ ki h h', EStore ki h ∈ es → EStore ki h' ∈ es → h = h') →
  ∀ ki h, EStore ki h ∈ es → v_keys (foldl v_effect v es) ki = Some h.
Proof.
  induction es as [|e es IH] using rev_ind; intros Hu ki h Hin; [by apply elem_of_nil in Hin|].
  rewrite foldl_app. cbn [foldl].
  assert (EStore ki h ∈ es → v_keys (foldl v_effect v es) ki = Some h) as IH'.
  { apply IH. intros ki' x y Hx Hy. apply (Hu ki'); apply elem_of_app; by left. }
  destruct e as [a gi|ki' h'|a o]; cbn.
  - apply IH'. by apply elem_of_app in Hin as [?|?%list_elem_of_singleton].
  - destruct (decide (ki' = ki)) as [->|Hne].
    + rewrite fn_lookup_insert. f_equal. apply (Hu ki); [|done]. apply elem_of_app. right. by left.
    + rewrite fn_lookup_insert_ne by done. apply IH'.
      apply elem_of_app in Hin as [?|Heq%list_elem_of_singleton]; [done|]. injection Heq as -> ->. done.
  - apply IH'. by apply elem_of_app in Hin as [?|?%list_elem_of_singleton].
Qed.

Lemma elem_of_concat {A} (x : A) ls : x ∈ concat ls ↔ ∃ l, l ∈ ls ∧ x ∈ l.
Proof. setoid_rewrite list_elem_of_In. apply in_concat. Qed.

Lemma stored_height h block ki x : EStore ki x ∈ block_effects h block → x = h.
Proof.
  unfold block_effects, tx_effects. intros (es & (tx & -> & _)%list_elem_of_fmap & Hin)%elem_of_concat.
  apply elem_of_app in Hin as [(es & (i & -> & _)%list_elem_of_fmap & Hin)%elem_of_concat|Hin].
  - destruct i as [|a [|gi [|gi' idx]] k]; cbn in Hin; [by apply elem_of_nil in Hin|..]; set_solver.
  - apply list_elem_of_fmap in Hin as (o & Heq & _). done.
Qed.

Lemma stores_block_effects h block : stores (block_effects h block) = txs_key_images (block_txs block).
Proof.
  unfold block_effects, txs_key_images. induction (block_txs block) as [|tx txs IH]; [done|].
  cbn [fmap list_fmap concat]. rewrite <- IH, <- (stores_tx_effects h). unfold stores. by rewrite omap_app.
Qed.

(** A node of the test network with one output, and a block that spends it. *)
Definition testnet : Currency :=
  ltac:(let r := eval vm_compute in (make_Currency zero_hash true) in
        match r with Ok ?c => exact c end).
Definition empty_node : Node memory_db := {| store := Store.empty_store; pool := empty_pool |}.
Definition sample_output : Output :=
  {| o_unlock_time := 7; o_public_key := replicate 32 9; o_height := 3; o_spent := false |}.
Definition funded_node : Node memory_db :=
  ltac:(let r := eval vm_compute in (push_amount_output empty_node 1000000 7 3 (replicate 32 9)) in
        match r with Ok (?n, _) => exact n end).
Definition spending_tx : Transaction := {|
  tx_prefix := {| version := 1; unlock_time := 0; inputs := [KeyInput 1000000 [0] (replicate 32 5)];
    outputs := [{| out_amount := 900000; out_target := KeyOutput (replicate 32 6) |}]; extra := [] |};
  signatures := [[replicate 64 4]] |}.
Definition sample_block : Block := {| block_header := sample_template; block_transactions := [spending_tx] |}.
Definition sample_check (arg : RingSignatureArg) : bool * bool :=
  (bool_decide (arg_output_keys arg = [replicate 32 9]), false).

Lemma empty_node_shows : node_shows empty_node Store.empty_view.
Proof.
  split; [apply Store.empty_store_shows|apply empty_pool_ok|done].
Qed.

Lemma funded_node_shows : node_shows funded_node (v_push 1000000 sample_output Store.empty_view).
Proof.
  destruct (node_push empty_node Store.empty_view 1000000 7 3 (replicate 32 9)) as (n' & Hp & Hn & _).
  - apply empty_node_shows.
  - by split; [|by apply (bool_decide_unpack _)].
  - done.
  - assert (push_amount_output empty_node 1000000 7 3 (replicate 32 9) = Ok (funded_node, 0)) as Hf by reflexivity.
    rewrite Hf in Hp. injection Hp as ->. exact Hn.
Qed.

Definition sample_effects : list effect := [
  EPush 5 {| o_unlock_time := 70; o_public_key := replicate 32 3; o_height := 50; o_spent := false |};
  ESpend 1000000 0; EStore (replicate 32 5) 50;
  EPush 900000 {| o_unlock_time := 0; o_public_key := replicate 32 6; o_height := 50; o_spent := false |}].

Lemma sample_block_fits : fits (v_push 1000000 sample_output Store.empty_view) (block_effects 50 sample_block).
Proof.
  change (block_effects 50 sample_block) with sample_effects.
  assert (∀ e, e ∈ sample_effects → match e with
    | ESpend a gi => a = 1000000 ∧ gi = 0
    | EStore ki h => ki = replicate 32 5 ∧ h = 50
    | EPush a o => in_u 64 a ∧ c_ok ser_Output o ∧ o_spent o = false
    end) as He.
  { apply Forall_forall. unfold sample_effects. repeat constructor; by apply (bool_decide_unpack _). }
  split.
  - apply NoDup_singleton.
  - intros ki h' [-> ->]%He. by split_and!; [apply (bool_decide_unpack _)|..].
  - by intros a o (? & ? & ?)%He.
  - intros a. cbn. destruct (decide (1000000 = a)) as [<-|Hne].
    + by rewrite fn_lookup_insert.
    + by rewrite fn_lookup_insert_ne.
  - apply NoDup_singleton.
  - intros a gi [-> ->]%He. split_and!; [done|done|]. exists sample_output. cbn. by rewrite fn_lookup_insert.
Qed.

End shown.

Section properties.
Context {D : Type} `{LmdbLaws D} (currency : Currency) (cn_fast_hash : list Z → Hash).
Variable check_ring_signature : RingSignatureArg → bool * bool.

(** C31: Undoing a block takes back exactly what redoing it did.  From a node
    that shows [v], a block whose key images are new and distinct, whose spent
    outputs exist, are unspent and distinct, whose outputs are in range and
    whose rings are signed is redone; every key image of it then reads as
    spent at the block's height and the global indices of its outputs are
    stored under the block's hash.  Undoing the block then succeeds, reading a
    key image or an output gives what it gave before the block was redone,
    and so does every other key of the database. *)
Theorem redo_undo_block (n : Node D) v bid block h t :
  node_shows n v → in_u 32 h → hash_ok bid → get (Store.m_db (store n)) (block_indices_key bid) = None →
  fits v (block_effects h block) → counts_ok (block_txs block) →
  signed currency cn_fast_hash check_ring_signature n block h t →
  ∃ n1 n2,
    redo_block currency cn_fast_hash check_ring_signature n bid block h t = Ok (Some n1) ∧
    Forall (λ ki, ChainState.read_keyimage n1 ki = Ok (Some h)) (txs_key_images (block_txs block)) ∧
    read_block_output_global_indices n1 bid = Ok (Some (new_indices_txs h v (block_txs block))) ∧
    undo_block n1 bid block = Ok n2 ∧
    (∀ ki, ki_ok ki → ChainState.read_keyimage n2 ki = ChainState.read_keyimage n ki) ∧
    (∀ a gi, in_u 64 a → in_u 32 gi →
       ChainState.read_amount_output n2 a gi = ChainState.read_amount_output n a gi) ∧
    (∀ a, in_u 64 a →
       ChainState.next_global_index_for_amount n2 a = ChainState.next_global_index_for_amount n a) ∧
    (∀ k, Store.other_key k → get (Store.m_db (store n2)) k = get (Store.m_db (store n)) k).
Proof.
  intros Hn Hh Hbid Hfree Hfits Hc Hsig.
  destruct (redo_block_ok _ _ _ n v bid block h t Hn Hh Hbid Hfree Hfits Hc Hsig)
    as (n1 & ba & Hr & Hn1 & Hba & Hdb1).
  destruct (undo_block_ok n1 v bid block h Hn1 (fits_effects_ok _ _ Hfits) Hbid) as (n3 & Hu & Hn3 & _ & Hdb3).
  { rewrite (Hdb1 _ (block_key_other bid)), decide_True by done. by exists ba. }
  exists n1, n3. split_and!; [exact Hr|..].
  - apply Forall_forall. intros ki. rewrite <- (stores_block_effects h).
    intros ([|k x|] & Hin & [= ->])%list_elem_of_omap. pose proof (stored_height _ _ _ _ Hin) as ->.
    rewrite (shows_read_keyimage n1 (foldl v_effect v (block_effects h block)) ki)
      by (done || by apply (fit_keys _ _ Hfits ki h)).
    f_equal. apply stores_keys; [|done]. intros k x y Hx Hy.
    by rewrite (stored_height _ _ _ _ Hx), (stored_height _ _ _ _ Hy).
  - unfold read_block_output_global_indices. rewrite (Hdb1 _ (block_key_other bid)), decide_True by done.
    destruct (from_to_binary ser_BlockGlobalIndices (new_indices_txs h v (block_txs block))) as (ba' & Hba' & _ & Hfrom).
    { eapply new_indices_ok; [done|]. apply effects_ok_fit, fits_effects_ok, Hfits. }
    rewrite Hba in Hba'. injection Hba' as <-. by rewrite Hfrom.
  - exact Hu.
  - by apply (shown_same n n3 v v).
  - by apply (shown_same n n3 v v).
  - intros a Ha. by rewrite (shows_next n v a), (shows_next n3 v a).
  - intros k Hk. rewrite (Hdb3 k Hk). case_decide as Heq; [by rewrite Heq|]. by rewrite (Hdb1 k Hk), decide_False.
Qed.

(** C32: A block that is redone spends nothing twice: when redoing a block on
    a node that shows [v] succeeds, its key images, over all its transactions,
    are distinct, and none of them was spent in the chain before. *)
Theorem accepted_block_spends_fresh (n n' : Node D) v bid block h t :
  node_shows n v → in_u 32 h → Forall ki_ok (txs_key_images (block_txs block)) →
  redo_block currency cn_fast_hash check_ring_signature n bid block h t = Ok (Some n') →
  NoDup (txs_key_images (block_txs block)) ∧
  Forall (λ ki, ChainState.read_keyimage n ki = Ok None) (txs_key_images (block_txs block)).
Proof.
  intros Hn Hh Hkis Hr. unfold redo_block in Hr. inv_ok Hr. inv_ok Hr. destruct a0 as [e|args]; [done|].
  inv_ok Hr. destruct a0 as [[d1 gis]|]; [|done]. destruct (negb a && _); [done|]. inv_ok Hr.
  apply redo_transactions_grown in Ha1. destruct Ha1 as (Hnd & _ & Hsome & Hx & _).
  split; [exact Hnd|]. unfold Delta.apply in Ha2. inv_ok Ha2.
  assert (∀ ki x, m_keyimages d1 !! ki = Some x → x = h) as Hh1.
  { intros ki x [->|Hl]%Hx; [done|]. cbn in Hl. by rewrite lookup_empty in Hl. }
  assert (∀ ki, is_Some (m_keyimages d1 !! ki) ↔ ki ∈ txs_key_images (block_txs block)) as Hk.
  { intros ki. rewrite Hsome. cbn. rewrite lookup_empty. split; [by intros [?|[? ?]]|by left]. }
  rewrite Forall_forall in Hkis. apply Forall_forall. intros ki Hin.
  destruct (proj2 (Hk ki) Hin) as [x Hl].
  rewrite (shows_read_keyimage n v ki) by (done || by apply Hkis). f_equal.
  eapply (stores_fresh (map_entries (m_keyimages d1)) n _ v Hn) with (e := (ki, x));
    [|exact Ha1|by apply elem_of_map_entries].
  intros [k y] Hky%elem_of_map_entries. cbn in *. rewrite (Hh1 _ _ Hky). split; [|done]. apply Hkis, Hk. by eexists.
Qed.

End properties.

Lemma redo_undo_block_witness :
  ∃ n1 n2, redo_block testnet zero_hash sample_check funded_node (replicate 32 1) sample_block 50 1000 = Ok (Some n1) ∧
    ChainState.read_keyimage n1 (replicate 32 5) = Ok (Some 50) ∧
    undo_block n1 (replicate 32 1) sample_block = Ok n2 ∧
    ChainState.read_keyimage n2 (replicate 32 5) = ChainState.read_keyimage funded_node (replicate 32 5).
Proof.
  destruct (redo_undo_block testnet zero_hash sample_check funded_node
    (v_push 1000000 sample_output Store.empty_view) (replicate 32 1) sample_block 50 1000)
    as (n1 & n2 & Hr & Hk & _ & Hu & Hk2 & _).
  - apply funded_node_shows.
  - done.
  - split; [by apply (bool_decide_unpack _)|done].
  - reflexivity.
  - apply sample_block_fits.
  - by apply (bool_decide_unpack _).
  - right. split; [done|]. eexists. split; [reflexivity|done].
  - exists n1, n2. split_and!; [exact Hr|by apply Forall_cons in Hk as [? _]|exact Hu|].
    apply Hk2. by apply (bool_decide_unpack _).
Defined.

Definition accepted {A} (r : result (option A)) : bool :=
  match r with Ok (Some _) => true | _ => false end.
Lemma accepted_result {A} (r : result (option A)) : accepted r = true → ∃ x, r = Ok (Some x).
Proof. destruct r as [[x|]| |]; [by exists x|done..]. Qed.

Lemma accepted_block_spends_fresh_witness :
  NoDup [replicate 32 5 : KeyImage] ∧
  Forall (λ ki, ChainState.read_keyimage funded_node ki = Ok None) [replicate 32 5].
Proof.
  destruct (accepted_result
    (redo_block testnet zero_hash sample_check funded_node (replicate 32 1) sample_block 50 1000))
    as [n' Hr]; [by vm_compute|].
  eapply (accepted_block_spends_fresh testnet zero_hash sample_check funded_node n'
    (v_push 1000000 sample_output Store.empty_view) (replicate 32 1) sample_block 50 1000).
  - apply funded_node_shows.
  - clear Hr. done.
  - clear Hr. by apply (bool_decide_unpack _).
  - exact Hr.
Defined.

(** Two transactions of a block that spend the same key image are not refused:
    the second one makes [DeltaState::store_keyimage] throw, and the exception
    leaves [redo_block]. *)
Lemma double_spend_in_block_throws :
  redo_block testnet zero_hash sample_check funded_node (replicate 32 1)
    {| block_header := sample_template; block_transactions := [spending_tx; spending_tx] |} 50 1000
  = Throw "store_keyimage".
Proof. vm_compute. reflexivity. Qed.

End BlockLaws.
