(* ===== verification/NodeLaws.v ===== *)
(** * The node's pool: theorems about [add_transaction]

    A transaction that arrives from the network, however malformed, or that
    returns from a block taken off the main chain, gets a verdict, and the
    node stays well formed: the chain is untouched and the pool has no double
    spends, neither within it nor against the chain. *)

From stdpp Require Import functions.
From S2P Require Import Prelude Varint Containers Seria Text CryptoNote Amounts Blocks Currency Db ChainState Store Pool Redo BlockLaws.
Import Containers Codec CryptoNote Amounts Blocks Currency Db ChainState Pool.Pool Redo BlockLaws.

Local Open Scope Z_scope.

Module NodeLaws.

(** ** Ranges of a parsed transaction *)

Definition input_ok (i : TransactionInput) : Prop :=
  match i with
  | CoinbaseInput _ => True
  | KeyInput a output_indexes ki => in_u 64 a ∧ Forall (in_u 32) output_indexes ∧ ki_ok ki
  end.
Definition tx_output_ok (o : TransactionOutput) : Prop :=
  in_u 64 (out_amount o) ∧ match out_target o with KeyOutput key => c_ok ser_Hash key end.
Record ranges_ok (tx : Transaction) : Prop := {
  rg_inputs : Forall input_ok (inputs (tx_prefix tx));
  rg_outputs : Forall tx_output_ok (outputs (tx_prefix tx));
  rg_unlock : in_u 64 (unlock_time (tx_prefix tx));
}.

Lemma transaction_ranges tx : c_ok ser_Transaction tx → ranges_ok tx ∧ c_ok ser_TransactionPrefix (tx_prefix tx).
Proof.
  intros [Hp Hs]. split; [|exact Hp]. destruct tx as [p sigs]. cbn [tx_prefix] in *.
  destruct Hp as (_ & Hu & Hi & Ho & _). cbn in Hi, Ho. split; cbn.
  - destruct Hi as [_ Hi]. eapply Forall_impl; [exact Hi|]. intros [bi|a idx ki] Hok; [done|].
    destruct Hok as (Ha & [_ Hidx] & Hki). split_and!; [done|done|done].
  - destruct Ho as [_ Ho]. eapply Forall_impl; [exact Ho|]. intros [a [key]] Hok. destruct Hok as [Ha Hk]. by split.
  - exact Hu.
Qed.

(** ** Checking a transaction against a state *)

Section checked.
Context {S : Type} `{ChainStateLaws S} (currency : Currency) (cn_fast_hash : list Z → Hash).
Context (check_ring_signature : RingSignatureArg → bool * bool).

Lemma global_indexes_ok l : Forall (in_u 32) l → Forall (in_u 32) (global_indexes l).
Proof.
  destruct l as [|d l]; [done|]. intros [Hd _]%Forall_cons. cbn. constructor; [done|]. clear Hd. revert d.
  induction l as [|x l IH]; intros d; [constructor|]. cbn. constructor; [apply u32_bound|apply IH].
Qed.

(** A verdict for any ring, and a key image that passes is not spent. *)
Lemma ring_of_input_total {P} `{ChainStateLaws P} (state : P) v prefix_hash a idx ki sigs h t c :
  shows state v → input_ok (KeyInput a idx ki) →
  ∃ r c', ring_of_input currency state prefix_hash a idx ki (Some sigs) h t c = Ok (r, c') ∧
    ∀ arg, r = inr arg → v_keys v ki = None.
Proof.
  intros Hs (Ha & Hidx & Hki). unfold ring_of_input. rewrite (shows_read_keyimage state v ki Hs Hki). cbn [mbind result_bind].
  destruct (v_keys v ki) as [x|]; [by exists (inl "INPUT_KEYIMAGE_ALREADY_SPENT"%string), x|].
  case_bool_decide; [by eexists (inl _), c|].
  assert (∀ gis c, Forall (in_u 32) gis → ∃ r c', output_keys currency state a gis h t c = Ok (r, c')) as Hkeys.
  { clear c. intros gis c Hgis. revert c. induction Hgis as [|gi gis Hgi Hgis IH]; intros c; [by eexists _, _|].
    cbn [output_keys]. rewrite (shows_read_output state v a gi Hs Ha Hgi). cbn [mbind result_bind].
    destruct (v_outs v a !! Z.to_nat gi) as [unp|]; [|by eexists _, _]. cbv zeta.
    destruct (negb _); [by eexists _, _|]. destruct (IH (Z.max c (o_height unp))) as (r & c' & ->). cbn. by eexists _, _. }
  destruct (Hkeys (global_indexes idx) c) as ([e|keys] & c' & ->); [by apply global_indexes_ok|..]; cbn [mbind result_bind].
  - by exists (inl e), c'.
  - cbn. by eexists (inr _), c'.
Qed.

Lemma redo_inputs_checked prefix_hash sigs h t i ins (td : DeltaState (DeltaState S)) v c :
  delta_shows td v → m_block_height td = h → in_u 32 h → Forall input_ok ins →
  (i + length ins ≤ length sigs)%nat →
  ∃ r c', redo_inputs currency check_ring_signature true prefix_hash sigs h t i ins td c = Ok (r, c') ∧
    match r with inl _ => True | inr td' => reached td td' v (concat (input_effects h <$> ins)) end.
Proof.
  intros Hs Hh Hh32 Hins. revert td v i c Hs Hh. induction Hins as [|[bi|a idx ki] ins Hi Hins IH]; intros td v i c Hs Hh Hl.
  - exists (inr td), c. split; [done|]. split_and!; [done|done|by rewrite app_nil_r].
  - cbn [redo_inputs]. cbn [length] in Hl. apply IH; [done|done|lia].
  - cbn [redo_inputs fmap list_fmap concat]. cbn [length] in Hl.
    destruct (lookup_lt_is_Some_2 sigs i) as [sig Hsig]; [lia|]. rewrite Hsig.
    assert (shows td v) as Hsh by exact Hs.
    destruct (ring_of_input_total td v prefix_hash a idx ki sig h t c Hsh Hi) as (r & c1 & -> & Hn).
    cbn [mbind result_bind]. destruct r as [e|arg]; [by eexists (inl _), _|]. specialize (Hn arg eq_refl).
    assert (effects_fit v (concat (input_effects h <$> [KeyInput a idx ki]))) as Hfit.
    { destruct Hi as (Ha & Hidx & Hki). destruct idx as [|gi [|gi' idx]]; cbn [fmap list_fmap concat input_effects app effects_fit effect_fits];
      split_and!; try done.
      inversion Hidx; subst. assumption. }
    destruct (check_ring_signature arg) as [[|] [|]]; try by eexists (inl _), _.
    all: destruct (redo_inputs_reached currency check_ring_signature prefix_hash [] h t i [KeyInput a idx ki] td v 0 Hs Hh)
      as (td1 & Hr1 & Hreach); [exact Hfit|].
    all: cbn [redo_inputs mbind result_bind] in Hr1; inv_ok Hr1; rewrite Ha; cbn [mbind result_bind]; inv_ok Hr1.
    all: rewrite Ha0; cbn [mbind result_bind]; injection Hr1 as <-.
    all: cbn [fmap list_fmap concat] in Hreach; rewrite app_nil_r in Hreach.
    all: destruct (IH _ _ (Datatypes.S i) c1 (proj1 Hreach)) as (r & c2 & Hr2 & Hm);
      [by rewrite (proj1 (proj1 (proj2 Hreach)))|lia|].
    all: exists r, c2; split; [exact Hr2|]; destruct r as [|td2]; [done|]; by eapply reached_trans.
Qed.

Lemma length_after_inputs h ins v a :
  length (v_outs (foldl d_effect v (concat (input_effects h <$> ins))) a) = length (v_outs v a).
Proof.
  revert v. induction ins as [|[bi|a' [|gi [|gi' idx]] ki] ins IH]; intros v; [done|..]; (etrans; [apply IH|done]).
Qed.

Lemma outputs_fit h u outs v : Forall tx_output_ok outs → in_u 64 u → in_u 32 h →
  (∀ a, Z.of_nat (length (v_outs v a)) + Z.of_nat (length outs) < 2 ^ 32) → effects_fit v (output_effect h u <$> outs).
Proof.
  intros Ho Hu Hh. revert v. induction Ho as [|[a [key]] outs [Ha Hk] Ho IH]; intros w Hroom; [done|].
  cbn [fmap list_fmap effects_fit effect_fits output_effect v_effect out_amount]. cbn [length] in Hroom. split.
  - split; [|specialize (Hroom a); lia]. split; [done|]. by split.
  - apply IH. intros a'. specialize (Hroom a'). cbn [v_push v_outs]. destruct (decide (a = a')) as [<-|Hne].
    + rewrite fn_lookup_insert, length_app. cbn [length]. lia.
    + rewrite fn_lookup_insert_ne by done. lia.
Qed.

(** A transaction whose outputs have room gets a verdict from any state. *)
Lemma redo_transaction_checked tx (d : DeltaState S) v : delta_shows d v → in_u 32 (m_block_height d) →
  c_ok ser_Transaction tx → (length (inputs (tx_prefix tx)) ≤ length (signatures tx))%nat →
  (∀ a, Z.of_nat (length (v_outs v a)) + Z.of_nat (length (outputs (tx_prefix tx))) < 2 ^ 32) →
  ∃ r c, redo_transaction currency cn_fast_hash check_ring_signature tx d true = Ok (r, c).
Proof.
  intros Hs Hh Hok Hsigs Hroom. destruct (transaction_ranges tx Hok) as [[Hi Ho Hu] Hp]. unfold redo_transaction.
  destruct (from_to_binary ser_TransactionPrefix (tx_prefix tx) Hp) as (bs & Hbs & _).
  unfold get_transaction_prefix_hash, get_object_hash. rewrite Hbs. cbn [mbind result_bind].
  set (h := m_block_height d) in *. set (td := Delta.make_DeltaState h _ d).
  assert (delta_shows td v) as Htd by (by apply (make_shows (P := DeltaState S))).
  destruct (redo_inputs_checked (cn_fast_hash bs) (signatures tx) h (m_unlock_timestamp d) 0 (inputs (tx_prefix tx)) td v 0
    Htd eq_refl Hh Hi) as (r & c & -> & Hr1); [lia|]. cbn [mbind result_bind]. destruct r as [e|td1]; [by eexists _, _|].
  assert (effects_fit (foldl d_effect v (concat (input_effects h <$> inputs (tx_prefix tx))))
    (output_effect h (unlock_time (tx_prefix tx)) <$> outputs (tx_prefix tx))) as Hfit.
  { apply outputs_fit; [done..|]. intros a. rewrite length_after_inputs. apply Hroom. }
  destruct (redo_outputs_reached h (unlock_time (tx_prefix tx)) (outputs (tx_prefix tx)) td1 _ (proj1 Hr1))
    as (td2 & -> & Hr2); [by rewrite (proj1 (proj1 (proj2 Hr1)))|done|].
  cbn [mbind result_bind]. pose proof (reached_trans _ _ _ _ _ _ Hr1 Hr2) as (Hs2 & (Hbh & _ & Hpar) & Hsp).
  destruct (apply_to_parent td2 _ Hs2) as (d' & Hap & _).
  { rewrite Hpar. cbn. by rewrite Hbh. }
  rewrite Hpar in Hap. cbn [td Delta.make_DeltaState m_parent_state] in Hap. rewrite Hap. cbn. by eexists _, _.
Qed.

End checked.

(** ** The pool's side *)

Lemma refuses_total p tid f : pool_ok p → ∃ r, refuses p tid f = Ok r.
Proof.
  intros Hp. unfold refuses, minimum_pool_fee_per_byte. pose proof (fee_begin p Hp) as Hb.
  destruct (map_begin _) as [[g s]|]; [|by eexists]. destruct Hb as (x & t & -> & _). by eexists.
Qed.

Lemma outbid_first_total p tid f kis : pool_ok p → ∃ r, outbid_first p tid f kis = Ok r.
Proof.
  intros Hp. induction kis as [|ki kis IH]; [by eexists|]. cbn [outbid_first].
  destruct (m_memory_state_ki_tx p !! ki) as [other|] eqn:Hki; [|done].
  destruct (outbid_ok p tid other f ki Hp Hki) as (t & _ & ->). by eexists.
Qed.

(** A valid transaction has its signatures, and no key image twice. *)
Lemma validate_inputs_distinct ins ki s r : validate_inputs false ins ki s = inr r →
  NoDup (omap key_image_of ins) ∧ ∀ k, k ∈ omap key_image_of ins → k ∉ ki.
Proof.
  revert ki s. induction ins as [|[bi|a idx k] ins IH]; intros ki s Hv; [|done|].
  { split; [constructor|]. intros k Hk. by apply elem_of_nil in Hk. }
  cbn in Hv. case_bool_decide as Hin; [done|]. destruct (bool_decide _); [done|]. destruct (bool_decide _); [done|].
  destruct (_ <? _); [done|]. apply IH in Hv as [Hnd Hf]. cbn [omap list_omap key_image_of]. split.
  - constructor; [|done]. intros Hk%Hf. set_solver.
  - intros k' [->|Hk'%Hf]%elem_of_cons; [done|set_solver].
Qed.

Lemma validate_semantic_shape key_isvalid tx checked fee : validate_semantic key_isvalid false tx checked = inr fee →
  NoDup (key_images (tx_prefix tx)) ∧ length (signatures tx) = length (inputs (tx_prefix tx)).
Proof.
  unfold validate_semantic. destruct (bool_decide _); [done|]. destruct (validate_outputs _ _ _ _); [done|].
  destruct (validate_inputs _ _ _ _) eqn:Hv; [done|]. apply validate_inputs_distinct in Hv as [Hnd _].
  destruct (_ && _); [done|]. destruct (Nat.eqb_spec (length (signatures tx)) (length (inputs (tx_prefix tx)))); [|done]. done.
Qed.

Section node.
Context {D : Type} `{LmdbLaws D} (currency : Currency) (cn_fast_hash : list Z → Hash).
Context (check_ring_signature : RingSignatureArg → bool * bool) (key_isvalid : PublicKey → bool).

Lemma spent_in_chain_ok (n : Node D) v kis : node_shows n v → Forall ki_ok kis →
  ∃ r, spent_in_chain n kis = Ok r ∧ (r = None → ∀ ki, ki ∈ kis → v_keys v ki = None).
Proof.
  intros Hn. assert (shows n v) as Hsh by exact Hn.
  induction 1 as [|ki kis Hki Hkis IH]; [exists None; split; [done|]; intros _ ki Hin; by apply elem_of_nil in Hin|].
  cbn [spent_in_chain]. rewrite (shows_read_keyimage n v ki Hsh Hki). cbn [mbind result_bind].
  destruct (v_keys v ki) as [h|] eqn:Hv; [by exists (Some h)|]. destruct IH as (r & Hr & Hf). exists r. split; [done|].
  intros -> k [->|Hk]%elem_of_cons; [done|by apply Hf].
Qed.

Lemma input_key_images tx : Forall input_ok (inputs (tx_prefix tx)) → Forall ki_ok (key_images (tx_prefix tx)).
Proof.
  unfold key_images. induction 1 as [|[bi|a idx ki] ins Hi Hins IH]; [constructor|done|]. constructor; [apply Hi|done].
Qed.

Lemma total_subseteq m m' : m ⊆ m' → total m ≤ total m'.
Proof.
  revert m'. induction m as [|tid t m Hm IH] using map_ind; intros m' Hs; [apply total_nonneg|].
  assert (m' !! tid = Some t) as Ht by (eapply lookup_weaken; [apply lookup_insert_eq|done]).
  rewrite total_insert, (total_delete m' tid t) by done. apply Z.add_le_mono_l, IH.
  apply map_subseteq_spec. intros x y Hxy. assert (x ≠ tid) as Hne by (by intros ->; rewrite Hm in Hxy).
  rewrite lookup_delete_ne by done. eapply lookup_weaken; [|exact Hs]. by rewrite lookup_insert_ne.
Qed.

(** Whatever the verdict, the chain stays as it is and the pool well formed. *)
Lemma add_transaction_ok (n : Node D) v tid tx binary_tx h t c :
  node_shows n v → c_ok ser_Transaction tx → binary_tx ≠ [] → in_u 32 h →
  (∀ a, Z.of_nat (length (v_outs v a)) + Z.of_nat (length (outputs (tx_prefix tx))) < 2 ^ 32) →
  m_memory_state_total_size (pool n) + size binary_tx < 2 ^ 63 →
  ∃ p r c', add_transaction currency cn_fast_hash check_ring_signature key_isvalid n tid tx binary_tx h t c true =
      Ok ({| store := store n; pool := p |}, r, c') ∧
    node_shows {| store := store n; pool := p |} v ∧
    m_memory_state_total_size p ≤ m_memory_state_total_size (pool n) + size binary_tx.
Proof.
  intros Hn Hok Hb Hh Hroom Hsize. destruct (transaction_ranges tx Hok) as [Hrg _].
  pose proof (nd_pool _ _ Hn) as Hp.
  assert (0 < size binary_tx) as Hpos by (unfold size; destruct binary_tx; [done|cbn; lia]).
  assert (∀ (r : AddTransactionResult) (c' : Height), ∃ p r' c'', Ok (n, r, c') = Ok ({| store := store n; pool := p |}, r', c'') ∧
    node_shows {| store := store n; pool := p |} v ∧
    m_memory_state_total_size p ≤ m_memory_state_total_size (pool n) + size binary_tx) as Hsame.
  { intros r c'. exists (pool n), r, c'. destruct n. split_and!; [done|done|lia]. }
  unfold add_transaction. case_bool_decide as Hin; [apply Hsame|]. apply eq_None_not_Some in Hin.
  unfold per_byte. destruct (Z.eqb_spec (size binary_tx) 0); [lia|]. cbn [mbind result_bind].
  set (f := _ / size binary_tx).
  destruct (refuses_total (pool n) tid f Hp) as ([|] & ->); cbn [mbind result_bind]; [apply Hsame|].
  destruct (outbid_first_total (pool n) tid f (key_images (tx_prefix tx)) Hp) as ([|] & ->); cbn [mbind result_bind]; [apply Hsame|].
  destruct (spent_in_chain_ok n v (key_images (tx_prefix tx)) Hn) as ([x|] & -> & Hunspent); [apply input_key_images, Hrg|..];
    cbn [mbind result_bind]; [apply Hsame|]. specialize (Hunspent eq_refl).
  destruct (validate_semantic _ _ _ _) as [e|my_fee] eqn:Hv; [apply Hsame|].
  destruct (validate_semantic_shape _ _ _ _ Hv) as [Hnd Hlen].
  destruct (redo_transaction_checked currency cn_fast_hash check_ring_signature tx (Delta.make_DeltaState h t n) v)
    as (r & c' & Hr); [apply make_shows; [exact Hn|done]|done|done|lia|done|].
  rewrite Hr. cbn [mbind result_bind]. destruct r as [e|[d indices]]; [apply Hsame|].
  apply redo_transaction_grown in Hr as (_ & _ & Hsome & _).
  set (pt := {| pt_tx := tx; binary_tx := binary_tx; fee := get_tx_fee (tx_prefix tx); timestamp := 0 |}).
  destruct (add_to_pool_ok (pool n) tid pt (map_entries (m_keyimages d)).*1 Hp Hin) as (p' & verdict & Ha & Hp' & Hsub & _).
  { by split. }
  { apply NoDup_Permutation; [apply NoDup_map_entries|done|]. intros ki. rewrite list_elem_of_fmap. split.
    - intros ([k x] & -> & Hk%elem_of_map_entries). cbn. assert (is_Some (m_keyimages d !! k)) as Hk' by (by eexists).
      apply Hsome in Hk' as [?|[y Hy]]; [done|]. cbn in Hy. by rewrite lookup_empty in Hy.
    - intros Hk. assert (is_Some (m_keyimages d !! ki)) as [x Hx] by (apply Hsome; by left).
      exists (ki, x). split; [done|]. by apply elem_of_map_entries. }
  { done. }
  change f with (tx_fee pt). rewrite Ha. cbn [mbind result_bind]. exists p', verdict, c'. split_and!; [done|split|].
  - apply (nd_store _ _ Hn).
  - done.
  - cbn. intros ki x (t' & Ht' & Hk)%(po_ki _ Hp').
    eapply lookup_weaken in Ht'; [|exact Hsub]. apply lookup_insert_Some in Ht' as [[<- <-]|[_ Ht']]; [by apply Hunspent|].
    apply (nd_unspent _ _ Hn ki x). apply (po_ki _ Hp). by exists t'.
  - rewrite (po_total _ Hp'), (po_total _ Hp), Z.add_comm. change (size binary_tx) with (tx_size pt).
    rewrite <- (total_insert _ tid) by done. by apply total_subseteq.
Qed.

(** ** Blocks only take transactions out of the pool *)

Definition pool_sub (n n' : Node D) : Prop := m_memory_state_tx (pool n') ⊆ m_memory_state_tx (pool n).

#[export] Instance pool_sub_preorder : PreOrder pool_sub.
Proof. split; [intros n; unfold pool_sub; reflexivity|]. intros n1 n2 n3 H1 H2. unfold pool_sub in *. by etrans. Qed.

Lemma pool_sub_eq n n' : pool n' = pool n → pool_sub n n'.
Proof. unfold pool_sub. intros ->. reflexivity. Qed.

Lemma for_each_sub {B} (f : Node D → B → result (Node D)) l n n' :
  (∀ n n' b, f n b = Ok n' → pool_sub n n') → for_each f l n = Ok n' → pool_sub n n'.
Proof.
  intros Hf. revert n. induction l as [|b l IH]; intros n Hl; [by injection Hl as <-|]. cbn [for_each] in Hl. inv_ok Hl.
  etrans; [by eapply Hf|by apply IH].
Qed.

Lemma remove_sub p tid p' : remove_from_pool p tid = Ok p' → m_memory_state_tx p' ⊆ m_memory_state_tx p.
Proof.
  unfold remove_from_pool. intros Hr. destruct (m_memory_state_tx p !! tid); [|by injection Hr as <-].
  destruct (erase_key_images _ _ _). inv_ok Hr. destruct (erase_fee _ _ _). inv_ok Hr. inv_ok Hr. injection Hr as <-.
  apply delete_subseteq.
Qed.

Lemma displace_sub kis p tid f p' r : displace p tid f kis = Ok (p', r) → m_memory_state_tx p' ⊆ m_memory_state_tx p.
Proof.
  revert p. induction kis as [|ki kis IH]; intros p Hd; cbn [displace] in Hd; [by injection Hd as <- _|].
  destruct (m_memory_state_ki_tx p !! ki); [|by eapply IH]. inv_ok Hd. destruct a; [by injection Hd as <- _|]. inv_ok Hd.
  etrans; [by eapply IH|by eapply remove_sub].
Qed.

Lemma trim_sub fuel p p' : trim fuel p = Ok p' → m_memory_state_tx p' ⊆ m_memory_state_tx p.
Proof.
  revert p. induction fuel as [|fuel IH]; intros p Ht; cbn [trim] in Ht; (destruct (_ >? _); [|by injection Ht as <-]); [done|].
  destruct (map_begin _) as [[f be]|]; [|done]. destruct (set_begin be); [|done]. inv_ok Ht.
  destruct (_ <? _); [by injection Ht as <-|]. inv_ok Ht. etrans; [by eapply IH|by eapply remove_sub].
Qed.

(** Whatever becomes of a transaction, the pool gains no other. *)
Lemma add_to_pool_sub p tid t f kis p' r : add_to_pool p tid t f kis = Ok (p', r) →
  m_memory_state_tx p' ⊆ <[tid := t]> (m_memory_state_tx p) ∨ m_memory_state_tx p' ⊆ m_memory_state_tx p.
Proof.
  unfold add_to_pool. intros Ha. inv_ok Ha. destruct a as [p1 refused]. apply displace_sub in Ha0.
  destruct refused; [injection Ha as <- _; by right|]. inv_ok Ha. inv_ok Ha. inv_ok Ha. injection Ha as <- _. left. cbn.
  etrans; [by eapply trim_sub|]. unfold insert_tx in Ha1. destruct (insert_key_images _ _ _ _) as [ki ok].
  unfold map_insert in Ha1. destruct (m_memory_state_tx p1 !! tid); [by destruct ok|]. inv_ok Ha1.
  injection Ha1 as <-. cbn. by apply insert_mono.
Qed.

Lemma store_keyimage_sub n ki h n' : store_keyimage n ki h = Ok n' → pool_sub n n'.
Proof.
  unfold store_keyimage. intros Hs. inv_ok Hs. destruct (m_memory_state_ki_tx _ !! ki); [|injection Hs as <-; by apply pool_sub_eq]. inv_ok Hs. injection Hs as <-.
  by apply remove_sub in Ha0.
Qed.
Lemma push_amount_output_sub n a u h pk n' gi : push_amount_output n a u h pk = Ok (n', gi) → pool_sub n n'.
Proof. unfold push_amount_output. intros Hp. inv_ok Hp. destruct a0. injection Hp as <- <-. by apply pool_sub_eq. Qed.
Lemma pop_amount_output_sub n a u pk n' : pop_amount_output n a u pk = Ok n' → pool_sub n n'.
Proof. unfold pop_amount_output. intros Hp. inv_ok Hp. injection Hp as <-. by apply pool_sub_eq. Qed.
Lemma delete_keyimage_sub n ki n' : delete_keyimage n ki = Ok n' → pool_sub n n'.
Proof. unfold delete_keyimage. intros Hp. inv_ok Hp. injection Hp as <-. by apply pool_sub_eq. Qed.
Lemma mark_output_sub n a gi b n' : mark_output n a gi b = Ok n' → pool_sub n n'.
Proof. unfold mark_output. intros Hp. inv_ok Hp. injection Hp as <-. by apply pool_sub_eq. Qed.

Lemma apply_sub {S} (d : DeltaState S) (n n' : Node D) : Delta.apply d n = Ok n' → pool_sub n n'.
Proof.
  unfold Delta.apply. intros Ha. inv_ok Ha. inv_ok Ha. etrans; [|etrans].
  - eapply for_each_sub; [|exact Ha0]. intros ? ? [ki h]. apply store_keyimage_sub.
  - eapply for_each_sub; [|exact Ha1]. intros m m' [am els]. apply for_each_sub. intros q q' [u pk] Hq. inv_ok Hq.
    destruct a1 as [q1 gi]. injection Hq as <-. by apply push_amount_output_sub in Ha2.
  - eapply for_each_sub; [|exact Ha]. intros m m' [am gi]. apply mark_output_sub.
Qed.

Lemma redo_block_sub (n n' : Node D) bid block h t :
  redo_block currency cn_fast_hash check_ring_signature n bid block h t = Ok (Some n') → pool_sub n n'.
Proof.
  unfold redo_block. intros Hr. inv_ok Hr. inv_ok Hr. destruct a0 as [e|args]; [done|]. inv_ok Hr.
  destruct a0 as [[d indices]|]; [|done]. destruct (_ && _); [done|]. inv_ok Hr. inv_ok Hr. inv_ok Hr. injection Hr as <-.
  match goal with Ha : Delta.apply _ n = Ok _ |- _ => apply apply_sub in Ha; exact Ha end.
Qed.

Lemma undo_transaction_sub (n n' : Node D) tx : undo_transaction n tx = Ok n' → pool_sub n n'.
Proof.
  unfold undo_transaction. intros Hu. inv_ok Hu. etrans.
  - eapply for_each_sub; [|exact Ha]. intros m m' [am [key]]. apply pop_amount_output_sub.
  - eapply for_each_sub; [|exact Hu]. intros m m' [bi|am idx ki]; [by injection 1 as <-|]. intros Hm. inv_ok Hm.
    etrans; [by eapply delete_keyimage_sub|]. destruct idx as [|gi [|]]; [by injection Hm as <-|by eapply mark_output_sub|by injection Hm as <-].
Qed.

Lemma undo_block_sub (n n' : Node D) bid block : undo_block n bid block = Ok n' → pool_sub n n'.
Proof.
  unfold undo_block. intros Hu. inv_ok Hu. inv_ok Hu. inv_ok Hu. injection Hu as <-. etrans; [|etrans].
  - eapply for_each_sub; [|exact Ha]. intros m m' tx. apply undo_transaction_sub.
  - by eapply undo_transaction_sub.
  - by apply pool_sub_eq.
Qed.

End node.

End NodeLaws.
