(* ===== verification/RingChecker.v ===== *)
(** * The ring checker and its threads: RingCheckerMulticore.cpp

    One thread hands out the rings of a block and asks for the verdict, the
    worker threads check them.  Every critical section is a step; the steps of
    the threads interleave in any order.  [Redo.ring_jobs] makes the jobs. *)

From S2P Require Import Prelude Redo.
Import Redo.

Local Open Scope nat_scope.

Module RingChecker.

Section checker.
(** The signature is valid; one of the keys is no point. *)
Context (check_ring_signature : RingSignatureArg → bool * bool).

(** Where [thread_run] stands: at the head of its loop, in [have_work.wait],
    checking [arg] outside of the lock, or returned. *)
Inductive Worker := Idle | Waiting | Working (local_work_counter : nat) (arg : RingSignatureArg) | Exited.

(** Where the thread that redoes blocks stands: outside; in
    [start_work_get_error] with the rings of the block and those not handed
    out yet; in [signatures_valid], at the head of its loop or in
    [result_ready.wait]; with the verdict. *)
Inductive Main :=
| Outside
| Adding (block todo : list RingSignatureArg)
| Asking (block : list RingSignatureArg)
| Waiting_result (block : list RingSignatureArg)
| Verdict (block : list RingSignatureArg) (valid : bool).

(** The members of the class, and the threads.  The counters of type [size_t]
    count rings that are in memory and do not wrap. *)
Record State := {
  quit : bool;
  total_counter : nat;
  ready_counter : nat;
  errors : list string;
  args : list RingSignatureArg;
  work_counter : nat;
  threads : list Worker;
  main : Main;
}.

(** [RingCheckerMulticore()]: the threads are about to enter their loops. *)
Definition init (th_count : nat) : State := {|
  quit := false; total_counter := 0; ready_counter := 0; errors := []; args := [];
  work_counter := 0; threads := replicate th_count Idle; main := Outside |}.

(** [work_counter] is an [int]: incrementing it past its range is undefined. *)
Definition INT_MAX : Z := 2 ^ 31 - 1.

Definition wake (w : Worker) : Worker := match w with Waiting => Idle | w => w end.
(** [have_work.notify_all] and [result_ready.notify_all]. *)
Definition notify_work (ws : list Worker) : list Worker := wake <$> ws.
Definition notify_result (m : Main) : Main := match m with Waiting_result block => Asking block | m => m end.

Definition set_main (s : State) (m : Main) : State :=
  {| quit := quit s; total_counter := total_counter s; ready_counter := ready_counter s; errors := errors s;
     args := args s; work_counter := work_counter s; threads := threads s; main := m |}.
Definition set_thread (s : State) (i : nat) (w : Worker) : State :=
  {| quit := quit s; total_counter := total_counter s; ready_counter := ready_counter s; errors := errors s;
     args := args s; work_counter := work_counter s; threads := <[i := w]> (threads s); main := main s |}.

(** The first critical section of [start_work_get_error], and the reset of
    [total_counter], which only this thread uses. *)
Definition start (s : State) (block : list RingSignatureArg) : State :=
  {| quit := quit s; total_counter := 0; ready_counter := 0; errors := []; args := [];
     work_counter := work_counter s + 1; threads := threads s; main := Adding block block |}.
(** One ring handed out. *)
Definition add (s : State) (block : list RingSignatureArg) (arg : RingSignatureArg)
    (todo : list RingSignatureArg) : State :=
  {| quit := quit s; total_counter := total_counter s + 1; ready_counter := ready_counter s; errors := errors s;
     args := args s ++ [arg]; work_counter := work_counter s; threads := notify_work (threads s);
     main := Adding block todo |}.
Definition cancel_work (s : State) : State :=
  {| quit := quit s; total_counter := total_counter s; ready_counter := ready_counter s; errors := errors s;
     args := []; work_counter := work_counter s + 1; threads := threads s; main := main s |}.
(** The destructor, before it joins the threads. *)
Definition stop (s : State) : State :=
  {| quit := true; total_counter := total_counter s; ready_counter := ready_counter s; errors := errors s;
     args := args s; work_counter := work_counter s; threads := notify_work (threads s); main := main s |}.

(** The two critical sections of [thread_run]. *)
Definition take_job (s : State) (i : nat) : option State :=
  if quit s then Some (set_thread s i Exited) else
  match args s with
  | [] => Some (set_thread s i Waiting)
  | arg :: rest =>
      Some {| quit := quit s; total_counter := total_counter s; ready_counter := ready_counter s;
              errors := errors s; args := rest; work_counter := work_counter s;
              threads := <[i := Working (work_counter s) arg]> (threads s); main := main s |}
  end.
Definition job_errors (arg : RingSignatureArg) : list string :=
  let '(result, key_corrupted) := check_ring_signature arg in
  (if negb result && key_corrupted then ["INPUT_CORRUPTED_SIGNATURES"%string] else []) ++
  (if negb result && negb key_corrupted then ["INPUT_INVALID_SIGNATURES"%string] else []).
Definition finish_job (s : State) (i : nat) (local_work_counter : nat) (arg : RingSignatureArg) : State :=
  if local_work_counter =? work_counter s then
    {| quit := quit s; total_counter := total_counter s; ready_counter := ready_counter s + 1;
       errors := errors s ++ job_errors arg; args := args s; work_counter := work_counter s;
       threads := <[i := Idle]> (threads s); main := notify_result (main s) |}
  else set_thread s i Idle.

(** One pass of the loop of [signatures_valid]. *)
Definition ask (s : State) (block : list RingSignatureArg) : State :=
  if negb (ready_counter s =? total_counter s) then set_main s (Waiting_result block)
  else set_main s (Verdict block (bool_decide (errors s = []))).

(** The steps of the program. *)
Inductive step (s : State) : State → Prop :=
| step_start block :
    main s = Outside → (Z.of_nat (work_counter s) < INT_MAX)%Z → step s (start s block)
| step_add block arg todo :
    main s = Adding block (arg :: todo) → step s (add s block arg todo)
| step_error block todo :
    (** a ring could not be made, or the block could not be redone *)
    main s = Adding block todo → step s (set_main s Outside)
| step_signatures_valid block :
    main s = Adding block [] → step s (set_main s (Asking block))
| step_ask block :
    main s = Asking block → step s (ask s block)
| step_return block valid :
    main s = Verdict block valid → step s (set_main s Outside)
| step_cancel :
    main s = Outside → (Z.of_nat (work_counter s) < INT_MAX)%Z → step s (cancel_work s)
| step_stop :
    main s = Outside → step s (stop s)
| step_take i s' :
    threads s !! i = Some Idle → take_job s i = Some s' → step s s'
| step_finish i c arg :
    threads s !! i = Some (Working c arg) → step s (finish_job s i c arg).

(** A condition variable may also wake up by itself. *)
Inductive spurious (s : State) : State → Prop :=
| spurious_work i : threads s !! i = Some Waiting → spurious s (set_thread s i Idle)
| spurious_result block : main s = Waiting_result block → spurious s (set_main s (Asking block)).

Definition any_step (s s' : State) : Prop := step s s' ∨ spurious s s'.
Definition reachable (th_count : nat) (s : State) : Prop := rtc any_step (init th_count) s.

(** ** Invariant *)

(** The rings of the current block that are being checked. *)
Definition current (c : nat) (w : Worker) : option RingSignatureArg :=
  match w with Working c' arg => if c' =? c then Some arg else None | _ => None end.
Definition inflight (s : State) : list RingSignatureArg := omap (current (work_counter s)) (threads s).

Definition valid (arg : RingSignatureArg) : bool := (check_ring_signature arg).1.

(** [pushed] of the block's rings were handed out: each was checked, is being
    checked or is queued, and the counters and errors tell which. *)
Definition accounted (s : State) (pushed : list RingSignatureArg) : Prop :=
  ∃ finished, pushed ≡ₚ finished ++ inflight s ++ args s ∧
    ready_counter s = length finished ∧ total_counter s = length pushed ∧
    (errors s = [] ↔ forallb valid finished = true).

Definition main_ok (s : State) : Prop :=
  match main s with
  | Outside => True
  | Adding block todo => ∃ pushed, block = pushed ++ todo ∧ accounted s pushed
  | Asking block => accounted s block
  | Waiting_result block => accounted s block ∧ ready_counter s ≠ total_counter s
  | Verdict block v => v = forallb valid block
  end.

Record inv (s : State) : Prop := {
  inv_main : main_ok s;
  inv_local i c arg : threads s !! i = Some (Working c arg) → c ≤ work_counter s;
  (** No wake-up is lost. *)
  inv_wake : args s ≠ [] → Waiting ∉ threads s;
  inv_exited : Exited ∈ threads s → quit s = true;
}.

Lemma omap_insert {A B} (f : A → option B) (l : list A) i a : l !! i = Some a →
  ∃ rest, omap f l ≡ₚ option_list (f a) ++ rest ∧ ∀ b, omap f (<[i := b]> l) ≡ₚ option_list (f b) ++ rest.
Proof.
  intros Hl. exists (omap f (take i l) ++ omap f (drop (S i) l)).
  assert (∀ (b : A) k, omap f (take i k ++ b :: drop (S i) k) ≡ₚ
    option_list (f b) ++ omap f (take i k) ++ omap f (drop (S i) k)) as Hsplit.
  { intros b k. rewrite omap_app. cbn. destruct (f b); cbn; [by rewrite Permutation_middle|done]. }
  split.
  - rewrite <- Hsplit. by rewrite take_drop_middle.
  - intros b. apply lookup_lt_Some in Hl. rewrite insert_take_drop by done. by apply Hsplit.
Qed.

(** Changing one thread changes the rings in flight accordingly. *)
Lemma inflight_set s i w c : threads s !! i = Some w →
  ∃ rest, omap (current c) (threads s) ≡ₚ option_list (current c w) ++ rest ∧
    ∀ w', omap (current c) (<[i := w']> (threads s)) ≡ₚ option_list (current c w') ++ rest.
Proof. apply omap_insert. Qed.

Lemma inflight_notify c ws : omap (current c) (notify_work ws) = omap (current c) ws.
Proof.
  unfold notify_work. induction ws as [|[] ws IH]; [done|..]; cbn; by rewrite IH.
Qed.

Lemma notify_waiting ws : Waiting ∉ notify_work ws.
Proof. unfold notify_work. intros (w & Hw & _)%list_elem_of_fmap. by destruct w. Qed.

Lemma notify_exited ws : Exited ∈ notify_work ws → Exited ∈ ws.
Proof.
  unfold notify_work. intros (w & Hw & Hin)%list_elem_of_fmap. by destruct w.
Qed.

Lemma notify_working ws i c arg : notify_work ws !! i = Some (Working c arg) → ws !! i = Some (Working c arg).
Proof. unfold notify_work. rewrite list_lookup_fmap. by destruct (ws !! i) as [[]|]. Qed.

Lemma elem_of_insert {A} (l : list A) i (a b : A) : a ∈ <[i := b]> l → a = b ∨ a ∈ l.
Proof.
  intros (j & Hj)%list_elem_of_lookup. destruct (decide (i = j)) as [<-|Hne].
  - destruct (decide (i < length l)%nat) as [Hlt|Hge].
    + rewrite list_lookup_insert_eq in Hj by done. injection Hj as ->. by left.
    + rewrite list_insert_ge in Hj by lia. right. by eapply list_elem_of_lookup_2.
  - rewrite list_lookup_insert_ne in Hj by done. right. by eapply list_elem_of_lookup_2.
Qed.

Lemma insert_working (ws : list Worker) (i j : nat) w c arg : <[i := w]> ws !! j = Some (Working c arg) →
  w = Working c arg ∨ ws !! j = Some (Working c arg).
Proof.
  destruct (decide (i = j)) as [<-|Hne].
  - intros Hj. pose proof (lookup_lt_Some _ _ _ Hj) as Hlt. rewrite length_insert in Hlt.
    rewrite list_lookup_insert_eq in Hj by done. injection Hj as ->. by left.
  - rewrite list_lookup_insert_ne by done. by right.
Qed.

Lemma job_errors_valid arg : job_errors arg = [] ↔ valid arg = true.
Proof. unfold job_errors, valid. by destruct (check_ring_signature arg) as [[] []]. Qed.

(** [accounted] only looks at the counters, the queue and the rings in flight. *)
Lemma accounted_same s s' pushed : inflight s' ++ args s' ≡ₚ inflight s ++ args s →
  ready_counter s' = ready_counter s → total_counter s' = total_counter s → errors s' = errors s →
  accounted s pushed → accounted s' pushed.
Proof.
  intros Hp Hr Ht He (f & Hf & ? & ? & ?). exists f. rewrite Hp, Hr, Ht, He. done.
Qed.

Lemma main_ok_same s s' : main s' = main s → inflight s' ++ args s' ≡ₚ inflight s ++ args s →
  ready_counter s' = ready_counter s → total_counter s' = total_counter s → errors s' = errors s →
  main_ok s → main_ok s'.
Proof.
  intros Hm Hp Hr Ht He. unfold main_ok. rewrite Hm, Hr, Ht.
  pose proof (accounted_same s s') as Ha. destruct (main s); naive_solver.
Qed.

Lemma inv_init n : inv (init n).
Proof.
  split; cbn; try done.
  - intros i c arg (Heq & _)%lookup_replicate. done.
  - intros Hin%elem_of_replicate. by destruct Hin.
Qed.

Lemma inv_set_main s m : main_ok (set_main s m) → inv s → inv (set_main s m).
Proof. intros Hm [_ ? ? ?]. by split. Qed.

(** A thread that works on no ring of the block takes another such state. *)
Lemma inv_set_thread s i w w' : threads s !! i = Some w →
  current (work_counter s) w = None → current (work_counter s) w' = None →
  (∀ c arg, w' = Working c arg → c ≤ work_counter s) →
  (w' = Waiting → args s = []) → (w' = Exited → quit s = true) →
  inv s → inv (set_thread s i w').
Proof.
  intros Hi Hw Hw' Hc Hwait Hex [Hm Hl Hwk He]. split; cbn.
  - eapply main_ok_same; [..|exact Hm]; try done. unfold inflight. cbn. f_equiv.
    destruct (inflight_set s i w (work_counter s) Hi) as (rest & Hr & Hr').
    by rewrite Hr, Hr', Hw, Hw'.
  - intros j c arg [?|Hj]%insert_working; [by eapply Hc|by eapply Hl].
  - intros Ha Hin%elem_of_insert. destruct Hin as [Heq|Hin]; [by apply Ha, Hwait|by apply Hwk].
  - intros [Heq|Hin]%elem_of_insert; [by apply Hex|by apply He].
Qed.

Lemma inv_take s i s' : inv s → threads s !! i = Some Idle → take_job s i = Some s' → inv s'.
Proof.
  intros Hinv Hi. unfold take_job. destruct (quit s) eqn:Hq.
  { injection 1 as <-. by eapply inv_set_thread. }
  destruct (args s) as [|arg rest] eqn:Ha; injection 1 as <-.
  { by eapply inv_set_thread. }
  destruct Hinv as [Hm Hl Hwk He]. split; cbn.
  - eapply main_ok_same; [..|exact Hm]; try done. unfold inflight. cbn.
    destruct (inflight_set s i Idle (work_counter s) Hi) as (r & Hr & Hr').
    rewrite Hr, Hr', Ha. cbn. rewrite Nat.eqb_refl. cbn. by rewrite Permutation_middle.
  - intros j c arg' [[= <- <-]|Hj]%insert_working; [done|by eapply Hl].
  - intros _ Hin%elem_of_insert. destruct Hin as [?|Hin]; [done|]. apply Hwk in Hin; [done|]. by rewrite Ha.
  - intros [?|Hin]%elem_of_insert; [done|]. by rewrite <- (He Hin), Hq.
Qed.

Lemma accounted_finish s i arg pushed : threads s !! i = Some (Working (work_counter s) arg) →
  accounted s pushed → accounted (finish_job s i (work_counter s) arg) pushed.
Proof.
  intros Hi (f & Hp & Hr & Ht & He). unfold finish_job. rewrite Nat.eqb_refl.
  exists (f ++ [arg]). cbn. split_and!.
  - rewrite Hp. unfold inflight. cbn.
    destruct (inflight_set s i _ (work_counter s) Hi) as (r & Hr1 & Hr2).
    rewrite Hr1, Hr2. cbn. rewrite Nat.eqb_refl. cbn. rewrite <- !app_assoc. done.
  - rewrite length_app. cbn. lia.
  - done.
  - rewrite forallb_app. cbn. rewrite andb_true_r, andb_true_iff, <- He, <- job_errors_valid. split.
    + by intros [? ?]%app_eq_nil.
    + by intros [-> ->].
Qed.

Lemma inv_finish s i c arg : inv s → threads s !! i = Some (Working c arg) → inv (finish_job s i c arg).
Proof.
  intros Hinv Hi. destruct (decide (c = work_counter s)) as [->|Hne].
  - destruct Hinv as [Hm Hl Hwk He].
    assert (∀ pushed, accounted s pushed → accounted (finish_job s i (work_counter s) arg) pushed) as Hacc
      by (intros; by apply accounted_finish).
    unfold finish_job in *. rewrite Nat.eqb_refl in *. split; cbn.
    + unfold main_ok in *. cbn. destruct (main s); cbn; naive_solver.
    + intros j c arg' [?|Hj]%insert_working; [done|by eapply Hl].
    + intros Ha Hin%elem_of_insert. destruct Hin as [?|Hin]; [done|by apply Hwk].
    + intros [?|Hin]%elem_of_insert; [done|by apply He].
  - assert ((c =? work_counter s) = false) as Hf by (by apply Nat.eqb_neq).
    unfold finish_job. rewrite Hf. eapply inv_set_thread; try done. cbn. by rewrite Hf.
Qed.

(** No thread works for a block to come. *)
Lemma inflight_next s : inv s → omap (current (work_counter s + 1)) (threads s) = [].
Proof.
  intros Hinv. pose proof (inv_local _ Hinv) as Hl. induction (threads s) as [|w ws IH]; [done|].
  cbn. assert (current (work_counter s + 1) w = None) as ->.
  { destruct w as [| |c arg|]; try done. cbn. pose proof (Hl 0 c arg eq_refl).
    destruct (Nat.eqb_spec c (work_counter s + 1)); [lia|done]. }
  apply IH. intros i c arg Hi. by apply (Hl (S i) c arg).
Qed.

Lemma inv_start s block : inv s → inv (start s block).
Proof.
  intros Hinv. pose proof (inflight_next s Hinv) as Hn. destruct Hinv as [Hm Hl Hwk He]. split; cbn; try done.
  - exists []. split; [done|]. exists []. unfold inflight. cbn. by rewrite Hn.
  - intros i c arg Hi%Hl. lia.
Qed.

Lemma inv_add s block arg todo : inv s → main s = Adding block (arg :: todo) → inv (add s block arg todo).
Proof.
  intros [Hm Hl Hwk He] Hmain. split; cbn.
  - unfold main_ok in *. rewrite Hmain in Hm. cbn. destruct Hm as (pushed & -> & f & Hp & Hr & Ht & Her).
    exists (pushed ++ [arg]). split; [by rewrite <- app_assoc|]. exists f. cbn. split_and!; try done.
    + unfold inflight. cbn. rewrite inflight_notify, Hp. unfold inflight. by rewrite <- !app_assoc.
    + rewrite length_app. cbn. lia.
  - intros i c arg' Hi%notify_working. by eapply Hl.
  - intros _. apply notify_waiting.
  - intros Hin%notify_exited. by apply He.
Qed.

Lemma inv_ask s block : inv s → main s = Asking block → inv (ask s block).
Proof.
  intros Hinv Hmain. pose proof (inv_main _ Hinv) as Hm. unfold main_ok in Hm. rewrite Hmain in Hm.
  unfold ask. destruct (Nat.eqb_spec (ready_counter s) (total_counter s)) as [Heq|Hne]; cbn [negb].
  - apply inv_set_main; [|done]. destruct Hm as (f & Hp & Hr & Ht & He). cbn.
    assert (inflight s ++ args s = []) as Hnil.
    { apply Permutation_length in Hp. rewrite length_app in Hp. apply nil_length_inv. lia. }
    rewrite Hnil, app_nil_r in Hp.
    assert (forallb valid block = forallb valid f) as ->.
    { apply eq_true_iff_eq. rewrite !forallb_forall. setoid_rewrite <- list_elem_of_In. by setoid_rewrite Hp. }
    apply eq_true_iff_eq. by rewrite bool_decide_eq_true.
  - by apply inv_set_main.
Qed.

Lemma inv_step s s' : inv s → any_step s s' → inv s'.
Proof.
  intros Hinv [Hstep|Hsp]; [destruct Hstep|destruct Hsp].
  - by apply inv_start.
  - by apply inv_add.
  - by apply inv_set_main.
  - apply inv_set_main; [|done]. pose proof (inv_main _ Hinv) as Hm. unfold main_ok in Hm. rewrite H in Hm.
    destruct Hm as (pushed & -> & Ha). cbn. by rewrite app_nil_r.
  - by apply inv_ask.
  - by apply inv_set_main.
  - destruct Hinv as [Hm Hl Hwk He]. split; cbn; try done.
    + unfold main_ok. cbn. by rewrite H.
    + intros i c arg Hi%Hl. lia.
  - destruct Hinv as [Hm Hl Hwk He]. split; cbn; try done.
    + unfold main_ok. cbn. by rewrite H.
    + intros i c arg Hi%notify_working. by eapply Hl.
    + intros _. apply notify_waiting.
  - by eapply inv_take.
  - by apply inv_finish.
  - by eapply inv_set_thread.
  - apply inv_set_main; [|done]. pose proof (inv_main _ Hinv) as Hm. unfold main_ok in Hm. rewrite H in Hm.
    apply Hm.
Qed.

Lemma inv_reachable n s : reachable n s → inv s.
Proof.
  intros Hr. assert (∀ a b, rtc any_step a b → inv a → inv b) as Hrtc.
  { induction 1; [done|]. eauto using inv_step. }
  eapply Hrtc; [exact Hr|apply inv_init].
Qed.

(** ** The verdict always comes *)

(** Whatever step is taken next, and some step can be taken, [P] is reached. *)
Inductive inevitable (P : State → Prop) (s : State) : Prop :=
| inevitable_now : P s → inevitable P s
| inevitable_later :
    (∃ s', step s s') → (∀ s', step s s' → inevitable P s') → inevitable P s.

(** Every step while the verdict is awaited makes this smaller. *)
Definition worker_weight (w : Worker) : nat :=
  match w with Idle => 1 | Waiting => 0 | Working _ _ => 3 | Exited => 0 end.
Definition main_weight (m : Main) : nat := match m with Asking _ => 1 | _ => 0 end.
Definition threads_weight (ws : list Worker) : nat := foldr (λ w n, worker_weight w + n) 0 ws.
Definition weight (s : State) : nat := 4 * length (args s) + threads_weight (threads s) + main_weight (main s).

Lemma threads_weight_insert ws i w w' : ws !! i = Some w →
  threads_weight (<[i := w']> ws) + worker_weight w = threads_weight ws + worker_weight w'.
Proof.
  revert i. induction ws as [|x ws IH]; intros [|i] Hi; try done.
  - cbn in *. injection Hi as ->. lia.
  - specialize (IH i Hi).
    change (worker_weight x + threads_weight (<[i := w']> ws) + worker_weight w =
      worker_weight x + threads_weight ws + worker_weight w'). lia.
Qed.

Definition awaited (block : list RingSignatureArg) (s : State) : Prop :=
  main s = Asking block ∨ main s = Waiting_result block.
Definition answered (block : list RingSignatureArg) (s : State) : Prop :=
  main s = Verdict block (forallb valid block).

Lemma awaited_step block s s' : inv s → quit s = false → awaited block s → step s s' →
  weight s' < weight s ∧ quit s' = false ∧ length (threads s') = length (threads s) ∧
  (awaited block s' ∨ answered block s').
Proof.
  intros Hinv Hq Haw Hstep. destruct Hstep as [b Hm|b a t Hm|b t Hm|b Hm|b Hm|b v Hm|Hm|Hm|i s' Hi Ht|i c arg Hi];
    try (destruct Haw as [Haw|Haw]; rewrite Haw in Hm; discriminate).
  - pose proof (inv_ask s b Hinv Hm) as Hinv'. pose proof (inv_main _ Hinv') as Hmain.
    assert (b = block) as -> by (destruct Haw as [Haw|Haw]; rewrite Haw in Hm; congruence).
    unfold ask in *. destruct (negb _); unfold weight; cbn [set_main set_thread args threads main main_weight quit length notify_result]; rewrite Hm; cbn [main_weight]; (split_and!; [lia|done|done|]).
    + left. by right.
    + right. unfold answered. unfold main_ok in Hmain. cbn in *. by rewrite <- Hmain.
  - unfold take_job in Ht. rewrite Hq in Ht.
    destruct (args s) as [|arg rest] eqn:Ha; injection Ht as <-; unfold weight; cbn [set_main set_thread args threads main main_weight quit length notify_result]; rewrite ?Ha, length_insert; cbn [length].
    + pose proof (threads_weight_insert _ i Idle Waiting Hi) as Hw. cbn in Hw.
      split_and!; [lia|done|done|]. by left.
    + pose proof (threads_weight_insert _ i Idle (Working (work_counter s) arg) Hi) as Hw. cbn in Hw.
      split_and!; [lia|done|done|]. by left.
  - pose proof (threads_weight_insert _ i _ Idle Hi) as Hw. cbn in Hw. unfold finish_job.
    destruct (_ =? _); unfold weight; cbn [set_main set_thread args threads main main_weight quit length notify_result]; rewrite length_insert;
      destruct Haw as [Haw|Haw]; rewrite Haw; cbn [notify_result main_weight]; (split_and!; [lia|done|done|]); left; solve [by left|by right].
Qed.

Lemma awaited_progress block s : inv s → quit s = false → threads s ≠ [] → awaited block s → ∃ s', step s s'.
Proof.
  intros Hinv Hq Hth [Hm|Hm]; [eexists; by eapply step_ask|].
  destruct Hinv as [Hmain Hl Hwk He]. unfold main_ok in Hmain. rewrite Hm in Hmain.
  destruct Hmain as [(f & Hp & Hr & Ht & _) Hne].
  assert (∀ i c arg, threads s !! i = Some (Working c arg) → ∃ s', step s s') as Hwork
    by (intros; eexists; by eapply step_finish).
  destruct (threads s) as [|w ws] eqn:Hts; [done|].
  destruct (inflight s) as [|arg l] eqn:Hin.
  - assert (args s ≠ []) as Ha.
    { intros Ha. apply Hne. rewrite Hr, Ht. rewrite Ha in Hp. apply Permutation_length in Hp.
      by rewrite !app_nil_r in Hp. }
    destruct w as [| |c arg|]; [|exfalso; apply (Hwk Ha); by left|by apply (Hwork 0 c arg)|].
    + assert (∃ s', take_job s 0 = Some s') as [s' Hs'].
      { unfold take_job. rewrite Hq. destruct (args s); by eexists. }
      exists s'. eapply step_take; [|exact Hs']. by rewrite Hts.
    + rewrite He in Hq; [done|]. by left.
  - assert (arg ∈ inflight s) as Harg by (rewrite Hin; by left). unfold inflight in Harg.
    apply list_elem_of_omap in Harg as (w' & Hw' & Hcur). destruct w' as [| |c arg'|]; try done.
    rewrite Hts in Hw'. apply list_elem_of_lookup in Hw' as [i Hi]. by apply (Hwork i c arg').
Qed.

(** ** Properties *)

(** C33: The verdict on a block's ring signatures is exact under every
    interleaving of the threads: in every state that can be reached from the
    start, also after blocks that were given up with rings still queued or
    being checked, after cancelled work and spurious wake-ups, a verdict of
    [signatures_valid] is true exactly if every ring of that block is valid. *)
Theorem signatures_valid_exact th_count s block v :
  reachable th_count s → main s = Verdict block v → v = forallb valid block.
Proof.
  intros Hr Hm. pose proof (inv_main _ (inv_reachable _ _ Hr)) as Hok. unfold main_ok in Hok. by rewrite Hm in Hok.
Qed.

(** C34: [signatures_valid] returns: no wake-up is lost and no thread starves
    it.  From every state that can be reached, has a thread and is not
    shutting down, while the verdict on a block is awaited, every way the
    threads may run without spurious wake-ups comes, after finitely many
    steps, to the right verdict; in particular they are never stuck before. *)
Theorem signatures_valid_returns th_count s block :
  reachable th_count s → threads s ≠ [] → quit s = false → awaited block s → inevitable (answered block) s.
Proof.
  intros Hr Hth Hq Haw. apply inv_reachable in Hr as Hinv. clear Hr.
  remember (weight s) as n eqn:Hn. revert s Hn Hinv Hth Hq Haw.
  induction n as [n IH] using lt_wf_ind. intros s -> Hinv Hth Hq Haw.
  apply inevitable_later; [by eapply awaited_progress|]. intros s' Hstep.
  destruct (awaited_step block s s' Hinv Hq Haw Hstep) as (Hw & Hq' & Hlen & [Haw'|Hans]).
  - eapply IH; [exact Hw|done| |  |done|done].
    + eapply inv_step; [exact Hinv|]. by left.
    + intros Hnil. rewrite Hnil in Hlen. by destruct (threads s).
  - by apply inevitable_now.
Qed.

End checker.

(** A ring and a thread that checks it. *)
Definition sample_ring (keys : list (list Z)) : RingSignatureArg :=
  {| tx_prefix_hash := []; arg_key_image := []; arg_output_keys := keys; arg_signatures := [] |}.
(** Rings without keys are refused. *)
Definition sample_check (arg : RingSignatureArg) : bool * bool := (negb (bool_decide (arg_output_keys arg = [])), false).

(** A block with a good ring is given up, the next block's bad ring is checked
    while the first is still at work. *)
Definition sample_run : State :=
  let good := sample_ring [[1%Z]] in let bad := sample_ring [] in
  let s := add (start (init 2) [good; bad]) [good; bad] good [bad] in
  let s := default s (take_job s 0) in
  let s := start (set_main s Outside) [bad] in
  let s := set_main (add s [bad] bad []) (Asking [bad]) in
  default s (take_job s 1).

Lemma sample_run_reachable : reachable sample_check 2 sample_run.
Proof.
  unfold reachable, any_step.
  eapply rtc_l; [left; by apply step_start|].
  eapply rtc_l; [left; by eapply step_add|].
  eapply rtc_l; [left; by apply (step_take _ _ 0)|].
  eapply rtc_l; [left; by eapply step_error|].
  eapply rtc_l; [left; by apply step_start|].
  eapply rtc_l; [left; by eapply step_add|].
  eapply rtc_l; [left; by eapply step_signatures_valid|].
  eapply rtc_l; [left; eapply (step_take _ _ 1); [reflexivity|reflexivity]|].
  apply rtc_refl.
Qed.

Lemma signatures_valid_returns_witness : inevitable sample_check (answered sample_check [sample_ring []]) sample_run.
Proof.
  apply (signatures_valid_returns sample_check 2).
  - apply sample_run_reachable.
  - done.
  - done.
  - by left.
Defined.

Lemma signatures_valid_exact_witness : false = forallb (valid sample_check) [sample_ring []].
Proof.
  apply (signatures_valid_exact sample_check 2
    (ask (finish_job sample_check (finish_job sample_check sample_run 0 1 (sample_ring [[1%Z]])) 1 2 (sample_ring []))
       [sample_ring []])); [|done].
  eapply rtc_r; [|left; by apply step_ask].
  eapply rtc_r; [|left; by apply step_finish].
  eapply rtc_r; [|left; by apply step_finish].
  apply sample_run_reachable.
Defined.

End RingChecker.
