(* ===== verification/Headers.v ===== *)
(** * Headers and the main chain (src/src/Core/BlockChain.cpp)

    The header store with its two caches, the index of the main chain by
    height, its tip, and the walks over headers: segments, common blocks,
    sparse chains and locators. *)

From S2P Require Import Prelude Varint Containers Seria Text CryptoNote Blocks Currency Db Store Pool Redo.
Import Containers Codec Varint CryptoNote Blocks Currency Db Redo.

Local Open Scope Z_scope.

Module Headers.

(** ** api::BlockHeader of rpc_api.hpp *)

Record api_BlockHeader := {
  bh_major_version : Z;
  bh_minor_version : Z;
  bh_timestamp : Timestamp;
  bh_previous_block_hash : Hash;
  bh_nonce : Z;
  bh_height : Height;
  bh_hash : Hash;
  bh_reward : Amount;
  bh_cumulative_difficulty : Difficulty;
  bh_difficulty : Difficulty;
  bh_base_reward : Amount;
  bh_block_size : Z;
  bh_transactions_cumulative_size : Z;
  bh_already_generated_coins : Amount;
  bh_already_generated_transactions : Z;
  bh_size_median : Z;
  bh_effective_size_median : Z;
  bh_timestamp_median : Timestamp;
  bh_total_fee_amount : Amount;
}.

Global Instance api_BlockHeader_eq_dec : EqDecision api_BlockHeader.
Proof. solve_decision. Defined.

(** The binary archive of [ser_members(api::BlockHeader &)]. *)
Definition ser_api_BlockHeader : codec api_BlockHeader :=
  c_iso
    (λ '(a1, (a2, (a3, (a4, (a5, (a6, (a7, (a8, (a9, (a10, (a11, (a12, (a13, (a14, (a15, (a16, (a17, (a18, a19)))))))))))))))))),
      {| bh_major_version := a1; bh_minor_version := a2; bh_timestamp := a3; bh_previous_block_hash := a4;
         bh_nonce := a5; bh_height := a6; bh_hash := a7; bh_reward := a8; bh_cumulative_difficulty := a9;
         bh_difficulty := a10; bh_base_reward := a11; bh_block_size := a12;
         bh_transactions_cumulative_size := a13; bh_already_generated_coins := a14;
         bh_already_generated_transactions := a15; bh_size_median := a16; bh_effective_size_median := a17;
         bh_timestamp_median := a18; bh_total_fee_amount := a19 |})
    (λ h, (bh_major_version h, (bh_minor_version h, (bh_timestamp h, (bh_previous_block_hash h, (bh_nonce h,
      (bh_height h, (bh_hash h, (bh_reward h, (bh_cumulative_difficulty h, (bh_difficulty h, (bh_base_reward h,
      (bh_block_size h, (bh_transactions_cumulative_size h, (bh_already_generated_coins h,
      (bh_already_generated_transactions h, (bh_size_median h, (bh_effective_size_median h,
      (bh_timestamp_median h, bh_total_fee_amount h)))))))))))))))))))
    (c_seq (c_varint 8) (λ _, c_seq (c_varint 8) (λ _, c_seq (c_varint 32) (λ _, c_seq ser_Hash (λ _,
     c_seq (c_varint 32) (λ _, c_seq (c_varint 32) (λ _, c_seq ser_Hash (λ _, c_seq (c_varint 64) (λ _,
     c_seq (c_varint 64) (λ _, c_seq (c_varint 64) (λ _, c_seq (c_varint 64) (λ _, c_seq (c_varint 32) (λ _,
     c_seq (c_varint 32) (λ _, c_seq (c_varint 64) (λ _, c_seq (c_varint 64) (λ _, c_seq (c_varint 32) (λ _,
     c_seq (c_varint 32) (λ _, c_seq (c_varint 32) (λ _, c_varint 64))))))))))))))))))).

Global Instance ser_api_BlockHeader_laws : CodecLaws ser_api_BlockHeader.
Proof. unfold ser_api_BlockHeader. apply c_iso_laws; [by intros []|apply _]. Qed.

(** ** Keys of the database *)

Definition BLOCK_key (bid : Hash) : Key := chars "b" ++ bid ++ chars "b".
Definition HEADER_key (bid : Hash) : Key := chars "b" ++ bid ++ chars "h".
Definition TRANSATION_key (tid : Hash) : Key := chars "t" ++ tid.
Definition TIP_CHAIN_key (height : Height) : Key := chars "c" ++ write_varint_sqlite4 height.
Definition TIMESTAMP_BLOCK_key (timestamp : Timestamp) (height : Height) : Key :=
  chars "T" ++ write_varint_sqlite4 timestamp ++ write_varint_sqlite4 height.
Definition CHILDREN_key (bid : Hash) : Key := chars "x-ch/" ++ bid.
Definition CD_TIPS_key (cd : Difficulty) (bid : Hash) : Key := chars "x-tips/" ++ write_varint_sqlite4 cd ++ bid.

(** ** State *)

(** [BlockChain] and [BlockChainState]: both keep their data in [m_db] of the
    node; [m_header_tip_window] has the oldest header first. *)
Record BlockChain (D : Type) := {
  node : Node D;
  m_tip_bid : Hash;
  m_tip_cumulative_difficulty : Difficulty;
  m_tip_height : Height;
  header_cache : gmap Hash api_BlockHeader;
  m_header_tip_window : list api_BlockHeader;
  m_next_median_timestamp : Timestamp;
  m_next_median_size : Z;
}.
Arguments node {D} b.
Arguments m_tip_bid {D} b.
Arguments m_tip_cumulative_difficulty {D} b.
Arguments m_tip_height {D} b.
Arguments header_cache {D} b.
Arguments m_header_tip_window {D} b.
Arguments m_next_median_timestamp {D} b.
Arguments m_next_median_size {D} b.

Definition m_db {D} (b : BlockChain D) : D := Store.m_db (store (node b)).

Section state.
Context {D : Type} (b : BlockChain D).

Definition with_node (n : Node D) : BlockChain D :=
  {| node := n; m_tip_bid := m_tip_bid b; m_tip_cumulative_difficulty := m_tip_cumulative_difficulty b;
     m_tip_height := m_tip_height b; header_cache := header_cache b;
     m_header_tip_window := m_header_tip_window b; m_next_median_timestamp := m_next_median_timestamp b;
     m_next_median_size := m_next_median_size b |}.
Definition with_m_db (d : D) : BlockChain D := with_node (with_store (node b) (Store.with_db (store (node b)) d)).
Definition with_cache (c : gmap Hash api_BlockHeader) : BlockChain D :=
  {| node := node b; m_tip_bid := m_tip_bid b; m_tip_cumulative_difficulty := m_tip_cumulative_difficulty b;
     m_tip_height := m_tip_height b; header_cache := c; m_header_tip_window := m_header_tip_window b;
     m_next_median_timestamp := m_next_median_timestamp b; m_next_median_size := m_next_median_size b |}.
Definition with_tip (bid : Hash) (cd : Difficulty) (height : Height) (window : list api_BlockHeader) : BlockChain D :=
  {| node := node b; m_tip_bid := bid; m_tip_cumulative_difficulty := cd; m_tip_height := height;
     header_cache := header_cache b; m_header_tip_window := window;
     m_next_median_timestamp := m_next_median_timestamp b; m_next_median_size := m_next_median_size b |}.
Definition with_medians (timestamp : Timestamp) (size : Z) : BlockChain D :=
  {| node := node b; m_tip_bid := m_tip_bid b; m_tip_cumulative_difficulty := m_tip_cumulative_difficulty b;
     m_tip_height := m_tip_height b; header_cache := header_cache b;
     m_header_tip_window := m_header_tip_window b; m_next_median_timestamp := timestamp;
     m_next_median_size := size |}.

End state.

Section chain.
Context {D : Type} `{Lmdb D} (currency : Currency).

(** ** Headers *)

Definition largest_window (b : BlockChain D) : Height :=
  Z.max (get_difficulty_blocks_count currency (u32 (m_tip_height b + 1)))
    (Z.max (reward_blocks_window currency) (get_timestamp_check_window currency (u32 (m_tip_height b + 1)))).

Definition store_header (b : BlockChain D) (bid : Hash) (header : api_BlockHeader) : result (BlockChain D) :=
  ba ← to_binary ser_api_BlockHeader header;
  d ← put (m_db b) (HEADER_key bid) ba true;
  Ok (with_m_db b d).

(** The candidate of the tip window for [hint], if the guard lets it be read;
    the expressions with [size()] are of 64 bits. *)
Definition window_candidate (b : BlockChain D) (hint : Height) : result (option api_BlockHeader) :=
  let size := Z.of_nat (length (m_header_tip_window b)) in
  let tip := m_tip_height b in
  if negb (tip =? u32 (-1)) && (hint <=? tip) && (u64 (tip - size + 1) <=? hint) then
    candidate ← of_option (m_header_tip_window b !! Z.to_nat (u64 (size - 1 - u32 (tip - hint))))
                  (Throw "deque::at");
    Ok (Some candidate)
  else Ok None.

(** [read_header] past the tip window: the cache, then the database. *)
Definition read_cached (b : BlockChain D) (bid : Hash) : result (option api_BlockHeader * BlockChain D) :=
  match header_cache b !! bid with
  | Some header => Ok (Some header, b)
  | None =>
      let b := if Z.of_nat (size (header_cache b)) >? u32 (largest_window b * 10) then with_cache b ∅ else b in
      match get (m_db b) (HEADER_key bid) with
      | None => Ok (None, b)
      | Some rb =>
          header ← from_binary ser_api_BlockHeader rb;
          Ok (Some header, with_cache b (<[bid := header]> (header_cache b)))
      end
  end.

Definition read_header (b : BlockChain D) (bid : Hash) (hint : Height) :
    result (option api_BlockHeader * BlockChain D) :=
  candidate ← window_candidate b hint;
  match candidate with
  | Some candidate => if bool_decide (bh_hash candidate = bid) then Ok (Some candidate, b) else read_cached b bid
  | None => read_cached b bid
  end.

(** The overload that expects the header to be there. *)
Definition expect_header (b : BlockChain D) (bid : Hash) (hint : Height) : result (api_BlockHeader * BlockChain D) :=
  '(header, b) ← read_header b bid hint;
  header ← of_option header (Throw "Expected header was not found");
  Ok (header, b).

(** ** The main chain *)

Definition read_chain (b : BlockChain D) (height : Height) : result (option Hash) :=
  match get (m_db b) (TIP_CHAIN_key height) with
  | None => Ok None
  | Some ba => bid ← from_binary ser_Hash ba; Ok (Some bid)
  end.
Definition expect_chain (b : BlockChain D) (height : Height) : result Hash :=
  bid ← read_chain b height; of_option bid (Throw "read_header_chain failed").
Definition in_chain (b : BlockChain D) (height : Height) (bid : Hash) : result bool :=
  ha ← read_chain b height; Ok (bool_decide (ha = Some bid)).

Definition get_tip (b : BlockChain D) : result api_BlockHeader :=
  match last (m_header_tip_window b) with
  | Some header => if bool_decide (m_tip_bid b = bh_hash header) then Ok header else Throw "tip window corrupted"
  | None => Throw "tip window corrupted"
  end.

(** [pop_front] while the window is too long. *)
Definition shrink (limit : Z) (window : list api_BlockHeader) : list api_BlockHeader :=
  drop (length window - Z.to_nat limit) window.

(** Without the call of [tip_changed] that ends it. *)
Definition push_chain (b : BlockChain D) (header : api_BlockHeader) : result (BlockChain D) :=
  let height := u32 (m_tip_height b + 1) in
  ba ← to_binary ser_Hash (bh_hash header);
  d ← put (m_db b) (TIP_CHAIN_key height) ba true;
  let b := with_tip (with_m_db b d) (bh_hash header) (bh_cumulative_difficulty header) height
             (m_header_tip_window b ++ [header]) in
  Ok (with_tip b (m_tip_bid b) (m_tip_cumulative_difficulty b) (m_tip_height b)
        (shrink (u32 (largest_window b * 2)) (m_header_tip_window b))).

Definition pop_chain (b : BlockChain D) (new_tip_bid : Hash) : result (BlockChain D) :=
  _ ← check (negb (m_tip_height b =? 0) && negb (bool_decide (m_header_tip_window b = []))) "pop_chain tip_height == 0";
  d ← del (m_db b) (TIP_CHAIN_key (m_tip_height b)) true;
  let b := with_tip (with_m_db b d) new_tip_bid (m_tip_cumulative_difficulty b) (u32 (m_tip_height b - 1))
             (take (length (m_header_tip_window b) - 1) (m_header_tip_window b)) in
  bid ← expect_chain b (m_tip_height b);
  _ ← check (bool_decide (bid = m_tip_bid b)) "After undo tip does not match read_chain";
  b ← (if bool_decide (m_header_tip_window b = []) then
         '(tip_header, b) ← expect_header b (m_tip_bid b) 0;
         Ok (with_tip b (m_tip_bid b) (m_tip_cumulative_difficulty b) (m_tip_height b) [tip_header])
       else Ok b);
  tip ← get_tip b;
  Ok (with_tip b (m_tip_bid b) (bh_cumulative_difficulty tip) (m_tip_height b) (m_header_tip_window b)).

(** The tip as the database has it; the last key of the index is the highest. *)
Definition read_tip (b : BlockChain D) : result (BlockChain D) :=
  let cur := rbegin (m_db b) (chars "c") [] in
  height ← (if is_end cur then Ok (u32 (-1))
            else v ← read_varint_sqlite4_str (suffix cur); Store.lexical_cast_u32 v);
  bid ← from_binary ser_Hash (data cur);
  '(tip_header, b) ← expect_header (with_tip b bid (m_tip_cumulative_difficulty b) height (m_header_tip_window b)) bid 0;
  Ok (with_tip b bid (bh_cumulative_difficulty tip_header) height [tip_header]).

(** ** Walks *)

(** The loop of [get_tip_segment]: at most [n] more headers from [pi] on. *)
Fixpoint tip_segment (n : nat) (b : BlockChain D) (pi : api_BlockHeader) :
    result (list api_BlockHeader * api_BlockHeader * BlockChain D) :=
  match n with
  | O => Ok ([], pi, b)
  | S n =>
      if bh_height pi =? 0 then Ok ([], pi, b) else
      '(pa, b) ← expect_header b (bh_previous_block_hash pi) (u32 (bh_height pi - 1));
      '(l, last, b) ← tip_segment n b pa;
      Ok (pi :: l, last, b)
  end.

Definition get_tip_segment (b : BlockChain D) (prev_info : api_BlockHeader) (window : Height) (add_genesis : bool) :
    result (list api_BlockHeader * BlockChain D) :=
  if bh_height prev_info =? u32 (-1) then Ok ([], b) else
  '(l, pi, b) ← tip_segment (Z.to_nat window) b prev_info;
  if (Z.of_nat (length l) <? window) && add_genesis then
    _ ← check (bh_height pi =? 0) "window size not reached, but genesis not found in get_tip_segment";
    Ok (rev (l ++ [pi]), b)
  else Ok (rev l, b).

(** The three loops of [get_common_block]; [fuel] bounds their steps. *)
Fixpoint go_down (fuel : nat) (b : BlockChain D) (hid : Hash) (ha : api_BlockHeader) (height : Height) :
    result (Hash * api_BlockHeader * list Hash * BlockChain D) :=
  if bh_height ha >? height then
    match fuel with
    | O => Undefined "fuel"
    | S fuel =>
        '(pa, b) ← expect_header b (bh_previous_block_hash ha) 0;
        '(h, a, chain, b) ← go_down fuel b (bh_previous_block_hash ha) pa height;
        Ok (h, a, hid :: chain, b)
    end
  else Ok (hid, ha, [], b).

Fixpoint go_common (fuel : nat) (b : BlockChain D) (hid1 hid2 : Hash) (ha1 ha2 : api_BlockHeader) :
    result (Hash * list Hash * list Hash * BlockChain D) :=
  if bool_decide (hid1 = hid2) then Ok (hid1, [], [], b) else
  match fuel with
  | O => Undefined "fuel"
  | S fuel =>
      '(pa1, b) ← expect_header b (bh_previous_block_hash ha1) 0;
      '(pa2, b) ← expect_header b (bh_previous_block_hash ha2) 0;
      '(common, chain1, chain2, b) ← go_common fuel b (bh_previous_block_hash ha1) (bh_previous_block_hash ha2) pa1 pa2;
      Ok (common, hid1 :: chain1, hid2 :: chain2, b)
  end.

(** The common block, and the blocks above it on either side, topmost first. *)
Definition get_common_block (b : BlockChain D) (bid1 bid2 : Hash) :
    result (Hash * list Hash * list Hash * BlockChain D) :=
  '(ha1, b) ← expect_header b bid1 0;
  '(ha2, b) ← expect_header b bid2 0;
  let fuel := Z.to_nat (bh_height ha1 + bh_height ha2) in
  '(hid1, ha1, up1, b) ← go_down fuel b bid1 ha1 (bh_height ha2);
  '(hid2, ha2, up2, b) ← go_down fuel b bid2 ha2 (bh_height ha1);
  '(common, chain1, chain2, b) ← go_common fuel b hid1 hid2 ha1 ha2;
  Ok (common, up1 ++ chain1, up2 ++ chain2, b).

(** [get_sparse_chain]: [size] blocks are in the path already. *)
Fixpoint sparse_loop (fuel : nat) (b : BlockChain D) (size : Z) (jump : Z) : result (list Hash) :=
  if jump <=? m_tip_height b then
    match fuel with
    | O => Undefined "fuel"
    | S fuel =>
        bid ← expect_chain b (u32 (m_tip_height b - jump));
        let size := size + 1 in
        jump ← (if size <=? 10 then Ok (u32 (jump + 1))
                else if size - 10 <? 31 then Ok (u32 (jump + 2 ^ (size - 10)))
                else Undefined "1 << (tip_path.size() - 10)");
        path ← sparse_loop fuel b size jump;
        Ok (bid :: path)
    end
  else Ok [].

Definition get_sparse_chain (b : BlockChain D) : result (list Hash) :=
  path ← sparse_loop 64 b 0 0;
  bid ← of_option (last path) (Undefined "tip_path.back()");
  Ok (if bool_decide (bid = genesis_block_hash currency) then path else path ++ [genesis_block_hash currency]).

Fixpoint find_blockchain_supplement (b : BlockChain D) (remote_block_ids : list Hash) :
    result (Height * BlockChain D) :=
  match remote_block_ids with
  | [] => Ok (0, b)
  | lit :: rest =>
      '(header, b) ← read_header b lit 0;
      match header with
      | None => find_blockchain_supplement b rest
      | Some header =>
          if bh_height header >? m_tip_height b then find_blockchain_supplement b rest
          else Ok (bh_height header, b)
      end
  end.

(** The descent of [get_sync_headers_chain] to the main chain. *)
Fixpoint to_main_chain (fuel : nat) (b : BlockChain D) (header : api_BlockHeader) :
    result (api_BlockHeader * BlockChain D) :=
  if bh_height header =? 0 then Ok (header, b) else
  ha ← read_chain b (bh_height header);
  if bool_decide (ha = Some (bh_hash header)) then Ok (header, b) else
  match fuel with
  | O => Undefined "fuel"
  | S fuel =>
      '(header, b) ← expect_header b (bh_previous_block_hash header) 0;
      to_main_chain fuel b header
  end.

(** At most [n] blocks of the main chain from [height] on. *)
Fixpoint chain_from (n : nat) (b : BlockChain D) (height : Height) : result (list Hash) :=
  match n with
  | O => Ok []
  | S n =>
      if height <=? m_tip_height b then
        bid ← expect_chain b height;
        rest ← chain_from n b (u32 (height + 1));
        Ok (bid :: rest)
      else Ok []
  end.

(** The blocks and the start height. *)
Fixpoint get_sync_headers_chain (b : BlockChain D) (locator : list Hash) (max_count : nat) :
    result (list Hash * Height * BlockChain D) :=
  match locator with
  | [] => Ok ([], u32 (m_tip_height b + 1), b)
  | lit :: locator =>
      '(header, b) ← read_header b lit 0;
      match header with
      | None => get_sync_headers_chain b locator max_count
      | Some header =>
          '(header, b) ← to_main_chain (Z.to_nat (bh_height header)) b header;
          chain ← chain_from max_count b (bh_height header);
          Ok (chain, bh_height header, b)
      end
  end.

Fixpoint read_headers (b : BlockChain D) (chain : list Hash) : result (list api_BlockHeader * BlockChain D) :=
  match chain with
  | [] => Ok ([], b)
  | c :: chain =>
      '(header, b) ← expect_header b c 0;
      '(rest, b) ← read_headers b chain;
      Ok (header :: rest, b)
  end.
Definition get_sync_headers (b : BlockChain D) (locator : list Hash) (max_count : nat) :
    result (list api_BlockHeader * BlockChain D) :=
  '(chain, _, b) ← get_sync_headers_chain b locator max_count; read_headers b chain.

Definition get_timestamp_lower_bound_block_index (b : BlockChain D) (ts : Timestamp) : result Height :=
  let cur := begin (m_db b) (chars "T") (write_varint_sqlite4 ts) in
  if is_end cur then Ok (m_tip_height b) else
  '(_, rest) ← read_varint_sqlite4 (suffix cur);
  '(v, _) ← read_varint_sqlite4 rest;
  Store.lexical_cast_u32 v.

End chain.

End Headers.
