(* ===== verification/WalletData.v ===== *)
(** * What the wallet stores (src/src/rpc_api.hpp, Core/rpc_api_serialization.cpp,
    Core/WalletStateBasic.hpp)

    Outputs, transfers, transactions and balances as the wallet's database
    keeps them, the values of its undo log, and their binary archives. *)

From S2P Require Import Prelude Varint Containers Words Seria SeriaMap CryptoNote.
Import Containers Codec SeriaMap CryptoNote.

Local Open Scope Z_scope.

Module WalletData.

(** ** Structures of rpc_api.hpp *)

(** [api::Output]. *)
Record Output := {
  o_amount : Amount;
  o_public_key : PublicKey;
  o_global_index : Z;
  o_unlock_time : Z;
  o_index_in_transaction : Z;
  o_height : Height;
  o_key_image : KeyImage;
  o_transaction_public_key : PublicKey;
  o_address : list Z;
  o_dust : bool;
}.

(** [api::Transfer]. *)
Record Transfer := {
  tr_address : list Z;
  tr_amount : Z;
  tr_ours : bool;
  tr_locked : bool;
  tr_outputs : list Output;
}.

(** [api::Transaction]. *)
Record api_Transaction := {
  t_unlock_time : Z;
  t_transfers : list Transfer;
  t_payment_id : Hash;
  t_anonymity : Z;
  t_hash : Hash;
  t_fee : Z;
  t_public_key : PublicKey;
  t_extra : BinaryArray;
  t_coinbase : bool;
  t_amount : Amount;
  t_block_height : Height;
  t_block_hash : Hash;
  t_timestamp : Timestamp;
  t_binary_size : Z;
}.

(** [api::Balance]. *)
Record Balance := {
  spendable : Words.Uint128;
  spendable_dust : Words.Uint128;
  locked_or_unconfirmed : Words.Uint128;
  spendable_outputs : Z;
  spendable_dust_outputs : Z;
  locked_or_unconfirmed_outputs : Z;
}.

(** [Uint128(d)]. *)
Definition u128 (d : Z) : Words.Uint128 := {| Words.lo := d; Words.hi := 0 |}.

Definition no_balance : Balance :=
  {| spendable := u128 0; spendable_dust := u128 0; locked_or_unconfirmed := u128 0;
     spendable_outputs := 0; spendable_dust_outputs := 0; locked_or_unconfirmed_outputs := 0 |}.

Definition total (b : Balance) : Words.Uint128 :=
  Words.Uint128_add (Words.Uint128_add (spendable b) (spendable_dust b)) (locked_or_unconfirmed b).
Definition total_outputs (b : Balance) : Z :=
  u64 (u64 (spendable_outputs b + spendable_dust_outputs b) + locked_or_unconfirmed_outputs b).

Global Instance Uint128_eq_dec : EqDecision Words.Uint128.
Proof. solve_decision. Defined.
Global Instance Output_eq_dec : EqDecision Output.
Proof. solve_decision. Defined.
Global Instance Transfer_eq_dec : EqDecision Transfer.
Proof. solve_decision. Defined.
Global Instance api_Transaction_eq_dec : EqDecision api_Transaction.
Proof. solve_decision. Defined.
Global Instance Balance_eq_dec : EqDecision Balance.
Proof. solve_decision. Defined.

(** ** Structures of WalletStateBasic.hpp *)

Record UndoValue := { exists_ : bool; value : BinaryArray }.

Record HeightAmounGi := { height : Height; amount : Amount; global_index : Z }.

Global Instance UndoValue_eq_dec : EqDecision UndoValue.
Proof. solve_decision. Defined.
Global Instance HeightAmounGi_eq_dec : EqDecision HeightAmounGi.
Proof. solve_decision. Defined.

(** [std::pair<Amount, uint32_t>], in its order. *)
Global Instance pair_order : KeyOrder (Z * Z) := λ a b,
  (a.1 <? b.1) || ((a.1 =? b.1) && (a.2 <? b.2)).
Global Instance pair_order_laws : KeyOrderLaws (Z * Z).
Proof.
  split; unfold key_ltb, pair_order.
  - intros [a1 a2]; cbn; lia.
  - intros [a1 a2] [b1 b2] [c1 c2]; cbn; lia.
  - intros [a1 a2] [b1 b2]; cbn.
    destruct (decide (a1 = b1)) as [->|], (decide (a2 = b2)) as [->|]; [by left|right; lia..].
Qed.

(** ** Binary archives *)

Definition ser_Output : codec Output :=
  c_iso
    (λ '(k, (g, (a, (u, (i, (h, (ki, (tk, (ad, d))))))))),
      {| o_amount := a; o_public_key := k; o_global_index := g; o_unlock_time := u; o_index_in_transaction := i;
         o_height := h; o_key_image := ki; o_transaction_public_key := tk; o_address := ad; o_dust := d |})
    (λ o, (o_public_key o, (o_global_index o, (o_amount o, (o_unlock_time o, (o_index_in_transaction o,
      (o_height o, (o_key_image o, (o_transaction_public_key o, (o_address o, o_dust o))))))))))
    (c_seq ser_Hash (λ _, c_seq (c_varint 32) (λ _, c_seq (c_varint 64) (λ _, c_seq (c_varint 64) (λ _,
     c_seq (c_varint 32) (λ _, c_seq (c_varint 32) (λ _, c_seq ser_Hash (λ _, c_seq ser_Hash (λ _,
     c_seq c_bytes (λ _, c_bool)))))))))).

Definition ser_Transfer : codec Transfer :=
  c_iso
    (λ '(ad, (a, (ou, (l, os)))),
      {| tr_address := ad; tr_amount := a; tr_ours := ou; tr_locked := l; tr_outputs := os |})
    (λ t, (tr_address t, (tr_amount t, (tr_ours t, (tr_locked t, tr_outputs t)))))
    (c_seq c_bytes (λ _, c_seq c_int64 (λ _, c_seq c_bool (λ _, c_seq c_bool (λ _, c_vector ser_Output))))).

Definition ser_api_Transaction : codec api_Transaction :=
  c_iso
    (λ '(ut, (am, (fe, (pk, (trs, (pid, (an, (ex, (h, (co, (bh, (bid, (ts, bs))))))))))))),
      {| t_unlock_time := ut; t_transfers := trs; t_payment_id := pid; t_anonymity := an; t_hash := h;
         t_fee := fe; t_public_key := pk; t_extra := ex; t_coinbase := co; t_amount := am;
         t_block_height := bh; t_block_hash := bid; t_timestamp := ts; t_binary_size := bs |})
    (λ t, (t_unlock_time t, (t_amount t, (t_fee t, (t_public_key t, (t_transfers t, (t_payment_id t,
      (t_anonymity t, (t_extra t, (t_hash t, (t_coinbase t, (t_block_height t, (t_block_hash t,
      (t_timestamp t, t_binary_size t))))))))))))))
    (c_seq (c_varint 64) (λ _, c_seq (c_varint 64) (λ _, c_seq c_int64 (λ _, c_seq ser_Hash (λ _,
     c_seq (c_vector ser_Transfer) (λ _, c_seq ser_Hash (λ _, c_seq (c_varint 32) (λ _, c_seq c_bytes (λ _,
     c_seq ser_Hash (λ _, c_seq c_bool (λ _, c_seq (c_varint 32) (λ _, c_seq ser_Hash (λ _,
     c_seq (c_varint 32) (λ _, c_varint 32)))))))))))))).

Definition ser_Balance : codec Balance :=
  c_iso
    (λ '(sl, (sh, (dl, (dh, (ll, (lh, (so, (dd, lo)))))))),
      {| spendable := Words.Build_Uint128 sl sh; spendable_dust := Words.Build_Uint128 dl dh;
         locked_or_unconfirmed := Words.Build_Uint128 ll lh; spendable_outputs := so;
         spendable_dust_outputs := dd; locked_or_unconfirmed_outputs := lo |})
    (λ b, (Words.lo (spendable b), (Words.hi (spendable b), (Words.lo (spendable_dust b), (Words.hi (spendable_dust b),
      (Words.lo (locked_or_unconfirmed b), (Words.hi (locked_or_unconfirmed b), (spendable_outputs b,
      (spendable_dust_outputs b, locked_or_unconfirmed_outputs b)))))))))
    (c_seq (c_varint 64) (λ _, c_seq (c_varint 64) (λ _, c_seq (c_varint 64) (λ _, c_seq (c_varint 64) (λ _,
     c_seq (c_varint 64) (λ _, c_seq (c_varint 64) (λ _, c_seq (c_varint 64) (λ _, c_seq (c_varint 64) (λ _,
     c_varint 64))))))))).

Definition ser_HeightAmounGi : codec HeightAmounGi :=
  c_iso (λ '(h, (a, g)), {| height := h; amount := a; global_index := g |})
        (λ v, (height v, (amount v, global_index v)))
        (c_seq (c_varint 32) (λ _, c_seq (c_varint 64) (λ _, c_varint 32))).

Definition ser_UndoValue : codec UndoValue :=
  c_iso (λ '(e, v), {| exists_ := e; value := v |}) (λ u, (exists_ u, value u)) (c_seq c_bool (λ _, c_bytes)).

(** [UndoMap]. *)
Definition ser_UndoMap : codec (gmap (list Z) UndoValue) := c_map ser_UndoValue.

(** [std::pair<TransactionPrefix, api::Transaction>]. *)
Definition ser_found : codec (TransactionPrefix * api_Transaction) :=
  c_seq ser_TransactionPrefix (λ _, ser_api_Transaction).

(** ** Laws *)

Ltac archive := apply c_iso_laws; [by intros []|apply _].

Global Instance ser_Output_laws : CodecLaws ser_Output.
Proof. archive. Qed.
Global Instance ser_Output_nonempty : CodecNonempty ser_Output.
Proof. unfold ser_Output. apply _. Qed.
Global Instance ser_Transfer_laws : CodecLaws ser_Transfer.
Proof. archive. Qed.
Global Instance ser_Transfer_nonempty : CodecNonempty ser_Transfer.
Proof. unfold ser_Transfer. apply _. Qed.
Global Instance ser_api_Transaction_laws : CodecLaws ser_api_Transaction.
Proof. archive. Qed.
Global Instance ser_Balance_laws : CodecLaws ser_Balance.
Proof. apply c_iso_laws; [by intros [[] [] []]|apply _]. Qed.
Global Instance ser_HeightAmounGi_laws : CodecLaws ser_HeightAmounGi.
Proof. archive. Qed.
Global Instance ser_UndoValue_laws : CodecLaws ser_UndoValue.
Proof. archive. Qed.
Global Instance ser_UndoMap_laws : CodecLaws ser_UndoMap.
Proof. unfold ser_UndoMap. apply c_map_laws; apply _. Qed.
Global Instance ser_found_laws : CodecLaws ser_found.
Proof. unfold ser_found. apply _. Qed.

End WalletData.
