(* ===== verification/Wallet.v ===== *)
(** * The wallet's state (src/src/Core/WalletStateBasic.cpp)

    The wallet keeps what it found of the chain in a database of its own:
    unspent and locked outputs under several indexes, key images, balances,
    transactions and headers.  Every write made for a block goes through
    [put_with_undo] and [del_with_undo], which log the old values, so that
    [pop_chain] can take the block back. *)

From S2P Require Import Prelude Varint Containers Words Seria SeriaMap Text CryptoNote Blocks Currency Db Store Headers WalletData.
Import Containers Codec Varint SeriaMap CryptoNote Currency Db Headers WalletData.

Local Open Scope Z_scope.

Module Wallet.

(** ** Keys *)

Definition version_current : list Z := chars "3".

Definition STATE_key (height : Height) : Key := chars "X" ++ write_varint_sqlite4 height.
Definition HEADER_key (height : Height) : Key := chars "c" ++ write_varint_sqlite4 height.
Definition TRANSACTION_key (tid : Hash) : Key := chars "tx" ++ tid.
Definition ADDRESS_HEIGHT_prefix (address : list Z) : Key := chars "th" ++ address ++ chars "/".
Definition ADDRESS_HEIGHT_key (address : list Z) (height : Height) (tid : Hash) : Key :=
  ADDRESS_HEIGHT_prefix address ++ write_varint_sqlite4 height ++ tid.
Definition BALANCE_key (address : list Z) : Key := chars "ba" ++ address.
Definition KEYIMAGE_key (ki : KeyImage) : Key := chars "ki" ++ ki.
Definition he_am_gi (h : Height) (am : Amount) (gi : Z) : Key :=
  write_varint_sqlite4 h ++ write_varint_sqlite4 am ++ write_varint_sqlite4 gi.
Definition UNSPENT_key (h : Height) (am : Amount) (gi : Z) : Key := chars "un" ++ he_am_gi h am gi.
Definition ADDRESS_UNSPENT_prefix (address : list Z) : Key := chars "uh" ++ address ++ chars "/".
Definition ADDRESS_UNSPENT_key (address : list Z) (h : Height) (am : Amount) (gi : Z) : Key :=
  ADDRESS_UNSPENT_prefix address ++ he_am_gi h am gi.
Definition UNLOCKED_prefix : Key := chars "ul".
Definition LOCKED_HEIGHT_prefix : Key := chars "lh".
Definition LOCKED_TIMESTAMP_prefix : Key := chars "lt".
Definition LOCKED_KI_prefix (ki : KeyImage) : Key := chars "li" ++ ki.
Definition LOCKED_KI_key (ki : KeyImage) (am : Amount) (gi : Z) : Key :=
  LOCKED_KI_prefix ki ++ write_varint_sqlite4 am ++ write_varint_sqlite4 gi.

(** [KeyImage{}]. *)
Definition no_keyimage : KeyImage := null_hash.

(** ** State *)

Record WalletState (D : Type) := {
  m_db : D;
  m_tip_height : Height;
  m_tail_height : Height;
  m_tip : api_BlockHeader;
  current_undo_map : gmap Key UndoValue;
}.
Arguments m_db {D} w : rename.
Arguments m_tip_height {D} w : rename.
Arguments m_tail_height {D} w : rename.
Arguments m_tip {D} w : rename.
Arguments current_undo_map {D} w : rename.

(** [api::BlockHeader{}]. *)
Definition no_header : api_BlockHeader :=
  {| bh_major_version := 0; bh_minor_version := 0; bh_timestamp := 0; bh_previous_block_hash := null_hash;
     bh_nonce := 0; bh_height := 0; bh_hash := null_hash; bh_reward := 0; bh_cumulative_difficulty := 0;
     bh_difficulty := 0; bh_base_reward := 0; bh_block_size := 0; bh_transactions_cumulative_size := 0;
     bh_already_generated_coins := 0; bh_already_generated_transactions := 0; bh_size_median := 0;
     bh_effective_size_median := 0; bh_timestamp_median := 0; bh_total_fee_amount := 0 |}.

(** [BlockChainState::fill_genesis]. *)
Definition fill_genesis (genesis_bid : Hash) (g : Blocks.BlockTemplate) : api_BlockHeader :=
  let h := Blocks.header g in
  {| bh_major_version := Blocks.major_version h; bh_minor_version := Blocks.minor_version h;
     bh_timestamp := Blocks.timestamp h; bh_previous_block_hash := Blocks.previous_block_hash h;
     bh_nonce := Blocks.nonce h; bh_height := 0; bh_hash := genesis_bid; bh_reward := 0;
     bh_cumulative_difficulty := 0; bh_difficulty := 0; bh_base_reward := 0; bh_block_size := 0;
     bh_transactions_cumulative_size := 0; bh_already_generated_coins := 0;
     bh_already_generated_transactions := 0; bh_size_median := 0; bh_effective_size_median := 0;
     bh_timestamp_median := 0; bh_total_fee_amount := 0 |}.

Section state.
Context {D : Type} (w : WalletState D).

Definition with_db (d : D) : WalletState D :=
  {| m_db := d; m_tip_height := m_tip_height w; m_tail_height := m_tail_height w; m_tip := m_tip w;
     current_undo_map := current_undo_map w |}.
Definition with_undo (u : gmap Key UndoValue) : WalletState D :=
  {| m_db := m_db w; m_tip_height := m_tip_height w; m_tail_height := m_tail_height w; m_tip := m_tip w;
     current_undo_map := u |}.
Definition with_heights (tip tail : Height) : WalletState D :=
  {| m_db := m_db w; m_tip_height := tip; m_tail_height := tail; m_tip := m_tip w;
     current_undo_map := current_undo_map w |}.
Definition with_tip (h : api_BlockHeader) : WalletState D :=
  {| m_db := m_db w; m_tip_height := m_tip_height w; m_tail_height := m_tail_height w; m_tip := h;
     current_undo_map := current_undo_map w |}.

End state.

Section wallet.
Context {D : Type} `{Lmdb D} (currency : Currency).
Abbreviation W := (WalletState D).

(** [from_binary] of what the database has under [key], if anything. *)
Definition read {A} (w : W) (key : Key) (c : codec A) : result (option A) :=
  match get (m_db w) key with
  | None => Ok None
  | Some ba => v ← from_binary c ba; Ok (Some v)
  end.

(** ** The undo log *)

Definition record_undo (w : W) (key : Key) : W :=
  match current_undo_map w !! key with
  | Some _ => w
  | None =>
      let v :=
        match get (m_db w) key with
        | Some was_value => {| exists_ := true; value := was_value |}
        | None => {| exists_ := false; value := [] |}
        end in
      with_undo w (<[key := v]> (current_undo_map w))
  end.

Definition put_with_undo (w : W) (key : Key) (v : BinaryArray) (nooverwrite : bool) : result W :=
  let w := record_undo w key in
  d ← put (m_db w) key v nooverwrite; Ok (with_db w d).

Definition del_with_undo (w : W) (key : Key) (mustexist : bool) : result W :=
  let w := record_undo w key in
  d ← del (m_db w) key mustexist; Ok (with_db w d).

Definition save_db_state (w : W) (state : Height) (undo_map : gmap Key UndoValue) : result W :=
  if bool_decide (undo_map = ∅) then Ok w
  else
    v ← to_binary ser_UndoMap undo_map;
    d ← put (m_db w) (STATE_key state) v true; Ok (with_db w d).

Definition undo_one (d : D) (uv : Key * UndoValue) : result D :=
  if exists_ uv.2 then put d uv.1 (value uv.2) false else del d uv.1 false.

Definition undo_db_state (w : W) (state : Height) : result W :=
  u ← read w (STATE_key state) ser_UndoMap;
  match u with
  | None => Ok w
  | Some undo_map =>
      d ← del (m_db w) (STATE_key state) true;
      d ← for_each undo_one (map_entries undo_map) d;
      Ok (with_db w d)
  end.

(** ** The chain of headers *)

Definition empty_chain (w : W) : bool := u32 (m_tip_height w + 1) =? m_tail_height w.

Definition read_chain (w : W) (height : Height) : result (option api_BlockHeader) :=
  read w (HEADER_key height) ser_api_BlockHeader.
Definition expect_chain (w : W) (height : Height) : result api_BlockHeader :=
  h ← read_chain w height; of_option h (Throw "read_header_chain failed").

Definition push_chain (w : W) (header : api_BlockHeader) : result W :=
  let w := with_heights w (u32 (m_tip_height w + 1)) (m_tail_height w) in
  ba ← to_binary ser_api_BlockHeader header;
  d ← put (m_db w) (HEADER_key (m_tip_height w)) ba true;
  let w := with_tip (with_db w d) header in
  w ← save_db_state w (m_tip_height w) (current_undo_map w);
  Ok (with_undo w ∅).

Definition read_tip (w : W) : result W :=
  h ← (if empty_chain w then Ok no_header else expect_chain w (m_tip_height w)); Ok (with_tip w h).

Definition pop_chain (w : W) : result W :=
  check (negb (empty_chain w)) "pop_chain tip_height == -1";;
  w ← undo_db_state w (m_tip_height w);
  d ← del (m_db w) (HEADER_key (m_tip_height w)) true;
  let w := with_heights (with_db w d) (u32 (m_tip_height w - 1)) (m_tail_height w) in
  read_tip w.

Definition fix_empty_chain (w : W) : result W :=
  if empty_chain w then
    push_chain (with_heights w UINT32_MAX 0) (fill_genesis (genesis_block_hash currency) (genesis_block_template currency))
  else Ok w.

Definition reset_chain (w : W) (new_tail_height : Height) : result W :=
  check (empty_chain w) "reset_chain chain should be empty";;
  Ok (with_heights w (u32 (new_tail_height - 1)) new_tail_height).

(** The loop of [get_sparse_chain]; [size] blocks are in the path already. *)
Fixpoint sparse_loop (fuel : nat) (w : W) (size jump : Z) : result (list Hash) :=
  if u32 (jump + m_tail_height w) <=? m_tip_height w then
    match fuel with
    | O => Undefined "fuel"
    | S fuel =>
        header ← expect_chain w (u32 (m_tip_height w - jump));
        let size := size + 1 in
        jump ← (if size <=? 10 then Ok (u32 (jump + 1))
                else if size - 10 <? 31 then Ok (u32 (jump + 2 ^ (size - 10)))
                else Undefined "1 << (tip_path.size() - 10)");
        path ← sparse_loop fuel w size jump;
        Ok (bh_hash header :: path)
    end
  else Ok [].

Definition get_sparse_chain (w : W) : result (list Hash) :=
  path ← (if u32 (m_tip_height w + 1) >? m_tail_height w then sparse_loop 64 w 0 0 else Ok []);
  let genesis := genesis_block_hash currency in
  Ok (if bool_decide (last path = Some genesis) then path else path ++ [genesis]).

(** The constructor: a database of another version, wallet or chain is emptied,
    then the heights are read back. *)
Fixpoint erase_all (fuel : nat) (d : D) (c : Cursor) : result D :=
  if is_end c then Ok d
  else
    match fuel with
    | O => Undefined "fuel"
    | S fuel => '(d, c) ← erase d c; erase_all fuel d c
    end.

Definition open_db (d : D) (genesis_bid cache_name : list Z) : result D :=
  let stored key := default [] (get d (chars key)) in
  if negb (bool_decide (stored "$version" = version_current)) ||
     negb (bool_decide (stored "$genesis_bid" = Hex.to_hex genesis_bid)) ||
     negb (bool_decide (stored "$cache_name" = cache_name)) then
    d ← erase_all (mdb_entries d) d (rbegin d [] []);
    d ← put d (chars "$version") version_current true;
    d ← put d (chars "$cache_name") cache_name true;
    put d (chars "$genesis_bid") (Hex.to_hex genesis_bid) true
  else Ok d.

Definition make_WalletState (d : D) (cache_name : list Z) : result W :=
  d ← open_db d (genesis_block_hash currency) cache_name;
  let w := {| m_db := d; m_tip_height := UINT32_MAX; m_tail_height := 0; m_tip := no_header; current_undo_map := ∅ |} in
  let cur1 := begin d (chars "c") [] in
  let cur2 := rbegin d (chars "c") [] in
  w ← (if negb (is_end cur1) && negb (is_end cur2) then
         tip ← read_varint_sqlite4_str (suffix cur2); tip ← Store.lexical_cast_u32 tip;
         tail ← read_varint_sqlite4_str (suffix cur1); tail ← Store.lexical_cast_u32 tail;
         read_tip (with_heights w tip tail)
       else Ok w);
  fix_empty_chain w.

(** ** Balances *)

Definition op_amount (op : Z) (b : Words.Uint128) (am : Amount) : Words.Uint128 :=
  let b := if 0 <? op then Words.Uint128_add b (u128 am) else b in
  if op <? 0 then Words.Uint128_sub b (u128 am) else b.

Definition combine_balance (b : Balance) (output : Output) (locked_op spendable_op : Z) : Balance :=
  let am := o_amount output in
  let locked := op_amount locked_op (locked_or_unconfirmed b) am in
  let locked_outputs := u64 (locked_or_unconfirmed_outputs b + locked_op) in
  if o_dust output then
    {| spendable := spendable b; spendable_dust := op_amount spendable_op (spendable_dust b) am;
       locked_or_unconfirmed := locked; spendable_outputs := spendable_outputs b;
       spendable_dust_outputs := u64 (spendable_dust_outputs b + spendable_op);
       locked_or_unconfirmed_outputs := locked_outputs |}
  else
    {| spendable := op_amount spendable_op (spendable b) am; spendable_dust := spendable_dust b;
       locked_or_unconfirmed := locked; spendable_outputs := u64 (spendable_outputs b + spendable_op);
       spendable_dust_outputs := spendable_dust_outputs b;
       locked_or_unconfirmed_outputs := locked_outputs |}.

Definition read_balance (w : W) (address : list Z) : result Balance :=
  b ← read w (BALANCE_key address) ser_Balance; Ok (default no_balance b).

Definition write_balance (w : W) (address : list Z) (b : Balance) : result W :=
  if bool_decide (total b = u128 0) && (total_outputs b =? 0) then del_with_undo w (BALANCE_key address) false
  else ba ← to_binary ser_Balance b; put_with_undo w (BALANCE_key address) ba false.

Definition modify_balance (w : W) (output : Output) (locked_op spendable_op : Z) : result W :=
  balance ← read_balance w (o_address output);
  balance2 ← read_balance w [];
  w ← write_balance w (o_address output) (combine_balance balance output locked_op spendable_op);
  write_balance w [] (combine_balance balance2 output locked_op spendable_op).

(** ** Key images and unspent outputs *)

Definition read_by_keyimage (w : W) (ki : KeyImage) : result (option HeightAmounGi) :=
  read w (KEYIMAGE_key ki) ser_HeightAmounGi.

Definition update_keyimage (w : W) (ki : KeyImage) (v : HeightAmounGi) (nooverwrite : bool) : result W :=
  if bool_decide (ki = no_keyimage) then Ok w
  else ba ← to_binary ser_HeightAmounGi v; put_with_undo w (KEYIMAGE_key ki) ba nooverwrite.

Definition read_from_unspent_index (w : W) (v : HeightAmounGi) : result (option Output) :=
  read w (UNSPENT_key (height v) (amount v) (global_index v)) ser_Output.

(** [read_by_keyimage] and then [read_from_unspent_index] of what it gave. *)
Definition read_existing (w : W) (ki : KeyImage) : result (option HeightAmounGi * option Output) :=
  heamgi ← read_by_keyimage w ki;
  existing ← match heamgi with Some v => read_from_unspent_index w v | None => Ok None end;
  Ok (heamgi, existing).

Definition add_to_unspent_index (w : W) (output : Output) : result W :=
  w ← modify_balance w output 0 1;
  ba ← to_binary ser_Output output;
  w ← put_with_undo w (UNSPENT_key (o_height output) (o_amount output) (o_global_index output)) ba true;
  put_with_undo w
    (ADDRESS_UNSPENT_key (o_address output) (o_height output) (o_amount output) (o_global_index output)) [] true.

Definition remove_from_unspent_index (w : W) (output : Output) : result W :=
  w ← modify_balance w output 0 (-1);
  w ← del_with_undo w (UNSPENT_key (o_height output) (o_amount output) (o_global_index output)) true;
  del_with_undo w
    (ADDRESS_UNSPENT_key (o_address output) (o_height output) (o_amount output) (o_global_index output)) true.

(** ** Locked outputs *)

Definition clamped_unlock_time (unlock_time : Z) : Z := Z.min unlock_time 0xFFFFFFFF.
Definition locked_prefix (unlock_time : Z) : Key :=
  if is_transaction_spend_time_block currency unlock_time then LOCKED_HEIGHT_prefix else LOCKED_TIMESTAMP_prefix.
Definition LOCKED_key (unlock_time : Z) (am : Amount) (gi : Z) : Key :=
  locked_prefix unlock_time ++ he_am_gi (clamped_unlock_time unlock_time) am gi.

Definition add_to_lock_index (w : W) (output : Output) : result W :=
  w ← modify_balance w output 1 0;
  ba ← to_binary ser_Output output;
  w ← put_with_undo w (LOCKED_key (o_unlock_time output) (o_amount output) (o_global_index output)) ba true;
  if bool_decide (o_key_image output = no_keyimage) then Ok w
  else
    ba ← to_binary (c_varint 64) (o_unlock_time output);
    put_with_undo w (LOCKED_KI_key (o_key_image output) (o_amount output) (o_global_index output)) ba true.

Definition remove_from_lock_index (w : W) (output : Output) : result W :=
  w ← modify_balance w output (-1) 0;
  w ← del_with_undo w (LOCKED_key (o_unlock_time output) (o_amount output) (o_global_index output)) true;
  if bool_decide (o_key_image output = no_keyimage) then Ok w
  else del_with_undo w (LOCKED_KI_key (o_key_image output) (o_amount output) (o_global_index output)) true.

(** ** Incoming outputs *)

(** [try_add_incoming_output]: the change of the balance, [None] for [false]. *)
Definition try_add_incoming_output (w : W) (output : Output) : result (option Amount) :=
  '(heamgi, existing) ← read_existing w (o_key_image output);
  match heamgi, existing with
  | Some _, None => Ok None
  | Some v, Some existing =>
      if negb (o_unlock_time output =? 0) then Ok (Some (o_amount output))
      else if (o_amount output <=? amount v) || negb (bool_decide (o_address output = o_address existing)) then Ok None
      else Ok (Some (u64 (o_amount output - amount v)))
  | None, _ => Ok (Some (o_amount output))
  end.

Definition output_heamgi (output : Output) : HeightAmounGi :=
  {| height := o_height output; amount := o_amount output; global_index := o_global_index output |}.

(** [add_incoming_output(output, just_unlocked)]. *)
Definition add_output (w : W) (output : Output) (just_unlocked : bool) : result (W * Amount) :=
  '(heamgi, existing) ← read_existing w (o_key_image output);
  match heamgi, existing with
  | Some _, None => Ok (w, 0)
  | _, _ =>
      if negb (o_unlock_time output =? 0) && negb just_unlocked then
        w ← add_to_lock_index w output; Ok (w, o_amount output)
      else
        match heamgi, existing with
        | Some v, Some existing =>
            if (o_amount output <=? amount v) || negb (bool_decide (o_address output = o_address existing)) then Ok (w, 0)
            else
              w ← remove_from_unspent_index w existing;
              w ← add_to_unspent_index w output;
              w ← update_keyimage w (o_key_image output) (output_heamgi output) false;
              Ok (w, u64 (o_amount output - amount v))
        | _, _ =>
            w ← add_to_unspent_index w output;
            w ← update_keyimage w (o_key_image output) (output_heamgi output) true;
            Ok (w, o_amount output)
        end
  end.
Definition add_incoming_output (w : W) (output : Output) : result (W * Amount) := add_output w output false.

(** [output.amount = adjusted_amount]. *)
Definition with_amount (o : Output) (am : Amount) : Output :=
  {| o_amount := am; o_public_key := o_public_key o; o_global_index := o_global_index o;
     o_unlock_time := o_unlock_time o; o_index_in_transaction := o_index_in_transaction o;
     o_height := o_height o; o_key_image := o_key_image o;
     o_transaction_public_key := o_transaction_public_key o; o_address := o_address o; o_dust := o_dust o |}.

(** [unlock(now_height, output)]. *)
Definition unlock_output (w : W) (now_height : Height) (output : Output) : result W :=
  w ← remove_from_lock_index w output;
  '(w, adjusted_amount) ← add_output w output true;
  ba ← to_binary ser_Output (with_amount output adjusted_amount);
  put_with_undo w (UNLOCKED_prefix ++ he_am_gi now_height (o_amount output) (o_global_index output)) ba true.

(** ** Walks over the indexes *)

Definition parse_lock_key (suf : Key) : result (Z * Amount * Z) :=
  '(he, suf) ← read_varint_sqlite4 suf; he ← Store.lexical_cast_u32 he;
  '(am, suf) ← read_varint_sqlite4 suf;
  '(gi, suf) ← read_varint_sqlite4 suf; gi ← Store.lexical_cast_u32 gi;
  check (bool_decide (suf = [])) "";;
  Ok (he, am, gi).

(** The map [read_unlock_index] adds to. *)
Abbreviation unlocks := (gmap (Amount * Z) Output).

Definition unlock_entry (address : list Z) (end_ : Z) (add : unlocks) (e : Key * Value) : result (bool * unlocks) :=
  '(height, amount, global_index) ← parse_lock_key e.1;
  if height >? end_ then Ok (false, add)
  else
    output ← from_binary ser_Output e.2;
    check (o_global_index output =? global_index) "Index corrupted";;
    if bool_decide (address = []) || bool_decide (o_address output = address) then
      check (bool_decide (add !! (amount, o_global_index output) = None))
        "Invariant dead read_unlock_index adding output twice";;
      Ok (true, <[(amount, o_global_index output) := output]> add)
    else Ok (true, add).

Definition read_unlock_index (w : W) (add : unlocks) (index_prefix : Key) (address : list Z) (begin_ end_ : Z) :
    result unlocks :=
  if negb (begin_ =? UINT32_MAX) && (end_ <=? begin_) then Ok add
  else
    let middle := write_varint_sqlite4 (u32 (begin_ + 1)) in
    for_cursor (m_db w) (begin (m_db w) index_prefix middle) (λ add c, unlock_entry address end_ add (suffix c, data c)) add.

Definition api_get_unlocked_outputs (w : W) (address : list Z) (from_height to_height : Height) : result unlocks :=
  read_unlock_index w ∅ UNLOCKED_prefix address from_height to_height.

(** [unlock(now_height, now)]. *)
Definition unlock (w : W) (now_height : Height) (now : Timestamp) : result W :=
  to_unlock ← read_unlock_index w ∅ LOCKED_HEIGHT_prefix [] UINT32_MAX now_height;
  to_unlock ← read_unlock_index w to_unlock LOCKED_TIMESTAMP_prefix [] UINT32_MAX now;
  for_each (λ w unl, unlock_output w now_height unl.2) (map_entries to_unlock) w.

(** ** Incoming key images *)

Definition parse_locked_ki (suf : Key) : result (Amount * Z) :=
  '(am, suf) ← read_varint_sqlite4 suf;
  '(gi, suf) ← read_varint_sqlite4 suf; gi ← Store.lexical_cast_u32 gi;
  check (bool_decide (suf = [])) "";;
  Ok (am, gi).

(** The locked output an entry under [LOCKED_INDEX_KI_AM_GI] points to. *)
Definition locked_output (w : W) (am : Amount) (gi : Z) (v : Value) : result Output :=
  unl ← from_binary (c_varint 64) v;
  o ← read w (LOCKED_key unl am gi) ser_Output;
  of_option o (Throw "").

Definition add_incoming_keyimage (w : W) (block_height : Height) (ki : KeyImage) : result (W * Amount) :=
  found_in_locked ← for_cursor (m_db w) (begin (m_db w) (LOCKED_KI_prefix ki) [])
    (λ found c, '(am, gi) ← parse_locked_ki (suffix c); o ← locked_output w am gi (data c); Ok (true, found ++ [o])) [];
  w ← for_each (λ w lo, unlock_output w block_height lo) found_in_locked w;
  '(_, existing) ← read_existing w ki;
  match existing with
  | Some existing => w ← remove_from_unspent_index w existing; Ok (w, o_amount existing)
  | None => Ok (w, 0)
  end.

(** [try_adding_incoming_keyimage]: [spending_output], [None] for [false]. *)
Definition try_adding_incoming_keyimage (w : W) (ki : KeyImage) : result (option Output) :=
  '(_, candidate) ← read_existing w ki;
  for_cursor (m_db w) (begin (m_db w) (LOCKED_KI_prefix ki) [])
    (λ candidate c,
       '(am, gi) ← parse_locked_ki (suffix c);
       if match candidate with Some o => am <=? o_amount o | None => false end then Ok (true, candidate)
       else
         output ← locked_output w am gi (data c);
         check ((o_amount output =? am) && (o_global_index output =? gi)) "";;
         if match candidate with Some o => negb (bool_decide (o_address output = o_address o)) | None => false end
         then Ok (true, candidate)
         else Ok (true, Some output))
    candidate.

(** ** Transactions *)

(** [addresses] of [add_transaction]. *)
Definition transfer_addresses (ptx : api_Transaction) : gset (list Z) :=
  {[ [] ]} ∪ list_to_set (tr_address <$> t_transfers ptx).

(** Returned besides the state: the timestamp [on_first_transaction_found] is
    called with, if it is. *)
Definition add_transaction (w : W) (height : Height) (tid : Hash) (tx : TransactionPrefix) (ptx : api_Transaction) :
    result (W * option Timestamp) :=
  let first := if is_end (begin (m_db w) (chars "tx") []) then Some (t_timestamp ptx) else None in
  str_pa ← to_binary ser_found (tx, ptx);
  w ← put_with_undo w (TRANSACTION_key tid) str_pa true;
  w ← for_each (λ w addr, put_with_undo w (ADDRESS_HEIGHT_key addr height tid) [] true)
        (set_items (transfer_addresses ptx)) w;
  Ok (w, first).

Definition has_transaction (w : W) (tid : Hash) : bool := bool_decide (is_Some (get (m_db w) (TRANSACTION_key tid))).
Definition get_transaction (w : W) (tid : Hash) : result (option (TransactionPrefix * api_Transaction)) :=
  read w (TRANSACTION_key tid) ser_found.

(** ** Transfers *)

(** [api::Transaction{}] and [api::Block]. *)
Definition no_transaction : api_Transaction :=
  {| t_unlock_time := 0; t_transfers := []; t_payment_id := null_hash; t_anonymity := 0; t_hash := null_hash;
     t_fee := 0; t_public_key := null_hash; t_extra := []; t_coinbase := false; t_amount := 0;
     t_block_height := 0; t_block_hash := null_hash; t_timestamp := 0; t_binary_size := 0 |}.
Definition with_transfers (tx : api_Transaction) (trs : list Transfer) : api_Transaction :=
  {| t_unlock_time := t_unlock_time tx; t_transfers := trs; t_payment_id := t_payment_id tx;
     t_anonymity := t_anonymity tx; t_hash := t_hash tx; t_fee := t_fee tx; t_public_key := t_public_key tx;
     t_extra := t_extra tx; t_coinbase := t_coinbase tx; t_amount := t_amount tx;
     t_block_height := t_block_height tx; t_block_hash := t_block_hash tx; t_timestamp := t_timestamp tx;
     t_binary_size := t_binary_size tx |}.
Record api_Block := { b_header : api_BlockHeader; b_transactions : list api_Transaction }.
Definition no_block : api_Block := {| b_header := no_header; b_transactions := [] |}.

(** The variables of the loop of [api_get_transfers]. *)
Record transfers := {
  found_blocks : list api_Block;
  current_block : api_Block;
  total_transactions_found : Z;
  from_height : Height;
  to_height : Height;
}.

Definition push_block (t : transfers) : list api_Block :=
  if bool_decide (b_transactions (current_block t) = []) then found_blocks t
  else found_blocks t ++ [current_block t].

Definition add_to_block (w : W) (address : list Z) (height : Height) (tx : api_Transaction) (t : transfers) :
    result transfers :=
  header ← (if bool_decide (b_transactions (current_block t) = []) then
              h ← read_chain w height; Ok (default (b_header (current_block t)) h)
            else Ok (b_header (current_block t)));
  let tx := if bool_decide (address = []) then tx
            else with_transfers tx (filter (λ tr, tr_address tr = address) (t_transfers tx)) in
  Ok {| found_blocks := found_blocks t;
        current_block := {| b_header := header; b_transactions := b_transactions (current_block t) ++ [tx] |};
        total_transactions_found := total_transactions_found t + 1;
        from_height := from_height t; to_height := to_height t |}.

Definition transfers_entry (w : W) (address : list Z) (forward : bool) (desired_tx_count : Z) (t : transfers)
    (suf : Key) : result (bool * transfers) :=
  '(height, tid) ← read_varint_sqlite4 suf; height ← Store.lexical_cast_u32 height;
  check (length tid =? 32)%nat "CD_TIPS_PREFIX corrupted";;
  if forward && (height >? to_height t) then Ok (false, t)
  else if negb forward && (height <=? from_height t) then Ok (false, t)
  else
    found ← get_transaction w tid;
    let tx := match found with Some (_, tx) => tx | None => no_transaction end in
    if negb (bh_height (b_header (current_block t)) =? height) &&
       negb (bool_decide (b_transactions (current_block t) = [])) then
      let t := {| found_blocks := push_block t; current_block := no_block;
                  total_transactions_found := total_transactions_found t;
                  from_height := from_height t; to_height := to_height t |} in
      if desired_tx_count <=? total_transactions_found t then
        Ok (false, {| found_blocks := found_blocks t; current_block := no_block;
                      total_transactions_found := total_transactions_found t;
                      from_height := if forward then from_height t else height;
                      to_height := if forward then u32 (height - 1) else to_height t |})
      else t ← add_to_block w address height tx t; Ok (true, t)
    else t ← add_to_block w address height tx t; Ok (true, t).

(** [api_get_transfers]: the blocks and the heights passed by pointer. *)
Definition api_get_transfers (w : W) (address : list Z) (from to : Height) (forward : bool) (desired_tx_count : Z) :
    result (list api_Block * Height * Height) :=
  if to <=? from then Ok ([], from, to)
  else
    let prefix := ADDRESS_HEIGHT_prefix address in
    let middle := write_varint_sqlite4 (if forward then u32 (from + 1) else to) in
    let cur := if forward then begin (m_db w) prefix middle else rbegin (m_db w) prefix middle in
    t ← for_cursor (m_db w) cur (λ t c, transfers_entry w address forward desired_tx_count t (suffix c))
      {| found_blocks := []; current_block := no_block; total_transactions_found := 0; from_height := from; to_height := to |};
    Ok (push_block t, from_height t, to_height t).

(** ** What the wallet reports *)

Section reports.
(** [get_used_key_images()]: virtual, empty unless a derived class keeps a
    pool. *)
Context (used_key_images : gmap KeyImage Z).

Definition is_memory_spent (output : Output) : bool :=
  bool_decide (is_Some (used_key_images !! o_key_image output)).

Definition unspent_entry {A} (w : W) (address : list Z) (to : Height) (fun_ : A → Output → result (bool * A))
    (acc : bool * A) (e : Key * Value) : result (bool * (bool * A)) :=
  '(he, am, gi) ← parse_lock_key e.1;
  if he >? to then Ok (false, acc)
  else
    output ←
      (if bool_decide (address = []) then from_binary ser_Output e.2
       else
         o ← read_from_unspent_index w {| height := he; amount := am; global_index := gi |};
         output ← of_option o (Throw "unspent indexes do not match");
         check (bool_decide (o_address output = address)) "output is in wrong index by address";;
         Ok output);
    '(go_on, a) ← fun_ acc.2 output;
    Ok (go_on, (go_on, a)).

(** [for_each_in_unspent_index]: with what it returns, what [fun] gathered. *)
Definition for_each_in_unspent_index {A} (w : W) (address : list Z) (from to : Height)
    (fun_ : A → Output → result (bool * A)) (a : A) : result (bool * A) :=
  let prefix := if bool_decide (address = []) then chars "un" else ADDRESS_UNSPENT_prefix address in
  let middle := write_varint_sqlite4 (u32 (from + 1)) in
  for_cursor (m_db w) (begin (m_db w) prefix middle)
    (λ acc c, unspent_entry w address to fun_ acc (suffix c, data c)) (true, a).

Definition api_add_unspent (w : W) (result_ : list Output) (total_amount : Amount) (address : list Z)
    (confirmed_height : Height) (max_amount : Amount) : result (bool * (list Output * Amount)) :=
  recently_unlocked ← api_get_unlocked_outputs w address confirmed_height UINT32_MAX;
  for_each_in_unspent_index w address UINT32_MAX confirmed_height
    (λ '(outs, sum) output,
       if negb (is_memory_spent output) &&
          bool_decide (recently_unlocked !! (o_amount output, o_global_index output) = None) then
         let outs := outs ++ [output] in
         let sum := if o_dust output then sum else u64 (sum + o_amount output) in
         Ok (negb ((max_amount <=? sum) && (10000 <=? Z.of_nat (length outs))), (outs, sum))
       else Ok (true, (outs, sum)))
    (result_, total_amount).

(** The recently unlocked outputs that [get_balance] and
    [api_get_locked_or_unconfirmed_unspent] still call locked: the output is
    looked up under the amount and index [ag]. *)
Definition still_waiting (w : W) (confirmed_height : Height) (ag : Amount * Z) (lou : (Amount * Z) * Output) :
    result (option Output) :=
  existing ← read_from_unspent_index w {| height := o_height lou.2; amount := ag.1; global_index := ag.2 |};
  Ok (existing ← existing;
      if is_memory_spent lou.2 then None
      else if o_height lou.2 <=? confirmed_height then Some existing else None).

Definition api_get_locked_or_unconfirmed_unspent (w : W) (address : list Z) (confirmed_height : Height) :
    result (list Output) :=
  '(_, outs) ← for_each_in_unspent_index w address confirmed_height UINT32_MAX
    (λ outs output, Ok (true, if is_memory_spent output then outs else outs ++ [output])) [];
  recently_unlocked ← api_get_unlocked_outputs w address confirmed_height UINT32_MAX;
  outs ← for_each (λ outs lou,
      o ← still_waiting w confirmed_height (o_amount lou.2, o_global_index lou.2) lou;
      Ok (match o with Some _ => outs ++ [lou.2] | None => outs end))
    (map_entries recently_unlocked) outs;
  still_locked ← read_unlock_index w ∅ LOCKED_TIMESTAMP_prefix address UINT32_MAX 0xFFFFFFFF;
  still_locked ← read_unlock_index w still_locked LOCKED_HEIGHT_prefix address UINT32_MAX 0xFFFFFFFF;
  Ok (outs ++ filter (λ o, is_memory_spent o = false) (map_entries still_locked).*2).

Definition get_balance (w : W) (address : list Z) (confirmed_height : Height) : result Balance :=
  balance ← read_balance w address;
  '(_, balance) ← for_each_in_unspent_index w address confirmed_height UINT32_MAX
    (λ balance output, Ok (true, combine_balance balance output (if is_memory_spent output then 0 else 1) (-1))) balance;
  recently_unlocked ← api_get_unlocked_outputs w address confirmed_height UINT32_MAX;
  balance ← for_each (λ balance lou,
      o ← still_waiting w confirmed_height lou.1 lou;
      Ok (match o with Some existing => combine_balance balance existing 1 (-1) | None => balance end))
    (map_entries recently_unlocked) balance;
  for_each (λ balance kit,
      '(_, existing) ← read_existing w kit.1;
      Ok (match existing with
          | Some existing =>
              if (o_height existing <=? confirmed_height) &&
                 (bool_decide (address = []) || bool_decide (o_address existing = address))
              then combine_balance balance existing 0 (-1) else balance
          | None => balance
          end))
    (map_entries used_key_images) balance.

End reports.

End wallet.

End Wallet.
