(* ===== verification/WalletUndo.v ===== *)
(** * Taking blocks back from the wallet

    Whatever the wallet does for a block, [pop_chain] returns its database to
    what it was before: the undo log holds the old value of every key written,
    and nothing outside the log changed. *)

From S2P Require Import Prelude Varint Containers Words Seria SeriaMap Text CryptoNote Blocks Currency Db Store Headers WalletData Wallet.
Import Containers Codec Varint SeriaMap CryptoNote Currency Db Store Headers WalletData Wallet.

Local Open Scope Z_scope.

Module WalletUndo.

Create HintDb logged discriminated.
#[local] Arguments HEADER_key : simpl never.
#[local] Arguments STATE_key : simpl never.

(** Keys of the chain itself, ["X"] and ["c"], are not the handlers' to write. *)
Definition data_key (k : Key) : bool :=
  match k with c :: _ => negb (c =? 88) && negb (c =? 99) | [] => false end.

Definition undo_of (o : option Value) : UndoValue :=
  match o with
  | Some v => {| exists_ := true; value := v |}
  | None => {| exists_ := false; value := [] |}
  end.

Section logs.
Context {D : Type} `{LmdbLaws D} (currency : Currency).
Abbreviation W := (WalletState D).

(** From [w] to [w'] every change of the database is in the undo log. *)
Record logs (w w' : W) : Prop := {
  lg_tip : m_tip_height w' = m_tip_height w;
  lg_tail : m_tail_height w' = m_tail_height w;
  lg_header : m_tip w' = m_tip w;
  lg_max : mdb_env_get_maxkeysize (m_db w') = mdb_env_get_maxkeysize (m_db w);
  lg_keys k :
    match current_undo_map w !! k, current_undo_map w' !! k with
    | Some a, o => o = Some a
    | None, Some a => a = undo_of (get (m_db w) k) ∧ data_key k = true
    | None, None => get (m_db w') k = get (m_db w) k
    end;
}.

Global Instance logs_preorder : PreOrder logs.
Proof.
  split.
  - intros w. split; try done. intros k. by destruct (_ !! k).
  - intros w w' w'' [] []. split; try congruence. intros k.
    specialize (lg_keys0 k). specialize (lg_keys1 k).
    destruct (current_undo_map w !! k) as [a|], (current_undo_map w' !! k) as [a'|], (current_undo_map w'' !! k) as [a''|];
      simplify_eq; try done; try congruence.
Qed.

Lemma logs_write w k (v : option Value) d : data_key k = true → written (m_db w) k v d →
  logs w (with_db (record_undo w k) d).
Proof.
  intros Hk [Hm Hw]. unfold record_undo, with_db, with_undo.
  destruct (current_undo_map w !! k) as [a|] eqn:Ha; split; cbn; try done; intros k'; rewrite ?Hw.
  - destruct (decide (k' = k)) as [->|Hne]; [by rewrite Ha|]. by destruct (_ !! k').
  - destruct (decide (k' = k)) as [->|Hne].
    + rewrite Ha, lookup_insert_eq. by destruct (get (m_db w) k).
    + rewrite lookup_insert_ne by done. by destruct (_ !! k').
Qed.

Lemma record_undo_db w k : m_db (record_undo w k) = m_db w.
Proof. unfold record_undo. by destruct (_ !! k). Qed.

Lemma data_key_nonempty k : data_key k = true → k ≠ [].
Proof. by destruct k. Qed.

Lemma put_logs w k v no w' : put_with_undo w k v no = Ok w' → data_key k = true → logs w w'.
Proof.
  intros Hp Hk. unfold put_with_undo in Hp. inv_ok Hp. injection Hp as <-. rewrite record_undo_db in Ha.
  apply put_inv in Ha as (_ & _ & Hw). by eapply logs_write.
Qed.

Lemma del_logs w k must w' : del_with_undo w k must = Ok w' → data_key k = true → logs w w'.
Proof.
  intros Hp Hk. unfold del_with_undo in Hp. inv_ok Hp. injection Hp as <-. rewrite record_undo_db in Ha.
  apply del_inv in Ha as (_ & Hw); [|by apply data_key_nonempty]. by eapply logs_write.
Qed.

Lemma for_each_logs {B} (f : W → B → result W) l w w' :
  (∀ w b w', f w b = Ok w' → logs w w') → for_each f l w = Ok w' → logs w w'.
Proof.
  intros Hf. revert w. induction l as [|b l IH]; intros w Hl; cbn [for_each] in Hl; [by injection Hl as <-|].
  inv_ok Hl. etrans; [by eapply Hf|by apply IH].
Qed.

Hint Resolve put_logs del_logs for_each_logs : logged.
#[local] Opaque put_with_undo del_with_undo.
Hint Extern 1 (data_key _ = true) => reflexivity : logged.

(** [logged H] follows the writes of the successful run [H] backwards. *)
Ltac follow H :=
  repeat (cbn beta iota in H;
  lazymatch type of H with
  | mbind _ _ = Ok _ =>
      let a := fresh "a" in let Ha := fresh "Ha" in
      apply bind_Ok_inv in H; destruct H as (a & Ha & H)
  | Ok _ = Ok _ => injection H as H; subst
  | context [match ?x with _ => _ end] => destruct x eqn:?; try discriminate H
  end); subst.
Ltac backwards :=
  repeat match goal with
  | |- logs ?w ?w => reflexivity
  | _ : _ = Ok ?w |- logs _ ?w => etransitivity; [|solve [eauto with logged nocore]]
  | _ : _ = Ok (?w, _) |- logs _ ?w => etransitivity; [|solve [eauto with logged nocore]]
  end.
Ltac logged H := follow H; backwards.

Lemma write_balance_logs w a b w' : write_balance w a b = Ok w' → logs w w'.
Proof. intros Hs. unfold write_balance in Hs. logged Hs. Qed.
Hint Resolve write_balance_logs : logged.
#[local] Opaque write_balance.
Lemma modify_balance_logs w o l s w' : modify_balance w o l s = Ok w' → logs w w'.
Proof. intros Hs. unfold modify_balance in Hs. logged Hs. Qed.
Hint Resolve modify_balance_logs : logged.
#[local] Opaque modify_balance.
Lemma update_keyimage_logs w ki v no w' : update_keyimage w ki v no = Ok w' → logs w w'.
Proof. intros Hs. unfold update_keyimage in Hs. logged Hs. Qed.
Lemma add_to_unspent_index_logs w o w' : add_to_unspent_index w o = Ok w' → logs w w'.
Proof. intros Hs. unfold add_to_unspent_index in Hs. logged Hs. Qed.
Lemma remove_from_unspent_index_logs w o w' : remove_from_unspent_index w o = Ok w' → logs w w'.
Proof. intros Hs. unfold remove_from_unspent_index in Hs. logged Hs. Qed.

Lemma LOCKED_data_key u am gi : data_key (LOCKED_key currency u am gi) = true.
Proof. unfold LOCKED_key, locked_prefix. by destruct (is_transaction_spend_time_block _ _). Qed.
Hint Resolve LOCKED_data_key update_keyimage_logs add_to_unspent_index_logs remove_from_unspent_index_logs : logged.
#[local] Opaque update_keyimage add_to_unspent_index remove_from_unspent_index.

Lemma add_to_lock_index_logs w o w' : add_to_lock_index currency w o = Ok w' → logs w w'.
Proof. intros Hs. unfold add_to_lock_index in Hs. logged Hs. Qed.
Lemma remove_from_lock_index_logs w o w' : remove_from_lock_index currency w o = Ok w' → logs w w'.
Proof. intros Hs. unfold remove_from_lock_index in Hs. logged Hs. Qed.
Hint Resolve add_to_lock_index_logs remove_from_lock_index_logs : logged.
#[local] Opaque add_to_lock_index remove_from_lock_index.

Lemma add_output_logs w o j w' am : add_output currency w o j = Ok (w', am) → logs w w'.
Proof. intros Hs. unfold add_output in Hs. logged Hs. Qed.
Hint Resolve add_output_logs : logged.
#[local] Opaque add_output.
Lemma unlock_output_logs w h o w' : unlock_output currency w h o = Ok w' → logs w w'.
Proof. intros Hs. unfold unlock_output in Hs. logged Hs. Qed.
Hint Resolve unlock_output_logs : logged.
#[local] Opaque unlock_output.
Lemma unlock_each_logs h l w w' :
  for_each (λ w lo, unlock_output currency w h lo) l w = Ok w' → logs w w'.
Proof. apply for_each_logs. intros w1 b w2 Hb. eapply unlock_output_logs, Hb. Qed.
Hint Resolve unlock_each_logs : logged.
Lemma unlock_logs w h t w' : unlock currency w h t = Ok w' → logs w w'.
Proof. intros Hs. unfold unlock in Hs. follow Hs. eapply for_each_logs; [|exact Hs]. intros w1 b w2 Hb. eapply unlock_output_logs, Hb. Qed.
Lemma add_incoming_keyimage_logs w h ki w' am : add_incoming_keyimage currency w h ki = Ok (w', am) → logs w w'.
Proof. intros Hs. unfold add_incoming_keyimage in Hs. logged Hs. Qed.
Lemma add_transaction_logs w h tid tx ptx w' first : add_transaction w h tid tx ptx = Ok (w', first) → logs w w'.
Proof.
  intros Hs. unfold add_transaction in Hs. follow Hs. etrans; [eapply put_logs; [exact Ha0|done]|].
  eapply for_each_logs; [|exact Ha1]. intros w1 b w2 Hb. eapply put_logs; [exact Hb|done].
Qed.

(** ** Whatever the wallet does with a block *)

(** The arguments have the widths of their types. *)
Inductive wallet_step (w w' : W) : Prop :=
| step_output o am : c_ok ser_Output o → add_incoming_output currency w o = Ok (w', am) → wallet_step w w'
| step_keyimage h ki am : length ki = 32%nat → add_incoming_keyimage currency w h ki = Ok (w', am) → wallet_step w w'
| step_transaction h tid tx ptx first : add_transaction w h tid tx ptx = Ok (w', first) → wallet_step w w'
| step_unlock h t : unlock currency w h t = Ok w' → wallet_step w w'.

Lemma wallet_step_logs w w' : wallet_step w w' → logs w w'.
Proof.
  destruct 1; [by eapply add_output_logs|by eapply add_incoming_keyimage_logs|by eapply add_transaction_logs|by eapply unlock_logs].
Qed.

Lemma wallet_steps_logs w w' : rtc wallet_step w w' → logs w w'.
Proof. induction 1 as [|w w1 w2 Hs _ IH]; [done|]. etrans; [by apply wallet_step_logs|done]. Qed.

(** ** Taking it back *)

(** States that no reader can tell apart. *)
Record same (w w' : W) : Prop := {
  same_tip : m_tip_height w' = m_tip_height w;
  same_tail : m_tail_height w' = m_tail_height w;
  same_header : m_tip w' = m_tip w;
  same_undo : current_undo_map w' = current_undo_map w;
  same_max : mdb_env_get_maxkeysize (m_db w') = mdb_env_get_maxkeysize (m_db w);
  same_db k : get (m_db w') k = get (m_db w) k;
}.

Global Instance same_equivalence : Equivalence same.
Proof.
  split.
  - by intros w.
  - intros w w' []. by split.
  - intros w w' w'' [] []. split; try congruence.
Qed.

(** [n] headers are stored from [m_tail_height] on, the last of them is the
    tip, and above it no undo record is left. *)
Record chain_ok (w : W) (n : Z) : Prop := {
  ck_length : 0 ≤ n ∧ 0 ≤ m_tail_height w ∧ m_tail_height w + n < 2 ^ 32;
  ck_tip : m_tip_height w = u32 (m_tail_height w + n - 1);
  ck_header : read_tip w = Ok w;
  ck_undo : current_undo_map w = ∅;
  ck_above m : n ≤ m → m_tail_height w + m < 2 ^ 32 → get (m_db w) (STATE_key (m_tail_height w + m)) = None;
}.

Lemma undo_all (l : list (Key * UndoValue)) (d : D) (o : Key → option Value) :
  NoDup l.*1 → (∀ k a, (k, a) ∈ l → a = undo_of (o k) ∧ k ≠ [] ∧ (is_Some (o k) → key_ok d k)) →
  ∃ d', for_each undo_one l d = Ok d' ∧ mdb_env_get_maxkeysize d' = mdb_env_get_maxkeysize d ∧
    ∀ k, get d' k = if decide (k ∈ l.*1) then o k else get d k.
Proof.
  revert d. induction l as [|[k a] l IH]; intros d Hnd Hl; [by exists d|].
  apply NoDup_cons in Hnd as [Hk Hnd]. destruct (Hl k a) as (-> & Hne & Hok); [by left|].
  assert (∃ d1, undo_one d (k, undo_of (o k)) = Ok d1 ∧ written d k (o k) d1) as (d1 & Hd1 & Hm & Hw).
  { unfold undo_one. destruct (o k) as [v|] eqn:Hv; cbn.
    - apply put_ok; [apply Hok; by eexists|done].
    - by apply del_total. }
  destruct (IH d1 Hnd) as (d2 & Hd2 & Hm2 & Hg).
  { intros k' a' Hin. destruct (Hl k' a') as (-> & Hne' & Hok'); [by right|]. split_and!; [done..|].
    intros Hs. unfold key_ok. rewrite Hm. by apply Hok'. }
  exists d2. split_and!; [cbn [for_each]; rewrite Hd1; exact Hd2|congruence|].
  intros k'. rewrite Hg, Hw. cbn [fmap list_fmap fst].
  destruct (decide (k' = k)) as [->|Hne'].
  - rewrite (decide_False (P := k ∈ l.*1)) by done. rewrite decide_True by (by left). done.
  - destruct (decide (k' ∈ l.*1)) as [Hi|Hi].
    + rewrite decide_True by (by right). done.
    + rewrite decide_False; [done|]. intros [?|?]%elem_of_cons; done.
Qed.

Lemma STATE_key_inj a b : in_u 32 a → in_u 32 b → STATE_key a = STATE_key b → a = b.
Proof.
  intros Ha%in_u_32_64 Hb%in_u_32_64 [= Heq]. apply (write_varint_sqlite4_app_inj a b [] []); [done..|].
  by rewrite !app_nil_r.
Qed.
Lemma STATE_not_data h : data_key (STATE_key h) = false.
Proof. done. Qed.
Lemma HEADER_not_data h : data_key (HEADER_key h) = false.
Proof. done. Qed.
Lemma STATE_not_HEADER a b : STATE_key a ≠ HEADER_key b.
Proof. done. Qed.

(** What [push_chain] writes. *)
Lemma push_chain_inv w header w1 : push_chain w header = Ok w1 → c_ok ser_api_BlockHeader header →
  let tip := u32 (m_tip_height w + 1) in let u := current_undo_map w in
  (m_tip_height w1 = tip ∧ m_tail_height w1 = m_tail_height w ∧ m_tip w1 = header ∧ current_undo_map w1 = ∅) ∧
  mdb_env_get_maxkeysize (m_db w1) = mdb_env_get_maxkeysize (m_db w) ∧
  (u ≠ ∅ → get (m_db w) (STATE_key tip) = None) ∧
  (∀ k, get (m_db w1) k =
    if decide (k = HEADER_key tip) then Some (encoding ser_api_BlockHeader header)
    else if decide (k = STATE_key tip ∧ u ≠ ∅) then Some (encoding ser_UndoMap u) else get (m_db w) k) ∧
  get (m_db w) (HEADER_key tip) = None.
Proof.
  intros Hp Hh tip u. unfold push_chain in Hp. cbn [m_tip_height m_tail_height m_db with_heights with_db with_tip current_undo_map] in Hp.
  inv_ok Hp. injection Hp as <-. destruct (encoding_ok ser_api_BlockHeader header Hh) as (He & _ & _).
  rewrite He in Ha. injection Ha as <-. apply put_inv in Ha0 as (_ & Hno & Hm & Hw). specialize (Hno eq_refl).
  unfold save_db_state in Ha1. fold u in Ha1. case_bool_decide as Hu.
  - injection Ha1 as <-. cbn. rewrite Hu. split_and!; try done. intros k. fold tip in Hw. rewrite Hw.
    destruct (decide (k = HEADER_key tip)) as [->|Hne]; [done|].
    rewrite (decide_False (P := _ ∧ _)) by (intros [_ []]; done). done.
  - cbn [m_db with_tip with_db] in Ha1. inv_ok Ha1. injection Ha1 as <-. cbn. fold tip in Ha0, Hw, Hno.
    apply put_inv in Ha0 as (_ & Hno2 & Hm2 & Hw2). specialize (Hno2 eq_refl). rewrite Hw in Hno2.
    rewrite decide_False in Hno2 by apply STATE_not_HEADER. split_and!; try done; [congruence|]. intros k. rewrite Hw2, Hw.
    unfold encoding. rewrite Ha. destruct (decide (k = STATE_key tip)) as [->|Hne].
    + rewrite decide_False by apply STATE_not_HEADER. by rewrite decide_True by done.
    + destruct (decide (k = HEADER_key tip)); [done|]. rewrite decide_False; [done|]. by intros [? _].
Qed.

Lemma read_tip_ext w w' : m_tip_height w' = m_tip_height w → m_tail_height w' = m_tail_height w →
  (∀ k, get (m_db w') k = get (m_db w) k) → read_tip w = Ok w → read_tip w' = Ok (with_tip w' (m_tip w)).
Proof.
  intros Ht Hl Hg Hr. unfold read_tip, expect_chain, read_chain, empty_chain, read in *. rewrite Ht, Hl, Hg.
  inv_ok Hr. rewrite Ha. cbn [mbind result_bind]. injection Hr as Hr. by rewrite <- Hr.
Qed.

(** [synced w w1]: the wallet handles a block and pushes its header. *)
Inductive synced (w w1 : W) : Prop :=
| synced_block w' header :
    rtc wallet_step w w' → c_ok ser_api_BlockHeader header → c_ok ser_UndoMap (current_undo_map w') →
    push_chain w' header = Ok w1 → synced w w1.

Lemma chain_ok_tip w n : chain_ok w n → in_u 32 (m_tail_height w + n) ∧ u32 (m_tip_height w + 1) = m_tail_height w + n.
Proof. intros [Hl Ht _ _ _]. rewrite Ht. unfold in_u. split; [lia|]. words. Qed.

Lemma synced_chain_ok w n w1 : chain_ok w n → m_tail_height w + n + 1 < 2 ^ 32 → synced w w1 → chain_ok w1 (n + 1).
Proof.
  intros Hok Hn [w' header Hs%wallet_steps_logs Hh Hu Hp]. destruct (chain_ok_tip w n Hok) as [Hin Htip].
  destruct Hok as [Hl Ht Hr Hun Hab].
  destruct (push_chain_inv w' header w1 Hp Hh) as ((E1 & E2 & E3 & E4) & Hm & Hst & Hg & _).
  rewrite (lg_tip _ _ Hs), Htip in E1, Hg. rewrite (lg_tail _ _ Hs) in E2.
  split.
  - rewrite E2. lia.
  - rewrite E1, E2. replace (m_tail_height w + (n + 1) - 1) with (m_tail_height w + n) by lia.
    by rewrite u32_small.
  - unfold read_tip, empty_chain. rewrite E1, E2. replace (_ =? _) with false by (symmetry; apply Z.eqb_neq; words).
    unfold expect_chain, read_chain, read. rewrite Hg, decide_True by done.
    destruct (encoding_ok ser_api_BlockHeader header Hh) as (_ & _ & ->). cbn. f_equal.
    destruct w1. cbn in *. by subst.
  - done.
  - intros m Hnm Hm32. rewrite E2 in *. rewrite Hg. rewrite decide_False by apply STATE_not_HEADER.
    rewrite decide_False.
    + pose proof (lg_keys _ _ Hs (STATE_key (m_tail_height w + m))) as Hk. rewrite Hun, lookup_empty in Hk.
      destruct (current_undo_map w' !! _) as [a|]; [by destruct Hk|]. rewrite Hk. apply Hab; lia.
    + intros [Heq%STATE_key_inj _]; [lia|unfold in_u; lia|done].
Qed.

(** The undo record, or its absence, takes the database back but for the
    header. *)
Lemma undo_back w w' w1 header tip : current_undo_map w = ∅ → logs w w' →
  get (m_db w) (STATE_key tip) = None → c_ok ser_UndoMap (current_undo_map w') →
  mdb_env_get_maxkeysize (m_db w1) = mdb_env_get_maxkeysize (m_db w) →
  (∀ k, get (m_db w1) k =
    if decide (k = HEADER_key tip) then Some header
    else if decide (k = STATE_key tip ∧ current_undo_map w' ≠ ∅) then Some (encoding ser_UndoMap (current_undo_map w'))
    else get (m_db w') k) →
  ∃ d, undo_db_state w1 tip = Ok (with_db w1 d) ∧ mdb_env_get_maxkeysize d = mdb_env_get_maxkeysize (m_db w) ∧
    ∀ k, get d k = if decide (k = HEADER_key tip) then Some header else get (m_db w) k.
Proof.
  intros Hun Hs Hab Hu Hm Hg. set (u := current_undo_map w') in *.
  assert (∀ k, match u !! k with
      Some a => a = undo_of (get (m_db w) k) ∧ data_key k = true | None => get (m_db w') k = get (m_db w) k end) as Hkeys.
  { intros k. pose proof (lg_keys _ _ Hs k) as Hk. by rewrite Hun, lookup_empty in Hk. }
  unfold undo_db_state, read. rewrite Hg, decide_False by apply STATE_not_HEADER.
  destruct (decide (u = ∅)) as [He|Hne].
  - rewrite decide_False by (intros [_ Hne]; done). pose proof (Hkeys (STATE_key tip)) as Hk.
    rewrite He, lookup_empty in Hk. rewrite Hk, Hab. exists (m_db w1). split_and!; [by destruct w1|done|].
    intros k. rewrite Hg. specialize (Hkeys k). rewrite He, lookup_empty in Hkeys.
    rewrite (decide_False (P := _ ∧ _)) by (intros [_ Hne]; done). by rewrite Hkeys.
  - rewrite decide_True by done. destruct (encoding_ok ser_UndoMap u Hu) as (_ & _ & Hf).
    cbn [mbind result_bind]. rewrite Hf. cbn [mbind result_bind].
    destruct (del_total (m_db w1) (STATE_key tip) true) as (d1 & Hd1 & Hm1 & Hg1).
    { done. }
    { intros _. unfold stored. pose proof (Hg (STATE_key tip)) as Hst. unfold get in Hst. rewrite Hst.
      rewrite decide_False by apply STATE_not_HEADER. rewrite decide_True by done. by eexists. }
    rewrite Hd1. cbn [mbind result_bind].
    destruct (undo_all (map_entries u) d1 (get (m_db w))) as (d2 & Hd2 & Hm2 & Hg2).
    { apply NoDup_map_entries. }
    { intros k a Hka%elem_of_map_entries. pose proof (Hkeys k) as Hk. rewrite Hka in Hk. destruct Hk as [-> Hd].
      split_and!; [done|by apply data_key_nonempty|]. intros Hst. unfold key_ok. rewrite Hm1, Hm. by apply mdb_stored_ok. }
    rewrite Hd2. exists d2. split_and!; [done|congruence|]. intros k. rewrite Hg2, Hg1, Hg. pose proof (Hkeys k) as Hk.
    destruct (decide (k ∈ (map_entries u).*1)) as [Hi|Hi].
    + apply list_elem_of_fmap in Hi as ([k' a] & -> & Hi%elem_of_map_entries). cbn in *. rewrite Hi in Hk.
      rewrite decide_False; [done|]. intros ->. by destruct Hk.
    + destruct (u !! k) as [a|] eqn:Hka; [destruct Hi; apply list_elem_of_fmap; exists (k, a); split; [done|by apply elem_of_map_entries]|].
      destruct (decide (k = STATE_key tip)) as [->|Hk']; [by rewrite decide_False by apply STATE_not_HEADER|].
      rewrite (decide_False (P := _ ∧ _)) by (by intros [? _]). by rewrite Hk.
Qed.

(** [pop_chain] undoes a block. *)
Lemma pop_synced w n w1 w1' : chain_ok w n → m_tail_height w + n + 1 < 2 ^ 32 → synced w w1 → same w1 w1' →
  ∃ w2, pop_chain w1' = Ok w2 ∧ same w w2.
Proof.
  intros Hok Hn Hsy Hsame. destruct (chain_ok_tip w n Hok) as [Hin Htip].
  destruct Hsy as [w' header Hs%wallet_steps_logs Hh Hu Hp]. destruct Hok as [Hl Ht Hr Hun Hab].
  destruct (push_chain_inv w' header w1 Hp Hh) as ((E1 & E2 & E3 & E4) & Hm & Hst & Hg & Hhd).
  rewrite (lg_tip _ _ Hs), Htip in *. rewrite (lg_tail _ _ Hs) in E2. pose proof (lg_max _ _ Hs) as Hmx.
  destruct Hsame as [F1 F2 F3 F4 F5 F6]. set (tip := m_tail_height w + n) in *.
  unfold pop_chain, empty_chain. rewrite F1, F2, E1, E2.
  replace (_ =? _) with false by (symmetry; apply Z.eqb_neq; unfold tip; words). cbn [negb check mbind result_bind].
  destruct (undo_back w w' w1' (encoding ser_api_BlockHeader header) tip) as (d2 & Hd2 & Hm2 & Hg2); [exact Hun|exact Hs| |exact Hu| | |].
  { apply Hab; lia. }
  { congruence. }
  { intros k. by rewrite F6, Hg. }
  rewrite Hd2. cbn [mbind result_bind m_db with_db m_tip_height m_tail_height].
  destruct (del_total d2 (HEADER_key tip) true) as (d3 & Hd3 & Hm3 & Hg3).
  { done. }
  { intros _. pose proof (Hg2 (HEADER_key tip)) as Hx. rewrite decide_True in Hx by done. by eexists. }
  rewrite F1, E1, Hd3. cbn [mbind result_bind]. rewrite F2, E2.
  assert (∀ k, get d3 k = get (m_db w) k) as Hback.
  { intros k. rewrite Hg3, Hg2. destruct (decide (k = HEADER_key tip)) as [->|]; [|done].
    pose proof (lg_keys _ _ Hs (HEADER_key tip)) as Hk. rewrite Hun, lookup_empty in Hk.
    destruct (current_undo_map w' !! _); [by destruct Hk|]. by rewrite <- Hk. }
  eexists. split; [|shelve].
  apply (read_tip_ext w); [cbn; rewrite Ht; unfold tip; words|done..].
  Unshelve. split; cbn; [rewrite Ht; unfold tip; words|done|done|congruence|congruence|done].
Qed.

(** [n] blocks, one after another. *)
Inductive synced_blocks : nat → W → W → Prop :=
| synced_none w : synced_blocks 0 w w
| synced_more n w w1 w2 : synced w w1 → synced_blocks n w1 w2 → synced_blocks (S n) w w2.

Fixpoint pop_blocks (n : nat) (w : W) : result W :=
  match n with O => Ok w | S n => w ← pop_chain w; pop_blocks n w end.

Lemma pop_blocks_S n w w1 : pop_blocks n w = Ok w1 → pop_blocks (S n) w = pop_chain w1.
Proof.
  revert w. induction n as [|n IH]; intros w Hp.
  - injection Hp as ->. cbn. by destruct (pop_chain w1).
  - cbn [pop_blocks] in *. inv_ok Hp. rewrite Ha. cbn [mbind result_bind]. by apply IH.
Qed.

Lemma pop_synced_blocks m w n wm : synced_blocks m w wm → chain_ok w n →
  m_tail_height w + n + Z.of_nat m < 2 ^ 32 → ∃ w2, pop_blocks m wm = Ok w2 ∧ same w w2.
Proof.
  intros Hs. revert n. induction Hs as [w|m w w1 wm Hsy Hs IH]; intros n Hok Hn; [by exists w|].
  destruct (IH (n + 1)) as (w2 & Hw2 & Hsame).
  { eapply synced_chain_ok; [done|lia|done]. }
  { destruct Hsy as [w' header Hl%wallet_steps_logs Hh _ Hp]. apply push_chain_inv in Hp as ((_ & -> & _) & _); [|done].
    rewrite (lg_tail _ _ Hl). lia. }
  destruct (pop_synced w n w1 w2 Hok ltac:(lia) Hsy Hsame) as (w3 & Hw3 & Hs3).
  exists w3. split; [|done]. by rewrite (pop_blocks_S m wm w2).
Qed.

End logs.
End WalletUndo.
