(* ===== verification/WalletIndex.v ===== *)
(** * Indexes and balances of the wallet

    An index of the database as the list of the items stored under its prefix,
    and a stored balance as the sum over the outputs it accounts for. *)

From S2P Require Import Prelude Varint Containers Words Seria CryptoNote Db Store WalletData Wallet.
Import Containers Codec Varint CryptoNote Db Store WalletData Wallet.

Local Open Scope Z_scope.

Module WalletIndex.

(** ** Indexes *)

Section index.
Context {D : Type} `{LmdbLaws D} {A : Type} (p : Key) (key : A → Key) (val : A → Value).
Hypothesis key_prefix : ∀ o, p `prefix_of` key o.

(** Under the prefix [p] the database holds exactly the items [l]. *)
Definition index (d : D) (l : list A) : Prop :=
  NoDup (key <$> l) ∧ ∀ k v, get d (p ++ k) = Some v ↔ ∃ o, o ∈ l ∧ key o = p ++ k ∧ val o = v.

Global Instance index_proper d : Proper (Permutation ==> iff) (index d).
Proof. intros l l' Hl. unfold index. by setoid_rewrite Hl. Qed.

Lemma index_get d l o : index d l → o ∈ l → get d (key o) = Some (val o).
Proof. intros [_ Hi] Ho. destruct (key_prefix o) as [s Hs]. rewrite Hs. apply Hi. by exists o. Qed.

Lemma index_find d l s v : index d l → get d (p ++ s) = Some v → ∃ o, o ∈ l ∧ key o = p ++ s ∧ val o = v.
Proof. intros [_ Hi]. apply Hi. Qed.

Lemma index_found d l o v : index d l → get d (key o) = Some v → ∃ o', o' ∈ l ∧ key o' = key o ∧ val o' = v.
Proof. intros Hi Hg. destruct (key_prefix o) as [s Hs]. rewrite Hs in *. by apply (index_find d). Qed.

Lemma index_frame d d' k x l : written d k x d' → ¬ p `prefix_of` k → index d l → index d' l.
Proof.
  intros [_ Hw] Hk [Hnd Hi]. split; [done|]. intros s v. rewrite Hw, decide_False; [apply Hi|].
  intros <-. apply Hk. by exists s.
Qed.

Lemma index_insert d d' l o : written d (key o) (Some (val o)) d' → get d (key o) = None → index d l → index d' (o :: l).
Proof.
  intros [_ Hw] Hno [Hnd Hi]. split.
  - apply NoDup_cons. split; [|done]. intros (o' & Heq & Ho')%list_elem_of_fmap.
    by rewrite Heq, (index_get d l) in Hno.
  - intros s v. rewrite Hw. destruct (decide (p ++ s = key o)) as [Heq|Hne].
    + split; [intros [= <-]; exists o; by rewrite elem_of_cons; auto|].
      intros (o' & [->|Ho']%elem_of_cons & Hk & Hv); [by subst|]. exfalso.
      pose proof (index_get d l o' (conj Hnd Hi) Ho') as Hg. by rewrite Hk, Heq, Hno in Hg.
    + rewrite Hi. split; [intros (o' & ? & ?); exists o'; by rewrite elem_of_cons; auto|].
      intros (o' & [->|Ho']%elem_of_cons & Hk & Hv); [by rewrite Hk in Hne|by exists o'].
Qed.

Lemma index_delete d d' l o : written d (key o) None d' → index d (o :: l) → index d' l.
Proof.
  intros [_ Hw] [Hnd Hi]. cbn in Hnd. apply NoDup_cons in Hnd as [Hk Hnd]. split; [done|].
  intros s v. rewrite Hw. destruct (decide (p ++ s = key o)) as [Heq|Hne].
  - split; [done|]. intros (o' & Ho' & Hk' & _). destruct Hk. apply list_elem_of_fmap. exists o'. split; [congruence|done].
  - rewrite Hi. split; intros (o' & Ho' & Hk' & Hv); exists o'; rewrite ?elem_of_cons in *; [|by auto].
    destruct Ho' as [->|]; [by rewrite Hk' in Hne|done].
Qed.

Lemma index_inj d l x y : index d l → x ∈ l → y ∈ l → key x = key y → x = y.
Proof.
  intros [Hnd _]. revert Hnd. induction l as [|z l IH]; [by intros _ ?%elem_of_nil|].
  cbn. intros [Hz Hnd]%NoDup_cons Hx Hy Heq.
  apply elem_of_cons in Hx as [->|Hx], Hy as [->|Hy]; [done| | |by apply IH].
  - destruct Hz. rewrite Heq. by apply list_elem_of_fmap_2.
  - destruct Hz. rewrite <- Heq. by apply list_elem_of_fmap_2.
Qed.

(** An index walked with a cursor: its items in the order of their keys. *)
Lemma index_entries d l S es (suf : A → Key) : index d l → (∀ o, key o = p ++ suf o) → listing d p S es →
  (∀ o, o ∈ l → S (key o)) →
  ∃ os, es = (λ o, (suf o, val o)) <$> os ∧ os ≡ₚ l ∧ StronglySorted (λ o o', lex_ltb (suf o) (suf o') = true) os.
Proof.
  intros Hi Hsuf [Hsort Hes] HS.
  assert (∃ os, es = (λ o, (suf o, val o)) <$> os ∧ os ⊆ l) as (os & -> & Hos).
  { assert (∀ e, e ∈ es → ∃ o, o ∈ l ∧ e = (suf o, val o)) as Hex.
    { intros [s v] [Hg _]%Hes. apply (index_find d l _ _ Hi) in Hg as (o & Ho & Hk & <-). exists o. split; [done|].
      rewrite Hsuf in Hk. apply app_inv_head in Hk. by subst s. }
    clear Hsort Hes HS. induction es as [|e es IH]; [exists []; split; [done|apply list_subseteq_nil]|].
    destruct IH as (os & -> & Hos); [intros e' He'; apply Hex; by right|].
    destruct (Hex e) as (o & Ho & ->); [by left|]. exists (o :: os). split; [done|].
    intros x [->|Hx]%elem_of_cons; auto. }
  assert (StronglySorted (λ o o', lex_ltb (suf o) (suf o') = true) os) as Hs.
  { clear -Hsort. induction os as [|o os IH]; [constructor|]. cbn in Hsort. apply StronglySorted_inv in Hsort as [H1 H2].
    constructor; [by apply IH|]. by apply Forall_fmap in H2. }
  exists os. split_and!; [done| |done]. apply NoDup_Permutation.
  - clear -Hs. induction Hs as [|o os Hs IH Ho]; constructor; [|done]. intros Hin. rewrite Forall_forall in Ho.
    specialize (Ho o Hin). by rewrite lex_ltb_irrefl in Ho.
  - eapply NoDup_fmap_1, Hi.
  - intros o. split; [apply Hos|]. intros Ho.
    assert ((suf o, val o) ∈ (λ o, (suf o, val o)) <$> os) as Hin.
    { apply Hes. rewrite <- Hsuf. split; [by apply (index_get d l)|by apply HS]. }
    apply list_elem_of_fmap in Hin as (o' & [= Heq _] & Ho').
    rewrite (index_inj d l o o' Hi Ho (Hos _ Ho')); [done|]. by rewrite !Hsuf, Heq.
Qed.

Lemma index_listing d l m S : index d l → listing d p S m →
  ∀ s v, (s, v) ∈ m → ∃ o, o ∈ l ∧ key o = p ++ s ∧ val o = v.
Proof. intros Hi [_ Hm] s v [Hg _]%Hm. by apply (index_find d). Qed.

End index.

(** ** Sums *)

Section zsum.
Context {A : Type}.

Definition zsum (f : A → Z) (l : list A) : Z := foldr (λ o s, f o + s) 0 l.

Global Instance zsum_proper f : Proper (Permutation ==> eq) (zsum f).
Proof. intros l l' Hl. unfold zsum. induction Hl; cbn; lia. Qed.

Lemma zsum_bound (f : A → Z) b l : Forall (λ o, 0 ≤ f o ≤ b) l → 0 ≤ zsum f l ≤ b * Z.of_nat (length l).
Proof. induction 1; cbn [zsum foldr length] in *; [lia|]. unfold zsum in *. lia. Qed.

End zsum.

(** ** Balances *)

(** What the balance under [address] accounts for; under the empty address,
    everything. *)
Definition mine (address : list Z) (o : Output) : bool :=
  bool_decide (address = []) || bool_decide (o_address o = address).

Definition amounts (P : Output → bool) : list Output → Z := zsum (λ o, if P o then o_amount o else 0).
Definition counts (P : Output → bool) : list Output → Z := zsum (λ o, if P o then 1 else 0).

Definition spendable_of (address : list Z) (o : Output) : bool := mine address o && negb (o_dust o).
Definition dust_of (address : list Z) (o : Output) : bool := mine address o && o_dust o.

(** [b] is the balance of [address] when [U] are the unspent and [L] the locked
    outputs. *)
Record accounts (address : list Z) (U L : list Output) (b : Balance) : Prop := {
  ac_wf : Words.u128_wf (spendable b) ∧ Words.u128_wf (spendable_dust b) ∧ Words.u128_wf (locked_or_unconfirmed b);
  ac_spendable : Words.u128_val (spendable b) = amounts (spendable_of address) U;
  ac_dust : Words.u128_val (spendable_dust b) = amounts (dust_of address) U;
  ac_locked : Words.u128_val (locked_or_unconfirmed b) = amounts (mine address) L;
  ac_spendable_outputs : spendable_outputs b = counts (spendable_of address) U;
  ac_dust_outputs : spendable_dust_outputs b = counts (dust_of address) U;
  ac_locked_outputs : locked_or_unconfirmed_outputs b = counts (mine address) L;
}.

Global Instance accounts_proper address : Proper (Permutation ==> Permutation ==> eq ==> iff) (accounts address).
Proof.
  intros U U' HU L L' HL b ? <-. unfold amounts, counts in *.
  split; intros []; split; unfold amounts, counts in *; try done; by rewrite ?HU, ?HL || by rewrite <- ?HU, <- ?HL.
Qed.

(** Amounts that fit 64 bits, and fewer outputs than 64 bits count. *)
Definition fits (U L : list Output) : Prop :=
  Forall (λ o, in_u 64 (o_amount o)) (U ++ L) ∧ Z.of_nat (length (U ++ L)) < 2 ^ 64.

Lemma amounts_bound P l : Forall (λ o, in_u 64 (o_amount o)) l → 0 ≤ amounts P l ≤ (2 ^ 64 - 1) * Z.of_nat (length l).
Proof. intros Hl. apply zsum_bound. eapply Forall_impl; [exact Hl|]. intros o. unfold in_u. cbn. destruct (P o); lia. Qed.
Lemma counts_bound P l : 0 ≤ counts P l ≤ Z.of_nat (length l).
Proof. pose proof (zsum_bound (λ o, if P o then 1 else 0) 1 l) as Hb. unfold counts. rewrite Z.mul_1_l in Hb. apply Hb, Forall_forall. intros o _. by destruct (P o). Qed.

Lemma amounts_cons P o l : amounts P (o :: l) = (if P o then o_amount o else 0) + amounts P l.
Proof. done. Qed.
Lemma counts_cons P o l : counts P (o :: l) = (if P o then 1 else 0) + counts P l.
Proof. done. Qed.

Lemma u128_spec d : in_u 64 d → Words.u128_wf (u128 d) ∧ Words.u128_val (u128 d) = d.
Proof. unfold Words.u128_wf, Words.u128_val, u128, in_u. cbn. lia. Qed.

Lemma op_amount_spec op b am : Words.u128_wf b → in_u 64 am → 0 ≤ Words.u128_val b + Z.sgn op * am < 2 ^ 128 →
  Words.u128_wf (op_amount op b am) ∧ Words.u128_val (op_amount op b am) = Words.u128_val b + Z.sgn op * am.
Proof.
  intros Hb Ham Hr. destruct (u128_spec am Ham) as [Hw Hv]. unfold op_amount.
  destruct (Z.ltb_spec 0 op), (Z.ltb_spec op 0); try lia.
  - destruct (Words.Uint128_add_val b (u128 am) Hb Hw) as [Hav ?]. split; [done|]. rewrite Hav, Hv, Z.mod_small; lia.
  - destruct (Words.Uint128_sub_val b (u128 am) Hb Hw) as [Hav ?]. split; [done|]. rewrite Hav, Hv, Z.mod_small; lia.
  - split; [done|]. replace op with 0 by lia. cbn. lia.
Qed.

(** The list gained ([op = 1]), lost ([-1]) or kept ([0]) the output [o]. *)
Definition moved (l l' : list Output) (o : Output) (op : Z) : Prop :=
  -1 ≤ op ≤ 1 ∧
  ∀ P, amounts P l' = amounts P l + op * (if P o then o_amount o else 0) ∧
       counts P l' = counts P l + op * (if P o then 1 else 0).

Lemma moved_in l o : moved l (o :: l) o 1.
Proof. split; [lia|]. intros P. rewrite amounts_cons, counts_cons. lia. Qed.
Lemma moved_out l l' o : l ≡ₚ o :: l' → moved l l' o (-1).
Proof.
  intros Hl. split; [lia|]. intros P. unfold amounts, counts. rewrite Hl.
  pose proof (amounts_cons P o l'). pose proof (counts_cons P o l'). unfold amounts, counts in *. lia.
Qed.
Lemma moved_none l o : moved l l o 0.
Proof. split; [lia|]. intros P. lia. Qed.

Lemma fits_amounts U L P l : fits U L → l ⊆+ U ++ L → 0 ≤ amounts P l < 2 ^ 128.
Proof.
  intros [Ha Hn] Hl. pose proof (submseteq_length _ _ Hl). rewrite Forall_forall in Ha.
  destruct (amounts_bound P l) as [? Hb]; [apply Forall_forall; intros o Ho; by eapply Ha, elem_of_submseteq|].
  split; [done|]. eapply Z.le_lt_trans; [exact Hb|]. apply Z.le_lt_trans with ((2 ^ 64 - 1) * 2 ^ 64); [|done].
  apply Z.mul_le_mono_nonneg_l; lia.
Qed.
Lemma fits_counts U L P l : fits U L → l ⊆+ U ++ L → 0 ≤ counts P l < 2 ^ 64.
Proof. intros [_ Hn] Hl. pose proof (submseteq_length _ _ Hl). pose proof (counts_bound P l). lia. Qed.
Lemma in_left (U L : list Output) : U ⊆+ U ++ L.
Proof. apply submseteq_inserts_r. done. Qed.
Lemma in_right (U L : list Output) : L ⊆+ U ++ L.
Proof. apply submseteq_inserts_l. done. Qed.
#[local] Hint Resolve in_left in_right : core.

Lemma op_amount_moved l l' o op P b U L : moved l l' o op → in_u 64 (o_amount o) → P o = true →
  Words.u128_wf b → Words.u128_val b = amounts P l → fits U L → l' ⊆+ U ++ L →
  Words.u128_wf (op_amount op b (o_amount o)) ∧ Words.u128_val (op_amount op b (o_amount o)) = amounts P l'.
Proof.
  intros [Hop Hm] Ho HP Hw Hv Hf Hl. destruct (Hm P) as [Ha _]. rewrite HP in Ha.
  pose proof (fits_amounts U L P l' Hf Hl). assert (Z.sgn op = op) as Hs by lia.
  destruct (op_amount_spec op b (o_amount o)) as [? Hx]; [done..|rewrite Hs; lia|].
  split; [done|]. rewrite Hx, Hs. lia.
Qed.

Lemma count_moved l l' o op P n U L : moved l l' o op → P o = true → n = counts P l → fits U L → l' ⊆+ U ++ L →
  u64 (n + op) = counts P l'.
Proof.
  intros [Hop Hm] HP -> Hf Hl. destruct (Hm P) as [_ Hc]. rewrite HP in Hc.
  pose proof (fits_counts U L P l' Hf Hl). rewrite u64_small; lia.
Qed.

Lemma unmoved l l' o op P : moved l l' o op → P o = false → amounts P l' = amounts P l ∧ counts P l' = counts P l.
Proof. intros [_ Hm] HP. destruct (Hm P) as [Ha Hc]. rewrite HP in *. lia. Qed.

(** [combine_balance] keeps the accounts. *)
Lemma combine_accounts a U L U' L' b o lop sop : accounts a U L b → mine a o = true → in_u 64 (o_amount o) →
  fits U' L' → moved U U' o sop → moved L L' o lop → accounts a U' L' (combine_balance b o lop sop).
Proof.
  intros [(W1 & W2 & W3) A1 A2 A3 A4 A5 A6] Hm Ho Hf HU HL.
  destruct (op_amount_moved L L' o lop (mine a) (locked_or_unconfirmed b) U' L') as [X1 X2]; [done..|auto|].
  pose proof (count_moved L L' o lop (mine a) _ U' L' HL Hm A6 Hf (in_right _ _)) as X3.
  unfold combine_balance. destruct (o_dust o) eqn:Hd.
  - assert (dust_of a o = true) as HP by (unfold dust_of; by rewrite Hm, Hd).
    destruct (unmoved U U' o sop (spendable_of a)) as [Y1 Y2]; [done|unfold spendable_of; by rewrite Hd, andb_false_r|].
    destruct (op_amount_moved U U' o sop (dust_of a) (spendable_dust b) U' L') as [Z1 Z2]; [done..|auto|].
    pose proof (count_moved U U' o sop (dust_of a) _ U' L' HU HP A5 Hf (in_left _ _)).
    split; cbn; try done; congruence.
  - assert (spendable_of a o = true) as HP by (unfold spendable_of; by rewrite Hm, Hd).
    destruct (unmoved U U' o sop (dust_of a)) as [Y1 Y2]; [done|unfold dust_of; by rewrite Hd, andb_false_r|].
    destruct (op_amount_moved U U' o sop (spendable_of a) (spendable b) U' L') as [Z1 Z2]; [done..|auto|].
    pose proof (count_moved U U' o sop (spendable_of a) _ U' L' HU HP A4 Hf (in_left _ _)).
    split; cbn; try done; congruence.
Qed.

Lemma other_accounts a U L U' L' b o lop sop : accounts a U L b → mine a o = false →
  moved U U' o sop → moved L L' o lop → accounts a U' L' b.
Proof.
  intros [] Hm HU HL.
  destruct (unmoved U U' o sop (spendable_of a)) as [X1 X2]; [done|unfold spendable_of; by rewrite Hm|].
  destruct (unmoved U U' o sop (dust_of a)) as [Y1 Y2]; [done|unfold dust_of; by rewrite Hm|].
  destruct (unmoved L L' o lop (mine a)) as [Z1 Z2]; [done..|]. split; congruence.
Qed.

Lemma counts_zero P l : counts P l = 0 → amounts P l = 0.
Proof.
  induction l as [|o l IH]; [done|]. rewrite amounts_cons, counts_cons. pose proof (counts_bound P l).
  destruct (P o); lia.
Qed.

Lemma u128_zero b : Words.u128_wf b → Words.u128_val b = 0 → b = u128 0.
Proof. destruct b as [l h]. unfold Words.u128_wf, Words.u128_val, u128, in_u. cbn. intros. f_equal; lia. Qed.

Lemma counts_split a U : counts (spendable_of a) U + counts (dust_of a) U = counts (mine a) U.
Proof.
  induction U as [|o U IH]; [done|]. rewrite !counts_cons. unfold spendable_of at 1, dust_of at 1.
  destruct (mine a o), (o_dust o); cbn [andb negb] in *; lia.
Qed.

(** A balance that [modify_balance] deletes is the empty one. *)
Lemma zero_balance a U L b : accounts a U L b → fits U L →
  bool_decide (total b = u128 0) && (total_outputs b =? 0) = true → b = no_balance.
Proof.
  intros [(W1 & W2 & W3) A1 A2 A3 A4 A5 A6] Hf [Ht%bool_decide_eq_true Hc%Z.eqb_eq]%andb_true_iff.
  pose proof (counts_split a U) as Hs. destruct Hf as [_ Hf]. rewrite length_app in Hf.
  pose proof (counts_bound (mine a) U). pose proof (counts_bound (mine a) L).
  pose proof (counts_bound (spendable_of a) U). pose proof (counts_bound (dust_of a) U).
  unfold total_outputs in Hc. rewrite A4, A5, A6, (u64_small (_ + counts (dust_of a) U)), u64_small in Hc by lia.
  assert (counts (spendable_of a) U = 0) as C1 by lia. assert (counts (dust_of a) U = 0) as C2 by lia.
  assert (counts (mine a) L = 0) as C3 by lia.
  rewrite (counts_zero _ _ C1) in A1. rewrite (counts_zero _ _ C2) in A2. rewrite (counts_zero _ _ C3) in A3.
  destruct b as [b1 b2 b3 n1 n2 n3]. cbn in *. rewrite (u128_zero b1), (u128_zero b2), (u128_zero b3) by done.
  unfold no_balance. congruence.
Qed.

Lemma accounts_no_balance a : accounts a [] [] no_balance.
Proof. by split. Qed.

(** The archive of a balance that accounts for something. *)
Lemma accounts_ok a U L b : accounts a U L b → fits U L → c_ok ser_Balance b.
Proof.
  intros [([] & [] & []) _ _ _ A4 A5 A6] Hf. unfold ser_Balance. cbn.
  pose proof (fits_counts U L (spendable_of a) U Hf (in_left _ _)).
  pose proof (fits_counts U L (dust_of a) U Hf (in_left _ _)).
  pose proof (fits_counts U L (mine a) L Hf (in_right _ _)). unfold in_u in *. split_and!; lia.
Qed.

End WalletIndex.
