(* ===== verification/WalletLaws.v ===== *)
(** * What the wallet's database means

    [shows w v]: the database of [w] is the one the contents [v] ask for, the
    unspent and the locked outputs under all their indexes, the key images and
    the balances.  Every handler is proved to act on the contents as its
    specification says. *)

From S2P Require Import Prelude Varint Containers Words Seria Text CryptoNote Currency Db Store WalletData Wallet WalletIndex.
Import Containers Codec Varint CryptoNote Currency Db Store WalletData Wallet WalletIndex.

Local Open Scope Z_scope.

Module WalletLaws.

(** ** Contents *)

Record contents := {
  v_unspent : list Output;
  v_locked : list Output;
  v_images : gmap KeyImage HeightAmounGi;
}.

Section laws.
Context {D : Type} `{LmdbLaws D} (currency : Currency).
Abbreviation W := (WalletState D).

Definition unspent_key (o : Output) : Key := UNSPENT_key (o_height o) (o_amount o) (o_global_index o).
Definition address_key (o : Output) : Key :=
  ADDRESS_UNSPENT_key (o_address o) (o_height o) (o_amount o) (o_global_index o).
Definition locked_suffix (o : Output) : Key :=
  he_am_gi (clamped_unlock_time (o_unlock_time o)) (o_amount o) (o_global_index o).
Definition height_key (o : Output) : Key := LOCKED_HEIGHT_prefix ++ locked_suffix o.
Definition timestamp_key (o : Output) : Key := LOCKED_TIMESTAMP_prefix ++ locked_suffix o.
Definition image_key (o : Output) : Key := LOCKED_KI_key (o_key_image o) (o_amount o) (o_global_index o).
Definition by_height (o : Output) : bool := is_transaction_spend_time_block currency (o_unlock_time o).
Definition has_image (o : Output) : bool := negb (bool_decide (o_key_image o = no_keyimage)).

Abbreviation enc := (encoding ser_Output).
Definition unlock_value (o : Output) : Value := encoding (c_varint 64) (o_unlock_time o).

Record indexes (d : D) (v : contents) : Prop := {
  ix_un : index (chars "un") unspent_key enc d (v_unspent v);
  ix_uh : index (chars "uh") address_key (λ _, []) d (v_unspent v);
  ix_lh : index (chars "lh") height_key enc d (filter by_height (v_locked v));
  ix_lt : index (chars "lt") timestamp_key enc d (filter (negb ∘ by_height) (v_locked v));
  ix_li : index (chars "li") image_key unlock_value d (filter has_image (v_locked v));
  ix_ki ki : get d (KEYIMAGE_key ki) = encoding ser_HeightAmounGi <$> v_images v !! ki;
}.

Definition balances (w : W) (U L : list Output) : Prop :=
  ∀ a, ∃ b, read_balance w a = Ok b ∧ accounts a U L b.

Record contents_ok (v : contents) : Prop := {
  co_outputs : Forall (c_ok ser_Output) (v_unspent v ++ v_locked v);
  co_images : map_Forall (λ _ h, c_ok ser_HeightAmounGi h) (v_images v);
  co_fresh o : o ∈ v_unspent v → has_image o = true → v_images v !! o_key_image o = Some (output_heamgi o);
}.

Record shows (w : W) (v : contents) : Prop := {
  sh_indexes : indexes (m_db w) v;
  sh_balances : balances w (v_unspent v) (v_locked v);
  sh_ok : contents_ok v;
}.

(** Room for [n] more outputs in the 64-bit counters. *)
Definition room (n : Z) (v : contents) : Prop := Z.of_nat (length (v_unspent v ++ v_locked v)) + n < 2 ^ 64.

(** ** Writes *)

Definition agree (p : Key) (d d' : D) : Prop := ∀ s, get d' (p ++ s) = get d (p ++ s).

Lemma written_agree d k x d' p : written d k x d' → length p = 2%nat → take 2 k ≠ p → agree p d d'.
Proof.
  intros [_ Hw] Hp Hk s. rewrite Hw, decide_False; [done|]. intros <-. apply Hk. rewrite <- Hp. apply take_app_length.
Qed.

Lemma index_agree {A} p (key : A → Key) val d d' l : agree p d d' → index p key val d l → index p key val d' l.
Proof. intros Ha [Hnd Hi]. split; [done|]. intros s v. by rewrite Ha, Hi. Qed.

Lemma put_written w k x no w' : put_with_undo w k x no = Ok w' →
  written (m_db w) k (Some x) (m_db w') ∧ (no = true → get (m_db w) k = None).
Proof.
  intros Hp. unfold put_with_undo in Hp. inv_ok Hp. injection Hp as <-.
  assert (m_db (record_undo w k) = m_db w) as Hr by (unfold record_undo; by destruct (_ !! k)).
  rewrite Hr in Ha. apply put_inv in Ha as (_ & Hn & Hw). done.
Qed.

Lemma del_written w k must w' : k ≠ [] → del_with_undo w k must = Ok w' →
  written (m_db w) k None (m_db w') ∧ (must = true → stored (m_db w) k).
Proof.
  intros Hk Hp. unfold del_with_undo in Hp. inv_ok Hp. injection Hp as <-.
  assert (m_db (record_undo w k) = m_db w) as Hr by (unfold record_undo; by destruct (_ !! k)).
  rewrite Hr in Ha. apply del_inv in Ha as [Hn Hw]; done.
Qed.

(** A write outside the indexes. *)
Lemma indexes_agree d d' v :
  (∀ p, p ∈ [chars "un"; chars "uh"; chars "lh"; chars "lt"; chars "li"; chars "ki"] → agree p d d') →
  indexes d v → indexes d' v.
Proof.
  intros Ha []. assert (∀ p, p ∈ _ → agree p d d') as Hp by exact Ha.
  split; try (eapply index_agree; [apply Ha|eassumption]); rewrite ?elem_of_cons; auto 8.
  intros ki. rewrite <- ix_ki0. apply Ha. rewrite !elem_of_cons. auto 8.
Qed.

Lemma read_agree {A} (w w' : W) p s (c : codec A) : agree p (m_db w) (m_db w') → read w' (p ++ s) c = read w (p ++ s) c.
Proof. intros Ha. unfold read. by rewrite Ha. Qed.

Lemma balances_agree w w' U L : agree (chars "ba") (m_db w) (m_db w') → balances w U L → balances w' U L.
Proof.
  intros Ha Hb a. destruct (Hb a) as (b & Hr & Hac). exists b. split; [|done].
  unfold read_balance in *. unfold BALANCE_key in *. by rewrite (read_agree w w').
Qed.

(** ** Balances *)

Lemma write_balance_inv w a b w' U L : write_balance w a b = Ok w' → accounts a U L b → fits U L →
  read_balance w' a = Ok b ∧ (∀ k, k ≠ BALANCE_key a → get (m_db w') k = get (m_db w) k).
Proof.
  intros Hw Ha Hf. unfold write_balance in Hw. destruct (_ && _) eqn:Hz.
  - apply (zero_balance a U L b Ha Hf) in Hz as ->. apply del_written in Hw as [[_ Hw] _]; [|done].
    split; [|intros k Hk; by rewrite Hw, decide_False].
    unfold read_balance, read. by rewrite Hw, decide_True.
  - inv_ok Hw. apply put_written in Hw as [[_ Hw] _].
    split; [|intros k Hk; by rewrite Hw, decide_False].
    unfold read_balance, read. rewrite Hw, decide_True by done.
    destruct (encoding_ok ser_Balance b) as (He & _ & Hd); [by eapply accounts_ok|]. unfold to_binary in He.
    unfold to_binary in Ha0. rewrite He in Ha0. injection Ha0 as <-. cbn [mbind result_bind]. by rewrite Hd.
Qed.

Lemma mine_all o : mine [] o = true.
Proof. done. Qed.

(** [modify_balance] moves the output in every balance that accounts for it. *)
Lemma modify_balances w o lop sop w' U L U' L' : modify_balance w o lop sop = Ok w' → balances w U L →
  in_u 64 (o_amount o) → fits U' L' → moved U U' o sop → moved L L' o lop →
  balances w' U' L' ∧ ∀ k, ¬ chars "ba" `prefix_of` k → get (m_db w') k = get (m_db w) k.
Proof.
  intros Hm Hb Ho Hf HU HL. unfold modify_balance in Hm. inv_ok Hm.
  destruct (Hb (o_address o)) as (b & Hr & Hac). rewrite Hr in Ha. injection Ha as <-.
  destruct (Hb []) as (b2 & Hr2 & Hac2). rewrite Hr2 in Ha0. injection Ha0 as <-.
  assert (mine (o_address o) o = true) as Hmine by (apply orb_true_iff; right; by apply bool_decide_eq_true).
  pose proof (combine_accounts _ _ _ _ _ _ _ _ _ Hac Hmine Ho Hf HU HL) as Hc.
  pose proof (combine_accounts _ _ _ _ _ _ _ _ _ Hac2 (mine_all o) Ho Hf HU HL) as Hc2.
  destruct (write_balance_inv _ _ _ _ _ _ Ha1 Hc Hf) as [R1 G1].
  destruct (write_balance_inv _ _ _ _ _ _ Hm Hc2 Hf) as [R2 G2]. split.
  - intros a. destruct (decide (a = [])) as [->|Hne]; [by eexists|].
    assert (read_balance w' a = read_balance a1 a) as ->.
    { unfold read_balance, read. rewrite G2; [done|]. intros [= Heq]. done. }
    destruct (decide (a = o_address o)) as [->|Hne2]; [by eexists|].
    assert (read_balance a1 a = read_balance w a) as ->.
    { unfold read_balance, read. rewrite G1; [done|]. intros [= Heq]. done. }
    destruct (Hb a) as (b' & Hr' & Hac'). exists b'. split; [done|]. eapply other_accounts; [done| |done..].
    unfold mine. by rewrite !bool_decide_eq_false_2 by done.
  - intros k Hk. rewrite G2, G1; [done|..]; intros ->; apply Hk; by eexists.
Qed.

(** ** Primitive operations on the contents *)

Definition with_unspent (v : contents) (U : list Output) : contents :=
  {| v_unspent := U; v_locked := v_locked v; v_images := v_images v |}.
Definition with_locked (v : contents) (L : list Output) : contents :=
  {| v_unspent := v_unspent v; v_locked := L; v_images := v_images v |}.
Definition set_image (v : contents) (ki : KeyImage) (h : HeightAmounGi) : contents :=
  {| v_unspent := v_unspent v; v_locked := v_locked v;
     v_images := if bool_decide (ki = no_keyimage) then v_images v else <[ki := h]> (v_images v) |}.

(** The database part of [shows]. *)
Definition holds (w : W) (v : contents) : Prop := indexes (m_db w) v ∧ balances w (v_unspent v) (v_locked v).

Lemma not_balance_agree d d' p s : p ≠ chars "ba" → length p = 2%nat →
  (∀ k, ¬ chars "ba" `prefix_of` k → get d' k = get d k) → get d' (p ++ s) = get d (p ++ s).
Proof.
  intros Hp Hl Hg. apply Hg. intros [t Ht]. apply Hp.
  rewrite <- (take_app_length p s), Hl. rewrite Ht. done.
Qed.

(** The indexes other than those of the prefixes a write touches. *)
Lemma index_others {A} p (key : A → Key) val d k x d' l : written d k x d' → length p = 2%nat → take 2 k ≠ p →
  index p key val d l → index p key val d' l.
Proof. intros Hw Hp Hk. apply index_agree. by eapply written_agree. Qed.

Lemma images_other d k x d' ki : written d k x d' → take 2 k ≠ chars "ki" → get d' (KEYIMAGE_key ki) = get d (KEYIMAGE_key ki).
Proof. intros Hw Hk. by apply (written_agree d k x d' (chars "ki")). Qed.

Ltac others := repeat (eapply index_others; [eassumption|done|done|]); eassumption.

Lemma indexes_modified w w' v :
  (∀ k, ¬ chars "ba" `prefix_of` k → get (m_db w') k = get (m_db w) k) → indexes (m_db w) v → indexes (m_db w') v.
Proof.
  intros Hg. apply indexes_agree. intros p Hp s. rewrite !elem_of_cons, elem_of_nil in Hp.
  apply not_balance_agree; [|destruct_or! Hp; by subst|done]. destruct_or! Hp; by subst.
Qed.

Lemma indexes_add_unspent d d1 d2 v o : indexes d v →
  written d (unspent_key o) (Some (enc o)) d1 → get d (unspent_key o) = None →
  written d1 (address_key o) (Some []) d2 → get d1 (address_key o) = None →
  indexes d2 (with_unspent v (o :: v_unspent v)).
Proof.
  intros [] Hw Hn Hw2 Hn2. split; cbn [v_unspent v_locked v_images with_unspent]; try others.
  - eapply index_others; [exact Hw2|done|done|]. eapply index_insert; [|exact Hw|done|done]. intros x. by eexists.
  - eapply index_insert; [|exact Hw2|done|others]. intros x. by eexists.
  - intros ki. by rewrite (images_other _ _ _ _ ki Hw2), (images_other _ _ _ _ ki Hw).
Qed.

Lemma indexes_remove_unspent d d1 d2 v o U : indexes d v → v_unspent v ≡ₚ o :: U →
  written d (unspent_key o) None d1 → written d1 (address_key o) None d2 → indexes d2 (with_unspent v U).
Proof.
  intros [] HU Hw Hw2. rewrite HU in ix_un0, ix_uh0.
  split; cbn [v_unspent v_locked v_images with_unspent]; try others.
  - eapply index_others; [exact Hw2|done|done|]. by eapply index_delete.
  - eapply index_delete; [exact Hw2|others].
  - intros ki. by rewrite (images_other _ _ _ _ ki Hw2), (images_other _ _ _ _ ki Hw).
Qed.

(** The fits that a change of the contents needs. *)
Lemma add_to_unspent_holds w v o w' : holds w v → c_ok ser_Output o → fits (o :: v_unspent v) (v_locked v) →
  add_to_unspent_index w o = Ok w' → holds w' (with_unspent v (o :: v_unspent v)).
Proof.
  intros [Hi Hb] Ho Hf Ha. unfold add_to_unspent_index in Ha. inv_ok Ha.
  destruct (modify_balances _ _ _ _ _ _ _ (o :: v_unspent v) (v_locked v) Ha0 Hb) as [Hb' Hg];
    [by apply Ho|done|by apply moved_in|by apply moved_none|].
  destruct (encoding_ok ser_Output o Ho) as (He & _ & _). rewrite He in Ha1. injection Ha1 as <-.
  apply put_written in Ha2 as [Hw Hn]. apply put_written in Ha as [Hw2 Hn2]. split.
  - eapply indexes_add_unspent; [by eapply indexes_modified|exact Hw|auto|exact Hw2|auto].
  - eapply balances_agree; [|eapply balances_agree; [|exact Hb']]; by eapply written_agree.
Qed.

Lemma remove_from_unspent_holds w v o U w' : holds w v → c_ok ser_Output o → v_unspent v ≡ₚ o :: U →
  fits U (v_locked v) → remove_from_unspent_index w o = Ok w' → holds w' (with_unspent v U).
Proof.
  intros [Hi Hb] Ho HU Hf Ha. unfold remove_from_unspent_index in Ha. inv_ok Ha.
  destruct (modify_balances _ _ _ _ _ _ _ U (v_locked v) Ha0 Hb) as [Hb' Hg];
    [by apply Ho|done|by apply moved_out|by apply moved_none|].
  apply del_written in Ha1 as [Hw _]; [|done]. apply del_written in Ha as [Hw2 _]; [|done]. split.
  - eapply indexes_remove_unspent; [by eapply indexes_modified|exact HU|exact Hw|exact Hw2].
  - eapply balances_agree; [|eapply balances_agree; [|exact Hb']]; by eapply written_agree.
Qed.

(** The two indexes of locked outputs share their outputs out. *)
Definition locked_indexes (d : D) (L : list Output) : Prop :=
  index (chars "lh") height_key enc d (filter by_height L) ∧
  index (chars "lt") timestamp_key enc d (filter (negb ∘ by_height) L).

Abbreviation locked_key o := (LOCKED_key currency (o_unlock_time o) (o_amount o) (o_global_index o)).

Lemma locked_key_cases o : locked_key o = if by_height o then height_key o else timestamp_key o.
Proof. unfold LOCKED_key, locked_prefix, by_height. by destruct (is_transaction_spend_time_block _ _). Qed.

Lemma filter_in (P : Output → bool) o L : P o = true → filter P (o :: L) = o :: filter P L.
Proof. intros HP. rewrite filter_cons_True; [done|]. by rewrite HP. Qed.
Lemma filter_out (P : Output → bool) o L : P o = false → filter P (o :: L) = filter P L.
Proof. intros HP. rewrite filter_cons_False; [done|]. rewrite HP. by intros []. Qed.

Lemma locked_insert d d' L o : locked_indexes d L → written d (locked_key o) (Some (enc o)) d' →
  get d (locked_key o) = None → locked_indexes d' (o :: L).
Proof.
  rewrite locked_key_cases. intros [Hh Ht] Hw Hn. destruct (by_height o) eqn:Hb.
  - split; [rewrite (filter_in by_height) by done|rewrite (filter_out (negb ∘ by_height)) by (cbn; by rewrite Hb)].
    + eapply index_insert; [|exact Hw|done|done]. intros x. by eexists.
    + eapply index_others; [exact Hw|done|done|done].
  - split; [rewrite (filter_out by_height) by done|rewrite (filter_in (negb ∘ by_height)) by (cbn; by rewrite Hb)].
    + eapply index_others; [exact Hw|done|done|done].
    + eapply index_insert; [|exact Hw|done|done]. intros x. by eexists.
Qed.

Lemma locked_delete d d' L L' o : locked_indexes d L → L ≡ₚ o :: L' → written d (locked_key o) None d' →
  locked_indexes d' L'.
Proof.
  rewrite locked_key_cases. unfold locked_indexes. intros [Hh Ht] HL Hw. rewrite HL in Hh, Ht. destruct (by_height o) eqn:Hb.
  - rewrite (filter_in by_height) in Hh by done. rewrite (filter_out (negb ∘ by_height)) in Ht by (cbn; by rewrite Hb). split.
    + by eapply index_delete.
    + eapply index_others; [exact Hw|done|done|done].
  - rewrite (filter_out by_height) in Hh by done. rewrite (filter_in (negb ∘ by_height)) in Ht by (cbn; by rewrite Hb). split.
    + eapply index_others; [exact Hw|done|done|done].
    + by eapply index_delete.
Qed.

Lemma take_locked_key o : take 2 (locked_key o) = if by_height o then chars "lh" else chars "lt".
Proof. rewrite locked_key_cases. by destruct (by_height o). Qed.

(** A write to the index of locked outputs leaves the other indexes. *)
Lemma locked_others {A} p (key : A → Key) val d x d' o l : written d (locked_key o) x d' →
  p ∈ [chars "un"; chars "uh"; chars "li"] → index p key val d l → index p key val d' l.
Proof.
  intros Hw Hp. rewrite !elem_of_cons, elem_of_nil in Hp. eapply index_others; [exact Hw| |].
  - destruct_or! Hp; by subst.
  - rewrite take_locked_key. destruct (by_height o); destruct_or! Hp; by subst.
Qed.

Lemma image_others {A} p (key : A → Key) val d x d' o l : written d (image_key o) x d' →
  p ∈ [chars "un"; chars "uh"; chars "lh"; chars "lt"] → index p key val d l → index p key val d' l.
Proof.
  intros Hw Hp. rewrite !elem_of_cons, elem_of_nil in Hp. eapply index_others; [exact Hw| |]; destruct_or! Hp; by subst.
Qed.

Ltac listed := solve [rewrite !elem_of_cons; auto 6].

Lemma locked_image_agree d x d' o p : written d (locked_key o) x d' → p ∈ [chars "ba"; chars "ki"] → agree p d d'.
Proof.
  intros Hw Hp. rewrite !elem_of_cons, elem_of_nil in Hp. eapply written_agree; [exact Hw| |].
  - destruct_or! Hp; by subst.
  - rewrite take_locked_key. destruct (by_height o); destruct_or! Hp; by subst.
Qed.

(** The entry of [LOCKED_INDEX_KI_AM_GI], which outputs without a key image do
    not have. *)
Definition image_written (d : D) (o : Output) (x : option Value) (d' : D) : Prop :=
  if has_image o then written d (image_key o) x d' else d' = d.

Lemma indexes_add_locked d d1 d2 v o : indexes d v → written d (locked_key o) (Some (enc o)) d1 →
  get d (locked_key o) = None → image_written d1 o (Some (unlock_value o)) d2 →
  (has_image o = true → get d1 (image_key o) = None) → indexes d2 (with_locked v (o :: v_locked v)).
Proof.
  intros [] Hw Hn Hw2 Hn2. destruct (locked_insert d d1 (v_locked v) o) as [Hh Ht]; [done..|].
  pose proof (locked_image_agree _ _ _ _ (chars "ki") Hw ltac:(listed)) as Hki.
  unfold image_written in Hw2. destruct (has_image o) eqn:Hb; [|subst d2];
    split; cbn [v_unspent v_locked v_images with_locked].
  all: try (eapply image_others; [exact Hw2|listed|]).
  all: try (eapply locked_others; [exact Hw|listed|done]). all: try done.
  - rewrite (filter_in has_image) by done. eapply index_insert; [|exact Hw2|auto|].
    + intros x. by eexists.
    + eapply locked_others; [exact Hw|listed|done].
  - intros ki. rewrite (images_other _ _ _ _ ki Hw2) by done. unfold KEYIMAGE_key. by rewrite Hki.
  - rewrite (filter_out has_image) by done. eapply locked_others; [exact Hw|listed|done].
  - intros ki. unfold KEYIMAGE_key. by rewrite Hki.
Qed.

Lemma indexes_remove_locked d d1 d2 v o L : indexes d v → v_locked v ≡ₚ o :: L →
  written d (locked_key o) None d1 → image_written d1 o None d2 → indexes d2 (with_locked v L).
Proof.
  intros [] HL Hw Hw2. destruct (locked_delete d d1 (v_locked v) L o) as [Hh Ht]; [done..|].
  pose proof (locked_image_agree _ _ _ _ (chars "ki") Hw ltac:(listed)) as Hki. rewrite HL in ix_li0.
  unfold image_written in Hw2. destruct (has_image o) eqn:Hb; [|subst d2];
    split; cbn [v_unspent v_locked v_images with_locked].
  all: try (eapply image_others; [exact Hw2|listed|]).
  all: try (eapply locked_others; [exact Hw|listed|done]). all: try done.
  - rewrite (filter_in has_image) in ix_li0 by done. eapply index_delete; [exact Hw2|]. eapply locked_others; [exact Hw|listed|done].
  - intros ki. rewrite (images_other _ _ _ _ ki Hw2) by done. unfold KEYIMAGE_key. by rewrite Hki.
  - rewrite (filter_out has_image) in ix_li0 by done. eapply locked_others; [exact Hw|listed|done].
  - intros ki. unfold KEYIMAGE_key. by rewrite Hki.
Qed.

Lemma image_written_agree d o x d' p : image_written d o x d' → p ≠ chars "li" → length p = 2%nat → agree p d d'.
Proof.
  unfold image_written. intros Hw Hp Hl. destruct (has_image o); [|by subst].
  eapply written_agree; [exact Hw|done|]. intros Heq. by apply Hp.
Qed.

Lemma add_to_lock_holds w v o w' : holds w v → c_ok ser_Output o → fits (v_unspent v) (o :: v_locked v) →
  add_to_lock_index currency w o = Ok w' → holds w' (with_locked v (o :: v_locked v)).
Proof.
  intros [Hi Hb] Ho Hf Ha. unfold add_to_lock_index in Ha. inv_ok Ha.
  destruct (modify_balances _ _ _ _ _ _ _ (v_unspent v) (o :: v_locked v) Ha0 Hb) as [Hb' Hg];
    [by apply Ho|done|by apply moved_none|by apply moved_in|].
  destruct (encoding_ok ser_Output o Ho) as (He & _ & _). rewrite He in Ha1. injection Ha1 as <-.
  apply put_written in Ha2 as [Hw Hn].
  assert (image_written (m_db a1) o (Some (unlock_value o)) (m_db w') ∧
    (has_image o = true → get (m_db a1) (image_key o) = None)) as [Hw2 Hn2].
  { unfold image_written, has_image. case_bool_decide as Hz; cbn [negb]; [injection Ha as <-; done|].
    inv_ok Ha. apply put_written in Ha as [Hw2 Hn2]. split; [|auto].
    unfold unlock_value, encoding. by rewrite Ha1. }
  split.
  - eapply indexes_add_locked; [by eapply indexes_modified|exact Hw|auto|exact Hw2|exact Hn2].
  - eapply balances_agree; [|eapply balances_agree; [|exact Hb']].
    + by eapply image_written_agree.
    + by eapply locked_image_agree; [|listed].
Qed.

Lemma remove_from_lock_holds w v o L w' : holds w v → c_ok ser_Output o → v_locked v ≡ₚ o :: L →
  fits (v_unspent v) L → remove_from_lock_index currency w o = Ok w' → holds w' (with_locked v L).
Proof.
  intros [Hi Hb] Ho HL Hf Ha. unfold remove_from_lock_index in Ha. inv_ok Ha.
  destruct (modify_balances _ _ _ _ _ _ _ (v_unspent v) L Ha0 Hb) as [Hb' Hg];
    [by apply Ho|done|by apply moved_none|by apply moved_out|].
  apply del_written in Ha1 as [Hw _]; [|rewrite locked_key_cases; by destruct (by_height o)].
  assert (image_written (m_db a0) o None (m_db w')) as Hw2.
  { unfold image_written, has_image. case_bool_decide as Hz; cbn [negb]; [by injection Ha as <-|].
    by apply del_written in Ha as [Hw2 _]. }
  split.
  - eapply indexes_remove_locked; [by eapply indexes_modified|exact HL|exact Hw|exact Hw2].
  - eapply balances_agree; [|eapply balances_agree; [|exact Hb']].
    + by eapply image_written_agree.
    + by eapply locked_image_agree; [|listed].
Qed.

Lemma KEYIMAGE_key_inj a b : KEYIMAGE_key a = KEYIMAGE_key b → a = b.
Proof. by intros [= ->]. Qed.

Lemma update_keyimage_holds w v ki h no w' : holds w v → c_ok ser_HeightAmounGi h →
  update_keyimage w ki h no = Ok w' → holds w' (set_image v ki h).
Proof.
  intros [Hi Hb] Hh Hu. unfold update_keyimage in Hu. unfold set_image. case_bool_decide as Hz.
  - injection Hu as <-. by destruct v.
  - inv_ok Hu. destruct (encoding_ok ser_HeightAmounGi h Hh) as (He & _ & _). rewrite He in Ha. injection Ha as <-.
    apply put_written in Hu as [Hw _]. split; [|by eapply balances_agree; [eapply written_agree|]].
    destruct Hi. split; cbn [v_unspent v_locked v_images]; try others.
    intros k. destruct Hw as [_ Hw]. rewrite Hw. destruct (decide (k = ki)) as [->|Hne].
    + by rewrite decide_True, lookup_insert_eq.
    + rewrite decide_False by (intros ?%KEYIMAGE_key_inj; done). by rewrite lookup_insert_ne.
Qed.

(** A write that concerns none of the indexes. *)
Lemma put_other_holds w v k x no w' : holds w v → put_with_undo w k x no = Ok w' →
  take 2 k ∉ [chars "ba"; chars "un"; chars "uh"; chars "lh"; chars "lt"; chars "li"; chars "ki"] → holds w' v.
Proof.
  intros [Hi Hb] Hp Hk. apply put_written in Hp as [Hw _]. rewrite !elem_of_cons, elem_of_nil in Hk. split.
  - eapply indexes_agree; [|exact Hi]. intros p Hp. rewrite !elem_of_cons, elem_of_nil in Hp.
    eapply written_agree; [exact Hw|destruct_or! Hp; by subst|]. intros <-. tauto.
  - eapply balances_agree; [|exact Hb]. eapply written_agree; [exact Hw|done|]. tauto.
Qed.

(** ** Readers *)

Lemma he_am_gi_inj h a g h' a' g' : in_u 32 h → in_u 64 a → in_u 32 g → in_u 32 h' → in_u 64 a' → in_u 32 g' →
  he_am_gi h a g = he_am_gi h' a' g' → h = h' ∧ a = a' ∧ g = g'.
Proof.
  intros Hh%in_u_32_64 Ha Hg%in_u_32_64 Hh'%in_u_32_64 Ha' Hg'%in_u_32_64 Heq. unfold he_am_gi in Heq.
  apply write_varint_sqlite4_app_inj in Heq as [-> Heq]; [|done..].
  apply write_varint_sqlite4_app_inj in Heq as [-> Heq]; [|done..].
  rewrite <- (app_nil_r (write_varint_sqlite4 g)), <- (app_nil_r (write_varint_sqlite4 g')) in Heq.
  by apply write_varint_sqlite4_app_inj in Heq as [-> _].
Qed.

(** An unspent output found by its height, amount and index. *)
Definition same_place (h : HeightAmounGi) (o : Output) : Prop := output_heamgi o = h.
Global Instance same_place_dec h o : Decision (same_place h o).
Proof. unfold same_place. apply _. Defined.
Definition find_unspent (v : contents) (h : HeightAmounGi) : option Output :=
  snd <$> list_find (same_place h) (v_unspent v).

Lemma heamgi_ok o : c_ok ser_Output o → c_ok ser_HeightAmounGi (output_heamgi o).
Proof. intros Ho. unfold ser_HeightAmounGi, ser_Output in *. cbn in *. tauto. Qed.

Lemma unspent_place o h : c_ok ser_Output o → c_ok ser_HeightAmounGi h →
  unspent_key o = UNSPENT_key (height h) (amount h) (global_index h) ↔ same_place h o.
Proof.
  intros Ho%heamgi_ok Hh. unfold ser_HeightAmounGi, same_place in *. cbn in Ho, Hh. split.
  - intros [= Heq]. apply he_am_gi_inj in Heq as (E1 & E2 & E3); [|tauto..]. destruct h. unfold output_heamgi. cbn in *. congruence.
  - by intros <-.
Qed.

Lemma read_unspent w v h : holds w v → contents_ok v → c_ok ser_HeightAmounGi h →
  read_from_unspent_index w h = Ok (find_unspent v h).
Proof.
  intros [[] _] [Hok _ _] Hh. apply Forall_app in Hok as [Hok _]. rewrite Forall_forall in Hok.
  unfold read_from_unspent_index, find_unspent, read.
  destruct (list_find (same_place h) (v_unspent v)) as [[i o]|] eqn:Hf; cbn [fmap option_fmap option_map snd].
  - apply list_find_Some in Hf as (Hi & Hp & _). apply list_elem_of_lookup_2 in Hi.
    rewrite <- (proj2 (unspent_place o h (Hok _ Hi) Hh) Hp).
    rewrite (index_get (chars "un") unspent_key enc ltac:(intros x; by eexists) _ _ _ ix_un0 Hi).
    destruct (encoding_ok ser_Output o (Hok _ Hi)) as (_ & _ & ->). done.
  - destruct (get (m_db w) _) as [x|] eqn:Hg; [|done]. exfalso.
    apply (index_find (chars "un") unspent_key enc _ _ _ _ ix_un0) in Hg as (o & Ho & Hk & _).
    apply list_find_None in Hf. rewrite Forall_forall in Hf. apply (Hf o Ho). apply (unspent_place o h); [by apply Hok|done|done].
Qed.

Lemma read_image w v ki : holds w v → contents_ok v → read_by_keyimage w ki = Ok (v_images v !! ki).
Proof.
  intros [[] _] [_ Hok _]. unfold read_by_keyimage, read. rewrite ix_ki0.
  destruct (v_images v !! ki) as [h|] eqn:Hh; [|done]. cbn [fmap option_fmap option_map mbind result_bind].
  destruct (encoding_ok ser_HeightAmounGi h) as (_ & _ & ->); [by eapply Hok|done].
Qed.

Definition existing (v : contents) (ki : KeyImage) : option Output :=
  h ← v_images v !! ki; find_unspent v h.

Lemma read_existing_ok w v ki : holds w v → contents_ok v →
  read_existing w ki = Ok (v_images v !! ki, existing v ki).
Proof.
  intros Hv Hok. unfold read_existing, existing. rewrite (read_image w v) by done. cbn [mbind result_bind].
  destruct (v_images v !! ki) as [h|] eqn:Hh; [|done]. rewrite (read_unspent w v); [done..|]. by eapply (co_images _ Hok).
Qed.

End laws.
End WalletLaws.
