(* ===== verification/WalletSpec.v ===== *)
(** * The wallet's handlers against their specification

    What [add_incoming_output], [add_incoming_keyimage] and [unlock] do to the
    contents of the wallet, and that the database follows: of several outputs
    with one key image at most one counts, and the balances are those of the
    outputs. *)

From S2P Require Import Prelude Varint Containers Words Seria Text CryptoNote Currency Db Store WalletData Wallet WalletIndex WalletLaws.
Import Containers Codec Varint CryptoNote Currency Db Store WalletData Wallet WalletIndex WalletLaws.

Local Open Scope Z_scope.

Module WalletSpec.

(** ** Specifications *)

Definition without (o : Output) (l : list Output) : list Output := filter (λ x, x ≠ o) l.

(** [add_incoming_output(output, just_unlocked)]. *)
Definition spec_add (v : contents) (o : Output) (just_unlocked : bool) : contents * Amount :=
  let ki := o_key_image o in
  match v_images v !! ki, existing v ki with
  | Some _, None => (v, 0)
  | h, e =>
      if negb (o_unlock_time o =? 0) && negb just_unlocked then (with_locked v (o :: v_locked v), o_amount o)
      else
        match h, e with
        | Some h, Some e =>
            if (o_amount o <=? amount h) || negb (bool_decide (o_address o = o_address e)) then (v, 0)
            else (set_image (with_unspent v (o :: without e (v_unspent v))) ki (output_heamgi o), u64 (o_amount o - amount h))
        | _, _ => (set_image (with_unspent v (o :: v_unspent v)) ki (output_heamgi o), o_amount o)
        end
  end.

(** [unlock(now_height, output)]. *)
Definition spec_unlock (v : contents) (o : Output) : contents :=
  (spec_add (with_locked v (without o (v_locked v))) o true).1.

(** The spending part of [add_incoming_keyimage]. *)
Definition spec_spend (v : contents) (ki : KeyImage) : contents * Amount :=
  match existing v ki with
  | Some e => (with_unspent v (without e (v_unspent v)), o_amount e)
  | None => (v, 0)
  end.

Section laws.
Context {D : Type} `{LmdbLaws D} (currency : Currency).
Abbreviation W := (WalletState D).
Abbreviation shows := (shows currency).
Abbreviation holds := (holds currency).

Lemma filter_all (P : Output → Prop) `{∀ x, Decision (P x)} (l : list Output) : (∀ x, x ∈ l → P x) → filter P l = l.
Proof.
  induction l as [|x l IH]; intros Hl; [done|]. rewrite filter_cons_True by (apply Hl; by left).
  f_equal. apply IH. intros y Hy. apply Hl. by right.
Qed.
Lemma without_notin o l : o ∉ l → without o l = l.
Proof. intros Ho. apply filter_all. by intros x Hx ->. Qed.

Lemma without_perm o l : NoDup l → o ∈ l → l ≡ₚ o :: without o l.
Proof.
  induction l as [|x l IH]; intros Hnd Ho; [by apply elem_of_nil in Ho|].
  apply NoDup_cons in Hnd as [Hx Hnd]. unfold without. rewrite filter_cons. fold (without o l).
  destruct (decide (x = o)) as [->|Hne].
  - rewrite decide_False by (by intros []). by rewrite without_notin.
  - rewrite decide_True by done. apply elem_of_cons in Ho as [->|Ho]; [done|]. rewrite Permutation_swap. f_equiv. by apply IH.
Qed.

Lemma elem_of_without x o l : x ∈ without o l ↔ x ≠ o ∧ x ∈ l.
Proof. unfold without. by rewrite list_elem_of_filter. Qed.
Lemma length_without o l : (length (without o l) ≤ length l)%nat.
Proof. apply length_filter. Qed.
Lemma without_incl o l : without o l ⊆+ l.
Proof. apply sublist_submseteq, sublist_filter. Qed.

(** The lists of an index hold nothing twice. *)
Lemma shows_unspent_nodup w v : shows w v → NoDup (v_unspent v).
Proof. intros [[[Hnd _] _ _ _ _ _] _ _]. by eapply NoDup_fmap_1. Qed.

Lemma filter_nodup (P : Output → bool) l : NoDup (filter P l) → NoDup (filter (negb ∘ P) l) → NoDup l.
Proof.
  induction l as [|x l IH]; [constructor|]. intros H1 H2. destruct (P x) eqn:HP.
  - rewrite (filter_in P) in H1 by done. rewrite (filter_out (negb ∘ P)) in H2 by (cbn; by rewrite HP).
    apply NoDup_cons in H1 as [Hx H1]. apply NoDup_cons. split; [|by apply IH].
    intros Hin. apply Hx, list_elem_of_filter. by rewrite HP.
  - rewrite (filter_out P) in H1 by done. rewrite (filter_in (negb ∘ P)) in H2 by (cbn; by rewrite HP).
    apply NoDup_cons in H2 as [Hx H2]. apply NoDup_cons. split; [|by apply IH].
    intros Hin. apply Hx, list_elem_of_filter. cbn. by rewrite HP.
Qed.
Lemma shows_locked_nodup w v : shows w v → NoDup (v_locked v).
Proof.
  intros [[_ _ [H1 _] [H2 _] _ _] _ _]. apply (filter_nodup (by_height currency)); by eapply NoDup_fmap_1.
Qed.

Lemma existing_some v ki e : existing v ki = Some e → e ∈ v_unspent v ∧ v_images v !! ki = Some (output_heamgi e).
Proof.
  unfold existing. destruct (v_images v !! ki) as [h|]; [|done]. cbn. unfold find_unspent.
  destruct (list_find _ _) as [[i o]|] eqn:Hf; [|done]. cbn. intros [= ->].
  apply list_find_Some in Hf as (Hi & <- & _). split; [by eapply list_elem_of_lookup_2|done].
Qed.

Lemma place_inj w v x y : shows w v → x ∈ v_unspent v → y ∈ v_unspent v → output_heamgi x = output_heamgi y → x = y.
Proof. intros [[Hi _ _ _ _ _] _ _] Hx Hy [= E1 E2 E3]. eapply index_inj; [done..|]. unfold unspent_key. congruence. Qed.

Lemma fits_of v n : contents_ok v → room n v → 0 ≤ n → fits (v_unspent v) (v_locked v).
Proof.
  intros [Hok _ _] Hr Hn. split; [|unfold room in Hr; lia]. eapply Forall_impl; [exact Hok|]. intros o Ho. apply Ho.
Qed.

Lemma fits_perm U L U' L' : U ++ L ≡ₚ U' ++ L' → fits U L → fits U' L'.
Proof. intros Hp [Ha Hn]. split; by rewrite <- Hp. Qed.
Lemma fits_sub U L U' L' : U' ++ L' ⊆+ U ++ L → fits U L → fits U' L'.
Proof.
  intros Hp [Ha Hn]. split; [|apply submseteq_length in Hp; lia]. rewrite Forall_forall in *. intros o Ho.
  by eapply Ha, elem_of_submseteq.
Qed.
Lemma fits_add v o : contents_ok v → room 1 v → c_ok ser_Output o → fits (o :: v_unspent v) (v_locked v).
Proof.
  intros Hv Hr Ho. destruct (fits_of v 1 Hv Hr ltac:(lia)) as [Ha Hn]. split; [|unfold room in Hr; cbn [app length]; lia].
  constructor; [apply Ho|done].
Qed.

Lemma fits_lock v o : contents_ok v → room 1 v → c_ok ser_Output o → fits (v_unspent v) (o :: v_locked v).
Proof.
  intros Hv Hr Ho. apply (fits_perm (o :: v_unspent v) (v_locked v)); [apply Permutation_middle|by apply fits_add].
Qed.

Lemma fits_replace U L o e U' : U ≡ₚ e :: U' → fits (o :: U) L → fits U' L ∧ fits (o :: U') L.
Proof.
  intros Hp Hf. apply (fits_perm _ _ (o :: e :: U') L) in Hf; [|by rewrite Hp].
  split; eapply fits_sub; try exact Hf; cbn.
  - by apply submseteq_cons, submseteq_cons.
  - by apply submseteq_skip, submseteq_cons.
Qed.

(** *** Well-formed contents *)

Lemma contents_ok_incl v U L : contents_ok v → U ⊆ v_unspent v → L ⊆ v_unspent v ++ v_locked v →
  contents_ok {| v_unspent := U; v_locked := L; v_images := v_images v |}.
Proof.
  intros [Ho Hi Hf] HU HL. split; cbn; [|done|].
  - rewrite Forall_forall in *. intros o [Hin|Hin]%elem_of_app; apply Ho; [apply elem_of_app; left; auto|auto].
  - intros o Hin. auto.
Qed.

Lemma contents_ok_lock v o : contents_ok v → c_ok ser_Output o → contents_ok (with_locked v (o :: v_locked v)).
Proof.
  intros [Ho Hi Hf] Hoo. split; cbn; [|done|done]. apply Forall_app in Ho as [? ?]. apply Forall_app. split; [done|by constructor].
Qed.

Lemma contents_ok_add v o U : contents_ok v → c_ok ser_Output o → U ⊆ v_unspent v →
  (∀ x, x ∈ U → has_image o = true → o_key_image x ≠ o_key_image o) →
  contents_ok (set_image (with_unspent v (o :: U)) (o_key_image o) (output_heamgi o)).
Proof.
  intros [Ho Hi Hf] Hoo HU Hx. split; cbn.
  - constructor; [done|]. rewrite Forall_forall in *. intros x [Hin|Hin]%elem_of_app; apply Ho, elem_of_app; auto.
  - case_bool_decide; [done|]. apply map_Forall_insert_2; [by apply heamgi_ok|done].
  - intros x Hin Hix. case_bool_decide as Hz.
    + apply elem_of_cons in Hin as [->|Hin]; [|by apply Hf; auto]. unfold has_image in Hix. by rewrite bool_decide_eq_true_2 in Hix.
    + apply elem_of_cons in Hin as [->|Hin]; [by rewrite lookup_insert_eq|].
      rewrite lookup_insert_ne; [by apply Hf; auto|]. intros Heq. apply (Hx x Hin); [|done].
      unfold has_image. by rewrite bool_decide_eq_false_2.
Qed.

(** ** [add_incoming_output] *)

Lemma add_output_spec w v o j w' am : shows w v → c_ok ser_Output o → room 1 v →
  add_output currency w o j = Ok (w', am) → shows w' (spec_add v o j).1 ∧ am = (spec_add v o j).2.
Proof.
  intros Hs Ho Hr Ha. pose proof Hs as [Hix Hb Hok]. assert (holds w v) as Hh by done.
  unfold add_output in Ha. rewrite (read_existing_ok currency w v) in Ha by done. cbn [mbind result_bind] in Ha.
  unfold spec_add. pose proof (fits_add v o Hok Hr Ho) as Hf.
  destruct (v_images v !! o_key_image o) as [h|] eqn:Hh1, (existing v (o_key_image o)) as [e|] eqn:He.
  - destruct (_ && _) eqn:Hl.
    + inv_ok Ha. injection Ha as <- <-. split; [|done].
      destruct (add_to_lock_holds currency w v o a Hh Ho) as [? ?]; [|done|by split; [| |by apply contents_ok_lock]].
      by apply fits_lock.
    + destruct (_ || _) eqn:Hdup; [by injection Ha as <- <-|]. inv_ok Ha. injection Ha as <- <-. split; [|done].
      destruct (existing_some _ _ _ He) as [Hein Hei]. rewrite Hh1 in Hei. injection Hei as ->.
      pose proof (without_perm e _ (shows_unspent_nodup w v Hs) Hein) as Hp.
      pose proof (co_outputs _ Hok) as Hall. rewrite Forall_forall in Hall.
      pose proof (remove_from_unspent_holds currency w v e _ a Hh (Hall e ltac:(apply elem_of_app; by left)) Hp) as H1.
      destruct (fits_replace _ _ o e _ Hp Hf) as [Hf1 Hf2]. specialize (H1 Hf1 Ha0).
      pose proof (add_to_unspent_holds currency a _ o a0 H1 Ho) as H2.
      specialize (H2 Hf2 Ha1).
      pose proof (update_keyimage_holds currency a0 _ (o_key_image o) (output_heamgi o) false _ H2 (heamgi_ok o Ho) Ha2) as [? ?].
      split; [done|done|]. apply (contents_ok_add v o); [done..| |].
      * intros x. rewrite elem_of_without. tauto.
      * intros x [Hxe Hx]%elem_of_without Hoi Heq. apply Hxe. apply (place_inj w v); [done..|].
        pose proof (co_fresh _ Hok x Hx) as Hfr. unfold has_image in *. rewrite Heq in Hfr. specialize (Hfr Hoi). congruence.
  - by injection Ha as <- <-.
  - by apply existing_some in He as [_ He]; rewrite Hh1 in He.
  - destruct (_ && _) eqn:Hl.
    + inv_ok Ha. injection Ha as <- <-. split; [|done].
      destruct (add_to_lock_holds currency w v o a Hh Ho) as [? ?]; [|done|by split; [| |by apply contents_ok_lock]].
      by apply fits_lock.
    + inv_ok Ha. injection Ha as <- <-. split; [|done].
      pose proof (add_to_unspent_holds currency w v o a Hh Ho Hf Ha0) as H1.
      pose proof (update_keyimage_holds currency a _ (o_key_image o) (output_heamgi o) true _ H1 (heamgi_ok o Ho) Ha1) as [? ?].
      split; [done|done|]. apply (contents_ok_add v o); [done..|].
      intros x Hx Hoi Heq. pose proof (co_fresh _ Hok x Hx) as Hfr. unfold has_image in *. rewrite Heq in Hfr. specialize (Hfr Hoi). congruence.
Qed.

(** ** [unlock] of one output *)

Lemma write_balance_frame w a b w' k : write_balance w a b = Ok w' → ¬ chars "ba" `prefix_of` k →
  get (m_db w') k = get (m_db w) k.
Proof.
  intros Hw Hk. assert (k ≠ BALANCE_key a) as Hne by (intros ->; apply Hk; by eexists).
  unfold write_balance in Hw. destruct (_ && _); [|inv_ok Hw].
  - apply del_written in Hw as [[_ Hw] _]; [|done]. by rewrite Hw, decide_False.
  - apply put_written in Hw as [[_ Hw] _]. by rewrite Hw, decide_False.
Qed.

Lemma modify_balance_frame w o lop sop w' k : modify_balance w o lop sop = Ok w' → ¬ chars "ba" `prefix_of` k →
  get (m_db w') k = get (m_db w) k.
Proof.
  intros Hm Hk. unfold modify_balance in Hm. inv_ok Hm.
  rewrite (write_balance_frame _ _ _ _ _ Hm Hk). by apply (write_balance_frame _ _ _ _ _ Ha1).
Qed.

Abbreviation locked_key o := (LOCKED_key currency (o_unlock_time o) (o_amount o) (o_global_index o)).

(** Only what is locked can be removed from the lock index. *)
Lemma removed_locked w v o w' : shows w v → remove_from_lock_index currency w o = Ok w' →
  ∃ x, x ∈ v_locked v ∧ locked_key x = locked_key o.
Proof.
  intros [[_ _ Hh Ht _ _] _ _] Hr. unfold remove_from_lock_index in Hr. inv_ok Hr.
  apply del_written in Ha0 as [_ Hst]; [|rewrite locked_key_cases; by destruct (by_height currency o)].
  destruct (Hst eq_refl) as [x Hx]. fold (get (m_db a) (locked_key o)) in Hx.
  rewrite (modify_balance_frame _ _ _ _ _ _ Ha) in Hx.
  2: { rewrite locked_key_cases. destruct (by_height currency o); intros [s Hs]; discriminate Hs. }
  setoid_rewrite locked_key_cases. rewrite locked_key_cases in Hx. destruct (by_height currency o).
  - apply (index_find _ _ _ _ _ _ _ Hh) in Hx as (y & [Hb Hy]%list_elem_of_filter & Hk & _).
    exists y. split; [done|]. destruct (by_height currency y); [done|by destruct Hb].
  - apply (index_find _ _ _ _ _ _ _ Ht) in Hx as (y & [Hb Hy]%list_elem_of_filter & Hk & _).
    exists y. split; [done|]. cbn in Hb. destruct (by_height currency y); [by destruct Hb|done].
Qed.

Lemma locked_inj w v x y : shows w v → x ∈ v_locked v → y ∈ v_locked v → locked_key x = locked_key y → x = y.
Proof.
  intros [[_ _ Hh Ht _ _] _ _] Hx Hy. rewrite !locked_key_cases.
  destruct (by_height currency x) eqn:Bx, (by_height currency y) eqn:By; intros Heq; try discriminate Heq.
  - eapply index_inj; [exact Hh|apply list_elem_of_filter; by rewrite Bx|apply list_elem_of_filter; by rewrite By|done].
  - eapply index_inj; [exact Ht|apply list_elem_of_filter; cbn; by rewrite Bx|apply list_elem_of_filter; cbn; by rewrite By|done].
Qed.

Lemma spec_add_locked v o : v_locked (spec_add v o true).1 = v_locked v.
Proof. unfold spec_add. rewrite andb_false_r. by repeat case_match. Qed.
Lemma spec_unlock_locked v o : v_locked (spec_unlock v o) = without o (v_locked v).
Proof. unfold spec_unlock. apply spec_add_locked. Qed.

(** How many outputs the contents count. *)
Definition size (v : contents) : nat := length (v_unspent v ++ v_locked v).
Lemma room_size n v v' : (size v' ≤ size v)%nat → room n v → room n v'.
Proof. unfold room, size. lia. Qed.

Lemma spec_add_length v o j : (size (spec_add v o j).1 ≤ S (size v))%nat.
Proof.
  unfold spec_add, size. repeat case_match; cbn; rewrite ?length_app; cbn; try lia.
  match goal with |- context [without ?e ?l] => pose proof (length_without e l) end. lia.
Qed.

Lemma room_unlock w v o : shows w v → o ∈ v_locked v → room 0 v →
  room 1 (with_locked v (without o (v_locked v))) ∧ (size (spec_unlock v o) ≤ size v)%nat.
Proof.
  intros Hs Ho Hr. pose proof (without_perm o _ (shows_locked_nodup w v Hs) Ho) as Hp. apply Permutation_length in Hp.
  pose proof (spec_add_length (with_locked v (without o (v_locked v))) o true) as Hl. fold (spec_unlock v o) in Hl.
  unfold room, size in *. cbn in Hp, Hl |- *. rewrite !length_app in *. cbn in *. lia.
Qed.

Lemma unlock_output_spec w v now o w' : shows w v → o ∈ v_locked v → room 0 v →
  unlock_output currency w now o = Ok w' → shows w' (spec_unlock v o).
Proof.
  intros Hs Ho Hr Hu. pose proof Hs as [Hi Hb Hok]. unfold unlock_output in Hu. apply bind_Ok_inv in Hu as (w1 & Hr1 & Hu).
  apply bind_Ok_inv in Hu as ([w2 am] & Ha & Hu). cbn beta iota in Hu. inv_ok Hu.
  assert (c_ok ser_Output o) as Hoo.
  { pose proof (co_outputs _ Hok) as Hall. rewrite Forall_forall in Hall. apply Hall, elem_of_app. by right. }
  pose proof (without_perm o _ (shows_locked_nodup w v Hs) Ho) as Hp.
  destruct (room_unlock w v o Hs Ho Hr) as [Hr' _].
  assert (shows w1 (with_locked v (without o (v_locked v)))) as Hs1.
  { destruct (remove_from_lock_holds currency w v o (without o (v_locked v)) w1) as [? ?]; try done.
    - eapply fits_sub; [|by apply (fits_of v 0)]. apply submseteq_app; [done|apply without_incl].
    - split; [done..|]. apply (contents_ok_incl v); [done..|]. intros x [_ Hx]%elem_of_without. apply elem_of_app. by right. }
  destruct (add_output_spec w1 _ o true w2 am Hs1 Hoo Hr' Ha) as [[Hi2 Hb2 Hok2] _].
  destruct (put_other_holds currency w2 _ _ _ _ _ (conj Hi2 Hb2) Hu) as [? ?]; [|by split].
  change (take 2 _) with (chars "ul"). by apply (bool_decide_unpack _).
Qed.

(** ** Several outputs *)

Lemma unlock_outputs_spec l w v now w' : shows w v → room 0 v →
  (∀ o x, o ∈ l → x ∈ v_locked v → locked_key x = locked_key o → x = o) →
  for_each (λ w o, unlock_output currency w now o) l w = Ok w' →
  shows w' (foldl spec_unlock v l) ∧ (size (foldl spec_unlock v l) ≤ size v)%nat ∧ NoDup l ∧ l ⊆ v_locked v ∧
  v_locked (foldl spec_unlock v l) = filter (λ o, o ∉ l) (v_locked v).
Proof.
  revert w v. induction l as [|o l IH]; intros w v Hs Hr Hl Hu.
  - injection Hu as <-. split_and!; [done..|constructor|apply list_subseteq_nil|].
    symmetry. apply filter_all. intros x _. apply not_elem_of_nil.
  - cbn [for_each] in Hu. inv_ok Hu.
    assert (o ∈ v_locked v) as Ho.
    { unfold unlock_output in Ha. inv_ok Ha. destruct (removed_locked w v o _ Hs Ha0) as (x & Hx & Hk).
      by rewrite <- (Hl o x ltac:(by left) Hx Hk). }
    pose proof (unlock_output_spec w v now o a Hs Ho Hr Ha) as Hs1. destruct (room_unlock w v o Hs Ho Hr) as [_ Hr1].
    destruct (IH a (spec_unlock v o) Hs1 (room_size 0 _ _ Hr1 Hr)) as (I1 & I2 & I3 & I4 & I5); [|done|].
    { intros o' x Ho' Hx. rewrite spec_unlock_locked in Hx. apply elem_of_without in Hx as [_ Hx]. apply Hl; [by right|done]. }
    rewrite spec_unlock_locked in I4, I5. cbn [foldl]. split_and!; [done|lia| | |].
    + apply NoDup_cons. split; [|done]. intros Hin%I4. by apply elem_of_without in Hin as [? _].
    + intros x [->|Hx]%elem_of_cons; [done|]. by apply I4, elem_of_without in Hx as [_ ?].
    + rewrite I5. unfold without. rewrite list_filter_filter. apply list_filter_iff. intros x. rewrite elem_of_cons. tauto.
Qed.

End laws.
End WalletSpec.
