(* ===== verification/WalletUnlock.v ===== *)
(** * Which outputs the wallet unlocks

    The walks over the indexes of locked outputs find exactly the outputs that
    are due, and those with a given key image. *)

From S2P Require Import Prelude Varint Containers Words Seria Text CryptoNote Currency Db Store WalletData Wallet WalletIndex WalletLaws WalletSpec.
Import Containers Codec Varint CryptoNote Currency Db Store WalletData Wallet WalletIndex WalletLaws WalletSpec.

Local Open Scope Z_scope.

Module WalletUnlock.

Lemma clamped_bound u : in_u 64 u → in_u 32 (clamped_unlock_time u).
Proof. unfold clamped_unlock_time, in_u. lia. Qed.

(** The keys of the lock indexes read back. *)
Lemma parse_he_am_gi h a g : in_u 32 h → in_u 64 a → in_u 32 g → parse_lock_key (he_am_gi h a g) = Ok (h, a, g).
Proof.
  intros Hh Ha Hg. unfold parse_lock_key, he_am_gi. pose proof (in_u_32_64 _ Hh). pose proof (in_u_32_64 _ Hg).
  rewrite read_write_varint_sqlite4 by done. cbn [mbind result_bind]. unfold lexical_cast_u32.
  replace (h <=? UINT32_MAX) with true by (unfold in_u, UINT32_MAX in *; lia). cbn [mbind result_bind].
  rewrite read_write_varint_sqlite4 by done. cbn [mbind result_bind].
  rewrite <- (app_nil_r (write_varint_sqlite4 g)). rewrite read_write_varint_sqlite4 by done. cbn [mbind result_bind].
  by replace (g <=? UINT32_MAX) with true by (unfold in_u, UINT32_MAX in *; lia).
Qed.

(** Their order is the order of the unlock moments first. *)
Lemma he_am_gi_order h a g h' a' g' : in_u 32 h → in_u 32 h' →
  lex_ltb (he_am_gi h a g) (he_am_gi h' a' g') = true → h ≤ h'.
Proof.
  intros Hh Hh' Hlt. destruct (Z.lt_ge_cases h' h) as [Hl|]; [|done]. exfalso.
  pose proof (write_varint_sqlite4_lex h' h (write_varint_sqlite4 a' ++ write_varint_sqlite4 g')
    (write_varint_sqlite4 a ++ write_varint_sqlite4 g)) as Hx. unfold he_am_gi in Hlt.
  apply lex_ltb_asym in Hlt. rewrite Hx in Hlt; [done|..]; by try apply in_u_32_64.
Qed.

Definition moment (o : Output) : Z := clamped_unlock_time (o_unlock_time o).
Definition place (o : Output) : (Amount * Z) * Output := ((o_amount o, o_global_index o), o).
Abbreviation enc := (encoding ser_Output).

Lemma filter_none (P : Output → Prop) `{∀ x, Decision (P x)} (l : list Output) : (∀ x, x ∈ l → ¬ P x) → filter P l = [].
Proof.
  induction l as [|x l IH]; intros Hl; [done|]. rewrite filter_cons_False by (apply Hl; by left).
  apply IH. intros y Hy. apply Hl. by right.
Qed.

Lemma output_ranges o : c_ok ser_Output o →
  in_u 64 (o_unlock_time o) ∧ in_u 64 (o_amount o) ∧ in_u 32 (o_global_index o) ∧ in_u 32 (o_height o).
Proof. intros Ho. unfold ser_Output in Ho. cbn in Ho. tauto. Qed.

Lemma moment_bound o : c_ok ser_Output o → in_u 32 (moment o).
Proof. intros Ho. by apply clamped_bound, output_ranges. Qed.

Lemma unlock_entry_ok end_ add o : c_ok ser_Output o →
  unlock_entry [] end_ add (locked_suffix o, enc o) =
    if moment o >? end_ then Ok (false, add)
    else if bool_decide (add !! (o_amount o, o_global_index o) = None)
      then Ok (true, <[(o_amount o, o_global_index o) := o]> add)
      else Throw "Invariant dead read_unlock_index adding output twice".
Proof.
  intros Ho. destruct (output_ranges o Ho) as (B1 & B2 & B3 & _).
  unfold unlock_entry. cbn [fst snd]. unfold locked_suffix.
  rewrite parse_he_am_gi by (by try apply clamped_bound). cbn [mbind result_bind]. fold (moment o).
  destruct (moment o >? end_); [done|]. destruct (encoding_ok ser_Output o Ho) as (_ & _ & Hd). rewrite Hd.
  cbn [mbind result_bind]. rewrite Z.eqb_refl. cbn [check mbind result_bind]. rewrite (bool_decide_eq_true_2 (@nil Z = [])) by done.
  cbn [orb]. by case_bool_decide.
Qed.

(** The walk of [read_unlock_index] over the outputs [os]. *)
Lemma visit_due (end_ : Z) os add m :
  Forall (c_ok ser_Output) os → StronglySorted (λ o o', moment o ≤ moment o') os →
  visit (unlock_entry [] end_) ((λ o, (locked_suffix o, enc o)) <$> os) add = Ok m →
  map_to_list m ≡ₚ (place <$> filter (λ o, moment o ≤ end_) os) ++ map_to_list add.
Proof.
  revert add. induction os as [|o os IH]; intros add Hok Hs Hv; [by injection Hv as <-|].
  apply Forall_cons in Hok as [Ho Hok]. apply StronglySorted_inv in Hs as [Hs Hlast].
  rewrite fmap_cons in Hv. cbn [visit] in Hv. rewrite unlock_entry_ok in Hv by done.
  destruct (Z.gtb_spec (moment o) end_) as [Hgt|Hle].
  - injection Hv as <-. rewrite filter_none; [done|]. rewrite Forall_forall in Hlast.
    intros x [->|Hx]%elem_of_cons; [lia|]. specialize (Hlast x Hx). lia.
  - case_bool_decide as Hn; [|discriminate Hv]. cbn [mbind result_bind] in Hv.
    apply IH in Hv; [|done..]. rewrite Hv, map_to_list_insert by done.
    rewrite filter_cons_True by done. rewrite fmap_cons. cbn [app]. by rewrite <- Permutation_middle.
Qed.

Lemma filter_agree (P Q : Output → Prop) `{∀ x, Decision (P x), ∀ x, Decision (Q x)} (l : list Output) :
  (∀ x, x ∈ l → P x ↔ Q x) → filter P l = filter Q l.
Proof.
  induction l as [|x l IH]; intros Hl; [done|]. rewrite !filter_cons, IH by (intros y Hy; apply Hl; by right).
  assert (P x ↔ Q x) by (apply Hl; by left). repeat case_decide; tauto || done.
Qed.

Section laws.
Context {D : Type} `{LmdbLaws D} (currency : Currency).
Abbreviation W := (WalletState D).
Abbreviation shows := (shows currency).

(** [read_unlock_index] from the start of the index. *)
Lemma read_unlock_due w add p key l end_ m : p ≠ [] → (∀ o, key o = p ++ locked_suffix o) →
  index p key enc (m_db w) l → Forall (c_ok ser_Output) l →
  read_unlock_index w add p [] UINT32_MAX end_ = Ok m →
  map_to_list m ≡ₚ (place <$> filter (λ o, moment o ≤ end_) l) ++ map_to_list add.
Proof.
  intros Hp Hkey Hi Hok Hr. unfold read_unlock_index in Hr. cbn [negb Z.eqb] in Hr.
  change (negb (UINT32_MAX =? UINT32_MAX) && (end_ <=? UINT32_MAX)) with false in Hr. cbn iota in Hr.
  destruct (for_cursor_ok (m_db w) p (write_varint_sqlite4 (u32 (UINT32_MAX + 1)))
    (λ add c, unlock_entry [] end_ add (suffix c, data c)) (unlock_entry [] end_)) as (es & Hes & Hloop).
  { by destruct p. }
  { done. }
  rewrite Hloop in Hr. destruct (index_entries p key enc ltac:(intros o; rewrite Hkey; by eexists) _ _ _ _ locked_suffix Hi Hkey Hes) as (os & -> & Hos & Hsort).
  { intros o Ho. split; [unfold stored|].
    - pose proof (index_get p key enc ltac:(intros x; rewrite Hkey; by eexists) _ _ _ Hi Ho) as Hg. unfold get in Hg. rewrite Hg. by eexists.
    - rewrite Hkey, lex_ltb_app. rewrite Forall_forall in Hok. specialize (Hok o Ho).
      change (write_varint_sqlite4 (u32 (UINT32_MAX + 1))) with [0]. unfold locked_suffix, he_am_gi.
      assert (in_u 64 (clamped_unlock_time (o_unlock_time o))) as Hc.
      { apply in_u_32_64, clamped_bound, Hok. }
      pose proof (bytes_write_varint_sqlite4 _ Hc) as Hb.
      destruct (write_varint_sqlite4 (clamped_unlock_time (o_unlock_time o))) as [|x r] eqn:Hx; [by destruct (write_varint_sqlite4_view _ Hc)|].
      apply Forall_cons in Hb as [Hb _]. unfold is_byte in Hb. cbn [app lex_ltb].
      destruct (Z.ltb_spec x 0); [lia|]. destruct (0 <? x); [done|apply lex_ltb_nil_r]. }
  rewrite <- Hos. rewrite <- Hos in Hok. apply visit_due; [done| |done].
  clear -Hsort Hok. induction Hsort as [|o os Hs IH Ho]; constructor; apply Forall_cons in Hok as [Hoo Hok].
  - by apply IH.
  - rewrite Forall_forall in *. intros o' Hin. specialize (Ho o' Hin). unfold moment, locked_suffix in *.
    eapply he_am_gi_order; [..|exact Ho]; apply clamped_bound; [apply Hoo|by apply Hok].
Qed.

(** ** [unlock] *)

Definition due (now_height : Height) (now : Timestamp) (o : Output) : Prop :=
  moment o ≤ if by_height currency o then now_height else now.
Global Instance due_dec nh now o : Decision (due nh now o).
Proof. unfold due. apply _. Defined.

Lemma due_split nh now (L : list Output) :
  filter (λ o, moment o ≤ now) (filter (negb ∘ by_height currency) L) ++ filter (λ o, moment o ≤ nh) (filter (by_height currency) L)
  ≡ₚ filter (due nh now) L.
Proof.
  induction L as [|o L IH]; [done|]. destruct (by_height currency o) eqn:Hb.
  - rewrite (filter_out (negb ∘ by_height currency)) by (cbn; by rewrite Hb). rewrite (filter_in (by_height currency)) by done.
    rewrite (filter_cons (λ o, moment o ≤ nh)), (filter_cons (due nh now)).
    assert (due nh now o ↔ moment o ≤ nh) as Hd by (unfold due; by rewrite Hb).
    repeat case_decide; try tauto; by rewrite <- IH, ?Permutation_middle.
  - rewrite (filter_in (negb ∘ by_height currency)) by (cbn; by rewrite Hb). rewrite (filter_out (by_height currency)) by done.
    rewrite (filter_cons (λ o, moment o ≤ now)), (filter_cons (due nh now)).
    assert (due nh now o ↔ moment o ≤ now) as Hd by (unfold due; by rewrite Hb).
    repeat case_decide; try tauto; by rewrite <- IH.
Qed.

Lemma unlock_spec w v nh now w' : shows w v → room 0 v → unlock currency w nh now = Ok w' →
  ∃ l, l ≡ₚ filter (due nh now) (v_locked v) ∧
    shows w' (foldl spec_unlock v l) ∧ (size (foldl spec_unlock v l) ≤ size v)%nat ∧
    v_locked (foldl spec_unlock v l) = filter (λ o, ¬ due nh now o) (v_locked v).
Proof.
  intros Hs Hr Hu. unfold unlock in Hu. inv_ok Hu. pose proof Hs as [[_ _ Hlh Hlt _ _] _ Hok].
  pose proof (co_outputs _ Hok) as Hall. apply Forall_app in Hall as [_ Hall].
  assert (∀ P : Output → bool, Forall (c_ok ser_Output) (filter P (v_locked v))) as Hf.
  { intros P. rewrite Forall_forall in *. intros o [_ Ho]%list_elem_of_filter. by apply Hall. }
  apply (read_unlock_due w ∅ _ height_key (filter (by_height currency) (v_locked v))) in Ha; [|done..].
  apply (read_unlock_due w a _ timestamp_key (filter (negb ∘ by_height currency) (v_locked v))) in Ha0; [|done..].
  rewrite map_to_list_empty, app_nil_r in Ha. rewrite Ha, <- fmap_app, due_split in Ha0.
  set (l := (map_entries a0).*2). assert (l ≡ₚ filter (due nh now) (v_locked v)) as Hl.
  { unfold l. rewrite map_entries_perm, Ha0, <- list_fmap_compose. by rewrite list_fmap_id. }
  rewrite <- (for_each_fmap (λ w o, unlock_output currency w nh o) snd) in Hu. fold l in Hu.
  destruct (unlock_outputs_spec currency l w v nh w' Hs Hr) as (H1 & H2 & _ & _ & H3); [|exact Hu|].
  { intros o x Ho Hx Hk. rewrite Hl in Ho. apply list_elem_of_filter in Ho as [_ Ho]. by eapply locked_inj. }
  exists l. split_and!; [done..|]. rewrite H3. apply filter_agree. intros x Hx. rewrite Hl, list_elem_of_filter. tauto.
Qed.

(** ** [add_incoming_keyimage] *)

Definition image_suffix (o : Output) : Key := write_varint_sqlite4 (o_amount o) ++ write_varint_sqlite4 (o_global_index o).

Lemma parse_image_suffix o : c_ok ser_Output o → parse_locked_ki (image_suffix o) = Ok (o_amount o, o_global_index o).
Proof.
  intros Ho. unfold image_suffix. destruct (output_ranges o Ho) as (_ & Ha & Hg & _). unfold parse_locked_ki. pose proof (in_u_32_64 _ Hg).
  rewrite read_write_varint_sqlite4 by done. cbn [mbind result_bind].
  rewrite <- (app_nil_r (write_varint_sqlite4 (o_global_index o))). rewrite read_write_varint_sqlite4 by done.
  cbn [mbind result_bind]. unfold lexical_cast_u32.
  by replace (o_global_index o <=? UINT32_MAX) with true by (unfold in_u, UINT32_MAX in *; lia).
Qed.

Lemma locked_output_ok w v o : shows w v → o ∈ v_locked v →
  locked_output currency w (o_amount o) (o_global_index o) (unlock_value o) = Ok o.
Proof.
  intros [[_ _ Hh Ht _ _] _ [Hok _ _]] Ho. apply Forall_app in Hok as [_ Hok]. rewrite Forall_forall in Hok. specialize (Hok o Ho).
  unfold locked_output, unlock_value.
  destruct (encoding_ok (c_varint 64) (o_unlock_time o)) as (_ & _ & Hd); [apply output_ranges, Hok|]. rewrite Hd.
  cbn [mbind result_bind]. unfold read. rewrite locked_key_cases.
  destruct (encoding_ok ser_Output o Hok) as (_ & _ & Hdo).
  destruct (by_height currency o) eqn:Hb.
  - rewrite (index_get (chars "lh") height_key enc ltac:(intros x; by eexists) _ _ o Hh); [|apply list_elem_of_filter; by rewrite Hb].
    cbn [mbind result_bind]. by rewrite Hdo.
  - rewrite (index_get (chars "lt") timestamp_key enc ltac:(intros x; by eexists) _ _ o Ht); [|apply list_elem_of_filter; cbn; by rewrite Hb].
    cbn [mbind result_bind]. by rewrite Hdo.
Qed.

(** The entries under a key image, as a walk finds them: [index_entries] for the
    part of the index with that key image. *)
Definition with_image (ki : KeyImage) (v : contents) : list Output :=
  filter (λ o, has_image o = true ∧ o_key_image o = ki) (v_locked v).

Lemma image_index w v ki : shows w v → length ki = 32%nat →
  index (LOCKED_KI_prefix ki) (λ o, LOCKED_KI_prefix ki ++ image_suffix o) unlock_value (m_db w) (with_image ki v).
Proof.
  intros [[_ _ _ _ [Hnd Hi] _] _ [Hok _ _]] Hki. apply Forall_app in Hok as [_ Hok]. rewrite Forall_forall in Hok.
  assert (∀ o, o ∈ with_image ki v → image_key o = LOCKED_KI_prefix ki ++ image_suffix o) as Hkey.
  { intros o [[_ <-] _]%list_elem_of_filter. done. }
  split.
  - rewrite <- (list_fmap_ext image_key).
    2: { intros i o Ho. by apply Hkey, list_elem_of_lookup_2 with i. }
    eapply sublist_NoDup; [exact Hnd|]. apply fmap_sublist.
    assert (with_image ki v = filter (λ o, o_key_image o = ki) (filter has_image (v_locked v))) as ->.
    { unfold with_image. rewrite list_filter_filter. apply list_filter_iff. intros o. destruct (has_image o); naive_solver. }
    apply sublist_filter.
  - intros s x. unfold LOCKED_KI_prefix. rewrite <- app_assoc, Hi. split; intros (o & Ho & Hk & Hv).
    + apply list_elem_of_filter in Ho as [Him Ho]. specialize (Hok o Ho).
      unfold image_key, LOCKED_KI_key, LOCKED_KI_prefix in Hk. rewrite <- app_assoc in Hk. apply app_inv_head in Hk.
      assert (length (o_key_image o) = length ki) as Hlen by (rewrite Hki; apply Hok).
      apply app_inj_1 in Hk as [Heq Hk]; [|done]. exists o. split_and!; [|by rewrite <- Hk, app_assoc|done].
      apply list_elem_of_filter. split; [|done]. destruct (has_image o); [done|by destruct Him].
    + pose proof (Hkey o Ho) as Hko. apply list_elem_of_filter in Ho as [[Him _] Ho]. exists o.
      split_and!; [apply list_elem_of_filter; by rewrite Him| |done].
      rewrite Hko. unfold LOCKED_KI_prefix. by rewrite <- app_assoc in *.
Qed.

(** What [add_incoming_keyimage] gathers. *)
Lemma visit_found w v os found : shows w v → os ⊆ v_locked v →
  visit (λ found e, '(am, gi) ← parse_locked_ki e.1; o ← locked_output currency w am gi e.2; Ok (true, found ++ [o]))
    ((λ o, (image_suffix o, unlock_value o)) <$> os) found = Ok (found ++ os).
Proof.
  intros Hs. pose proof (co_outputs _ (sh_ok _ _ _ Hs)) as Hall. apply Forall_app in Hall as [_ Hall]. rewrite Forall_forall in Hall.
  revert found. induction os as [|o os IH]; intros found Hos; [by rewrite app_nil_r|].
  assert (o ∈ v_locked v) as Ho by (apply Hos; by left).
  rewrite fmap_cons. cbn [visit fst snd]. rewrite parse_image_suffix by auto. cbn [mbind result_bind].
  rewrite (locked_output_ok w v o Hs Ho). cbn [mbind result_bind]. rewrite IH by (intros x Hx; apply Hos; by right).
  by rewrite <- app_assoc.
Qed.

Lemma spend_spec w v ki w' am : shows w v → room 0 v →
  ('(_, e) ← read_existing w ki;
   match e with Some e => w ← remove_from_unspent_index w e; Ok (w, o_amount e) | None => Ok (w, 0) end) = Ok (w', am) →
  shows w' (spec_spend v ki).1 ∧ am = (spec_spend v ki).2.
Proof.
  intros Hs Hr Hp. pose proof Hs as [Hi Hb Hok]. rewrite (read_existing_ok currency w v) in Hp by done. cbn [mbind result_bind] in Hp.
  unfold spec_spend. destruct (existing v ki) as [e|] eqn:He; [|by injection Hp as <- <-].
  inv_ok Hp. injection Hp as <- <-. split; [|done].
  apply existing_some in He as [He _]. pose proof (without_perm e _ (shows_unspent_nodup currency w v Hs) He) as Hperm.
  pose proof (co_outputs _ Hok) as Hall. rewrite Forall_forall in Hall.
  destruct (remove_from_unspent_holds currency w v e (without e (v_unspent v)) a) as [? ?]; [done|apply Hall, elem_of_app; by left|done| |done|].
  - eapply fits_sub; [|by apply (fits_of v 0)]. apply submseteq_app; [apply without_incl|done].
  - split; [done..|]. apply (contents_ok_incl v); [done| |]; [intros x [_ Hx]%elem_of_without; done|].
    intros x Hx. apply elem_of_app. by right.
Qed.

(** [add_incoming_keyimage] unlocks what waits under the key image and spends
    what is then found by it. *)
Lemma add_incoming_keyimage_spec w v h ki w' am : shows w v → room 0 v → length ki = 32%nat →
  add_incoming_keyimage currency w h ki = Ok (w', am) →
  ∃ l, l ≡ₚ with_image ki v ∧ let v1 := foldl spec_unlock v l in
    shows w' (spec_spend v1 ki).1 ∧ am = (spec_spend v1 ki).2 ∧ (size (spec_spend v1 ki).1 ≤ size v)%nat.
Proof.
  intros Hs Hr Hki Hp. unfold add_incoming_keyimage in Hp.
  pose proof (image_index w v ki Hs Hki) as Hidx.
  destruct (for_cursor_ok (m_db w) (LOCKED_KI_prefix ki) []
    (λ found c, '(am, gi) ← parse_locked_ki (suffix c); o ← locked_output currency w am gi (data c); Ok (true, found ++ [o]))
    (λ found e, '(am, gi) ← parse_locked_ki e.1; o ← locked_output currency w am gi e.2; Ok (true, found ++ [o]))) as (es & Hes & Hloop);
    [done|done|].
  rewrite Hloop in Hp.
  destruct (index_entries _ _ _ ltac:(intros o; by eexists) _ _ _ _ image_suffix Hidx ltac:(done) Hes) as (os & -> & Hos & _).
  { intros o Ho. split; [|rewrite app_nil_r; apply lex_ltb_prefix]. unfold stored.
    pose proof (index_get _ _ _ ltac:(intros x; by eexists) _ _ o Hidx Ho) as Hg. unfold get in Hg. rewrite Hg. by eexists. }
  assert (os ⊆ v_locked v) as Hsub.
  { intros o Ho. rewrite Hos in Ho. by apply list_elem_of_filter in Ho as [_ ?]. }
  rewrite (visit_found w v os [] Hs Hsub) in Hp. cbn [mbind result_bind app] in Hp.
  apply bind_Ok_inv in Hp as (w1 & Hu & Hp).
  destruct (unlock_outputs_spec currency os w v h w1 Hs Hr) as (H1 & H2 & _ & _ & _); [|exact Hu|].
  { intros o x Ho Hx Hk. eapply locked_inj; [done|done|by apply Hsub|done]. }
  exists os. split; [done|]. destruct (spend_spec w1 (foldl spec_unlock v os) ki w' am H1 (room_size 0 _ _ H2 Hr) Hp) as [? ?]. split_and!; [done..|].
  unfold size, spec_spend in *. destruct (existing _ _) as [e|]; cbn; [|done].
  rewrite length_app in *. pose proof (length_without e (v_unspent (foldl spec_unlock v os))). lia.
Qed.

End laws.
End WalletUnlock.
