(* ===== verification/WalletOpen.v ===== *)
(** * Opening the wallet's database

    The constructor empties a database written by another version or for
    another wallet, and starts a chain at the genesis block. *)

From S2P Require Import Prelude Varint Containers Words Seria Text CryptoNote Blocks Currency Db Store Headers WalletData Wallet WalletUndo WalletIndex WalletLaws.
Import Containers Codec Varint CryptoNote Currency Db Store Headers WalletData Wallet WalletUndo WalletIndex WalletLaws.

Local Open Scope Z_scope.

Module WalletOpen.

Section laws.
Context {D : Type} `{LmdbLaws D} (currency : Currency).
Abbreviation W := (WalletState D).

(** The loop of erasures takes every key, from the last to the first. *)
Lemma erase_all_ok fuel (d : D) c : cursor_at d c [] false (stored d) →
  (∀ ks, NoDup ks → Forall (stored d) ks → (length ks ≤ fuel)%nat) →
  ∃ d', erase_all fuel d c = Ok d' ∧ mdb_env_get_maxkeysize d' = mdb_env_get_maxkeysize d ∧ ∀ k, ¬ stored d' k.
Proof.
  revert d c. induction fuel as [|fuel IH]; intros d c Hc Hfuel; pose proof Hc as (Hp & Hf & Hx); cbn [erase_all];
    destruct (is_end c) eqn:He; try (exists d; split_and!; [done|done|exact Hx]).
  - destruct Hx as (_ & _ & Hs & _). specialize (Hfuel [suffix c]).
    cbn in Hfuel. assert (1 ≤ 0)%nat; [|lia]. apply Hfuel; [apply NoDup_singleton|by apply Forall_singleton].
  - destruct Hx as (Hpos & Hg & Hs & Hmax). cbn [app] in *. unfold erase. rewrite He, Hpos.
    destruct (del_ok d (suffix c) true) as (d1 & Hd1 & Hm1 & Hg1); [by apply mdb_stored_ok|done|].
    assert (mdb_del d (suffix c) = (d1, MDB_SUCCESS)) as ->.
    { unfold del in Hd1. pose proof (mdb_del_rc d (suffix c) ltac:(by apply key_ok_nonempty with d, mdb_stored_ok)) as Hrc.
      rewrite bool_decide_eq_true_2 in Hrc by done. destruct (mdb_del d (suffix c)) as [d2 r]. cbn in *. subst r.
      by injection Hd1 as ->. }
    rewrite bool_decide_eq_true_2 by done. cbn [mbind result_bind].
    assert (∀ k, stored d1 k ↔ stored d k ∧ lex_ltb k (suffix c) = true) as Hst.
    { intros k. rewrite (written_stored d (suffix c) None d1) by done. split.
      - intros [[_ [? ?]]|[Hne Hk]]; [done|]. split; [done|]. destruct (lex_ltb_total k (suffix c)) as [|[|Hl]]; [done..|].
        by rewrite (Hmax k Hk) in Hl.
      - intros [Hk Hl]. right. split; [|done]. intros ->. by rewrite lex_ltb_irrefl in Hl. }
    destruct (IH d1 (next d1 c)) as (d2 & Hd2 & Hm2 & Hno).
    + pose proof (next_cursor d1 c [] false Hp Hf Hpos) as (N1 & N2 & N3). split_and!; [done..|].
      destruct (is_end (next d1 c)); cbn [app] in *.
      * intros s Hss. apply (N3 s). split; [done|]. by apply Hst in Hss as [_ ?].
      * destruct N3 as (P1 & P2 & [P3 P4] & P5). split_and!; [done..|]. intros s Hss. apply P5. split; [done|]. by apply Hst in Hss as [_ ?].
    + intros ks Hnd Hks. enough (length (suffix c :: ks) ≤ S fuel)%nat by (cbn in *; lia). apply Hfuel.
      * apply NoDup_cons. split; [|done]. intros Hin. rewrite Forall_forall in Hks. apply Hks, Hst in Hin as [_ Hl].
        by rewrite lex_ltb_irrefl in Hl.
      * constructor; [done|]. eapply Forall_impl; [exact Hks|]. by intros k [? _]%Hst.
    + exists d2. split_and!; [done|congruence|done].
Qed.

Lemma rbegin_all (d : D) : cursor_at d (rbegin d [] []) [] false (stored d).
Proof.
  unfold rbegin, make_Cursor. cbn [app]. rewrite bool_decide_eq_true_2 by done.
  apply (check_prefix_cursor d [] false _ _ (stored d)); [apply mdb_last_greatest|done|done|]. intros k s _ _ _. by exists k.
Qed.

Lemma clear_db (d : D) : ∃ d', erase_all (mdb_entries d) d (rbegin d [] []) = Ok d' ∧
  mdb_env_get_maxkeysize d' = mdb_env_get_maxkeysize d ∧ ∀ k, ¬ stored d' k.
Proof. apply erase_all_ok; [apply rbegin_all|]. intros ks. apply mdb_entries_bound. Qed.

(** Keys of the wallet's settings. *)
Definition setting (k : Key) : Prop := k ∈ [chars "$version"; chars "$cache_name"; chars "$genesis_bid"].

Lemma stored_get (d : D) k v : get d k = Some v → stored d k.
Proof. intros Hg. by exists v. Qed.

(** All that a new database holds. *)
Definition settings (cache_name : BinaryArray) : gmap Key BinaryArray :=
  <[chars "$genesis_bid" := Hex.to_hex (genesis_block_hash currency)]>
    (<[chars "$cache_name" := cache_name]> {[chars "$version" := version_current]}).

Lemma settings_setting cache_name k : is_Some (settings cache_name !! k) → setting k.
Proof.
  unfold settings, setting. rewrite !lookup_insert_is_Some, lookup_singleton_is_Some, !elem_of_cons. naive_solver.
Qed.

(** A database of another version, wallet or chain is emptied. *)
Lemma open_other (d : D) cache_name : (64 ≤ mdb_env_get_maxkeysize d)%nat →
  (default [] (get d (chars "$version")) ≠ version_current ∨ default [] (get d (chars "$genesis_bid")) ≠ Hex.to_hex (genesis_block_hash currency) ∨
   default [] (get d (chars "$cache_name")) ≠ cache_name) →
  ∃ d', open_db d (genesis_block_hash currency) cache_name = Ok d' ∧ mdb_env_get_maxkeysize d' = mdb_env_get_maxkeysize d ∧
    (∀ k, get d' k = settings cache_name !! k).
Proof.
  intros Hmax Hdiff. unfold open_db.
  assert (negb (bool_decide (default [] (get d (chars "$version")) = version_current)) ||
     negb (bool_decide (default [] (get d (chars "$genesis_bid")) = Hex.to_hex (genesis_block_hash currency))) ||
     negb (bool_decide (default [] (get d (chars "$cache_name")) = cache_name)) = true) as ->.
  { rewrite !orb_true_iff, !negb_true_iff, !bool_decide_eq_false. tauto. }
  destruct (clear_db d) as (d0 & -> & Hm0 & Hno). cbn [mbind result_bind].
  assert (∀ (d : D) k, (64 ≤ mdb_env_get_maxkeysize d)%nat → setting k → key_ok d k) as Hok.
  { intros d' k Hd' Hk. unfold key_ok. unfold setting in Hk. rewrite !elem_of_cons, elem_of_nil in Hk.
    destruct_or! Hk; subst; cbn; lia. }
  assert (∀ k, get d0 k = None) as Hn0.
  { intros k. destruct (get d0 k) eqn:Hg; [|done]. by apply stored_get, Hno in Hg. }
  destruct (put_ok d0 (chars "$version") version_current true) as (d1 & -> & Hm1 & Hg1).
  { apply Hok; [lia|]. unfold setting. set_solver. }
  { done. }
  cbn [mbind result_bind]. destruct (put_ok d1 (chars "$cache_name") cache_name true) as (d2 & -> & Hm2 & Hg2).
  { apply Hok; [lia|]. unfold setting. set_solver. }
  { intros _. by rewrite Hg1, decide_False. }
  cbn [mbind result_bind]. destruct (put_ok d2 (chars "$genesis_bid") (Hex.to_hex (genesis_block_hash currency)) true) as (d3 & -> & Hm3 & Hg3).
  { apply Hok; [lia|]. unfold setting. set_solver. }
  { intros _. by rewrite Hg2, decide_False, Hg1, decide_False. }
  exists d3. split_and!; [done|lia|]. intros k. unfold settings. rewrite Hg3, Hg2, Hg1, Hn0.
  rewrite !lookup_insert, lookup_singleton. repeat case_decide; congruence.
Qed.

Definition no_contents : contents := {| v_unspent := []; v_locked := []; v_images := ∅ |}.

(** A wallet whose database has none of the indexes. *)
Lemma shows_nothing (w : W) :
  (∀ k, stored (m_db w) k → take 2 k ∉ [chars "ba"; chars "un"; chars "uh"; chars "lh"; chars "lt"; chars "li"; chars "ki"]) →
  shows currency w no_contents.
Proof.
  intros Hno.
  assert (∀ p s, p ∈ [chars "ba"; chars "un"; chars "uh"; chars "lh"; chars "lt"; chars "li"; chars "ki"] →
    get (m_db w) (p ++ s) = None) as Hn.
  { intros p s Hp. destruct (get (m_db w) (p ++ s)) eqn:Hg; [|done]. exfalso. apply (Hno (p ++ s)); [by eapply stored_get|].
    assert (length p = 2%nat) as Hl by (rewrite !elem_of_cons, elem_of_nil in Hp; destruct_or! Hp; by subst).
    rewrite <- Hl, take_app_length. done. }
  assert (∀ p (key : Output → Key) val, p ∈ [chars "ba"; chars "un"; chars "uh"; chars "lh"; chars "lt"; chars "li"; chars "ki"] →
    index p key val (m_db w) []) as Hi.
  { intros p key val Hp. split; [constructor|]. intros k v. rewrite Hn by done. split; [done|]. by intros (o & ?%elem_of_nil & _). }
  split; [split|..]; cbn [v_unspent v_locked v_images no_contents].
  all: try (apply Hi; rewrite !elem_of_cons; auto 9).
  - intros ki. rewrite lookup_empty. apply (Hn (chars "ki")). rewrite !elem_of_cons. auto 9.
  - intros a. exists no_balance. split; [|apply accounts_no_balance]. unfold read_balance, read, BALANCE_key.
    rewrite (Hn (chars "ba")); [done|]. rewrite !elem_of_cons. auto.
  - split; cbn; [constructor|apply map_Forall_empty|by intros o ?%elem_of_nil].
Qed.

(** The database of a wallet that starts at the genesis block. *)
Definition genesis_header : api_BlockHeader :=
  fill_genesis (genesis_block_hash currency) (genesis_block_template currency).
Definition fresh_database (cache_name : BinaryArray) : gmap Key BinaryArray :=
  <[HEADER_key 0 := encoding ser_api_BlockHeader genesis_header]> (settings cache_name).

(** The constructor, on a database of another version, wallet or chain. *)
Lemma make_wallet_other (d : D) cache_name : (64 ≤ mdb_env_get_maxkeysize d)%nat →
  (default [] (get d (chars "$version")) ≠ version_current ∨
   default [] (get d (chars "$genesis_bid")) ≠ Hex.to_hex (genesis_block_hash currency) ∨
   default [] (get d (chars "$cache_name")) ≠ cache_name) →
  c_ok ser_api_BlockHeader genesis_header →
  ∃ w, make_WalletState currency d cache_name = Ok w ∧ shows currency w no_contents ∧ chain_ok w 1 ∧
    m_tip w = genesis_header ∧ m_tip_height w = 0 ∧ ∀ k, get (m_db w) k = fresh_database cache_name !! k.
Proof.
  intros Hmax Hdiff Hhd. destruct (open_other d cache_name Hmax Hdiff) as (d1 & Hd1 & Hm1 & Hget).
  assert (∀ k, stored d1 k → setting k) as Hset.
  { intros k [v Hk]. apply (settings_setting cache_name). fold (get d1 k) in Hk. rewrite <- Hget, Hk. by eexists. }
  unfold make_WalletState. rewrite Hd1. cbn [mbind result_bind].
  assert (is_end (begin d1 (chars "c") []) = true) as He.
  { pose proof (begin_cursor d1 (chars "c") [] ltac:(done)) as (_ & _ & Hc). destruct (is_end _); [done|].
    destruct Hc as (_ & _ & [Hs _] & _). apply Hset in Hs. unfold setting in Hs. rewrite !elem_of_cons, elem_of_nil in Hs.
    destruct_or! Hs; discriminate Hs. }
  rewrite He. cbn [negb andb mbind result_bind]. unfold fix_empty_chain, empty_chain. cbn [m_tip_height m_tail_height].
  change (u32 (UINT32_MAX + 1) =? 0) with true. cbn iota. fold genesis_header. set (gh := genesis_header) in *.
  set (w0 := with_heights _ UINT32_MAX 0).
  assert (∀ k, get d1 k ≠ None → setting k) as Hset'.
  { intros k Hk. destruct (get d1 k) eqn:Hg; [|done]. by eapply Hset, stored_get. }
  assert (get d1 (HEADER_key 0) = None) as Hn.
  { destruct (get d1 (HEADER_key 0)) eqn:Hg; [|done]. assert (setting (HEADER_key 0)) as Hs by (apply Hset'; by rewrite Hg).
    unfold setting in Hs. rewrite !elem_of_cons, elem_of_nil in Hs. destruct_or! Hs; discriminate Hs. }
  destruct (encoding_ok ser_api_BlockHeader gh Hhd) as (Hen & _ & _).
  destruct (put_ok d1 (HEADER_key 0) (encoding ser_api_BlockHeader gh) true) as (d2 & Hd2 & Hm2 & Hg2).
  { unfold key_ok. cbn. lia. }
  { done. }
  assert (push_chain w0 gh = Ok (with_undo (with_tip (with_db (with_heights w0 0 0) d2) gh) ∅)) as Hpush.
  { unfold push_chain. rewrite Hen. cbn [mbind result_bind].
    change (put _ _ _ true) with (put d1 (HEADER_key 0) (encoding ser_api_BlockHeader gh) true). rewrite Hd2. done. }
  rewrite Hpush. eexists. split; [done|]. split; [|split; [|split; [done|split; [done|]]]].
  - apply shows_nothing. cbn. intros k [v Hk]. fold (get d2 k) in Hk. rewrite Hg2 in Hk.
    destruct (decide (k = HEADER_key 0)) as [->|Hne]; [by apply (bool_decide_unpack _)|].
    apply stored_get, Hset in Hk. unfold setting in Hk. rewrite (elem_of_cons _ k), (elem_of_cons _ k), (elem_of_cons _ k), elem_of_nil in Hk.
    destruct_or! Hk; subst; by apply (bool_decide_unpack _).
  - split; cbn; [lia|done| |done|].
    + unfold read_tip, empty_chain. cbn. unfold expect_chain, read_chain, read. cbn [m_db]. rewrite Hg2, decide_True by done.
      destruct (encoding_ok ser_api_BlockHeader gh Hhd) as (_ & _ & ->). done.
    + intros m _ _. rewrite Hg2, decide_False by done. destruct (get d1 (STATE_key (0 + m))) eqn:Hg; [|done].
      assert (setting (STATE_key (0 + m))) as Hs by (apply Hset'; by rewrite Hg).
      unfold setting in Hs. rewrite !elem_of_cons, elem_of_nil in Hs. destruct_or! Hs; discriminate Hs.
  - intros k. cbn [m_db with_undo with_tip with_db]. rewrite Hg2, Hget. unfold fresh_database. destruct (decide (k = HEADER_key 0)) as [->|Hne].
    + by rewrite lookup_insert_eq.
    + by rewrite lookup_insert_ne.
Qed.

End laws.
End WalletOpen.
