(* ===== verification/WalletTheorems.v ===== *)
(** * What the wallet's state guarantees

    The theorems about WalletStateBasic.cpp, each with a wallet for which it
    speaks. *)

From S2P Require Import Prelude Varint Containers Words Seria SeriaMap Text CryptoNote Blocks Currency Db Store Headers WalletData Wallet WalletUndo WalletIndex WalletLaws WalletSpec WalletUnlock WalletOpen.
Import Containers Codec Varint SeriaMap CryptoNote Currency Db Store Headers WalletData Wallet WalletUndo WalletIndex WalletLaws WalletSpec WalletUnlock WalletOpen.

Local Open Scope Z_scope.

Module WalletTheorems.

Section laws.
Context {D : Type} `{LmdbLaws D} (currency : Currency).
Abbreviation W := (WalletState D).
Abbreviation shows := (shows currency).

Lemma add_transaction_holds w v h tid tx ptx w' first : holds currency w v →
  add_transaction w h tid tx ptx = Ok (w', first) → holds currency w' v.
Proof.
  intros Hh Ha. unfold add_transaction in Ha. inv_ok Ha. injection Ha as <- _.
  assert (holds currency a0 v) as H0'.
  { eapply put_other_holds; [exact Hh|exact Ha1|]. change (take 2 _) with (chars "tx"). by apply (bool_decide_unpack _). }
  clear - H0' Ha2 H0. revert a0 H0' Ha2. induction (set_items (transfer_addresses ptx)) as [|x l IH]; intros w Hh Hl.
  - by injection Hl as <-.
  - cbn [for_each] in Hl. inv_ok Hl. eapply IH; [|exact Hl].
    eapply put_other_holds; [exact Hh|exact Ha|]. change (take 2 _) with (chars "th"). by apply (bool_decide_unpack _).
Qed.

Lemma wallet_step_shows w v w' n : shows w v → room (n + 1) v → 0 ≤ n → wallet_step currency w w' → ∃ v', shows w' v' ∧ room n v'.
Proof.
  intros Hs Hr Hn Hstep. assert (room 0 v) as Hr0 by (unfold room in *; lia).
  destruct Hstep as [o am Ho Ha|h ki am Hki Ha|h tid tx ptx first Ha|h t Ha].
  - apply (add_output_spec currency w v o false w' am Hs Ho) in Ha as [Hs' _]; [|unfold room in *; lia].
    eexists. split; [exact Hs'|]. pose proof (spec_add_length v o false). unfold room, size in *. lia.
  - destruct (add_incoming_keyimage_spec currency w v h ki w' am Hs Hr0 Hki Ha) as (l & _ & Hs' & _ & Hr').
    eexists. split; [exact Hs'|]. unfold room, size in *. lia.
  - destruct Hs as [Hi Hb Hok]. destruct (add_transaction_holds w v h tid tx ptx w' first (conj Hi Hb) Ha) as [? ?].
    exists v. split; [by split|]. unfold room in *. lia.
  - destruct (unlock_spec currency w v h t w' Hs Hr0 Ha) as (l & _ & Hs' & Hr' & _).
    eexists. split; [exact Hs'|]. unfold room, size in *. lia.
Qed.

Lemma image_once w v x y : shows w v → x ∈ v_unspent v → y ∈ v_unspent v → o_key_image x ≠ no_keyimage →
  o_key_image x = o_key_image y → x = y.
Proof.
  intros Hs Hx Hy Hne Heq. apply (place_inj currency w v); [done..|].
  pose proof (co_fresh _ (sh_ok _ _ _ Hs)) as Hf.
  pose proof (Hf x Hx) as Fx. pose proof (Hf y Hy) as Fy. unfold has_image in *. rewrite <- Heq in Fy.
  rewrite bool_decide_eq_false_2 in Fx, Fy by done. specialize (Fx eq_refl). specialize (Fy eq_refl). congruence.
Qed.

(** C7: The wallet's balances are those of its outputs: from a wallet whose
    database shows the contents [v], whatever outputs, key images and
    transactions come in and whatever is unlocked, the database shows contents
    under all its indexes again, the balance stored for every address is the
    exact sum over the outputs it owns, spendable, dust and locked, in amounts
    and in number, and no two unspent outputs have one key image. *)
Theorem wallet_accounts v w w' n :
  shows w v → room (Z.of_nat n) v → nsteps (wallet_step currency) n w w' →
  ∃ v', shows w' v' ∧
    (∀ a, ∃ b, read_balance w' a = Ok b ∧ accounts a (v_unspent v') (v_locked v') b) ∧
    (∀ x y, x ∈ v_unspent v' → y ∈ v_unspent v' → o_key_image x ≠ no_keyimage → o_key_image x = o_key_image y → x = y).
Proof.
  intros Hs Hr Hn. assert (∃ v', shows w' v') as [v' Hs'].
  { revert v Hs Hr. induction Hn as [w|n w w1 w' Hstep Hn IH]; intros v Hs Hr; [by exists v|].
    destruct (wallet_step_shows w v w1 (Z.of_nat n) Hs) as (v1 & Hs1 & Hr1); [unfold room in *; lia|lia|done|].
    by apply (IH v1). }
  exists v'. split_and!; [done|apply Hs'|]. intros x y. by apply (image_once w').
Qed.

(** C8: Blocks can be taken back: after any number of blocks, each with
    whatever the handlers did for it, as many [pop_chain]s succeed and return
    the wallet to what it was: heights, tip, and every key of the database. *)
Theorem blocks_popped m w n wm :
  chain_ok w n → m_tail_height w + n + Z.of_nat m < 2 ^ 32 → synced_blocks currency m w wm →
  ∃ w', pop_blocks m wm = Ok w' ∧ same w w'.
Proof. intros Hok Hn Hs. by eapply (pop_synced_blocks currency). Qed.

(** C40: A database of another version, wallet or chain is emptied, whatever it
    holds: the constructor's loop of erasures comes to its end, and what the
    database then holds is, key by key, the three settings and the header of
    the genesis block; the wallet starts at that block with no outputs, key
    images or balances. *)
Theorem wallet_cache_cleared (d : D) cache_name :
  (64 ≤ mdb_env_get_maxkeysize d)%nat →
  default [] (get d (chars "$version")) ≠ version_current ∨
  default [] (get d (chars "$genesis_bid")) ≠ Hex.to_hex (genesis_block_hash currency) ∨
  default [] (get d (chars "$cache_name")) ≠ cache_name →
  c_ok ser_api_BlockHeader (genesis_header currency) →
  ∃ w, make_WalletState currency d cache_name = Ok w ∧ shows w no_contents ∧ chain_ok w 1 ∧
    m_tip w = genesis_header currency ∧ m_tip_height w = 0 ∧
    ∀ k, get (m_db w) k = fresh_database currency cache_name !! k.
Proof. apply make_wallet_other. Qed.

End laws.

(** ** A wallet *)


Lemma sample_header_ok : c_ok ser_api_BlockHeader (genesis_header mainnet).
Proof. repeat split; done || by apply (bool_decide_unpack _). Qed.

(** An old database, with an index entry no wallet of this version wrote. *)
Definition old_db : memory_db :=
  ltac:(refine (memory_put (memory_put (exist _ ∅ _) (chars "$version") (chars "2") _) (chars "un1") [7] _);
        [apply map_Forall_empty|reflexivity..]).

Lemma wallet_cache_cleared_witness :
  is_Some (get old_db (chars "un1")) ∧
  ∃ w, make_WalletState mainnet old_db (chars "w") = Ok w ∧ shows mainnet w no_contents ∧ chain_ok w 1 ∧
    m_tip w = genesis_header mainnet ∧ m_tip_height w = 0 ∧
    ∀ k, get (m_db w) k = fresh_database mainnet (chars "w") !! k.
Proof.
  split; [by eexists|]. apply (wallet_cache_cleared mainnet old_db (chars "w")).
  - vm_compute. lia.
  - left. by apply (bool_decide_unpack _); vm_compute.
  - apply sample_header_ok.
Defined.

Definition no_wallet : WalletState memory_db :=
  {| m_db := old_db; m_tip_height := 0; m_tail_height := 0; m_tip := no_header; current_undo_map := ∅ |}.
Definition run {A} (r : result A) (d : A) : A := match r with Ok a => a | _ => d end.
Lemma run_ok {A} (r : result A) d : (match r with Ok _ => true | _ => false end) = true → r = Ok (run r d).
Proof. by destruct r. Qed.

(** A fresh wallet receives an output, sees it replaced by a larger one with the
    same key image, unlocks nothing, and spends it. *)
Definition sample_output (am gi : Z) : Output :=
  {| o_amount := am; o_public_key := replicate 32 1; o_global_index := gi; o_unlock_time := 0;
     o_index_in_transaction := 0; o_height := 1; o_key_image := replicate 32 9;
     o_transaction_public_key := replicate 32 2; o_address := chars "cn1"; o_dust := false |}.
Lemma sample_output_ok am gi : in_u 64 am → in_u 32 gi → c_ok ser_Output (sample_output am gi).
Proof.
  intros Ha Hg. unfold ser_Output. cbn -[Z.pow replicate]. unfold in_u in *.
  split_and!; try done; try lia; apply (bool_decide_unpack _); vm_compute; exact I.
Qed.

Definition wallet_0 : WalletState memory_db := run (make_WalletState mainnet old_db (chars "w")) no_wallet.
Definition wallet_1 : WalletState memory_db * Amount := run (add_incoming_output mainnet wallet_0 (sample_output 500 3)) (wallet_0, 0).
Definition wallet_2 : WalletState memory_db * Amount := run (add_incoming_output mainnet wallet_1.1 (sample_output 700 4)) (wallet_0, 0).

Lemma wallet_0_ok : shows mainnet wallet_0 no_contents ∧ chain_ok wallet_0 1.
Proof.
  destruct (make_wallet_other mainnet old_db (chars "w")) as (w & Hw & H1 & H2 & _).
  - vm_compute. lia.
  - left. by apply (bool_decide_unpack _); vm_compute.
  - apply sample_header_ok.
  - unfold wallet_0. rewrite Hw. exact (conj H1 H2).
Qed.

Lemma step_1 : wallet_step mainnet wallet_0 wallet_1.1.
Proof.
  eapply (step_output mainnet _ _ (sample_output 500 3) wallet_1.2); [by apply sample_output_ok|].
  rewrite <- surjective_pairing. apply run_ok. vm_compute. reflexivity.
Qed.
Lemma step_2 : wallet_step mainnet wallet_1.1 wallet_2.1.
Proof.
  eapply (step_output mainnet _ _ (sample_output 700 4) wallet_2.2); [by apply sample_output_ok|].
  rewrite <- surjective_pairing. apply run_ok. vm_compute. reflexivity.
Qed.

Lemma wallet_accounts_witness :
  (∃ v', shows mainnet wallet_2.1 v' ∧
    (∀ a, ∃ b, read_balance wallet_2.1 a = Ok b ∧ accounts a (v_unspent v') (v_locked v') b) ∧
    (∀ x y, x ∈ v_unspent v' → y ∈ v_unspent v' → o_key_image x ≠ no_keyimage → o_key_image x = o_key_image y → x = y)) ∧
  wallet_2.2 = 200 ∧
  read_balance wallet_2.1 (chars "cn1") = Ok {| spendable := u128 700; spendable_dust := u128 0; locked_or_unconfirmed := u128 0;
    spendable_outputs := 1; spendable_dust_outputs := 0; locked_or_unconfirmed_outputs := 0 |}.
Proof.
  split; [|split].
  - apply (wallet_accounts mainnet no_contents wallet_0 wallet_2.1 2).
    + apply wallet_0_ok.
    + vm_compute. reflexivity.
    + eapply nsteps_l; [apply step_1|]. eapply nsteps_l; [apply step_2|]. apply nsteps_O.
  - vm_compute. reflexivity.
  - vm_compute. reflexivity.
Defined.

Definition wallet_3 : WalletState memory_db := run (push_chain wallet_2.1 (genesis_header mainnet)) no_wallet.

Lemma wallet_2_undo_ok : c_ok ser_UndoMap (current_undo_map wallet_2.1).
Proof. split; [vm_compute; done|]. apply (bool_decide_unpack _). vm_compute. exact I. Qed.

Lemma blocks_popped_witness : ∃ w', pop_blocks 1 wallet_3 = Ok w' ∧ same wallet_0 w'.
Proof.
  apply (blocks_popped mainnet 1 wallet_0 1 wallet_3).
  - apply wallet_0_ok.
  - vm_compute. reflexivity.
  - eapply synced_more; [|apply synced_none].
    apply (synced_block mainnet wallet_0 wallet_3 wallet_2.1 (genesis_header mainnet)).
    + eapply rtc_l; [apply step_1|]. eapply rtc_l; [apply step_2|]. apply rtc_refl.
    + apply sample_header_ok.
    + apply wallet_2_undo_ok.
    + apply run_ok. vm_compute. reflexivity.
Defined.

End WalletTheorems.
