(* ===== verification/Selector.v ===== *)
(** * Coin selection (src/src/Core/TransactionBuilder.cpp: [UnspentSelector])

    Which unspent outputs pay for a transaction: spare coins that round the
    sum up digit by digit, stacks of equal coins that are worth combining, a
    single coin that is large enough, or the largest coins until the sum is
    reached; and the loop that raises the fee until it covers the size of the
    transaction with these coins.

    The pointers [have_coins] and [dust_coins] the functions share are fields
    of [State] here, next to the members of the selector. *)

From S2P Require Import Prelude Containers CryptoNote Amounts Currency WalletData.
Import Containers CryptoNote Amounts Currency WalletData.

Local Open Scope Z_scope.

Module Selector.

(** Coins by the number of digits after the first, and by the first. *)
Abbreviation HaveCoins := (gmap Z (gmap Z (list Output))).
Abbreviation DustCoins := (gmap Z (list Output)).

Record State := {
  unspents : list Output;
  used_unspents : list Output;
  optimization_unspents : list Output;
  used_total : Amount;
  inputs_count : Z;
  ra_amounts : list Amount;
  have_coins : HaveCoins;
  dust_coins : DustCoins;
}.

(** [UnspentSelector(logger, currency, unspents)] and [reset]. *)
Definition reset (us : list Output) : State :=
  {| unspents := us; used_unspents := []; optimization_unspents := []; used_total := 0;
     inputs_count := 0; ra_amounts := []; have_coins := ∅; dust_coins := ∅ |}.

Definition set_coins (s : State) (have : HaveCoins) (dust : DustCoins) : State :=
  {| unspents := unspents s; used_unspents := used_unspents s;
     optimization_unspents := optimization_unspents s; used_total := used_total s;
     inputs_count := inputs_count s; ra_amounts := ra_amounts s;
     have_coins := have; dust_coins := dust |}.

(** [m_optimization_unspents.push_back(un); m_used_total += un.amount; m_inputs_count += 1]. *)
Definition take (s : State) (un : Output) : State :=
  {| unspents := unspents s; used_unspents := used_unspents s;
     optimization_unspents := optimization_unspents s ++ [un];
     used_total := u64 (used_total s + o_amount un); inputs_count := u64 (inputs_count s + 1);
     ra_amounts := ra_amounts s; have_coins := have_coins s; dust_coins := dust_coins s |}.

(** ** Stacks of coins *)

(** [back()] and [pop_back()]. *)
Definition pop_back {A} (l : list A) : result (A * list A) :=
  match last l with
  | Some x => Ok (x, removelast l)
  | None => Undefined "back() of an empty vector"
  end.

Definition store_stack (m : DustCoins) (k : Z) (uns : list Output) : DustCoins :=
  match uns with [] => delete k m | _ => <[k := uns]> m end.

(** The topmost coin of a stack is taken; a stack that becomes empty is
    erased, and with the last stack of a row the row. *)
Definition take_have (s : State) (digit am : Z) : result State :=
  row ← of_option (have_coins s !! digit) (Undefined "iterator of an erased row");
  uns ← of_option (row !! am) (Undefined "back() of an empty vector");
  '(un, uns) ← pop_back uns;
  let row := store_stack row am uns in
  mret (take (set_coins s (if decide (row = ∅) then delete digit (have_coins s)
                           else <[digit := row]> (have_coins s)) (dust_coins s)) un).

Definition take_dust (s : State) (am : Z) : result State :=
  uns ← of_option (dust_coins s !! am) (Undefined "end() dereferenced");
  '(un, uns) ← pop_back uns;
  mret (take (set_coins s (have_coins s) (store_stack (dust_coins s) am uns)) un).

(** [push_back] through [operator[]]. *)
Definition push_stack (m : DustCoins) (k : Z) (un : Output) : DustCoins :=
  <[k := default [] (m !! k) ++ [un]]> m.

(** [while (am > 9) { digit += 1; am /= 10; }]: nineteen rounds at most. *)
Fixpoint leading_digit (fuel : nat) (digit am : Z) : Z * Z :=
  match fuel with
  | O => (digit, am)
  | S fuel => if 9 <? am then leading_digit fuel (digit + 1) (am / 10) else (digit, am)
  end.
Definition digit_of (amount : Amount) : Z * Z := leading_digit 20 0 amount.

Definition push_have (m : HaveCoins) (un : Output) : HaveCoins :=
  let '(digit, am) := digit_of (o_amount un) in
  <[digit := push_stack (default ∅ (m !! digit)) am un]> m.

(** ** Spendable coins *)

Section selector.
Context (currency : Currency).

(** The unspent outputs a transaction may use now: mined before
    [confirmed_height], with a lock that has run out. *)
Definition usable (block_height : Height) (block_time : Timestamp) (confirmed_height : Height)
    (un : Output) : bool :=
  (o_height un <? confirmed_height) &&
  is_transaction_spend_time_unlocked currency (o_unlock_time un) block_height block_time.

Definition create_have_coins (block_height : Height) (block_time : Timestamp)
    (confirmed_height : Height) (s : State) : State * Z :=
  foldl (λ '(s, max_digit) un,
    if negb (usable block_height block_time confirmed_height un) then (s, max_digit)
    else if negb (is_dust (o_amount un))
    then (set_coins s (push_have (have_coins s) un) (dust_coins s),
          max_digit `max` (digit_of (o_amount un)).1)
    else (set_coins s (have_coins s) (push_stack (dust_coins s) (o_amount un) un), max_digit))
    (s, 0) (rev (unspents s)).

Definition combine_optimized_unspents (s : State) : State :=
  {| unspents := unspents s; used_unspents := used_unspents s ++ optimization_unspents s;
     optimization_unspents := []; used_total := used_total s; inputs_count := inputs_count s;
     ra_amounts := ra_amounts s ++ (o_amount <$> optimization_unspents s);
     have_coins := have_coins s; dust_coins := dust_coins s |}.

(** A coin goes back to the stacks. *)
Definition untake (s : State) (un : Output) : State :=
  {| unspents := unspents s; used_unspents := used_unspents s;
     optimization_unspents := optimization_unspents s;
     used_total := u64 (used_total s - o_amount un); inputs_count := u64 (inputs_count s - 1);
     ra_amounts := ra_amounts s;
     have_coins := if o_dust un then have_coins s else push_have (have_coins s) un;
     dust_coins := if o_dust un then push_stack (dust_coins s) (o_amount un) un else dust_coins s |}.

Definition clear_optimization (s : State) : State :=
  {| unspents := unspents s; used_unspents := used_unspents s; optimization_unspents := [];
     used_total := used_total s; inputs_count := inputs_count s; ra_amounts := ra_amounts s;
     have_coins := have_coins s; dust_coins := dust_coins s |}.

Definition unoptimize_amounts (s : State) : State :=
  clear_optimization (foldl untake s (optimization_unspents s)).

(** ** Rounding up digit by digit *)

Definition fake_large : Amount := 1000000000000000000.
Definition OPTIMIZATIONS_PER_TX : Z := 50.
Definition OPTIMIZATIONS_PER_TX_AGGRESSIVE : Z := 200.
Definition MEDIAN_PERCENT : Z := 12.
Definition MEDIAN_PERCENT_AGGRESSIVE : Z := 30.
Definition STACK_OPTIMIZATION_THRESHOLD : Z := 20.
Definition TWO_THRESHOLD : Z := 10.

Definition size {A} (l : list A) : Z := Z.of_nat (length l).

(** The pair of stacks of one row that rounds the digit and has most coins. *)
Definition best_pair (row : DustCoins) (am : Z) : Z * (Z * Z) :=
  foldl (λ best ait, foldl (λ '(best_weight, counts) bit,
    if ((ait.1 + bit.1 + am) mod 10 =? 0) &&
       ((TWO_THRESHOLD <=? size ait.2) || (TWO_THRESHOLD <=? size bit.2)) &&
       (best_weight <? size ait.2 + size bit.2)
    then (size ait.2 + size bit.2, (ait.1, bit.1)) else (best_weight, counts))
    best (map_entries row)) (0, (0, 0)) (map_entries row).

(** The single stack: the one that rounds exactly, else the fullest above. *)
Fixpoint best_single (entries : list (Z * list Output)) (am best_weight best : Z) : Z :=
  match entries with
  | [] => best
  | ait :: entries =>
    if (ait.1 + am) mod 10 =? 0 then ait.1
    else if (u64 (10 - am) <? ait.1) && (best_weight <? size ait.2)
    then best_single entries am (size ait.2) ait.1
    else best_single entries am best_weight best
  end.

(** One digit; [None] where the loop is left. *)
Definition optimize_digit (digit digit_amount : Z) (total_amount : Amount) (s : State) :
    result (option State) :=
  if (total_amount <=? used_total s) && (used_total s <? digit_amount) then mret None else
  _ ← (if digit_amount =? 0 then Undefined "division by zero" else mret ());
  let am := 10 - (u64 (fake_large + total_amount + digit_amount - 1 - used_total s) / digit_amount) mod 10 in
  match have_coins s !! digit with
  | None => mret (Some s)
  | Some row =>
    let '(best_weight, (a, b)) := best_pair row am in
    if negb (best_weight =? 0) then
      s ← take_have s digit a; s ← take_have s digit b; mret (Some s)
    else if am =? 10 then mret (Some s)
    else let single := best_single (map_entries row) am 0 0 in
      if negb (single =? 0) then s ← take_have s digit single; mret (Some s)
      else mret (Some s)
  end.

Fixpoint optimize_digits (digits : nat) (digit digit_amount : Z) (total_amount : Amount) (s : State) :
    result State :=
  match digits with
  | O => mret s
  | S digits =>
    r ← optimize_digit digit digit_amount total_amount s;
    match r with
    | None => mret s
    | Some s => optimize_digits digits (digit + 1) (u64 (digit_amount * 10)) total_amount s
    end
  end.

Definition optimize_amounts (max_digit : Z) (total_amount : Amount) (s : State) : result State :=
  optimize_digits (Z.to_nat (max_digit + 1)) 0 1 total_amount s.

(** ** The selection for a fixed sum *)

(** [--dust_coins->end()]. *)
Definition last_dust (s : State) : option (Z * list Output) := last (map_entries (dust_coins s)).

(** Without mixing, dust: one coin that is enough, else the largest ones as
    many as may be combined. *)
Definition single_dust (total_amount : Amount) (s : State) : result State :=
  if used_total s <? total_amount then
    match List.find (λ e, total_amount - used_total s <=? e.1) (map_entries (dust_coins s)) with
    | Some (am, _) => take_dust s am
    | None => mret s
    end
  else mret s.

Fixpoint dust_loop (fuel : nat) (total_amount : Amount) (s : State) (optimization_count : Z) :
    result (State * Z) :=
  match fuel with
  | O => Undefined "out of fuel"
  | S fuel =>
    match last_dust s with
    | Some (am, _) =>
      if (used_total s <? total_amount) && (1 <=? optimization_count) then
        s ← take_dust s am; dust_loop fuel total_amount s (optimization_count - 1)
      else mret (s, optimization_count)
    | None => mret (s, optimization_count)
    end
  end.

(** The fullest stack of more than [STACK_OPTIMIZATION_THRESHOLD] coins. *)
Definition best_stack (have : HaveCoins) : option (Z * Z) :=
  (foldl (λ best hit, foldl (λ '(best_weight, stack) ait,
     if best_weight <? size ait.2 then (size ait.2, Some (hit.1, ait.1)) else (best_weight, stack))
     best (map_entries hit.2)) (STACK_OPTIMIZATION_THRESHOLD, None) (map_entries have)).2.

(** Ten coins from one stack; the stack stays where it is. *)
Fixpoint take_ten (n : nat) (digit am : Z) (s : State) : result State :=
  match n with
  | O => mret s
  | S n =>
    row ← of_option (have_coins s !! digit) (Undefined "dangling stack");
    uns ← of_option (row !! am) (Undefined "dangling stack");
    '(un, uns) ← pop_back uns;
    take_ten n digit am
      (take (set_coins s (<[digit := <[am := uns]> row]> (have_coins s)) (dust_coins s)) un)
  end.

Fixpoint stack_loop (fuel : nat) (s : State) (optimization_count : Z) : result State :=
  match fuel with
  | O => Undefined "out of fuel"
  | S fuel =>
    if 10 <=? optimization_count then
      match best_stack (have_coins s) with
      | None => mret s
      | Some (digit, am) =>
        s ← take_ten 10 digit am s; stack_loop fuel s (optimization_count - 10)
      end
    else mret s
  end.

(** The smallest coin that is enough. *)
Fixpoint single_coin (digits : nat) (digit digit_amount : Z) (total_amount : Amount) (s : State) :
    result State :=
  match digits with
  | O => mret s
  | S digits =>
    let next := single_coin digits (digit + 1) (u64 (digit_amount * 10)) total_amount s in
    match have_coins s !! digit with
    | None => next
    | Some row =>
      match List.find (λ e, negb (size e.2 =? 0) &&
                            (u64 (total_amount - used_total s) <=? u64 (e.1 * digit_amount)))
              (map_entries row) with
      | Some (am, _) => take_have s digit am
      | None => next
      end
    end
  end.

(** The largest coins, round ones and (without mixing) dust, until the sum is
    reached; [false] when there are none left. *)
Definition last_have (s : State) : result (option (Z * Z * Output)) :=
  match last (map_entries (have_coins s)) with
  | None => mret None
  | Some (digit, row) =>
    match last (map_entries row) with
    | None => Undefined "--end() of an empty map"
    | Some (am, uns) => '(un, _) ← pop_back uns; mret (Some (digit, am, un))
    end
  end.

Definition fill_once (anonymity : Z) (s : State) : result State :=
  ha ← last_have s;
  du ← (if anonymity =? 0 then
          match last_dust s with
          | Some (am, uns) => '(un, _) ← pop_back uns; mret (o_amount un)
          | None => mret 0
          end
        else mret 0);
  match ha with
  | Some (digit, am, un) =>
    if du <? o_amount un then take_have s digit am
    else match last_dust s with
         | Some (am, _) => take_dust s am
         | None => Undefined "--end() of an empty map"
         end
  | None =>
    match last_dust s with
    | Some (am, _) => take_dust s am
    | None => Undefined "--end() of an empty map"
    end
  end.

Fixpoint fill (fuel : nat) (anonymity : Z) (total_amount : Amount) (s : State) : result (State * bool) :=
  match fuel with
  | O => Undefined "out of fuel"
  | S fuel =>
    if used_total s <? total_amount then
      if bool_decide (have_coins s = ∅) &&
         (negb (anonymity =? 0) || bool_decide (dust_coins s = ∅))
      then mret (s, false)
      else s ← fill_once anonymity s; fill fuel anonymity total_amount s
    else mret (s, true)
  end.

(** The private [select_optimal_outputs]. *)
Definition select_for_total (max_digit : Z) (total_amount : Amount) (anonymity : Z)
    (optimization_count : Z) (s : State) : result (State * bool) :=
  '(s, optimization_count) ←
    (if anonymity =? 0 then
       s ← single_dust total_amount s;
       dust_loop (S (Z.to_nat optimization_count)) total_amount s optimization_count
     else mret (s, optimization_count));
  s ← stack_loop (S (Z.to_nat optimization_count)) s optimization_count;
  s ← optimize_amounts max_digit total_amount s;
  if total_amount <=? used_total s then mret (s, true) else
  s ← single_coin (Z.to_nat (max_digit + 1)) 0 1 total_amount s;
  if total_amount <=? used_total s then mret (s, true) else
  let s := unoptimize_amounts s in
  '(s, found) ← fill (S (length (unspents s))) anonymity total_amount s;
  if found : bool then s ← optimize_amounts max_digit total_amount s; mret (s, true)
  else mret (s, false).

(** ** The fee *)

(** What the public function returns: the error message, and [*change] where
    it is set. *)
Inductive answer :=
| Selected (change : Amount)
| Failed (message : string).

Fixpoint select_loop (fuel : nat) (max_digit effective_median_size optimization_median : Z)
    (anonymity : Z) (total_amount : Amount) (total_outputs : Z) (fee_per_byte : Amount)
    (fee optimizations : Z) (s : State) : result (State * answer) :=
  match fuel with
  | O => Undefined "out of fuel"
  | S fuel =>
    '(s, found) ← select_for_total max_digit (u64 (total_amount + fee)) anonymity optimizations s;
    if negb (found : bool) then mret (s, Failed "NOT_ENOUGH_FUNDS") else
    _ ← (if default_dust_threshold currency =? 0 then Undefined "division by zero" else mret ());
    let change_dust_fee := u64 (used_total s - total_amount - fee) mod default_dust_threshold currency in
    let tx_size := get_maximum_tx_size (inputs_count s) (u64 (total_outputs + 8)) anonymity in
    if (optimization_median <? tx_size) && (0 <? optimizations) then
      let optimizations := optimizations / 2 in
      select_loop fuel max_digit effective_median_size optimization_median anonymity total_amount
        total_outputs fee_per_byte fee (if optimizations <? 10 then 0 else optimizations)
        (unoptimize_amounts s)
    else if effective_median_size <? tx_size
    then mret (s, Failed "TRANSACTION_DOES_NOT_FIT_IN_BLOCK") else
    let size_fee := u64 (fee_per_byte * tx_size) in
    if size_fee <=? u64 (fee + change_dust_fee) then
      mret (combine_optimized_unspents s,
            Selected (u64 (used_total s - total_amount - fee - change_dust_fee)))
    else
      let fee := u64 (u64 (size_fee - change_dust_fee + default_dust_threshold currency - 1)
                      / default_dust_threshold currency * default_dust_threshold currency) in
      select_loop fuel max_digit effective_median_size optimization_median anonymity total_amount
        total_outputs fee_per_byte fee optimizations (unoptimize_amounts s)
  end.

Definition select_optimal_outputs (fuel : nat) (block_height : Height) (block_time : Timestamp)
    (confirmed_height : Height) (effective_median_size anonymity : Z) (total_amount : Amount)
    (total_outputs : Z) (fee_per_byte : Amount) (optimization_level : string) (s : State) :
    result (State * answer) :=
  let effective_median_size := u64 (120 * effective_median_size) / 100 in
  let '(s, max_digit) :=
    create_have_coins block_height block_time confirmed_height (set_coins s ∅ ∅) in
  let optimizations :=
    if String.eqb optimization_level "aggressive" then OPTIMIZATIONS_PER_TX_AGGRESSIVE
    else if String.eqb optimization_level "minimal" then 9 else OPTIMIZATIONS_PER_TX in
  let median_percent :=
    if String.eqb optimization_level "aggressive" then MEDIAN_PERCENT_AGGRESSIVE else MEDIAN_PERCENT in
  let optimization_median := u64 (effective_median_size * median_percent) / 100 in
  select_loop fuel max_digit effective_median_size optimization_median anonymity total_amount
    total_outputs fee_per_byte (minimum_fee currency) optimizations s.

End selector.
End Selector.
