(* ===== verification/SelectorLaws.v ===== *)
(** * Coin selection: theorems

    Whatever the selector takes and gives back, it neither loses nor doubles a
    coin; the loops end, and what it selects pays for the transaction. *)

From S2P Require Import Prelude Containers CryptoNote Amounts Currency WalletData Selector.
Import Containers CryptoNote Amounts Currency WalletData Selector.

Local Open Scope Z_scope.

Module SelectorLaws.

(** ** What the maps hold *)

Section items.
Context {V A : Type}.
Implicit Types (f : V → list A) (m : gmap Z V).

Definition items f m : list A := concat (f <$> (map_to_list m).*2).

Lemma items_empty f : items f ∅ = [].
Proof. unfold items. by rewrite map_to_list_empty. Qed.

Lemma items_insert f m k v : items f (<[k := v]> m) ≡ₚ f v ++ items f (delete k m).
Proof.
  unfold items. rewrite <- insert_delete_eq.
  rewrite map_to_list_insert by apply lookup_delete_eq. by cbn.
Qed.

Lemma items_lookup f m k v : m !! k = Some v → items f m ≡ₚ f v ++ items f (delete k m).
Proof. intros Hk. rewrite <- items_insert. by rewrite insert_id. Qed.

Lemma items_delete_absent f m k : m !! k = None → items f (delete k m) = items f m.
Proof. intros Hk. by rewrite delete_id. Qed.

Lemma items_Forall f m P : (∀ k v, m !! k = Some v → Forall P (f v)) → Forall P (items f m).
Proof.
  intros Hm. unfold items. apply Forall_concat, Forall_fmap, Forall_fmap, Forall_forall.
  intros [k v] Hin%elem_of_map_to_list. apply (Hm k v Hin).
Qed.

End items.

Abbreviation stack_items := (items (V := list Output) id).
Abbreviation row_items := (items (V := gmap Z (list Output)) stack_items).

Definition coins (s : State) : list Output := row_items (have_coins s) ++ stack_items (dust_coins s).

(** ** Sums of amounts *)

Definition worth (l : list Output) : Z := sum (o_amount <$> l).

Global Instance worth_proper : Proper ((≡ₚ) ==> eq) worth.
Proof. intros l k Hlk. unfold worth, sum. induction Hlk; cbn in *; lia. Qed.

Lemma worth_app l k : worth (l ++ k) = worth l + worth k.
Proof. unfold worth. by rewrite fmap_app, sum_app. Qed.
Lemma worth_cons un l : worth (un :: l) = o_amount un + worth l.
Proof. done. Qed.
Lemma worth_nil : worth [] = 0.
Proof. done. Qed.
Lemma worth_nonneg l : Forall (λ un, 0 ≤ o_amount un) l → 0 ≤ worth l.
Proof. induction 1; rewrite ?worth_cons, ?worth_nil; lia. Qed.
Lemma worth_filter_le (P : Output → Prop) `{∀ un, Decision (P un)} l :
  Forall (λ un, 0 ≤ o_amount un) l → worth (filter P l) ≤ worth l.
Proof.
  induction 1 as [|un l Hun _ IH]; [done|]. rewrite filter_cons.
  case_decide; rewrite !worth_cons; lia.
Qed.

(** ** Round coins *)

(** What the selector relies on: the wallet marks as dust what is dust. *)
Definition un_ok (un : Output) : Prop :=
  in_u 64 (o_amount un) ∧ o_dust un = is_dust (o_amount un).
Global Instance un_ok_dec un : Decision (un_ok un).
Proof. unfold un_ok. apply _. Defined.

Definition round_coin (un : Output) (digit am : Z) : Prop :=
  o_amount un = am * 10 ^ digit ∧ 1 ≤ am ≤ 9 ∧ 0 ≤ digit ≤ 19 ∧ is_dust (o_amount un) = false.

Lemma digit_of_round un : in_u 64 (o_amount un) → is_dust (o_amount un) = false →
  round_coin un (digit_of (o_amount un)).1 (digit_of (o_amount un)).2.
Proof.
  intros _ Hd. unfold round_coin. rewrite Hd. revert Hd. unfold is_dust, lower_bound. intros Hd.
  destruct (List.find _ PRETTY_AMOUNTS) as [p|] eqn:Hf; [|done].
  apply find_some in Hf as [Hin _]. apply orb_false_iff in Hd as [Hp _].
  apply negb_false_iff, Z.eqb_eq in Hp. subst p. revert Hin. generalize (o_amount un) as am.
  apply Forall_forall_In || apply List.Forall_forall.
  apply (bool_decide_unpack _). vm_compute. exact I.
Qed.

Lemma is_dust_zero : is_dust 0 = true.
Proof. reflexivity. Qed.

(** ** Well-formed stacks *)

Definition dust_coin (am : Z) (un : Output) : Prop := o_amount un = am ∧ is_dust am = true.

Definition dust_ok (m : DustCoins) : Prop :=
  ∀ am uns, m !! am = Some uns → uns ≠ [] ∧ Forall (dust_coin am) uns.

Definition row_ok (digit : Z) (row : DustCoins) : Prop :=
  ∀ am uns, row !! am = Some uns → uns ≠ [] ∧ Forall (λ un, round_coin un digit am) uns.

Definition have_ok (max_digit : Z) (m : HaveCoins) : Prop :=
  ∀ digit row, m !! digit = Some row → digit ≤ max_digit ∧ row ≠ ∅ ∧ row_ok digit row.

Lemma store_stack_items m k uns :
  stack_items (store_stack m k uns) ≡ₚ uns ++ stack_items (delete k m).
Proof. destruct uns as [|un uns]; [done|]. cbn [store_stack]. by rewrite items_insert. Qed.

Lemma push_stack_items m k un : stack_items (push_stack m k un) ≡ₚ un :: stack_items m.
Proof.
  unfold push_stack. rewrite items_insert. destruct (m !! k) as [uns|] eqn:Hk; cbn.
  - rewrite (items_lookup id m k uns Hk). cbn. rewrite <- app_assoc. cbn.
    by rewrite <- Permutation_middle.
  - by rewrite items_delete_absent.
Qed.

Lemma push_have_items m un : row_items (push_have m un) ≡ₚ un :: row_items m.
Proof.
  unfold push_have. destruct (digit_of _) as [digit am]. rewrite items_insert, push_stack_items.
  destruct (m !! digit) as [row|] eqn:Hd; cbn.
  - by rewrite (items_lookup _ m digit row Hd).
  - unfold items at 1. rewrite map_to_list_empty. cbn. by rewrite items_delete_absent.
Qed.

Lemma pop_back_snoc {A} (l : list A) x : pop_back (l ++ [x]) = Ok (x, l).
Proof. unfold pop_back. by rewrite last_snoc, removelast_last. Qed.

Lemma pop_back_ok {A} (l : list A) : l ≠ [] → ∃ x k, l = k ++ [x] ∧ pop_back l = Ok (x, k).
Proof.
  destruct l as [|x k _] using rev_ind; [done|]. intros _. exists x, k. by rewrite pop_back_snoc.
Qed.

(** A set of stacks stays well formed, whatever its coins have to be. *)
Section stacks.
Context (P : Z → Output → Prop).
Definition stacks_ok (m : DustCoins) : Prop :=
  ∀ am uns, m !! am = Some uns → uns ≠ [] ∧ Forall (P am) uns.

Lemma store_stack_ok m k un uns :
  stacks_ok m → m !! k = Some (uns ++ [un]) → stacks_ok (store_stack m k uns).
Proof.
  intros Hm Hk am l. destruct uns as [|u uns]; cbn [store_stack].
  - intros [_ Hl]%lookup_delete_Some. by apply Hm.
  - intros [[-> <-]|[_ Hl]]%lookup_insert_Some; [|by apply Hm].
    split; [done|]. destruct (Hm _ _ Hk) as [_ Hall]. by apply Forall_app in Hall as [? _].
Qed.

Lemma push_stack_ok m k un : stacks_ok m → P k un → stacks_ok (push_stack m k un).
Proof.
  intros Hm Hun am l. unfold push_stack.
  intros [[-> <-]|[_ Hl]]%lookup_insert_Some; [|by apply Hm].
  split; [by destruct (default [] _)|]. apply Forall_app. split; [|by constructor].
  destruct (m !! am) as [uns|] eqn:Ham; [by apply (Hm am)|constructor].
Qed.

End stacks.

Lemma row_ok_stacks digit row : row_ok digit row ↔ stacks_ok (λ am un, round_coin un digit am) row.
Proof. done. Qed.
Lemma dust_ok_stacks m : dust_ok m ↔ stacks_ok dust_coin m.
Proof. done. Qed.

Lemma push_have_ok M m un : have_ok M m → in_u 64 (o_amount un) → is_dust (o_amount un) = false →
  (digit_of (o_amount un)).1 ≤ M → have_ok M (push_have m un).
Proof.
  intros Hm Hu Hd HM. pose proof (digit_of_round un Hu Hd) as Hr. unfold push_have.
  destruct (digit_of _) as [digit am]. cbn in *.
  intros d row [[-> <-]|[_ Hl]]%lookup_insert_Some; [|by apply Hm].
  split; [done|]. split; [apply insert_non_empty|].
  apply (push_stack_ok _ (default ∅ (m !! d)) am un); [|done].
  destruct (m !! d) as [row|] eqn:Hd'; [apply (Hm d row Hd')|].
  intros a uns Hl. cbn in Hl. by rewrite lookup_empty in Hl.
Qed.

(** ** What the searches find *)

Lemma foldl_preserves {A B} (I : A → Prop) (f : A → B → A) l a :
  I a → (∀ a b, b ∈ l → I a → I (f a b)) → I (foldl f a l).
Proof.
  revert a. induction l as [|b l IH]; intros a Ha Hf; [done|]. cbn.
  apply IH; [apply Hf; [left|done]|]. intros a' b' Hb. apply Hf. by right.
Qed.

Lemma best_pair_found row am w a b : best_pair row am = (w, (a, b)) → w ≠ 0 →
  ∃ ua ub, row !! a = Some ua ∧ row !! b = Some ub ∧ (10 ≤ length ua ∨ 10 ≤ length ub)%nat.
Proof.
  set (I := λ best : Z * (Z * Z), best.1 ≠ 0 → ∃ ua ub, row !! best.2.1 = Some ua ∧
    row !! best.2.2 = Some ub ∧ (10 ≤ length ua ∨ 10 ≤ length ub)%nat).
  intros Hbest. enough (I (best_pair row am)) as HI by (rewrite Hbest in HI; exact HI).
  unfold best_pair. apply foldl_preserves; [by intros []|].
  intros best [x ux] Hx%elem_of_map_entries HI. apply foldl_preserves; [exact HI|].
  intros [w' counts] [y uy] Hy%elem_of_map_entries HI'. cbn [fst snd].
  destruct (_ && _ && _) eqn:Hc; [|exact HI'].
  apply andb_true_iff in Hc as [[_ Hc]%andb_true_iff _]. intros _. cbn [fst snd]. exists ux, uy.
  split; [done|]. split; [done|]. unfold size, TWO_THRESHOLD in Hc.
  apply orb_true_iff in Hc as [Hc%Z.leb_le|Hc%Z.leb_le]; lia.
Qed.

Lemma best_single_found entries am w best :
  best_single entries am w best = best ∨ ∃ uns, (best_single entries am w best, uns) ∈ entries.
Proof.
  revert w best. induction entries as [|[x ux] entries IH]; intros w best; [by left|]. cbn [best_single fst snd].
  destruct (_ =? 0); [right; exists ux; left|]. destruct (_ && _).
  - destruct (IH (size ux) x) as [->|[uns Hin]]; right; [exists ux; left|exists uns; by right].
  - destruct (IH w best) as [?|[uns Hin]]; [by left|right; exists uns; by right].
Qed.

Lemma last_entry_found {A} (m : gmap Z A) k x : last (map_entries m) = Some (k, x) → m !! k = Some x.
Proof. intros (l & Hl)%last_Some. apply elem_of_map_entries. rewrite Hl. apply elem_of_app. right. left. Qed.

Lemma last_entry_none {A} (m : gmap Z A) : last (map_entries m) = None → m = ∅.
Proof.
  intros Hn%last_None. apply map_empty. intros k. apply eq_None_not_Some. intros [x Hx].
  apply elem_of_map_entries in Hx. rewrite Hn in Hx. by apply elem_of_nil in Hx.
Qed.

Lemma find_entry_found {A} (P : Z * A → bool) (m : gmap Z A) k x :
  List.find P (map_entries m) = Some (k, x) → m !! k = Some x ∧ P (k, x) = true.
Proof.
  intros [Hin HP]%find_some. split; [|done]. apply elem_of_map_entries. by apply list_elem_of_In.
Qed.

Lemma best_stack_found have digit am : best_stack have = Some (digit, am) →
  ∃ row uns, have !! digit = Some row ∧ row !! am = Some uns ∧ (20 < length uns)%nat.
Proof.
  set (I := λ best : Z * option (Z * Z), 20 ≤ best.1 ∧ ∀ d a, best.2 = Some (d, a) →
    ∃ row uns, have !! d = Some row ∧ row !! a = Some uns ∧ (20 < length uns)%nat).
  unfold best_stack. set (found := foldl _ _ _). intros Hb. enough (I found) as HI by by apply HI.
  unfold found. apply foldl_preserves; [by split|].
  intros best [d row] Hd%elem_of_map_entries HI. apply foldl_preserves; [exact HI|].
  intros [w stack] [a uns] Ha%elem_of_map_entries HI'. cbn [fst snd].
  destruct (Z.ltb_spec w (size uns)) as [Hw|_]; [|exact HI'].
  destruct HI' as [H20 _]. unfold size in *. cbn in H20. split; [cbn; lia|]. cbn.
  intros ? ? [= <- <-]. exists row, uns. split; [done|]. split; [done|lia].
Qed.

(** ** The selector's invariant

    [supply] are the coins there were to choose from, [max_digit] and
    [anonymity] the arguments of the selection. *)

Section invariant.
Context (supply : list Output) (us : list Output) (max_digit anonymity : Z).

Record selecting (s : State) : Prop := {
  se_perm : optimization_unspents s ++ coins s ≡ₚ supply;
  se_total : used_total s = worth (optimization_unspents s);
  se_count : inputs_count s = Z.of_nat (length (optimization_unspents s));
  se_have : have_ok max_digit (have_coins s);
  se_dust : dust_ok (dust_coins s);
  se_mix : anonymity ≠ 0 → Forall (λ un, is_dust (o_amount un) = false) (optimization_unspents s);
  se_unspents : unspents s = us;
  se_used : used_unspents s = [];
  se_ra : ra_amounts s = [];
}.

Hypothesis supply_ok : Forall un_ok supply.
Hypothesis supply_worth : worth supply < 2 ^ 64.
Hypothesis supply_length : Z.of_nat (length supply) < 2 ^ 64.
Hypothesis max_digit_bound : max_digit ≤ 19.
Hypothesis supply_digits : Forall (λ un, is_dust (o_amount un) = false →
  (digit_of (o_amount un)).1 ≤ max_digit) supply.

Lemma supply_nonneg l k : l ++ k ≡ₚ supply → Forall (λ un, 0 ≤ o_amount un) l.
Proof using supply_ok.
  intros Hl. assert (Forall un_ok (l ++ k)) as Hall by (by rewrite Hl).
  apply Forall_app in Hall as [Hall _]. eapply Forall_impl; [exact Hall|].
  intros un [[] _]. done.
Qed.

Lemma part_bounds l k : l ++ k ≡ₚ supply →
  0 ≤ worth l < 2 ^ 64 ∧ Z.of_nat (length l) < 2 ^ 64 ∧ worth l + worth k = worth supply.
Proof using supply_ok supply_worth supply_length.
  intros Hl. assert (k ++ l ≡ₚ supply) as Hk by (by rewrite (Permutation_app_comm k l)).
  pose proof (worth_nonneg _ (supply_nonneg _ _ Hk)). pose proof (worth_nonneg _ (supply_nonneg _ _ Hl)).
  assert (worth l + worth k = worth supply) as Hw by (by rewrite <- worth_app, Hl).
  assert (length supply = (length l + length k)%nat) as Hlen
    by (rewrite <- length_app; symmetry; by apply Permutation_length).
  lia.
Qed.

(** One coin, worth [v], moves from the stacks to the selection. *)
Definition took (s s' : State) (v : Z) : Prop :=
  selecting s' ∧ used_total s' = used_total s + v ∧
  length (optimization_unspents s') = S (length (optimization_unspents s)).

Lemma take_selecting s have dust un :
  selecting s → un :: row_items have ++ stack_items dust ≡ₚ coins s →
  have_ok max_digit have → dust_ok dust → (anonymity ≠ 0 → is_dust (o_amount un) = false) →
  took s (take (set_coins s have dust) un) (o_amount un).
Proof using supply_ok supply_worth supply_length.
  intros [Hp Ht Hc Hh Hd Hm Hu Huu Hra] Hperm Hhave Hdust Hmix.
  assert ((optimization_unspents s ++ [un]) ++ row_items have ++ stack_items dust ≡ₚ supply) as Hp'.
  { rewrite <- app_assoc. cbn [app]. by rewrite Hperm. }
  destruct (part_bounds _ _ Hp') as ([H0 H1] & H2 & _).
  assert (worth (optimization_unspents s ++ [un]) = worth (optimization_unspents s) + o_amount un) as Hw.
  { rewrite worth_app, worth_cons, worth_nil. lia. }
  rewrite length_app in H2. cbn [length] in H2.
  assert (u64 (used_total s + o_amount un) = used_total s + o_amount un) as Hu64.
  { apply u64_small. rewrite Ht. lia. }
  split; [|split; [exact Hu64|cbn; rewrite length_app; cbn; lia]]. constructor; cbn -[worth u64].
  - exact Hp'.
  - rewrite Hu64. lia.
  - rewrite length_app, u64_small; cbn; lia.
  - done.
  - done.
  - intros Ha. apply Forall_app. split; [by apply Hm|]. constructor; [by apply Hmix|constructor].
  - done.
  - done.
  - done.
Qed.

Lemma take_have_ok s digit am row uns :
  selecting s → have_coins s !! digit = Some row → row !! am = Some uns →
  ∃ s', take_have s digit am = Ok s' ∧ took s s' (am * 10 ^ digit) ∧
    ∀ b ub, row !! b = Some ub → (b = am → 2 ≤ length ub)%nat →
      ∃ row' ub', have_coins s' !! digit = Some row' ∧ row' !! b = Some ub'.
Proof using supply_ok supply_worth supply_length.
  intros Hs Hrow Huns. destruct (se_have s Hs _ _ Hrow) as (HM & Hne & Hrok).
  destruct (Hrok _ _ Huns) as [Hune Hall]. destruct (pop_back_ok uns Hune) as (un & k & -> & Hpop).
  apply Forall_app in Hall as [_ Hun]. apply Forall_cons in Hun as [(Hun & _ & _ & Hd) _].
  unfold take_have. rewrite Hrow. cbn. rewrite Huns. cbn. rewrite Hpop. cbn.
  eexists. split; [reflexivity|].
  assert (row_ok digit (store_stack row am k)) as Hrok' by (eapply store_stack_ok; [exact Hrok|exact Huns]).
  set (have := if decide _ then _ else _).
  assert (row_items have ≡ₚ stack_items (store_stack row am k) ++ row_items (delete digit (have_coins s))) as Hit.
  { unfold have. case_decide as He; [|apply items_insert]. rewrite He, items_empty. done. }
  assert (un :: row_items have ++ stack_items (dust_coins s) ≡ₚ coins s) as Hperm.
  { unfold coins. rewrite Hit, store_stack_items, (items_lookup _ _ _ _ Hrow),
      (items_lookup id row am _ Huns). cbn. rewrite <- !app_assoc. cbn.
    by rewrite <- Permutation_middle. }
  assert (have_ok max_digit have) as Hhok.
  { unfold have. intros d r. case_decide as He.
    - intros [_ Hl]%lookup_delete_Some. by apply (se_have s Hs).
    - intros [[-> <-]|[_ Hl]]%lookup_insert_Some; [done|by apply (se_have s Hs)]. }
  split; [rewrite <- Hun; exact (take_selecting s have (dust_coins s) un Hs Hperm Hhok (se_dust s Hs) (λ _, Hd))|].
  intros b ub Hb Hlen. cbn.
  assert (∃ ub', store_stack row am k !! b = Some ub') as [ub' Hub'].
  { destruct (decide (b = am)) as [->|Hba].
    - assert (ub = k ++ [un]) as -> by congruence. specialize (Hlen eq_refl).
      rewrite length_app in Hlen. destruct k as [|u k]; [cbn in Hlen; lia|].
      exists (u :: k). apply lookup_insert_eq.
    - exists ub. destruct k; cbn [store_stack].
      + by rewrite lookup_delete_ne.
      + by rewrite lookup_insert_ne. }
  exists (store_stack row am k), ub'. split; [|done]. unfold have. rewrite decide_False.
  - apply lookup_insert_eq.
  - intros He. rewrite He, lookup_empty in Hub'. done.
Qed.

Lemma take_dust_ok s am uns :
  selecting s → dust_coins s !! am = Some uns → anonymity = 0 →
  ∃ s', take_dust s am = Ok s' ∧ took s s' am.
Proof using supply_ok supply_worth supply_length.
  intros Hs Huns Ha. destruct (se_dust s Hs _ _ Huns) as [Hune Hall].
  destruct (pop_back_ok uns Hune) as (un & k & -> & Hpop).
  apply Forall_app in Hall as [_ Hun]. apply Forall_cons in Hun as [[Hun _] _].
  unfold take_dust. rewrite Huns. cbn. rewrite Hpop. cbn. eexists. split; [reflexivity|].
  assert (un :: row_items (have_coins s) ++ stack_items (store_stack (dust_coins s) am k) ≡ₚ coins s) as Hperm.
  { unfold coins. rewrite store_stack_items, (items_lookup id _ _ _ Huns). cbn.
    rewrite <- !app_assoc. cbn. rewrite (Permutation_middle (row_items (have_coins s))). f_equiv.
    by rewrite <- Permutation_middle. }
  enough (took s (take (set_coins s (have_coins s) (store_stack (dust_coins s) am k)) un) (o_amount un))
    as Htook by (rewrite Hun in Htook; exact Htook).
  apply (take_selecting s _ _ un Hs Hperm (se_have s Hs)); [|done].
  eapply store_stack_ok; [exact (se_dust s Hs)|exact Huns].
Qed.

(** [selecting] with at least as much selected as before. *)
Definition gains (s s' : State) : Prop := selecting s' ∧ used_total s ≤ used_total s'.

Lemma pow10_nonneg am digit : 1 ≤ am → 0 ≤ digit → 1 ≤ am * 10 ^ digit.
Proof. intros Ham Hd. pose proof (Z.pow_pos_nonneg 10 digit ltac:(lia) Hd). nia. Qed.

Lemma take_have_gains s digit am row uns :
  selecting s → have_coins s !! digit = Some row → row !! am = Some uns →
  ∃ s', take_have s digit am = Ok s' ∧ gains s s' ∧
    ∀ b ub, row !! b = Some ub → (b = am → 2 ≤ length ub)%nat →
      ∃ row' ub', have_coins s' !! digit = Some row' ∧ row' !! b = Some ub'.
Proof using supply_ok supply_worth supply_length.
  intros Hs Hrow Huns. destruct (se_have s Hs _ _ Hrow) as (_ & _ & Hrok).
  destruct (Hrok _ _ Huns) as [Hne Hall].
  destruct (take_have_ok s digit am row uns Hs Hrow Huns) as (s' & -> & (Hsel & Htot & _) & Hrest).
  exists s'. split; [done|]. split; [|done]. split; [done|].
  destruct uns as [|un uns]; [done|]. apply Forall_cons in Hall as [(_ & Ham & Hd & _) _].
  pose proof (pow10_nonneg am digit ltac:(lia) ltac:(lia)). lia.
Qed.

Lemma take_pair_gains s digit a b row ua ub :
  selecting s → have_coins s !! digit = Some row → row !! a = Some ua → row !! b = Some ub →
  (10 ≤ length ua ∨ 10 ≤ length ub)%nat →
  ∃ s', (s1 ← take_have s digit a; take_have s1 digit b) = Ok s' ∧ gains s s'.
Proof using supply_ok supply_worth supply_length.
  intros Hs Hrow Ha Hb Hlen.
  destruct (take_have_gains s digit a row ua Hs Hrow Ha) as (s1 & Hs1 & [Hsel1 Hg1] & Hrest).
  destruct (Hrest b ub Hb) as (row' & ub' & Hrow' & Hub').
  { intros ->. replace ub with ua in * by congruence. lia. }
  destruct (take_have_gains s1 digit b row' ub' Hsel1 Hrow' Hub') as (s2 & Hs2 & [Hsel2 Hg2] & _).
  exists s2. rewrite Hs1. cbn. split; [done|]. split; [done|lia].
Qed.

Lemma optimize_digit_ok s digit total :
  selecting s → 0 ≤ digit →
  ∃ r, optimize_digit digit (10 ^ digit) total s = Ok r ∧ ∀ s', r = Some s' → gains s s'.
Proof using supply_ok supply_worth supply_length.
  intros Hs Hd. unfold optimize_digit. destruct (_ && _); [by eexists|].
  pose proof (Z.pow_pos_nonneg 10 digit ltac:(lia) Hd) as Hpos.
  destruct (Z.eqb_spec (10 ^ digit) 0) as [?|_]; [lia|]. cbn -[gains].
  set (am := 10 - _). clearbody am.
  assert (gains s s) as Hrefl by (split; [done|lia]).
  destruct (have_coins s !! digit) as [row|] eqn:Hrow; [|eexists; split; [done|by intros ? [= <-]]].
  destruct (best_pair row am) as [w [a b]] eqn:Hbest. destruct (Z.eqb_spec w 0) as [_|Hw]; cbn -[gains].
  - destruct (am =? 10); [eexists; split; [done|by intros ? [= <-]]|].
    destruct (Z.eqb_spec (best_single (map_entries row) am 0 0) 0) as [_|Hb]; cbn -[gains];
      [eexists; split; [done|by intros ? [= <-]]|].
    destruct (best_single_found (map_entries row) am 0 0) as [?|[uns Hin%elem_of_map_entries]]; [done|].
    destruct (take_have_gains s digit _ row uns Hs Hrow Hin) as (s' & -> & Hg & _).
    eexists. split; [reflexivity|]. by intros ? [= <-].
  - destruct (best_pair_found row am w a b Hbest Hw) as (ua & ub & Ha & Hb & Hlen).
    destruct (take_pair_gains s digit a b row ua ub Hs Hrow Ha Hb Hlen) as (s' & Hs' & Hg).
    apply bind_Ok_inv in Hs' as (s1 & -> & Hs2). cbn. rewrite Hs2. cbn.
    eexists. split; [reflexivity|]. by intros ? [= <-].
Qed.

Lemma optimize_digits_ok n digit total s :
  selecting s → 0 ≤ digit → digit + Z.of_nat n ≤ 20 →
  ∃ s', optimize_digits n digit (u64 (10 ^ digit)) total s = Ok s' ∧ gains s s'.
Proof using supply_ok supply_worth supply_length.
  revert digit s. induction n as [|n IH]; intros digit s Hs Hd Hn.
  { exists s. split; [done|]. split; [done|lia]. }
  cbn [optimize_digits].
  assert (0 < 10 ^ digit < 2 ^ 64) as Hpow.
  { split; [apply Z.pow_pos_nonneg; lia|].
    apply Z.le_lt_trans with (10 ^ 19); [apply Z.pow_le_mono_r; lia|done]. }
  rewrite (u64_small (10 ^ digit)) by lia.
  destruct (optimize_digit_ok s digit total Hs Hd) as (r & -> & Hr). cbn -[gains].
  destruct r as [s1|]; [|exists s; split; [done|split; [done|lia]]].
  destruct (Hr s1 eq_refl) as [Hs1 Hg1].
  replace (10 ^ digit * 10) with (10 ^ (digit + 1)) by (rewrite Z.pow_add_r by lia; lia).
  destruct (IH (digit + 1) s1 Hs1) as (s' & -> & [Hs' Hg']); [lia|lia|].
  exists s'. split; [done|]. split; [done|lia].
Qed.

Lemma optimize_amounts_ok total s :
  selecting s → ∃ s', optimize_amounts max_digit total s = Ok s' ∧ gains s s'.
Proof using supply_ok supply_worth supply_length max_digit_bound.
  intros Hs. apply (optimize_digits_ok _ 0 total s Hs); lia.
Qed.

(** *** Dust and stacks *)

Lemma gains_trans s s1 s' : gains s s1 → gains s1 s' → gains s s'.
Proof using. intros [_ H1] [H2 H3]. split; [done|lia]. Qed.

Lemma gains_refl s : selecting s → gains s s.
Proof using. intros Hs. split; [done|lia]. Qed.

Lemma dust_nonneg s am uns : selecting s → dust_coins s !! am = Some uns → 0 ≤ am.
Proof using supply_ok.
  intros Hs Huns. destruct (se_dust s Hs _ _ Huns) as [Hne Hall].
  destruct uns as [|un uns]; [done|]. apply Forall_cons in Hall as [[<- _] _].
  assert (Forall un_ok (optimization_unspents s ++ coins s)) as Hok by (by rewrite (se_perm s Hs)).
  rewrite Forall_forall in Hok. apply Hok. apply elem_of_app. right. unfold coins.
  rewrite (items_lookup id _ _ _ Huns). cbn. apply elem_of_app. right. left.
Qed.

Lemma take_dust_gains s am uns : selecting s → dust_coins s !! am = Some uns → anonymity = 0 →
  ∃ s', take_dust s am = Ok s' ∧ gains s s'.
Proof using supply_ok supply_worth supply_length.
  intros Hs Huns Ha. destruct (take_dust_ok s am uns Hs Huns Ha) as (s' & -> & Hsel & Htot & _).
  pose proof (dust_nonneg s am uns Hs Huns). exists s'. split; [done|]. split; [done|lia].
Qed.

Lemma single_dust_ok total s : selecting s → anonymity = 0 →
  ∃ s', single_dust total s = Ok s' ∧ gains s s'.
Proof using supply_ok supply_worth supply_length.
  intros Hs Ha. unfold single_dust. destruct (_ <? _); [|by exists s; split; [done|apply gains_refl]].
  destruct (List.find _ _) as [[am uns]|] eqn:Hf; [|by exists s; split; [done|apply gains_refl]].
  apply find_entry_found in Hf as [Hf _]. by eapply take_dust_gains.
Qed.

Lemma dust_loop_ok fuel total s n : selecting s → anonymity = 0 → (Z.to_nat n < fuel)%nat →
  ∃ s' n', dust_loop fuel total s n = Ok (s', n') ∧ gains s s'.
Proof using supply_ok supply_worth supply_length.
  intros Hs Ha. revert s n Hs. induction fuel as [|fuel IH]; intros s n Hs Hn; [lia|].
  cbn [dust_loop]. unfold last_dust.
  destruct (last (map_entries (dust_coins s))) as [[am uns]|] eqn:Hl;
    [|exists s, n; split; [done|by apply gains_refl]].
  apply last_entry_found in Hl.
  destruct (_ && _) eqn:Hc; [|exists s, n; split; [done|by apply gains_refl]].
  apply andb_true_iff in Hc as [_ Hc%Z.leb_le].
  destruct (take_dust_gains s am uns Hs Hl Ha) as (s1 & -> & Hg). cbn.
  destruct (IH s1 (n - 1) (proj1 Hg)) as (s' & n' & -> & Hg'); [lia|].
  exists s', n'. split; [done|by eapply gains_trans].
Qed.

Lemma take_ten_ok n digit am s row uns :
  selecting s → have_coins s !! digit = Some row → row !! am = Some uns → (n < length uns)%nat →
  ∃ s', take_ten n digit am s = Ok s' ∧ gains s s'.
Proof using supply_ok supply_worth supply_length.
  revert s row uns. induction n as [|n IH]; intros s row uns Hs Hrow Huns Hn.
  { exists s. split; [done|by apply gains_refl]. }
  destruct (se_have s Hs _ _ Hrow) as (HM & _ & Hrok). destruct (Hrok _ _ Huns) as [Hne Hall].
  destruct (pop_back_ok uns Hne) as (un & k & -> & Hpop). rewrite length_app in Hn. cbn in Hn.
  apply Forall_app in Hall as [Hk Hun]. apply Forall_cons in Hun as [(Hun & Ham & Hd & Hdust) _].
  cbn [take_ten]. rewrite Hrow. cbn. rewrite Huns. cbn. rewrite Hpop. cbn.
  set (have := <[digit := <[am := k]> row]> (have_coins s)).
  assert (un :: row_items have ++ stack_items (dust_coins s) ≡ₚ coins s) as Hperm.
  { unfold coins, have. rewrite items_insert, items_insert, (items_lookup _ _ _ _ Hrow),
      (items_lookup id row am _ Huns). cbn. rewrite <- !app_assoc. cbn.
    by rewrite <- Permutation_middle. }
  assert (have_ok max_digit have) as Hhok.
  { intros d r [[-> <-]|[_ Hl]]%lookup_insert_Some; [|by apply (se_have s Hs)].
    split; [done|]. split; [apply insert_non_empty|].
    intros a l [[-> <-]|[_ Hl]]%lookup_insert_Some; [|by apply Hrok].
    split; [|done]. intros ->. cbn in Hn. lia. }
  destruct (take_selecting s have (dust_coins s) un Hs Hperm Hhok (se_dust s Hs) (λ _, Hdust))
    as (Hsel & Htot & _).
  destruct (IH (take (set_coins s have (dust_coins s)) un) (<[am := k]> row) k Hsel) as (s' & -> & Hg).
  - apply lookup_insert_eq.
  - apply lookup_insert_eq.
  - lia.
  - exists s'. split; [done|]. eapply gains_trans; [|exact Hg]. split; [done|]. rewrite Htot, Hun.
    pose proof (pow10_nonneg am digit ltac:(lia) ltac:(lia)). lia.
Qed.

Lemma stack_loop_ok fuel s n : selecting s → (Z.to_nat n < fuel)%nat →
  ∃ s', stack_loop fuel s n = Ok s' ∧ gains s s'.
Proof using supply_ok supply_worth supply_length.
  revert s n. induction fuel as [|fuel IH]; intros s n Hs Hn; [lia|]. cbn [stack_loop].
  destruct (Z.leb_spec 10 n) as [H10|_]; [|exists s; split; [done|by apply gains_refl]].
  destruct (best_stack _) as [[digit am]|] eqn:Hb; [|exists s; split; [done|by apply gains_refl]].
  destruct (best_stack_found _ _ _ Hb) as (row & uns & Hrow & Huns & Hlen).
  destruct (take_ten_ok 10 digit am s row uns Hs Hrow Huns ltac:(lia)) as (s1 & -> & Hg). cbn -[stack_loop].
  destruct (IH s1 (n - 10) (proj1 Hg)) as (s' & -> & Hg'); [lia|].
  exists s'. split; [done|by eapply gains_trans].
Qed.

Lemma single_coin_ok n digit digit_amount total s : selecting s →
  ∃ s', single_coin n digit digit_amount total s = Ok s' ∧ gains s s'.
Proof using supply_ok supply_worth supply_length.
  intros Hs. revert digit digit_amount. induction n as [|n IH]; intros digit digit_amount.
  { exists s. split; [done|by apply gains_refl]. }
  cbn [single_coin]. destruct (have_coins s !! digit) as [row|] eqn:Hrow; [|apply IH].
  destruct (List.find _ _) as [[am uns]|] eqn:Hf; [|apply IH].
  apply find_entry_found in Hf as [Hf _].
  destruct (take_have_gains s digit am row uns Hs Hrow Hf) as (s' & Hs' & Hg & _). by exists s'.
Qed.

(** *** Giving coins back *)

Record returning (l : list Output) (s : State) : Prop := {
  re_perm : l ++ coins s ≡ₚ supply;
  re_total : used_total s = worth l;
  re_count : inputs_count s = Z.of_nat (length l);
  re_have : have_ok max_digit (have_coins s);
  re_dust : dust_ok (dust_coins s);
  re_unspents : unspents s = us;
  re_used : used_unspents s = [];
  re_ra : ra_amounts s = [];
}.

Lemma supply_member P un l : Forall P supply → un :: l ≡ₚ supply → P un.
Proof using. intros HP Hl. rewrite <- Hl in HP. by apply Forall_cons in HP as [? _]. Qed.

Lemma untake_returning un l s : returning (un :: l) s → returning l (untake s un).
Proof using supply_ok supply_worth supply_length supply_digits.
  intros [Hp Ht Hc Hh Hd Hu Huu Hra].
  destruct (supply_member _ un _ supply_ok Hp) as [Ha Hdust].
  pose proof (supply_member _ un _ supply_digits Hp) as Hdig. cbn beta in Hdig.
  destruct (part_bounds _ _ Hp) as (Hw & Hl & _).
  assert (l ++ un :: coins s ≡ₚ supply) as Hp' by (by rewrite <- Permutation_middle).
  destruct (part_bounds _ _ Hp') as (Hw' & _ & _). rewrite worth_cons in Hw, Ht.
  cbn [length] in Hl, Hc.
  constructor; cbn -[worth u64]; try done.
  - rewrite <- Hp'. f_equiv. unfold coins. cbn. rewrite Hdust. destruct (is_dust _).
    + rewrite push_stack_items. by rewrite <- Permutation_middle.
    + by rewrite push_have_items.
  - rewrite Ht. rewrite u64_small; lia.
  - rewrite u64_small; lia.
  - rewrite Hdust. destruct (is_dust _) eqn:He; [done|]. apply push_have_ok; auto.
  - rewrite Hdust. destruct (is_dust _) eqn:He; [|done]. by apply push_stack_ok.
Qed.

Lemma untake_all l s : returning l s → returning [] (foldl untake s l).
Proof using supply_ok supply_worth supply_length supply_digits.
  revert s. induction l as [|un l IH]; intros s Hs; [done|]. cbn. by apply IH, untake_returning.
Qed.

Lemma unoptimize_ok s : selecting s →
  selecting (unoptimize_amounts s) ∧ optimization_unspents (unoptimize_amounts s) = [].
Proof using supply_ok supply_worth supply_length supply_digits.
  intros [Hp Ht Hc Hh Hd Hm Hu Huu Hra].
  assert (returning (optimization_unspents s) s) as Hr by by constructor.
  apply untake_all in Hr. destruct Hr. split; [|done]. unfold unoptimize_amounts.
  constructor; done.
Qed.

(** *** Filling up *)

Lemma last_have_ok s : selecting s → have_coins s ≠ ∅ →
  ∃ digit am row uns un, last_have s = Ok (Some (digit, am, un)) ∧ 1 ≤ o_amount un ∧
    have_coins s !! digit = Some row ∧ row !! am = Some uns.
Proof using.
  intros Hs Hne. unfold last_have.
  destruct (last (map_entries (have_coins s))) as [[digit row]|] eqn:Hd;
    [|by apply last_entry_none in Hd].
  apply last_entry_found in Hd. destruct (se_have s Hs _ _ Hd) as (_ & Hrne & Hrok).
  destruct (last (map_entries row)) as [[am uns]|] eqn:Ham; [|by apply last_entry_none in Ham].
  apply last_entry_found in Ham. destruct (Hrok _ _ Ham) as [Hune Hall].
  destruct (pop_back_ok uns Hune) as (un & k & -> & ->). cbn.
  apply Forall_app in Hall as [_ Hun]. apply Forall_cons in Hun as [(Hun & ? & ? & _) _].
  exists digit, am, row, (k ++ [un]), un. split; [done|]. split; [|done].
  rewrite Hun. apply pow10_nonneg; lia.
Qed.

Lemma fill_dust s : selecting s → anonymity = 0 → dust_coins s ≠ ∅ →
  ∃ s' v, match last_dust s with
          | Some (am, _) => take_dust s am
          | None => Undefined "--end() of an empty map"
          end = Ok s' ∧ took s s' v.
Proof using supply_ok supply_worth supply_length.
  intros Hs Ha Hne. unfold last_dust.
  destruct (last _) as [[am uns]|] eqn:Hl; [|by apply last_entry_none in Hl].
  apply last_entry_found in Hl. destruct (take_dust_ok s am uns Hs Hl Ha) as (s' & -> & Ht). by exists s', am.
Qed.

Lemma fill_once_ok s : selecting s → ¬ (have_coins s = ∅ ∧ (anonymity ≠ 0 ∨ dust_coins s = ∅)) →
  ∃ s' v, fill_once anonymity s = Ok s' ∧ took s s' v.
Proof using supply_ok supply_worth supply_length.
  intros Hs Hsome. unfold fill_once.
  set (du := if anonymity =? 0 then _ else _).
  assert (∃ v, du = Ok v ∧ (0 < v → anonymity = 0 ∧ dust_coins s ≠ ∅)) as (v & -> & Hv).
  { unfold du. destruct (Z.eqb_spec anonymity 0) as [Ha|_]; [|by exists 0].
    unfold last_dust. destruct (last _) as [[am uns]|] eqn:Hl; [|by exists 0].
    apply last_entry_found in Hl. destruct (se_dust s Hs _ _ Hl) as [Hne _].
    destruct (pop_back_ok uns Hne) as (un & k & -> & ->). eexists. split; [reflexivity|].
    intros _. split; [done|]. intros He. by rewrite He, lookup_empty in Hl. }
  destruct (decide (have_coins s = ∅)) as [He|Hne].
  - unfold last_have at 1. rewrite He. cbn.
    destruct (decide (anonymity = 0)) as [Ha|Ha]; [|by destruct Hsome; auto].
    apply fill_dust; [done|done|]. intros Hde. apply Hsome. auto.
  - destruct (last_have_ok s Hs Hne) as (digit & am & row & uns & un & -> & Hpos & Hrow & Huns). cbn.
    destruct (Z.ltb_spec v (o_amount un)) as [_|Hle].
    + destruct (take_have_ok s digit am row uns Hs Hrow Huns) as (s' & -> & Ht & _). by eexists _, _.
    + destruct Hv as [Ha Hd]; [lia|]. by apply fill_dust.
Qed.

(** What the filling has reached when it ends. *)
Definition filled (total : Z) (s : State) (found : bool) : Prop :=
  if found then total ≤ used_total s
  else used_total s < total ∧ have_coins s = ∅ ∧ (anonymity ≠ 0 ∨ dust_coins s = ∅).

Lemma fill_ok fuel total s : selecting s →
  (length supply < fuel + length (optimization_unspents s))%nat →
  ∃ s' found, fill fuel anonymity total s = Ok (s', found) ∧ selecting s' ∧ filled total s' found.
Proof using supply_ok supply_worth supply_length.
  revert s. induction fuel as [|fuel IH]; intros s Hs Hfuel.
  { pose proof (Permutation_length (se_perm s Hs)) as Hl. rewrite length_app in Hl. lia. }
  cbn [fill]. destruct (Z.ltb_spec (used_total s) total) as [Hlt|Hge];
    [|exists s, true; split; [done|by split]].
  destruct (_ && _) eqn:Hc.
  - exists s, false. split; [done|]. split; [done|]. split; [done|].
    apply andb_true_iff in Hc as [Hc1%bool_decide_eq_true Hc2]. split; [done|].
    apply orb_true_iff in Hc2 as [Hc2|Hc2%bool_decide_eq_true]; [left|by right]. lia.
  - destruct (fill_once_ok s Hs) as (s1 & v & -> & Hs1 & _ & Hlen).
    { intros [Hh Hor]. rewrite Hh, bool_decide_true in Hc by done. cbn in Hc.
      destruct Hor as [Ha|Hd].
      - destruct (Z.eqb_spec anonymity 0); done.
      - rewrite Hd, bool_decide_true, orb_true_r in Hc by done. done. }
    cbn. apply IH; [done|lia].
Qed.

(** A selection for a fixed sum ends, with the sum reached or with nothing
    left that may be used. *)
Lemma select_for_total_ok total s optimizations :
  selecting s → (length supply ≤ length us)%nat →
  ∃ s' found, select_for_total max_digit total anonymity optimizations s = Ok (s', found) ∧
    selecting s' ∧ filled total s' found.
Proof using supply_ok supply_worth supply_length max_digit_bound supply_digits.
  intros Hs Hlen. unfold select_for_total.
  set (first := if anonymity =? 0 then _ else _).
  assert (∃ s1 n1, first = Ok (s1, n1) ∧ selecting s1) as (s1 & n1 & -> & Hs1).
  { unfold first. destruct (Z.eqb_spec anonymity 0) as [Ha|_]; [|by eexists _, _].
    destruct (single_dust_ok total s Hs Ha) as (s0 & -> & Hs0 & _). cbn [mbind result_bind].
    destruct (dust_loop_ok (S (Z.to_nat optimizations)) total s0 optimizations Hs0 Ha ltac:(lia))
      as (s1 & n1 & -> & Hs1 & _). by eexists _, _. }
  cbn [mbind result_bind].
  destruct (stack_loop_ok (S (Z.to_nat n1)) s1 n1 Hs1 ltac:(lia)) as (s2 & -> & Hs2 & _). cbn [mbind result_bind].
  destruct (optimize_amounts_ok total s2 Hs2) as (s3 & -> & Hs3 & _). cbn [mbind result_bind].
  destruct (Z.leb_spec total (used_total s3)); [by exists s3, true|].
  destruct (single_coin_ok (Z.to_nat (max_digit + 1)) 0 1 total s3 Hs3) as (s4 & -> & Hs4 & _). cbn [mbind result_bind].
  destruct (Z.leb_spec total (used_total s4)); [by exists s4, true|].
  destruct (unoptimize_ok s4 Hs4) as [Hs5 Hopt].
  destruct (fill_ok (S (length (unspents (unoptimize_amounts s4)))) total _ Hs5) as (s6 & found & -> & Hs6 & Hf).
  { rewrite (se_unspents _ Hs5), Hopt. cbn. lia. }
  cbn [mbind result_bind]. destruct found; [|by exists s6, false].
  destruct (optimize_amounts_ok total s6 Hs6) as (s7 & -> & Hs7 & Hg). cbn [mbind result_bind].
  exists s7, true. split; [done|]. split; [done|]. cbn in *. lia.
Qed.

(** *** Answers *)

(** The coins that can be used at all: without mixing dust as well. *)
Definition eligible (un : Output) : Prop := anonymity = 0 ∨ is_dust (o_amount un) = false.
Global Instance eligible_dec un : Decision (eligible un) := _.

Lemma exhausted total s : selecting s → filled total s false → worth (filter eligible supply) < total.
Proof using supply_ok.
  intros Hs (Hlt & Hhave & Hdust). rewrite <- (se_perm s Hs), filter_app, worth_app.
  enough (filter eligible (coins s) = []) as ->.
  { pose proof (worth_filter_le eligible _ (supply_nonneg _ _ (se_perm s Hs))).
    rewrite (se_total s Hs) in Hlt. rewrite worth_nil. lia. }
  unfold coins. rewrite Hhave, items_empty. cbn.
  destruct Hdust as [Ha| ->]; [|by rewrite items_empty].
  assert (Forall (λ un, ¬ eligible un) (stack_items (dust_coins s))) as Hall.
  { apply items_Forall. intros am uns Huns. destruct (se_dust s Hs _ _ Huns) as [_ Hd].
    eapply Forall_impl; [exact Hd|]. intros un [Hun Hd'] [?|?]; congruence. }
  induction Hall as [|un l Hun _ IH]; [done|]. by rewrite filter_cons_False.
Qed.

Context (c : Currency) (total_amount total_outputs fee_per_byte effective_median_size : Z).
Abbreviation threshold := (default_dust_threshold c).

Definition size_of (n : nat) : Z :=
  get_maximum_tx_size (Z.of_nat n) (u64 (total_outputs + 8)) anonymity.

(** No fee the loop tries is larger. *)
Definition fee_limit : Z := minimum_fee c `max` (fee_per_byte * effective_median_size + threshold).

Definition paid_by (s : State) (change : Z) : Prop := ∃ rest fee,
  used_unspents s ++ rest ≡ₚ supply ∧
  worth (used_unspents s) = total_amount + fee + change ∧
  minimum_fee c ≤ fee < fee_limit + threshold ∧
  fee_per_byte * size_of (length (used_unspents s)) ≤ fee ∧
  size_of (length (used_unspents s)) ≤ effective_median_size ∧
  0 ≤ change ∧ change mod threshold = 0 ∧
  Forall eligible (used_unspents s) ∧
  used_total s = worth (used_unspents s) ∧ ra_amounts s = o_amount <$> used_unspents s.

Definition not_enough : Prop := ∃ fee, minimum_fee c ≤ fee ≤ fee_limit ∧
  worth (filter eligible supply) < total_amount + fee.

Definition does_not_fit : Prop := ∃ chosen rest,
  chosen ++ rest ≡ₚ supply ∧ total_amount + minimum_fee c ≤ worth chosen ∧
  effective_median_size < size_of (length chosen).

Definition answer_ok (s : State) (a : answer) : Prop :=
  match a with
  | Selected change => paid_by s change
  | Failed message =>
      (message = "NOT_ENOUGH_FUNDS" ∧ not_enough) ∨
      (message = "TRANSACTION_DOES_NOT_FIT_IN_BLOCK" ∧ does_not_fit)
  end.

(** The amounts stay within 64 bits. *)
Definition amounts_ok : Prop :=
  0 < threshold ∧ 0 ≤ total_amount ∧ 0 ≤ minimum_fee c ∧ 0 ≤ fee_per_byte ∧
  0 ≤ effective_median_size ∧ total_amount + fee_limit + 2 * threshold < 2 ^ 64.

Hypothesis amounts_fit : amounts_ok.

Definition next_fee (size_fee change_dust_fee : Z) : Z :=
  u64 (u64 (size_fee - change_dust_fee + threshold - 1) / threshold * threshold).

Lemma next_fee_spec fee cdf sf :
  0 ≤ cdf < threshold → 0 ≤ fee → fee + cdf < sf → sf ≤ fee_per_byte * effective_median_size →
  fee < next_fee sf cdf ≤ fee_limit ∧ fee / threshold < next_fee sf cdf / threshold.
Proof using amounts_fit supply.
  intros Hcdf Hfee Hlt Hsf. destruct amounts_fit as (Ht & Hta & _ & _ & _ & Hb).
  unfold next_fee, fee_limit in *. set (B := fee_per_byte * effective_median_size) in *. clearbody B.
  rewrite (u64_small (_ - _ + _ - _)) by lia.
  pose proof (Z.div_mod (sf - cdf + threshold - 1) threshold ltac:(lia)) as Hdm.
  pose proof (Z.mod_pos_bound (sf - cdf + threshold - 1) threshold ltac:(lia)) as Hm.
  set (q := _ / threshold) in *. set (t := threshold) in *.
  assert (0 ≤ q * t < 2 ^ 64) as Hq by nia. rewrite u64_small by done.
  rewrite Z.div_mul by lia. pose proof (Z.div_mod fee t ltac:(lia)). pose proof (Z.mod_pos_bound fee t ltac:(lia)).
  split; nia.
Qed.

(** The rounds the loop has left: it gives up on combining coins at most as
    often as the number of optimizations can be halved, and every other round
    raises the fee by a multiple of the threshold. *)
Definition rounds (optimizations fee : Z) : nat :=
  Z.to_nat optimizations + Z.to_nat (fee_limit / threshold - fee / threshold).

Lemma finish s fee change_dust_fee :
  let tx_size := get_maximum_tx_size (inputs_count s) (u64 (total_outputs + 8)) anonymity in
  selecting s → total_amount + fee ≤ used_total s → minimum_fee c ≤ fee ≤ fee_limit →
  change_dust_fee = (used_total s - total_amount - fee) mod threshold →
  tx_size ≤ effective_median_size → fee_per_byte * tx_size ≤ fee + change_dust_fee →
  paid_by (combine_optimized_unspents s) (u64 (used_total s - total_amount - fee - change_dust_fee)).
Proof using supply_ok supply_worth supply_length amounts_fit.
  intros tx_size Hs Hge Hfee Hcdf Hsize Hpay. destruct amounts_fit as (Ht & Hta & Hmf & _).
  destruct (part_bounds _ _ (se_perm s Hs)) as (Hw & _ & _).
  pose proof (Z.mod_pos_bound (used_total s - total_amount - fee) threshold Ht) as Hm.
  pose proof (Z.div_mod (used_total s - total_amount - fee) threshold ltac:(lia)) as Hdm.
  pose proof (Z.mod_le (used_total s - total_amount - fee) threshold ltac:(lia) Ht) as Hle.
  rewrite <- (se_total s Hs) in Hw. rewrite <- Hcdf in Hm, Hdm, Hle.
  rewrite u64_small by lia. unfold tx_size in *. rewrite (se_count s Hs) in *.
  exists (coins s), (fee + change_dust_fee). cbn -[worth]. rewrite (se_used s Hs), (se_ra s Hs). cbn [app].
  rewrite <- (se_total s Hs).
  split; [apply (se_perm s Hs)|]. split; [lia|]. split; [lia|]. split; [exact Hpay|]. split; [exact Hsize|].
  split; [lia|]. split; [|split; [|done]].
  - replace (used_total s - total_amount - fee - change_dust_fee)
      with ((used_total s - total_amount - fee) / threshold * threshold) by lia.
    apply Z.mod_mul; lia.
  - apply Forall_forall. intros un Hun. destruct (decide (anonymity = 0)) as [?|Ha]; [by left|right].
    pose proof (se_mix s Hs Ha) as Hall. rewrite Forall_forall in Hall. by apply Hall.
Qed.

Lemma select_loop_ok fuel optimization_median fee optimizations s :
  selecting s → (length supply ≤ length us)%nat → minimum_fee c ≤ fee ≤ fee_limit → 0 ≤ optimizations →
  (rounds optimizations fee < fuel)%nat →
  ∃ s' a, select_loop c fuel max_digit effective_median_size optimization_median anonymity total_amount
    total_outputs fee_per_byte fee optimizations s = Ok (s', a) ∧ answer_ok s' a.
Proof using supply_ok supply_worth supply_length max_digit_bound supply_digits amounts_fit.
  intros Hs Hlen. revert fee optimizations s Hs.
  induction fuel as [|fuel IH]; intros fee optimizations s Hs Hfee Hopt Hfuel; [lia|].
  destruct amounts_fit as (Ht & Hta & Hmf & Hfpb & Heff & Hb).
  cbn [select_loop]. rewrite (u64_small (total_amount + fee)) by lia.
  destruct (select_for_total_ok (total_amount + fee) s optimizations Hs Hlen) as (s1 & found & -> & Hs1 & Hf).
  cbn [mbind result_bind]. destruct found; cbn [negb].
  2: { eexists _, _. split; [reflexivity|]. left. split; [done|]. exists fee. split; [lia|].
       by apply (exhausted _ s1). }
  cbn in Hf. rewrite (proj2 (Z.eqb_neq threshold 0)) by lia. cbn [mbind result_bind mret result_ret].
  destruct (part_bounds _ _ (se_perm s1 Hs1)) as (Hw & _ & _). rewrite <- (se_total s1 Hs1) in Hw.
  rewrite (u64_small (used_total s1 - total_amount - fee)) by lia.
  set (cdf := (used_total s1 - total_amount - fee) mod threshold).
  assert (0 ≤ cdf < threshold) as Hcdf by by apply Z.mod_pos_bound.
  set (tx_size := get_maximum_tx_size (inputs_count s1) (u64 (total_outputs + 8)) anonymity).
  assert (0 ≤ tx_size) as Htx by (unfold tx_size, get_maximum_tx_size; apply u64_bound).
  destruct (unoptimize_ok s1 Hs1) as [Hs2 _].
  destruct (_ && _) eqn:Hagain.
  { apply andb_true_iff in Hagain as [_ Hpos%Z.ltb_lt].
    assert (0 ≤ (if optimizations / 2 <? 10 then 0 else optimizations / 2) < optimizations) as Hless
      by (destruct (_ <? _); Z.div_mod_to_equations; lia).
    apply IH; [done|done|lia|]. unfold rounds in *. lia. }
  destruct (Z.ltb_spec effective_median_size tx_size) as [Hbig|Hfits].
  { eexists _, _. split; [reflexivity|]. right. split; [done|].
    exists (optimization_unspents s1), (coins s1). split; [apply (se_perm s1 Hs1)|].
    rewrite <- (se_total s1 Hs1). split; [lia|]. unfold size_of. by rewrite <- (se_count s1 Hs1). }
  assert (fee_per_byte * tx_size ≤ fee_per_byte * effective_median_size) as Hsize by nia.
  assert (0 ≤ fee_per_byte * tx_size) by nia.
  rewrite (u64_small (fee_per_byte * tx_size)) by (unfold fee_limit in Hb; lia).
  rewrite (u64_small (fee + cdf)) by lia.
  destruct (Z.leb_spec (fee_per_byte * tx_size) (fee + cdf)) as [Hpay|Hless].
  - eexists _, _. split; [reflexivity|]. cbn [answer_ok]. by apply finish.
  - destruct (next_fee_spec fee cdf (fee_per_byte * tx_size) Hcdf ltac:(lia) Hless Hsize) as [Hn Hq].
    unfold next_fee in *. apply IH; [done|lia|done|].
    pose proof (Z.div_le_mono _ _ threshold Ht (proj2 Hn)). unfold rounds in *. lia.
Qed.

End invariant.

(** ** The stacks made at the start *)

Lemma have_ok_mono M M' m : have_ok M m → M ≤ M' → have_ok M' m.
Proof. intros Hm HM d row Hd. destruct (Hm d row Hd). split; [lia|done]. Qed.

Definition digits_ok (M : Z) (l : list Output) : Prop :=
  Forall (λ un, is_dust (o_amount un) = false → (digit_of (o_amount un)).1 ≤ M) l.

Section create.
#[local] Opaque digit_of.
Context (c : Currency) (h : Height) (t : Timestamp) (confirmed : Height) (us : list Output).

Abbreviation may_use un := (usable c h t confirmed un = true).
Abbreviation add_coin := (λ '(s, max_digit) un,
    if negb (usable c h t confirmed un) then (s, max_digit)
    else if negb (is_dust (o_amount un))
    then (set_coins s (push_have (have_coins s) un) (dust_coins s),
          max_digit `max` (digit_of (o_amount un)).1)
    else (set_coins s (have_coins s) (push_stack (dust_coins s) (o_amount un) un), max_digit)).

Definition created (made : list Output) (r : State * Z) : Prop :=
  returning made us r.2 [] r.1 ∧ optimization_unspents r.1 = [] ∧ 0 ≤ r.2 ≤ 19 ∧ digits_ok r.2 made.

Lemma create_step made r un : created made r → un_ok un →
  created (if decide (may_use un) then un :: made else made) (add_coin r un).
Proof.
  destruct r as [s M]. intros ([Hp Ht Hc Hh Hd Hu Huu Hra] & Ho & HM & Hdig) [Hun Hdust]. cbn in *.
  destruct (usable c h t confirmed un) eqn:Huse; [rewrite decide_True by done|rewrite decide_False by done];
    cbn; [|split; [by constructor|done]].
  destruct (is_dust (o_amount un)) eqn:Hdu; cbn.
  - split; [|split; [done|split; [done|]]].
    + constructor; cbn; try done.
      * unfold coins in *. cbn. rewrite push_stack_items, <- Permutation_middle. by f_equiv.
      * by apply push_stack_ok.
    + constructor; [congruence|exact Hdig].
  - destruct (digit_of_round un Hun Hdu) as (_ & _ & Hd19 & _).
    split; [|split; [done|split; [cbn; lia|]]].
    + constructor; cbn; try done.
      * unfold coins in *. cbn. rewrite push_have_items. cbn. by f_equiv.
      * apply push_have_ok; [eapply have_ok_mono; [exact Hh|]|done|done|]; lia.
    + constructor; [intros _; cbn; lia|]. eapply Forall_impl; [exact Hdig|].
      cbn. intros un' Hun' Hdu'. specialize (Hun' Hdu'). lia.
Qed.

Lemma create_all l made r : created made r → Forall un_ok l →
  ∃ made', created made' (foldl add_coin r l) ∧ made' ≡ₚ made ++ filter (λ un, may_use un) l.
Proof.
  intros Hr Hl. revert made r Hr. induction Hl as [|un l Hun _ IH]; intros made r Hr.
  { exists made. split; [done|]. by rewrite app_nil_r. }
  destruct (IH _ _ (create_step made r un Hr Hun)) as (made' & Hm & Hp).
  exists made'. split; [exact Hm|]. rewrite Hp, filter_cons. case_decide; [|done].
  by rewrite <- Permutation_middle.
Qed.

Lemma create_have_coins_ok : Forall un_ok us →
  ∃ s M supply, create_have_coins c h t confirmed (reset us) = (s, M) ∧
    (∀ anonymity, selecting supply us M anonymity s) ∧ 0 ≤ M ≤ 19 ∧ digits_ok M supply ∧
    supply ≡ₚ filter (λ un, may_use un) us.
Proof.
  intros Hus.
  assert (created [] (reset us, 0)) as H0.
  { split; [|split; [done|split; [cbn; lia|constructor]]].
    constructor; cbn; try done; intros ? ? Hl; by rewrite lookup_empty in Hl. }
  destruct (create_all (rev us) [] _ H0) as (supply & Hc & Hp).
  { by apply List.Forall_rev. }
  change (foldl _ _ _) with (create_have_coins c h t confirmed (reset us)) in Hc.
  destruct (create_have_coins c h t confirmed (reset us)) as [s M].
  destruct Hc as ([Hperm Htot Hcnt Hh Hd Hu Huu Hra] & Ho & HM & Hdig). cbn in *.
  exists s, M, supply. split; [done|]. split; [|split; [done|split; [done|]]].
  - intros anonymity. constructor; rewrite ?Ho; done.
  - by rewrite Hp, <- (Permutation_rev us).
Qed.

End create.

(** ** The selector *)

Definition limit_of (effective_median_size : Z) : Z := 120 * effective_median_size / 100.

Section theorem.
Context (c : Currency) (us : list Output) (h : Height) (t : Timestamp) (confirmed : Height).
Context (effective_median_size anonymity total_amount total_outputs fee_per_byte : Z) (level : string).

Abbreviation candidates := (filter (λ un, usable c h t confirmed un = true) us).

Lemma select_optimal_outputs_ok fuel :
  Forall un_ok us → worth us < 2 ^ 64 → Z.of_nat (length us) < 2 ^ 64 →
  0 ≤ effective_median_size → 120 * effective_median_size < 2 ^ 64 →
  amounts_ok c total_amount fee_per_byte (limit_of effective_median_size) →
  (rounds c fee_per_byte (limit_of effective_median_size) 200 (minimum_fee c) < fuel)%nat →
  ∃ s a,
    select_optimal_outputs c fuel h t confirmed effective_median_size anonymity total_amount total_outputs
      fee_per_byte level (reset us) = Ok (s, a) ∧
    answer_ok candidates anonymity c total_amount total_outputs fee_per_byte (limit_of effective_median_size) s a.
Proof.
  intros Hus Hw Hl He0 He Ham Hfuel. unfold select_optimal_outputs. rewrite (u64_small (120 * _)) by lia.
  change (set_coins (reset us) ∅ ∅) with (reset us).
  destruct (create_have_coins_ok c h t confirmed us Hus) as (s0 & M & supply & -> & Hsel & HM & Hdig & Hsup).
  assert (Forall un_ok supply) as Hok by 
    by (rewrite Hsup; rewrite Forall_forall in *; intros un [_ Hin]%list_elem_of_filter; by apply Hus).
  assert (worth supply < 2 ^ 64) as Hsw.
  { rewrite Hsup. eapply Z.le_lt_trans; [apply worth_filter_le|exact Hw].
    eapply Forall_impl; [exact Hus|]. by intros un [[] _]. }
  assert (length supply ≤ length us)%nat as Hsl by (rewrite Hsup; apply length_filter).
  fold (limit_of effective_median_size).
  set (opt := if String.eqb _ _ then OPTIMIZATIONS_PER_TX_AGGRESSIVE else _).
  assert (0 ≤ opt ≤ 200) as Hopt.
  { unfold opt, OPTIMIZATIONS_PER_TX_AGGRESSIVE, OPTIMIZATIONS_PER_TX.
    destruct (String.eqb _ _); [lia|]. destruct (String.eqb _ _); lia. }
  destruct (select_loop_ok supply us M anonymity Hok Hsw ltac:(lia) (proj2 HM) Hdig c total_amount total_outputs
    fee_per_byte (limit_of effective_median_size) Ham fuel
    (u64 (limit_of effective_median_size * (if String.eqb level "aggressive" then MEDIAN_PERCENT_AGGRESSIVE else MEDIAN_PERCENT)) / 100)
    (minimum_fee c) opt s0 (Hsel anonymity) Hsl) as (s & a & Hrun & Ha).
  - unfold fee_limit. lia.
  - lia.
  - unfold rounds in *. lia.
  - exists s, a. split; [exact Hrun|]. destruct a; cbn in *.
    + destruct Ha as (rest & fee & Hp & Hrest). exists rest, fee. by rewrite <- Hsup.
    + destruct Ha as [[? (fee & Hfee & Hlt)]|[? (chosen & rest & Hp & Hrest)]]; [left|right];
        (split; [done|]); [exists fee|exists chosen, rest]; by rewrite <- Hsup.
Qed.

(** C12: Coin selection always returns.  What it selects are distinct coins of
    the wallet that are confirmed and unlocked (and, where inputs are mixed,
    no dust); together they are worth exactly the amount to send, a fee that
    covers the bytes of the transaction they make and at least the minimum
    fee, and the change, a multiple of the dust threshold.  It answers
    NOT_ENOUGH_FUNDS only if all eligible coins together are worth less than
    the amount and a fee within its limit. *)
Theorem selection_pays fuel :
  Forall un_ok us → worth us < 2 ^ 64 → Z.of_nat (length us) < 2 ^ 64 →
  0 ≤ effective_median_size → 120 * effective_median_size < 2 ^ 64 →
  amounts_ok c total_amount fee_per_byte (limit_of effective_median_size) →
  (rounds c fee_per_byte (limit_of effective_median_size) 200 (minimum_fee c) < fuel)%nat →
  ∃ s a,
    select_optimal_outputs c fuel h t confirmed effective_median_size anonymity total_amount total_outputs
      fee_per_byte level (reset us) = Ok (s, a) ∧
    answer_ok candidates anonymity c total_amount total_outputs fee_per_byte (limit_of effective_median_size) s a.
Proof. apply select_optimal_outputs_ok. Qed.

End theorem.

(** *** A purse: a stack of equal coins, larger ones and dust *)

Definition coin (global_index amount : Z) : Output :=
  {| o_amount := amount; o_public_key := []; o_global_index := global_index; o_unlock_time := 0;
     o_index_in_transaction := 0; o_height := 5; o_key_image := []; o_transaction_public_key := [];
     o_address := []; o_dust := is_dust amount |}.

Definition purse : list Output :=
  ((λ gi, coin gi 3000000) <$> seqZ 0 24) ++
  [coin 30 70000000; coin 31 700; coin 32 5000000; coin 33 20000000; coin 34 40000000].

Definition pick (anonymity total_amount : Z) : option (list Amount * answer) :=
  match select_optimal_outputs mainnet 400 100 0 50 20000 anonymity total_amount 2 100 "normal" (reset purse) with
  | Ok (s, a) => Some (o_amount <$> used_unspents s, a)
  | _ => None
  end.

Example pick_mixed : pick 3 50000000 = Some ([3000000; 70000000], Selected 22000000).
Proof. vm_compute. reflexivity. Qed.
Example pick_too_much : pick 3 209000700 = Some ([], Failed "NOT_ENOUGH_FUNDS").
Proof. vm_compute. reflexivity. Qed.

Lemma selection_pays_witness :
  ∃ s a,
    select_optimal_outputs mainnet 400 100 0 50 20000 3 50000000 2 100 "normal" (reset purse) = Ok (s, a) ∧
    answer_ok (filter (λ un, usable mainnet 100 0 50 un = true) purse) 3 mainnet 50000000 2 100 (limit_of 20000) s a.
Proof.
  apply (selection_pays mainnet purse 100 0 50 20000 3 50000000 2 100 "normal" 400).
  - apply (bool_decide_unpack _). vm_compute. exact I.
  - vm_compute. reflexivity.
  - vm_compute. reflexivity.
  - lia.
  - vm_compute. reflexivity.
  - unfold amounts_ok. vm_compute. repeat split; (reflexivity || discriminate).
  - vm_compute. lia.
Defined.

End SelectorLaws.
