(* ===== verification/Scalars.v ===== *)
(** * Arithmetic of scalars (src/src/crypto/crypto-ops.c: [sc_reduce], [sc_reduce32],
    [sc_add], [sc_sub], [sc_mulsub], [sc_isvalid_vartime], [sc_iszero];
    crypto-util.c: [sodium_is_zero])

    Scalars are integers modulo the order of the base point, as 32 bytes.  The
    routines work on limbs of 21 bits in signed 64-bit variables: limbs are
    carried into the next one, and the limbs above the twelfth are folded into
    the lower ones.  The straight-line code consists of four kinds of
    statement groups; a routine is the list of them in the order of the
    source.  Every assignment is checked against the range of [int64_t];
    the shift [carry << 21] is the product every compiler makes of it. *)

From S2P Require Import Prelude Containers.
Import Containers.

Local Open Scope Z_scope.

Module Scalars.

(** The order of the base point. *)
Definition order : Z := 2 ^ 252 + 27742317777372353535851937790883648493.

(** ** Loading and storing *)

Definition byte_at (s : list Z) (i : nat) : Z := nth i s 0.

Definition load_3 (s : list Z) (i : nat) : Z :=
  Z.lor (Z.lor (byte_at s i) (Z.shiftl (byte_at s (i + 1)) 8)) (Z.shiftl (byte_at s (i + 2)) 16).
Definition load_4 (s : list Z) (i : nat) : Z :=
  Z.lor (Z.lor (Z.lor (byte_at s i) (Z.shiftl (byte_at s (i + 1)) 8)) (Z.shiftl (byte_at s (i + 2)) 16))
        (Z.shiftl (byte_at s (i + 3)) 24).

(** The limbs [s0] to [s11] of 32 bytes, and [s0] to [s23] of 64. *)
Definition load_scalar (s : list Z) : list Z :=
  [ Z.land 2097151 (load_3 s 0);
    Z.land 2097151 (Z.shiftr (load_4 s 2) 5);
    Z.land 2097151 (Z.shiftr (load_3 s 5) 2);
    Z.land 2097151 (Z.shiftr (load_4 s 7) 7);
    Z.land 2097151 (Z.shiftr (load_4 s 10) 4);
    Z.land 2097151 (Z.shiftr (load_3 s 13) 1);
    Z.land 2097151 (Z.shiftr (load_4 s 15) 6);
    Z.land 2097151 (Z.shiftr (load_3 s 18) 3);
    Z.land 2097151 (load_3 s 21);
    Z.land 2097151 (Z.shiftr (load_4 s 23) 5);
    Z.land 2097151 (Z.shiftr (load_3 s 26) 2);
    Z.shiftr (load_4 s 28) 7 ].

Definition load_wide (s : list Z) : list Z :=
  [ Z.land 2097151 (load_3 s 0);
    Z.land 2097151 (Z.shiftr (load_4 s 2) 5);
    Z.land 2097151 (Z.shiftr (load_3 s 5) 2);
    Z.land 2097151 (Z.shiftr (load_4 s 7) 7);
    Z.land 2097151 (Z.shiftr (load_4 s 10) 4);
    Z.land 2097151 (Z.shiftr (load_3 s 13) 1);
    Z.land 2097151 (Z.shiftr (load_4 s 15) 6);
    Z.land 2097151 (Z.shiftr (load_3 s 18) 3);
    Z.land 2097151 (load_3 s 21);
    Z.land 2097151 (Z.shiftr (load_4 s 23) 5);
    Z.land 2097151 (Z.shiftr (load_3 s 26) 2);
    Z.land 2097151 (Z.shiftr (load_4 s 28) 7);
    Z.land 2097151 (Z.shiftr (load_4 s 31) 4);
    Z.land 2097151 (Z.shiftr (load_3 s 34) 1);
    Z.land 2097151 (Z.shiftr (load_4 s 36) 6);
    Z.land 2097151 (Z.shiftr (load_3 s 39) 3);
    Z.land 2097151 (load_3 s 42);
    Z.land 2097151 (Z.shiftr (load_4 s 44) 5);
    Z.land 2097151 (Z.shiftr (load_3 s 47) 2);
    Z.land 2097151 (Z.shiftr (load_4 s 49) 7);
    Z.land 2097151 (Z.shiftr (load_4 s 52) 4);
    Z.land 2097151 (Z.shiftr (load_3 s 55) 1);
    Z.land 2097151 (Z.shiftr (load_4 s 57) 6);
    Z.shiftr (load_4 s 60) 3 ].

(** The 32 assignments to the bytes of the result. *)
Definition store_scalar (s : list Z) : list Z :=
  match s with
  | s0 :: s1 :: s2 :: s3 :: s4 :: s5 :: s6 :: s7 :: s8 :: s9 :: s10 :: s11 :: _ =>
  [ u8 (Z.shiftr s0 0);
    u8 (Z.shiftr s0 8);
    u8 (Z.lor (Z.shiftr s0 16) (Z.shiftl s1 5));
    u8 (Z.shiftr s1 3);
    u8 (Z.shiftr s1 11);
    u8 (Z.lor (Z.shiftr s1 19) (Z.shiftl s2 2));
    u8 (Z.shiftr s2 6);
    u8 (Z.lor (Z.shiftr s2 14) (Z.shiftl s3 7));
    u8 (Z.shiftr s3 1);
    u8 (Z.shiftr s3 9);
    u8 (Z.lor (Z.shiftr s3 17) (Z.shiftl s4 4));
    u8 (Z.shiftr s4 4);
    u8 (Z.shiftr s4 12);
    u8 (Z.lor (Z.shiftr s4 20) (Z.shiftl s5 1));
    u8 (Z.shiftr s5 7);
    u8 (Z.lor (Z.shiftr s5 15) (Z.shiftl s6 6));
    u8 (Z.shiftr s6 2);
    u8 (Z.shiftr s6 10);
    u8 (Z.lor (Z.shiftr s6 18) (Z.shiftl s7 3));
    u8 (Z.shiftr s7 5);
    u8 (Z.shiftr s7 13);
    u8 (Z.shiftr s8 0);
    u8 (Z.shiftr s8 8);
    u8 (Z.lor (Z.shiftr s8 16) (Z.shiftl s9 5));
    u8 (Z.shiftr s9 3);
    u8 (Z.shiftr s9 11);
    u8 (Z.lor (Z.shiftr s9 19) (Z.shiftl s10 2));
    u8 (Z.shiftr s10 6);
    u8 (Z.lor (Z.shiftr s10 14) (Z.shiftl s11 7));
    u8 (Z.shiftr s11 1);
    u8 (Z.shiftr s11 9);
    u8 (Z.shiftr s11 17) ]
  | _ => []
  end.

(** ** Statement groups *)

Definition limb (s : list Z) (i : nat) : Z := nth i s 0.

Definition int64 (z : Z) : result Z :=
  if (- 2 ^ 63 <=? z) && (z <? 2 ^ 63) then mret z else Undefined "signed overflow".

(** [s_i += z] *)
Definition add_to (i : nat) (z : Z) (s : list Z) : result (list Z) :=
  v ← int64 (limb s i + z); mret (<[i := v]> s).

(** [s_i += s_k * c] and [s_i -= s_k * c] *)
Definition add_mul (i : nat) (c : Z) (k : nat) (s : list Z) : result (list Z) :=
  p ← int64 (limb s k * c); add_to i p s.
Definition sub_mul (i : nat) (c : Z) (k : nat) (s : list Z) : result (list Z) :=
  p ← int64 (limb s k * c); add_to i (- p) s.

(** [s_(i+1) += carry; s_i -= carry << 21] *)
Definition move (i : nat) (carry : Z) (s : list Z) : result (list Z) :=
  s ← add_to (S i) carry s;
  p ← int64 (Z.shiftl carry 21);
  add_to i (- p) s.

Inductive step :=
| round_carry (i : nat)   (* carry_i = (s_i + (1<<20)) >> 21; ... *)
| carry (i : nat)         (* carry_i = s_i >> 21; ... *)
| fold (i : nat)          (* s_i in terms of s_(i-12) to s_(i-7) *)
| clear (i : nat).        (* s_i = 0 *)

Definition run_step (t : step) (s : list Z) : result (list Z) :=
  match t with
  | round_carry i => v ← int64 (limb s i + Z.shiftl 1 20); move i (Z.shiftr v 21) s
  | carry i => move i (Z.shiftr (limb s i) 21) s
  | fold i =>
      s ← add_mul (i - 12) 666643 i s;
      s ← add_mul (i - 11) 470296 i s;
      s ← add_mul (i - 10) 654183 i s;
      s ← sub_mul (i - 9) 997805 i s;
      s ← add_mul (i - 8) 136657 i s;
      sub_mul (i - 7) 683901 i s
  | clear i => mret (<[i := 0]> s)
  end.

Definition run (program : list step) (s : list Z) : result (list Z) :=
  for_each (λ s t, run_step t s) program s.

(** ** The routines *)

(** The end of every routine: the value is brought between zero and the order. *)
Definition canonical : list step :=
  [carry 0; carry 1; carry 2; carry 3; carry 4; carry 5; carry 6; carry 7; carry 8; carry 9;
    carry 10; carry 11; fold 12; carry 0; carry 1; carry 2; carry 3; carry 4; carry 5; carry 6;
    carry 7; carry 8; carry 9; carry 10].

Definition reduce_wide : list step :=
  [fold 23; fold 22; fold 21; fold 20; fold 19; fold 18; round_carry 6; round_carry 8;
    round_carry 10; round_carry 12; round_carry 14; round_carry 16; round_carry 7;
    round_carry 9; round_carry 11; round_carry 13; round_carry 15; fold 17; fold 16; fold 15;
    fold 14; fold 13; fold 12; clear 12; round_carry 0; round_carry 2; round_carry 4;
    round_carry 6; round_carry 8; round_carry 10; round_carry 1; round_carry 3; round_carry 5;
    round_carry 7; round_carry 9; round_carry 11; fold 12; clear 12].

Definition reduce_narrow : list step :=
  [round_carry 0; round_carry 2; round_carry 4; round_carry 6; round_carry 8; round_carry 10;
    round_carry 1; round_carry 3; round_carry 5; round_carry 7; round_carry 9; round_carry 11;
    fold 12; clear 12].

Definition reduce_product : list step :=
  [round_carry 0; round_carry 2; round_carry 4; round_carry 6; round_carry 8; round_carry 10;
    round_carry 12; round_carry 14; round_carry 16; round_carry 18; round_carry 20;
    round_carry 22; round_carry 1; round_carry 3; round_carry 5; round_carry 7; round_carry 9;
    round_carry 11; round_carry 13; round_carry 15; round_carry 17; round_carry 19;
    round_carry 21; fold 23; fold 22; fold 21; fold 20; fold 19; fold 18; round_carry 6;
    round_carry 8; round_carry 10; round_carry 12; round_carry 14; round_carry 16;
    round_carry 7; round_carry 9; round_carry 11; round_carry 13; round_carry 15; fold 17;
    fold 16; fold 15; fold 14; fold 13; fold 12; clear 12; round_carry 0; round_carry 2;
    round_carry 4; round_carry 6; round_carry 8; round_carry 10; round_carry 1; round_carry 3;
    round_carry 5; round_carry 7; round_carry 9; round_carry 11; fold 12; clear 12].

Definition sc_0 : list Z := replicate 32 0.

Definition sc_reduce (s : list Z) : result (list Z) :=
  s ← run (reduce_wide ++ canonical) (load_wide s); mret (store_scalar s).

Definition sc_reduce32 (s : list Z) : result (list Z) :=
  s ← run (reduce_narrow ++ canonical) (load_scalar s ++ [0]); mret (store_scalar s).

(** [s_i = a_i + b_i], or [a_i - b_i], and [s12 = 0]. *)
Definition sc_add (a b : list Z) : result (list Z) :=
  s ← run (reduce_narrow ++ canonical) (zip_with Z.add (load_scalar a) (load_scalar b) ++ [0]);
  mret (store_scalar s).

Definition sc_sub (a b : list Z) : result (list Z) :=
  s ← run (reduce_narrow ++ canonical) (zip_with Z.sub (load_scalar a) (load_scalar b) ++ [0]);
  mret (store_scalar s).

(** The limbs of [c - a * b]; the summands of a limb of the product are not
    negative, so the sum is the largest intermediate value. *)
Definition product_limbs (a b c : list Z) : list Z :=
  match a, b, c with
  | [a0; a1; a2; a3; a4; a5; a6; a7; a8; a9; a10; a11],
    [b0; b1; b2; b3; b4; b5; b6; b7; b8; b9; b10; b11],
    [c0; c1; c2; c3; c4; c5; c6; c7; c8; c9; c10; c11] =>
  [ c0 - a0 * b0;
    c1 - (a0 * b1 + a1 * b0);
    c2 - (a0 * b2 + a1 * b1 + a2 * b0);
    c3 - (a0 * b3 + a1 * b2 + a2 * b1 + a3 * b0);
    c4 - (a0 * b4 + a1 * b3 + a2 * b2 + a3 * b1 + a4 * b0);
    c5 - (a0 * b5 + a1 * b4 + a2 * b3 + a3 * b2 + a4 * b1 + a5 * b0);
    c6 - (a0 * b6 + a1 * b5 + a2 * b4 + a3 * b3 + a4 * b2 + a5 * b1 + a6 * b0);
    c7 - (a0 * b7 + a1 * b6 + a2 * b5 + a3 * b4 + a4 * b3 + a5 * b2 + a6 * b1 + a7 * b0);
    c8 - (a0 * b8 + a1 * b7 + a2 * b6 + a3 * b5 + a4 * b4 + a5 * b3 + a6 * b2 + a7 * b1 + a8 * b0);
    c9 - (a0 * b9 + a1 * b8 + a2 * b7 + a3 * b6 + a4 * b5 + a5 * b4 + a6 * b3 + a7 * b2 + a8 * b1 + a9 * b0);
    c10 - (a0 * b10 + a1 * b9 + a2 * b8 + a3 * b7 + a4 * b6 + a5 * b5 + a6 * b4 + a7 * b3 + a8 * b2 + a9 * b1 + a10 * b0);
    c11 - (a0 * b11 + a1 * b10 + a2 * b9 + a3 * b8 + a4 * b7 + a5 * b6 + a6 * b5 + a7 * b4 + a8 * b3 + a9 * b2 + a10 * b1 + a11 * b0);
    - (a1 * b11 + a2 * b10 + a3 * b9 + a4 * b8 + a5 * b7 + a6 * b6 + a7 * b5 + a8 * b4 + a9 * b3 + a10 * b2 + a11 * b1);
    - (a2 * b11 + a3 * b10 + a4 * b9 + a5 * b8 + a6 * b7 + a7 * b6 + a8 * b5 + a9 * b4 + a10 * b3 + a11 * b2);
    - (a3 * b11 + a4 * b10 + a5 * b9 + a6 * b8 + a7 * b7 + a8 * b6 + a9 * b5 + a10 * b4 + a11 * b3);
    - (a4 * b11 + a5 * b10 + a6 * b9 + a7 * b8 + a8 * b7 + a9 * b6 + a10 * b5 + a11 * b4);
    - (a5 * b11 + a6 * b10 + a7 * b9 + a8 * b8 + a9 * b7 + a10 * b6 + a11 * b5);
    - (a6 * b11 + a7 * b10 + a8 * b9 + a9 * b8 + a10 * b7 + a11 * b6);
    - (a7 * b11 + a8 * b10 + a9 * b9 + a10 * b8 + a11 * b7);
    - (a8 * b11 + a9 * b10 + a10 * b9 + a11 * b8);
    - (a9 * b11 + a10 * b10 + a11 * b9);
    - (a10 * b11 + a11 * b10);
    - a11 * b11;
    0 ]
  | _, _, _ => []
  end.

Fixpoint all_int64 (s : list Z) : result (list Z) :=
  match s with
  | [] => mret []
  | z :: s => z ← int64 z; s ← all_int64 s; mret (z :: s)
  end.

Definition sc_mulsub (a b c : list Z) : result (list Z) :=
  s ← all_int64 (product_limbs (load_scalar a) (load_scalar b) (load_scalar c));
  s ← run (reduce_product ++ canonical) s;
  mret (store_scalar s).

(** ** Tests *)

Definition signum (a : Z) : Z := Z.shiftr a 63 - Z.shiftr (- a) 63.

Definition sc_isvalid_vartime (s : list Z) : bool :=
  Z.shiftr (signum (1559614444 - load_4 s 0) + Z.shiftl (signum (1477600026 - load_4 s 4)) 1 +
    Z.shiftl (signum (2734136534 - load_4 s 8)) 2 + Z.shiftl (signum (350157278 - load_4 s 12)) 3 +
    Z.shiftl (signum (- load_4 s 16)) 4 + Z.shiftl (signum (- load_4 s 20)) 5 +
    Z.shiftl (signum (- load_4 s 24)) 6 + Z.shiftl (signum (268435456 - load_4 s 28)) 7) 8 =? 0.

(** [1 & ((d - 1) >> 8)] *)
Definition sodium_is_zero (n : list Z) : bool :=
  negb (Z.land 1 (Z.shiftr (foldl Z.lor 0 n - 1) 8) =? 0).

Definition sc_iszero (s : list Z) : bool := sodium_is_zero s.

End Scalars.
