(* ===== verification/ScalarLaws.v ===== *)
(** * Arithmetic of scalars: theorems

    The routines of Scalars.v compute modulo the order of the base point and
    return the canonical representative, without leaving [int64_t].  The range
    of every limb is followed through a routine by interval arithmetic, proved
    sound once and evaluated for each routine. *)

From S2P Require Import Prelude Containers Scalars.
Import Containers Scalars.

Local Open Scope Z_scope.

Module ScalarLaws.

(** ** The value of limbs *)

Fixpoint value (n : nat) (s : list Z) : Z :=
  match n with
  | O => 0
  | S n => value n s + limb s n * 2 ^ (21 * Z.of_nat n)
  end.

Lemma limb_insert s i j v : (i < length s)%nat →
  limb (<[i := v]> s) j = if decide (j = i) then v else limb s j.
Proof.
  intros Hi. unfold limb. rewrite !nth_lookup. case_decide as Hj.
  - subst. by rewrite list_lookup_insert_eq.
  - by rewrite list_lookup_insert_ne.
Qed.

Lemma value_insert n s i v : (i < length s)%nat →
  value n (<[i := v]> s) = value n s + if decide (i < n)%nat then (v - limb s i) * 2 ^ (21 * Z.of_nat i) else 0.
Proof.
  intros Hi. induction n as [|n IH]; [done|]. cbn [value]. rewrite IH, limb_insert by done.
  destruct (decide (n = i)) as [->|Hn].
  - rewrite decide_False, decide_True by lia. lia.
  - destruct (decide (i < n)%nat); [rewrite decide_True by lia|rewrite decide_False by lia]; lia.
Qed.

Lemma int64_inv z v : int64 z = Ok v → v = z.
Proof. unfold int64. destruct (_ && _); [by intros [= <-]|done]. Qed.

(** What an assignment [s_i += z] does to the value of the first [n] limbs. *)
Definition added (i : nat) (z : Z) (s s' : list Z) : Prop :=
  length s' = length s ∧ (∀ j, j ≠ i → limb s' j = limb s j) ∧
  ∀ n, value n s' = value n s + if decide (i < n)%nat then z * 2 ^ (21 * Z.of_nat i) else 0.

Lemma add_to_added i z s s' : (i < length s)%nat → add_to i z s = Ok s' → added i z s s'.
Proof.
  intros Hi H. unfold add_to in H. inv_ok H. injection H as <-. apply int64_inv in Ha. subst a.
  split; [by rewrite length_insert|]. split.
  - intros j Hj. rewrite limb_insert by done. by rewrite decide_False.
  - intros n. rewrite value_insert by done. case_decide; lia.
Qed.

Lemma add_mul_added i c k s s' : (i < length s)%nat → add_mul i c k s = Ok s' → added i (limb s k * c) s s'.
Proof.
  intros Hi H. unfold add_mul in H. inv_ok H. apply int64_inv in Ha. subst a. by apply add_to_added.
Qed.
Lemma sub_mul_added i c k s s' : (i < length s)%nat → sub_mul i c k s = Ok s' → added i (- (limb s k * c)) s s'.
Proof.
  intros Hi H. unfold sub_mul in H. inv_ok H. apply int64_inv in Ha. subst a. by apply add_to_added.
Qed.

(** ** The statement groups keep the value modulo the order *)

(** How many limbs are in use after a step. *)
Definition live_step (t : step) (n : nat) : option nat :=
  match t with
  | round_carry i | carry i => if decide (S i < n)%nat then Some n else None
  | fold i => if decide (n = S i ∧ 12 ≤ i)%nat then Some i else None
  | clear i => if decide (n = i) then Some (S i) else None
  end.

(** What is taken from the value: the limb that is folded, times the order. *)
Definition folded (t : step) (s : list Z) : Z :=
  match t with
  | fold i => limb s i * 2 ^ (21 * Z.of_nat (i - 12)) * order
  | _ => 0
  end.

Lemma move_value i c s s' n : (S i < n)%nat → (n ≤ length s)%nat → move i c s = Ok s' →
  length s' = length s ∧ value n s' = value n s.
Proof.
  intros Hi Hn H. unfold move in H. inv_ok H. apply int64_inv in Ha0. subst a0.
  apply add_to_added in Ha as (Hl1 & _ & Hv1); [|lia].
  apply add_to_added in H as (Hl2 & _ & Hv2); [|lia].
  split; [congruence|]. rewrite Hv2, Hv1, !decide_True by lia.
  rewrite Z.shiftl_mul_pow2 by lia.
  replace (21 * Z.of_nat (S i)) with (21 * Z.of_nat i + 21) by lia. rewrite Z.pow_add_r by lia. lia.
Qed.

Lemma order_digits : order = 2 ^ 252 - (666643 + 470296 * 2 ^ 21 + 654183 * 2 ^ 42 - 997805 * 2 ^ 63
  + 136657 * 2 ^ 84 - 683901 * 2 ^ 105).
Proof. reflexivity. Qed.

Lemma fold_value i s s' : (12 ≤ i)%nat → (i < length s)%nat → run_step (fold i) s = Ok s' →
  length s' = length s ∧ value i s' = value (S i) s - folded (fold i) s.
Proof.
  intros Hi Hl H. cbn [run_step] in H. inv_ok H.
  apply add_mul_added in Ha as (L1 & K1 & V1); [|lia].
  apply add_mul_added in Ha0 as (L2 & K2 & V2); [|lia].
  apply add_mul_added in Ha1 as (L3 & K3 & V3); [|lia].
  apply sub_mul_added in Ha2 as (L4 & K4 & V4); [|lia].
  apply add_mul_added in Ha3 as (L5 & K5 & V5); [|lia].
  apply sub_mul_added in H as (L6 & K6 & V6); [|lia].
  split; [congruence|].
  rewrite V6, K5, V5, K4, V4, K3, V3, K2, V2, K1, V1 by lia. rewrite !decide_True by lia.
  cbn [value folded]. rewrite order_digits. set (x := limb s i).
  replace (21 * Z.of_nat (i - 11)) with (21 * Z.of_nat (i - 12) + 21) by lia.
  replace (21 * Z.of_nat (i - 10)) with (21 * Z.of_nat (i - 12) + 42) by lia.
  replace (21 * Z.of_nat (i - 9)) with (21 * Z.of_nat (i - 12) + 63) by lia.
  replace (21 * Z.of_nat (i - 8)) with (21 * Z.of_nat (i - 12) + 84) by lia.
  replace (21 * Z.of_nat (i - 7)) with (21 * Z.of_nat (i - 12) + 105) by lia.
  replace (21 * Z.of_nat i) with (21 * Z.of_nat (i - 12) + 252) by lia.
  rewrite !Z.pow_add_r by lia. set (p := 2 ^ (21 * Z.of_nat (i - 12))). ring.
Qed.

Lemma step_value t s s' n n' : live_step t n = Some n' → (n ≤ length s)%nat → (n' ≤ length s)%nat →
  run_step t s = Ok s' → length s' = length s ∧ value n' s' = value n s - folded t s.
Proof.
  intros Hl Hn Hn' H. destruct t as [i|i|i|i]; cbn [live_step] in Hl; case_decide as Hd; try done;
    injection Hl as <-.
  - cbn [run_step] in H. inv_ok H. cbn [folded]. rewrite Z.sub_0_r. by eapply move_value.
  - cbn [folded]. rewrite Z.sub_0_r. by eapply move_value.
  - destruct Hd as [-> Hi]. by apply fold_value.
  - subst i. injection H as <-. split; [by rewrite length_insert|].
    cbn [value folded]. rewrite value_insert, limb_insert by lia.
    rewrite decide_False, decide_True by lia. lia.
Qed.

Fixpoint live (program : list step) (n : nat) (bound : nat) : option nat :=
  match program with
  | [] => Some n
  | t :: program =>
    n' ← live_step t n;
    if decide (n ≤ bound ∧ n' ≤ bound)%nat then live program n' bound else None
  end.

Definition is_fold (t : step) : bool := match t with fold _ => true | _ => false end.

Lemma run_value program s s' n n' : live program n (length s) = Some n' → run program s = Ok s' →
  length s' = length s ∧ (∃ k, value n' s' = value n s + k * order) ∧
  (forallb (λ t, negb (is_fold t)) program = true → value n' s' = value n s).
Proof.
  unfold run. revert s n. induction program as [|t program IH]; intros s n Hl H.
  { injection Hl as <-. injection H as <-. split; [done|]. split; [exists 0; lia|done]. }
  cbn [live] in Hl. destruct (live_step t n) as [n1|] eqn:Ht; [|done]. cbn in Hl. case_decide as Hb; [|done].
  cbn [for_each] in H. inv_ok H. rename a into s1.
  destruct (step_value t s s1 n n1 Ht (proj1 Hb) (proj2 Hb) Ha) as [Hlen Hv].
  rewrite <- Hlen in Hl. destruct (IH s1 n1 Hl H) as (Hlen' & [k Hk] & Hsame).
  split; [congruence|]. split.
  - rewrite Hk, Hv. destruct t as [i|i|i|i]; cbn [folded]; [exists k|exists k| |exists k]; try lia.
    exists (k - limb s i * 2 ^ (21 * Z.of_nat (i - 12))). ring.
  - cbn. intros [Hnf Hall]%andb_true_iff. rewrite (Hsame Hall), Hv. destruct t; cbn in *; [lia|lia|done|lia].
Qed.

(** ** Intervals *)

Abbreviation interval := (Z * Z)%type.

Definition inside (z : Z) (x : interval) : Prop := x.1 ≤ z ≤ x.2.
Definition within : list Z → list interval → Prop := Forall2 inside.

Definition iv_at (iv : list interval) (i : nat) : interval := nth i iv (0, 0).

Definition iv_int64 (x : interval) : option interval :=
  if decide (- 2 ^ 63 ≤ x.1 ∧ x.2 < 2 ^ 63) then Some x else None.

Definition iv_add_to (i : nat) (x : interval) (iv : list interval) : option (list interval) :=
  v ← iv_int64 ((iv_at iv i).1 + x.1, (iv_at iv i).2 + x.2); Some (<[i := v]> iv).

Definition iv_mul (x : interval) (c : Z) : interval := (x.1 * c, x.2 * c).
Definition iv_opp (x : interval) : interval := (- x.2, - x.1).

Definition iv_add_mul (i : nat) (c : Z) (k : nat) (iv : list interval) : option (list interval) :=
  p ← iv_int64 (iv_mul (iv_at iv k) c); iv_add_to i p iv.
Definition iv_sub_mul (i : nat) (c : Z) (k : nat) (iv : list interval) : option (list interval) :=
  p ← iv_int64 (iv_mul (iv_at iv k) c); iv_add_to i (iv_opp p) iv.

(** A carry leaves 21 bits behind, whatever the limb was. *)
Definition iv_move (i : nat) (c : interval) (rest : interval) (iv : list interval) : option (list interval) :=
  iv ← iv_add_to (S i) c iv; _ ← iv_int64 (iv_mul c (2 ^ 21)); Some (<[i := rest]> iv).

Definition iv_shiftr (x : interval) : interval := (x.1 / 2 ^ 21, x.2 / 2 ^ 21).

Definition iv_step (t : step) (iv : list interval) : option (list interval) :=
  match t with
  | round_carry i =>
      v ← iv_int64 ((iv_at iv i).1 + 2 ^ 20, (iv_at iv i).2 + 2 ^ 20);
      iv_move i (iv_shiftr v) (- 2 ^ 20, 2 ^ 20 - 1) iv
  | carry i => iv_move i (iv_shiftr (iv_at iv i)) (0, 2 ^ 21 - 1) iv
  | fold i =>
      iv ← iv_add_mul (i - 12) 666643 i iv;
      iv ← iv_add_mul (i - 11) 470296 i iv;
      iv ← iv_add_mul (i - 10) 654183 i iv;
      iv ← iv_sub_mul (i - 9) 997805 i iv;
      iv ← iv_add_mul (i - 8) 136657 i iv;
      iv_sub_mul (i - 7) 683901 i iv
  | clear i => Some (<[i := (0, 0)]> iv)
  end.

Fixpoint iv_run (program : list step) (iv : list interval) : option (list interval) :=
  match program with
  | [] => Some iv
  | t :: program => iv ← iv_step t iv; iv_run program iv
  end.

Lemma within_at s iv i : within s iv → inside (limb s i) (iv_at iv i).
Proof.
  intros H. revert i. induction H as [|z x s iv Hz _ IH]; intros i; [by destruct i|].
  destruct i; [exact Hz|apply IH].
Qed.

Lemma within_insert s iv i z x : within s iv → inside z x → within (<[i := z]> s) (<[i := x]> iv).
Proof. intros H Hz. by apply Forall2_insert. Qed.

Lemma int64_ok z x y : inside z x → iv_int64 x = Some y → int64 z = Ok z ∧ y = x.
Proof.
  unfold iv_int64, int64, inside. intros Hz. case_decide as Hx; [|done]. intros [= <-].
  rewrite (proj2 (Z.leb_le _ _)), (proj2 (Z.ltb_lt _ _)) by lia. done.
Qed.

(** A computation on limbs keeps to the intervals computed for it. *)
Definition keeps (f : list Z → result (list Z)) (g : list interval → option (list interval)) : Prop :=
  ∀ s iv iv', within s iv → g iv = Some iv' → ∃ s', f s = Ok s' ∧ within s' iv'.

Lemma add_to_keeps i z x : inside z x → keeps (add_to i z) (iv_add_to i x).
Proof.
  intros Hz s iv iv' Hs H. unfold iv_add_to in H. apply bind_Some in H as (v & Hv & [= <-]).
  pose proof (within_at s iv i Hs) as Hi.
  assert (inside (limb s i + z) ((iv_at iv i).1 + x.1, (iv_at iv i).2 + x.2)) as Hin
    by (unfold inside in *; cbn; lia).
  destruct (int64_ok _ _ _ Hin Hv) as [He ->]. unfold add_to. rewrite He. cbn.
  eexists. split; [reflexivity|]. by apply within_insert.
Qed.

Lemma mul_inside z x c : 0 ≤ c → inside z x → inside (z * c) (iv_mul x c).
Proof. unfold inside, iv_mul. cbn. nia. Qed.
Lemma opp_inside z x : inside z x → inside (- z) (iv_opp x).
Proof. unfold inside, iv_opp. cbn. lia. Qed.

Lemma add_mul_keeps i c k : 0 ≤ c → keeps (add_mul i c k) (iv_add_mul i c k).
Proof.
  intros Hc s iv iv' Hs H. unfold iv_add_mul in H. apply bind_Some in H as (p & Hp & H).
  destruct (int64_ok _ _ _ (mul_inside _ _ c Hc (within_at s iv k Hs)) Hp) as [He ->].
  unfold add_mul. rewrite He. cbn. eapply add_to_keeps; [|exact Hs|exact H].
  apply mul_inside; [done|by apply within_at].
Qed.
Lemma sub_mul_keeps i c k : 0 ≤ c → keeps (sub_mul i c k) (iv_sub_mul i c k).
Proof.
  intros Hc s iv iv' Hs H. unfold iv_sub_mul in H. apply bind_Some in H as (p & Hp & H).
  destruct (int64_ok _ _ _ (mul_inside _ _ c Hc (within_at s iv k Hs)) Hp) as [He ->].
  unfold sub_mul. rewrite He. cbn. eapply add_to_keeps; [|exact Hs|exact H].
  apply opp_inside, mul_inside; [done|by apply within_at].
Qed.

Lemma shiftr_inside z x : inside z x → inside (Z.shiftr z 21) (iv_shiftr x).
Proof.
  unfold inside, iv_shiftr. rewrite Z.shiftr_div_pow2 by lia. cbn [fst snd].
  intros [H1 H2]. split; apply Z.div_le_mono; lia.
Qed.

(** What stays in limb [i] when [c] is moved out of it. *)
Lemma move_keeps s iv iv' i c x rest :
  within s iv → inside c x → inside (limb s i - c * 2 ^ 21) rest → - 2 ^ 63 ≤ rest.1 → rest.2 < 2 ^ 63 →
  iv_move i x rest iv = Some iv' → ∃ s', move i c s = Ok s' ∧ within s' iv'.
Proof.
  intros Hs Hc Hrest Hr1 Hr2 H. unfold iv_move in H. apply bind_Some in H as (iv1 & Hiv1 & H).
  apply bind_Some in H as (y & Hy & [= <-]).
  destruct (add_to_keeps (S i) c x Hc s iv iv1 Hs Hiv1) as (s1 & Hs1 & Hw1).
  destruct (int64_ok _ _ _ (mul_inside _ _ (2 ^ 21) ltac:(lia) Hc) Hy) as [He _].
  unfold move. rewrite Hs1. cbn -[Z.shiftl]. rewrite Z.shiftl_mul_pow2 by lia. rewrite He. cbn -[add_to].
  assert (limb s1 i = limb s i) as Hsame.
  { unfold add_to in Hs1. inv_ok Hs1. injection Hs1 as <-. unfold limb. rewrite !nth_lookup.
    by rewrite list_lookup_insert_ne by lia. }
  unfold add_to. rewrite Hsame.
  assert (int64 (limb s i + - (c * 2 ^ 21)) = Ok (limb s i - c * 2 ^ 21)) as ->.
  { unfold int64. unfold inside in Hrest. rewrite (proj2 (Z.leb_le _ _)), (proj2 (Z.ltb_lt _ _)) by lia.
    cbn. f_equal. }
  cbn. eexists. split; [reflexivity|]. by apply within_insert.
Qed.

Lemma step_keeps t : keeps (run_step t) (iv_step t).
Proof.
  intros s iv iv' Hs H. destruct t as [i|i|i|i]; cbn [run_step iv_step] in *.
  - apply bind_Some in H as (v & Hv & H). change (Z.shiftl 1 20) with (2 ^ 20).
    pose proof (within_at s iv i Hs) as Hi.
    assert (inside (limb s i + 2 ^ 20) ((iv_at iv i).1 + 2 ^ 20, (iv_at iv i).2 + 2 ^ 20)) as Hin
      by (unfold inside in *; cbn [fst snd]; lia).
    destruct (int64_ok _ _ _ Hin Hv) as [-> ->]. cbn [mbind result_bind].
    eapply move_keeps; [exact Hs|apply shiftr_inside, Hin| | | |exact H]; [|cbn [fst snd]; lia..].
    rewrite Z.shiftr_div_pow2 by lia. unfold inside. cbn [fst snd]. Z.div_mod_to_equations. lia.
  - eapply move_keeps; [exact Hs|apply shiftr_inside, within_at, Hs| | | |exact H]; [|cbn [fst snd]; lia..].
    rewrite Z.shiftr_div_pow2 by lia. unfold inside. cbn [fst snd]. Z.div_mod_to_equations. lia.
  - apply bind_Some in H as (iv1 & H1 & H). apply bind_Some in H as (iv2 & H2 & H).
    apply bind_Some in H as (iv3 & H3 & H). apply bind_Some in H as (iv4 & H4 & H).
    apply bind_Some in H as (iv5 & H5 & H).
    apply (add_mul_keeps _ 666643 _ ltac:(lia) s) in H1 as (s1 & -> & W1); [|done]. cbn [mbind result_bind].
    apply (add_mul_keeps _ 470296 _ ltac:(lia) s1) in H2 as (s2 & -> & W2); [|done]. cbn [mbind result_bind].
    apply (add_mul_keeps _ 654183 _ ltac:(lia) s2) in H3 as (s3 & -> & W3); [|done]. cbn [mbind result_bind].
    apply (sub_mul_keeps _ 997805 _ ltac:(lia) s3) in H4 as (s4 & -> & W4); [|done]. cbn [mbind result_bind].
    apply (add_mul_keeps _ 136657 _ ltac:(lia) s4) in H5 as (s5 & -> & W5); [|done]. cbn [mbind result_bind].
    by apply (sub_mul_keeps _ 683901 _ ltac:(lia) s5) in H.
  - injection H as <-. eexists. split; [reflexivity|]. by apply within_insert.
Qed.

Lemma run_keeps program : keeps (run program) (iv_run program).
Proof.
  unfold run. induction program as [|t program IH]; intros s iv iv' Hs H; cbn [for_each iv_run] in *.
  { injection H as <-. by exists s. }
  apply bind_Some in H as (iv1 & H1 & H). destruct (step_keeps t s iv iv1 Hs H1) as (s1 & -> & Hs1).
  cbn [mbind result_bind]. by apply (IH s1 iv1).
Qed.

Lemma within_value n s iv : within s iv → value n iv.*1 ≤ value n s ≤ value n iv.*2.
Proof.
  intros Hs. induction n as [|n IH]; [done|]. cbn [value].
  pose proof (within_at s iv n Hs) as Hn. unfold inside in Hn.
  assert (limb iv.*1 n = (iv_at iv n).1 ∧ limb iv.*2 n = (iv_at iv n).2) as [-> ->].
  { unfold limb, iv_at. rewrite !nth_lookup, !list_lookup_fmap. by destruct (iv !! n). }
  pose proof (Z.pow_pos_nonneg 2 (21 * Z.of_nat n)). nia.
Qed.

(** ** The end of a routine *)

Lemma run_app p q s : run (p ++ q) s = s1 ← run p s; run q s1.
Proof. apply for_each_app. Qed.

Lemma run_app_ok p q s s1 s' : run p s = Ok s1 → run q s1 = Ok s' → run (p ++ q) s = Ok s'.
Proof. intros Hp Hq. by rewrite run_app, Hp. Qed.

(** [canonical] in its three parts. *)
Definition carries (n : nat) : list step := carry <$> seq 0 n.
Lemma canonical_parts : canonical = carries 12 ++ [fold 12] ++ carries 11.
Proof. reflexivity. Qed.

Definition digit (z : Z) : Prop := 0 ≤ z < 2 ^ 21.

Lemma value_digits n s : (∀ i, (i < n)%nat → digit (limb s i)) → 0 ≤ value n s < 2 ^ (21 * Z.of_nat n).
Proof.
  induction n as [|n IH]; intros Hd; [done|]. cbn [value].
  replace (21 * Z.of_nat (S n)) with (21 * Z.of_nat n + 21) by lia. rewrite Z.pow_add_r by lia.
  pose proof (IH (λ i Hi, Hd i ltac:(lia))) as Hv. pose proof (Hd n ltac:(lia)) as Hn. unfold digit in Hn.
  set (p := 2 ^ (21 * Z.of_nat n)) in *. nia.
Qed.

(** The analysis shows the first [n] limbs to be digits. *)
Definition iv_digits (n : nat) (iv : list interval) : bool :=
  forallb (λ x, (0 <=? x.1) && (x.2 <? 2 ^ 21)) (take n iv) && (n <=? length iv)%nat.

Lemma iv_digits_ok n s iv i : within s iv → iv_digits n iv = true → (i < n)%nat → digit (limb s i).
Proof.
  intros Hs [Hall Hlen%Nat.leb_le]%andb_true_iff Hi. rewrite forallb_forall in Hall.
  pose proof (within_at s iv i Hs) as [H1 H2].
  assert (In (iv_at iv i) (take n iv)) as Hin.
  { apply list_elem_of_In, list_elem_of_lookup. exists i. rewrite lookup_take_lt by done.
    unfold iv_at. by apply nth_lookup_Some_2 || (rewrite nth_lookup; destruct (lookup_lt_is_Some_2 iv i) as [x ->]; [lia|done]). }
  specialize (Hall _ Hin). apply andb_true_iff in Hall as [Ha%Z.leb_le Hb%Z.ltb_lt]. unfold digit. lia.
Qed.

Lemma order_bounds : 2 ^ 252 < order < 2 ^ 253.
Proof. done. Qed.

Lemma value_S n s : value (S n) s = value n s + limb s n * 2 ^ (21 * Z.of_nat n).
Proof. reflexivity. Qed.

Lemma wrap_once low q : 0 ≤ low < 2 ^ (21 * Z.of_nat 12) →
  - 2 ^ 252 ≤ low + q * 2 ^ (21 * Z.of_nat 12) → low + q * 2 ^ (21 * Z.of_nat 12) < 2 ^ 252 →
  low + q * 2 ^ (21 * Z.of_nat 12) - q * 2 ^ (21 * Z.of_nat (12 - 12)) * order =
  (low + q * 2 ^ (21 * Z.of_nat 12)) mod order.
Proof.
  change (2 ^ (21 * Z.of_nat (12 - 12))) with 1. change (21 * Z.of_nat 12) with 252.
  intros Hd Hlo Hhi. pose proof order_bounds as Ho. generalize dependent order. intros l Ho.
  assert (q = - 1 ∨ q = 0) as Hq by lia.
  apply Z.mod_unique with (q := q); destruct Hq as [-> | ->]; lia.
Qed.

(** The last carry and the last folding bring a value of the size of the order
    between zero and the order. *)
Lemma canonical_ok s iv iv1 iv2 iv3 :
  within s iv → length s = 13%nat ∨ length s = 24%nat →
  - 2 ^ 252 ≤ value 13 iv.*1 → value 13 iv.*2 < 2 ^ 252 →
  iv_run (carries 12) iv = Some iv1 → iv_digits 12 iv1 = true →
  iv_run [fold 12] iv1 = Some iv2 → iv_run (carries 11) iv2 = Some iv3 → iv_digits 11 iv3 = true →
  ∃ s', run canonical s = Ok s' ∧ length s' = length s ∧ value 12 s' = value 13 s mod order ∧
    (∀ i, (i < 11)%nat → digit (limb s' i)).
Proof.
  intros Hs Hlen Hlo Hhi H1 D1 H2 H3 D3.
  pose proof (within_value 13 s iv Hs) as Hv.
  destruct (run_keeps _ s iv iv1 Hs H1) as (s1 & R1 & W1).
  destruct (run_keeps _ s1 iv1 iv2 W1 H2) as (s2 & R2 & W2).
  destruct (run_keeps _ s2 iv2 iv3 W2 H3) as (s3 & R3 & W3).
  assert (live (carries 12) 13 (length s) = Some 13%nat) as L1 by (by destruct Hlen as [-> | ->]).
  destruct (run_value _ s s1 13 13 L1 R1) as (N1 & _ & V1). specialize (V1 eq_refl).
  rewrite <- N1 in Hlen.
  assert (run_step (fold 12) s1 = Ok s2) as R2'.
  { unfold run in R2. cbn [for_each] in R2. inv_ok R2. congruence. }
  destruct (fold_value 12 s1 s2 ltac:(lia) ltac:(lia) R2') as [N2 V2].
  rewrite <- N2 in Hlen.
  assert (live (carries 11) 12 (length s2) = Some 12%nat) as L3 by (by destruct Hlen as [-> | ->]).
  destruct (run_value _ s2 s3 12 12 L3 R3) as (N3 & _ & V3). specialize (V3 eq_refl).
  exists s3. split; [|split; [congruence|split]].
  - rewrite canonical_parts. eapply run_app_ok; [exact R1|]. by eapply run_app_ok.
  - pose proof (value_digits 12 s1 (λ i Hi, iv_digits_ok 12 s1 iv1 i W1 D1 Hi)) as Hd.
    rewrite V3, V2, <- V1. rewrite <- V1 in Hv. rewrite (value_S 12 s1) in Hv |- *.
    unfold folded. apply wrap_once;
      [exact Hd|eapply Z.le_trans; [exact Hlo|apply Hv]|eapply Z.le_lt_trans; [apply Hv|exact Hhi]].
  - intros i Hi. exact (iv_digits_ok 11 s3 iv3 i W3 D3 Hi).
Qed.

(** ** Bytes and limbs *)

Fixpoint horner (l : list Z) : Z :=
  match l with
  | [] => 0
  | x :: l => x + 2 ^ 21 * horner l
  end.

Lemma value_take n s : value n s = horner (take n s).
Proof.
  revert s. induction n as [|n IH]; intros s; [done|]. destruct s as [|x s].
  { rewrite take_nil. clear. induction n as [|n IH]; [done|]. rewrite value_S, IH. unfold limb.
    cbn [nth]. by destruct n. }
  cbn [take horner]. rewrite <- IH. clear IH. induction n as [|n IH]; [cbn; lia|].
  rewrite (value_S (S n)), IH, (value_S n). unfold limb. cbn [nth].
  replace (21 * Z.of_nat (S n)) with (21 * Z.of_nat n + 21) by lia. rewrite Z.pow_add_r by lia. lia.
Qed.

Lemma div_add_pow x y a b : 0 ≤ a ≤ b → (x + 2 ^ b * y) / 2 ^ a = x / 2 ^ a + 2 ^ (b - a) * y.
Proof.
  intros Hab. replace b with ((b - a) + a) at 1 by lia. rewrite Z.pow_add_r by lia.
  pose proof (Z.pow_pos_nonneg 2 a ltac:(lia) ltac:(lia)).
  replace (x + 2 ^ (b - a) * 2 ^ a * y) with (x + 2 ^ (b - a) * y * 2 ^ a) by ring. apply Z.div_add. lia.
Qed.

Lemma mod_add_pow x y a b : 0 ≤ b ≤ a → (x + 2 ^ a * y) mod 2 ^ b = x mod 2 ^ b.
Proof.
  intros Hab. replace a with ((a - b) + b) by lia. rewrite Z.pow_add_r by lia.
  replace (x + 2 ^ (a - b) * 2 ^ b * y) with (x + 2 ^ (a - b) * y * 2 ^ b) by ring.
  apply Z.mod_add. pose proof (Z.pow_pos_nonneg 2 b). lia.
Qed.

Lemma horner_div l i a : Forall digit (take i l) → 0 ≤ a →
  horner l / 2 ^ (21 * Z.of_nat i + a) = horner (drop i l) / 2 ^ a.
Proof.
  intros Hd Ha. revert l Hd. induction i as [|i IH]; intros l Hd; [done|].
  destruct l as [|x l]; [by rewrite drop_nil; cbn [horner]; rewrite !Z.div_0_l by (apply Z.pow_nonzero; lia)|].
  apply Forall_cons in Hd as [Hx Hd]. rewrite skipn_cons, <- (IH l Hd). cbn [horner].
  replace (21 * Z.of_nat (S i) + a) with (21 + (21 * Z.of_nat i + a)) by lia. rewrite Z.pow_add_r by lia.
  rewrite <- Z.div_div by (lia || apply Z.pow_pos_nonneg; lia). f_equal.
  unfold digit in Hx. rewrite Z.mul_comm, Z.div_add by lia. rewrite Z.div_small by lia. lia.
Qed.

Lemma byte_one x rest a : 0 ≤ a ≤ 13 → ((x + 2 ^ 21 * rest) / 2 ^ a) mod 2 ^ 8 = u8 (Z.shiftr x a).
Proof.
  intros Ha. rewrite div_add_pow, mod_add_pow by lia. unfold u8. by rewrite Z.shiftr_div_pow2 by lia.
Qed.

Lemma byte_two x y rest a : 14 ≤ a < 21 → digit x →
  ((x + 2 ^ 21 * (y + 2 ^ 21 * rest)) / 2 ^ a) mod 2 ^ 8 =
  u8 (Z.lor (Z.shiftr x a) (Z.shiftl y (21 - a))).
Proof.
  intros Ha Hx. rewrite div_add_pow by lia. unfold u8.
  assert (0 ≤ x / 2 ^ a < 2 ^ (21 - a)) as Hq.
  { apply shiftr_lt; [lia|lia|]. by replace (a + (21 - a)) with 21 by lia. }
  rewrite Z.shiftr_div_pow2, lor_shiftl_add by lia.
  replace (x / 2 ^ a + 2 ^ (21 - a) * (y + 2 ^ 21 * rest))
    with (x / 2 ^ a + y * 2 ^ (21 - a) + 2 ^ (21 - a + 21) * rest) by (rewrite Z.pow_add_r by lia; ring).
  apply mod_add_pow. lia.
Qed.

Lemma le_bytes_seq n z : le_bytes n z = (λ k, (z / 2 ^ (8 * Z.of_nat k)) mod 2 ^ 8) <$> seq 0 n.
Proof.
  revert z. induction n as [|n IH]; intros z; [done|]. cbn [le_bytes seq fmap list_fmap]. f_equal.
  - by rewrite Z.mul_0_r, Z.div_1_r.
  - rewrite IH, <- (fmap_S_seq 0), <- list_fmap_compose. apply list_fmap_ext. intros i k _. cbn -[Z.mul Z.pow Z.of_nat].
    f_equal. rewrite Z.div_div by (lia || (apply Z.pow_pos_nonneg; lia)).
    f_equal. rewrite <- Z.pow_add_r by lia. f_equal. lia.
Qed.

Lemma store_one l i a : Forall digit (take i l) → 0 ≤ a → a ≤ 13 ∨ length l = S i → (i < length l)%nat →
  u8 (Z.shiftr (limb l i) a) = (horner l / 2 ^ (21 * Z.of_nat i + a)) mod 2 ^ 8.
Proof.
  intros Hd Ha Hlast Hi. rewrite horner_div by (lia || done). unfold limb.
  destruct (lookup_lt_is_Some_2 l i Hi) as [x Hx]. rewrite (drop_S l x i Hx), nth_lookup, Hx. cbn [horner default].
  destruct Hlast as [Ha'|Hl]; [by rewrite byte_one by lia|].
  rewrite drop_ge by lia. cbn [horner]. unfold u8. rewrite Z.shiftr_div_pow2 by lia. by rewrite Z.mul_0_r, Z.add_0_r.
Qed.

Lemma store_two l i a : Forall digit (take (S i) l) → 14 ≤ a < 21 → (S i < length l)%nat →
  u8 (Z.lor (Z.shiftr (limb l i) a) (Z.shiftl (limb l (S i)) (21 - a))) =
  (horner l / 2 ^ (21 * Z.of_nat i + a)) mod 2 ^ 8.
Proof.
  intros Hd Ha Hi. destruct (lookup_lt_is_Some_2 l i ltac:(lia)) as [x Hx].
  destruct (lookup_lt_is_Some_2 l (S i) Hi) as [y Hy].
  rewrite (take_S_r l i x Hx) in Hd. apply Forall_app in Hd as [Hd Hx']. apply Forall_cons in Hx' as [Hx' _].
  rewrite horner_div by (lia || done). unfold limb. rewrite (drop_S l x i Hx), (drop_S l y (S i) Hy), !nth_lookup, Hx, Hy.
  cbn [horner default]. by rewrite byte_two by (lia || done).
Qed.

Ltac store_byte :=
  match goal with
  | |- u8 (Z.shiftr _ ?a) = (horner ?l / 2 ^ ?e) mod _ =>
      let i := eval vm_compute in (Z.to_nat (e / 21)) in
      apply (store_one l i a);
        [cbn [take]; repeat (constructor; [assumption|]); constructor|lia|cbn; lia|cbn; lia]
  | |- u8 (Z.lor (Z.shiftr _ ?a) _) = (horner ?l / 2 ^ ?e) mod _ =>
      let i := eval vm_compute in (Z.to_nat (e / 21)) in
      apply (store_two l i a); [cbn [take]; repeat (constructor; [assumption|]); constructor|lia|cbn; lia]
  end.

Lemma store_scalar_ok s : (12 ≤ length s)%nat → (∀ i, (i < 11)%nat → digit (limb s i)) →
  store_scalar s = le_bytes 32 (value 12 s).
Proof.
  intros Hl Hd. rewrite value_take, le_bytes_seq.
  do 12 (destruct s as [|? s]; [cbn in Hl; lia|]). clear Hl.
  pose proof (Hd 0%nat ltac:(lia)) as D0. pose proof (Hd 1%nat ltac:(lia)) as D1. pose proof (Hd 2%nat ltac:(lia)) as D2.
  pose proof (Hd 3%nat ltac:(lia)) as D3. pose proof (Hd 4%nat ltac:(lia)) as D4. pose proof (Hd 5%nat ltac:(lia)) as D5.
  pose proof (Hd 6%nat ltac:(lia)) as D6. pose proof (Hd 7%nat ltac:(lia)) as D7. pose proof (Hd 8%nat ltac:(lia)) as D8.
  pose proof (Hd 9%nat ltac:(lia)) as D9. pose proof (Hd 10%nat ltac:(lia)) as D10. clear Hd.
  unfold limb in *. cbn [nth] in *. cbn [take store_scalar]. rewrite take_0.
  cbn [seq fmap list_fmap]. repeat (apply f_equal2; [store_byte|]). reflexivity.
Qed.

(** ** Loading *)

Lemma mod_div_mod w a b m : 0 ≤ a → 0 ≤ b → a + b ≤ m → (w mod 2 ^ m / 2 ^ a) mod 2 ^ b = (w / 2 ^ a) mod 2 ^ b.
Proof.
  intros Ha Hb Hm. rewrite (Z.div_mod w (2 ^ m)) at 2 by (pose proof (Z.pow_pos_nonneg 2 m); lia).
  rewrite Z.add_comm, div_add_pow by lia. symmetry. apply mod_add_pow. lia.
Qed.

Lemma byte_at_value s i : bytes s → byte_at s i = (le_value s / 2 ^ (8 * Z.of_nat i)) mod 2 ^ 8.
Proof.
  intros Hs. revert i. induction Hs as [|b s Hb Hs IH]; intros i.
  { cbn [le_value]. rewrite Z.div_0_l by (apply Z.pow_nonzero; lia). by destruct i. }
  destruct i as [|i]; cbn [byte_at nth le_value].
  - rewrite Z.div_1_r. unfold is_byte in Hb. words.
  - unfold byte_at in IH. rewrite IH.
    replace (8 * Z.of_nat (S i)) with (8 + 8 * Z.of_nat i) by lia. rewrite Z.pow_add_r by lia.
    rewrite <- Z.div_div by (lia || (apply Z.pow_pos_nonneg; lia)).
    replace ((b + 2 ^ 8 * le_value s) / 2 ^ 8) with (le_value s); [done|]. unfold is_byte in Hb. words.
Qed.

Section load.
Context (s : list Z).
Hypothesis s_bytes : bytes s.

Lemma byte_at_shift i j : byte_at s (i + j) = (le_value s / 2 ^ (8 * Z.of_nat i) / 2 ^ (8 * Z.of_nat j)) mod 2 ^ 8.
Proof using s_bytes.
  rewrite byte_at_value by done. rewrite Z.div_div by (lia || (apply Z.pow_pos_nonneg; lia)).
  rewrite <- Z.pow_add_r by lia. by replace (8 * Z.of_nat i + 8 * Z.of_nat j) with (8 * Z.of_nat (i + j)) by lia.
Qed.

Lemma load_3_value i : load_3 s i = (le_value s / 2 ^ (8 * Z.of_nat i)) mod 2 ^ 24.
Proof using s_bytes.
  unfold load_3. rewrite !byte_at_shift, (byte_at_value s i) by done.
  set (w := le_value s / 2 ^ (8 * Z.of_nat i)). change (8 * Z.of_nat 1) with 8. change (8 * Z.of_nat 2) with 16.
  rewrite (lor_shiftl_add _ _ 8) by (Z.div_mod_to_equations; lia).
  rewrite lor_shiftl_add by (Z.div_mod_to_equations; lia). Z.div_mod_to_equations. lia.
Qed.

Lemma load_4_value i : load_4 s i = (le_value s / 2 ^ (8 * Z.of_nat i)) mod 2 ^ 32.
Proof using s_bytes.
  unfold load_4. fold (load_3 s i). rewrite load_3_value, byte_at_shift.
  set (w := le_value s / 2 ^ (8 * Z.of_nat i)). change (8 * Z.of_nat 3) with 24.
  rewrite lor_shiftl_add by (Z.div_mod_to_equations; lia). Z.div_mod_to_equations. lia.
Qed.

Lemma mask_3 i a e : 8 * Z.of_nat i + a = e → 0 ≤ a ≤ 3 →
  Z.land 2097151 (Z.shiftr (load_3 s i) a) = (le_value s / 2 ^ e) mod 2 ^ 21.
Proof using s_bytes.
  intros <- Ha. rewrite Z.land_comm, (land_ones_mod _ 21), load_3_value, Z.shiftr_div_pow2, mod_div_mod by lia.
  by rewrite Z.div_div, <- Z.pow_add_r by (lia || (apply Z.pow_pos_nonneg; lia)).
Qed.
Lemma mask_4 i a e : 8 * Z.of_nat i + a = e → 0 ≤ a ≤ 11 →
  Z.land 2097151 (Z.shiftr (load_4 s i) a) = (le_value s / 2 ^ e) mod 2 ^ 21.
Proof using s_bytes.
  intros <- Ha. rewrite Z.land_comm, (land_ones_mod _ 21), load_4_value, Z.shiftr_div_pow2, mod_div_mod by lia.
  by rewrite Z.div_div, <- Z.pow_add_r by (lia || (apply Z.pow_pos_nonneg; lia)).
Qed.

(** The last limb takes all that is left. *)
Lemma last_4 i a e : 8 * Z.of_nat i + a = e → 0 ≤ a → le_value s < 2 ^ (8 * Z.of_nat i + 32) →
  Z.shiftr (load_4 s i) a = le_value s / 2 ^ e.
Proof using s_bytes.
  intros <- Ha Hs. rewrite load_4_value, Z.shiftr_div_pow2 by lia. rewrite Z.mod_small.
  - by rewrite Z.div_div, <- Z.pow_add_r by (lia || (apply Z.pow_pos_nonneg; lia)).
  - pose proof (le_value_bound s s_bytes). apply shiftr_lt; lia.
Qed.

End load.

Definition digits (n : nat) (v : Z) : list Z :=
  ((λ k, (v / 2 ^ (21 * Z.of_nat k)) mod 2 ^ 21) <$> seq 0 n) ++ [v / 2 ^ (21 * Z.of_nat n)].

Lemma value_app_le n s k : (n ≤ length s)%nat → value n (s ++ k) = value n s.
Proof. intros Hn. rewrite !value_take. f_equal. by rewrite take_app_le by done. Qed.

Lemma digits_value n v : value (S n) (digits n v) = v.
Proof.
  unfold digits. set (d := _ <$> _).
  assert (length d = n) as Hlen by (unfold d; by rewrite length_fmap, length_seq).
  rewrite value_S, value_app_le by lia. unfold limb. rewrite nth_lookup, lookup_app_r, Hlen, Nat.sub_diag by lia.
  cbn [lookup list_lookup default from_option id]. enough (value n d = v mod 2 ^ (21 * Z.of_nat n)) as ->.
  { pose proof (Z.pow_pos_nonneg 2 (21 * Z.of_nat n) ltac:(lia) ltac:(lia)).
    pose proof (Z.div_mod v (2 ^ (21 * Z.of_nat n)) ltac:(lia)). lia. }
  unfold d. clear d Hlen. induction n as [|n IH]; [cbn; by rewrite Z.mod_1_r|].
  rewrite value_S, seq_S, fmap_app, value_app_le by (by rewrite length_fmap, length_seq).
  rewrite IH. unfold limb. rewrite nth_lookup, lookup_app_r by (by rewrite length_fmap, length_seq).
  rewrite length_fmap, length_seq, Nat.sub_diag. cbn [fmap list_fmap lookup list_lookup default from_option id Nat.add].
  replace (21 * Z.of_nat (S n)) with (21 * Z.of_nat n + 21) by lia. rewrite Z.pow_add_r by lia.
  set (p := 2 ^ (21 * Z.of_nat n)). assert (0 < p) by (apply Z.pow_pos_nonneg; lia).
  rewrite Z.rem_mul_r by lia. lia.
Qed.

Ltac load_limb Hs :=
  match goal with
  | |- Z.land 2097151 (Z.shiftr (load_3 ?s ?i) ?a) = _ => apply (mask_3 s Hs i a); [reflexivity|lia]
  | |- Z.land 2097151 (Z.shiftr (load_4 ?s ?i) ?a) = _ => apply (mask_4 s Hs i a); [reflexivity|lia]
  | |- Z.land 2097151 (load_3 ?s ?i) = _ =>
      rewrite <- (Z.shiftr_0_r (load_3 s i)); apply (mask_3 s Hs i 0); [reflexivity|lia]
  | |- Z.shiftr (load_4 ?s ?i) ?a = _ => apply (last_4 s Hs i a); [reflexivity|lia|]
  end.

Lemma load_scalar_digits s : bytes s → length s = 32%nat → load_scalar s = digits 11 (le_value s).
Proof.
  intros Hs Hl. pose proof (le_value_bound s Hs) as Hb. rewrite Hl in Hb. unfold load_scalar, digits.
  cbn [seq fmap list_fmap app]. repeat (apply f_equal2; [load_limb Hs|]); [|done]. apply Hb.
Qed.

Lemma load_wide_digits s : bytes s → length s = 64%nat → load_wide s = digits 23 (le_value s).
Proof.
  intros Hs Hl. pose proof (le_value_bound s Hs) as Hb. rewrite Hl in Hb. unfold load_wide, digits.
  cbn [seq fmap list_fmap app]. repeat (apply f_equal2; [load_limb Hs|]); [|done]. apply Hb.
Qed.

(** The range of each limb. *)
Definition digit_iv : interval := (0, 2 ^ 21 - 1).
Definition digits_iv (n : nat) (top : Z) : list interval := replicate n digit_iv ++ [(0, top)].

Lemma digits_within n v top : 0 ≤ v → v / 2 ^ (21 * Z.of_nat n) ≤ top → within (digits n v) (digits_iv n top).
Proof.
  intros Hv Htop. apply Forall2_app; [|constructor; [|constructor]].
  - clear Htop. generalize 0%nat. induction n as [|n IH]; intros k; cbn; constructor; [|apply IH].
    pose proof (Z.mod_pos_bound (v / 2 ^ (21 * Z.of_nat k)) (2 ^ 21) ltac:(lia)). unfold inside. cbn -[Z.pow]. lia.
  - split; [|exact Htop]. apply Z.div_pos; [done|]. apply Z.pow_pos_nonneg; lia.
Qed.

(** ** Routines *)

Definition canonical_check (iv : list interval) : bool :=
  match iv_run (carries 12) iv with
  | Some iv1 =>
    match iv_run [fold 12] iv1 with
    | Some iv2 =>
      match iv_run (carries 11) iv2 with
      | Some iv3 =>
        iv_digits 12 iv1 && iv_digits 11 iv3 &&
        (- 2 ^ 252 <=? value 13 iv.*1) && (value 13 iv.*2 <? 2 ^ 252)
      | None => false
      end
    | None => false
    end
  | None => false
  end.

(** The analysis of a whole routine on limbs in the given ranges, [n] of them
    in use. *)
Definition routine_check (program : list step) (n : nat) (iv : list interval) : bool :=
  match iv_run program iv, live program n (length iv) with
  | Some iv0, Some 13%nat =>
      canonical_check iv0 && (bool_decide (length iv = 13%nat) || bool_decide (length iv = 24%nat))
  | _, _ => false
  end.

Lemma routine_ok program n s iv : within s iv → routine_check program n iv = true →
  ∃ s', run (program ++ canonical) s = Ok s' ∧ store_scalar s' = le_bytes 32 (value n s mod order).
Proof.
  intros Hs Hc. unfold routine_check in Hc. pose proof (Forall2_length _ _ _ Hs) as Hlen.
  destruct (iv_run program iv) as [iv0|] eqn:H0; [|done].
  destruct (live program n (length iv)) as [n'|] eqn:Hlive; [|done].
  assert (n' = 13%nat) as -> by (do 14 (destruct n' as [|n']; try done)).
  apply andb_true_iff in Hc as [Hc Hn]. unfold canonical_check in Hc.
  destruct (iv_run (carries 12) iv0) as [iv1|] eqn:H1; [|done].
  destruct (iv_run [fold 12] iv1) as [iv2|] eqn:H2; [|done].
  destruct (iv_run (carries 11) iv2) as [iv3|] eqn:H3; [|done].
  apply andb_true_iff in Hc as [[[D1 D3]%andb_true_iff Hlo%Z.leb_le]%andb_true_iff Hhi%Z.ltb_lt].
  destruct (run_keeps program s iv iv0 Hs H0) as (s0 & R0 & W0). rewrite <- Hlen in Hlive.
  destruct (run_value program s s0 n 13 Hlive R0) as (N0 & [k Hk] & _).
  assert (length s0 = 13%nat ∨ length s0 = 24%nat) as Hn0.
  { rewrite N0, Hlen. apply orb_true_iff in Hn as [Hn%bool_decide_eq_true|Hn%bool_decide_eq_true]; auto. }
  destruct (canonical_ok s0 iv0 iv1 iv2 iv3 W0 Hn0 Hlo Hhi H1 D1 H2 H3 D3) as (s' & R & N & V & D).
  exists s'. split; [by eapply run_app_ok|]. rewrite store_scalar_ok; [|lia|done].
  rewrite V, Hk, Z_mod_plus_full. done.
Qed.

(** Twelve limbs and [s12 = 0]. *)
Definition narrow_iv : list interval := digits_iv 11 (2 ^ 25 - 1).

Lemma load_scalar_within s : bytes s → length s = 32%nat → within (load_scalar s) narrow_iv.
Proof.
  intros Hs Hl. rewrite load_scalar_digits by done. pose proof (le_value_bound s Hs) as Hb. rewrite Hl in Hb.
  apply digits_within; [lia|]. change (21 * Z.of_nat 11) with 231. enough (le_value s / 2 ^ 231 < 2 ^ 25) by lia.
  apply Z.div_lt_upper_bound; lia.
Qed.

Lemma load_scalar_value s : bytes s → length s = 32%nat → value 12 (load_scalar s) = le_value s.
Proof. intros Hs Hl. rewrite load_scalar_digits by done. apply digits_value. Qed.

Lemma length_load_scalar s : length (load_scalar s) = 12%nat.
Proof. reflexivity. Qed.

Lemma value_snoc_zero n s : length s = n → value (S n) (s ++ [0]) = value n s.
Proof.
  intros Hl. rewrite value_S, value_app_le by lia. unfold limb.
  rewrite nth_lookup, lookup_app_r, Hl, Nat.sub_diag by lia. cbn [lookup list_lookup default from_option id]. lia.
Qed.

Lemma within_snoc_zero s iv : within s iv → within (s ++ [0]) (iv ++ [(0, 0)]).
Proof. intros Hs. apply Forall2_app; [done|]. constructor; [split; done|constructor]. Qed.

Lemma value_zip_with (f : Z → Z → Z) n s t : (∀ a b c d p, f (a + b * p) (c + d * p) = f a c + f b d * p) → f 0 0 = 0 →
  length s = length t → value n (zip_with f s t) = f (value n s) (value n t).
Proof.
  intros Hf H0 Hl. induction n as [|n IH]; [by rewrite <- H0 at 1|]. rewrite !value_S, Hf, <- IH. do 2 f_equal.
  unfold limb. rewrite !nth_lookup, lookup_zip_with.
  destruct (s !! n) as [x|] eqn:Hx; cbn.
  - destruct (lookup_lt_is_Some_2 t n) as [y ->]; [|done]. rewrite <- Hl. by eapply lookup_lt_Some.
  - rewrite lookup_ge_None in Hx. rewrite (proj2 (lookup_ge_None t n)) by lia. by rewrite <- H0 at 1.
Qed.

Lemma within_zip_with (f : Z → Z → Z) (g : interval → interval → interval) s t iv jv :
  (∀ a b x y, inside a x → inside b y → inside (f a b) (g x y)) →
  within s iv → within t jv → within (zip_with f s t) (zip_with g iv jv).
Proof.
  intros Hf Hs Ht. revert t jv Ht. induction Hs as [|a x s iv Ha _ IH]; intros t jv Ht; [constructor|].
  destruct Ht as [|b y t jv Hb Ht]; constructor; [by apply Hf|by apply IH].
Qed.

Definition iv_plus (x y : interval) : interval := (x.1 + y.1, x.2 + y.2).
Definition iv_minus (x y : interval) : interval := (x.1 - y.2, x.2 - y.1).

(** A limb of [c - a * b] is least when the product is greatest. *)
Definition product_iv : list interval :=
  zip (product_limbs narrow_iv.*2 narrow_iv.*2 (replicate 12 0)) (narrow_iv.*2 ++ replicate 12 0).

Lemma product_bound x y x1 y1 : 0 ≤ x ≤ x1 → 0 ≤ y ≤ y1 → 0 ≤ x * y ≤ x1 * y1.
Proof. nia. Qed.

(** Replaces the products of the goal by variables with their bounds. *)
Ltac bound_products :=
  repeat match goal with
  | Hx : 0 ≤ ?x ≤ _, Hy : 0 ≤ ?y ≤ _ |- context [?x * ?y] =>
      let p := fresh "p" in
      let Hp := fresh "Hp" in
      pose proof (product_bound x y _ _ Hx Hy) as Hp; set (p := x * y) in *; clearbody p
  end.

(** Takes a list known to be within twelve intervals apart. *)
Ltac split_within H :=
  repeat match type of H with
  | Forall2 _ ?s (_ :: _) =>
      let x := fresh "x" in let Hx := fresh "Hx" in let H' := fresh "H'" in
      destruct s as [|x ?]; [by inversion H|]; apply Forall2_cons in H as [Hx H'];
      cbn in Hx; rename H' into H
  | Forall2 _ ?s [] => destruct s; [clear H|by inversion H]
  end.

Lemma product_within a b c : within a narrow_iv → within b narrow_iv → within c narrow_iv →
  within (product_limbs a b c) product_iv.
Proof.
  intros Ha Hb Hc. unfold within, narrow_iv, digits_iv, digit_iv in Ha, Hb, Hc. cbn [replicate app] in Ha, Hb, Hc.
  split_within Ha. split_within Hb. split_within Hc. unfold inside in *. cbn [fst snd] in *.
  cbn [product_limbs]. let iv := eval vm_compute in product_iv in change product_iv with iv.
  unfold within. rewrite Z.mul_opp_l.
  repeat (apply Forall2_cons; split; [unfold inside; cbn [fst snd]; bound_products; lia|]). constructor.
Qed.

Lemma product_value a b c : length a = 12%nat → length b = 12%nat → length c = 12%nat →
  value 24 (product_limbs a b c) = value 12 c - value 12 a * value 12 b.
Proof.
  intros Ha Hb Hc. do 12 (destruct a as [|? a]; [done|]). destruct a; [|done].
  do 12 (destruct b as [|? b]; [done|]). destruct b; [|done].
  do 12 (destruct c as [|? c]; [done|]). destruct c; [|done]. clear.
  rewrite !value_take. cbn [product_limbs take horner]. ring.
Qed.

Lemma all_int64_ok s iv : within s iv → forallb (λ x, bool_decide (- 2 ^ 63 ≤ x.1 ∧ x.2 < 2 ^ 63)) iv = true →
  all_int64 s = Ok s.
Proof.
  induction 1 as [|z x s iv Hz _ IH]; [done|]. cbn [forallb]. intros [Hx%bool_decide_eq_true Hall]%andb_true_iff.
  cbn [all_int64]. destruct (int64_ok z x x Hz) as [-> _]; [by unfold iv_int64; rewrite decide_True|].
  cbn [mbind result_bind]. by rewrite (IH Hall).
Qed.

(** *** Each routine *)

Definition byte_string (n : nat) (s : list Z) : Prop := bytes s ∧ length s = n.
Global Instance byte_string_dec n s : Decision (byte_string n s).
Proof. unfold byte_string. apply _. Defined.

Lemma narrow_ok s iv v : within s iv → length s = 12%nat → value 12 s = v →
  routine_check reduce_narrow 13 (iv ++ [(0, 0)]) = true →
  ∃ s', run (reduce_narrow ++ canonical) (s ++ [0]) = Ok s' ∧ store_scalar s' = le_bytes 32 (v mod order).
Proof.
  intros Hs Hl <- Hc. destruct (routine_ok _ 13 _ _ (within_snoc_zero s iv Hs) Hc) as (s' & R & Hst).
  exists s'. split; [done|]. by rewrite Hst, value_snoc_zero.
Qed.

Lemma sc_reduce32_ok a : byte_string 32 a → sc_reduce32 a = Ok (le_bytes 32 (le_value a mod order)).
Proof.
  intros [Hb Hl]. unfold sc_reduce32.
  destruct (narrow_ok (load_scalar a) narrow_iv (le_value a)) as (s & -> & Hs);
    [by apply load_scalar_within|done|by apply load_scalar_value|vm_compute; reflexivity|].
  cbn [mbind result_bind]. by rewrite Hs.
Qed.

Lemma sc_add_ok a b : byte_string 32 a → byte_string 32 b →
  sc_add a b = Ok (le_bytes 32 ((le_value a + le_value b) mod order)).
Proof.
  intros [Ha La] [Hb Lb]. unfold sc_add.
  destruct (narrow_ok (zip_with Z.add (load_scalar a) (load_scalar b)) (zip_with iv_plus narrow_iv narrow_iv)
    (le_value a + le_value b)) as (s & -> & Hs).
  - apply within_zip_with; [|by apply load_scalar_within..]. unfold inside. cbn. lia.
  - done.
  - rewrite (value_zip_with Z.add), !load_scalar_value by (done || lia). done.
  - vm_compute. reflexivity.
  - cbn [mbind result_bind]. by rewrite Hs.
Qed.

Lemma sc_sub_ok a b : byte_string 32 a → byte_string 32 b →
  sc_sub a b = Ok (le_bytes 32 ((le_value a - le_value b) mod order)).
Proof.
  intros [Ha La] [Hb Lb]. unfold sc_sub.
  destruct (narrow_ok (zip_with Z.sub (load_scalar a) (load_scalar b)) (zip_with iv_minus narrow_iv narrow_iv)
    (le_value a - le_value b)) as (s & -> & Hs).
  - apply within_zip_with; [|by apply load_scalar_within..]. unfold inside. cbn. lia.
  - done.
  - rewrite (value_zip_with Z.sub), !load_scalar_value by (done || lia). done.
  - vm_compute. reflexivity.
  - cbn [mbind result_bind]. by rewrite Hs.
Qed.

Lemma sc_reduce_ok w : byte_string 64 w → sc_reduce w = Ok (le_bytes 32 (le_value w mod order)).
Proof.
  intros [Hw Hl]. unfold sc_reduce. rewrite load_wide_digits by done.
  pose proof (le_value_bound w Hw) as Hb. rewrite Hl in Hb. change (8 * Z.of_nat 64) with 512 in Hb.
  assert (within (digits 23 (le_value w)) (digits_iv 23 (2 ^ 29 - 1))) as Hin.
  { apply digits_within; [lia|]. change (21 * Z.of_nat 23) with 483.
    enough (le_value w / 2 ^ 483 < 2 ^ 29) by lia. apply Z.div_lt_upper_bound; lia. }
  destruct (routine_ok reduce_wide 24 _ _ Hin) as (s & -> & Hs); [vm_compute; reflexivity|].
  cbn [mbind result_bind]. by rewrite Hs, digits_value.
Qed.

Lemma sc_mulsub_ok a b c : byte_string 32 a → byte_string 32 b → byte_string 32 c →
  sc_mulsub a b c = Ok (le_bytes 32 ((le_value c - le_value a * le_value b) mod order)).
Proof.
  intros [Ha La] [Hb Lb] [Hc Lc]. unfold sc_mulsub.
  pose proof (product_within _ _ _ (load_scalar_within a Ha La) (load_scalar_within b Hb Lb) (load_scalar_within c Hc Lc)) as Hin.
  rewrite (all_int64_ok _ _ Hin) by (vm_compute; reflexivity). cbn [mbind result_bind].
  destruct (routine_ok reduce_product 24 _ _ Hin) as (s & -> & Hs); [vm_compute; reflexivity|].
  cbn [mbind result_bind]. rewrite Hs, product_value by done. by rewrite !load_scalar_value.
Qed.

(** *** The tests *)

Lemma signum_sgn a : - 2 ^ 63 < a < 2 ^ 63 → signum a = Z.sgn a.
Proof.
  intros Ha. unfold signum. rewrite !Z.shiftr_div_pow2 by lia.
  destruct (Z.sgn_spec a) as [[? ->]|[[? ->]|[? ->]]]; Z.div_mod_to_equations; lia.
Qed.

(** The words compared so far have the sign [t] shows; a more significant
    word, unless equal, decides. *)
Lemma sgn_step t k l s x y : Z.sgn t = Z.sgn (l - s) → - 2 ^ k < t < 2 ^ k → 0 ≤ k →
  0 ≤ l < 2 ^ (32 * k) → 0 ≤ s < 2 ^ (32 * k) → 0 ≤ x < 2 ^ 32 → 0 ≤ y < 2 ^ 32 →
  Z.sgn (t + Z.sgn (x - y) * 2 ^ k) = Z.sgn (l + 2 ^ (32 * k) * x - (s + 2 ^ (32 * k) * y)) ∧
  - 2 ^ (k + 1) < t + Z.sgn (x - y) * 2 ^ k < 2 ^ (k + 1) ∧
  0 ≤ l + 2 ^ (32 * k) * x < 2 ^ (32 * (k + 1)) ∧ 0 ≤ s + 2 ^ (32 * k) * y < 2 ^ (32 * (k + 1)).
Proof.
  intros Hsgn Ht Hk Hl Hs Hx Hy. replace (32 * (k + 1)) with (32 * k + 32) by lia. rewrite !Z.pow_add_r by lia.
  set (p := 2 ^ (32 * k)) in *. set (q := 2 ^ k) in *. change (2 ^ 1) with 2. change (2 ^ 32) with 4294967296 in *.
  clearbody p q. split; [|split; [|split; nia]].
  - destruct (Z.sgn_spec (x - y)) as [[? ->]|[[? ->]|[? ->]]].
    + rewrite !Z.sgn_pos by nia. done.
    + replace y with x by lia. rewrite Z.mul_0_l, Z.add_0_r, Hsgn. f_equal. lia.
    + rewrite !Z.sgn_neg by nia. done.
  - destruct (Z.sgn_spec (x - y)) as [[? ->]|[[? ->]|[? ->]]]; lia.
Qed.

(** The words of a scalar, least significant first. *)
Lemma le_value_words s : byte_string 32 s →
  le_value s = load_4 s 0 + 2 ^ 32 * load_4 s 4 + 2 ^ 64 * load_4 s 8 + 2 ^ 96 * load_4 s 12 +
    2 ^ 128 * load_4 s 16 + 2 ^ 160 * load_4 s 20 + 2 ^ 192 * load_4 s 24 + 2 ^ 224 * load_4 s 28 ∧
  ∀ i, 0 ≤ load_4 s i < 2 ^ 32.
Proof.
  intros [Hs Hl]. pose proof (le_value_bound s Hs) as Hb. rewrite Hl in Hb. change (8 * Z.of_nat 32) with 256 in Hb.
  split; [|intros i; rewrite (load_4_value s Hs i); by apply Z.mod_pos_bound].
  rewrite !(load_4_value s Hs). set (v := le_value s) in *. clearbody v. clear s Hs Hl.
  change (8 * Z.of_nat 0) with 0. change (8 * Z.of_nat 4) with 32. change (8 * Z.of_nat 8) with 64.
  change (8 * Z.of_nat 12) with 96. change (8 * Z.of_nat 16) with 128. change (8 * Z.of_nat 20) with 160.
  change (8 * Z.of_nat 24) with 192. change (8 * Z.of_nat 28) with 224. rewrite Z.div_1_r.
  Z.div_mod_to_equations. lia.
Qed.

Lemma sc_isvalid_vartime_ok s : byte_string 32 s → sc_isvalid_vartime s = (le_value s <? order).
Proof.
  intros Hs. destruct (le_value_words s Hs) as [-> Hw]. unfold sc_isvalid_vartime.
  pose proof (Hw 0%nat). pose proof (Hw 4%nat). pose proof (Hw 8%nat). pose proof (Hw 12%nat).
  pose proof (Hw 16%nat). pose proof (Hw 20%nat). pose proof (Hw 24%nat). pose proof (Hw 28%nat). clear Hw Hs.
  rewrite !signum_sgn by lia. rewrite !Z.shiftl_mul_pow2, Z.shiftr_div_pow2 by lia.
  replace (- load_4 s 16) with (0 - load_4 s 16) by lia. replace (- load_4 s 20) with (0 - load_4 s 20) by lia.
  replace (- load_4 s 24) with (0 - load_4 s 24) by lia.
  assert (Z.sgn (Z.sgn (1559614444 - load_4 s 0)) = Z.sgn (1559614444 - load_4 s 0)) as S0 by apply Z.sgn_sgn.
  assert (- 2 ^ 1 < Z.sgn (1559614444 - load_4 s 0) < 2 ^ 1) as B0 by lia.
  destruct (sgn_step _ 1 _ _ 1477600026 (load_4 s 4) S0 B0) as (S1 & B1 & L1 & V1); [lia..|].
  destruct (sgn_step _ 2 _ _ 2734136534 (load_4 s 8) S1 B1) as (S2 & B2 & L2 & V2); [lia|done..|].
  destruct (sgn_step _ 3 _ _ 350157278 (load_4 s 12) S2 B2) as (S3 & B3 & L3 & V3); [lia|done..|].
  destruct (sgn_step _ 4 _ _ 0 (load_4 s 16) S3 B3) as (S4 & B4 & L4 & V4); [lia|done..|].
  destruct (sgn_step _ 5 _ _ 0 (load_4 s 20) S4 B4) as (S5 & B5 & L5 & V5); [lia|done..|].
  destruct (sgn_step _ 6 _ _ 0 (load_4 s 24) S5 B5) as (S6 & B6 & L6 & V6); [lia|done..|].
  destruct (sgn_step _ 7 _ _ 268435456 (load_4 s 28) S6 B6) as (S7 & B7 & L7 & V7); [lia|done..|].
  clear S0 S1 S2 S3 S4 S5 S6 B0 B1 B2 B3 B4 B5 B6 L1 V1 L2 V2 L3 V3 L4 V4 L5 V5 L6 V6.
  set (t := _ + Z.sgn (268435456 - load_4 s 28) * 2 ^ 7) in *. clearbody t.
  change order with (1559614444 + 2 ^ (32 * 1) * 1477600026 + 2 ^ (32 * 2) * 2734136534 +
    2 ^ (32 * 3) * 350157278 + 2 ^ (32 * 4) * 0 + 2 ^ (32 * 5) * 0 + 2 ^ (32 * 6) * 0 + 2 ^ (32 * 7) * 268435456 + 1).
  change (2 ^ 64) with (2 ^ (32 * 2)). change (2 ^ 96) with (2 ^ (32 * 3)). change (2 ^ 128) with (2 ^ (32 * 4)).
  change (2 ^ 160) with (2 ^ (32 * 5)). change (2 ^ 192) with (2 ^ (32 * 6)). change (2 ^ 224) with (2 ^ (32 * 7)).
  change (2 ^ 32) with (2 ^ (32 * 1)).
  set (v := load_4 s 0 + _ + _ + _ + _ + _ + _ + _) in *. clearbody v.
  set (l := 1559614444 + _ + _ + _ + _ + _ + _ + _) in *. clearbody l. clear - S7 B7.
  apply eq_true_iff_eq. rewrite Z.eqb_eq, Z.ltb_lt.
  destruct (Z.sgn_spec (l - v)) as [[? Hv]|[[? Hv]|[? Hv]]]; rewrite Hv in S7;
    destruct (Z.sgn_spec t) as [[? Ht]|[[? Ht]|[? Ht]]]; rewrite Ht in S7; try discriminate; Z.div_mod_to_equations; lia.
Qed.

Lemma foldl_lor_zero s d : bytes s → is_byte d →
  is_byte (foldl Z.lor d s) ∧ (foldl Z.lor d s = 0 ↔ d = 0 ∧ le_value s = 0).
Proof.
  intros Hs. revert d. induction Hs as [|b s Hb Hs IH]; intros d Hd; [cbn; split; [done|tauto]|].
  cbn [foldl le_value]. pose proof (le_value_bound s Hs) as Hv.
  assert (is_byte (Z.lor d b)) as Hdb.
  { unfold is_byte in *. split; [apply Z.lor_nonneg; lia|]. change 256 with (2 ^ 8).
    destruct (Z.eq_dec (Z.lor d b) 0) as [->|Hne]; [done|]. apply Z.log2_lt_pow2.
    - assert (0 ≤ Z.lor d b) by (apply Z.lor_nonneg; lia). lia.
    - rewrite Z.log2_lor by lia. apply Z.max_lub_lt.
      + destruct (Z.eq_dec d 0) as [->|]; [done|]. apply Z.log2_lt_pow2; lia.
      + destruct (Z.eq_dec b 0) as [->|]; [done|]. apply Z.log2_lt_pow2; lia. }
  destruct (IH _ Hdb) as [H1 H2]. split; [done|]. rewrite H2, Z.lor_eq_0_iff. unfold is_byte in *. lia.
Qed.

Lemma sc_iszero_ok s : bytes s → sc_iszero s = (le_value s =? 0).
Proof.
  intros Hs. destruct (foldl_lor_zero s 0 Hs) as [Hd Hz]; [done|]. unfold sc_iszero, sodium_is_zero.
  set (d := foldl Z.lor 0 s) in *. clearbody d. rewrite Z.shiftr_div_pow2 by lia. unfold is_byte in Hd.
  apply eq_true_iff_eq. rewrite negb_true_iff, Z.eqb_neq, Z.eqb_eq. destruct (decide (d = 0)) as [->|Hne].
  - split; [|done]. intros _. by apply Hz.
  - replace ((d - 1) / 2 ^ 8) with 0 by (Z.div_mod_to_equations; lia). cbn. split; [done|]. intros Hv. tauto.
Qed.

(** ** The property *)

(** C13: The scalar routines never leave 64-bit arithmetic and return the
    canonical representative modulo the order of the base point: sums,
    differences and [c - a * b] of any 32-byte integers, reduced or not, and the
    reductions of 32 and 64 bytes; a scalar is valid exactly when it is below
    the order, so every result is. *)
Theorem scalar_arithmetic a b c w :
  byte_string 32 a → byte_string 32 b → byte_string 32 c → byte_string 64 w →
  sc_add a b = Ok (le_bytes 32 ((le_value a + le_value b) mod order)) ∧
  sc_sub a b = Ok (le_bytes 32 ((le_value a - le_value b) mod order)) ∧
  sc_mulsub a b c = Ok (le_bytes 32 ((le_value c - le_value a * le_value b) mod order)) ∧
  sc_reduce32 a = Ok (le_bytes 32 (le_value a mod order)) ∧
  sc_reduce w = Ok (le_bytes 32 (le_value w mod order)) ∧
  sc_isvalid_vartime a = (le_value a <? order) ∧
  sc_iszero a = (le_value a =? 0).
Proof.
  intros Ha Hb Hc Hw. split; [by apply sc_add_ok|]. split; [by apply sc_sub_ok|]. split; [by apply sc_mulsub_ok|].
  split; [by apply sc_reduce32_ok|]. split; [by apply sc_reduce_ok|]. split; [by apply sc_isvalid_vartime_ok|].
  apply sc_iszero_ok, Ha.
Qed.

Lemma scalar_arithmetic_witness :
  sc_mulsub (le_bytes 32 (2 ^ 256 - 1)) (le_bytes 32 (order - 1)) (le_bytes 32 7) =
    Ok (le_bytes 32 ((le_value (le_bytes 32 7) -
      le_value (le_bytes 32 (2 ^ 256 - 1)) * le_value (le_bytes 32 (order - 1))) mod order)).
Proof.
  apply (scalar_arithmetic (le_bytes 32 (2 ^ 256 - 1)) (le_bytes 32 (order - 1)) (le_bytes 32 7) (le_bytes 64 1));
    apply (bool_decide_unpack _); vm_compute; exact I.
Defined.

End ScalarLaws.
