(* ===== verification/Crypto.v ===== *)
(** * Keys and signatures (src/src/crypto/crypto.cpp)

    Key derivations between sender and receiver, key images, signatures, ring
    signatures and proofs of payment.  The scalars are those of Scalars.v.
    The points of the curve are behind the interface [Curve]: what crypto-ops.c
    offers to crypto.cpp, with its representations of a point ([ge_p2],
    [ge_p3], [ge_p1p1], [ge_cached]) and the conversions between them left out.
    The hash function and the random bytes are arguments; [rnd j] are the 64
    bytes of the [j]-th draw. *)

From S2P Require Import Prelude Containers Varint CryptoNote Redo Scalars.
Import Containers CryptoNote Redo Scalars.

Local Open Scope Z_scope.

Module Crypto.

(** ** The operations on points *)

Class Curve := {
  point : Type;
  ge_frombytes_vartime : list Z → option point;
  ge_tobytes : point → list Z;
  ge_scalarmult_base : list Z → point;
  ge_scalarmult : list Z → point → point;
  ge_add : point → point → point;
  ge_sub : point → point → point;
  ge_mul8 : point → point;
  (** [a * A + b * B] for the base point [B], and for a point [B]. *)
  ge_double_scalarmult_base_vartime : list Z → point → list Z → point;
  ge_double_scalarmult_precomp_vartime : list Z → point → list Z → point → point;
  (** The point is of the order of the base point: the function returns zero. *)
  ge_check_subgroup_precomp_vartime : point → bool;
  ge_fromfe_frombytes_vartime : list Z → point;
}.

Abbreviation SecretKey := (list Z).
Abbreviation KeyDerivation := (list Z).
Abbreviation EllipticCurveScalar := (list Z).

Record KeyPair := { public_key : PublicKey; secret_key : SecretKey }.

Definition sig_c (sig : Signature) : EllipticCurveScalar := take 32 sig.
Definition sig_r (sig : Signature) : EllipticCurveScalar := drop 32 sig.
Definition zero_signature : Signature := replicate 64 0.

(** [assert(sc_isvalid_vartime(&key))]. *)
Definition assert_valid (key : SecretKey) : result unit :=
  if sc_isvalid_vartime key then mret () else Undefined "assert(sc_isvalid_vartime)".

Section crypto.
Context `{Curve} (cn_fast_hash : list Z → Hash).

Definition random_scalar (tmp : list Z) : result EllipticCurveScalar := sc_reduce tmp.

Definition hash_to_scalar (data : list Z) : result EllipticCurveScalar := sc_reduce32 (cn_fast_hash data).

Definition random_keypair (tmp : list Z) : result KeyPair :=
  sec ← random_scalar tmp;
  mret {| public_key := ge_tobytes (ge_scalarmult_base sec); secret_key := sec |}.

Definition key_isvalid (key : PublicKey) : bool := bool_decide (is_Some (ge_frombytes_vartime key)).

Definition secret_key_to_public_key (sec : SecretKey) : option PublicKey :=
  if sc_isvalid_vartime sec then Some (ge_tobytes (ge_scalarmult_base sec)) else None.

Definition keys_match (secret_key : SecretKey) (expected_public_key : PublicKey) : bool :=
  match secret_key_to_public_key secret_key with
  | Some pub => bool_decide (expected_public_key = pub)
  | None => false
  end.

(** ** Derivations *)

Definition generate_key_derivation (key1 : PublicKey) (key2 : SecretKey) : result (option KeyDerivation) :=
  assert_valid key2;;
  match ge_frombytes_vartime key1 with
  | None => mret None
  | Some P => mret (Some (ge_tobytes (ge_mul8 (ge_scalarmult key2 P))))
  end.

(** The buffer has room for a varint of 64 bits. *)
Definition derivation_to_scalar (derivation : KeyDerivation) (output_index : nat) :
    result EllipticCurveScalar :=
  index ← Varint.write_varint_into 10 (Z.of_nat output_index);
  hash_to_scalar (derivation ++ index).

Definition derive_public_key (derivation : KeyDerivation) (output_index : nat) (base : PublicKey) :
    result (option PublicKey) :=
  match ge_frombytes_vartime base with
  | None => mret None
  | Some P =>
      scalar ← derivation_to_scalar derivation output_index;
      mret (Some (ge_tobytes (ge_add P (ge_scalarmult_base scalar))))
  end.

(** The base key and [hashed_derivation]. *)
Definition underive_public_key_and_get_scalar (derivation : KeyDerivation) (output_index : nat)
    (derived_key : PublicKey) : result (option (PublicKey * EllipticCurveScalar)) :=
  match ge_frombytes_vartime derived_key with
  | None => mret None
  | Some P =>
      scalar ← derivation_to_scalar derivation output_index;
      mret (Some (ge_tobytes (ge_sub P (ge_scalarmult_base scalar)), scalar))
  end.

Definition underive_public_key (derivation : KeyDerivation) (output_index : nat)
    (derived_key : PublicKey) : result (option PublicKey) :=
  match ge_frombytes_vartime derived_key with
  | None => mret None
  | Some P =>
      scalar ← derivation_to_scalar derivation output_index;
      mret (Some (ge_tobytes (ge_sub P (ge_scalarmult_base scalar))))
  end.

Definition derive_secret_key (derivation : KeyDerivation) (output_index : nat) (base : SecretKey) :
    result SecretKey :=
  assert_valid base;;
  scalar ← derivation_to_scalar derivation output_index;
  sc_add base scalar.

(** The same with a suffix hashed in, of at most 32 bytes. *)
Definition derivation_to_scalar_with (derivation : KeyDerivation) (output_index : nat) (suffix : list Z) :
    result EllipticCurveScalar :=
  (if (length suffix <=? 32)%nat then mret () else Undefined "assert(suffix_length <= 32)");;
  index ← Varint.write_varint_into 10 (Z.of_nat output_index);
  hash_to_scalar (derivation ++ index ++ suffix).

Definition derive_public_key_with (derivation : KeyDerivation) (output_index : nat) (base : PublicKey)
    (suffix : list Z) : result (option PublicKey) :=
  match ge_frombytes_vartime base with
  | None => mret None
  | Some P =>
      scalar ← derivation_to_scalar_with derivation output_index suffix;
      mret (Some (ge_tobytes (ge_add P (ge_scalarmult_base scalar))))
  end.

Definition derive_secret_key_with (derivation : KeyDerivation) (output_index : nat) (base : SecretKey)
    (suffix : list Z) : result SecretKey :=
  assert_valid base;;
  scalar ← derivation_to_scalar_with derivation output_index suffix;
  sc_add base scalar.

Definition underive_public_key_with (derivation : KeyDerivation) (output_index : nat)
    (derived_key : PublicKey) (suffix : list Z) : result (option PublicKey) :=
  match ge_frombytes_vartime derived_key with
  | None => mret None
  | Some P =>
      scalar ← derivation_to_scalar_with derivation output_index suffix;
      mret (Some (ge_tobytes (ge_sub P (ge_scalarmult_base scalar))))
  end.

(** ** Signatures *)

Definition generate_signature (prefix_hash : Hash) (pub : PublicKey) (sec : SecretKey) (tmp : list Z) :
    result Signature :=
  assert_valid sec;;
  (if bool_decide (pub = ge_tobytes (ge_scalarmult_base sec)) then mret ()
   else Undefined "assert(pub == t2)");;
  k ← random_scalar tmp;
  let comm := ge_tobytes (ge_scalarmult_base k) in
  c ← hash_to_scalar (prefix_hash ++ pub ++ comm);
  r ← sc_mulsub c sec k;
  mret (c ++ r).

(** The answer and [*key_corrupted]; a debug build stops at a corrupted key. *)
Definition check_signature (prefix_hash : Hash) (pub : PublicKey) (sig : Signature) : result (bool * bool) :=
  match ge_frombytes_vartime pub with
  | None => mret (false, true)
  | Some P =>
      if negb (sc_isvalid_vartime (sig_c sig)) || negb (sc_isvalid_vartime (sig_r sig))
      then mret (false, false) else
      let comm := ge_tobytes (ge_double_scalarmult_base_vartime (sig_c sig) P (sig_r sig)) in
      c ← hash_to_scalar (prefix_hash ++ pub ++ comm);
      c ← sc_sub c (sig_c sig);
      mret (sc_iszero c, false)
  end.

(** ** Key images and ring signatures *)

Definition hash_to_ec (key : PublicKey) : point := ge_mul8 (ge_fromfe_frombytes_vartime (cn_fast_hash key)).

Definition generate_key_image (pub : PublicKey) (sec : SecretKey) : result KeyImage :=
  assert_valid sec;;
  mret (ge_tobytes (ge_scalarmult sec (hash_to_ec pub))).

(** What the loop over the ring has so far: [k] once drawn, [sum], the buffer
    [ab], the signatures and the number of draws. *)
Record Ring := {
  ring_k : EllipticCurveScalar;
  ring_sum : EllipticCurveScalar;
  ring_ab : list Z;
  ring_sigs : list Signature;
  ring_draws : nat;
}.

Definition ring_commit (image : point) (pub : PublicKey) (P : point) (sig : Signature) : list Z :=
  ge_tobytes (ge_double_scalarmult_base_vartime (sig_c sig) P (sig_r sig)) ++
  ge_tobytes (ge_double_scalarmult_precomp_vartime (sig_r sig) (hash_to_ec pub) (sig_c sig) image).

Section generate.
Context (rnd : nat → list Z).

Fixpoint generate_ring (image : point) (pubs : list PublicKey) (i sec_index : nat) (ring : Ring) :
    result (option Ring) :=
  match pubs with
  | [] => mret (Some ring)
  | pub :: pubs =>
    if decide (i = sec_index) then
      k ← random_scalar (rnd (ring_draws ring));
      generate_ring image pubs (S i) sec_index
        {| ring_k := k; ring_sum := ring_sum ring;
           ring_ab := ring_ab ring ++ ge_tobytes (ge_scalarmult_base k) ++
                      ge_tobytes (ge_scalarmult k (hash_to_ec pub));
           ring_sigs := ring_sigs ring ++ [zero_signature]; ring_draws := S (ring_draws ring) |}
    else
      c ← random_scalar (rnd (ring_draws ring));
      r ← random_scalar (rnd (S (ring_draws ring)));
      match ge_frombytes_vartime pub with
      | None => mret None
      | Some P =>
        sum ← sc_add (ring_sum ring) c;
        generate_ring image pubs (S i) sec_index
          {| ring_k := ring_k ring; ring_sum := sum;
             ring_ab := ring_ab ring ++ ring_commit image pub P (c ++ r);
             ring_sigs := ring_sigs ring ++ [c ++ r]; ring_draws := S (S (ring_draws ring)) |}
      end
  end.

(** [generate_ring_signature]: the signatures, or [None] where it returns
    [false]; with the number of draws. *)
Definition generate_ring_signature (prefix_hash : Hash) (image : KeyImage) (pubs : list PublicKey)
    (sec : SecretKey) (sec_index draws : nat) : result (option (list Signature) * nat) :=
  match pubs !! sec_index with
  | None => mret (None, draws)
  | Some pub =>
    assert_valid sec;;
    (if bool_decide (pub = ge_tobytes (ge_scalarmult_base sec)) then mret ()
     else Undefined "assert(*pubs[sec_index] == t2)");;
    t3 ← generate_key_image pub sec;
    (if bool_decide (image = t3) then mret () else Undefined "assert(image == t3)");;
    match ge_frombytes_vartime image with
    | None => mret (None, draws)
    | Some image_unp =>
      ring ← generate_ring image_unp pubs 0 sec_index
        {| ring_k := []; ring_sum := sc_0; ring_ab := []; ring_sigs := []; ring_draws := draws |};
      match ring with
      | None => mret (None, draws)
      | Some ring =>
        h ← hash_to_scalar (prefix_hash ++ ring_ab ring);
        c ← sc_sub h (ring_sum ring);
        r ← sc_mulsub c sec (ring_k ring);
        mret (Some (<[sec_index := c ++ r]> (ring_sigs ring)), ring_draws ring)
      end
    end
  end.

End generate.

(** What the loop of the check has so far, or why it ended: [sum] and the
    buffer, or the answer with [*key_corrupted]. *)
Fixpoint check_ring (image : point) (pubs : list PublicKey) (sigs : list Signature)
    (sum : EllipticCurveScalar) (ab : list Z) : result ((bool * bool) + (EllipticCurveScalar * list Z)) :=
  match pubs with
  | [] => mret (inr (sum, ab))
  | pub :: pubs =>
    match sigs with
    | [] => Undefined "sigs[i]"
    | sig :: sigs =>
      if negb (sc_isvalid_vartime (sig_c sig)) || negb (sc_isvalid_vartime (sig_r sig))
      then mret (inl (false, false)) else
      match ge_frombytes_vartime pub with
      | None => mret (inl (false, true))
      | Some P =>
        sum ← sc_add sum (sig_c sig);
        check_ring image pubs sigs sum (ab ++ ring_commit image pub P sig)
      end
    end
  end.

Definition check_ring_signature (prefix_hash : Hash) (image : KeyImage) (pubs : list PublicKey)
    (sigs : list Signature) (check_key_image : bool) : result (bool * bool) :=
  match ge_frombytes_vartime image with
  | None => mret (false, false)
  | Some image_unp =>
    if check_key_image && negb (ge_check_subgroup_precomp_vartime image_unp) then mret (false, false) else
    r ← check_ring image_unp pubs sigs sc_0 [];
    match r with
    | inl answer => mret answer
    | inr (sum, ab) =>
      h ← hash_to_scalar (prefix_hash ++ ab);
      h ← sc_sub h sum;
      mret (sc_iszero h, false)
    end
  end.

(** ** Proofs of payment *)

Definition generate_sendproof (txkey_pub : PublicKey) (txkey_sec : SecretKey)
    (receiver_view_key_pub : PublicKey) (derivation : KeyDerivation) (message_hash : Hash) (tmp : list Z) :
    result (option Signature) :=
  match ge_frombytes_vartime receiver_view_key_pub with
  | None => mret None
  | Some V =>
    k ← random_scalar tmp;
    let a := ge_tobytes (ge_scalarmult_base k) in
    let b := ge_tobytes (ge_mul8 (ge_scalarmult k V)) in
    c ← hash_to_scalar (message_hash ++ txkey_pub ++ receiver_view_key_pub ++ derivation ++ a ++ b);
    r ← sc_mulsub c txkey_sec k;
    mret (Some (c ++ r))
  end.

Definition check_sendproof (txkey_pub receiver_view_key_pub : PublicKey) (derivation : KeyDerivation)
    (message_hash : Hash) (proof : Signature) : result bool :=
  if negb (sc_isvalid_vartime (sig_c proof)) || negb (sc_isvalid_vartime (sig_r proof)) then mret false else
  match ge_frombytes_vartime txkey_pub with
  | None => mret false
  | Some T =>
    let a := ge_tobytes (ge_double_scalarmult_base_vartime (sig_c proof) T (sig_r proof)) in
    match ge_frombytes_vartime derivation with
    | None => mret false
    | Some D =>
      if negb (ge_check_subgroup_precomp_vartime D) then mret false else
      match ge_frombytes_vartime receiver_view_key_pub with
      | None => mret false
      | Some V =>
        let b := ge_tobytes (ge_double_scalarmult_precomp_vartime (sig_r proof) (ge_mul8 V) (sig_c proof) D) in
        h ← hash_to_scalar (message_hash ++ txkey_pub ++ receiver_view_key_pub ++ derivation ++ a ++ b);
        h ← sc_sub h (sig_c proof);
        mret (sc_iszero h)
      end
    end
  end.

End crypto.
End Crypto.
