(* ===== verification/CryptoLaws.v ===== *)
(** * Keys and signatures: theorems

    [CurveLaws] is what crypto-ops.c promises of its points: a group of eight
    times the order of the base point, scalar multiples, and encodings that
    decode.  From it: the keys that sender and receiver derive agree, and what
    the signing functions make is accepted by the checking ones. *)

From S2P Require Import Prelude Containers Varint CryptoNote Redo Scalars ScalarLaws Crypto.
Import Containers CryptoNote Redo Scalars ScalarLaws Crypto.

Local Open Scope Z_scope.

Module CryptoLaws.

(** A scalar below the order, as every routine returns them. *)
Definition valid (s : list Z) : Prop := byte_string 32 s ∧ le_value s < order.

Class CurveLaws `(C : Curve) := {
  base : point;
  pt_zero : point;
  pt_add : point → point → point;
  pt_mul : Z → point → point;
  pt_add_assoc P Q R : pt_add P (pt_add Q R) = pt_add (pt_add P Q) R;
  pt_add_comm P Q : pt_add P Q = pt_add Q P;
  pt_add_zero P : pt_add pt_zero P = P;
  pt_mul_zero P : pt_mul 0 P = pt_zero;
  pt_mul_one P : pt_mul 1 P = P;
  pt_mul_plus a b P : pt_mul (a + b) P = pt_add (pt_mul a P) (pt_mul b P);
  pt_mul_times a b P : pt_mul (a * b) P = pt_mul a (pt_mul b P);
  pt_mul_add a P Q : pt_mul a (pt_add P Q) = pt_add (pt_mul a P) (pt_mul a Q);
  pt_mul_order P : pt_mul (8 * order) P = pt_zero;
  base_order : pt_mul order base = pt_zero;
  ge_frombytes_tobytes P : ge_frombytes_vartime (ge_tobytes P) = Some P;
  ge_tobytes_bytes P : byte_string 32 (ge_tobytes P);
  ge_scalarmult_base_law s : valid s → ge_scalarmult_base s = pt_mul (le_value s) base;
  ge_scalarmult_law s P : valid s → ge_scalarmult s P = pt_mul (le_value s) P;
  ge_add_law P Q : ge_add P Q = pt_add P Q;
  ge_sub_law P Q : ge_sub P Q = pt_add P (pt_mul (- 1) Q);
  ge_mul8_law P : ge_mul8 P = pt_mul 8 P;
  ge_double_base_law a A b : valid a → valid b →
    ge_double_scalarmult_base_vartime a A b = pt_add (pt_mul (le_value a) A) (pt_mul (le_value b) base);
  ge_double_precomp_law a A b B : valid a → valid b →
    ge_double_scalarmult_precomp_vartime a A b B = pt_add (pt_mul (le_value a) A) (pt_mul (le_value b) B);
  ge_check_subgroup_law P : ge_check_subgroup_precomp_vartime P = true ↔ pt_mul order P = pt_zero;
}.

(** ** Scalars *)

Lemma reduced_valid z : valid (le_bytes 32 (z mod order)).
Proof.
  pose proof order_bounds as [Ho1 Ho2].
  assert (0 ≤ z mod order < order) as Hz by (apply Z.mod_pos_bound; lia).
  split; [split; [apply bytes_le_bytes|apply length_le_bytes]|].
  rewrite le_value_le_bytes; [lia|]. change (8 * Z.of_nat 32) with 256. lia.
Qed.

Lemma reduced_value z : le_value (le_bytes 32 (z mod order)) = z mod order.
Proof.
  pose proof order_bounds as [Ho1 Ho2].
  assert (0 ≤ z mod order < order) as Hz by (apply Z.mod_pos_bound; lia).
  apply le_value_le_bytes. change (8 * Z.of_nat 32) with 256. lia.
Qed.

(** A result of the scalar routines, by its value. *)
Definition is_scalar (s : list Z) (z : Z) : Prop := valid s ∧ le_value s = z mod order.

Lemma reduced_is_scalar z : is_scalar (le_bytes 32 (z mod order)) z.
Proof. split; [apply reduced_valid|apply reduced_value]. Qed.

Lemma sc_add_scalar a b : valid a → valid b → ∃ s, sc_add a b = Ok s ∧ is_scalar s (le_value a + le_value b).
Proof. intros [Ha _] [Hb _]. rewrite sc_add_ok by done. eexists. split; [done|]. apply reduced_is_scalar. Qed.
Lemma sc_sub_scalar a b : valid a → valid b → ∃ s, sc_sub a b = Ok s ∧ is_scalar s (le_value a - le_value b).
Proof. intros [Ha _] [Hb _]. rewrite sc_sub_ok by done. eexists. split; [done|]. apply reduced_is_scalar. Qed.
Lemma sc_mulsub_scalar a b c : valid a → valid b → valid c →
  ∃ s, sc_mulsub a b c = Ok s ∧ is_scalar s (le_value c - le_value a * le_value b).
Proof.
  intros [Ha _] [Hb _] [Hc _]. rewrite sc_mulsub_ok by done. eexists. split; [done|]. apply reduced_is_scalar.
Qed.
Lemma random_scalar_valid tmp : byte_string 64 tmp → ∃ s, random_scalar tmp = Ok s ∧ valid s.
Proof. intros Ht. unfold random_scalar. rewrite sc_reduce_ok by done. eexists. split; [done|]. apply reduced_valid. Qed.

Lemma valid_check s : valid s → sc_isvalid_vartime s = true.
Proof. intros [Hs Hv]. rewrite sc_isvalid_vartime_ok by done. by apply Z.ltb_lt. Qed.
Lemma check_valid s : byte_string 32 s → sc_isvalid_vartime s = true → valid s.
Proof. intros Hs Hv. rewrite sc_isvalid_vartime_ok in Hv by done. split; [done|]. by apply Z.ltb_lt. Qed.
Lemma assert_valid_ok s : valid s → assert_valid s = Ok ().
Proof. intros Hs. unfold assert_valid. by rewrite valid_check. Qed.
Lemma valid_zero : valid sc_0 ∧ le_value sc_0 = 0.
Proof. split; [|done]. split; [|done]. apply (bool_decide_unpack _). vm_compute. exact I. Qed.

(** A difference that is zero modulo the order. *)
Lemma sc_sub_zero a b : valid a → valid b → ∃ s, sc_sub a b = Ok s ∧ sc_iszero s = (le_value a =? le_value b).
Proof.
  intros Ha Hb. destruct (sc_sub_scalar a b Ha Hb) as (s & -> & [[Hs _] Hv]). exists s. split; [done|].
  destruct Hs as [Hs _]. rewrite sc_iszero_ok, Hv by done. destruct Ha as [[Ha _] Ha'], Hb as [[Hb _] Hb'].
  pose proof (le_value_bound a Ha). pose proof (le_value_bound b Hb). apply eq_true_iff_eq. rewrite !Z.eqb_eq.
  split; [|intros ->; by rewrite Z.sub_diag].
  intros Hm. apply Z.mod_divide in Hm as [k Hk]; [|pose proof order_bounds; lia].
  assert (k = 0) as -> by nia. lia.
Qed.

Lemma take_drop_sig c r : length c = 32%nat → sig_c (c ++ r) = c ∧ sig_r (c ++ r) = r.
Proof. intros Hc. unfold sig_c, sig_r. rewrite <- Hc. by rewrite take_app_length, drop_app_length. Qed.

Section laws.
Context `{Hlaws : CurveLaws}.
Context (cn_fast_hash : list Z → Hash).
Hypothesis hash_bytes : ∀ data, byte_string 32 (cn_fast_hash data).

Lemma hash_to_scalar_valid data : ∃ s, hash_to_scalar cn_fast_hash data = Ok s ∧ valid s.
Proof using hash_bytes.
  unfold hash_to_scalar. rewrite sc_reduce32_ok by done. eexists. split; [done|]. apply reduced_valid.
Qed.

(** ** Multiples *)

Definition in_subgroup (P : point) : Prop := pt_mul order P = pt_zero.

Lemma pt_mul_pt_zero a : pt_mul a pt_zero = pt_zero.
Proof. rewrite <- (pt_mul_zero pt_zero), <- pt_mul_times. by rewrite Z.mul_0_r, pt_mul_zero. Qed.

Lemma pt_add_zero_r P : pt_add P pt_zero = P.
Proof. by rewrite pt_add_comm, pt_add_zero. Qed.

Lemma pt_mul_mod a P : in_subgroup P → pt_mul (a mod order) P = pt_mul a P.
Proof.
  intros HP. rewrite (Z.div_mod a order) at 2 by (pose proof order_bounds; lia).
  rewrite Z.add_comm, (Z.mul_comm order), pt_mul_plus, pt_mul_times, HP. by rewrite pt_mul_pt_zero, pt_add_zero_r.
Qed.

Lemma pt_mul_scalar s z P : in_subgroup P → is_scalar s z → pt_mul (le_value s) P = pt_mul z P.
Proof. intros HP [_ ->]. by apply pt_mul_mod. Qed.

Lemma base_in_subgroup : in_subgroup base.
Proof. apply base_order. Qed.

Lemma mul8_in_subgroup P : in_subgroup (ge_mul8 P).
Proof. unfold in_subgroup. rewrite ge_mul8_law, <- pt_mul_times, Z.mul_comm. apply pt_mul_order. Qed.

Lemma mul_in_subgroup a P : in_subgroup P → in_subgroup (pt_mul a P).
Proof.
  intros HP. unfold in_subgroup. rewrite <- pt_mul_times, Z.mul_comm, pt_mul_times, HP. apply pt_mul_pt_zero.
Qed.

Lemma pt_sub_add P Q : pt_add (pt_add P Q) (pt_mul (- 1) Q) = P.
Proof.
  rewrite <- pt_add_assoc, <- (pt_mul_one Q) at 1. rewrite <- pt_mul_plus. change (1 + - 1) with 0.
  by rewrite pt_mul_zero, pt_add_zero_r.
Qed.

(** ** Key pairs *)

Definition public_of (sec : SecretKey) : PublicKey := ge_tobytes (pt_mul (le_value sec) base).

Lemma scalarmult_base_public sec : valid sec → ge_tobytes (ge_scalarmult_base sec) = public_of sec.
Proof. intros Hs. by rewrite ge_scalarmult_base_law. Qed.

Lemma frombytes_public sec : ge_frombytes_vartime (public_of sec) = Some (pt_mul (le_value sec) base).
Proof. apply ge_frombytes_tobytes. Qed.

Lemma secret_public sec : valid sec → secret_key_to_public_key sec = Some (public_of sec).
Proof. intros Hs. unfold secret_key_to_public_key. by rewrite valid_check, scalarmult_base_public. Qed.

Lemma derivation_ok sec1 sec2 : valid sec1 → valid sec2 →
  generate_key_derivation (public_of sec1) sec2 =
    Ok (Some (ge_tobytes (pt_mul (8 * (le_value sec1 * le_value sec2)) base))).
Proof.
  intros H1 H2. unfold generate_key_derivation. rewrite assert_valid_ok by done. cbn [mbind result_bind].
  rewrite frombytes_public, ge_scalarmult_law, ge_mul8_law by done. rewrite <- !pt_mul_times.
  do 4 f_equal. ring.
Qed.

Lemma derivation_to_scalar_valid D n : Z.of_nat n < 2 ^ 64 →
  ∃ s, derivation_to_scalar cn_fast_hash D n = Ok s ∧ valid s.
Proof using hash_bytes.
  intros Hn. unfold derivation_to_scalar.
  destruct (Varint.write_varint_fits 10 (Z.of_nat n)) as (l & -> & _); [lia|lia|]. cbn [mbind result_bind].
  apply hash_to_scalar_valid.
Qed.

(** ** Signatures *)

Section sign.
Context (prefix_hash : Hash) (sec : SecretKey).
Hypothesis sec_valid : valid sec.

Lemma commitment_recovers k c r P : valid k → is_scalar r (le_value k - le_value c * le_value sec) →
  in_subgroup P →
  pt_add (pt_mul (le_value c) (pt_mul (le_value sec) P)) (pt_mul (le_value r) P) = pt_mul (le_value k) P.
Proof.
  intros Hk Hr HP. rewrite (pt_mul_scalar r _ P HP Hr), <- pt_mul_times, <- pt_mul_plus. f_equal. ring.
Qed.

Lemma commitment_recovers' k c r P : valid k → is_scalar r (le_value k - le_value c * le_value sec) →
  in_subgroup P →
  pt_add (pt_mul (le_value r) P) (pt_mul (le_value c) (pt_mul (le_value sec) P)) = pt_mul (le_value k) P.
Proof. intros. rewrite pt_add_comm. by apply commitment_recovers. Qed.

Lemma signature_ok tmp : byte_string 64 tmp →
  ∃ sig, generate_signature cn_fast_hash prefix_hash (public_of sec) sec tmp = Ok sig ∧
    check_signature cn_fast_hash prefix_hash (public_of sec) sig = Ok (true, false).
Proof using hash_bytes sec_valid.
  intros Ht. unfold generate_signature. rewrite assert_valid_ok by done. cbn [mbind result_bind].
  rewrite scalarmult_base_public, bool_decide_true by done. cbn [mret result_ret].
  destruct (random_scalar_valid tmp Ht) as (k & -> & Hk). cbn [mbind result_bind].
  rewrite scalarmult_base_public by done.
  destruct (hash_to_scalar_valid (prefix_hash ++ public_of sec ++ public_of k)) as (c & Hc & Hcv).
  rewrite Hc. cbn [mbind result_bind].
  destruct (sc_mulsub_scalar c sec k Hcv sec_valid Hk) as (r & -> & Hr). cbn [mbind result_bind mret result_ret].
  eexists. split; [reflexivity|]. unfold check_signature. rewrite frombytes_public.
  destruct (take_drop_sig c r) as [-> ->]; [by destruct Hcv as [[]]|].
  rewrite (valid_check c), (valid_check r) by (done || apply Hr). cbn [negb orb].
  rewrite ge_double_base_law by (done || apply Hr).
  rewrite (commitment_recovers k c r base Hk Hr base_in_subgroup). fold (public_of k). rewrite Hc.
  cbn [mbind result_bind]. destruct (sc_sub_zero c c Hcv Hcv) as (z & -> & Hz). cbn [mbind result_bind].
  by rewrite Hz, Z.eqb_refl.
Qed.

(** *** Rings *)

(** The ring with the signature of the signer in its place, when the signer
    is among the members from [i] on. *)
Definition placed (sig : Signature) (i sec_index : nat) (sigs : list Signature) : list Signature :=
  if decide (i ≤ sec_index)%nat then <[(sec_index - i)%nat := sig]> sigs else sigs.

(** The members' signatures [sigs] and commitments [ab]: with any signature of
    the signer that opens to the commitment made with [k], the check computes
    the same commitments, and the sum of all [c], [others] and the signer's. *)
Definition checks (image : point) (pubs : list PublicKey) (i sec_index : nat) (k : EllipticCurveScalar)
    (sigs : list Signature) (ab : list Z) (others : Z) : Prop :=
  ∀ pub sig, (i ≤ sec_index → pubs !! (sec_index - i) = Some pub)%nat →
    valid (sig_c sig) → valid (sig_r sig) →
    (∀ P, ge_frombytes_vartime pub = Some P →
      ring_commit cn_fast_hash image pub P sig =
        ge_tobytes (ge_scalarmult_base k) ++ ge_tobytes (ge_scalarmult k (hash_to_ec cn_fast_hash pub))) →
    ∀ sum0 ab0, valid sum0 → ∃ sum1,
      check_ring cn_fast_hash image pubs (placed sig i sec_index sigs) sum0 ab0 = Ok (inr (sum1, ab0 ++ ab)) ∧
      is_scalar sum1 (le_value sum0 + others + if decide (i ≤ sec_index)%nat then le_value (sig_c sig) else 0).

Lemma is_scalar_mod s z z' : is_scalar s z → z mod order = z' mod order → is_scalar s z'.
Proof. intros [Hs Hv] Hz. split; [done|]. by rewrite Hv. Qed.

Lemma add_mod_scalar x y s z : is_scalar s z → (le_value s + x) mod order = (z + x + y * order) mod order.
Proof. intros [_ ->]. by rewrite Z_mod_plus_full, Zplus_mod_idemp_l. Qed.

(** What the loop over the members from [i] on makes. *)
Lemma generate_ring_ok rnd image sec_index pubs i ring :
  (∀ j, byte_string 64 (rnd j)) → Forall (λ pub, is_Some (ge_frombytes_vartime pub)) pubs →
  valid (ring_sum ring) → ((sec_index < i)%nat → valid (ring_k ring)) →
  (sec_index < i + length pubs)%nat →
  ∃ ring' sigs ab others,
    generate_ring cn_fast_hash rnd image pubs i sec_index ring = Ok (Some ring') ∧
    ring_sigs ring' = ring_sigs ring ++ sigs ∧ length sigs = length pubs ∧
    ring_ab ring' = ring_ab ring ++ ab ∧ valid (ring_k ring') ∧
    is_scalar (ring_sum ring') (le_value (ring_sum ring) + others) ∧
    ((sec_index < i)%nat → ring_k ring' = ring_k ring) ∧
    checks image pubs i sec_index (ring_k ring') sigs ab others.
Proof using hash_bytes.
  intros Hrnd Hpubs. revert i ring. induction Hpubs as [|pub pubs [P HP] Hpubs IH]; intros i ring Hsum Hk Hi.
  { cbn [length] in Hi. exists ring, [], [], 0. rewrite !app_nil_r. split; [done|]. split; [done|]. split; [done|].
    split; [done|]. split; [apply Hk; lia|].
    assert (is_scalar (ring_sum ring) (le_value (ring_sum ring) + 0)) as Hs.
    { split; [done|]. rewrite Z.add_0_r, Z.mod_small; [done|]. destruct Hsum as [[Hb _] Hlt].
      pose proof (le_value_bound _ Hb). lia. }
    split; [done|]. split; [done|]. intros q sig _ _ _ _ sum0 ab0 H0. exists sum0.
    unfold placed. rewrite !decide_False by lia. rewrite app_nil_r. split; [done|].
    split; [done|]. rewrite !Z.add_0_r, Z.mod_small; [done|]. destruct H0 as [[Hb _] Hlt].
    pose proof (le_value_bound _ Hb). lia. }
  cbn [length] in Hi. cbn [generate_ring]. case_decide as His.
  - destruct (random_scalar_valid (rnd (ring_draws ring)) (Hrnd _)) as (k & -> & Hkv). cbn [mbind result_bind].
    set (ring1 := {| ring_k := k |}).
    destruct (IH (S i) ring1 Hsum (λ _, Hkv)) as (ring' & sigs & ab & others & -> & Hsg & Hl & Hab & Hk' & Hsc & Hsame & Hch);
      [lia|].
    exists ring', (zero_signature :: sigs), (ge_tobytes (ge_scalarmult_base k) ++
      ge_tobytes (ge_scalarmult k (hash_to_ec cn_fast_hash pub)) ++ ab), others.
    split; [done|]. split; [by rewrite Hsg; cbn; rewrite <- app_assoc|]. split; [cbn; lia|].
    split; [rewrite Hab; cbn; by rewrite <- !app_assoc|]. split; [done|]. split; [exact Hsc|]. split; [lia|].
    rewrite Hsame by lia. cbn [ring_k ring1]. rewrite Hsame in Hch by lia. cbn [ring_k ring1] in Hch.
    intros q sig Hq Hc Hr Hcom sum0 ab0 H0. specialize (Hq ltac:(lia)). subst i.
    rewrite Nat.sub_diag in Hq. injection Hq as ->. unfold placed. rewrite decide_True, Nat.sub_diag by lia.
    cbn [insert list_insert check_ring]. rewrite !valid_check by done. cbn [negb orb]. rewrite HP.
    destruct (sc_add_scalar sum0 (sig_c sig) H0 Hc) as (s1 & -> & [Hs1 Hv1]). cbn [mbind result_bind].
    rewrite (Hcom P HP).
    destruct (Hch q sig ltac:(lia) Hc Hr Hcom s1 (ab0 ++ (ge_tobytes (ge_scalarmult_base k) ++
      ge_tobytes (ge_scalarmult k (hash_to_ec cn_fast_hash q)))) Hs1) as (s2 & Hrun & Hs2).
    unfold placed in Hrun. rewrite decide_False in Hrun by lia. rewrite decide_False in Hs2 by lia. rewrite Hrun.
    exists s2. split; [by rewrite <- !app_assoc|]. eapply is_scalar_mod; [exact Hs2|].
    rewrite decide_True by lia. rewrite Z.add_0_r, Hv1, Zplus_mod_idemp_l. f_equal. lia.
  - destruct (random_scalar_valid (rnd (ring_draws ring)) (Hrnd _)) as (c & -> & Hcv). cbn [mbind result_bind].
    destruct (random_scalar_valid (rnd (S (ring_draws ring))) (Hrnd _)) as (r & -> & Hrv). cbn [mbind result_bind].
    rewrite HP. destruct (sc_add_scalar (ring_sum ring) c Hsum Hcv) as (s1 & -> & [Hs1 Hv1]). cbn [mbind result_bind].
    set (ring1 := {| ring_k := ring_k ring |}).
    destruct (IH (S i) ring1 Hs1) as (ring' & sigs & ab & others & -> & Hsg & Hl & Hab & Hk' & Hsc & Hsame & Hch);
      [intros Hlt; apply Hk; lia|lia|].
    exists ring', ((c ++ r) :: sigs), (ring_commit cn_fast_hash image pub P (c ++ r) ++ ab), (le_value c + others).
    split; [done|]. split; [by rewrite Hsg; cbn; rewrite <- app_assoc|]. split; [cbn; lia|].
    split; [rewrite Hab; cbn; by rewrite <- !app_assoc|]. split; [done|]. split.
    { eapply is_scalar_mod; [exact Hsc|]. cbn [ring_sum ring1]. rewrite Hv1, Zplus_mod_idemp_l. f_equal. lia. }
    split; [intros Hlt; rewrite Hsame by lia; done|].
    intros q sig Hq Hc Hr Hcom sum0 ab0 H0.
    assert (placed sig i sec_index ((c ++ r) :: sigs) = (c ++ r) :: placed sig (S i) sec_index sigs) as ->.
    { unfold placed. destruct (decide (i ≤ sec_index)%nat); [|by rewrite decide_False by lia].
      rewrite decide_True by lia. by replace (sec_index - i)%nat with (S (sec_index - S i)) by lia. }
    cbn [check_ring]. destruct (take_drop_sig c r) as [Hsc' Hsr']; [by destruct Hcv as [[]]|].
    rewrite Hsc', Hsr', !valid_check by done. cbn [negb orb]. rewrite HP.
    destruct (sc_add_scalar sum0 c H0 Hcv) as (s2 & -> & [Hs2 Hv2]). cbn [mbind result_bind].
    destruct (Hch q sig) with (sum0 := s2) (ab0 := ab0 ++ ring_commit cn_fast_hash image pub P (c ++ r))
      as (s3 & Hrun & Hs3); [|done..|].
    { intros Hle. rewrite <- Hq by lia. by replace (sec_index - i)%nat with (S (sec_index - S i)) by lia. }
    rewrite Hrun. exists s3. split; [by rewrite <- app_assoc|]. eapply is_scalar_mod; [exact Hs3|].
    rewrite Hv2.
    destruct (decide (S i ≤ sec_index)%nat); [rewrite decide_True by lia|rewrite decide_False by lia];
      rewrite <- !Z.add_assoc, Zplus_mod_idemp_l; f_equal; lia.
Qed.

(** The point a key image encodes. *)
Definition image_point : point := pt_mul (le_value sec) (hash_to_ec cn_fast_hash (public_of sec)).
Definition image_of : KeyImage := ge_tobytes image_point.

Lemma key_image_ok : generate_key_image cn_fast_hash (public_of sec) sec = Ok image_of.
Proof using sec_valid.
  unfold generate_key_image. rewrite assert_valid_ok by done. cbn [mbind result_bind].
  by rewrite ge_scalarmult_law.
Qed.

Lemma image_in_subgroup : ge_check_subgroup_precomp_vartime image_point = true.
Proof. apply ge_check_subgroup_law, mul_in_subgroup, mul8_in_subgroup. Qed.

Lemma signer_opens k c r : valid k → valid c → is_scalar r (le_value k - le_value c * le_value sec) →
  ∀ P, ge_frombytes_vartime (public_of sec) = Some P →
  ring_commit cn_fast_hash image_point (public_of sec) P (c ++ r) =
    ge_tobytes (ge_scalarmult_base k) ++ ge_tobytes (ge_scalarmult k (hash_to_ec cn_fast_hash (public_of sec))).
Proof.
  intros Hk Hc Hr P HP. rewrite frombytes_public in HP. injection HP as <-. unfold ring_commit.
  destruct (take_drop_sig c r) as [-> ->]; [by destruct Hc as [[]]|].
  rewrite ge_double_base_law, ge_double_precomp_law, ge_scalarmult_base_law, ge_scalarmult_law by (done || apply Hr).
  rewrite (commitment_recovers k c r base Hk Hr base_in_subgroup). unfold image_point.
  by rewrite (commitment_recovers' k c r (hash_to_ec cn_fast_hash (public_of sec)) Hk Hr (mul8_in_subgroup _)).
Qed.

Lemma ring_signature_ok rnd pubs sec_index draws check_key_image :
  (∀ j, byte_string 64 (rnd j)) → Forall (λ pub, is_Some (ge_frombytes_vartime pub)) pubs →
  pubs !! sec_index = Some (public_of sec) →
  ∃ sigs draws',
    generate_ring_signature cn_fast_hash rnd prefix_hash image_of pubs sec sec_index draws = Ok (Some sigs, draws') ∧
    length sigs = length pubs ∧
    check_ring_signature cn_fast_hash prefix_hash image_of pubs sigs check_key_image = Ok (true, false).
Proof using hash_bytes sec_valid.
  intros Hrnd Hpubs Hpub. pose proof (lookup_lt_Some _ _ _ Hpub) as Hlt.
  unfold generate_ring_signature. rewrite Hpub, assert_valid_ok by done. cbn [mbind result_bind].
  rewrite scalarmult_base_public, bool_decide_true by done. cbn [mret result_ret].
  rewrite key_image_ok. cbn [mbind result_bind]. rewrite bool_decide_true by done. unfold image_of at 1.
  rewrite ge_frombytes_tobytes.
  destruct valid_zero as [Hz0 Hz].
  set (ring0 := {| ring_k := [] |}).
  destruct (generate_ring_ok rnd image_point sec_index pubs 0 ring0 Hrnd Hpubs Hz0) as
    (ring & sigs & ab & others & -> & Hsigs & Hlen & Hab & Hk & [Hsv Hsum] & _ & Hch); [lia|lia|].
  cbn [mbind result_bind]. cbn [ring_sigs ring_ab ring_sum ring0 app] in Hsigs, Hab, Hsum. rewrite Hz in Hsum.
  rewrite Hab. destruct (hash_to_scalar_valid (prefix_hash ++ ab)) as (h & Hh & Hhv). rewrite Hh. cbn [mbind result_bind].
  destruct (sc_sub_scalar h (ring_sum ring) Hhv Hsv) as (c & -> & [Hcv Hc]). cbn [mbind result_bind].
  destruct (sc_mulsub_scalar c sec (ring_k ring) Hcv sec_valid Hk) as (r & -> & Hr). cbn [mbind result_bind].
  eexists _, _. split; [reflexivity|]. rewrite Hsigs. split; [by rewrite length_insert|].
  destruct (take_drop_sig c r) as [Hsc Hsr]; [by destruct Hcv as [[]]|].
  destruct (Hch (public_of sec) (c ++ r)) with (sum0 := sc_0) (ab0 := @nil Z) as (s1 & Hrun & Hs1v & Hs1).
  { intros _. by rewrite Nat.sub_0_r. } { by rewrite Hsc. } { rewrite Hsr. apply Hr. }
  { by apply signer_opens. } { done. }
  unfold placed in Hrun. rewrite decide_True, Nat.sub_0_r in Hrun by lia. rewrite decide_True in Hs1 by lia.
  unfold check_ring_signature, image_of. rewrite ge_frombytes_tobytes, image_in_subgroup, andb_false_r.
  rewrite Hrun. cbn [app mbind result_bind]. rewrite Hh. cbn [mbind result_bind].
  destruct (sc_sub_zero h s1 Hhv Hs1v) as (z & -> & Hzero). cbn [mbind result_bind].
  enough (le_value h = le_value s1) as He by (by rewrite Hzero, He, Z.eqb_refl).
  rewrite Hs1, Hz, Hsc, Hc, Hsum. rewrite Zplus_mod_idemp_r.
  rewrite <- (Zminus_mod_idemp_r (le_value h)) at 1 || idtac.
  destruct Hhv as [[Hb _] Hhlt]. pose proof (le_value_bound h Hb).
  rewrite <- (Z.mod_small (le_value h) order) at 1 by lia.
  replace (0 + others + (le_value h - (0 + others) mod order)) with
    (le_value h + ((0 + others) - (0 + others) mod order)) by ring.
  rewrite <- Zplus_mod_idemp_r, Zminus_mod_idemp_r, Z.sub_diag, Zmod_0_l. by rewrite Z.add_0_r.
Qed.

End sign.

(** ** Proofs of payment *)

Lemma sendproof_ok txkey view message_hash tmp :
  valid txkey → valid view → byte_string 64 tmp →
  ∃ derivation, generate_key_derivation (public_of view) txkey = Ok (Some derivation) ∧
    ∃ proof,
    generate_sendproof cn_fast_hash (public_of txkey) txkey (public_of view) derivation message_hash tmp =
      Ok (Some proof) ∧
    check_sendproof cn_fast_hash (public_of txkey) (public_of view) derivation message_hash proof = Ok true.
Proof using hash_bytes.
  intros Ht Hv Htmp. eexists. split; [by apply derivation_ok|].
  set (D := pt_mul (8 * _) base). unfold generate_sendproof. rewrite frombytes_public.
  destruct (random_scalar_valid tmp Htmp) as (k & -> & Hk). cbn [mbind result_bind].
  rewrite ge_scalarmult_law, ge_scalarmult_base_law, ge_mul8_law by done.
  set (a := ge_tobytes (pt_mul (le_value k) base)). set (b := ge_tobytes (pt_mul 8 _)).
  destruct (hash_to_scalar_valid (message_hash ++ public_of txkey ++ public_of view ++ ge_tobytes D ++ a ++ b))
    as (c & Hc & Hcv).
  rewrite Hc. cbn [mbind result_bind].
  destruct (sc_mulsub_scalar c txkey k Hcv Ht Hk) as (r & -> & Hr). cbn [mbind result_bind].
  eexists. split; [reflexivity|]. unfold check_sendproof.
  destruct (take_drop_sig c r) as [-> ->]; [by destruct Hcv as [[]]|].
  rewrite (valid_check c), (valid_check r) by (done || apply Hr). cbn [negb orb].
  rewrite !frombytes_public, ge_frombytes_tobytes.
  assert (ge_check_subgroup_precomp_vartime D = true) as ->.
  { apply ge_check_subgroup_law, mul_in_subgroup, base_in_subgroup. }
  cbn [negb]. rewrite ge_double_base_law, ge_double_precomp_law, ge_mul8_law by (done || apply Hr).
  rewrite (commitment_recovers txkey k c r base Hk Hr base_in_subgroup).
  assert (D = pt_mul (le_value txkey) (pt_mul 8 (pt_mul (le_value view) base))) as HD.
  { unfold D. rewrite <- !pt_mul_times. f_equal. ring. }
  assert (in_subgroup (pt_mul 8 (pt_mul (le_value view) base))) as H8
    by (do 2 apply mul_in_subgroup; apply base_in_subgroup).
  rewrite HD at 2. rewrite (commitment_recovers' txkey k c r _ Hk Hr H8).
  fold a. replace (pt_mul (le_value k) (pt_mul 8 (pt_mul (le_value view) base)))
    with (pt_mul 8 (pt_mul (le_value k) (pt_mul (le_value view) base)))
    by (rewrite <- !pt_mul_times; f_equal; ring).
  fold b. rewrite Hc. cbn [mbind result_bind].
  destruct (sc_sub_zero c c Hcv Hcv) as (z & -> & Hz). cbn [mbind result_bind]. by rewrite Hz, Z.eqb_refl.
Qed.

(** ** Keys of outputs *)

Lemma output_keys_ok txkey view spend n :
  valid txkey → valid view → valid spend → Z.of_nat n < 2 ^ 64 →
  ∃ derivation,
    generate_key_derivation (public_of view) txkey = Ok (Some derivation) ∧
    generate_key_derivation (public_of txkey) view = Ok (Some derivation) ∧
    ∃ key sec,
    derive_public_key cn_fast_hash derivation n (public_of spend) = Ok (Some key) ∧
    underive_public_key cn_fast_hash derivation n key = Ok (Some (public_of spend)) ∧
    derive_secret_key cn_fast_hash derivation n spend = Ok sec ∧
    valid sec ∧ public_of sec = key.
Proof using hash_bytes.
  intros Ht Hv Hs Hn. eexists. split; [by apply derivation_ok|]. split.
  { rewrite derivation_ok by done. do 4 f_equal. ring. }
  set (D := ge_tobytes _). destruct (derivation_to_scalar_valid D n Hn) as (x & Hx & Hxv).
  unfold derive_public_key, derive_secret_key, underive_public_key. rewrite frombytes_public, Hx, assert_valid_ok by done.
  cbn [mbind result_bind mret result_ret]. rewrite ge_add_law, ge_scalarmult_base_law by done.
  destruct (sc_add_scalar spend x Hs Hxv) as (sec & -> & Hsec). eexists _, sec. split; [reflexivity|].
  rewrite ge_frombytes_tobytes, ge_sub_law, pt_sub_add. split; [reflexivity|].
  split; [reflexivity|]. split; [apply Hsec|].
  unfold public_of. by rewrite (pt_mul_scalar sec _ base base_in_subgroup Hsec), pt_mul_plus.
Qed.

End laws.

(** ** A group with these laws

    Integers modulo eight times the order, as 32 bytes: a curve on which
    logarithms are easy. *)

Module Cyclic.

Definition modulus : Z := 8 * order.
Definition in_range (z : Z) : Prop := 0 ≤ z < modulus.
#[local] Instance in_range_dec z : Decision (in_range z).
Proof. unfold in_range. apply _. Defined.
Definition element : Type := dsig in_range.

Lemma reduced z : in_range (z mod modulus).
Proof. apply Z.mod_pos_bound. reflexivity. Qed.
Definition elt (z : Z) : element := dexist (P := in_range) (z mod modulus) (reduced z).

Definition cyclic : Curve := {|
  point := element;
  ge_frombytes_vartime s := if decide (0 ≤ le_value s < modulus) then Some (elt (le_value s)) else None;
  ge_tobytes P := le_bytes 32 (`P);
  ge_scalarmult_base s := elt (le_value s * 8);
  ge_scalarmult s P := elt (le_value s * `P);
  ge_add P Q := elt (`P + `Q);
  ge_sub P Q := elt (`P - `Q);
  ge_mul8 P := elt (8 * `P);
  ge_double_scalarmult_base_vartime a A b := elt (le_value a * `A + le_value b * 8);
  ge_double_scalarmult_precomp_vartime a A b B := elt (le_value a * `A + le_value b * `B);
  ge_check_subgroup_precomp_vartime P := (order * `P) mod modulus =? 0;
  ge_fromfe_frombytes_vartime s := elt (le_value s);
|}.

Lemma proj_elt z : proj1_sig (elt z) = z mod modulus.
Proof. reflexivity. Qed.
Lemma elt_eq z z' : z mod modulus = z' mod modulus → elt z = elt z'.
Proof. intros Hz. apply dsig_eq. by rewrite !proj_elt. Qed.
Lemma elt_proj (P : element) : elt (`P) = P.
Proof. apply dsig_eq. rewrite proj_elt. apply Z.mod_small. exact (proj2_dsig P). Qed.

Lemma cyclic_decodes (P : element) : @ge_frombytes_vartime cyclic (@ge_tobytes cyclic P) = Some P.
Proof.
  unfold ge_frombytes_vartime, ge_tobytes, cyclic. pose proof (proj2_dsig P) as HP. unfold in_range, modulus in HP.
  rewrite le_value_le_bytes.
  - rewrite decide_True by done. by rewrite elt_proj.
  - change (8 * Z.of_nat 32) with 256. pose proof order_bounds. split; [apply HP|].
    eapply Z.lt_trans; [apply HP|lia].
Qed.

Ltac group :=
  intros; apply elt_eq; rewrite ?proj_elt;
  rewrite ?Zplus_mod_idemp_l, ?Zplus_mod_idemp_r, ?Zmult_mod_idemp_r; try (f_equal; ring);
  try (rewrite <- Zplus_mod; f_equal; ring).

Global Instance cyclic_laws : CurveLaws cyclic.
Proof.
  refine (Build_CurveLaws cyclic (elt 8) (elt 0) (λ P Q : element, elt (`P + `Q))
    (λ a (P : element), elt (a * `P)) _ _ _ _ _ _ _ _ _ _ _ _ _ _ _ _ _ _ _ _).
  - group.
  - group.
  - intros P. exact (elt_proj P).
  - group.
  - intros P. rewrite Z.mul_1_l. apply elt_proj.
  - group.
  - group.
  - group.
  - intros P. apply elt_eq. change (8 * order) with modulus. by rewrite Z.mul_comm, Z_mod_mult.
  - apply elt_eq. reflexivity.
  - intros P. apply cyclic_decodes.
  - intros P. split; [apply bytes_le_bytes|apply length_le_bytes].
  - group.
  - group.
  - group.
  - group.
  - group.
  - group.
  - group.
  - intros P. cbn. rewrite Z.eqb_eq. split.
    + intros He. apply elt_eq. rewrite He. reflexivity.
    + intros He. apply (f_equal proj1_sig) in He. exact He.
Qed.

End Cyclic.

(** ** The properties *)

Section theorems.
Context `{Hlaws : CurveLaws}.
Context (cn_fast_hash : list Z → Hash).

(** C10: What is signed is accepted, whatever the random bytes are: plain
    signatures, proofs of payment, and ring signatures of every size with the
    signer at any place among points that decode, with the key image of the
    signer's key checked to be in the subgroup or not. *)
Theorem signed_is_accepted rnd prefix_hash sec pubs sec_index draws check_key_image view message_hash :
  (∀ data, byte_string 32 (cn_fast_hash data)) → (∀ j, byte_string 64 (rnd j)) →
  valid sec → valid view → Forall (λ pub, is_Some (ge_frombytes_vartime pub)) pubs →
  pubs !! sec_index = Some (public_of sec) →
  (∃ sig, generate_signature cn_fast_hash prefix_hash (public_of sec) sec (rnd draws) = Ok sig ∧
    check_signature cn_fast_hash prefix_hash (public_of sec) sig = Ok (true, false)) ∧
  (∃ image sigs draws', generate_key_image cn_fast_hash (public_of sec) sec = Ok image ∧
    generate_ring_signature cn_fast_hash rnd prefix_hash image pubs sec sec_index draws = Ok (Some sigs, draws') ∧
    length sigs = length pubs ∧
    check_ring_signature cn_fast_hash prefix_hash image pubs sigs check_key_image = Ok (true, false)) ∧
  (∃ derivation proof, generate_key_derivation (public_of view) sec = Ok (Some derivation) ∧
    generate_sendproof cn_fast_hash (public_of sec) sec (public_of view) derivation message_hash (rnd draws) =
      Ok (Some proof) ∧
    check_sendproof cn_fast_hash (public_of sec) (public_of view) derivation message_hash proof = Ok true).
Proof.
  intros Hhash Hrnd Hsec Hview Hpubs Hpub. split; [by apply signature_ok|]. split.
  - exists (image_of cn_fast_hash sec).
    destruct (ring_signature_ok cn_fast_hash Hhash prefix_hash sec Hsec rnd pubs sec_index draws check_key_image
      Hrnd Hpubs Hpub) as (sigs & draws' & Hsigs).
    exists sigs, draws'. split; [by apply key_image_ok|exact Hsigs].
  - destruct (sendproof_ok cn_fast_hash Hhash sec view message_hash (rnd draws)) as (d & Hd & proof & Hp); [done..|].
    by exists d, proof.
Qed.

(** C11: The sender, with the secret key of a transaction and the public keys of
    an address, and the receiver, with the transaction's public key and the
    address's secret view key, derive the same output key; the receiver gets
    back the spend key it belongs to, and with the secret spend key the secret
    key of the output. *)
Theorem output_keys_agree txkey view spend n :
  (∀ data, byte_string 32 (cn_fast_hash data)) →
  valid txkey → valid view → valid spend → Z.of_nat n < 2 ^ 64 →
  ∃ derivation,
    generate_key_derivation (public_of view) txkey = Ok (Some derivation) ∧
    generate_key_derivation (public_of txkey) view = Ok (Some derivation) ∧
    ∃ key sec,
      derive_public_key cn_fast_hash derivation n (public_of spend) = Ok (Some key) ∧
      underive_public_key cn_fast_hash derivation n key = Ok (Some (public_of spend)) ∧
      derive_secret_key cn_fast_hash derivation n spend = Ok sec ∧
      secret_key_to_public_key sec = Some key ∧ keys_match sec key = true.
Proof.
  intros Hhash Ht Hv Hs Hn.
  destruct (output_keys_ok cn_fast_hash Hhash txkey view spend n Ht Hv Hs Hn) as
    (d & H1 & H2 & key & sec & H3 & H4 & H5 & Hsec & <-).
  exists d. split; [done|]. split; [done|]. exists (public_of sec), sec. unfold keys_match.
  rewrite secret_public by done. by rewrite bool_decide_true.
Qed.

End theorems.

Definition small_scalar (z : Z) : list Z := le_bytes 32 (z mod order).
Definition sum_hash (data : list Z) : Hash := le_bytes 32 (foldr Z.add 0 data).

Lemma sum_hash_bytes data : byte_string 32 (sum_hash data).
Proof. split; [apply bytes_le_bytes|apply length_le_bytes]. Qed.
Lemma draws_bytes (j : nat) : byte_string 64 (le_bytes 64 (Z.of_nat j + 1)).
Proof. split; [apply bytes_le_bytes|apply length_le_bytes]. Qed.

Lemma signed_is_accepted_witness :
  let _ := Cyclic.cyclic in
  let sec := small_scalar 5 in
  let ring := public_of (small_scalar 3) :: public_of sec :: [public_of (small_scalar 9)] in
  (∃ sig, generate_signature sum_hash [1; 2; 3] (public_of sec) sec (le_bytes 64 1) = Ok sig ∧
    check_signature sum_hash [1; 2; 3] (public_of sec) sig = Ok (true, false)) ∧
  (∃ image sigs draws', generate_key_image sum_hash (public_of sec) sec = Ok image ∧
    generate_ring_signature sum_hash (λ j, le_bytes 64 (Z.of_nat j + 1)) [1; 2; 3] image ring sec 1 0 =
      Ok (Some sigs, draws') ∧
    length sigs = length ring ∧
    check_ring_signature sum_hash [1; 2; 3] image ring sigs true = Ok (true, false)) ∧
  (∃ derivation proof, generate_key_derivation (public_of (small_scalar 7)) sec = Ok (Some derivation) ∧
    generate_sendproof sum_hash (public_of sec) sec (public_of (small_scalar 7)) derivation [4] (le_bytes 64 1) =
      Ok (Some proof) ∧
    check_sendproof sum_hash (public_of sec) (public_of (small_scalar 7)) derivation [4] proof = Ok true).
Proof.
  intros C sec ring.
  apply (@signed_is_accepted Cyclic.cyclic Cyclic.cyclic_laws sum_hash (λ j, le_bytes 64 (Z.of_nat j + 1))
    [1; 2; 3] sec ring 1 0 true (small_scalar 7) [4]).
  - exact sum_hash_bytes.
  - exact draws_bytes.
  - apply reduced_valid.
  - apply reduced_valid.
  - repeat (constructor; [eexists; apply (@ge_frombytes_tobytes _ Cyclic.cyclic_laws)|]). constructor.
  - reflexivity.
Defined.

Lemma output_keys_agree_witness :
  let _ := Cyclic.cyclic in
  ∃ derivation,
    generate_key_derivation (public_of (small_scalar 4)) (small_scalar 11) = Ok (Some derivation) ∧
    generate_key_derivation (public_of (small_scalar 11)) (small_scalar 4) = Ok (Some derivation) ∧
    ∃ key sec,
      derive_public_key sum_hash derivation 300 (public_of (small_scalar 6)) = Ok (Some key) ∧
      underive_public_key sum_hash derivation 300 key = Ok (Some (public_of (small_scalar 6))) ∧
      derive_secret_key sum_hash derivation 300 (small_scalar 6) = Ok sec ∧
      secret_key_to_public_key sec = Some key ∧ keys_match sec key = true.
Proof.
  intros C. apply (@output_keys_agree Cyclic.cyclic Cyclic.cyclic_laws sum_hash);
    [exact sum_hash_bytes|apply reduced_valid..|lia].
Defined.

End CryptoLaws.
