(* ===== verification/Builder.v ===== *)
(** * Building transactions (src/src/Core/TransactionBuilder.cpp: [TransactionBuilder]
    and [UnspentSelector::add_mixed_inputs])

    Outputs and inputs are collected, each input with the ring of outputs it
    hides among; signing shuffles and sorts them, derives the keys of the
    outputs from the inputs and a secret of the wallet, and signs every ring.

    The order [std::sort] leaves equal elements in and the two shuffles are
    arguments, as are the hash function and the random bytes. *)

From S2P Require Import Prelude Containers Seria Text CryptoNote TransactionExtra Blocks Currency Scalars Crypto WalletData Selector.
Import Containers Codec CryptoNote TransactionExtra Blocks Currency Crypto WalletData.

Local Open Scope Z_scope.

Module Builder.

(** ** Keys of CryptoNote.hpp and Wallet.hpp *)

Record AccountKeys := {
  address : AccountPublicAddress;
  spend_secret_key : SecretKey;
  view_secret_key : SecretKey;
}.

Record WalletRecord := {
  record_spend_public_key : PublicKey;
  record_spend_secret_key : SecretKey;
  creation_timestamp : Timestamp;
}.

(** ** The builder *)

(** [input] is the [KeyInput] of amount, relative indexes and key image. *)
Record InputDesc := {
  in_outputs : list Output;
  real_output_index : nat;
  eph_keys : KeyPair;
  in_amount : Amount;
  in_output_indexes : list Z;
  in_key_image : KeyImage;
}.

Record OutputDesc := { od_amount : Amount; od_addr : AccountPublicAddress }.

Record TransactionBuilder := {
  m_transaction : Transaction;
  m_input_descs : list InputDesc;
  m_output_descs : list OutputDesc;
  m_extra : list TransactionExtraField;
  m_outputs_amount : Amount;
  m_inputs_amount : Amount;
}.

Definition input_less_amount (a b : InputDesc) : bool := in_amount a <? in_amount b.
Definition output_less_amount (a b : OutputDesc) : bool := od_amount a <? od_amount b.

Definition APIOutputLessGlobalIndex (a b : Output) : bool := o_global_index a <? o_global_index b.
Definition APIOutputEqualGlobalIndex (a b : Output) : bool := o_global_index a =? o_global_index b.

Definition with_extra (tx : Transaction) (e : BinaryArray) : Transaction :=
  let p := tx_prefix tx in
  {| tx_prefix := {| version := version p; unlock_time := unlock_time p; inputs := inputs p;
                     outputs := outputs p; extra := e |};
     signatures := signatures tx |}.

Definition make_TransactionBuilder (currency : Currency) (unlock_time : Z) : TransactionBuilder :=
  {| m_transaction := {| tx_prefix := {| version := current_transaction_version currency;
                                         unlock_time := unlock_time; inputs := []; outputs := [];
                                         extra := [] |};
                         signatures := [] |};
     m_input_descs := []; m_output_descs := []; m_extra := []; m_outputs_amount := 0;
     m_inputs_amount := 0 |}.

(** [m_extra.set(field)] and [m_transaction.extra = m_extra.serialize()]. *)
Definition set_extra (b : TransactionBuilder) (field : TransactionExtraField) : result TransactionBuilder :=
  let fields := set_field field (m_extra b) in
  e ← serialize fields;
  mret {| m_transaction := with_extra (m_transaction b) e; m_input_descs := m_input_descs b;
          m_output_descs := m_output_descs b; m_extra := fields;
          m_outputs_amount := m_outputs_amount b; m_inputs_amount := m_inputs_amount b |}.

Definition set_extra_nonce (b : TransactionBuilder) (nonce : BinaryArray) : result TransactionBuilder :=
  set_extra b (TransactionExtraNonce nonce).

Definition set_payment_id (b : TransactionBuilder) (hash : Hash) : result TransactionBuilder :=
  set_extra_nonce b (set_payment_id_to_transaction_extra_nonce hash).

Definition add_output (b : TransactionBuilder) (amount : Amount) (to : AccountPublicAddress) :
    TransactionBuilder * nat :=
  ({| m_transaction := m_transaction b; m_input_descs := m_input_descs b;
      m_output_descs := m_output_descs b ++ [{| od_amount := amount; od_addr := to |}];
      m_extra := m_extra b; m_outputs_amount := u64 (m_outputs_amount b + amount);
      m_inputs_amount := m_inputs_amount b |},
   length (m_output_descs b)).

(** [std::lower_bound] by global index, in a sorted range. *)
Fixpoint lower_bound (l : list Output) (x : Output) : nat :=
  match l with
  | [] => 0
  | y :: l => if APIOutputLessGlobalIndex y x then S (lower_bound l x) else 0
  end.

Fixpoint differences (prev : Z) (l : list Z) : list Z :=
  match l with
  | [] => []
  | x :: l => u32 (x - prev) :: differences x l
  end.
Definition absolute_output_offsets_to_relative (off : list Z) : list Z :=
  match off with
  | [] => []
  | x :: l => x :: differences x l
  end.

(** [std::stable_sort]. *)
Fixpoint insert_stable {A} (less : A → A → bool) (x : A) (l : list A) : list A :=
  match l with
  | [] => [x]
  | y :: l => if less y x then y :: insert_stable less x l else x :: y :: l
  end.
Definition stable_sort {A} (less : A → A → bool) (l : list A) : list A :=
  foldr (insert_stable less) [] l.

Section builder.
Context `{Curve} (cn_fast_hash : list Z → Hash).
(** [std::sort(..., APIOutputLessGlobalIndex)]. *)
Context (sort_outputs : list Output → list Output).

Definition derive_public_key (to : AccountPublicAddress) (tx_key : SecretKey) (output_index : nat) :
    result (option PublicKey) :=
  derivation ← generate_key_derivation (view_public_key to) tx_key;
  match derivation with
  | None => mret None
  | Some derivation =>
    Crypto.derive_public_key cn_fast_hash derivation output_index (spend_public_key to)
  end.

Definition generate_key_image_helper (ack : AccountKeys) (tx_public_key : PublicKey)
    (real_output_index : nat) : result (option (KeyPair * KeyImage)) :=
  recv_derivation ← generate_key_derivation tx_public_key (view_secret_key ack);
  match recv_derivation with
  | None => mret None
  | Some recv_derivation =>
    key ← Crypto.derive_public_key cn_fast_hash recv_derivation real_output_index
            (spend_public_key (address ack));
    match key with
    | None => mret None
    | Some key =>
      sec ← derive_secret_key cn_fast_hash recv_derivation real_output_index (spend_secret_key ack);
      ki ← generate_key_image cn_fast_hash key sec;
      mret (Some ({| public_key := key; secret_key := sec |}, ki))
    end
  end.

Definition add_input (b : TransactionBuilder) (sender_keys : AccountKeys) (real_output : Output)
    (mix_outputs : list Output) : result (TransactionBuilder * nat) :=
  let outputs := sort_outputs mix_outputs in
  let index := lower_bound outputs real_output in
  let outputs := take index outputs ++ [real_output] ++ drop index outputs in
  keys ← generate_key_image_helper sender_keys (o_transaction_public_key real_output)
           (Z.to_nat (o_index_in_transaction real_output));
  match keys with
  | None => Throw "generating key_image failed"
  | Some (eph, key_image) =>
    if negb (bool_decide (key_image = o_key_image real_output))
    then Throw "generated key_image does not match input"
    else if negb (forallb (λ out, o_amount out =? o_amount real_output) outputs)
    then Throw "Mixin outputs with different amounts is not allowed"
    else
      mret ({| m_transaction := m_transaction b;
               m_input_descs := m_input_descs b ++
                 [{| in_outputs := outputs; real_output_index := index; eph_keys := eph;
                     in_amount := o_amount real_output;
                     in_output_indexes := absolute_output_offsets_to_relative (o_global_index <$> outputs);
                     in_key_image := key_image |}];
               m_output_descs := m_output_descs b; m_extra := m_extra b;
               m_outputs_amount := m_outputs_amount b;
               m_inputs_amount := u64 (m_inputs_amount b + o_amount real_output) |},
            length (m_input_descs b))
  end.

(** The keys of a transaction, from the hash of its inputs. *)
Definition deterministic_keys_from_hash (tx_inputs_hash tx_derivation_seed : Hash) : result KeyPair :=
  sec ← hash_to_scalar cn_fast_hash (tx_inputs_hash ++ tx_derivation_seed);
  mret {| public_key := default null_hash (secret_key_to_public_key sec); secret_key := sec |}.

Definition deterministic_keys_from_seed (tx : TransactionPrefix) (tx_derivation_seed : Hash) :
    result KeyPair :=
  tx_inputs_hash ← get_transaction_inputs_hash cn_fast_hash tx;
  deterministic_keys_from_hash tx_inputs_hash tx_derivation_seed.

(** ** Signing *)

Section sign.
Context (rnd : nat → list Z).
Context (shuffle_outputs : list OutputDesc → list OutputDesc) (shuffle_inputs : list InputDesc → list InputDesc).

Fixpoint sign_outputs (tx_key : SecretKey) (i : nat) (descs : list OutputDesc) :
    result (list TransactionOutput) :=
  match descs with
  | [] => mret []
  | d :: descs =>
    key ← derive_public_key (od_addr d) tx_key i;
    match key with
    | None => Throw "output keys detected as corrupted during output key derivation"
    | Some key =>
      outs ← sign_outputs tx_key (S i) descs;
      mret ({| out_amount := od_amount d; out_target := KeyOutput key |} :: outs)
    end
  end.

Fixpoint sign_inputs (hash : Hash) (descs : list InputDesc) (draws : nat) :
    result (list (list Signature) * nat) :=
  match descs with
  | [] => mret ([], draws)
  | d :: descs =>
    '(sigs, draws) ← generate_ring_signature cn_fast_hash rnd hash (in_key_image d)
      (o_public_key <$> in_outputs d) (secret_key (eph_keys d)) (real_output_index d) draws;
    match sigs with
    | None => Throw "output keys detected as corrupted during ring signing"
    | Some sigs =>
      '(rest, draws) ← sign_inputs hash descs draws;
      mret (sigs :: rest, draws)
    end
  end.

Definition input_of (d : InputDesc) : TransactionInput :=
  KeyInput (in_amount d) (in_output_indexes d) (in_key_image d).

(** [std::move(m_input_descs[i].input)] leaves the indexes empty. *)
Definition moved (d : InputDesc) : InputDesc :=
  {| in_outputs := in_outputs d; real_output_index := real_output_index d; eph_keys := eph_keys d;
     in_amount := in_amount d; in_output_indexes := []; in_key_image := in_key_image d |}.

(** The transaction, the builder it leaves and the number of draws. *)
Definition sign (b : TransactionBuilder) (tx_derivation_seed : Hash) (draws : nat) :
    result (Transaction * TransactionBuilder * nat) :=
  let output_descs := stable_sort output_less_amount (shuffle_outputs (m_output_descs b)) in
  let input_descs := stable_sort input_less_amount (shuffle_inputs (m_input_descs b)) in
  let p := tx_prefix (m_transaction b) in
  let ins := input_of <$> input_descs in
  tx_keys ← deterministic_keys_from_seed
    {| version := version p; unlock_time := unlock_time p; inputs := ins; outputs := outputs p;
       extra := extra p |} tx_derivation_seed;
  let fields := set_field (TransactionExtraPublicKey (public_key tx_keys)) (m_extra b) in
  e ← serialize fields;
  outs ← sign_outputs (secret_key tx_keys) 0 output_descs;
  let p := {| version := version p; unlock_time := unlock_time p; inputs := ins; outputs := outs; extra := e |} in
  hash ← get_transaction_prefix_hash cn_fast_hash p;
  '(sigs, draws) ← sign_inputs hash input_descs draws;
  let tx := {| tx_prefix := p; signatures := sigs |} in
  mret (tx,
        {| m_transaction := tx; m_input_descs := moved <$> input_descs; m_output_descs := output_descs;
           m_extra := fields; m_outputs_amount := m_outputs_amount b;
           m_inputs_amount := m_inputs_amount b |}, draws).

End sign.

(** ** Mixing in *)

(** The outputs taken from the end of those the node sent, and the rest. *)
Fixpoint pop_outputs (n : nat) (our_ra_outputs mix_outputs : list Output) : result (list Output * list Output) :=
  match n with
  | O => mret (mix_outputs, our_ra_outputs)
  | S n =>
    match last our_ra_outputs with
    | None => Throw "Not enough anonymity for amount"
    | Some out => pop_outputs n (removelast our_ra_outputs) (mix_outputs ++ [out])
    end
  end.

(** [std::unique]. *)
Fixpoint unique_after (x : Output) (l : list Output) : list Output :=
  match l with
  | [] => []
  | y :: l => if APIOutputEqualGlobalIndex x y then unique_after x l else y :: unique_after y l
  end.
Definition unique (l : list Output) : list Output :=
  match l with
  | [] => []
  | x :: l => x :: unique_after x l
  end.

(** [abs(int(a) - int(b))]. *)
Definition to_int (x : Z) : Z := if x <? 2 ^ 31 then x else x - 2 ^ 32.
Definition index_distance (a b : Z) : result Z :=
  let d := to_int a - to_int b in
  if (- 2 ^ 31 <? d) && (d <? 2 ^ 31) then mret (Z.abs d) else Undefined "signed overflow".

(** The first of the nearest, with its distance. *)
Fixpoint nearest (global_index : Z) (i : nat) (l : list Output) (best : option (nat * Z)) :
    result (option (nat * Z)) :=
  match l with
  | [] => mret best
  | out :: l =>
    d ← index_distance global_index (o_global_index out);
    nearest global_index (S i) l
      (match best with
       | None => Some (i, d)
       | Some (_, best_distance) => if d <? best_distance then Some (i, d) else best
       end)
  end.

(** The ring of one input: what is left of the node's outputs without
    repetitions and without the nearest. *)
Definition choose_mix_outputs (uu : Output) (mix_outputs : list Output) : result (list Output) :=
  let mix_outputs := unique (sort_outputs mix_outputs) in
  best ← nearest (o_global_index uu) 0 mix_outputs None;
  match best with
  | None => Throw "invariant"
  | Some (best_index, _) => mret (delete best_index mix_outputs)
  end.

Section mixed.
Context (currency : Currency) (wallet_view_secret_key : SecretKey) (wallet_records : gmap PublicKey WalletRecord).
Context (anonymity : Z).

Definition sender_keys_of (uu : Output) : result AccountKeys :=
  addr ← parse_account_address_string cn_fast_hash currency key_isvalid (o_address uu);
  match addr with
  | None => Throw "Could not parse address"
  | Some addr =>
    match wallet_records !! spend_public_key addr with
    | None => Throw "No keys in wallet for address"
    | Some r =>
      if negb (bool_decide (record_spend_public_key r = spend_public_key addr))
      then Throw "No keys in wallet for address"
      else mret {| address := addr; spend_secret_key := record_spend_secret_key r;
                   view_secret_key := wallet_view_secret_key |}
    end
  end.

(** One round of the loop; [ra] are the outputs of the response not used yet. *)
Definition add_mixed_input (st : gmap Amount (list Output) * TransactionBuilder) (uu : Output) :
    result (gmap Amount (list Output) * TransactionBuilder) :=
  let '(ra, b) := st in
  '(mix_outputs, rest) ← pop_outputs (Z.to_nat (u32 (anonymity + 1))) (default [] (ra !! o_amount uu)) [];
  mix_outputs ← choose_mix_outputs uu mix_outputs;
  sender_keys ← sender_keys_of uu;
  '(b, _) ← add_input b sender_keys uu mix_outputs;
  mret (<[o_amount uu := rest]> ra, b).

Definition add_mixed_inputs (s : Selector.State) (b : TransactionBuilder)
    (ra_response : gmap Amount (list Output)) : result TransactionBuilder :=
  '(_, b) ← for_each add_mixed_input (Selector.used_unspents s) (ra_response, b);
  mret b.

End mixed.

End builder.
End Builder.
