(* ===== verification/BuilderLaws.v ===== *)
(** * Building transactions: theorems

    A builder is well formed ([builder_ok]) when every input has a ring that can
    be signed and every output an address with keys that decode.  Adding inputs
    and outputs keeps that; what [sign] returns then passes the checks of the
    node, and the receivers find their outputs in it. *)

From S2P Require Import Prelude Varint Containers Seria Text CryptoNote TransactionExtra Amounts Blocks Currency ChainState Redo Scalars ScalarLaws Crypto CryptoLaws WalletData Selector SelectorLaws Builder.
Import Containers Codec CryptoNote TransactionExtra Amounts Blocks Currency ChainState Redo ScalarLaws Crypto CryptoLaws WalletData Builder.

Local Open Scope Z_scope.

Module BuilderLaws.

(** ** Orders and offsets *)

Section stable.
Context {A : Type} (less : A → A → bool).

Lemma insert_stable_perm x l : insert_stable less x l ≡ₚ x :: l.
Proof.
  induction l as [|y l IH]; [done|]. cbn. destruct (less y x); [|done]. rewrite IH. apply Permutation_swap.
Qed.

Lemma stable_sort_perm l : stable_sort less l ≡ₚ l.
Proof. induction l as [|x l IH]; [done|]. cbn. by rewrite insert_stable_perm, IH. Qed.
End stable.

Lemma absolute_differences prev l : in_u 32 prev → Forall (in_u 32) l → absolute prev (differences prev l) = l.
Proof.
  revert prev. induction l as [|x l IH]; intros prev Hp Hl; [done|]. apply Forall_cons in Hl as [Hx Hl]. cbn.
  replace (u32 (prev + u32 (x - prev))) with x; [by rewrite IH|]. unfold u32, in_u in *.
  rewrite Zplus_mod_idemp_r. replace (prev + (x - prev)) with x by ring. by rewrite Z.mod_small.
Qed.

(** The node decodes the indexes the builder coded. *)
Lemma global_indexes_relative l : Forall (in_u 32) l → global_indexes (absolute_output_offsets_to_relative l) = l.
Proof.
  destruct l as [|x l]; [done|]. intros [Hx Hl]%Forall_cons. cbn. by rewrite absolute_differences.
Qed.

Lemma differences_nonzero prev l : in_u 32 prev → Forall (in_u 32) l → StronglySorted Z.lt (prev :: l) →
  0 ∉ differences prev l.
Proof.
  revert prev. induction l as [|x l IH]; intros prev Hp Hl Hs; cbn; [by apply not_elem_of_nil|].
  apply Forall_cons in Hl as [Hx Hl]. apply StronglySorted_inv in Hs as [Hs Hlt]. apply Forall_cons in Hlt as [Hlt _].
  apply not_elem_of_cons. split; [|by apply IH]. unfold in_u in *. unfold u32. rewrite Z.mod_small by lia. lia.
Qed.

Lemma relative_distinct l : Forall (in_u 32) l → StronglySorted Z.lt l →
  0 ∉ tail (absolute_output_offsets_to_relative l).
Proof. destruct l as [|x l]; [intros; apply not_elem_of_nil|]. intros [Hx Hl]%Forall_cons Hs. by apply differences_nonzero. Qed.

Lemma differences_u32 prev l : Forall (in_u 32) (differences prev l).
Proof. revert prev. induction l as [|x l IH]; intros prev; cbn; constructor; [apply u32_bound|apply IH]. Qed.

Lemma length_differences prev l : length (differences prev l) = length l.
Proof. revert prev. induction l as [|x l IH]; intros prev; cbn; [done|]. by rewrite IH. Qed.

Lemma relative_u32 l : Forall (in_u 32) l → Forall (in_u 32) (absolute_output_offsets_to_relative l).
Proof. destruct l as [|x l]; [done|]. intros [Hx _]%Forall_cons. constructor; [done|]. apply differences_u32. Qed.

Lemma length_relative l : length (absolute_output_offsets_to_relative l) = length l.
Proof. destruct l; cbn; [done|]. by rewrite length_differences. Qed.

(** ** The place of the real output *)

Definition gi_le (a b : Output) : Prop := o_global_index a ≤ o_global_index b.

Lemma lower_bound_le l x : (lower_bound l x ≤ length l)%nat.
Proof. induction l as [|y l IH]; cbn; [lia|]. destruct (APIOutputLessGlobalIndex y x); lia. Qed.

Lemma insert_lookup {A} (l : list A) i x : (i ≤ length l)%nat → (take i l ++ [x] ++ drop i l) !! i = Some x.
Proof.
  intros Hi. rewrite lookup_app_r by (rewrite length_take; lia). rewrite length_take, Nat.min_l by lia.
  by rewrite Nat.sub_diag.
Qed.

Lemma insert_perm {A} (l : list A) i x : take i l ++ [x] ++ drop i l ≡ₚ x :: l.
Proof. rewrite <- (take_drop i l) at 3. cbn. by rewrite Permutation_middle. Qed.

(** A real output that is not among strictly sorted others fits between them. *)
Lemma lower_bound_sorted l x :
  StronglySorted Z.lt (o_global_index <$> l) → o_global_index x ∉ o_global_index <$> l →
  StronglySorted Z.lt (o_global_index <$> (take (lower_bound l x) l ++ [x] ++ drop (lower_bound l x) l)).
Proof.
  induction l as [|y l IH]; intros Hs Hx; cbn.
  { constructor; constructor. }
  cbn in Hs, Hx. apply StronglySorted_inv in Hs as [Hs Hlt]. apply not_elem_of_cons in Hx as [Hne Hx].
  unfold APIOutputLessGlobalIndex. destruct (Z.ltb_spec (o_global_index y) (o_global_index x)) as [Hyx|Hyx]; cbn.
  - constructor; [by apply IH|]. change (x :: drop ?i l) with ([x] ++ drop i l).
    rewrite (insert_perm l (lower_bound l x) x). cbn. by constructor.
  - constructor; [by constructor|]. constructor; [lia|].
    eapply Forall_impl; [exact Hlt|]. intros z; cbn. lia.
Qed.

Section laws.
Context `{Hlaws : CurveLaws}.
Context (cn_fast_hash : list Z → Hash).
Hypothesis hash_bytes : ∀ data, byte_string 32 (cn_fast_hash data).

Definition decodes (key : PublicKey) : Prop := is_Some (ge_frombytes_vartime key).

(** ** Keys *)

Definition address_ok (addr : AccountPublicAddress) : Prop :=
  decodes (spend_public_key addr) ∧ decodes (view_public_key addr).

Lemma derive_public_key_ok addr tx_key n : address_ok addr → valid tx_key → Z.of_nat n < 2 ^ 64 →
  ∃ key, derive_public_key cn_fast_hash addr tx_key n = Ok (Some key) ∧ byte_string 32 key ∧ decodes key.
Proof using Hlaws hash_bytes.
  intros [[S HS] [V HV]] Hk Hn. unfold derive_public_key, generate_key_derivation. rewrite assert_valid_ok, HV by done.
  cbn [mbind result_bind mret result_ret]. unfold Crypto.derive_public_key. rewrite HS.
  edestruct (derivation_to_scalar_valid cn_fast_hash hash_bytes) as (s & -> & _); [exact Hn|].
  cbn [mbind result_bind mret result_ret]. eexists. split; [reflexivity|].
  split; [apply ge_tobytes_bytes|]. eexists. apply ge_frombytes_tobytes.
Qed.

(** The receiver of an output, by the secret keys of the address. *)
Definition receives (view spend : SecretKey) (tx_public_key : PublicKey) (n : nat) (key : PublicKey) : Prop :=
  ∃ derivation sec,
    generate_key_derivation tx_public_key view = Ok (Some derivation) ∧
    underive_public_key cn_fast_hash derivation n key = Ok (Some (public_of spend)) ∧
    derive_secret_key cn_fast_hash derivation n spend = Ok sec ∧ keys_match sec key = true.

Lemma derived_received view spend tx_key n key : valid view → valid spend → valid tx_key → Z.of_nat n < 2 ^ 64 →
  derive_public_key cn_fast_hash {| spend_public_key := public_of spend; view_public_key := public_of view |} tx_key n =
    Ok (Some key) →
  receives view spend (public_of tx_key) n key.
Proof using Hlaws hash_bytes.
  intros Hv Hs Ht Hn. unfold derive_public_key. cbn [spend_public_key view_public_key].
  destruct (output_keys_ok cn_fast_hash hash_bytes tx_key view spend n Ht Hv Hs Hn) as
    (d & -> & H2 & key' & sec & H3 & H4 & H5 & Hsec & <-).
  cbn [mbind result_bind]. rewrite H3. intros [= <-]. exists d, sec. split; [done|]. split; [done|]. split; [done|].
  unfold keys_match. rewrite secret_public by done. by rewrite bool_decide_true.
Qed.

Definition keys_ok (ack : AccountKeys) : Prop :=
  valid (view_secret_key ack) ∧ valid (spend_secret_key ack) ∧
  spend_public_key (address ack) = public_of (spend_secret_key ack).

Lemma key_image_helper_ok ack tx_public_key n : keys_ok ack → decodes tx_public_key → Z.of_nat n < 2 ^ 64 →
  ∃ sec, valid sec ∧
    generate_key_image_helper cn_fast_hash ack tx_public_key n =
      Ok (Some ({| public_key := public_of sec; secret_key := sec |}, image_of cn_fast_hash sec)).
Proof using Hlaws hash_bytes.
  intros (Hv & Hs & Hpub) [P HP] Hn. unfold generate_key_image_helper, generate_key_derivation.
  rewrite assert_valid_ok, HP by done. cbn [mbind result_bind mret result_ret].
  set (D := ge_tobytes _). unfold Crypto.derive_public_key, derive_secret_key.
  rewrite Hpub, frombytes_public, assert_valid_ok by done.
  destruct (derivation_to_scalar_valid cn_fast_hash hash_bytes D n Hn) as (x & -> & Hx).
  cbn [mbind result_bind mret result_ret].
  destruct (sc_add_scalar (spend_secret_key ack) x Hs Hx) as (sec & -> & Hsec). cbn [mbind result_bind].
  assert (ge_tobytes (ge_add (pt_mul (le_value (spend_secret_key ack)) base) (ge_scalarmult_base x)) = public_of sec)
    as ->.
  { rewrite ge_add_law, ge_scalarmult_base_law by done. unfold public_of.
    by rewrite (pt_mul_scalar sec _ base base_in_subgroup Hsec), pt_mul_plus. }
  rewrite key_image_ok by apply Hsec. exists sec. split; [apply Hsec|done].
Qed.

(** ** Rings *)

Definition member_ok (amount : Amount) (o : Output) : Prop :=
  decodes (o_public_key o) ∧ in_u 32 (o_global_index o) ∧ o_amount o = amount.

(** The wallet's own output: its key is the one derived from the transaction
    it came in, and its key image the one that goes with it. *)
Definition ours (ack : AccountKeys) (real : Output) : Prop :=
  decodes (o_transaction_public_key real) ∧ 0 ≤ o_index_in_transaction real < 2 ^ 64 ∧
  ∃ eph, generate_key_image_helper cn_fast_hash ack (o_transaction_public_key real)
           (Z.to_nat (o_index_in_transaction real)) = Ok (Some (eph, o_key_image real)) ∧
         o_public_key real = public_key eph.

Record ring_ready (d : InputDesc) : Prop := {
  rr_secret : valid (secret_key (eph_keys d));
  rr_real : (o_public_key <$> in_outputs d) !! real_output_index d = Some (public_of (secret_key (eph_keys d)));
  rr_image : in_key_image d = image_of cn_fast_hash (secret_key (eph_keys d));
  rr_members : Forall (member_ok (in_amount d)) (in_outputs d);
  rr_sorted : StronglySorted Z.lt (o_global_index <$> in_outputs d);
  rr_indexes : in_output_indexes d = absolute_output_offsets_to_relative (o_global_index <$> in_outputs d);
  rr_amount : in_u 64 (in_amount d);
  rr_length : in_u 64 (Z.of_nat (length (in_outputs d)));
}.

Definition signed (hash : Hash) (d : InputDesc) (sigs : list Signature) : Prop :=
  length sigs = length (in_outputs d) ∧
  ∀ check_key_image, check_ring_signature cn_fast_hash hash (in_key_image d) (o_public_key <$> in_outputs d) sigs
    check_key_image = Ok (true, false).

Lemma sign_inputs_ok rnd hash descs draws : (∀ j, byte_string 64 (rnd j)) → Forall ring_ready descs →
  ∃ sigs draws', sign_inputs cn_fast_hash rnd hash descs draws = Ok (sigs, draws') ∧ Forall2 (signed hash) descs sigs.
Proof using Hlaws hash_bytes.
  intros Hr. revert draws. induction descs as [|d descs IH]; intros draws Hd; cbn [sign_inputs].
  { eexists _, _. split; [done|constructor]. }
  apply Forall_cons in Hd as [Hd Hds].
  assert (Forall decodes (o_public_key <$> in_outputs d)) as Hdec.
  { apply Forall_fmap. eapply Forall_impl; [exact (rr_members d Hd)|]. by intros o []. }
  rewrite (rr_image d Hd).
  pose proof (ring_signature_ok cn_fast_hash hash_bytes hash _ (rr_secret d Hd) rnd
    (o_public_key <$> in_outputs d) (real_output_index d) draws) as Hsig.
  destruct (Hsig true Hr Hdec (rr_real d Hd)) as (sigs & draws1 & Hgen & Hlen & _). rewrite Hgen.
  cbn [mbind result_bind].
  destruct (IH draws1 Hds) as (rest & draws2 & -> & Hrest). cbn [mbind result_bind mret result_ret].
  eexists _, _. split; [done|]. constructor; [|done]. split; [by rewrite Hlen, length_fmap|].
  intros check. destruct (Hsig check Hr Hdec (rr_real d Hd)) as (sigs' & draws' & Hgen' & _ & Hck).
  rewrite Hgen in Hgen'. injection Hgen' as <- <-. by rewrite (rr_image d Hd).
Qed.

(** ** Outputs *)

(** The output of a transaction that [sign] makes of a description. *)
Definition made_for (tx_key : SecretKey) (n : nat) (d : OutputDesc) (o : TransactionOutput) : Prop :=
  out_amount o = od_amount d ∧ ∃ key, out_target o = KeyOutput key ∧ byte_string 32 key ∧ decodes key ∧
    derive_public_key cn_fast_hash (od_addr d) tx_key n = Ok (Some key).

Lemma sign_outputs_ok tx_key n descs : valid tx_key → Forall (λ d, address_ok (od_addr d)) descs →
  Z.of_nat (n + length descs) < 2 ^ 64 →
  ∃ outs, sign_outputs cn_fast_hash tx_key n descs = Ok outs ∧ length outs = length descs ∧
    ∀ i d o, descs !! i = Some d → outs !! i = Some o → made_for tx_key (n + i) d o.
Proof using Hlaws hash_bytes.
  intros Hk. revert n. induction descs as [|d descs IH]; intros n Hd Hn; cbn [sign_outputs].
  { eexists. split; [done|]. split; [done|]. by intros []. }
  apply Forall_cons in Hd as [Hd Hds]. cbn [length] in Hn.
  destruct (derive_public_key_ok (od_addr d) tx_key n Hd Hk) as (key & Hkey & Hb & Hdec); [lia|].
  rewrite Hkey. cbn [mbind result_bind]. destruct (IH (S n) Hds) as (outs & -> & Hlen & Hi); [lia|].
  cbn [mbind result_bind mret result_ret]. eexists. split; [done|]. split; [by cbn; rewrite Hlen|].
  intros [|i] d' o; cbn.
  - intros [= <-] [= <-]. rewrite Nat.add_0_r. split; [done|]. by exists key.
  - intros H1 H2. rewrite <- Nat.add_succ_comm. by apply Hi.
Qed.

(** ** The transaction's fields *)

(** What a builder may have in [extra] before it signs. *)
Definition nonce_only (fields : list TransactionExtraField) : Prop :=
  fields = [] ∨ ∃ nonce, fields = [TransactionExtraNonce nonce] ∧ bytes nonce ∧ Z.of_nat (length nonce) ≤ 255.

Lemma extra_ok fields key : nonce_only fields → byte_string 32 key →
  ∃ e, serialize (set_field (TransactionExtraPublicKey key) fields) = Ok e ∧ c_ok c_bytes e ∧
    parse_transaction_extra e = (true, set_field (TransactionExtraPublicKey key) fields).
Proof.
  intros Hf [Hb Hl].
  assert (fields_ok (set_field (TransactionExtraPublicKey key) fields)) as Hok.
  { destruct Hf as [->|(n & -> & Hn & Hnl)]; cbn; unfold TX_EXTRA_NONCE_MAX_COUNT; repeat split; (done || lia). }
  destruct (write_parse_loop _ [] Hok) as (e & Hw & He & Hp). cbn [app] in Hw.
  exists e. unfold serialize. rewrite Hw. split; [done|]. split; [|by apply Hp].
  split; [done|]. clear Hp He Hok.
  destruct Hf as [->|(n & -> & Hn & Hnl)]; cbn in Hw.
  - injection Hw as <-. cbn. rewrite Hl. unfold in_u. lia.
  - unfold add_extra_nonce_to_transaction_extra, TX_EXTRA_NONCE_MAX_COUNT in Hw.
    replace (255 <? _) with false in Hw by lia. cbn in Hw. injection Hw as <-.
    cbn. rewrite !length_app. cbn. rewrite Hl. unfold in_u. lia.
Qed.

Lemma extra_public_key fields key e : nonce_only fields →
  parse_transaction_extra e = (true, set_field (TransactionExtraPublicKey key) fields) →
  get_transaction_public_key_from_extra e = key.
Proof.
  intros Hf Hp. unfold get_transaction_public_key_from_extra. rewrite Hp.
  by destruct Hf as [->|(n & -> & _)].
Qed.

Lemma image_bytes sec : byte_string 32 (image_of cn_fast_hash sec).
Proof. apply ge_tobytes_bytes. Qed.

Lemma input_c_ok d : ring_ready d → c_ok ser_TransactionInput (input_of d).
Proof.
  intros [_ _ Hki Hm _ Hi Ha Hl]. unfold input_of. rewrite Hki, Hi. assert (Forall (in_u 32) (o_global_index <$> in_outputs d)) as Hu.
  { apply Forall_fmap. eapply Forall_impl; [exact Hm|]. by intros o (_ & ? & _). }
  cbn. split; [done|]. split; [|apply image_bytes]. rewrite length_relative, length_fmap. split; [done|].
  by apply relative_u32.
Qed.

Lemma to_binary_ok {A} (c : codec A) `{!CodecLaws c} a : c_ok c a → ∃ ba, to_binary c a = Ok ba.
Proof. intros Ha. destruct (from_to_binary c a Ha) as (ba & Hba & _). by exists ba. Qed.

Lemma inputs_hash_ok p : Forall (c_ok ser_TransactionInput) (inputs p) → in_u 64 (Z.of_nat (length (inputs p))) →
  ∃ h, get_transaction_inputs_hash cn_fast_hash p = Ok h.
Proof.
  intros Hi Hl. unfold get_transaction_inputs_hash, get_object_hash.
  destruct (to_binary_ok (c_vector ser_TransactionInput) (inputs p)) as [ba ->]; [done|]. by eexists.
Qed.

Lemma prefix_hash_ok p : c_ok ser_TransactionPrefix p → ∃ h, get_transaction_prefix_hash cn_fast_hash p = Ok h.
Proof.
  intros Hp. unfold get_transaction_prefix_hash, get_object_hash.
  destruct (to_binary_ok ser_TransactionPrefix p Hp) as [ba ->]. by eexists.
Qed.

Lemma seed_keys_ok p seed h : get_transaction_inputs_hash cn_fast_hash p = Ok h →
  ∃ sec, valid sec ∧ deterministic_keys_from_seed cn_fast_hash p seed =
    Ok {| public_key := public_of sec; secret_key := sec |}.
Proof using Hlaws hash_bytes.
  intros Hh. unfold deterministic_keys_from_seed, deterministic_keys_from_hash. rewrite Hh. cbn [mbind result_bind].
  destruct (hash_to_scalar_valid cn_fast_hash hash_bytes (h ++ seed)) as (sec & -> & Hsec). cbn [mbind result_bind].
  exists sec. split; [done|]. by rewrite secret_public.
Qed.

(** ** Signing *)

Record builder_ok (b : TransactionBuilder) : Prop := {
  bo_version : in_u 8 (version (tx_prefix (m_transaction b)));
  bo_unlock : in_u 64 (unlock_time (tx_prefix (m_transaction b)));
  bo_extra : nonce_only (m_extra b);
  bo_inputs : Forall ring_ready (m_input_descs b);
  bo_outputs : Forall (λ d, address_ok (od_addr d) ∧ in_u 64 (od_amount d)) (m_output_descs b);
}.

(** What [sign] returns for a builder: its inputs and outputs in some order,
    the public key of the transaction in [extra], all rings signed. *)
Record signs (b : TransactionBuilder) (ins : list InputDesc) (outs : list OutputDesc) (tx_key : SecretKey)
    (tx : Transaction) : Prop := {
  sg_ins : ins ≡ₚ m_input_descs b;
  sg_outs : outs ≡ₚ m_output_descs b;
  sg_key : valid tx_key;
  sg_version : version (tx_prefix tx) = version (tx_prefix (m_transaction b));
  sg_unlock : unlock_time (tx_prefix tx) = unlock_time (tx_prefix (m_transaction b));
  sg_extra : parse_transaction_extra (extra (tx_prefix tx)) =
    (true, set_field (TransactionExtraPublicKey (public_of tx_key)) (m_extra b));
  sg_inputs : inputs (tx_prefix tx) = input_of <$> ins;
  sg_length : length (outputs (tx_prefix tx)) = length outs;
  sg_outputs i d o : outs !! i = Some d → outputs (tx_prefix tx) !! i = Some o → made_for tx_key i d o;
  sg_rings : ∃ hash, get_transaction_prefix_hash cn_fast_hash (tx_prefix tx) = Ok hash ∧
    Forall2 (signed hash) ins (signatures tx);
}.

Section sign.
Context (rnd : nat → list Z) (shuffle_outputs : list OutputDesc → list OutputDesc)
  (shuffle_inputs : list InputDesc → list InputDesc).
Hypothesis rnd_bytes : ∀ j, byte_string 64 (rnd j).
Hypothesis shuffle_outputs_perm : ∀ l, shuffle_outputs l ≡ₚ l.
Hypothesis shuffle_inputs_perm : ∀ l, shuffle_inputs l ≡ₚ l.

Lemma sign_ok b seed draws : builder_ok b →
  Z.of_nat (length (m_input_descs b)) < 2 ^ 64 → Z.of_nat (length (m_output_descs b)) < 2 ^ 64 →
  ∃ ins outs tx_key tx b' draws',
    sign cn_fast_hash rnd shuffle_outputs shuffle_inputs b seed draws = Ok (tx, b', draws') ∧
    signs b ins outs tx_key tx.
Proof using All.
  intros [Hv Hu He Hi Ho] Hil Hol. unfold sign.
  set (outs := stable_sort output_less_amount _). set (ins := stable_sort input_less_amount _).
  assert (ins ≡ₚ m_input_descs b) as Hins by (unfold ins; by rewrite stable_sort_perm).
  assert (outs ≡ₚ m_output_descs b) as Houts by (unfold outs; by rewrite stable_sort_perm).
  rewrite <- Hins in Hi. rewrite <- Houts in Ho.
  assert (Forall (c_ok ser_TransactionInput) (input_of <$> ins)) as Hic.
  { apply Forall_fmap. eapply Forall_impl; [exact Hi|]. apply input_c_ok. }
  assert (in_u 64 (Z.of_nat (length (input_of <$> ins)))) as Hicl.
  { rewrite length_fmap, Hins. unfold in_u. lia. }
  match goal with |- context [deterministic_keys_from_seed _ ?p _] =>
    destruct (inputs_hash_ok p Hic Hicl) as [h Hh]; destruct (seed_keys_ok p seed h Hh) as (tx_key & Hkey & ->) end.
  cbn [mbind result_bind public_key secret_key].
  destruct (extra_ok (m_extra b) (public_of tx_key) He) as (e & -> & Heok & Hep); [apply ge_tobytes_bytes|].
  cbn [mbind result_bind].
  destruct (sign_outputs_ok tx_key 0 outs Hkey) as (os & -> & Hlen & Hmade).
  { eapply Forall_impl; [exact Ho|]. by intros d []. } { rewrite Houts. lia. }
  cbn [mbind result_bind].
  match goal with |- context [get_transaction_prefix_hash _ ?p] => set (prefix := p) end.
  assert (c_ok ser_TransactionPrefix prefix) as Hpok.
  { cbn. split; [done|]. split; [done|]. split; [done|]. split; [|done].
    split; [rewrite Hlen, Houts; unfold in_u; lia|].
    apply Forall_lookup. intros i o Ho'. destruct (lookup_lt_is_Some_2 outs i) as [d Hd].
    { apply lookup_lt_Some in Ho'. lia. }
    destruct (Hmade i d o Hd Ho') as (Hamt & key & Htgt & Hkb & _). cbn. rewrite Htgt, Hamt.
    rewrite Forall_lookup in Ho. destruct (Ho i d Hd) as [_ Ham]. by split. }
  destruct (prefix_hash_ok prefix Hpok) as [hash Hhash]. rewrite Hhash. cbn [mbind result_bind].
  destruct (sign_inputs_ok rnd hash ins draws rnd_bytes Hi) as (sigs & draws' & -> & Hsigs).
  cbn [mbind result_bind mret result_ret].
  eexists ins, outs, tx_key, _, _, _. split; [reflexivity|]. split; try done.
  by exists hash.
Qed.

End sign.
(** ** The checks of the node *)

Lemma sum_cons x l : sum (x :: l) = x + sum l.
Proof. done. Qed.

Lemma amounts_nonneg l : Forall (in_u 64) l → 0 ≤ sum l.
Proof. unfold sum. induction 1 as [|x l Hx _ IH]; cbn; [lia|]. unfold in_u in Hx. lia. Qed.

Lemma sum_perm l k : l ≡ₚ k → sum l = sum k.
Proof. unfold sum. induction 1; cbn; lia. Qed.

Lemma validate_outputs_ok check outs summary : 0 ≤ summary →
  Forall (λ o, in_u 64 (out_amount o) ∧ out_amount o ≠ 0 ∧ ∃ key, out_target o = KeyOutput key ∧ decodes key) outs →
  summary + sum (out_amount <$> outs) < 2 ^ 64 →
  validate_outputs key_isvalid check outs summary = inr (summary + sum (out_amount <$> outs)).
Proof.
  revert summary. induction outs as [|o outs IH]; intros summary H0 Ho Hs.
  { by rewrite Z.add_0_r. }
  rewrite fmap_cons, sum_cons in Hs |- *. cbn [validate_outputs].
  apply Forall_cons in Ho as [(Ha & Hnz & key & -> & Hk) Ho].
  assert (0 ≤ sum (out_amount <$> outs)).
  { apply amounts_nonneg. apply Forall_fmap. eapply Forall_impl; [exact Ho|]. by intros o' []. }
  unfold in_u in Ha. replace (out_amount o =? 0) with false by lia.
  assert (key_isvalid key = true) as -> by (unfold key_isvalid; by rewrite bool_decide_true).
  rewrite andb_false_r. unfold UINT64_MAX. replace (_ <? summary) with false by lia.
  rewrite IH by (done || lia). f_equal. lia.
Qed.

Lemma validate_inputs_ok ins ki summary : Forall ring_ready ins → NoDup (in_key_image <$> ins) →
  (∀ d, d ∈ ins → in_key_image d ∉ ki) → 0 ≤ summary → summary + sum (in_amount <$> ins) < 2 ^ 64 →
  validate_inputs false (input_of <$> ins) ki summary = inr (summary + sum (in_amount <$> ins)).
Proof.
  revert ki summary. induction ins as [|d ins IH]; intros ki summary Hr Hnd Hki H0 Hs.
  { by rewrite Z.add_0_r. }
  rewrite fmap_cons in Hnd. rewrite fmap_cons, sum_cons in Hs. rewrite !fmap_cons, sum_cons.
  cbn [validate_inputs input_of].
  apply Forall_cons in Hr as [Hd Hr]. apply NoDup_cons in Hnd as [Hni Hnd].
  assert (0 ≤ sum (in_amount <$> ins)).
  { apply amounts_nonneg. apply Forall_fmap. eapply Forall_impl; [exact Hr|]. by intros o' []. }
  pose proof (rr_amount d Hd) as Ha. unfold in_u in Ha.
  assert (Forall (in_u 32) (o_global_index <$> in_outputs d)) as Hu.
  { apply Forall_fmap. eapply Forall_impl; [exact (rr_members d Hd)|]. by intros o (_ & ? & _). }
  rewrite bool_decide_false by (apply Hki; set_solver). rewrite (rr_indexes d Hd).
  rewrite bool_decide_false.
  2:{ intros Hnil. apply (f_equal length) in Hnil. rewrite length_relative, length_fmap in Hnil.
      pose proof (lookup_lt_Some _ _ _ (rr_real d Hd)) as Hlt. rewrite length_fmap in Hlt. cbn in Hnil. lia. }
  rewrite bool_decide_false by (apply relative_distinct; [done|apply rr_sorted, Hd]).
  unfold UINT64_MAX. replace (_ <? summary) with false by lia.
  rewrite IH; [f_equal; lia|done..| |lia|lia].
  intros d' Hd'. apply not_elem_of_union. split; [|apply Hki; set_solver].
  apply not_elem_of_singleton. intros Heq. apply Hni. rewrite <- Heq. by apply list_elem_of_fmap_2.
Qed.

Lemma made_amounts tx_key outs (os : list TransactionOutput) : length os = length outs →
  (∀ i d o, outs !! i = Some d → os !! i = Some o → made_for tx_key i d o) →
  out_amount <$> os = od_amount <$> outs ∧
  Forall (λ o, ∃ key, out_target o = KeyOutput key ∧ decodes key) os.
Proof.
  intros Hl Hm. split.
  - apply list_eq. intros i. rewrite !list_lookup_fmap.
    destruct (os !! i) as [o|] eqn:Ho, (outs !! i) as [d|] eqn:Hd; cbn; try done.
    + f_equal. by destruct (Hm i d o Hd Ho).
    + apply lookup_lt_Some in Ho. apply lookup_ge_None in Hd. lia.
    + apply lookup_lt_Some in Hd. apply lookup_ge_None in Ho. lia.
  - apply Forall_lookup. intros i o Ho. destruct (lookup_lt_is_Some_2 outs i) as [d Hd].
    { apply lookup_lt_Some in Ho. lia. }
    destruct (Hm i d o Hd Ho) as (_ & key & ? & _ & ? & _). by exists key.
Qed.

(** The checks that need no state pass, and give the fee. *)
Lemma signed_semantic b ins outs tx_key tx check : builder_ok b → signs b ins outs tx_key tx →
  m_input_descs b ≠ [] → NoDup (in_key_image <$> m_input_descs b) →
  Forall (λ d, od_amount d ≠ 0) (m_output_descs b) →
  sum (od_amount <$> m_output_descs b) ≤ sum (in_amount <$> m_input_descs b) < 2 ^ 64 →
  validate_semantic key_isvalid false tx check =
    inr (sum (in_amount <$> m_input_descs b) - sum (od_amount <$> m_output_descs b)).
Proof.
  intros [_ _ _ Hi Ho] [Hins Houts _ _ _ _ Htxi Htxl Htxo Hrings] Hne Hnd Hnz [Hle Hlt].
  rewrite <- Hins in Hi, Hnd. rewrite <- Houts in Ho, Hnz.
  rewrite <- (sum_perm _ _ (fmap_Permutation in_amount _ _ Hins)),
    <- (sum_perm _ _ (fmap_Permutation od_amount _ _ Houts)) in *.
  destruct (made_amounts tx_key outs _ Htxl Htxo) as [Ham Hdec]. unfold validate_semantic. rewrite Htxi.
  rewrite bool_decide_false.
  2:{ intros Hnil%fmap_nil_inv. subst ins. by apply Hne, Permutation_nil. }
  rewrite validate_outputs_ok; [|done| |]; cycle 1.
  { apply Forall_lookup. intros i o Hio. rewrite Forall_lookup in Hdec. rewrite Forall_lookup in Ho. rewrite Forall_lookup in Hnz.
    destruct (lookup_lt_is_Some_2 outs i) as [d Hd]; [apply lookup_lt_Some in Hio; lia|].
    destruct (Htxo i d o Hd Hio) as [-> _]. split; [by apply (Ho i d Hd)|]. split; [by apply (Hnz i d Hd)|].
    by apply (Hdec i). } { rewrite Ham. lia. }
  rewrite Ham, Z.add_0_l. rewrite validate_inputs_ok; [|done|done|set_solver|done|lia]. rewrite Z.add_0_l.
  replace (sum (od_amount <$> outs) >? _) with false by lia. cbn [negb andb].
  destruct Hrings as (hash & _ & Hsig). apply Forall2_length in Hsig.
  rewrite length_fmap, Hsig, Nat.eqb_refl. cbn [negb andb]. rewrite andb_false_r. f_equal. apply u64_small.
  assert (0 ≤ sum (od_amount <$> outs)).
  { apply amounts_nonneg, Forall_fmap. eapply Forall_impl; [exact Ho|]. by intros d []. }
  lia.
Qed.

(** A state in which the members of a ring are outputs that may be spent. *)
Definition ring_spendable {S} `{IBlockChainState S} (currency : Currency) (state : S) (height : Height)
    (timestamp : Timestamp) (d : InputDesc) : Prop :=
  read_keyimage state (in_key_image d) = Ok None ∧
  Forall (λ o, ∃ unp, read_amount_output state (in_amount d) (o_global_index o) = Ok (Some unp) ∧
    ChainState.o_public_key unp = o_public_key o ∧
    is_transaction_spend_time_unlocked currency (ChainState.o_unlock_time unp) height timestamp = true)
    (in_outputs d).

Section jobs.
Context {S : Type} `{IBlockChainState S} (currency : Currency) (state : S) (height : Height) (timestamp : Timestamp).

Lemma output_keys_spendable amount os conflict :
  Forall (λ o, ∃ unp, read_amount_output state amount (o_global_index o) = Ok (Some unp) ∧
    ChainState.o_public_key unp = o_public_key o ∧
    is_transaction_spend_time_unlocked currency (ChainState.o_unlock_time unp) height timestamp = true) os →
  ∃ conflict', output_keys currency state amount (o_global_index <$> os) height timestamp conflict =
    Ok (inr (o_public_key <$> os), conflict').
Proof.
  revert conflict. induction os as [|o os IH]; intros conflict Ho; cbn [fmap list_fmap output_keys]; [by eexists|].
  apply Forall_cons in Ho as [(unp & -> & Hk & Hu) Ho]. cbn [mbind result_bind].
  rewrite Hu. cbn [negb].
  edestruct IH as [c ->]; [exact Ho|]. cbn [mbind result_bind]. rewrite Hk. by eexists.
Qed.

(** The job for a ring is one the checker accepts. *)
Definition accepts (arg : RingSignatureArg) : Prop :=
  ∀ check_key_image, check_ring_signature cn_fast_hash (tx_prefix_hash arg) (arg_key_image arg)
    (arg_output_keys arg) (arg_signatures arg) check_key_image = Ok (true, false).

Lemma ring_jobs_ok hash ins sigs k : Forall ring_ready ins →
  Forall (ring_spendable currency state height timestamp) ins → Forall2 (signed hash) ins (drop k sigs) →
  ∃ args, ring_jobs_inputs currency state hash sigs height timestamp k (input_of <$> ins) = Ok (inr args) ∧
    Forall accepts args ∧ length args = length ins.
Proof.
  revert k. induction ins as [|d ins IH]; intros k Hr Hs Hsig; cbn [fmap list_fmap ring_jobs_inputs input_of].
  { exists []. by split_and!. }
  apply Forall_cons in Hr as [Hd Hr]. apply Forall_cons in Hs as [[Hki Hsp] Hs].
  destruct (sigs !! k) as [sig|] eqn:Hk; cycle 1.
  { apply lookup_ge_None in Hk. rewrite drop_ge in Hsig by done. inversion Hsig. }
  rewrite (drop_S _ sig k Hk) in Hsig. apply Forall2_cons in Hsig as [Hsd Hsig]. cbn [of_option mbind result_bind].
  assert (Forall (in_u 32) (o_global_index <$> in_outputs d)) as Hu.
  { apply Forall_fmap. eapply Forall_impl; [exact (rr_members d Hd)|]. by intros o (_ & ? & _). }
  unfold ring_of_input at 1. rewrite Hki. cbn [mbind result_bind]. rewrite (rr_indexes d Hd).
  rewrite bool_decide_false; cycle 1.
  { intros Hnil. apply (f_equal length) in Hnil. rewrite length_relative, length_fmap in Hnil.
    pose proof (lookup_lt_Some _ _ _ (rr_real d Hd)) as Hlt. rewrite length_fmap in Hlt. cbn in Hnil. lia. }
  rewrite global_indexes_relative by done.
  destruct (output_keys_spendable (in_amount d) (in_outputs d) 0 Hsp) as [c ->]. cbn [mbind result_bind of_option].
  destruct (IH (Datatypes.S k) Hr Hs Hsig) as (args & -> & Hargs & Hl). cbn [mbind result_bind].
  eexists. split; [reflexivity|]. split; [|cbn; by rewrite Hl]. constructor; [|done].
  destruct Hsd as [_ Hsd]. exact Hsd.
Qed.

Lemma signed_jobs b ins outs tx_key tx : builder_ok b → signs b ins outs tx_key tx →
  Forall (ring_spendable currency state height timestamp) (m_input_descs b) →
  ∃ args, ring_jobs currency cn_fast_hash state [tx] height timestamp = Ok (inr args) ∧ Forall accepts args ∧
    length args = length (m_input_descs b).
Proof.
  intros [_ _ _ Hi _] [Hins _ _ _ _ _ Htxi _ _ (hash & Hh & Hsig)] Hsp. rewrite <- Hins in Hi, Hsp.
  rewrite <- (Permutation_length Hins).
  cbn [ring_jobs]. rewrite Hh. cbn [mbind result_bind]. rewrite Htxi.
  destruct (ring_jobs_ok hash ins (signatures tx) 0 Hi Hsp) as (args & -> & Hargs & Hl); [done|].
  cbn [mbind result_bind]. eexists. split; [reflexivity|]. by rewrite app_nil_r.
Qed.

End jobs.
(** ** Adding inputs *)

Lemma strictly_sorted (l : list Output) : StronglySorted gi_le l → NoDup (o_global_index <$> l) →
  StronglySorted Z.lt (o_global_index <$> l).
Proof.
  induction 1 as [|o l Hs IH Hle]; [constructor|]. rewrite fmap_cons. intros [Hni Hnd]%NoDup_cons.
  constructor; [by apply IH|]. apply Forall_fmap. rewrite Forall_forall in Hle |- *. intros o' Ho'.
  specialize (Hle o' Ho'). unfold gi_le in Hle. cbn.
  assert (o_global_index o ≠ o_global_index o'); [|lia]. intros Heq. apply Hni. rewrite Heq.
  by apply list_elem_of_fmap_2.
Qed.

Lemma sorted_nodup (l : list Z) : StronglySorted Z.lt l → NoDup l.
Proof.
  induction 1 as [|x l Hs IH Hlt]; constructor; [|done]. intros Hx. rewrite Forall_forall in Hlt.
  specialize (Hlt x Hx). lia.
Qed.

Section sorting.
Context (sort_outputs : list Output → list Output).
Hypothesis sort_perm : ∀ l, sort_outputs l ≡ₚ l.
Hypothesis sort_sorted : ∀ l, StronglySorted gi_le (sort_outputs l).

(** The builder with one more input. *)
Definition with_input (b : TransactionBuilder) (d : InputDesc) : TransactionBuilder :=
  {| m_transaction := m_transaction b; m_input_descs := m_input_descs b ++ [d];
     m_output_descs := m_output_descs b; m_extra := m_extra b; m_outputs_amount := m_outputs_amount b;
     m_inputs_amount := u64 (m_inputs_amount b + in_amount d) |}.

(** The input that spends a coin. *)
Record spends (real : Output) (d : InputDesc) : Prop := {
  sp_amount : in_amount d = o_amount real;
  sp_image : in_key_image d = o_key_image real;
  sp_real : in_outputs d !! real_output_index d = Some real;
}.

Lemma add_input_ok b ack real mix : keys_ok ack → ours ack real → in_u 64 (o_amount real) →
  in_u 32 (o_global_index real) → Forall (member_ok (o_amount real)) mix →
  NoDup (o_global_index <$> mix) → o_global_index real ∉ o_global_index <$> mix →
  Z.of_nat (length mix) < 2 ^ 63 →
  ∃ d, add_input cn_fast_hash sort_outputs b ack real mix = Ok (with_input b d, length (m_input_descs b)) ∧
    ring_ready d ∧ spends real d ∧ in_outputs d ≡ₚ real :: mix.
Proof using All.
  intros Hk (Hdec & Hidx & eph & Hhelp & Hpub) Ha Hgi Hmix Hnd Hni Hl. unfold add_input. rewrite Hhelp.
  destruct (key_image_helper_ok ack (o_transaction_public_key real) (Z.to_nat (o_index_in_transaction real))) as
    (sec & Hsec & Hhelp'); [done|done|lia|]. rewrite Hhelp in Hhelp'. injection Hhelp' as -> Hki.
  cbn [public_key] in Hpub. cbn [mbind result_bind]. rewrite bool_decide_true by done. cbn [negb].
  set (outs := take _ _ ++ _).
  assert (outs ≡ₚ real :: mix) as Hperm by (unfold outs; by rewrite insert_perm, sort_perm).
  assert (member_ok (o_amount real) real) as Hreal.
  { split; [|done]. rewrite Hpub. eexists. apply frombytes_public. }
  assert (Forall (member_ok (o_amount real)) outs) as Hm by (rewrite Hperm; by constructor).
  assert (forallb (λ out, o_amount out =? o_amount real) outs = true) as ->.
  { apply forallb_forall. intros o Ho%list_elem_of_In. rewrite Forall_forall in Hm.
    destruct (Hm o Ho) as (_ & _ & ->). apply Z.eqb_refl. }
  cbn [negb mret result_ret].
  set (d := {| in_outputs := outs |}). exists d. split; [reflexivity|].
  assert (outs !! lower_bound (sort_outputs mix) real = Some real) as Hlook
    by (unfold outs; apply insert_lookup, lower_bound_le).
  split; [|split; [by split|exact Hperm]]. split; cbn; try done.
  - by rewrite list_lookup_fmap, Hlook, <- Hpub.
  - apply lower_bound_sorted.
    + apply strictly_sorted; [apply sort_sorted|]. by rewrite sort_perm.
    + by rewrite sort_perm.
  - rewrite Hperm. cbn [length]. unfold in_u. lia.
Qed.

Lemma with_input_ok b d : builder_ok b → ring_ready d → builder_ok (with_input b d).
Proof. intros [] Hd. split; cbn; try done. apply Forall_app. split; [done|]. by constructor. Qed.

(** ** Mixing in *)

Lemma pop_outputs_ok n avail mix : (n ≤ length avail)%nat →
  ∃ popped rest, pop_outputs n avail mix = Ok (mix ++ popped, rest) ∧ rest ++ rev popped = avail ∧ length popped = n.
Proof using.
  revert avail mix. induction n as [|n IH]; intros avail mix Hn; cbn [pop_outputs].
  { exists [], avail. by rewrite !app_nil_r. }
  destruct avail as [|x avail _] using rev_ind; [cbn in Hn; lia|].
  rewrite last_snoc, removelast_last. rewrite length_app in Hn. cbn in Hn.
  destruct (IH avail (mix ++ [x])) as (popped & rest & -> & <- & Hl); [lia|].
  exists (x :: popped), rest. rewrite <- app_assoc. cbn. by rewrite Hl, app_assoc.
Qed.

Lemma pop_outputs_short n avail mix : (length avail < n)%nat →
  pop_outputs n avail mix = Throw "Not enough anonymity for amount".
Proof using.
  revert avail mix. induction n as [|n IH]; intros avail mix Hn; [lia|]. cbn [pop_outputs].
  destruct avail as [|x avail _] using rev_ind; [done|]. rewrite last_snoc, removelast_last.
  rewrite length_app in Hn. cbn in Hn. apply IH. lia.
Qed.

Lemma unique_after_ok x l : StronglySorted gi_le (x :: l) →
  StronglySorted Z.lt (o_global_index <$> x :: unique_after x l) ∧ (∀ o, o ∈ unique_after x l → o ∈ l).
Proof using.
  revert x. induction l as [|y l IH]; intros x Hs; cbn [unique_after].
  { split; [repeat constructor|done]. }
  apply StronglySorted_inv in Hs as [Hs Hle]. apply Forall_cons in Hle as [Hxy Hle].
  unfold APIOutputEqualGlobalIndex. destruct (Z.eqb_spec (o_global_index x) (o_global_index y)) as [Heq|Hne].
  - apply StronglySorted_inv in Hs as [Hs _]. destruct (IH x) as [H1 H2]; [by constructor|].
    split; [done|]. intros o Ho. constructor. by apply H2.
  - destruct (IH y Hs) as [H1 H2]. split; [|intros o; rewrite !elem_of_cons; naive_solver].
    rewrite fmap_cons. constructor; [done|]. rewrite fmap_cons. unfold gi_le in Hxy.
    constructor; [lia|]. apply StronglySorted_inv in H1 as [_ H1]. eapply Forall_impl; [exact H1|]. cbn. intros z. lia.
Qed.

Lemma unique_ok l : StronglySorted gi_le l → l ≠ [] →
  StronglySorted Z.lt (o_global_index <$> unique l) ∧ unique l ≠ [] ∧ (∀ o, o ∈ unique l → o ∈ l).
Proof using.
  destruct l as [|x l]; [done|]. intros Hs _. destruct (unique_after_ok x l Hs) as [H1 H2].
  split; [done|]. split; [done|]. intros o. cbn. rewrite !elem_of_cons. naive_solver.
Qed.

Definition small_index (o : Output) : Prop := 0 ≤ o_global_index o < 2 ^ 31.

Lemma index_distance_ok a b : 0 ≤ a < 2 ^ 31 → 0 ≤ b < 2 ^ 31 → index_distance a b = Ok (Z.abs (a - b)).
Proof using.
  intros Ha Hb. unfold index_distance, to_int. replace (a <? 2 ^ 31) with true by lia.
  replace (b <? 2 ^ 31) with true by lia. by replace (_ && _) with true by lia.
Qed.

Lemma nearest_ok gi i l best : 0 ≤ gi < 2 ^ 31 → Forall small_index l →
  (∀ j d, best = Some (j, d) → (j < i)%nat) →
  ∃ r, nearest gi i l best = Ok r ∧ (l ≠ [] ∨ best ≠ None → r ≠ None) ∧
    ∀ j d, r = Some (j, d) →
      ((j < i)%nat ∧ best = Some (j, d) ∨
       ∃ o, (i ≤ j)%nat ∧ l !! (j - i)%nat = Some o ∧ d = Z.abs (gi - o_global_index o)) ∧
      (∀ k e, best = Some (k, e) → d ≤ e) ∧ Forall (λ o, d ≤ Z.abs (gi - o_global_index o)) l.
Proof using.
  intros Hg. revert i best. induction l as [|o l IH]; intros i best Hl Hb; cbn [nearest].
  { exists best. split; [done|]. split; [naive_solver|]. intros j d ->. split; [left; split; [by eapply Hb|done]|].
    split; [intros k e [= <- <-]; lia|constructor]. }
  apply Forall_cons in Hl as [Ho Hl]. rewrite index_distance_ok by done. cbn [mbind result_bind].
  set (d0 := Z.abs (gi - o_global_index o)).
  set (best' := match best with None => _ | Some _ => _ end).
  assert (∃ j d, best' = Some (j, d) ∧ (best = Some (j, d) ∧ d ≤ d0 ∨ j = i ∧ d = d0) ∧
    (∀ k e, best = Some (k, e) → d ≤ e)) as (j0 & e0 & Hb' & Hor & Hmin).
  { unfold best'. destruct best as [[k e]|].
    - destruct (Z.ltb_spec d0 e); eexists _, _; (split; [done|]); (split; [naive_solver lia|]);
        intros ? ? [= <- <-]; lia.
    - eexists _, _. split; [done|]. split; [by right|done]. }
  destruct (IH (S i) best') as (r & -> & Hne & Hr); [done| |].
  { intros j d. rewrite Hb'. intros [= <- <-]. destruct Hor as [[Hor _]|[-> _]]; [specialize (Hb _ _ Hor)|]; lia. }
  exists r. split; [done|]. split. { intros _. apply Hne. right. by rewrite Hb'. }
  intros j d Hrj. destruct (Hr j d Hrj) as (Hwhere & Hle & Hall). specialize (Hle _ _ Hb').
  split; [|split].
  - destruct Hwhere as [[Hj Hbj]|(o' & Hj & Hlo & Hd)].
    + rewrite Hb' in Hbj. injection Hbj as <- <-. destruct Hor as [[Hor _]|[-> ->]].
      * left. split; [by eapply Hb|done].
      * right. exists o. by rewrite Nat.sub_diag.
    + right. exists o'. split; [lia|]. split; [|done]. by replace (j - i)%nat with (S (j - S i)) by lia.
  - intros k e Hk. specialize (Hmin _ _ Hk). lia.
  - constructor; [|done]. fold d0. destruct Hor as [[_ Hor]|[_ ->]]; lia.
Qed.

(** The ring chosen does not contain the coin itself, even when the node sent
    it along: then it is the nearest, and taken out. *)
Lemma choose_mix_outputs_ok uu mix : small_index uu → Forall small_index mix → mix ≠ [] →
  ∃ ring, choose_mix_outputs sort_outputs uu mix = Ok ring ∧ NoDup (o_global_index <$> ring) ∧
    o_global_index uu ∉ o_global_index <$> ring ∧ (∀ o, o ∈ ring → o ∈ mix).
Proof using sort_perm sort_sorted.
  intros Hu Hm Hne. unfold choose_mix_outputs.
  destruct (unique_ok (sort_outputs mix) (sort_sorted mix)) as (Hs & Hun & Hin).
  { intros Hnil. apply Hne, Permutation_nil. by rewrite <- (sort_perm mix), Hnil. }
  set (l := unique _) in *.
  assert (∀ o, o ∈ l → o ∈ mix) as Hin' by (intros o Ho; rewrite <- (sort_perm mix); by apply Hin).
  destruct (nearest_ok (o_global_index uu) 0 l None Hu) as (r & -> & Hr & Hspec); [|done|].
  { rewrite Forall_forall in Hm |- *. intros o Ho. by apply Hm, Hin'. }
  destruct r as [[j d]|]; [|by destruct Hr; [left|]]. cbn [mbind result_bind mret result_ret].
  destruct (Hspec j d eq_refl) as ([[? ?]|(o & _ & Hj & Hd)] & _ & Hmin); [lia|]. rewrite Nat.sub_0_r in Hj.
  exists (delete j l). split; [done|].
  apply sorted_nodup in Hs. pose proof (delete_Permutation l j o Hj) as Hdel.
  pose proof Hs as Hs'. rewrite Hdel, fmap_cons in Hs'. apply NoDup_cons in Hs' as [Hoj Hnd].
  split; [done|]. split.
  - intros Hin2. assert (d = 0) as Hd0.
    { apply list_elem_of_fmap in Hin2 as (o' & Ho' & Hin2).
      rewrite Hdel in Hmin. apply Forall_cons in Hmin as [_ Hmin]. rewrite Forall_forall in Hmin.
      specialize (Hmin o' Hin2). cbn in Hmin. lia. }
    apply Hoj. by replace (o_global_index o) with (o_global_index uu) by lia.
  - intros o' Ho'. apply Hin'. rewrite Hdel. by constructor.
Qed.

Section mixed.
Context (currency : Currency) (wallet_view_secret_key : SecretKey) (wallet_records : gmap PublicKey WalletRecord).
Context (anonymity : Z).
Hypothesis anonymity_small : 0 ≤ anonymity < 2 ^ 32 - 1.

(** The coin is the wallet's: its address is one of the wallet's records, and
    keys and image are those the records derive. *)
Definition coin_ok (uu : Output) : Prop :=
  in_u 64 (o_amount uu) ∧ small_index uu ∧
  ∃ ack, sender_keys_of cn_fast_hash currency wallet_view_secret_key wallet_records uu = Ok ack ∧
    keys_ok ack ∧ ours ack uu.

(** What is known of the outputs the node sent: at least that they can be
    members of a ring. *)
Context (good : Amount → Output → Prop).
Hypothesis good_member : ∀ amount o, good amount o → member_ok amount o ∧ small_index o.

Definition sent_ok (ra : gmap Amount (list Output)) : Prop :=
  ∀ amount l, ra !! amount = Some l → Forall (good amount) l.

(** The input of a coin, hidden among outputs of the node. *)
Record hides (uu : Output) (d : InputDesc) : Prop := {
  hd_ready : ring_ready d;
  hd_spends : spends uu d;
  hd_ring : Forall (λ o, o = uu ∨ good (o_amount uu) o) (in_outputs d);
}.

Lemma add_mixed_input_ok ra b uu : coin_ok uu → sent_ok ra →
  let r := add_mixed_input cn_fast_hash sort_outputs currency wallet_view_secret_key wallet_records anonymity (ra, b) uu in
  if decide (Z.to_nat (anonymity + 1) ≤ length (default [] (ra !! o_amount uu)))%nat
  then ∃ ra' d, r = Ok (ra', with_input b d) ∧ hides uu d ∧ sent_ok ra'
  else r = Throw "Not enough anonymity for amount".
Proof using All.
  intros (Ha & Hu & ack & Hack & Hk & Hours) Hsent. cbn zeta. unfold add_mixed_input.
  rewrite u32_small by lia. set (n := Z.to_nat (anonymity + 1)).
  destruct (decide _) as [Hlen|Hlen]; [|by rewrite pop_outputs_short by lia].
  destruct (pop_outputs_ok n (default [] (ra !! o_amount uu)) []) as (popped & rest & -> & Hpop & Hpl); [lia|].
  cbn [mbind result_bind app].
  assert (Forall (good (o_amount uu)) (default [] (ra !! o_amount uu))) as Hall.
  { destruct (ra !! o_amount uu) as [l|] eqn:El; cbn; [by apply Hsent|constructor]. }
  rewrite <- Hpop in Hall. apply Forall_app in Hall as [Hrest Hall]. rewrite <- Permutation_rev in Hall.
  destruct (choose_mix_outputs_ok uu popped Hu) as (ring & -> & Hnd & Hni & Hin).
  { eapply Forall_impl; [exact Hall|]. intros o Ho. by apply (good_member (o_amount uu)). }
  { intros ->. cbn in Hpl. lia. }
  cbn [mbind result_bind]. rewrite Hack. cbn [mbind result_bind].
  assert (Forall (good (o_amount uu)) ring) as Hring.
  { rewrite Forall_forall in Hall |- *. intros o Ho. by apply Hall, Hin. }
  destruct (add_input_ok b ack uu ring) as (d & -> & Hd & Hsp & Hperm); [done..| | | | | |].
  { unfold small_index, in_u in *. lia. }
  { eapply Forall_impl; [exact Hring|]. intros o Ho. by apply good_member. } { done. } { done. }
  { enough (length ring ≤ length popped)%nat by lia.
    apply NoDup_fmap_1 in Hnd. by apply submseteq_length, NoDup_submseteq. }
  cbn [mbind result_bind mret result_ret]. eexists _, d. split; [reflexivity|]. split.
  - split; [done|done|]. rewrite Hperm. constructor; [by left|]. eapply Forall_impl; [exact Hring|]. by right.
  - intros amount l. destruct (decide (amount = o_amount uu)) as [->|Hne].
    + rewrite lookup_insert_eq. by intros [= <-].
    + rewrite lookup_insert_ne by done. apply Hsent.
Qed.

(** The loop either puts every coin into the builder or finds too few outputs. *)
Lemma add_mixed_inputs_loop us ra b : Forall coin_ok us → sent_ok ra → builder_ok b →
  let r := for_each (add_mixed_input cn_fast_hash sort_outputs currency wallet_view_secret_key wallet_records anonymity) us
      (ra, b) in
  r = Throw "Not enough anonymity for amount" ∨
  ∃ ra' b' ds, r = Ok (ra', b') ∧
    builder_ok b' ∧ m_input_descs b' = m_input_descs b ++ ds ∧ Forall2 hides us ds ∧
    m_output_descs b' = m_output_descs b ∧ m_extra b' = m_extra b ∧ m_transaction b' = m_transaction b.
Proof using All.
  cbn zeta. revert ra b. induction us as [|uu us IH]; intros ra b Hus Hra Hb; cbn [for_each].
  { right. exists ra, b, []. rewrite app_nil_r. split_and!; done || constructor. }
  apply Forall_cons in Hus as [Hu Hus]. pose proof (add_mixed_input_ok ra b uu Hu Hra) as Hadd. cbn zeta in Hadd.
  destruct (decide _) as [_|_]; [|rewrite Hadd; by left]. destruct Hadd as (ra1 & d & -> & Hd & Hra1).
  cbn [mbind result_bind].
  destruct (IH ra1 (with_input b d) Hus Hra1) as [->|(ra2 & b2 & ds & -> & Hb2 & Hi & Hds & Ho & He & Ht)];
    [by apply with_input_ok; [|apply hd_ready in Hd]|by left|right].
  exists ra2, b2, (d :: ds). split; [done|]. split; [done|]. split; [rewrite Hi; cbn; by rewrite <- app_assoc|].
  split; [by constructor|]. done.
Qed.

End mixed.
End sorting.
End laws.
End BuilderLaws.
