(* ===== verification/WalletSyncing.v ===== *)
(** * The wallet follows the chain (src/src/Core/WalletState.cpp; the transactions
    and blocks prepared by WalletPrepMulticore.cpp; the keys of Wallet.cpp)

    Over the database of Wallet.v the wallet keeps the transactions that wait for
    a block, the node's and those of its own payment queue.  Synchronization
    takes the blocks off that the node no longer has, and redoes the new ones:
    outputs are recognized with the view key, key images with the database.

    A [throw] inside the [try] blocks ends the program, which stays a [Throw]
    here.  The files that mirror the payment queue and the log are left out, and
    the threads that prepare blocks: [get_ready_work] waits until the block asked
    for is prepared, which is [prepare_block]. *)

From S2P Require Import Prelude Varint Containers Words Seria Text CryptoNote TransactionExtra Amounts Blocks Currency Db Store Headers Crypto WalletData Wallet Builder.
Import Containers Codec CryptoNote TransactionExtra Amounts Currency Db Headers Crypto WalletData Wallet Builder.

Local Open Scope Z_scope.

Module WalletSyncing.

(** ** Addresses as keys of maps *)

Global Instance AccountPublicAddress_countable : Countable AccountPublicAddress.
Proof.
  refine (inj_countable' (λ a, (view_public_key a, spend_public_key a))
    (λ p, {| spend_public_key := p.2; view_public_key := p.1 |}) _). by intros [].
Defined.

(** [operator<]: view keys first. *)
Global Instance address_order : KeyOrder AccountPublicAddress := λ a b,
  lex_ltb (view_public_key a) (view_public_key b) ||
  (bool_decide (view_public_key a = view_public_key b) && lex_ltb (spend_public_key a) (spend_public_key b)).

(** ** Wallet.cpp: the keys *)

Record Keys := {
  m_view_public_key : PublicKey;
  m_view_secret_key : SecretKey;
  first_record : WalletRecord;
  m_wallet_records : gmap PublicKey WalletRecord;
  m_oldest_timestamp : Timestamp;
  m_tx_derivation_seed : Hash;
}.

Definition is_view_only (k : Keys) : bool := bool_decide (record_spend_secret_key (first_record k) = null_hash).

Definition at_least (ts : Timestamp) (r : WalletRecord) : WalletRecord :=
  if creation_timestamp r <? ts
  then {| record_spend_public_key := record_spend_public_key r;
          record_spend_secret_key := record_spend_secret_key r; creation_timestamp := ts |}
  else r.

Definition on_first_output_found (k : Keys) (ts : Timestamp) : Keys :=
  if (ts =? 0) || (ts <=? m_oldest_timestamp k) then k
  else {| m_view_public_key := m_view_public_key k; m_view_secret_key := m_view_secret_key k;
          first_record := at_least ts (first_record k); m_wallet_records := at_least ts <$> m_wallet_records k;
          m_oldest_timestamp := ts; m_tx_derivation_seed := m_tx_derivation_seed k |}.

Definition spend_keys_for_address (k : Keys) (address : AccountPublicAddress) : option AccountKeys :=
  r ← m_wallet_records k !! spend_public_key address;
  if negb (bool_decide (m_view_public_key k = view_public_key address)) ||
     negb (bool_decide (record_spend_public_key r = spend_public_key address)) ||
     bool_decide (record_spend_secret_key r = null_hash) then None
  else Some {| Builder.address := address; spend_secret_key := record_spend_secret_key r;
               view_secret_key := m_view_secret_key k |}.

Definition get_only_record (k : Keys) (records : gmap PublicKey WalletRecord) (addr : AccountPublicAddress) :
    option (gmap PublicKey WalletRecord) :=
  r ← m_wallet_records k !! spend_public_key addr;
  if negb (bool_decide (record_spend_public_key r = spend_public_key addr)) ||
     negb (bool_decide (m_view_public_key k = view_public_key addr)) then None
  else Some (if bool_decide (is_Some (records !! spend_public_key addr)) then records
             else <[spend_public_key addr := r]> records).

(** ** The state *)

(** [WalletState::DeltaState]. *)
Record DeltaState := {
  m_unspents : gmap PublicKey (list Output);
  m_used_keyimages : gmap KeyImage Z;
  m_transactions : gmap Hash (TransactionPrefix * api_Transaction);
}.
Definition no_delta : DeltaState := {| m_unspents := ∅; m_used_keyimages := ∅; m_transactions := ∅ |}.

Record QueueEntry := {
  q_hash : Hash;
  q_binary_transaction : BinaryArray;
  q_fee_per_kb : Amount;
  q_remove_height : Height;
}.
Global Instance QueueEntry_eq_dec : EqDecision QueueEntry.
Proof. solve_decision. Defined.
Definition in_blockchain (e : QueueEntry) : bool := negb (q_remove_height e =? 0).

(** The database of [WalletStateBasic] with the keys of [m_wallet]. *)
Record Main (D : Type) := { basic : Wallet.WalletState D; m_wallet : Keys }.
Arguments basic {D} m : rename.
Arguments m_wallet {D} m : rename.

Record State (D : Type) := {
  main : Main D;
  m_tx_pool_version : Z;
  m_pq_version : Z;
  m_memory_state : DeltaState;
  m_pool_hashes : gset Hash;
  payment_queue : gmap Hash QueueEntry;
}.
Arguments main {D} s : rename.
Arguments m_tx_pool_version {D} s : rename.
Arguments m_pq_version {D} s : rename.
Arguments m_memory_state {D} s : rename.
Arguments m_pool_hashes {D} s : rename.
Arguments payment_queue {D} s : rename.

Section updates.
Context {D : Type} (s : State D).

Definition with_main (m : Main D) : State D :=
  {| main := m; m_tx_pool_version := m_tx_pool_version s; m_pq_version := m_pq_version s;
     m_memory_state := m_memory_state s; m_pool_hashes := m_pool_hashes s; payment_queue := payment_queue s |}.
Definition with_basic (w : Wallet.WalletState D) : State D :=
  with_main {| basic := w; m_wallet := m_wallet (main s) |}.
Definition with_versions (tx_pool pq : Z) : State D :=
  {| main := main s; m_tx_pool_version := tx_pool; m_pq_version := pq;
     m_memory_state := m_memory_state s; m_pool_hashes := m_pool_hashes s; payment_queue := payment_queue s |}.
Definition with_memory (m : DeltaState) : State D :=
  {| main := main s; m_tx_pool_version := m_tx_pool_version s; m_pq_version := m_pq_version s;
     m_memory_state := m; m_pool_hashes := m_pool_hashes s; payment_queue := payment_queue s |}.
Definition with_pool_hashes (h : gset Hash) : State D :=
  {| main := main s; m_tx_pool_version := m_tx_pool_version s; m_pq_version := m_pq_version s;
     m_memory_state := m_memory_state s; m_pool_hashes := h; payment_queue := payment_queue s |}.
Definition with_queue (q : gmap Hash QueueEntry) : State D :=
  {| main := main s; m_tx_pool_version := m_tx_pool_version s; m_pq_version := m_pq_version s;
     m_memory_state := m_memory_state s; m_pool_hashes := m_pool_hashes s; payment_queue := q |}.

End updates.

(** ** [IWalletState], and the pool as one *)

Class IWalletState (T : Type) := {
  add_incoming_output : T → Output → result (T * Amount);
  add_incoming_keyimage : T → Height → KeyImage → result (T * Amount);
  add_transaction : T → Height → Hash → TransactionPrefix → api_Transaction → result T;
}.

Module Delta.

Definition add_incoming_output (d : DeltaState) (output : Output) : DeltaState * Amount :=
  ({| m_unspents := <[o_public_key output := default [] (m_unspents d !! o_public_key output) ++ [output]]> (m_unspents d);
      m_used_keyimages := m_used_keyimages d; m_transactions := m_transactions d |}, o_amount output).

(** [m_used_keyimages[in.key_image] += 1] for every key input. *)
Definition use_keyimage (m : gmap KeyImage Z) (i : TransactionInput) : gmap KeyImage Z :=
  match i with
  | KeyInput _ _ ki => <[ki := default 0 (m !! ki) + 1]> m
  | CoinbaseInput _ => m
  end.

Definition add_transaction (d : DeltaState) (tid : Hash) (tx : TransactionPrefix) (ptx : api_Transaction) :
    result DeltaState :=
  check (bool_decide (m_transactions d !! tid = None)) "transaction already exists. Invariant dead";;
  Ok {| m_unspents := m_unspents d;
        m_used_keyimages := foldl use_keyimage (m_used_keyimages d) (inputs tx);
        m_transactions := <[tid := (tx, ptx)]> (m_transactions d) |}.

(** The first output with the amount is erased. *)
Fixpoint erase_amount (amount : Amount) (l : list Output) : list Output :=
  match l with
  | [] => []
  | o :: l => if o_amount o =? amount then l else o :: erase_amount amount l
  end.

Definition undo_output (m : gmap PublicKey (list Output)) (o : TransactionOutput) : gmap PublicKey (list Output) :=
  let '(KeyOutput key) := out_target o in
  match m !! key with
  | None => m
  | Some l =>
    match erase_amount (out_amount o) l with
    | [] => delete key m
    | l => <[key := l]> m
    end
  end.

Definition unuse_keyimage (m : gmap KeyImage Z) (i : TransactionInput) : result (gmap KeyImage Z) :=
  match i with
  | CoinbaseInput _ => Ok m
  | KeyInput _ _ ki =>
    n ← of_option (m !! ki) (Throw "invariant");
    check (0 <=? n - 1) "invariant";;
    Ok (if n - 1 =? 0 then delete ki m else <[ki := n - 1]> m)
  end.

Definition undo_transaction (d : DeltaState) (tid : Hash) : result DeltaState :=
  match m_transactions d !! tid with
  | None => Ok d
  | Some (tx, _) =>
    let unspents := foldl undo_output (m_unspents d) (outputs tx) in
    used ← for_each unuse_keyimage (inputs tx) (m_used_keyimages d);
    Ok {| m_unspents := unspents; m_used_keyimages := used; m_transactions := delete tid (m_transactions d) |}
  end.

End Delta.

Global Instance Delta_IWalletState : IWalletState DeltaState := {
  add_incoming_output d output := Ok (Delta.add_incoming_output d output);
  add_incoming_keyimage d _ _ := Ok (d, 0);
  add_transaction d _ tid tx ptx := Delta.add_transaction d tid tx ptx;
}.

Global Instance Main_IWalletState {D} `{Lmdb D} (currency : Currency) : IWalletState (Main D) := {
  add_incoming_output m output :=
    '(w, am) ← Wallet.add_incoming_output currency (basic m) output; Ok ({| basic := w; m_wallet := m_wallet m |}, am);
  add_incoming_keyimage m height ki :=
    '(w, am) ← Wallet.add_incoming_keyimage currency (basic m) height ki; Ok ({| basic := w; m_wallet := m_wallet m |}, am);
  add_transaction m height tid tx ptx :=
    '(w, first) ← Wallet.add_transaction (basic m) height tid tx ptx;
    Ok {| basic := w;
          m_wallet := match first with Some ts => on_first_output_found (m_wallet m) ts | None => m_wallet m end |};
}.

(** ** Prepared transactions and blocks (WalletPrepMulticore.cpp) *)

Record PreparedWalletTransaction := {
  pw_tx : TransactionPrefix;
  pw_derivation : KeyDerivation;
  pw_spend_keys : list PublicKey;
}.

Record PreparedWalletBlock := {
  pb_header : Blocks.BlockTemplate;
  pb_base_transaction : PreparedWalletTransaction;
  pb_base_transaction_hash : Hash;
  pb_transactions : list PreparedWalletTransaction;
}.

(** [GetRawBlock::Response]. *)
Record SyncBlock := {
  sb_header : api_BlockHeader;
  sb_raw_header : Blocks.BlockTemplate;
  sb_raw_transactions : list TransactionPrefix;
  sb_base_transaction_hash : Hash;
  sb_global_indices : list (list Z);
}.

(** What the program keeps outside: the history files, read only here. *)
Section wallet.
Context {D : Type} `{Lmdb D} `{Curve} (currency : Currency) (cn_fast_hash : list Z → Hash).
Context (load_history : Hash → list AccountPublicAddress).

Fixpoint underive_keys (derivation : KeyDerivation) (key_index : nat) (outs : list TransactionOutput) :
    result (list PublicKey) :=
  match outs with
  | [] => Ok []
  | o :: outs =>
    let '(KeyOutput key) := out_target o in
    spend_key ← underive_public_key cn_fast_hash derivation key_index key;
    rest ← underive_keys derivation (S key_index) outs;
    Ok (default null_hash spend_key :: rest)
  end.

Definition prepare_transaction (tx : TransactionPrefix) (view_secret_key : SecretKey) :
    result PreparedWalletTransaction :=
  derivation ← generate_key_derivation (get_transaction_public_key_from_extra (extra tx)) view_secret_key;
  match derivation with
  | None => Ok {| pw_tx := tx; pw_derivation := null_hash; pw_spend_keys := [] |}
  | Some derivation =>
    keys ← underive_keys derivation 0 (outputs tx);
    Ok {| pw_tx := tx; pw_derivation := derivation; pw_spend_keys := keys |}
  end.

Definition prepare_block (b : SyncBlock) (view_secret_key : SecretKey) : result PreparedWalletBlock :=
  base ← prepare_transaction (tx_prefix (Blocks.base_transaction (sb_raw_header b))) view_secret_key;
  txs ← for_each (λ l tx, p ← prepare_transaction tx view_secret_key; Ok (l ++ [p])) (sb_raw_transactions b) [];
  Ok {| pb_header := sb_raw_header b; pb_base_transaction := base;
        pb_base_transaction_hash := sb_base_transaction_hash b; pb_transactions := txs |}.

(** ** Which outputs and key images are the wallet's *)

(** What the loops of [parse_raw_transaction] have gathered. *)
Record Parsed := {
  p_fee : Z;
  p_output_amount : Amount;
  p_our : bool;
  p_tx_keys : option KeyPair;
  p_transfers_ours : gmap AccountPublicAddress Transfer;
  p_transfers_others : gmap AccountPublicAddress Transfer;
}.

(** [api::Transfer{}]. *)
Definition no_transfer : Transfer :=
  {| tr_address := []; tr_amount := 0; tr_ours := false; tr_locked := false; tr_outputs := [] |}.
Definition add_to_transfer (t : Transfer) (amount : Z) (out : Output) : Transfer :=
  {| tr_address := tr_address t; tr_amount := i64 (tr_amount t + amount); tr_ours := tr_ours t;
     tr_locked := tr_locked t; tr_outputs := tr_outputs t ++ [out] |}.

(** The transfer of an address in the map, which gets it with its address as a
    string when it is new. *)
Definition transfer_for (m : gmap AccountPublicAddress Transfer) (address : AccountPublicAddress) : result Transfer :=
  let t := default no_transfer (m !! address) in
  if bool_decide (tr_address t = []) then
    str ← account_address_as_string cn_fast_hash currency address;
    Ok {| tr_address := str; tr_amount := tr_amount t; tr_ours := tr_ours t; tr_locked := tr_locked t;
          tr_outputs := tr_outputs t |}
  else Ok t.

Definition output_found (tx : TransactionPrefix) (tx_public_key : PublicKey) (block_height : Height)
    (global_index out_index : Z) (o : TransactionOutput) (key : PublicKey) (key_image : KeyImage)
    (address : list Z) : Output :=
  {| o_amount := out_amount o; o_public_key := key; o_global_index := global_index;
     o_unlock_time := unlock_time tx; o_index_in_transaction := out_index; o_height := block_height;
     o_key_image := key_image; o_transaction_public_key := tx_public_key; o_address := address;
     o_dust := is_dust (out_amount o) |}.

Section parse.
Context (m : Main D) (pwtx : PreparedWalletTransaction) (tid : Hash) (global_indices : list Z) (block_height : Height).

Let tx := pw_tx pwtx.
Let tx_public_key := get_transaction_public_key_from_extra (extra tx).
Let k := m_wallet m.

(** The [if (spend_key != PublicKey{})] part: [None] when the output is not
    the wallet's. *)
Definition parse_our_output (out_index : nat) (o : TransactionOutput) (p : Parsed) : result (option Parsed) :=
  let '(KeyOutput key) := out_target o in
  spend_key ← of_option (pw_spend_keys pwtx !! out_index) (Throw "out_of_range");
  if bool_decide (spend_key = null_hash) then Ok None else
  match m_wallet_records k !! spend_key with
  | None => Ok None
  | Some sk =>
    eph ← Crypto.derive_public_key cn_fast_hash (pw_derivation pwtx) out_index spend_key;
    match eph with
    | None => Ok None
    | Some eph =>
      sec ← derive_secret_key cn_fast_hash (pw_derivation pwtx) out_index (record_spend_secret_key sk);
      let address := {| spend_public_key := spend_key; view_public_key := m_view_public_key k |} in
      gi ← of_option (global_indices !! out_index) (Throw "out_of_range");
      key_image ← (if bool_decide (record_spend_secret_key sk = null_hash) then Ok no_keyimage
                   else generate_key_image cn_fast_hash eph sec);
      transfer ← transfer_for (p_transfers_ours p) address;
      let out := output_found tx tx_public_key block_height gi (Z.of_nat out_index) o key key_image (tr_address transfer) in
      added ← try_add_incoming_output (basic m) out;
      let transfer := match added with Some delta => add_to_transfer transfer delta out | None => transfer end in
      Ok (Some {| p_fee := p_fee p; p_output_amount := p_output_amount p; p_our := true; p_tx_keys := p_tx_keys p;
                  p_transfers_ours := <[address := transfer]> (p_transfers_ours p);
                  p_transfers_others := p_transfers_others p |})
    end
  end.

(** An output the wallet sent, to an address in its history of the transaction. *)
Definition parse_history_output (out_index : nat) (o : TransactionOutput) (tx_keys : KeyPair)
    (others : gmap AccountPublicAddress Transfer) (addr : AccountPublicAddress) :
    result (gmap AccountPublicAddress Transfer) :=
  let '(KeyOutput key) := out_target o in
  guess_key ← Builder.derive_public_key cn_fast_hash addr (secret_key tx_keys) out_index;
  if bool_decide (default null_hash guess_key = key) then
    gi ← of_option (global_indices !! out_index) (Throw "out_of_range");
    transfer ← transfer_for others addr;
    let out := output_found tx tx_public_key block_height gi (Z.of_nat out_index) o key no_keyimage (tr_address transfer) in
    Ok (<[addr := add_to_transfer transfer (out_amount o) out]> others)
  else Ok others.

Definition parse_sent_output (history : list AccountPublicAddress) (out_index : nat) (o : TransactionOutput)
    (p : Parsed) : result Parsed :=
  if bool_decide (history = []) then Ok p else
  tx_keys ← (match p_tx_keys p with
             | Some keys => Ok keys
             | None => deterministic_keys_from_seed cn_fast_hash tx (m_tx_derivation_seed k)
             end);
  others ← for_each (parse_history_output out_index o tx_keys) history (p_transfers_others p);
  Ok {| p_fee := p_fee p; p_output_amount := p_output_amount p; p_our := p_our p;
        p_tx_keys := if bool_decide (secret_key tx_keys = null_hash) then None else Some tx_keys;
        p_transfers_ours := p_transfers_ours p; p_transfers_others := others |}.

Fixpoint parse_outputs (history : list AccountPublicAddress) (out_index : nat) (outs : list TransactionOutput)
    (p : Parsed) : result Parsed :=
  match outs with
  | [] => Ok p
  | o :: outs =>
    let p := {| p_fee := i64 (p_fee p - out_amount o); p_output_amount := u64 (p_output_amount p + out_amount o);
                p_our := p_our p; p_tx_keys := p_tx_keys p; p_transfers_ours := p_transfers_ours p;
                p_transfers_others := p_transfers_others p |} in
    ours ← parse_our_output out_index o p;
    p ← (match ours with Some p => Ok p | None => parse_sent_output history out_index o p end);
    parse_outputs history (S out_index) outs p
  end.

(** The transfers of one map, in its order, without those of amount zero. *)
Definition finish_transfers (ours locked : bool) (transfers : gmap AccountPublicAddress Transfer) : list Transfer :=
  omap (λ e, if tr_amount e.2 =? 0 then None
             else Some {| tr_address := tr_address e.2; tr_amount := tr_amount e.2; tr_ours := ours;
                          tr_locked := locked; tr_outputs := tr_outputs e.2 |}) (map_entries transfers).

(** The loop over the inputs: amount, fee, anonymity, whether one is the
    wallet's, the transfers by address, and [*unrecognized_inputs_amount]. *)
Record ParsedInputs := {
  pi_amount : Amount;
  pi_fee : Z;
  pi_anonymity : Z;
  pi_our : bool;
  pi_transfers : gmap (list Z) Transfer;
  pi_unrecognized : Amount;
}.

Definition parse_input (p : ParsedInputs) (i : TransactionInput) : result ParsedInputs :=
  match i with
  | CoinbaseInput _ => Ok p
  | KeyInput amount output_indexes key_image =>
    let input_amount := u64 (pi_amount p + amount) in
    let fee := i64 (pi_fee p + amount) in
    let anonymity := Z.min (pi_anonymity p) (u32 (Z.of_nat (length output_indexes) - 1)) in
    existing ← try_adding_incoming_keyimage currency (basic m) key_image;
    match existing with
    | Some existing =>
      let t := default no_transfer (pi_transfers p !! o_address existing) in
      let amount := tr_amount t - i64 (o_amount existing) in
      _ ← (if (- 2 ^ 63 <=? amount) && (amount <? 2 ^ 63) then Ok () else Undefined "signed overflow");
      Ok {| pi_amount := input_amount; pi_fee := fee; pi_anonymity := anonymity; pi_our := true;
            pi_transfers := <[o_address existing :=
              {| tr_address := tr_address t; tr_amount := amount; tr_ours := true; tr_locked := tr_locked t;
                 tr_outputs := tr_outputs t ++ [existing] |}]> (pi_transfers p);
            pi_unrecognized := pi_unrecognized p |}
    | None =>
      Ok {| pi_amount := input_amount; pi_fee := fee; pi_anonymity := anonymity; pi_our := pi_our p;
            pi_transfers := pi_transfers p; pi_unrecognized := u64 (pi_unrecognized p + amount) |}
    end
  end.

(** [ptx], [*input_transfers], [*unrecognized_inputs_amount] and what is
    returned; without a derivation or with the wrong number of indices they are
    as the callers initialized them. *)
Definition parse_raw_transaction : result (api_Transaction * list Transfer * Amount * bool) :=
  if negb (length global_indices =? length (outputs tx))%nat || bool_decide (pw_derivation pwtx = null_hash)
  then Ok (no_transaction, [], 0, false) else
  let history := load_history tid in
  p ← parse_outputs history 0 (outputs tx)
    {| p_fee := 0; p_output_amount := 0; p_our := false; p_tx_keys := None;
       p_transfers_ours := ∅; p_transfers_others := ∅ |};
  let locked := negb (unlock_time tx =? 0) in
  pi ← for_each parse_input (inputs tx)
    {| pi_amount := 0; pi_fee := p_fee p; pi_anonymity := UINT32_MAX; pi_our := p_our p; pi_transfers := ∅;
       pi_unrecognized := 0 |};
  let input_transfers := (λ e, {| tr_address := e.1; tr_amount := tr_amount e.2; tr_ours := tr_ours e.2;
                                  tr_locked := tr_locked e.2; tr_outputs := tr_outputs e.2 |}) <$>
                         map_entries (pi_transfers pi) in
  Ok ({| t_unlock_time := unlock_time tx;
         t_transfers := finish_transfers false locked (p_transfers_others p) ++
                        finish_transfers true locked (p_transfers_ours p);
         t_payment_id := default null_hash (get_payment_id_from_tx_extra (extra tx));
         t_anonymity := if pi_anonymity pi =? UINT32_MAX then 0 else pi_anonymity pi;
         t_hash := tid; t_fee := pi_fee pi; t_public_key := tx_public_key; t_extra := extra tx;
         t_coinbase := false; t_amount := Z.max (pi_amount pi) (p_output_amount p);
         t_block_height := block_height; t_block_hash := null_hash; t_timestamp := 0; t_binary_size := 0 |},
      input_transfers, pi_unrecognized pi, pi_our pi).

(** [redo_transaction]: the transaction is written to [delta_state], the wallet
    itself or the pool; [false] if it is none of the wallet's. *)
Definition add_transfer_outputs {T} {IT : IWalletState T} (acc : T * list Transfer) (tr : Transfer) : result (T * list Transfer) :=
  let '(delta, trs) := acc in
  if negb (tr_ours tr) then Ok (delta, trs ++ [tr]) else
  '(delta, outs) ← for_each (λ '(delta, outs) out,
      '(delta, adjusted_amount) ← add_incoming_output delta out;
      Ok (delta, outs ++ [with_amount out adjusted_amount])) (tr_outputs tr) (delta, []);
  Ok (delta, trs ++ [{| tr_address := tr_address tr; tr_amount := tr_amount tr; tr_ours := tr_ours tr;
                        tr_locked := tr_locked tr; tr_outputs := outs |}]).

Definition redo_transaction {T} {IT : IWalletState T} (delta_state : T) (is_base : bool) (bid : Hash)
    (tx_timestamp : Timestamp) : result (T * bool) :=
  '(ptx, input_transfers, _, ours) ← parse_raw_transaction;
  if negb (ours : bool) then Ok (delta_state, false) else
  '(delta_state, trs) ← for_each add_transfer_outputs (t_transfers ptx) (delta_state, []);
  delta_state ← for_each (λ delta tr,
      for_each (λ delta out, '(delta, _) ← add_incoming_keyimage delta block_height (o_key_image out); Ok delta)
        (tr_outputs tr) delta) input_transfers delta_state;
  let ptx := {| t_unlock_time := t_unlock_time ptx; t_transfers := trs ++ input_transfers;
                t_payment_id := t_payment_id ptx; t_anonymity := t_anonymity ptx; t_hash := t_hash ptx;
                t_fee := if is_base then 0 else t_fee ptx; t_public_key := t_public_key ptx;
                t_extra := t_extra ptx; t_coinbase := is_base; t_amount := t_amount ptx;
                t_block_height := t_block_height ptx; t_block_hash := bid; t_timestamp := tx_timestamp;
                t_binary_size := t_binary_size ptx |} in
  delta_state ← add_transaction delta_state block_height tid tx ptx;
  Ok (delta_state, true).

End parse.

(** ** The pool *)

Abbreviation S := (State D).
Definition tip_height (s : S) : Height := m_tip_height (basic (main s)).
Definition tip (s : S) : api_BlockHeader := m_tip (basic (main s)).
Definition chain_is_empty (s : S) : bool := empty_chain (basic (main s)).

(** The pool's part of the state alone changes. *)
Definition add_transaction_to_mempool (s : S) (tid : Hash) (tx : TransactionPrefix) : result S :=
  if bool_decide (is_Some (m_transactions (m_memory_state s) !! tid)) then Ok s else
  pwtx ← prepare_transaction tx (m_view_secret_key (m_wallet (main s)));
  '(memory, _) ← redo_transaction (main s) pwtx tid (replicate (length (outputs tx)) 0) (u32 (tip_height s + 1))
    (m_memory_state s) false null_hash (bh_timestamp (tip s));
  Ok (with_memory s memory).

Definition remove_transaction_from_mempool (s : S) (tid : Hash) : result S :=
  if bool_decide (tid ∈ m_pool_hashes s) then Ok s else
  match payment_queue s !! tid with
  | Some entry =>
    if negb (in_blockchain entry) then Ok s
    else memory ← Delta.undo_transaction (m_memory_state s) tid; Ok (with_memory s memory)
  | None => memory ← Delta.undo_transaction (m_memory_state s) tid; Ok (with_memory s memory)
  end.

Definition api_has_transaction (s : S) (tid : Hash) (check_pool : bool) : bool :=
  (check_pool && bool_decide (is_Some (m_transactions (m_memory_state s) !! tid))) ||
  has_transaction (basic (main s)) tid.

Definition api_get_transaction (s : S) (tid : Hash) (check_pool : bool) :
    result (option (TransactionPrefix * api_Transaction)) :=
  match (if check_pool then m_transactions (m_memory_state s) !! tid else None) with
  | Some found => Ok (Some found)
  | None => get_transaction (basic (main s)) tid
  end.

(** ** The payment queue *)

(** [payment_queue.insert]: nothing happens to an entry of the same hash. *)
Definition queue_insert (q : gmap Hash QueueEntry) (e : QueueEntry) : gmap Hash QueueEntry :=
  if bool_decide (is_Some (q !! q_hash e)) then q else <[q_hash e := e]> q.

Definition with_remove_height (e : QueueEntry) (h : Height) : QueueEntry :=
  {| q_hash := q_hash e; q_binary_transaction := q_binary_transaction e; q_fee_per_kb := q_fee_per_kb e;
     q_remove_height := h |}.

Definition removal_height (ptx : api_Transaction) : Height :=
  u32 (t_block_height ptx + expected_blocks_per_day currency).

(** The three steps of [add_to_payment_queue]: the transaction is parsed and
    known already or counted; it gets its entry; and if it is in no block it
    goes to the pool. *)
Definition open_entry (s : S) (binary_transaction : BinaryArray) : result (S * option (Hash * Transaction)) :=
  tx ← from_binary ser_Transaction binary_transaction;
  tid ← Blocks.get_transaction_hash cn_fast_hash tx;
  if bool_decide (is_Some (payment_queue s !! tid)) then Ok (s, None)
  else Ok (with_versions s (m_tx_pool_version s) (u32 (m_pq_version s + 1)), Some (tid, tx)).

Definition insert_entry (s : S) (binary_transaction : BinaryArray) (tid : Hash) (tx : Transaction) : result (S * bool) :=
  let size := Z.of_nat (length binary_transaction) in
  found ← api_get_transaction s tid false;
  _ ← (if size =? 0 then Undefined "division by zero" else Ok ());
  match found with
  | Some (_, ptx) =>
    Ok (with_queue s (queue_insert (payment_queue s)
      {| q_hash := tid; q_binary_transaction := binary_transaction; q_fee_per_kb := u64 (t_fee ptx) / size;
         q_remove_height := removal_height ptx |}), false)
  | None =>
    Ok (with_queue s (queue_insert (payment_queue s)
      {| q_hash := tid; q_binary_transaction := binary_transaction;
         q_fee_per_kb := get_tx_fee (tx_prefix tx) / size; q_remove_height := 0 |}), true)
  end.

(** [try], where a step is left by an exception the state stays as it was. *)
Definition attempt {A} (r : result A) (otherwise : A) : result A :=
  match r with Throw _ => Ok otherwise | r => r end.

Definition add_to_payment_queue_with (try_ : ∀ A, result A → A → result A) (s : S) (binary_transaction : BinaryArray) :
    result S :=
  '(s, opened) ← try_ _ (open_entry s binary_transaction) (s, None);
  match opened with
  | None => Ok s
  | Some (tid, tx) =>
    '(s, to_pool) ← try_ _ (insert_entry s binary_transaction tid tx) (s, false);
    if to_pool : bool then try_ _ (add_transaction_to_mempool s tid (tx_prefix tx)) s else Ok s
  end.

Definition add_to_payment_queue : S → BinaryArray → result S := add_to_payment_queue_with (λ A r _, r).

(** The next transaction to send, with its hash. *)
Definition get_next_from_sending_queue (s : S) (previous_hash : Hash) : option (Hash * BinaryArray) :=
  head (omap (λ e, if key_ltb previous_hash e.1 && negb (in_blockchain e.2)
                   then Some (e.1, q_binary_transaction e.2) else None) (map_entries (payment_queue s))).

Inductive send_error := INVALID_TRANSACTION_BINARY_FORMAT | WRONG_OUTPUT_REFERENCE | OUTPUT_ALREADY_SPENT.
Global Instance send_error_eq_dec : EqDecision send_error.
Proof. solve_decision. Defined.

Definition process_payment_queue_send_error (s : S) (hash : Hash) (code : send_error) (conflict_height : Height) :
    result S :=
  if bool_decide (code = OUTPUT_ALREADY_SPENT) || bool_decide (code = WRONG_OUTPUT_REFERENCE) then
    if u32 (conflict_height + expected_blocks_per_day currency) <? tip_height s then
      s ← remove_transaction_from_mempool (with_queue s (delete hash (payment_queue s))) hash;
      Ok (with_versions s (m_tx_pool_version s) (u32 (m_pq_version s + 1)))
    else Ok s
  else Ok s.

(** The two loops of [fix_payment_queue_after_undo_redo], over hashes that were
    gathered before. *)
Definition back_to_mempool (st : S * bool) (tid : Hash) : result (S * bool) :=
  let '(s, modified) := st in
  match payment_queue s !! tid with
  | None => Ok (s, modified)
  | Some entry =>
    let s := with_queue s (queue_insert (delete tid (payment_queue s)) (with_remove_height entry 0)) in
    tx ← from_binary ser_Transaction (q_binary_transaction entry);
    s ← add_transaction_to_mempool s tid (tx_prefix tx);
    Ok (s, true)
  end.

Definition into_blockchain (st : S * bool) (tid : Hash) : result (S * bool) :=
  let '(s, modified) := st in
  match payment_queue s !! tid with
  | None => Ok (s, modified)
  | Some entry =>
    found ← api_get_transaction s tid false;
    match found with
    | None => Ok (s, modified)
    | Some (_, ptx) =>
      let s := with_queue s (queue_insert (delete tid (payment_queue s)) (with_remove_height entry (removal_height ptx))) in
      s ← remove_transaction_from_mempool s tid;
      Ok (s, true)
    end
  end.

Definition fix_payment_queue_after_undo_redo (s : S) : result S :=
  let entries := map_entries (payment_queue s) in
  let removed_from_bc := filter (λ e, in_blockchain e.2 = true ∧ api_has_transaction s e.1 false = false) entries in
  let added_to_bc := filter (λ e, in_blockchain e.2 = false ∧ api_has_transaction s e.1 false = true) entries in
  st ← for_each back_to_mempool removed_from_bc.*1 (s, false);
  '(s, modified) ← for_each into_blockchain added_to_bc.*1 st;
  let kept := filter (λ e, q_remove_height e.2 = 0 ∨ tip_height s < q_remove_height e.2) (payment_queue s) in
  let modified := modified || negb (bool_decide (kept = payment_queue s)) in
  let s := with_queue s kept in
  Ok (if modified then with_versions s (m_tx_pool_version s) (u32 (m_pq_version s + 1)) else s).

(** ** Synchronization *)

(** [pop_chain(); m_tx_pool_version = 1;] *)
Definition pop_one (s : S) : result S :=
  w ← Wallet.pop_chain (basic (main s)); Ok (with_versions (with_basic s w) 1 (m_pq_version s)).

Fixpoint pop_while (cond : S → bool) (fuel : nat) (s : S) : result S :=
  if cond s && negb (chain_is_empty s) then
    match fuel with
    | O => Undefined "fuel"
    | Datatypes.S fuel => s ← pop_one s; pop_while cond fuel s
    end
  else Ok s.

(** No chain is longer than its blocks. *)
Definition chain_fuel (s : S) : nat :=
  Z.to_nat (u32 (m_tip_height (basic (main s)) + 1 - m_tail_height (basic (main s)))).

(** The second loop, down to the last common block; [false] where the function
    returns it. *)
Fixpoint pop_to_common (blocks : list SyncBlock) (start_height : Height) (fuel : nat) (s : S) : result (S * bool) :=
  if (start_height <=? tip_height s) && negb (chain_is_empty s) then
    other ← of_option (blocks !! Z.to_nat (u32 (tip_height s - start_height))) (Undefined "blocks[]");
    if bool_decide (bh_hash (tip s) = bh_hash (sb_header other)) then Ok (s, true)
    else if tip_height s =? 0 then Ok (s, false)
    else
      match fuel with
      | O => Undefined "fuel"
      | Datatypes.S fuel => s ← pop_one s; pop_to_common blocks start_height fuel s
      end
  else Ok (s, true).

(** [redo_block]: [false] where the block is left out. *)
Definition redo_block_transaction (header : api_BlockHeader) (pb : PreparedWalletBlock) (global_indices : list (list Z))
    (st : S * nat) (pwtx : PreparedWalletTransaction) : result (S * nat) :=
  let '(s, tx_index) := st in
  tid ← of_option (Blocks.transaction_hashes (pb_header pb) !! tx_index) (Throw "out_of_range");
  s ← (if bool_decide (tid ∈ m_pool_hashes s)
       then remove_transaction_from_mempool (with_pool_hashes s (m_pool_hashes s ∖ {[tid]})) tid
       else Ok s);
  memory ← Delta.undo_transaction (m_memory_state s) tid;
  let s := with_memory s memory in
  gi ← of_option (global_indices !! Datatypes.S tx_index) (Throw "out_of_range");
  '(m, _) ← redo_transaction (main s) pwtx tid gi (u32 (tip_height s + 1)) (IT := Main_IWalletState currency)
    (main s) false (bh_hash header) (Blocks.timestamp (Blocks.header (pb_header pb)));
  Ok (with_main s m, Datatypes.S tx_index).

Definition redo_block (s : S) (header : api_BlockHeader) (pb : PreparedWalletBlock) (global_indices : list (list Z))
    (height : Height) : result (S * bool) :=
  check (height =? u32 (tip_height s + 1)) "Redo of incorrect block height";;
  if negb (length global_indices =? length (pb_transactions pb) + 1)%nat then Ok (s, false) else
  base_gi ← of_option (head global_indices) (Undefined "global_indices[0]");
  '(m, _) ← redo_transaction (main s) (pb_base_transaction pb) (pb_base_transaction_hash pb) base_gi
    (u32 (tip_height s + 1)) (IT := Main_IWalletState currency) (main s) true (bh_hash header)
    (Blocks.timestamp (Blocks.header (pb_header pb)));
  '(s, _) ← for_each (redo_block_transaction header pb global_indices) (pb_transactions pb) (with_main s m, 0%nat);
  w ← Wallet.unlock currency (basic (main s)) height (bh_timestamp_median header);
  Ok (with_basic s w, true).

(** One round of the loop over the new blocks; [false] where the function
    returns it. *)
Definition sync_block (s : S) (b : SyncBlock) : result (S * bool) :=
  let header := sb_header b in
  if negb (chain_is_empty s) && negb (bool_decide (bh_previous_block_hash header = bh_hash (tip s))) then Ok (s, false) else
  s ← (if m_oldest_timestamp (m_wallet (main s)) <=?
          u32 (bh_timestamp header + get_block_future_time_limit currency (u32 (tip_height s + 1)))
       then
         pb ← prepare_block b (m_view_secret_key (m_wallet (main s)));
         '(s, _) ← redo_block s header pb (sb_global_indices b) (u32 (tip_height s + 1)); Ok s
       else Ok s);
  w ← Wallet.push_chain (basic (main s)) header;
  Ok (with_versions (with_basic s w) 1 1, true).

Fixpoint sync_blocks (blocks : list SyncBlock) (start_height : Height) (fuel : nat) (s : S) : result (S * bool) :=
  if u32 (tip_height s + 1) <? start_height + Z.of_nat (length blocks) then
    match fuel with
    | O => Undefined "fuel"
    | Datatypes.S fuel =>
      b ← of_option (blocks !! Z.to_nat (u32 (tip_height s + 1 - start_height))) (Throw "out_of_range");
      '(s, go_on) ← sync_block s b;
      if go_on : bool then sync_blocks blocks start_height fuel s else Ok (s, false)
    end
  else Ok (s, true).

(** [sync_with_blockchain(SyncBlocks::Response &)]. *)
Definition sync_with_blockchain (s : S) (blocks : list SyncBlock) (start_height : Height) : result (S * bool) :=
  if bool_decide (blocks = []) then Ok (s, true) else
  s ← pop_while (λ s, start_height + Z.of_nat (length blocks) - 1 <? tip_height s) (chain_fuel s) s;
  '(s, go_on) ← pop_to_common blocks start_height (chain_fuel s) s;
  if negb (go_on : bool) then Ok (s, false) else
  s ← (if tip_height s <? start_height then pop_while (λ _, true) (chain_fuel s) s else Ok s);
  s ← (if chain_is_empty s then w ← reset_chain (basic (main s)) start_height; Ok (with_basic s w) else Ok s);
  '(s, go_on) ← sync_blocks blocks start_height (length blocks) s;
  if negb (go_on : bool) then Ok (s, false) else
  w ← fix_empty_chain currency (basic (main s));
  s ← fix_payment_queue_after_undo_redo (with_basic s w);
  Ok (s, true).

(** [sync_with_blockchain(SyncMemPool::Response &)]; the hashes of
    [added_transactions] beside the transactions. *)
Definition sync_with_mempool (s : S) (removed_hashes : list Hash) (added : list TransactionPrefix)
    (added_hashes : list Hash) (transaction_pool_version : Z) : result S :=
  s ← for_each (λ s tid,
      if bool_decide (tid ∈ m_pool_hashes s)
      then remove_transaction_from_mempool (with_pool_hashes s (m_pool_hashes s ∖ {[tid]})) tid
      else Ok s) removed_hashes s;
  '(s, _) ← for_each (λ '(s, i) tx,
      tid ← of_option (added_hashes !! i) (Throw "out_of_range");
      s ← add_transaction_to_mempool (with_pool_hashes s (m_pool_hashes s ∪ {[tid]})) tid tx;
      Ok (s, Datatypes.S i)) added (s, 0%nat);
  Ok (with_versions s transaction_pool_version (m_pq_version s)).

(** ** The addresses of the wallet *)

Definition ADDRESS_key (spend_public_key : PublicKey) : Key := chars "a" ++ spend_public_key.

(** [boost::lexical_cast<Timestamp>] of a string. *)
Definition lexical_cast_text (st : list Z) : result Z :=
  let digits := match st with c :: l => if (c =? 43) || (c =? 45) then l else st | [] => st end in
  let v := decimal_value digits in
  if negb (bool_decide (digits = [])) && forallb is_digit digits && (v <? 2 ^ 32)
  then Ok (if bool_decide (head st = Some 45) then u32 (- v) else v)
  else Throw "bad lexical cast".

(** The loop over the records: the database and [undo_timestamp]. *)
Definition note_address (st : D * Timestamp) (rec : PublicKey * WalletRecord) : result (D * Timestamp) :=
  let '(d, undo_timestamp) := st in
  let key := ADDRESS_key (record_spend_public_key rec.2) in
  earlier ← (match get d key with
             | None => Ok true
             | Some v => v ← lexical_cast_text v; Ok (creation_timestamp rec.2 <? v)
             end);
  if earlier : bool then
    d ← put d key (to_string (creation_timestamp rec.2)) false;
    Ok (d, Z.min undo_timestamp (creation_timestamp rec.2))
  else Ok (d, undo_timestamp).

Definition wallet_addresses_updated (s : S) : result S :=
  '(d, undo_timestamp) ← for_each note_address (map_entries (m_wallet_records (m_wallet (main s))))
    (m_db (basic (main s)), UINT32_MAX);
  let s := with_basic s (Wallet.with_db (basic (main s)) d) in
  if undo_timestamp =? UINT32_MAX then Ok s else
  s ← pop_while (λ s, undo_timestamp <=?
        u32 (bh_timestamp (tip s) + get_block_future_time_limit currency (u32 (tip_height s + 1)))) (chain_fuel s) s;
  w ← fix_empty_chain currency (basic (main s));
  fix_payment_queue_after_undo_redo (with_basic s w).

(** The constructor, over the files of the payment queue; one that cannot be
    added is logged. *)
Definition load_queue (files : list BinaryArray) (s : S) : result S :=
  for_each (add_to_payment_queue_with (@attempt)) files s.

Definition make_State (w : Wallet.WalletState D) (k : Keys) (files : list BinaryArray) : result S :=
  s ← wallet_addresses_updated
    {| main := {| basic := w; m_wallet := k |}; m_tx_pool_version := 1; m_pq_version := 1;
       m_memory_state := no_delta; m_pool_hashes := ∅; payment_queue := ∅ |};
  load_queue files s.

(** ** Reports *)

Definition get_used_key_images (s : S) : gmap KeyImage Z := m_used_keyimages (m_memory_state s).

(** The unspent outputs of the pool that belong to the address, or all. *)
Definition memory_outputs (s : S) (address : list Z) : list Output :=
  filter (λ out, address = [] ∨ address = o_address out)
    (concat (map_entries (m_unspents (m_memory_state s))).*2).

Definition api_get_locked_or_unconfirmed_unspent (s : S) (address : list Z) (confirmed_height : Height) :
    result (list Output) :=
  outs ← Wallet.api_get_locked_or_unconfirmed_unspent (get_used_key_images s) (basic (main s)) address confirmed_height;
  Ok (outs ++ memory_outputs s address).

Definition get_balance (s : S) (address : list Z) (confirmed_height : Height) : result Balance :=
  balance ← Wallet.get_balance (get_used_key_images s) (basic (main s)) address confirmed_height;
  Ok (foldl (λ b out, combine_balance b out 1 0) balance (memory_outputs s address)).

Definition get_tx_pool_hashes (s : S) : list Hash := set_items (m_pool_hashes s).

Definition api_get_pool_as_history (s : S) (address : list Z) : Height * list api_Transaction :=
  let height := u32 (tip_height s + 1) in
  (height, (λ e, let ptx := e.2.2 in
     {| t_unlock_time := t_unlock_time ptx;
        t_transfers := if bool_decide (address = []) then t_transfers ptx
                       else filter (λ t, tr_address t = address) (t_transfers ptx);
        t_payment_id := t_payment_id ptx; t_anonymity := t_anonymity ptx; t_hash := t_hash ptx;
        t_fee := t_fee ptx; t_public_key := t_public_key ptx; t_extra := t_extra ptx;
        t_coinbase := t_coinbase ptx; t_amount := t_amount ptx; t_block_height := height;
        t_block_hash := t_block_hash ptx; t_timestamp := t_timestamp ptx; t_binary_size := t_binary_size ptx |})
   <$> map_entries (m_transactions (m_memory_state s))).

(** [parse_raw_transaction] of a transaction that is about to be sent. *)
Definition parse_sent_transaction (s : S) (tx : TransactionPrefix) (tid : Hash) : result api_Transaction :=
  pwtx ← prepare_transaction tx (m_view_secret_key (m_wallet (main s)));
  '(ptx, input_transfers, unrecognized, _) ← parse_raw_transaction (main s) pwtx tid
    (replicate (length (outputs tx)) 0) (tip_height s);
  let others := if unrecognized =? 0 then []
                else [{| tr_address := []; tr_amount := - i64 unrecognized; tr_ours := true; tr_locked := false;
                         tr_outputs := [] |}] in
  Ok (with_transfers ptx (t_transfers ptx ++ input_transfers ++ others)).

Record SendProof := {
  sp_transaction_hash : Hash;
  sp_address : AccountPublicAddress;
  sp_amount : Amount;
  sp_message : list Z;
  sp_derivation : KeyDerivation;
  sp_signature : Signature;
}.

(** The amount a proof is for: the outputs that go to its address. *)
Fixpoint proved_amount (derivation : KeyDerivation) (spend_public_key : PublicKey) (key_index : nat)
    (outs : list TransactionOutput) (total_amount : Amount) : result Amount :=
  match outs with
  | [] => Ok total_amount
  | o :: outs =>
    let '(KeyOutput key) := out_target o in
    spend_key ← underive_public_key cn_fast_hash derivation key_index key;
    proved_amount derivation spend_public_key (Datatypes.S key_index) outs
      (if bool_decide (spend_key = Some spend_public_key) then u64 (total_amount + out_amount o) else total_amount)
  end.

(** [api_create_proof]: the proof, [None] for [false]; [tmp] are the random
    bytes. *)
Definition api_create_proof (s : S) (sp : SendProof) (tmp : list Z) : result (option SendProof) :=
  found ← api_get_transaction s (sp_transaction_hash sp) true;
  match found with
  | None => Ok None
  | Some (tx, _) =>
    tx_keys ← deterministic_keys_from_seed cn_fast_hash tx (m_tx_derivation_seed (m_wallet (main s)));
    derivation ← generate_key_derivation (view_public_key (sp_address sp)) (secret_key tx_keys);
    match derivation with
    | None => Ok None
    | Some derivation =>
      proof ← generate_sendproof cn_fast_hash (public_key tx_keys) (secret_key tx_keys)
        (view_public_key (sp_address sp)) derivation (cn_fast_hash (sp_message sp)) tmp;
      match proof with
      | None => Ok None
      | Some proof =>
        total_amount ← proved_amount derivation (spend_public_key (sp_address sp)) 0 (outputs tx) 0;
        Ok (if total_amount =? 0 then None
            else Some {| sp_transaction_hash := sp_transaction_hash sp; sp_address := sp_address sp;
                         sp_amount := total_amount; sp_message := sp_message sp; sp_derivation := derivation;
                         sp_signature := proof |})
      end
    end
  end.

End wallet.
End WalletSyncing.
