(* ===== verification/WalletSyncingLaws.v ===== *)
(** * The wallet follows the chain: theorems

    What the wallet keeps of the transactions that wait for a block, whatever
    blocks, transactions and errors come in. *)

From S2P Require Import Prelude Varint Containers Words Seria Text CryptoNote TransactionExtra Amounts Blocks Currency Db Store Headers Crypto WalletData Wallet Builder WalletSyncing.
Import Containers Codec CryptoNote Amounts Currency Db Headers Crypto WalletData Wallet WalletSyncing.

Local Open Scope Z_scope.

Module WalletSyncingLaws.

(** ** Counting over the transactions of the pool *)

Definition image_uses (ki : KeyImage) (i : TransactionInput) : nat :=
  match i with
  | KeyInput _ _ ki' => if decide (ki' = ki) then 1 else 0
  | CoinbaseInput _ => 0
  end.
Definition uses (ki : KeyImage) (tx : TransactionPrefix) : nat := sum_list (image_uses ki <$> inputs tx).

(** The outputs with a key and an amount. *)
Definition output_is (key : PublicKey) (amount : Amount) (o : TransactionOutput) : nat :=
  if decide (out_target o = KeyOutput key ∧ out_amount o = amount) then 1 else 0.
Definition makes (key : PublicKey) (amount : Amount) (tx : TransactionPrefix) : nat :=
  sum_list (output_is key amount <$> outputs tx).

Definition total (f : TransactionPrefix → nat) (m : gmap Hash (TransactionPrefix * api_Transaction)) : nat :=
  map_fold (λ _ p n, (f p.1 + n)%nat) 0%nat m.

Lemma total_empty f : total f ∅ = 0%nat.
Proof. apply map_fold_empty. Qed.
Lemma total_with f m tid p : m !! tid = None → total f (<[tid := p]> m) = (f p.1 + total f m)%nat.
Proof. intros Hm. unfold total. rewrite map_fold_insert_L; [done| |done]. intros. lia. Qed.
Lemma total_without f m tid p : m !! tid = Some p → total f m = (f p.1 + total f (delete tid m))%nat.
Proof.
  intros Hm. rewrite <- (insert_delete_id m tid p Hm) at 1. apply total_with, lookup_delete_eq.
Qed.

(** The unspent outputs of the pool with a key and an amount. *)
Definition amount_is (amount : Amount) (o : Output) : nat := if decide (o_amount o = amount) then 1 else 0.
Definition unspent_count (key : PublicKey) (amount : Amount) (m : gmap PublicKey (list Output)) : nat :=
  sum_list (amount_is amount <$> default [] (m !! key)).

Record pool_ok (d : DeltaState) : Prop := {
  po_images ki : m_used_keyimages d !! ki =
    let n := total (uses ki) (m_transactions d) in if decide (n = 0%nat) then None else Some (Z.of_nat n);
  po_outputs key amount : (unspent_count key amount (m_unspents d) ≤ total (makes key amount) (m_transactions d))%nat;
  po_nonempty key : m_unspents d !! key ≠ Some [];
}.

Lemma no_delta_ok : pool_ok no_delta.
Proof.
  split; cbn.
  - intros ki. by rewrite total_empty.
  - intros key amount. unfold unspent_count. rewrite lookup_empty. cbn. lia.
  - intros key. by rewrite lookup_empty.
Qed.

(** With no transaction waiting, nothing is left of any. *)
Lemma pool_empty d : pool_ok d → m_transactions d = ∅ → d = no_delta.
Proof.
  intros [Hi Ho Hn] Ht. destruct d as [u k t]. cbn in *. subst t.
  assert (k = ∅) as ->. { apply map_eq. intros ki. by rewrite Hi, total_empty, lookup_empty. }
  assert (u = ∅) as ->; [|done]. apply map_eq. intros key. rewrite lookup_empty.
  destruct (u !! key) as [[|o l]|] eqn:E; [by destruct (Hn key)| |done].
  specialize (Ho key (o_amount o)). rewrite total_empty in Ho. unfold unspent_count in Ho. rewrite E in Ho.
  cbn in Ho. unfold amount_is in Ho. rewrite decide_True in Ho by done. lia.
Qed.

(** ** Counters of key images *)

Definition counted (m : gmap KeyImage Z) (f : KeyImage → nat) : Prop :=
  ∀ ki, m !! ki = if decide (f ki = 0%nat) then None else Some (Z.of_nat (f ki)).

Lemma counted_ext m f g : (∀ ki, f ki = g ki) → counted m f → counted m g.
Proof. intros Hfg Hm ki. by rewrite Hm, Hfg. Qed.

Lemma counted_use m f i : counted m f → counted (Delta.use_keyimage m i) (λ ki, (image_uses ki i + f ki)%nat).
Proof.
  intros Hm. destruct i as [h|a idx k]; [done|]. intros ki. cbn.
  destruct (decide (k = ki)) as [->|Hne].
  - rewrite lookup_insert_eq, Hm. cbn. destruct (decide (f ki = 0%nat)) as [E|E]; cbn; f_equal; lia.
  - by rewrite lookup_insert_ne, Hm.
Qed.

Lemma counted_uses m f ins : counted m f →
  counted (foldl Delta.use_keyimage m ins) (λ ki, (sum_list (image_uses ki <$> ins) + f ki)%nat).
Proof.
  revert m f. induction ins as [|i ins IH]; intros m f Hm; [done|].
  cbn [foldl]. eapply counted_ext; [|apply IH, counted_use, Hm]. intros ki. cbn. lia.
Qed.

Lemma counted_unuse m f i : counted m (λ ki, (image_uses ki i + f ki)%nat) →
  ∃ m', Delta.unuse_keyimage m i = Ok m' ∧ counted m' f.
Proof.
  intros Hm. destruct i as [h|a idx k]; [by exists m|]. cbn [Delta.unuse_keyimage].
  pose proof (Hm k) as Hk. cbn in Hk. rewrite (decide_True (P := k = k)) in Hk by done. rewrite decide_False in Hk by done. rewrite Hk.
  cbn [of_option mbind result_bind]. replace (Z.of_nat (1 + f k) - 1) with (Z.of_nat (f k)) by lia.
  unfold check. replace (0 <=? Z.of_nat (f k)) with true by lia. cbn [mbind result_bind].
  eexists. split; [reflexivity|]. intros ki. specialize (Hm ki). cbn in Hm.
  destruct (decide (k = ki)) as [->|Hne]; cbn in Hm.
  - destruct (Z.eqb_spec (Z.of_nat (f ki)) 0) as [E|E].
    + rewrite lookup_delete_eq. by rewrite decide_True by lia.
    + rewrite lookup_insert_eq. by rewrite decide_False by lia.
  - destruct (_ =? 0); by rewrite ?lookup_delete_ne, ?lookup_insert_ne.
Qed.

Lemma counted_unuses m f ins : counted m (λ ki, (sum_list (image_uses ki <$> ins) + f ki)%nat) →
  ∃ m', for_each Delta.unuse_keyimage ins m = Ok m' ∧ counted m' f.
Proof.
  revert m. induction ins as [|i ins IH]; intros m Hm; cbn [for_each]; [by exists m|].
  destruct (counted_unuse m (λ ki, (sum_list (image_uses ki <$> ins) + f ki)%nat) i) as (m1 & -> & H1).
  { eapply counted_ext; [|exact Hm]. intros ki. cbn. lia. }
  cbn [mbind result_bind]. by apply IH.
Qed.

(** ** Counters of outputs *)

Lemma sum_list_cons n l : sum_list (n :: l) = (n + sum_list l)%nat.
Proof. done. Qed.

Lemma erase_amount_count a amount l :
  sum_list (amount_is amount <$> Delta.erase_amount a l) =
  (sum_list (amount_is amount <$> l) - if decide (a = amount) then 1 else 0)%nat.
Proof.
  induction l as [|o l IH]; cbn [Delta.erase_amount]; [destruct (decide _); done|].
  rewrite fmap_cons, sum_list_cons.
  destruct (Z.eqb_spec (o_amount o) a) as [E|E]; [|rewrite fmap_cons, sum_list_cons, IH]; unfold amount_is.
  - destruct (decide (a = amount)), (decide (o_amount o = amount)); try congruence; lia.
  - destruct (decide (a = amount)), (decide (o_amount o = amount)); try congruence; lia.
Qed.

Definition no_empty (m : gmap PublicKey (list Output)) : Prop := ∀ key, m !! key ≠ Some [].

Lemma undo_output_count m o key amount :
  unspent_count key amount (Delta.undo_output m o) = (unspent_count key amount m - output_is key amount o)%nat.
Proof.
  unfold Delta.undo_output, output_is. destruct (out_target o) as [k]. unfold unspent_count.
  destruct (decide (k = key)) as [->|Hne].
  - destruct (m !! key) as [l|] eqn:E; cbn [default from_option].
    + pose proof (erase_amount_count (out_amount o) amount l) as Hc.
      assert ((if decide (out_amount o = amount) then 1 else 0)%nat =
              if decide (KeyOutput key = KeyOutput key ∧ out_amount o = amount) then 1%nat else 0%nat) as <-
        by (destruct (decide (out_amount o = amount)), (decide (_ ∧ _)); naive_solver).
      destruct (Delta.erase_amount (out_amount o) l) as [|x l'].
      * rewrite lookup_delete_eq. cbn in *. lia.
      * rewrite lookup_insert_eq. cbn [default from_option id] in *. lia.
    + rewrite E. done.
  - rewrite (decide_False (P := _ ∧ _)) by naive_solver. rewrite Nat.sub_0_r.
    destruct (m !! k) as [l|]; [|done].
    destruct (Delta.erase_amount (out_amount o) l); by rewrite ?lookup_delete_ne, ?lookup_insert_ne.
Qed.

Lemma undo_output_nonempty m o : no_empty m → no_empty (Delta.undo_output m o).
Proof.
  intros Hm key. unfold Delta.undo_output. destruct (out_target o) as [k].
  destruct (m !! k) as [l|]; [|apply Hm].
  destruct (Delta.erase_amount (out_amount o) l); destruct (decide (k = key)) as [->|];
    rewrite ?lookup_delete_eq, ?lookup_delete_ne, ?lookup_insert_eq, ?lookup_insert_ne by done; [done|apply Hm|done|apply Hm].
Qed.

Lemma undo_outputs_count m outs key amount :
  unspent_count key amount (foldl Delta.undo_output m outs) =
  (unspent_count key amount m - sum_list (output_is key amount <$> outs))%nat.
Proof.
  revert m. induction outs as [|o outs IH]; intros m; cbn; [lia|]. rewrite IH, undo_output_count. lia.
Qed.

Lemma undo_outputs_nonempty m outs : no_empty m → no_empty (foldl Delta.undo_output m outs).
Proof. revert m. induction outs as [|o outs IH]; intros m Hm; [done|]. by apply IH, undo_output_nonempty. Qed.

(** Taking a transaction out of the pool never fails, and leaves a consistent
    pool without it. *)
Lemma undo_transaction_ok d tid : pool_ok d →
  ∃ d', Delta.undo_transaction d tid = Ok d' ∧ pool_ok d' ∧ m_transactions d' = delete tid (m_transactions d).
Proof.
  intros Hd. unfold Delta.undo_transaction. destruct (m_transactions d !! tid) as [[tx ptx]|] eqn:E; cycle 1.
  { exists d. by rewrite delete_id. }
  destruct Hd as [Hi Ho Hn].
  destruct (counted_unuses (m_used_keyimages d) (λ ki, total (uses ki) (delete tid (m_transactions d))) (inputs tx))
    as (used & -> & Hused).
  { intros ki. rewrite Hi. by rewrite (total_without (uses ki) _ _ _ E). }
  cbn [mbind result_bind]. eexists. split; [reflexivity|]. split; [|done]. split; cbn.
  - exact Hused.
  - intros key amount. rewrite undo_outputs_count. specialize (Ho key amount).
    rewrite (total_without (makes key amount) _ _ _ E) in Ho. cbn in Ho. unfold makes at 1 in Ho. lia.
  - by apply undo_outputs_nonempty.
Qed.

(** ** What is found in a transaction *)

Definition found_is (key : PublicKey) (amount : Amount) (o : Output) : nat :=
  if decide (o_public_key o = key ∧ o_amount o = amount) then 1 else 0.
Definition found (key : PublicKey) (amount : Amount) (outs : list Output) : nat :=
  sum_list (found_is key amount <$> outs).

Lemma found_app key amount l k : found key amount (l ++ k) = (found key amount l + found key amount k)%nat.
Proof.
  unfold found. rewrite fmap_app. induction (found_is key amount <$> l) as [|n l' IH]; [done|].
  cbn [app]. rewrite !sum_list_cons, IH. lia.
Qed.

Definition transfers_found (key : PublicKey) (amount : Amount) (ts : list Transfer) : nat :=
  sum_list ((λ t, found key amount (tr_outputs t)) <$> ts).

Lemma transfers_found_app key amount l k :
  transfers_found key amount (l ++ k) = (transfers_found key amount l + transfers_found key amount k)%nat.
Proof.
  unfold transfers_found. rewrite fmap_app. induction (_ <$> l) as [|n l' IH]; [done|].
  cbn [app]. rewrite !sum_list_cons, IH. lia.
Qed.

Lemma transfers_found_perm key amount l k : l ≡ₚ k → transfers_found key amount l = transfers_found key amount k.
Proof.
  unfold transfers_found. intros Hp. induction Hp; [done| | |congruence]; cbn [fmap list_fmap];
    rewrite ?sum_list_cons; lia.
Qed.

(** The outputs in a map of transfers, before and after one is replaced. *)
Lemma transfers_found_insert key amount (m : gmap AccountPublicAddress Transfer) a t :
  (transfers_found key amount (map_to_list (<[a := t]> m)).*2 +
     found key amount (tr_outputs (default no_transfer (m !! a))) =
   found key amount (tr_outputs t) + transfers_found key amount (map_to_list m).*2)%nat.
Proof.
  rewrite <- insert_delete_eq.
  rewrite (transfers_found_perm _ _ _ _ (fmap_Permutation snd _ _
    (map_to_list_insert (delete a m) a t (lookup_delete_eq m a)))).
  rewrite fmap_cons. unfold transfers_found at 1. rewrite fmap_cons, sum_list_cons. fold (transfers_found key amount (map_to_list (delete a m)).*2).
  destruct (m !! a) as [t0|] eqn:E; cbn [default from_option].
  - assert (transfers_found key amount (map_to_list m).*2 =
      (found key amount (tr_outputs t0) + transfers_found key amount (map_to_list (delete a m)).*2)%nat) as ->.
    { rewrite <- (insert_delete_id m a t0 E) at 1.
      rewrite (transfers_found_perm _ _ _ _ (fmap_Permutation snd _ _
        (map_to_list_insert (delete a m) a t0 (lookup_delete_eq m a)))). done. }
    cbn [snd id]. lia.
  - rewrite delete_id by done. cbn [snd]. unfold no_transfer. cbn [tr_outputs]. unfold found at 2. cbn. lia.
Qed.

Section parse.
Context {D : Type} `{Lmdb D} `{Curve} (currency : Currency) (cn_fast_hash : list Z → Hash).
Context (load_history : Hash → list AccountPublicAddress).
Context (m : Main D) (pwtx : PreparedWalletTransaction) (tid : Hash) (global_indices : list Z) (block_height : Height).

Definition ours_found (key : PublicKey) (amount : Amount) (p : Parsed) : nat :=
  transfers_found key amount (map_to_list (p_transfers_ours p)).*2.

Lemma transfer_for_outputs ts a t : transfer_for currency cn_fast_hash ts a = Ok t →
  tr_outputs t = tr_outputs (default no_transfer (ts !! a)).
Proof.
  unfold transfer_for. intros Ht. destruct (bool_decide _); [inv_ok Ht|]; by injection Ht as <-.
Qed.

Lemma parse_our_output_found i o p p' key amount :
  parse_our_output currency cn_fast_hash m pwtx global_indices block_height i o p = Ok (Some p') →
  (ours_found key amount p' ≤ ours_found key amount p + output_is key amount o)%nat.
Proof.
  unfold parse_our_output. destruct (out_target o) as [k] eqn:Et. intros Hp. inv_ok Hp.
  destruct (bool_decide _); [done|]. destruct (_ !! a) as [sk|]; [|done]. inv_ok Hp.
  destruct a0 as [eph|]; [|done]. inv_ok Hp. injection Hp as <-.
  match goal with Ha : transfer_for _ _ _ _ = Ok ?t |- _ => apply transfer_for_outputs in Ha; rename t into tr, Ha into Htr end.
  unfold ours_found. cbn [p_transfers_ours].
  match goal with |- (transfers_found _ _ (map_to_list (<[?ad := ?t]> ?ms)).*2 ≤ _)%nat =>
    pose proof (transfers_found_insert key amount ms ad t) as Hi; set (new := t) in * end.
  enough (found key amount (tr_outputs new) ≤ found key amount (tr_outputs tr) + output_is key amount o)%nat
    by (rewrite <- Htr in Hi; lia).
  unfold new. match goal with |- context [tr_outputs match ?x with Some _ => _ | None => _ end] => destruct x as [delta|] end; [|lia]. cbn [add_to_transfer tr_outputs]. rewrite found_app.
  match goal with |- (_ + found _ _ [?out] ≤ _)%nat =>
    enough (found key amount [out] ≤ output_is key amount o)%nat by lia end.
  unfold found. rewrite fmap_cons, sum_list_cons. cbn. unfold found_is, output_is. cbn [o_public_key o_amount output_found].
  rewrite Et. destruct (decide (_ ∧ _)) as [[-> ->]|]; [|lia]. rewrite decide_True by done. lia.
Qed.

Lemma parse_sent_output_ours history i o p p' :
  parse_sent_output currency cn_fast_hash m pwtx global_indices block_height history i o p = Ok p' →
  p_transfers_ours p' = p_transfers_ours p.
Proof.
  unfold parse_sent_output. destruct (bool_decide _); [by intros [= <-]|]. intros Hp. inv_ok Hp. by injection Hp as <-.
Qed.

Lemma parse_outputs_found history i outs p p' key amount :
  parse_outputs currency cn_fast_hash m pwtx global_indices block_height history i outs p = Ok p' →
  (ours_found key amount p' ≤ ours_found key amount p + sum_list (output_is key amount <$> outs))%nat.
Proof.
  revert i p. induction outs as [|o outs IH]; intros i p Hp; cbn [parse_outputs] in Hp.
  { injection Hp as <-. lia. }
  rewrite fmap_cons, sum_list_cons.
  set (p0 := {| p_fee := _ |}) in Hp. change (ours_found key amount p) with (ours_found key amount p0).
  inv_ok Hp. apply IH in Hp.
  enough (ours_found key amount a0 ≤ ours_found key amount p0 + output_is key amount o)%nat by lia.
  destruct a as [p1|].
  - injection Ha0 as <-. by eapply parse_our_output_found.
  - apply parse_sent_output_ours in Ha0. unfold ours_found. rewrite Ha0. lia.
Qed.

(** The outputs of the transfers that are the wallet's. *)
Definition ours_of (ts : list Transfer) : list Transfer := filter (λ t, tr_ours t = true) ts.

Lemma finish_found ours locked ts key amount :
  (transfers_found key amount (ours_of (finish_transfers ours locked ts)) ≤
   if ours then transfers_found key amount (map_to_list ts).*2 else 0)%nat.
Proof.
  unfold finish_transfers.
  rewrite <- (transfers_found_perm key amount _ _ (fmap_Permutation snd _ _ (merge_sort_Permutation entry_le (map_to_list ts)))).
  fold (map_entries ts). induction (map_entries ts) as [|[a t] l IH]; [by destruct ours|].
  cbn [omap list_omap fmap list_fmap snd]. unfold transfers_found at 2. rewrite fmap_cons, sum_list_cons.
  fold (transfers_found key amount l.*2).
  destruct (_ =? 0); [by destruct ours; lia|]. unfold ours_of in *. destruct ours.
  - rewrite filter_cons_True by done. unfold transfers_found at 1. rewrite fmap_cons, sum_list_cons. cbn [tr_outputs].
    fold (transfers_found key amount (filter (λ t0, tr_ours t0 = true) (omap
      (λ e, if tr_amount e.2 =? 0 then None
            else Some {| tr_address := tr_address e.2; tr_amount := tr_amount e.2; tr_ours := true;
                         tr_locked := locked; tr_outputs := tr_outputs e.2 |}) l))). lia.
  - by rewrite filter_cons_False.
Qed.

Lemma parse_found ptx its un b key amount :
  parse_raw_transaction currency cn_fast_hash load_history m pwtx tid global_indices block_height =
    Ok (ptx, its, un, b) →
  (transfers_found key amount (ours_of (t_transfers ptx)) ≤ makes key amount (pw_tx pwtx))%nat.
Proof.
  unfold parse_raw_transaction. intros Hp. destruct (_ || _).
  { injection Hp as <- <- <- <-. cbn. lia. }
  inv_ok Hp. apply (parse_outputs_found _ _ _ _ _ key amount) in Ha. injection Hp as <- _ _ _. cbn [t_transfers].
  unfold ours_of. rewrite filter_app, transfers_found_app.
  set (locked := negb _).
  pose proof (finish_found false locked (p_transfers_others a) key amount) as H1.
  pose proof (finish_found true locked (p_transfers_ours a) key amount) as H2. unfold ours_of in H1, H2.
  unfold ours_found at 2 in Ha. cbn [p_transfers_ours] in Ha. rewrite map_to_list_empty in Ha. cbn in Ha.
  unfold makes, ours_found in *. lia.
Qed.

(** ** A transaction enters the pool *)

Lemma pool_add_output d o key amount :
  unspent_count key amount (m_unspents (Delta.add_incoming_output d o).1) =
    (unspent_count key amount (m_unspents d) + found_is key amount o)%nat.
Proof.
  unfold unspent_count, found_is. cbn. destruct (decide (o_public_key o = key)) as [->|Hne].
  - rewrite lookup_insert_eq. cbn [default from_option id]. rewrite fmap_app.
    assert (∀ l k, sum_list (l ++ k) = (sum_list l + sum_list k)%nat) as ->.
    { intros l k. induction l as [|n l IH]; [done|]. cbn [app]. rewrite !sum_list_cons, IH. lia. }
    rewrite fmap_cons, sum_list_cons. unfold amount_is at 2. cbn.
    destruct (decide (o_amount o = amount)), (decide (_ ∧ _)); naive_solver lia.
  - rewrite lookup_insert_ne by done. rewrite (decide_False (P := _ ∧ _)) by naive_solver. lia.
Qed.

(** The pool after outputs were added, before their transaction is. *)
Definition added (d d' : DeltaState) (f : PublicKey → Amount → nat) : Prop :=
  m_used_keyimages d' = m_used_keyimages d ∧ m_transactions d' = m_transactions d ∧
  (no_empty (m_unspents d) → no_empty (m_unspents d')) ∧
  ∀ key amount, unspent_count key amount (m_unspents d') = (unspent_count key amount (m_unspents d) + f key amount)%nat.

Lemma added_outputs outs d acc d' acc' :
  for_each (λ '(delta, outs) out,
      '(delta, adjusted_amount) ← add_incoming_output delta out;
      Ok (delta, outs ++ [with_amount out adjusted_amount])) outs (d, acc) = Ok (d', acc') →
  added d d' (λ key amount, found key amount outs).
Proof.
  revert d acc. induction outs as [|o outs IH]; intros d acc Hr; cbn [for_each] in Hr.
  { injection Hr as <- _. split_and!; [done..|]. intros key amount. cbn. lia. }
  cbn [add_incoming_output Delta_IWalletState mbind result_bind] in Hr.
  destruct (Delta.add_incoming_output d o) as [d1 am] eqn:E.
  cbn [mbind result_bind] in Hr. destruct (IH _ _ Hr) as (Hu & Ht & Hn & Hc).
  pose proof (pool_add_output d o) as Ho. rewrite E in Ho. cbn [fst] in Ho.
  unfold Delta.add_incoming_output in E. injection E as <- _. cbn in Hu, Ht.
  split; [done|]. split; [done|]. split.
  - intros He. apply Hn. intros k. cbn. destruct (decide (o_public_key o = k)) as [->|Hne].
    + rewrite lookup_insert_eq. intros [= Hnil]. by apply app_eq_nil in Hnil as [_ Hnil].
    + by rewrite lookup_insert_ne.
  - intros key amount. rewrite Hc, Ho. unfold found at 2. rewrite fmap_cons, sum_list_cons.
    fold (found key amount outs). lia.
Qed.

Lemma added_transfers trs d acc d' acc' :
  for_each add_transfer_outputs trs (d, acc) = Ok (d', acc') →
  added d d' (λ key amount, transfers_found key amount (ours_of trs)).
Proof.
  revert d acc. induction trs as [|t trs IH]; intros d acc Hr; cbn [for_each] in Hr.
  { injection Hr as <- _. split_and!; [done..|]. intros key amount. cbn. lia. }
  inv_ok Hr. destruct a as [d1 acc1]. destruct (IH _ _ Hr) as (Hu & Ht & Hn & Hc). unfold ours_of in *.
  unfold add_transfer_outputs in Ha. destruct (tr_ours t) eqn:Eo; cbn [negb] in Ha.
  - inv_ok Ha. destruct a as [d2 outs]. injection Ha as <- <-.
    destruct (added_outputs _ _ _ _ _ Ha0) as (Hu0 & Ht0 & Hn0 & Hc0).
    split; [by rewrite Hu|]. split; [by rewrite Ht|]. split; [by auto|].
    intros key amount. rewrite Hc, Hc0, filter_cons_True by done. unfold transfers_found at 2.
    rewrite fmap_cons, sum_list_cons. fold (transfers_found key amount (filter (λ t0, tr_ours t0 = true) trs)). lia.
  - injection Ha as <- <-. split; [done|]. split; [done|]. split; [done|].
    intros key amount. rewrite Hc, filter_cons_False by (by rewrite Eo). done.
Qed.

Lemma pool_keyimages h its (d d' : DeltaState) :
  for_each (λ delta tr,
      for_each (λ delta out, '(delta, _) ← add_incoming_keyimage delta h (o_key_image out); Ok delta)
        (tr_outputs tr) delta) its d = Ok d' → d' = d.
Proof.
  revert d. induction its as [|t its IH]; intros d Hr; cbn [for_each] in Hr; [by injection Hr as <-|].
  inv_ok Hr. apply IH in Hr as ->. clear IH. revert d Ha. induction (tr_outputs t) as [|o l IH]; intros d Ha.
  - by injection Ha as <-.
  - cbn [for_each add_incoming_keyimage Delta_IWalletState mbind result_bind] in Ha. by apply IH.
Qed.

(** The transaction is the only change, and the pool is consistent with it. *)
Lemma redo_in_pool d is_base bid ts d' b : pool_ok d →
  redo_transaction currency cn_fast_hash load_history m pwtx tid global_indices block_height d is_base bid ts = Ok (d', b) →
  pool_ok d' ∧ (m_transactions d' = m_transactions d ∨ ∃ ptx, m_transactions d' = <[tid := (pw_tx pwtx, ptx)]> (m_transactions d)).
Proof.
  intros Hd Hr. unfold redo_transaction in Hr. inv_ok Hr. destruct a as [[[ptx its] un] ours].
  destruct ours; cbn [negb] in Hr; [|injection Hr as <- <-; by auto].
  inv_ok Hr. destruct a as [d1 trs]. inv_ok Hr. apply pool_keyimages in Ha1 as ->. inv_ok Hr. injection Hr as <- <-.
  destruct (added_transfers _ _ _ _ _ Ha0) as (Hu & Ht & Hn & Hc).
  cbn [add_transaction Delta_IWalletState] in Ha2. unfold Delta.add_transaction in Ha2.
  apply bind_Ok_inv in Ha2 as ([] & Hfresh & Ha2). apply check_Ok, bool_decide_eq_true in Hfresh.
  injection Ha2 as <-. cbn [m_transactions]. destruct Hd as [Hi Ho Hne]. rewrite Ht in Hfresh |- *.
  split; [|right; by eexists]. split; cbn [m_used_keyimages m_transactions m_unspents].
  - intros ki. rewrite Hu. pose proof (counted_uses (m_used_keyimages d) (λ ki, total (uses ki) (m_transactions d))
      (inputs (pw_tx pwtx)) Hi ki) as Hcnt. rewrite Hcnt.
    by rewrite (total_with (uses ki)).
  - intros key amount. rewrite Hc, total_with by done. cbn [fst].
    pose proof (parse_found _ _ _ _ key amount Ha). specialize (Ho key amount). lia.
  - by apply Hn.
Qed.

End parse.

(** ** The state *)

Section state.
Context {D : Type} `{Lmdb D} `{Curve} (currency : Currency) (cn_fast_hash : list Z → Hash).
Context (load_history : Hash → list AccountPublicAddress).
Abbreviation S := (State D).
Abbreviation add_to_mempool := (add_transaction_to_mempool currency cn_fast_hash load_history).

(** A transaction waits: it is in the node's pool, or in the payment queue and
    in no block. *)
Definition waits (s : S) (tid : Hash) : Prop :=
  tid ∈ m_pool_hashes s ∨ ∃ e, payment_queue s !! tid = Some e ∧ in_blockchain e = false.

(** All transactions of the pool wait, but maybe one. *)
Record state_but (except : Hash → Prop) (s : S) : Prop := {
  so_pool : pool_ok (m_memory_state s);
  so_queue tid e : payment_queue s !! tid = Some e → q_hash e = tid;
  so_waits tid : is_Some (m_transactions (m_memory_state s) !! tid) → except tid ∨ waits s tid;
}.
Definition state_ok : S → Prop := state_but (λ _, False).

Lemma state_ok_waits s tid : state_ok s → is_Some (m_transactions (m_memory_state s) !! tid) → waits s tid.
Proof. intros Hs Ht. by destruct (so_waits _ _ Hs tid Ht). Qed.

Lemma state_but_mono (P Q : Hash → Prop) s : (∀ t, P t → Q t) → state_but P s → state_but Q s.
Proof. intros HPQ [? ? Hw]. split; [done..|]. intros tid Ht. destruct (Hw tid Ht); auto. Qed.

Lemma undo_in_pool s tid P : state_but P s → ∃ memory, Delta.undo_transaction (m_memory_state s) tid = Ok memory ∧
  state_but (λ t, P t ∧ t ≠ tid) (with_memory s memory).
Proof.
  intros [Hp Hq Hw]. destruct (undo_transaction_ok _ tid Hp) as (memory & -> & Hm & Ht). exists memory. split; [done|].
  split; [done|done|]. intros t. cbn. rewrite Ht. intros Hin.
  assert (t ≠ tid) as Hne by (intros ->; rewrite lookup_delete_eq in Hin; by destruct Hin).
  rewrite lookup_delete_ne in Hin by done. destruct (Hw t Hin); auto.
Qed.

Lemma taken_out_ok s tid : state_but (λ t, t = tid) s →
  ∃ s', remove_transaction_from_mempool s tid = Ok s' ∧ state_ok s' ∧ main s' = main s ∧
    m_pool_hashes s' = m_pool_hashes s ∧ payment_queue s' = payment_queue s.
Proof.
  intros Hs. unfold remove_transaction_from_mempool.
  assert (waits s tid → state_ok s) as Hwait.
  { intros Hw. destruct Hs as [Hp Hq Hws]. split; [done..|]. intros t Ht. right.
    destruct (Hws t Ht) as [->|]; done. }
  assert (∃ s', (memory ← Delta.undo_transaction (m_memory_state s) tid; Ok (with_memory s memory)) = Ok s' ∧
    state_ok s' ∧ main s' = main s ∧ m_pool_hashes s' = m_pool_hashes s ∧ payment_queue s' = payment_queue s) as Hundo.
  { destruct (undo_in_pool s tid _ Hs) as (memory & -> & Hm). eexists. split; [done|]. split; [|done].
    eapply state_but_mono; [|exact Hm]. cbn. naive_solver. }
  case_bool_decide as Hin.
  { exists s. split_and!; [done|by apply Hwait; left|done..]. }
  destruct (payment_queue s !! tid) as [e|] eqn:Eq; [|done].
  destruct (in_blockchain e) eqn:Eb; cbn [negb]; [done|].
  exists s. split_and!; [done|apply Hwait; right; by exists e|done..].
Qed.

Lemma add_ok s tid tx s' : state_ok s → waits s tid → add_to_mempool s tid tx = Ok s' →
  state_ok s' ∧ main s' = main s ∧ m_pool_hashes s' = m_pool_hashes s ∧ payment_queue s' = payment_queue s.
Proof.
  intros Hs Hw Ha. unfold add_transaction_to_mempool in Ha. destruct (bool_decide _); [by injection Ha as <-|].
  inv_ok Ha. destruct a0 as [memory b]. injection Ha as <-.
  apply redo_in_pool in Ha1 as [Hm Ht]; [|apply Hs]. split; [|done].
  split; [done|apply Hs|]. intros t. cbn. intros Hin. right.
  destruct Ht as [Ht|[ptx Ht]]; rewrite Ht in Hin; [exact (state_ok_waits s t Hs Hin)|].
  destruct (decide (t = tid)) as [->|Hne]; [done|]. rewrite lookup_insert_ne in Hin by done.
  exact (state_ok_waits s t Hs Hin).
Qed.

(** Changes elsewhere. *)
Lemma with_main_ok s m : state_ok s → state_ok (with_main s m).
Proof. by intros []. Qed.
Lemma with_versions_ok s a b : state_ok s → state_ok (with_versions s a b).
Proof. by intros []. Qed.
Lemma with_pool_hash_ok s tid : state_ok s → state_ok (with_pool_hashes s (m_pool_hashes s ∪ {[tid]})) ∧
  waits (with_pool_hashes s (m_pool_hashes s ∪ {[tid]})) tid.
Proof.
  intros [Hp Hq Hw]. split; [|left; cbn; set_solver]. split; [done..|]. intros t Ht.
  destruct (Hw t Ht) as [[]|[?|?]]; right; [left; cbn; set_solver|by right].
Qed.
Lemma without_pool_hash_ok s tid : state_ok s → state_but (λ t, t = tid) (with_pool_hashes s (m_pool_hashes s ∖ {[tid]})).
Proof.
  intros [Hp Hq Hw]. split; [done..|]. intros t Ht. destruct (decide (t = tid)) as [|Hne]; [by left|right].
  destruct (Hw t Ht) as [[]|[?|?]]; [left; cbn; set_solver|by right].
Qed.

Lemma drop_pool_hash_ok s tid s' : state_ok s →
  (if bool_decide (tid ∈ m_pool_hashes s)
   then remove_transaction_from_mempool (with_pool_hashes s (m_pool_hashes s ∖ {[tid]})) tid
   else Ok s) = Ok s' →
  state_ok s' ∧ main s' = main s.
Proof.
  intros Hs. case_bool_decide; [|by intros [= <-]].
  destruct (taken_out_ok _ _ (without_pool_hash_ok s tid Hs)) as (s1 & -> & Hs1 & Hm & _). by intros [= <-].
Qed.

(** An entry of the queue is replaced by one for the same transaction. *)
Lemma queue_insert_eq (q : gmap Hash QueueEntry) e : q !! q_hash e = None → queue_insert q e = <[q_hash e := e]> q.
Proof. intros Hq. unfold queue_insert. by rewrite Hq, bool_decide_false by (intros [? [=]]). Qed.

Lemma with_entry_ok s e P : state_but P s → state_but (λ t, P t ∨ t = q_hash e ∧ in_blockchain e = true)
  (with_queue s (<[q_hash e := e]> (payment_queue s))).
Proof.
  intros [Hp Hq Hw]. split; [done| |].
  - intros t e'. cbn. destruct (decide (q_hash e = t)) as [<-|Hne].
    + rewrite lookup_insert_eq. by intros [= <-].
    + rewrite lookup_insert_ne by done. apply Hq.
  - intros t Ht. destruct (Hw t Ht) as [HP|[Hin|(e' & He' & Hb)]]; [by left; left|by right; left|].
    destruct (decide (q_hash e = t)) as [<-|Hne].
    + destruct (in_blockchain e) eqn:E; [left; by right|right; right]. exists e. cbn. by rewrite lookup_insert_eq.
    + right. right. exists e'. cbn. by rewrite lookup_insert_ne.
Qed.

Lemma entry_waits s e : in_blockchain e = false → waits (with_queue s (<[q_hash e := e]> (payment_queue s))) (q_hash e).
Proof. intros He. right. exists e. cbn. by rewrite lookup_insert_eq. Qed.

(** ** Every operation keeps the state consistent *)

Lemma for_each_keeps {A B} (I : A → Prop) (f : A → B → result A) l s s' :
  (∀ s b s', I s → f s b = Ok s' → I s') → I s → for_each f l s = Ok s' → I s'.
Proof.
  intros Hf. revert s. induction l as [|b l IH]; intros s Hs Hr; cbn [for_each] in Hr; [by injection Hr as <-|].
  inv_ok Hr. eapply IH; [|exact Hr]. by eapply Hf.
Qed.

Lemma back_to_mempool_ok s b tid s' b' : state_ok s →
  back_to_mempool currency cn_fast_hash load_history (s, b) tid = Ok (s', b') → state_ok s'.
Proof.
  intros Hs Hr. unfold back_to_mempool in Hr. destruct (payment_queue s !! tid) as [e|] eqn:Eq; [|by injection Hr as <- _].
  inv_ok Hr. injection Hr as <- _. pose proof (so_queue _ _ Hs tid e Eq) as Hh.
  set (e' := with_remove_height e 0) in *. assert (q_hash e' = tid) as He' by done.
  rewrite queue_insert_eq in Ha0 by (rewrite He'; apply lookup_delete_eq).
  rewrite He', insert_delete_eq, <- He' in Ha0.
  apply add_ok in Ha0; [by apply Ha0| |].
  - eapply state_but_mono; [|apply with_entry_ok, Hs]. cbn. naive_solver.
  - by apply entry_waits.
Qed.

Lemma into_blockchain_ok s b tid s' b' : state_ok s →
  into_blockchain currency (s, b) tid = Ok (s', b') → state_ok s'.
Proof.
  intros Hs Hr. unfold into_blockchain in Hr. destruct (payment_queue s !! tid) as [e|] eqn:Eq; [|by injection Hr as <- _].
  inv_ok Hr. destruct a as [[tx ptx]|]; [|by injection Hr as <- _]. inv_ok Hr. injection Hr as <- _.
  pose proof (so_queue _ _ Hs tid e Eq) as Hh.
  set (e' := with_remove_height e _) in *. assert (q_hash e' = tid) as He' by done.
  rewrite queue_insert_eq in Ha0 by (rewrite He'; apply lookup_delete_eq).
  rewrite He', insert_delete_eq, <- He' in Ha0.
  destruct (taken_out_ok (with_queue s (<[q_hash e' := e']> (payment_queue s))) (q_hash e')) as (s1 & Hs1 & Hok & _).
  { eapply state_but_mono; [|apply with_entry_ok, Hs]. cbn. naive_solver. }
  rewrite Hs1 in Ha0. by injection Ha0 as <-.
Qed.

(** The pool, its hashes and the queue are as they were. *)
Definition same_pool (s s' : S) : Prop :=
  m_memory_state s' = m_memory_state s ∧ m_pool_hashes s' = m_pool_hashes s ∧ payment_queue s' = payment_queue s.

Lemma same_pool_ok P s s' : same_pool s s' → state_but P s → state_but P s'.
Proof.
  intros (Hm & Hh & Hq) [Hp Hk Hw]. split; [by rewrite Hm|by rewrite Hq|].
  intros t. rewrite Hm. intros Ht. destruct (Hw t Ht) as [?|Hwt]; [by left|right].
  unfold waits. by rewrite Hh, Hq.
Qed.

Lemma queue_insert_ok s e : state_ok s → state_ok (with_queue s (queue_insert (payment_queue s) e)).
Proof.
  intros Hs. unfold queue_insert. case_bool_decide as Hin; [by apply (same_pool_ok _ s)|].
  destruct (with_entry_ok s e (λ _, False) Hs) as [Hp Hq Hw]. split; [exact Hp|exact Hq|].
  intros t Ht. destruct (Hw t Ht) as [[[]|[-> _]]|Hwt]; [|by right]. right.
  destruct (state_ok_waits s (q_hash e) Hs Ht) as [Hm|(e' & He' & _)]; [by left|].
  destruct Hin. by rewrite He'.
Qed.

Lemma drop_filtered_ok s h : state_ok s →
  state_ok (with_queue s (filter (λ e, q_remove_height e.2 = 0 ∨ h < q_remove_height e.2) (payment_queue s))).
Proof.
  intros [Hp Hq Hw]. split; [done| |].
  - intros t e. cbn. intros [He _]%map_lookup_filter_Some. by apply Hq.
  - intros t Ht. destruct (Hw t Ht) as [[]|[?|(e & He & Hb)]]; right; [by left|right].
    exists e. split; [|done]. cbn. apply map_lookup_filter_Some. split; [done|]. left.
    unfold in_blockchain in Hb. cbn. lia.
Qed.

Lemma fix_payment_queue_ok s s' : state_ok s →
  fix_payment_queue_after_undo_redo currency cn_fast_hash load_history s = Ok s' → state_ok s'.
Proof.
  intros Hs Hr. unfold fix_payment_queue_after_undo_redo in Hr. inv_ok Hr.
  destruct a as [s1 b1], a0 as [s2 b2]. injection Hr as <-.
  assert (state_ok s2) as H2.
  { assert (state_ok (s1, b1).1) as H1.
    { eapply (for_each_keeps (λ st, state_ok st.1)); [| |exact Ha]; [|exact Hs].
      intros [s3 b3] t [s4 b4] H3 H4. by eapply back_to_mempool_ok. }
    assert (state_ok (s2, b2).1); [|done].
    eapply (for_each_keeps (λ st, state_ok st.1)); [| |exact Ha0]; [|exact H1].
    intros [s3 b3] t [s4 b4] H3 H4. by eapply into_blockchain_ok. }
  destruct (_ || _); [apply (same_pool_ok _ (with_queue s2 (filter (λ e, q_remove_height e.2 = 0 ∨ tip_height s2 < q_remove_height e.2) (payment_queue s2)))); [done|by apply drop_filtered_ok]|by apply drop_filtered_ok].
Qed.

Lemma insert_entry_ok s binary_transaction tid tx s' b : state_ok s → payment_queue s !! tid = None →
  insert_entry currency s binary_transaction tid tx = Ok (s', b) → state_ok s' ∧ (b = true → waits s' tid).
Proof.
  intros Hs Hnone Hr. unfold insert_entry in Hr. inv_ok Hr.
  destruct a as [[tx' ptx]|]; injection Hr as <- <-; (split; [by apply queue_insert_ok|]); [done|]. intros _.
  rewrite queue_insert_eq by done. by apply (entry_waits s {| q_hash := tid; q_remove_height := 0 |}).
Qed.

(** Whether an exception ends a step or is logged. *)
Lemma add_to_payment_queue_ok (try_ : ∀ A, result A → A → result A) s binary_transaction s' :
  (∀ A (r : result A) o x, try_ A r o = Ok x → r = Ok x ∨ x = o) →
  state_ok s → add_to_payment_queue_with currency cn_fast_hash load_history try_ s binary_transaction = Ok s' → state_ok s'.
Proof.
  intros Htry Hs Hr. unfold add_to_payment_queue_with in Hr. inv_ok Hr. destruct a as [s1 opened].
  assert (state_ok s1 ∧ ∀ tid tx, opened = Some (tid, tx) → payment_queue s1 !! tid = None) as [H1 Hnone].
  { apply Htry in Ha as [Ha|[= -> ->]]; [|done]. unfold open_entry in Ha. inv_ok Ha.
    case_bool_decide as Hin; injection Ha as <- <-; [done|]. split; [by apply (same_pool_ok _ s)|].
    intros tid tx [= <- <-]. cbn. by apply eq_None_not_Some. }
  destruct opened as [[tid tx]|]; [|by injection Hr as <-]. specialize (Hnone _ _ eq_refl). inv_ok Hr.
  destruct a as [s2 b].
  assert (state_ok s2 ∧ (b = true → waits s2 tid)) as [H2 Hw].
  { apply Htry in Ha0 as [Ha0|[= -> ->]]; [by eapply insert_entry_ok|done]. }
  destruct b; [|by injection Hr as <-]. apply Htry in Hr as [Hr| ->]; [|done].
  apply add_ok in Hr; [by apply Hr|done|by apply Hw].
Qed.

Lemma attempt_Ok A (r : result A) o x : attempt r o = Ok x → r = Ok x ∨ x = o.
Proof. destruct r; cbn; intros Hr; naive_solver. Qed.

Lemma process_payment_queue_send_error_ok s hash code h s' : state_ok s →
  process_payment_queue_send_error currency s hash code h = Ok s' → state_ok s'.
Proof.
  intros Hs Hr. unfold process_payment_queue_send_error in Hr.
  destruct (_ || _); [|by injection Hr as <-]. destruct (_ <? _); [|by injection Hr as <-].
  destruct (taken_out_ok (with_queue s (delete hash (payment_queue s))) hash) as (s1 & Hs1 & H1 & _).
  { destruct Hs as [Hp Hq Hw]. split; [done| |].
    - intros t e. cbn. intros [_ He]%lookup_delete_Some. by apply Hq.
    - intros t Ht. destruct (decide (t = hash)) as [->|Hne]; [by left|right].
      destruct (Hw t Ht) as [[]|[?|(e & He & Hb)]]; [by left|right]. exists e. split; [|done]. cbn.
      by rewrite lookup_delete_ne. }
  rewrite Hs1 in Hr. cbn in Hr. injection Hr as <-. by apply (same_pool_ok _ s1).
Qed.

(** ** Synchronization *)

Lemma pop_one_ok s s' : state_ok s → pop_one s = Ok s' → state_ok s'.
Proof. intros Hs Hr. unfold pop_one in Hr. inv_ok Hr. injection Hr as <-. by apply (same_pool_ok _ s). Qed.

Lemma pop_while_ok cond fuel s s' : state_ok s → pop_while cond fuel s = Ok s' → state_ok s'.
Proof.
  revert s. induction fuel as [|fuel IH]; intros s Hs Hr; cbn [pop_while] in Hr;
    destruct (_ && _); try (by injection Hr as <-); [done|].
  inv_ok Hr. eapply IH; [|exact Hr]. by eapply pop_one_ok.
Qed.

Lemma pop_to_common_ok blocks start_height fuel s s' b : state_ok s →
  pop_to_common blocks start_height fuel s = Ok (s', b) → state_ok s'.
Proof.
  revert s. induction fuel as [|fuel IH]; intros s Hs Hr; cbn [pop_to_common] in Hr;
    (destruct (_ && _); [|by injection Hr as <- _]); inv_ok Hr;
    (case_bool_decide; [by injection Hr as <- _|]); (destruct (_ =? 0); [by injection Hr as <- _|]); [done|].
  inv_ok Hr. eapply IH; [|exact Hr]. by eapply pop_one_ok.
Qed.

Lemma redo_block_transaction_ok header pb global_indices s i pwtx s' i' : state_ok s →
  redo_block_transaction currency cn_fast_hash load_history header pb global_indices (s, i) pwtx = Ok (s', i') → state_ok s'.
Proof.
  intros Hs Hr. unfold redo_block_transaction in Hr. inv_ok Hr.
  destruct a3 as [m b]. injection Hr as <- _. apply drop_pool_hash_ok in Ha0 as [H1 _]; [|done].
  destruct (undo_in_pool a0 a _ H1) as (memory & Hm & H2). rewrite Ha1 in Hm. injection Hm as <-.
  apply (same_pool_ok _ (with_memory a0 a1)); [done|]. eapply state_but_mono; [|exact H2]. cbn. tauto.
Qed.

Lemma wallet_redo_block_ok s header pb global_indices height s' b : state_ok s →
  redo_block currency cn_fast_hash load_history s header pb global_indices height = Ok (s', b) → state_ok s'.
Proof.
  intros Hs Hr. unfold redo_block in Hr. inv_ok Hr. destruct (negb _); [by injection Hr as <- _|]. inv_ok Hr.
  destruct a1 as [m b1]. inv_ok Hr. destruct a1 as [s2 n]. inv_ok Hr. injection Hr as <- _.
  apply (same_pool_ok _ s2); [done|]. change (state_ok (s2, n).1).
  eapply (for_each_keeps (λ st, state_ok st.1)); [| |exact Ha2]; [|by apply (same_pool_ok _ s)].
  intros [s1 i] pwtx [s3 i'] H1 Hr. by eapply redo_block_transaction_ok.
Qed.

Lemma sync_block_ok s b s' go_on : state_ok s →
  sync_block currency cn_fast_hash load_history s b = Ok (s', go_on) → state_ok s'.
Proof.
  intros Hs Hr. unfold sync_block in Hr. destruct (_ && _); [by injection Hr as <- _|]. inv_ok Hr.
  injection Hr as <- _. apply (same_pool_ok _ a); [done|].
  destruct (_ <=? _); [|by injection Ha as <-]. inv_ok Ha. destruct a2 as [s1 b1]. injection Ha as <-.
  by eapply wallet_redo_block_ok.
Qed.

Lemma sync_blocks_ok blocks start_height fuel s s' go_on : state_ok s →
  sync_blocks currency cn_fast_hash load_history blocks start_height fuel s = Ok (s', go_on) → state_ok s'.
Proof.
  revert s. induction fuel as [|fuel IH]; intros s Hs Hr; cbn [sync_blocks] in Hr;
    (destruct (_ <? _); [|by injection Hr as <- _]); [done|].
  inv_ok Hr. destruct a0 as [s1 b1]. apply sync_block_ok in Ha0; [|done].
  destruct b1; [by eapply IH|by injection Hr as <- _].
Qed.

Lemma sync_with_blockchain_ok s blocks start_height s' b : state_ok s →
  sync_with_blockchain currency cn_fast_hash load_history s blocks start_height = Ok (s', b) → state_ok s'.
Proof.
  intros Hs Hr. unfold sync_with_blockchain in Hr. case_bool_decide; [by injection Hr as <- _|]. inv_ok Hr.
  apply pop_while_ok in Ha; [|done]. destruct a0 as [s2 b2]. apply pop_to_common_ok in Ha0; [|done].
  destruct b2; cbn [negb] in Hr; [|by injection Hr as <- _]. inv_ok Hr.
  assert (state_ok a0) as H3 by (destruct (_ <? _); [by eapply pop_while_ok|by injection Ha1 as <-]).
  assert (state_ok a1) as H4.
  { destruct (chain_is_empty _); [|by injection Ha2 as <-]. inv_ok Ha2. injection Ha2 as <-. by apply (same_pool_ok _ a0). }
  destruct a2 as [s5 b5]. apply sync_blocks_ok in Ha3; [|done].
  destruct b5; cbn [negb] in Hr; [|by injection Hr as <- _]. inv_ok Hr. injection Hr as <- _.
  eapply fix_payment_queue_ok; [|done]. by apply (same_pool_ok _ s5).
Qed.

Lemma sync_with_mempool_ok s removed added_txs added_hashes version s' : state_ok s →
  sync_with_mempool currency cn_fast_hash load_history s removed added_txs added_hashes version = Ok s' → state_ok s'.
Proof.
  intros Hs Hr. unfold sync_with_mempool in Hr. inv_ok Hr. destruct a0 as [s2 n]. injection Hr as <-.
  apply (same_pool_ok _ s2); [done|]. change (state_ok (s2, n).1).
  assert (state_ok a) as H1.
  { eapply (for_each_keeps state_ok); [|exact Hs|exact Ha]. intros s1 t s3 H1 H2. by apply drop_pool_hash_ok in H2 as [? _]. }
  eapply (for_each_keeps (λ st, state_ok st.1)); [| |exact Ha0]; [|exact H1].
  intros [s3 i] tx [s4 j] H3 Hstep. inv_ok Hstep. injection Hstep as <- _.
  destruct (with_pool_hash_ok s3 a0 H3) as [H5 H6]. by apply add_ok in Ha2 as [? _].
Qed.

Lemma wallet_addresses_updated_ok s s' : state_ok s →
  wallet_addresses_updated currency cn_fast_hash load_history s = Ok s' → state_ok s'.
Proof.
  intros Hs Hr. unfold wallet_addresses_updated in Hr. inv_ok Hr. destruct a as [d undo_timestamp].
  destruct (_ =? _); [injection Hr as <-; by apply (same_pool_ok _ s)|]. inv_ok Hr.
  apply pop_while_ok in Ha0; [|by apply (same_pool_ok _ s)].
  eapply fix_payment_queue_ok; [|done]. by apply (same_pool_ok _ a).
Qed.

Lemma load_queue_ok files s s' : state_ok s → load_queue currency cn_fast_hash load_history files s = Ok s' → state_ok s'.
Proof.
  intros Hs Hr. unfold load_queue in Hr. eapply (for_each_keeps state_ok); [|exact Hs|exact Hr].
  intros s1 b s2 H1 H2. eapply add_to_payment_queue_ok; [|exact H1|exact H2]. intros. by apply attempt_Ok.
Qed.

Lemma make_State_ok w k files s : make_State currency cn_fast_hash load_history w k files = Ok s → state_ok s.
Proof.
  intros Hr. unfold make_State in Hr. inv_ok Hr. eapply load_queue_ok; [|done].
  eapply wallet_addresses_updated_ok; [|done]. split; cbn.
  - apply no_delta_ok.
  - intros tid e. by rewrite lookup_empty.
  - intros tid. rewrite lookup_empty. by intros [].
Qed.

(** ** What happens to a wallet *)

(** The messages of the node and the commands of the user; keys are added to
    the wallet before [wallet_addresses_updated] is called. *)
Inductive event :=
| BlocksArrive (blocks : list SyncBlock) (start_height : Height)
| PoolChanges (removed : list Hash) (added_txs : list TransactionPrefix) (added_hashes : list Hash) (version : Z)
| PaymentQueued (binary_transaction : BinaryArray)
| SendFails (hash : Hash) (code : send_error) (conflict_height : Height)
| AddressesAdded (keys : Keys).

Definition happen (s : S) (e : event) : result S :=
  match e with
  | BlocksArrive blocks start_height =>
    '(s, _) ← sync_with_blockchain currency cn_fast_hash load_history s blocks start_height; Ok s
  | PoolChanges removed added_txs added_hashes version =>
    sync_with_mempool currency cn_fast_hash load_history s removed added_txs added_hashes version
  | PaymentQueued binary_transaction => add_to_payment_queue currency cn_fast_hash load_history s binary_transaction
  | SendFails hash code conflict_height => process_payment_queue_send_error currency s hash code conflict_height
  | AddressesAdded keys =>
    wallet_addresses_updated currency cn_fast_hash load_history
      (with_main s {| basic := basic (main s); m_wallet := keys |})
  end.

Lemma happen_ok s e s' : state_ok s → happen s e = Ok s' → state_ok s'.
Proof.
  intros Hs He. destruct e; cbn [happen] in He.
  - inv_ok He. destruct a as [s1 b]. injection He as <-. by eapply sync_with_blockchain_ok.
  - by eapply sync_with_mempool_ok.
  - eapply add_to_payment_queue_ok; [|exact Hs|exact He]. intros. by left.
  - by eapply process_payment_queue_send_error_ok.
  - eapply wallet_addresses_updated_ok; [|exact He]. by apply (same_pool_ok _ s).
Qed.

Lemma history_ok w k files events s0 s :
  make_State currency cn_fast_hash load_history w k files = Ok s0 → for_each happen events s0 = Ok s → state_ok s.
Proof.
  intros Hmake Hs. eapply (for_each_keeps state_ok); [|by eapply make_State_ok|exact Hs]. apply happen_ok.
Qed.

End state.
End WalletSyncingLaws.
