(* ===== verification/WalletPool.v ===== *)
(** * What waits for a block is accounted for

    The transactions that the wallet knows of and that are in no block, through
    everything that happens to it; with a wallet that is paid. *)

From S2P Require Import Prelude Varint Containers Words Seria Text CryptoNote TransactionExtra Amounts Blocks Currency Db Store Headers Crypto CryptoLaws WalletData Wallet Builder WalletTheorems WalletSyncing WalletSyncingLaws.
Import Containers Codec CryptoNote TransactionExtra Amounts Currency Db Store Headers Crypto CryptoLaws WalletData Wallet Builder WalletTheorems WalletSyncing WalletSyncingLaws.

Local Open Scope Z_scope.

Module WalletPool.

Section laws.
Context {D : Type} `{Lmdb D} `{Curve} (currency : Currency) (cn_fast_hash : list Z → Hash).
Context (load_history : Hash → list AccountPublicAddress).

(** C9: The wallet's memory pool stays consistent: from its construction,
    whatever blocks and pool changes the node sends, payments are queued, sends
    fail and addresses are added, every counter of [m_used_keyimages] is exactly
    the number of inputs of waiting transactions with that key image; every
    waiting transaction is in the node's pool or in the payment queue and in no
    block; taking any transaction out succeeds, with a consistent pool without
    it; and when none waits nothing is left of any. *)
Theorem pool_is_consistent w k files events s0 s :
  make_State currency cn_fast_hash load_history w k files = Ok s0 →
  for_each (happen currency cn_fast_hash load_history) events s0 = Ok s →
  (∀ ki, m_used_keyimages (m_memory_state s) !! ki =
    let n := total (uses ki) (m_transactions (m_memory_state s)) in
    if decide (n = 0%nat) then None else Some (Z.of_nat n)) ∧
  (∀ tid, is_Some (m_transactions (m_memory_state s) !! tid) →
    tid ∈ m_pool_hashes s ∨ ∃ e, payment_queue s !! tid = Some e ∧ in_blockchain e = false) ∧
  (∀ tid, ∃ d, Delta.undo_transaction (m_memory_state s) tid = Ok d ∧ pool_ok d ∧
    m_transactions d = delete tid (m_transactions (m_memory_state s))) ∧
  (m_transactions (m_memory_state s) = ∅ → m_memory_state s = no_delta).
Proof.
  intros Hmake Hs. pose proof (history_ok _ _ _ _ _ _ _ _ _ Hmake Hs) as Hok.
  pose proof (so_pool _ _ Hok) as Hp. split_and!.
  - apply Hp.
  - intros tid. by apply state_ok_waits.
  - intros tid. by apply undo_transaction_ok.
  - by apply pool_empty.
Qed.

End laws.

(** ** A wallet that is paid *)

#[local] Existing Instance Cyclic.cyclic.
Definition sample_public (sec : SecretKey) : PublicKey := ge_tobytes (ge_scalarmult_base sec).
Definition sample_view : SecretKey := small_scalar 11.
Definition sample_spend : SecretKey := small_scalar 6.
Definition sample_record : WalletRecord :=
  {| record_spend_public_key := sample_public sample_spend;
     record_spend_secret_key := sample_spend; creation_timestamp := 5 |}.
Definition sample_keys : Keys :=
  {| m_view_public_key := sample_public sample_view; m_view_secret_key := sample_view;
     first_record := sample_record;
     m_wallet_records := {[record_spend_public_key sample_record := sample_record]};
     m_oldest_timestamp := 5; m_tx_derivation_seed := null_hash |}.


Definition some_of {A} (r : result (option A)) (d : A) : A := match r with Ok (Some a) => a | _ => d end.

(** The sender's transaction key, and the output it makes for the wallet. *)
Definition sample_tx_secret : SecretKey := small_scalar 4.
Definition sample_tx_public : PublicKey := sample_public sample_tx_secret.
Definition sample_derivation : KeyDerivation :=
  some_of (generate_key_derivation (m_view_public_key sample_keys) sample_tx_secret) null_hash.
Definition sample_output_key : PublicKey :=
  some_of (Crypto.derive_public_key sum_hash sample_derivation 0 (record_spend_public_key sample_record)) null_hash.
Definition sample_tx : TransactionPrefix :=
  {| version := 1; unlock_time := 0; inputs := [KeyInput 600 [3] (replicate 32 8)];
     outputs := [{| out_amount := 500; out_target := KeyOutput sample_output_key |}];
     extra := 1 :: sample_tx_public |}.
Definition sample_tid : Hash := replicate 32 7.

Definition state_0 : State memory_db :=
  run (make_State mainnet sum_hash (λ _, []) wallet_0 sample_keys [])
    {| main := {| basic := no_wallet; m_wallet := sample_keys |}; m_tx_pool_version := 0; m_pq_version := 0;
       m_memory_state := no_delta; m_pool_hashes := ∅; payment_queue := ∅ |}.
Definition state_1 : State memory_db :=
  run (for_each (happen mainnet sum_hash (λ _, [])) [PoolChanges [] [sample_tx] [sample_tid] 2] state_0) state_0.

(** The payment arrives, and leaves the pool again. *)
Lemma pool_is_consistent_witness :
  let s := m_memory_state state_1 in
  ((∀ ki, m_used_keyimages s !! ki =
     let n := total (uses ki) (m_transactions s) in if decide (n = 0%nat) then None else Some (Z.of_nat n)) ∧
   (∀ tid, is_Some (m_transactions s !! tid) →
     tid ∈ m_pool_hashes state_1 ∨ ∃ e, payment_queue state_1 !! tid = Some e ∧ in_blockchain e = false) ∧
   (∀ tid, ∃ d, Delta.undo_transaction s tid = Ok d ∧ pool_ok d ∧ m_transactions d = delete tid (m_transactions s)) ∧
   (m_transactions s = ∅ → s = no_delta)) ∧
  m_used_keyimages s = {[replicate 32 8 := 1]} ∧
  o_amount <$> default [] (m_unspents s !! sample_output_key) = [500] ∧
  Delta.undo_transaction s sample_tid = Ok no_delta.
Proof.
  split; [|split; [|split]].
  - apply (pool_is_consistent mainnet sum_hash (λ _, []) wallet_0 sample_keys [] [PoolChanges [] [sample_tx] [sample_tid] 2] state_0);
      apply run_ok; vm_compute; reflexivity.
  - vm_compute. reflexivity.
  - vm_compute. reflexivity.
  - vm_compute. reflexivity.
Defined.

End WalletPool.
