(* ===== verification/RandomOutputs.v ===== *)
(** * Outputs to hide among (src/src/Core/BlockChainState.cpp: [get_random_outputs];
    Node.cpp: [on_get_random_outputs3])

    The node offers outputs of an amount that are unspent, confirmed and
    unlocked: all of them if there are few, else drawn by a distribution that
    favours recent ones.  What the distribution gives is an argument: [draw k n]
    is [d_num] of the attempt [k] among [n] outputs. *)

From S2P Require Import Prelude Containers CryptoNote Currency ChainState WalletData.
Import Containers CryptoNote Currency ChainState.

Local Open Scope Z_scope.

Module RandomOutputs.

(** [api::Output] of an output of the chain, the other fields as they are
    initialized. *)
Definition item (amount global_index : Z) (unp : ChainState.Output) : WalletData.Output :=
  {| WalletData.o_amount := amount; WalletData.o_public_key := o_public_key unp;
     WalletData.o_global_index := global_index; WalletData.o_unlock_time := o_unlock_time unp;
     WalletData.o_index_in_transaction := 0; WalletData.o_height := o_height unp;
     WalletData.o_key_image := null_hash; WalletData.o_transaction_public_key := null_hash;
     WalletData.o_address := []; WalletData.o_dust := false |}.

(** [static_cast<int32_t>]. *)
Definition i32 (z : Z) : Z := (z + 2 ^ 31) mod 2 ^ 32 - 2 ^ 31.

Section random.
Context {S : Type} `{IBlockChainState S} (currency : Currency) (state : S).

Section amount.
Context (amount : Amount) (height : Height) (time : Timestamp).

(** The output is read and pushed, or left out. *)
Definition offer (num : Z) : result (list WalletData.Output) :=
  found ← read_amount_output state amount num;
  unp ← of_option found (Throw "num < total_count not found");
  if o_spent unp || (height <? o_height unp) then Ok []
  else if negb (is_transaction_spend_time_unlocked currency (o_unlock_time unp) height time) then Ok []
  else Ok [item amount num unp].

Fixpoint offer_all (nums : list Z) : result (list WalletData.Output) :=
  match nums with
  | [] => Ok []
  | num :: nums => o ← offer num; rest ← offer_all nums; Ok (o ++ rest)
  end.

(** The attempts, [n] of them left after [attempts]. *)
Fixpoint draw_outputs (draw : nat → Z → Z) (total_count outs_count : Z) (n attempts : nat) (tried_or_added : gset Z)
    (res : list WalletData.Output) : result (list WalletData.Output) :=
  match n with
  | O => Ok res
  | Datatypes.S n =>
    if Z.of_nat (length res) <? outs_count then
      let d_num := draw attempts total_count in
      if (d_num <? 0) || (total_count <=? d_num) || bool_decide (d_num ∈ tried_or_added)
      then draw_outputs draw total_count outs_count n (Datatypes.S attempts) tried_or_added res
      else
        o ← offer d_num;
        draw_outputs draw total_count outs_count n (Datatypes.S attempts) (tried_or_added ∪ {[d_num]}) (res ++ o)
    else Ok res
  end.

(** [int(total_count)] is negative from [2 ^ 31] on: then no draw is used. *)
Definition get_random_outputs (draw : nat → Z → Z) (outs_count : Z) : result (list WalletData.Output) :=
  total_count ← next_global_index_for_amount state amount;
  if total_count <=? outs_count then offer_all (seqZ 0 total_count)
  else if 2 ^ 31 <=? total_count then Ok []
  else draw_outputs draw total_count outs_count (Z.to_nat (outs_count * 20)) 0 ∅ [].

End amount.

(** [confirmed_height_or_depth < 0] counts from the tip: [int] arithmetic. *)
Definition from_tip (tip_height : Height) (height_or_depth : Z) : Z :=
  Z.max 0 (i32 tip_height + 1 + height_or_depth).

(** One amount of the request, the [k]-th. *)
Definition offer_amount (draws : nat → nat → Z → Z) (outs_count : Z) (height : Height) (time : Timestamp)
    (st : gmap Amount (list WalletData.Output) * nat) (amount : Amount) :
    result (gmap Amount (list WalletData.Output) * nat) :=
  let '(response, k) := st in
  random_outputs ← get_random_outputs amount height time (draws k) outs_count;
  Ok (<[amount := default [] (response !! amount) ++ random_outputs]> response, Datatypes.S k).

Definition on_get_random_outputs3 (draws : nat → nat → Z → Z) (tip_height : Height) (tip_timestamp : Timestamp)
    (amounts : list Amount) (outs_count confirmed_height_or_depth : Z) :
    result (gmap Amount (list WalletData.Output)) :=
  let height := u32 (if confirmed_height_or_depth <? 0 then from_tip tip_height confirmed_height_or_depth
                     else confirmed_height_or_depth) in
  '(response, _) ← for_each (offer_amount draws outs_count height tip_timestamp) amounts (∅, 0%nat);
  Ok response.

End random.
End RandomOutputs.
