(* ===== verification/RandomOutputsLaws.v ===== *)
(** * Outputs to hide among: theorems

    On a chain whose outputs are numbered without gaps, the node always answers,
    and what it offers are distinct outputs that may be spent at its tip. *)

From S2P Require Import Prelude Containers CryptoNote Currency ChainState Crypto WalletData RandomOutputs.
Import Containers CryptoNote Currency ChainState RandomOutputs.

Local Open Scope Z_scope.

Module RandomOutputsLaws.

(** What a chain promises to those who read its outputs. *)
Record numbered {S} `{IBlockChainState S} (state : S) (good : PublicKey → Prop) : Prop := {
  nu_count amount : ∃ n, next_global_index_for_amount state amount = Ok n ∧ 0 ≤ n < 2 ^ 31;
  nu_outputs amount n i : next_global_index_for_amount state amount = Ok n → 0 ≤ i < n →
    ∃ unp, read_amount_output state amount i = Ok (Some unp) ∧ good (o_public_key unp);
}.

Section laws.
Context {S : Type} `{IBlockChainState S} (currency : Currency) (state : S) (good : PublicKey → Prop).
Hypothesis state_numbered : numbered state good.

Definition gi : WalletData.Output → Z := WalletData.o_global_index.

(** An output that is offered: as the chain has it, unspent, confirmed and unlocked. *)
Definition offered (amount : Amount) (height : Height) (time : Timestamp) (o : WalletData.Output) : Prop :=
  0 ≤ gi o < 2 ^ 31 ∧
  ∃ unp, read_amount_output state amount (gi o) = Ok (Some unp) ∧ good (o_public_key unp) ∧
    o = item amount (gi o) unp ∧ o_spent unp = false ∧ o_height unp ≤ height ∧
    is_transaction_spend_time_unlocked currency (o_unlock_time unp) height time = true.

Section amount.
Context (amount : Amount) (height : Height) (time : Timestamp).
Abbreviation offer := (offer currency state amount height time).
Abbreviation offered := (offered amount height time).

Lemma offer_ok n num : next_global_index_for_amount state amount = Ok n → 0 ≤ num < n →
  ∃ os, offer num = Ok os ∧ Forall offered os ∧ (os = [] ∨ gi <$> os = [num]).
Proof using state_numbered.
  intros Hn Hnum. destruct (nu_count _ _ state_numbered amount) as (n' & Hn' & Hb). rewrite Hn in Hn'. injection Hn' as <-.
  destruct (nu_outputs _ _ state_numbered amount n num Hn Hnum) as (unp & Hr & Hg).
  unfold RandomOutputs.offer. rewrite Hr. cbn [mbind result_bind of_option].
  destruct (o_spent unp) eqn:Hs; cbn [orb]; [exists []; split_and!; [done|constructor|by left]|].
  destruct (Z.ltb_spec height (o_height unp)); [exists []; split_and!; [done|constructor|by left]|].
  destruct (is_transaction_spend_time_unlocked _ _ _ _) eqn:Hu; cbn [negb]; [|exists []; split_and!; [done|constructor|by left]].
  exists [item amount num unp]. split; [done|]. split; [|by right]. constructor; [|constructor].
  split; [cbn; lia|]. by exists unp.
Qed.

Lemma offer_all_ok n nums : next_global_index_for_amount state amount = Ok n → Forall (λ i, 0 ≤ i < n) nums →
  ∃ os, offer_all currency state amount height time nums = Ok os ∧ Forall offered os ∧ sublist (gi <$> os) nums.
Proof using state_numbered.
  intros Hn. induction 1 as [|num nums Hnum _ (os & Hall & Ho & Hs)]; cbn [offer_all].
  { exists []. split_and!; constructor. }
  destruct (offer_ok n num Hn Hnum) as (o & -> & Hoo & Hgi). rewrite Hall. cbn [mbind result_bind].
  exists (o ++ os). split; [done|]. split; [by apply Forall_app|]. rewrite fmap_app.
  destruct Hgi as [->| ->]; by constructor.
Qed.

Lemma draw_outputs_ok draw n outs_count left attempts tried res :
  next_global_index_for_amount state amount = Ok n →
  Forall offered res → NoDup (gi <$> res) → (∀ o, o ∈ res → gi o ∈ tried) → Z.of_nat (length res) ≤ outs_count →
  ∃ os, draw_outputs currency state amount height time draw n outs_count left attempts tried res = Ok os ∧
    Forall offered os ∧ NoDup (gi <$> os) ∧ Z.of_nat (length os) ≤ outs_count.
Proof using state_numbered.
  intros Hn. revert attempts tried res. induction left as [|left IH]; intros attempts tried res Hres Hnd Htr Hl; cbn [draw_outputs].
  { by exists res. }
  destruct (Z.ltb_spec (Z.of_nat (length res)) outs_count) as [Hlt|]; [|by exists res].
  set (d := draw attempts n). destruct ((d <? 0) || (n <=? d) || bool_decide (d ∈ tried)) eqn:Hd; [by apply IH|].
  apply orb_false_iff in Hd as [[Hd0 Hd1]%orb_false_iff Hdt%bool_decide_eq_false].
  destruct (offer_ok n d Hn) as (o & -> & Ho & Hgi); [lia|]. cbn [mbind result_bind].
  apply IH.
  - by apply Forall_app.
  - rewrite fmap_app. destruct Hgi as [->| ->]; [by rewrite app_nil_r|]. apply NoDup_app. split; [done|].
    split; [|apply NoDup_singleton]. intros x (o' & Hx & Ho')%list_elem_of_fmap Hxd%list_elem_of_singleton.
    apply Hdt. rewrite <- Hxd, Hx. by apply Htr.
  - intros o' [Ho'|Ho']%elem_of_app; [set_solver|]. destruct Hgi as [->|Hgi]; [by apply elem_of_nil in Ho'|].
    pose proof (list_elem_of_fmap_2 gi _ _ Ho') as Hin. rewrite Hgi in Hin. apply list_elem_of_singleton in Hin. set_solver.
  - rewrite length_app. destruct Hgi as [->|Hgi]; [cbn; lia|]. apply (f_equal length) in Hgi. rewrite length_fmap in Hgi.
    cbn in Hgi. lia.
Qed.

Lemma random_outputs_ok draw outs_count : 0 ≤ outs_count →
  ∃ os, get_random_outputs currency state amount height time draw outs_count = Ok os ∧ Forall offered os ∧
    NoDup (gi <$> os) ∧ Z.of_nat (length os) ≤ outs_count.
Proof using state_numbered.
  intros Hc. destruct (nu_count _ _ state_numbered amount) as (n & Hn & Hb). unfold get_random_outputs. rewrite Hn.
  cbn [mbind result_bind]. destruct (Z.leb_spec n outs_count) as [Hle|Hlt].
  - destruct (offer_all_ok n (seqZ 0 n) Hn) as (os & -> & Ho & Hs).
    { apply Forall_forall. intros i Hi%elem_of_seqZ. lia. }
    exists os. split; [done|]. split; [done|]. split; [eapply sublist_NoDup; [apply NoDup_seqZ|exact Hs]|].
    apply sublist_length in Hs. rewrite length_fmap, length_seqZ in Hs. lia.
  - replace (2 ^ 31 <=? n) with false by lia.
    apply (draw_outputs_ok draw n outs_count _ _ ∅ [] Hn); cbn; [constructor|constructor|by intros ? ?%elem_of_nil|lia].
Qed.

End amount.

(** The whole answer, amount by amount. *)
Lemma random_response_ok draws tip_height tip_timestamp amounts outs_count confirmed :
  0 ≤ outs_count →
  let height := u32 (if confirmed <? 0 then from_tip tip_height confirmed else confirmed) in
  ∃ ra, on_get_random_outputs3 currency state draws tip_height tip_timestamp amounts outs_count confirmed = Ok ra ∧
    ∀ amount l, ra !! amount = Some l → Forall (offered amount height tip_timestamp) l.
Proof using state_numbered.
  intros Hc. cbn zeta. unfold on_get_random_outputs3. set (height := u32 _).
  set (good_answer := λ ra : gmap Amount (list WalletData.Output),
    ∀ amount l, ra !! amount = Some l → Forall (offered amount height tip_timestamp) l).
  enough (∀ ra k, good_answer ra → ∃ ra' k',
    for_each (offer_amount currency state draws outs_count height tip_timestamp) amounts (ra, k) = Ok (ra', k') ∧
    good_answer ra') as Hall.
  { destruct (Hall ∅ 0%nat) as (ra & k & -> & Hra); [by intros ? ? ?%lookup_empty_Some|]. by exists ra. }
  induction amounts as [|amount amounts IH]; intros ra k Hra; cbn [for_each]; [by exists ra, k|].
  destruct (random_outputs_ok amount height tip_timestamp (draws k) outs_count Hc) as (os & Hos & Ho & _).
  assert (offer_amount currency state draws outs_count height tip_timestamp (ra, k) amount =
    Ok (<[amount := default [] (ra !! amount) ++ os]> ra, Datatypes.S k)) as ->
    by (unfold offer_amount; by rewrite Hos).
  cbn [mbind result_bind]. apply IH. intros a l. destruct (decide (a = amount)) as [->|Hne].
  - rewrite lookup_insert_eq. intros [= <-]. apply Forall_app. split; [|done].
    destruct (ra !! amount) as [l|] eqn:El; [by apply Hra|constructor].
  - rewrite lookup_insert_ne by done. apply Hra.
Qed.

End laws.
End RandomOutputsLaws.
