(* ===== verification/WalletNode.v ===== *)
(** * The wallet's service (src/src/Core/WalletNode.cpp, with the node in the
    same process; [generate_new_addresses] of Wallet.cpp)

    The handlers over the wallet's state: reports, new addresses, and above all
    [create_transaction], which checks a request, gathers and selects coins,
    asks the node for outputs to hide among, and builds and signs.

    A [throw] is a [Throw] with the message.  The HTTP and JSON envelopes and the
    files are left out: [save_history] is an argument. *)

From S2P Require Import Prelude Varint Containers Words Seria Text CryptoNote TransactionExtra Amounts Blocks Currency Db Store Headers ChainState Crypto WalletData Wallet Selector Builder WalletSyncing RandomOutputs.
Import Containers Codec CryptoNote TransactionExtra Amounts Currency Db Headers Crypto WalletData Wallet Builder WalletSyncing RandomOutputs.

Local Open Scope Z_scope.

Module WalletNode.

(** ** Messages *)

(** [walletd::CreateTransaction::Request] and [Response]. *)
Record CreateTransaction := {
  transaction : api_Transaction;
  spend_addresses : list (list Z);
  any_spend_address : bool;
  change_address : list Z;
  confirmed_height_or_depth : Z;
  fee_per_byte : Z;
  optimization : string;
  save_history : bool;
  prevent_conflict_with_transactions : list Hash;
}.

Record Created := {
  binary_transaction : BinaryArray;
  created_transaction : api_Transaction;
  save_history_error : bool;
  transactions_required : list Hash;
}.

(** [walletd::GetStatus::Request] and [Response]. *)
Record StatusRequest := {
  top_block_hash : Hash;
  transaction_pool_version : Z;
  outgoing_peer_count : Z;
  incoming_peer_count : Z;
  lower_level_error : list Z;
}.
Global Instance StatusRequest_eq_dec : EqDecision StatusRequest.
Proof. solve_decision. Defined.

Record Status := {
  status_request : StatusRequest;
  top_block_height : Height;
  top_known_block_height : Height;
  top_block_difficulty : Z;
  recommended_fee_per_byte : Amount;
  top_block_timestamp : Timestamp;
  top_block_timestamp_median : Timestamp;
  next_block_effective_median_size : Z;
}.

(** [api::BlockHeader{}] with a height. *)
Definition pool_header (height : Height) : api_BlockHeader :=
  {| bh_major_version := 0; bh_minor_version := 0; bh_timestamp := 0; bh_previous_block_hash := null_hash;
     bh_nonce := 0; bh_height := height; bh_hash := null_hash; bh_reward := 0; bh_cumulative_difficulty := 0;
     bh_difficulty := 0; bh_base_reward := 0; bh_block_size := 0; bh_transactions_cumulative_size := 0;
     bh_already_generated_coins := 0; bh_already_generated_transactions := 0; bh_size_median := 0;
     bh_effective_size_median := 0; bh_timestamp_median := 0; bh_total_fee_amount := 0 |}.

Section node.
Context {D : Type} `{Lmdb D} `{Curve} (currency : Currency) (cn_fast_hash : list Z → Hash).
Context (load_history : Hash → list AccountPublicAddress).
Abbreviation S := (State D).

Definition tip_block_height (s : S) : Height := WalletSyncing.tip_height s.
Definition records (s : S) : gmap PublicKey WalletRecord := m_wallet_records (m_wallet (main s)).
Definition parse_address (str : list Z) : result (option AccountPublicAddress) :=
  parse_account_address_string cn_fast_hash currency key_isvalid str.

(** ** Reports *)

Definition create_status_response3 (s : S) (m_last_node_status : Status) (m_sync_error : list Z) : Status :=
  let no_chain := WalletSyncing.tip_height s =? UINT32_MAX in
  {| status_request :=
       {| top_block_hash := if no_chain then genesis_block_hash currency else bh_hash (tip s);
          transaction_pool_version := u32 (m_tx_pool_version s + m_pq_version s);
          outgoing_peer_count := outgoing_peer_count (status_request m_last_node_status);
          incoming_peer_count := incoming_peer_count (status_request m_last_node_status);
          lower_level_error := m_sync_error |};
     top_block_height := if no_chain then 0 else WalletSyncing.tip_height s;
     top_known_block_height := top_known_block_height m_last_node_status;
     top_block_difficulty := top_block_difficulty m_last_node_status;
     recommended_fee_per_byte := recommended_fee_per_byte m_last_node_status;
     top_block_timestamp :=
       if no_chain then Blocks.timestamp (Blocks.header (genesis_block_template currency)) else bh_timestamp (tip s);
     top_block_timestamp_median := top_block_timestamp_median m_last_node_status;
     next_block_effective_median_size := next_block_effective_median_size m_last_node_status |}.

(** [None]: the client waits until its status is no longer the current one. *)
Definition handle_get_status3 (s : S) (last_node_status : Status) (sync_error : list Z) (request : StatusRequest) :
    option Status :=
  let response := create_status_response3 s last_node_status sync_error in
  if bool_decide (request = status_request response) then None else Some response.

(** [advance_long_poll]: the clients answered, and those that wait on. *)
Definition advance_long_poll (s : S) (last_node_status : Status) (sync_error : list Z)
    (clients : list (nat * StatusRequest)) : list (nat * Status) * list (nat * StatusRequest) :=
  let resp := create_status_response3 s last_node_status sync_error in
  ((λ c, (c.1, resp)) <$> filter (λ c, c.2 ≠ status_request resp) clients,
   filter (λ c, c.2 = status_request resp) clients).

Definition get_first_address (k : Keys) : AccountPublicAddress :=
  {| spend_public_key := record_spend_public_key (first_record k); view_public_key := m_view_public_key k |}.

(** The order of the records of an unordered map is an argument. *)
Definition handle_get_addresses3 (s : S) (order : list WalletRecord) : result (bool * list (list Z)) :=
  let k := m_wallet (main s) in
  let fa := get_first_address k in
  first ← account_address_as_string cn_fast_hash currency fa;
  addresses ← for_each (λ l wc,
      let addr := {| spend_public_key := record_spend_public_key wc; view_public_key := m_view_public_key k |} in
      if bool_decide (addr = fa) then Ok l
      else str ← account_address_as_string cn_fast_hash currency addr; Ok (l ++ [str])) order [first];
  Ok (is_view_only k, addresses).

Definition check_address_in_wallet_or_throw (s : S) (addr : list Z) : result () :=
  if bool_decide (addr = []) then Ok () else
  address ← parse_address addr;
  match address with
  | None => Throw "Failed to parse address"
  | Some address =>
    if negb (bool_decide (m_view_public_key (m_wallet (main s)) = view_public_key address)) ||
       bool_decide (records s !! spend_public_key address = None)
    then Throw "Cannot get balance for address not in a wallet"
    else Ok ()
  end.

Definition fix_height_or_depth (ha : Z) (tip_height : Height) (max_depth : Z) : result Z :=
  let ha := if ha <? 0 then from_tip tip_height ha else ha in
  if u32 (ha + max_depth) <? tip_height
  then Throw "height_or_depth cannot be deeper than 128 blocks before top blocks"
  else Ok (if i32 tip_height <? ha then i32 tip_height else ha).

Definition handle_get_balance3 (s : S) (address : list Z) (height_or_depth : Z) : result Balance :=
  check_address_in_wallet_or_throw s address;;
  h ← fix_height_or_depth height_or_depth (WalletSyncing.tip_height s) 128;
  WalletSyncing.get_balance s address (u32 h).

(** [api_add_unspent] of the wallet, its pool hiding what it spends. *)
Definition add_unspent (s : S) (st : list Output * Amount) (address : list Z) (height : Height) (max_amount : Amount) :
    result (bool * (list Output * Amount)) :=
  Wallet.api_add_unspent (get_used_key_images s) (basic (main s)) st.1 st.2 address height max_amount.

Definition handle_get_unspent3 (s : S) (address : list Z) (height_or_depth : Z) : result (list Output * list Output) :=
  check_address_in_wallet_or_throw s address;;
  h ← fix_height_or_depth height_or_depth (WalletSyncing.tip_height s) 128;
  '(_, (spendable, _)) ← add_unspent s ([], 0) address (u32 h) UINT64_MAX;
  locked ← WalletSyncing.api_get_locked_or_unconfirmed_unspent s address (u32 h);
  Ok (spendable, locked).

(** The blocks with the pool as the last of them, the heights to go on from,
    and the transfers unlocked in between. *)
Definition handle_get_transfers3 (s : S) (address : list Z) (from to : Height) (forward : bool)
    (desired_transactions_count : Z) : result (list api_Block * Height * Height * list Transfer) :=
  check_address_in_wallet_or_throw s address;;
  '(blocks, from', to') ← api_get_transfers (basic (main s)) address from to forward desired_transactions_count;
  let tip_height := WalletSyncing.tip_height s in
  let pool := api_get_pool_as_history s address in
  let blocks :=
    if (from' <? tip_height) && (tip_height <=? to') && negb (bool_decide (pool.2 = [])) then
      let pool_block := {| b_header := pool_header pool.1; b_transactions := pool.2 |} in
      if forward then blocks ++ [pool_block] else pool_block :: blocks
    else blocks in
  unlocked ← api_get_unlocked_outputs (basic (main s)) address from' to';
  Ok (blocks, if forward then to' else from, if forward then to else from',
      (λ lou, {| tr_address := o_address lou.2; tr_amount := i64 (o_amount lou.2); tr_ours := true;
                 tr_locked := false; tr_outputs := [lou.2] |}) <$> map_entries unlocked).

Definition handle_get_transaction3 (s : S) (hash : Hash) : result api_Transaction :=
  found ← WalletSyncing.api_get_transaction s hash true;
  Ok (match found with Some (_, ptx) => ptx | None => no_transaction end).

(** The proofs, before they are written as JSON. *)
Definition sendproof_addresses (s : S) (transaction_hash : Hash) (request_addresses : list (list Z)) :
    result (gset AccountPublicAddress) :=
  let own := m_view_public_key (m_wallet (main s)) in
  let from_history :=
    if bool_decide (request_addresses = [])
    then list_to_set (filter (λ a, own ≠ view_public_key a) (load_history transaction_hash)) else ∅ in
  for_each (λ addresses addr,
      address ← parse_address addr;
      match address with
      | None => Throw "Address failed to parse"
      | Some address => Ok (addresses ∪ {[address]})
      end) request_addresses from_history.

Definition handle_create_sendproof3 (s : S) (transaction_hash : Hash) (message : list Z) (request_addresses : list (list Z))
    (tmp : nat → list Z) : result (list SendProof) :=
  addresses ← sendproof_addresses s transaction_hash request_addresses;
  '(proofs, _) ← for_each (λ '(proofs, i) address,
      proof ← api_create_proof cn_fast_hash s
        {| sp_transaction_hash := transaction_hash; sp_address := address; sp_amount := 0; sp_message := message;
           sp_derivation := null_hash; sp_signature := replicate 64 0 |} (tmp i);
      Ok (match proof with Some p => proofs ++ [p] | None => proofs end, Datatypes.S i))
    (set_items addresses) ([], 0%nat);
  Ok proofs.

(** ** Creating transactions *)

(** What the checks of a request make of it. *)
Record Checked := {
  ck_height : Z;
  ck_fee_per_byte : Amount;
  ck_change_addr : AccountPublicAddress;
  ck_only_records : gmap PublicKey WalletRecord;
}.

Definition required_transactions (s : S) (rq : CreateTransaction) : list Hash :=
  filter (λ tid, api_has_transaction s tid true = false) (prevent_conflict_with_transactions rq).

Definition only_record (s : S) (only_records : gmap PublicKey WalletRecord) (ad : list Z) :
    result (gmap PublicKey WalletRecord) :=
  addr ← parse_address ad;
  match addr with
  | None => Throw "Failed to parse change address"
  | Some addr => of_option (get_only_record (m_wallet (main s)) only_records addr) (Throw "Spend address does not belong to wallet")
  end.

Definition check_request (s : S) (m_last_node_status : Status) (rq : CreateTransaction) : result Checked :=
  check (negb (next_block_effective_median_size m_last_node_status =? 0))
    "Next block median size unknown, need to sync to cryonerod";;
  let tip_height := WalletSyncing.tip_height s in
  let height := if confirmed_height_or_depth rq <? 0 then from_tip tip_height (confirmed_height_or_depth rq)
                else confirmed_height_or_depth rq in
  check (height <=? i32 tip_height) "'confirmed_height_or_depth' cannot be larger than top block height";;
  let fee_per_byte := if fee_per_byte rq =? 0 then i64 (recommended_fee_per_byte m_last_node_status)
                      else fee_per_byte rq in
  check (negb (fee_per_byte =? 0)) "'fee_per_byte' set to 0";;
  check (negb (is_view_only (m_wallet (main s)))) "Unable to create transaction - view-only wallet";;
  change_addr ← parse_address (change_address rq);
  change_addr ← of_option change_addr (Throw "Failed to parse change address");
  check (negb (bool_decide (spend_addresses rq = []) && negb (any_spend_address rq)))
    "Empty spend addresses requires setting 'any_spend_address':true for additional protection";;
  check (negb (negb (bool_decide (spend_addresses rq = [])) && any_spend_address rq))
    "Non-empty spend addresses requires setting 'any_spend_address':false for additional protection";;
  only_records ← for_each (only_record s) (spend_addresses rq) ∅;
  Ok {| ck_height := height; ck_fee_per_byte := u64 fee_per_byte; ck_change_addr := change_addr;
        ck_only_records := only_records |}.

(** [combined_outputs], [history] and [sum_positive_transfers]. *)
Abbreviation Combined := (gmap AccountPublicAddress Amount).

Definition add_to_address (combined : Combined) (addr : AccountPublicAddress) (amount : Z) : Combined :=
  <[addr := u64 (default 0 (combined !! addr) + amount)]> combined.

Definition add_transfer (st : Combined * gset AccountPublicAddress * Amount) (tr : Transfer) :
    result (Combined * gset AccountPublicAddress * Amount) :=
  let '(combined_outputs, history, sum_positive_transfers) := st in
  check (0 <? tr_amount tr) "Negative transfer amount";;
  addr ← parse_address (tr_address tr);
  addr ← of_option addr (Throw "Failed to parse address");
  Ok (add_to_address combined_outputs addr (tr_amount tr), history ∪ {[addr]},
      u64 (sum_positive_transfers + tr_amount tr)).

(** The amounts of every address, split into round outputs. *)
Definition decomposed_outputs (combined : Combined) : result (list (AccountPublicAddress * list Amount)) :=
  for_each (λ l aa, amounts ← decompose_amount aa.2 (default_dust_threshold currency); Ok (l ++ [(aa.1, amounts)]))
    (map_entries combined) [].

(** The coins: until there are enough, or all of them. *)
Fixpoint gather_enough (s : S) (addresses : list (list Z)) (height : Height) (max_amount : Amount)
    (st : list Output * Amount) : result (list Output * Amount) :=
  match addresses with
  | [] => Ok st
  | ad :: addresses =>
    '(go_on, st) ← add_unspent s st ad height max_amount;
    if go_on : bool then gather_enough s addresses height max_amount st else Ok st
  end.

Definition gather_all (s : S) (addresses : list (list Z)) (height : Height) : result (list Output * Amount) :=
  for_each (λ st ad, '(_, st) ← add_unspent s st ad height UINT64_MAX; Ok st) addresses ([], 0).

(** [std::string()] stands for all addresses. *)
Definition addresses_of (rq : CreateTransaction) : list (list Z) :=
  if bool_decide (spend_addresses rq = []) then [[]] else spend_addresses rq.

(** Rounds enough for any fee the loop of the selector can get to. *)
Definition selection_fuel (fee_per_byte effective_median_size : Z) : nat :=
  Datatypes.S (200 + Z.to_nat ((minimum_fee currency +
    fee_per_byte * (120 * effective_median_size / 100) + default_dust_threshold currency)
      / default_dust_threshold currency)).

Definition select_coins (s : S) (m_last_node_status : Status) (rq : CreateTransaction) (ck : Checked)
    (sum_positive_transfers total_outputs : Z) : result (Selector.State * Amount) :=
  let median := next_block_effective_median_size m_last_node_status in
  let optimization := if t_unlock_time (transaction rq) =? 0 then optimization rq else "minimal"%string in
  let height := u32 (ck_height ck) in
  let select us :=
    Selector.select_optimal_outputs currency (selection_fuel (ck_fee_per_byte ck) median)
      (WalletSyncing.tip_height s) (bh_timestamp (tip s)) height median (t_anonymity (transaction rq))
      sum_positive_transfers total_outputs (ck_fee_per_byte ck) optimization (Selector.reset us) in
  '(unspents, _) ← gather_enough s (addresses_of rq) height (u64 (sum_positive_transfers * 2)) ([], 0);
  '(selector, answer) ← select unspents;
  match answer with
  | Selector.Selected change => Ok (selector, change)
  | Selector.Failed _ =>
    '(unspents, _) ← gather_all s (addresses_of rq) height;
    '(selector, answer) ← select unspents;
    match answer with
    | Selector.Selected change => Ok (selector, change)
    | Selector.Failed error => Throw ("Outputs cannot be selected for transaction " ++ error)
    end
  end.

Definition add_outputs (outs : list (AccountPublicAddress * list Amount)) (b : TransactionBuilder) : TransactionBuilder :=
  foldl (λ b aa, foldl (λ b da, (add_output b da aa.1).1) b aa.2) b outs.

Section create.
(** The order [std::sort] leaves equal elements in; shuffles and random bytes. *)
Context (sort_outputs : list Output → list Output) (rnd : nat → list Z).
Context (shuffle_outputs : list OutputDesc → list OutputDesc) (shuffle_inputs : list InputDesc → list InputDesc).
Context (save_history_file : Hash → gset AccountPublicAddress → bool).

(** The request, up to the question to the node: the builder, the selector, the
    addresses paid. *)
Definition start_transaction (s : S) (m_last_node_status : Status) (rq : CreateTransaction) (ck : Checked) :
    result (TransactionBuilder * Selector.State * gset AccountPublicAddress) :=
  let builder := make_TransactionBuilder currency (t_unlock_time (transaction rq)) in
  builder ← (if bool_decide (t_payment_id (transaction rq) = null_hash) then Ok builder
             else set_payment_id builder (t_payment_id (transaction rq)));
  '(combined_outputs, history, sum_positive_transfers) ←
    for_each add_transfer (t_transfers (transaction rq)) (∅, ∅, 0);
  decomposed ← decomposed_outputs combined_outputs;
  let total_outputs := sum_list_with (λ aa, length aa.2) decomposed in
  check (negb (sum_positive_transfers =? 0)) "Sum of amounts of all outgoing transfers cannot be 0";;
  '(selector, change) ← select_coins s m_last_node_status rq ck sum_positive_transfers (Z.of_nat total_outputs);
  let combined_outputs := if 0 <? change then add_to_address combined_outputs (ck_change_addr ck) change
                          else combined_outputs in
  let history := if 0 <? change then history ∪ {[ck_change_addr ck]} else history in
  decomposed ← decomposed_outputs combined_outputs;
  Ok (add_outputs decomposed builder, selector, history).

(** What is done with the node's answer. *)
Definition finish_transaction (s : S) (rq : CreateTransaction) (ck : Checked) (builder : TransactionBuilder)
    (selector : Selector.State) (ra_response : gmap Amount (list Output)) : result Transaction :=
  builder ← add_mixed_inputs cn_fast_hash sort_outputs currency (m_view_secret_key (m_wallet (main s)))
    (if any_spend_address rq then records s else ck_only_records ck) (t_anonymity (transaction rq)) selector builder
    ra_response;
  '(tx, _, _) ← sign cn_fast_hash rnd shuffle_outputs shuffle_inputs builder (m_tx_derivation_seed (m_wallet (main s))) 0;
  Ok tx.

Definition describe_transaction (s : S) (rq : CreateTransaction) (history : gset AccountPublicAddress) (tx : Transaction) :
    result Created :=
  binary ← to_binary ser_Transaction tx;
  transaction_hash ← Blocks.get_transaction_hash cn_fast_hash tx;
  ptx ← parse_sent_transaction currency cn_fast_hash load_history s (tx_prefix tx) transaction_hash;
  Ok {| binary_transaction := binary; created_transaction := ptx;
        save_history_error := save_history rq && negb (save_history_file transaction_hash history);
        transactions_required := [] |}.

(** The node is in the same process: [chain] is its state, with tip and the
    draws of its distribution. *)
Section inproc.
Context {C : Type} `{ChainState.IBlockChainState C} (chain : C) (chain_tip_height : Height)
  (chain_tip_timestamp : Timestamp) (draws : nat → nat → Z → Z).

Definition new_transaction (s : S) (m_last_node_status : Status) (rq : CreateTransaction) (ck : Checked) :
    result (Transaction * gset AccountPublicAddress) :=
  '(builder, selector, history) ← start_transaction s m_last_node_status rq ck;
  ra_response ← on_get_random_outputs3 currency chain draws chain_tip_height chain_tip_timestamp
    (Selector.ra_amounts selector) (u32 (t_anonymity (transaction rq) + 1)) (ck_height ck);
  tx ← finish_transaction s rq ck builder selector ra_response;
  Ok (tx, history).

Definition handle_create_transaction3 (s : S) (m_last_node_status : Status) (rq : CreateTransaction) : result Created :=
  let required := required_transactions s rq in
  if negb (bool_decide (required = [])) then
    Ok {| binary_transaction := []; created_transaction := no_transaction; save_history_error := false;
          transactions_required := required |}
  else
    ck ← check_request s m_last_node_status rq;
    '(tx, history) ← new_transaction s m_last_node_status rq ck;
    describe_transaction s rq history tx.

End inproc.
End create.

(** ** New addresses (Wallet.cpp) *)

(** [random_keypair], again while the wallet has the key; [pairs] are the key
    pairs that are drawn. *)
Fixpoint fresh_keypair (known : gmap PublicKey WalletRecord) (pairs : list KeyPair) : result (KeyPair * list KeyPair) :=
  match pairs with
  | [] => Undefined "random_keypair"
  | p :: pairs => if bool_decide (is_Some (known !! public_key p)) then fresh_keypair known pairs else Ok (p, pairs)
  end.

Definition with_records (k : Keys) (first : WalletRecord) (rs : gmap PublicKey WalletRecord) (oldest : Timestamp) : Keys :=
  {| m_view_public_key := m_view_public_key k; m_view_secret_key := m_view_secret_key k; first_record := first;
     m_wallet_records := rs; m_oldest_timestamp := oldest; m_tx_derivation_seed := m_tx_derivation_seed k |}.

Definition created_at (r : WalletRecord) (ts : Timestamp) : WalletRecord :=
  {| record_spend_public_key := record_spend_public_key r; record_spend_secret_key := record_spend_secret_key r;
     creation_timestamp := ts |}.

(** One key of [sks]: the keys, whether to rescan, and what is returned. *)
Record NewAddresses := {
  na_keys : Keys;
  na_rescan_from_ct : bool;
  na_result : list WalletRecord;
  na_pairs : list KeyPair;
}.

Definition new_address (ct now : Timestamp) (st : NewAddresses) (sk : SecretKey) : result NewAddresses :=
  let k := na_keys st in
  '(record, oldest, pairs) ←
    (if bool_decide (sk = null_hash) then
       '(p, pairs) ← fresh_keypair (m_wallet_records k) (na_pairs st);
       Ok ({| record_spend_public_key := public_key p; record_spend_secret_key := secret_key p;
              creation_timestamp := now |}, Z.min (m_oldest_timestamp k) now, pairs)
     else
       pub ← of_option (secret_key_to_public_key sk) (Throw "Imported keypair is invalid");
       Ok ({| record_spend_public_key := pub; record_spend_secret_key := sk; creation_timestamp := ct |},
           m_oldest_timestamp k, na_pairs st));
  let first := first_record k in
  let first := if bool_decide (record_spend_public_key first = record_spend_public_key record) &&
                  (creation_timestamp record <? creation_timestamp first)
               then created_at first (creation_timestamp record) else first in
  match m_wallet_records k !! record_spend_public_key record with
  | Some old =>
    if creation_timestamp record <? creation_timestamp old then
      let old := created_at old (creation_timestamp record) in
      Ok {| na_keys := with_records k first (<[record_spend_public_key record := old]> (m_wallet_records k))
                         (Z.min oldest (creation_timestamp record));
            na_rescan_from_ct := true; na_result := na_result st ++ [old]; na_pairs := pairs |}
    else Ok {| na_keys := with_records k first (m_wallet_records k) oldest;
               na_rescan_from_ct := na_rescan_from_ct st; na_result := na_result st ++ [old]; na_pairs := pairs |}
  | None =>
    Ok {| na_keys := with_records k first (<[record_spend_public_key record := record]> (m_wallet_records k)) oldest;
          na_rescan_from_ct := na_rescan_from_ct st; na_result := na_result st ++ [record]; na_pairs := pairs |}
  end.

Definition generate_new_keys (k : Keys) (sks : list SecretKey) (ct now : Timestamp) (pairs : list KeyPair) :
    result NewAddresses :=
  check (negb (is_view_only k)) "Generate new addresses impossible for view-only wallet";;
  for_each (new_address ct now) sks
    {| na_keys := k; na_rescan_from_ct := false; na_result := []; na_pairs := pairs |}.

(** [WalletState::generate_new_addresses]. *)
Definition generate_new_addresses (s : S) (sks : list SecretKey) (ct now : Timestamp) (pairs : list KeyPair) :
    result (S * list WalletRecord) :=
  r ← generate_new_keys (m_wallet (main s)) sks ct now pairs;
  let s := with_main s {| basic := basic (main s); m_wallet := na_keys r |} in
  s ← (if na_rescan_from_ct r then wallet_addresses_updated currency cn_fast_hash load_history s else Ok s);
  Ok (s, na_result r).

Definition handle_create_address_list3 (s : S) (secret_spend_keys : list SecretKey) (ct now : Timestamp)
    (pairs : list KeyPair) : result (S * (list (list Z) * list SecretKey)) :=
  if bool_decide (secret_spend_keys = []) then Ok (s, ([], [])) else
  check (negb (is_view_only (m_wallet (main s)))) "wallet is view-only, impossible to create addresses";;
  '(s, rs) ← generate_new_addresses s secret_spend_keys ct now pairs;
  addresses ← for_each (λ l rec,
      str ← account_address_as_string cn_fast_hash currency
        {| spend_public_key := record_spend_public_key rec; view_public_key := m_view_public_key (m_wallet (main s)) |};
      Ok (l ++ [str])) rs [];
  Ok (s, (addresses, record_spend_secret_key <$> rs)).

(** A new key that is imported is not scanned for, however old it is. *)
Lemma imported_key_not_rescanned ct now st sk pub st' : sk ≠ null_hash → secret_key_to_public_key sk = Some pub →
  m_wallet_records (na_keys st) !! pub = None → new_address ct now st sk = Ok st' →
  m_wallet_records (na_keys st') !! pub =
    Some {| record_spend_public_key := pub; record_spend_secret_key := sk; creation_timestamp := ct |} ∧
  na_rescan_from_ct st' = na_rescan_from_ct st ∧ m_oldest_timestamp (na_keys st') = m_oldest_timestamp (na_keys st).
Proof.
  intros Hne Hpub Hnew. unfold new_address. rewrite bool_decide_false, Hpub by done. cbn [of_option mbind result_bind].
  cbn [record_spend_public_key]. rewrite Hnew. intros [= <-]. cbn. split; [apply lookup_insert_eq|done].
Qed.

End node.
End WalletNode.
