(* ===== verification/WalletCoins.v ===== *)
(** * Paying from the wallet: the coins

    What [create_transaction] gathers are distinct outputs of the wallet that
    are confirmed and that no waiting transaction spends. *)

From S2P Require Import Prelude Varint Containers Words Seria Text CryptoNote TransactionExtra Amounts Blocks Currency Db Store Headers Crypto WalletData Wallet WalletIndex WalletLaws WalletSpec WalletUnlock Builder WalletSyncing WalletNode.
Import Containers Codec Varint CryptoNote Currency Db Store WalletData Wallet WalletIndex WalletLaws WalletSpec WalletUnlock WalletSyncing WalletNode.

Local Open Scope Z_scope.

Module WalletCoins.

(** Addresses are texts without slashes. *)
Definition plain (a : list Z) : Prop := 47 ∉ a.

Lemma plain_split a b s t : plain a → plain b → a ++ chars "/" ++ s = b ++ chars "/" ++ t → a = b ∧ s = t.
Proof.
  change (chars "/") with [47]. revert b. induction a as [|x a IH]; intros [|y b] Ha Hb Heq; cbn in Heq.
  - by injection Heq.
  - injection Heq as <- _. destruct Hb. by left.
  - injection Heq as -> _. destruct Ha. by left.
  - injection Heq as -> Heq. destruct (IH b) as [-> ->]; [..|exact Heq|done]; unfold plain in *; set_solver.
Qed.

Section laws.
Context {D : Type} `{LmdbLaws D} (currency : Currency).
Abbreviation shows := (shows currency).
Abbreviation enc := (encoding ser_Output).

Definition suffix_of (o : Output) : Key := he_am_gi (o_height o) (o_amount o) (o_global_index o).

Lemma read_output w v o : shows w v → o ∈ v_unspent v →
  read_from_unspent_index w {| height := o_height o; amount := o_amount o; global_index := o_global_index o |} = Ok (Some o).
Proof.
  intros Hs Ho. pose proof (co_outputs _ (sh_ok _ _ _ Hs)) as Hall. apply Forall_app in Hall as [Hall _].
  rewrite Forall_forall in Hall. pose proof (heamgi_ok o (Hall o Ho)) as Hh.
  change {| height := _ |} with (output_heamgi o).
  rewrite (read_unspent currency w v) by (apply Hs || done || (destruct Hs; split; done)).
  unfold find_unspent. destruct (list_find (same_place (output_heamgi o)) (v_unspent v)) as [[i o']|] eqn:Hf.
  - apply list_find_Some in Hf as (Hi & Hp & _). apply list_elem_of_lookup_2 in Hi. cbn. f_equal. f_equal.
    by apply (place_inj currency w v).
  - apply list_find_None in Hf. rewrite Forall_forall in Hf. by destruct (Hf o Ho).
Qed.

(** Entry by entry, the index of an address, or of all, holds outputs. *)
Definition entry_of (v : contents) (a : list Z) (e : Key * Value) (o : Output) : Prop :=
  o ∈ v_unspent v ∧ e.1 = suffix_of o ∧ if bool_decide (a = []) then e.2 = enc o else o_address o = a.

Lemma entries_of w v a S es : shows w v → plain a → Forall (plain ∘ o_address) (v_unspent v) →
  listing (m_db w) (if bool_decide (a = []) then chars "un" else ADDRESS_UNSPENT_prefix a) S es →
  ∃ os, Forall2 (entry_of v a) es os ∧ NoDup os.
Proof.
  intros Hs Ha Hp [Hsort Hes]. destruct (sh_indexes _ _ _ Hs) as [Hun Huh _ _ _ _].
  assert (∀ e, e ∈ es → ∃ o, entry_of v a e o) as Hex.
  { intros [s x] [Hg _]%Hes. unfold entry_of. case_bool_decide as Hnil.
    - apply (index_find (chars "un") unspent_key enc _ _ _ _ Hun) in Hg as (o & Ho & Hk & <-).
      apply app_inv_head in Hk. by exists o.
    - unfold ADDRESS_UNSPENT_prefix in Hg. rewrite <- app_assoc in Hg.
      apply (index_find (chars "uh") address_key (λ _, []) _ _ _ _ Huh) in Hg as (o & Ho & Hk & <-).
      unfold address_key, ADDRESS_UNSPENT_key, ADDRESS_UNSPENT_prefix in Hk. rewrite <- !app_assoc in Hk.
      apply app_inv_head in Hk. rewrite Forall_forall in Hp.
      apply plain_split in Hk as [<- <-]; [|by apply Hp|done]. by exists o. }
  clear Hes. induction Hsort as [|e es Hsort IH Hlt]; [exists []; by split; constructor|].
  destruct IH as (os & Hos & Hnd); [intros e' He'; apply Hex; by right|].
  destruct (Hex e) as (o & Ho); [by left|]. exists (o :: os). split; [by constructor|]. constructor; [|done].
  intros Hin. apply list_elem_of_lookup in Hin as [i Hi].
  destruct (Forall2_lookup_r _ _ _ _ _ Hos Hi) as (e' & He' & (_ & Hk' & _)). destruct Ho as (_ & Hk & _).
  rewrite Forall_forall in Hlt. specialize (Hlt e' (list_elem_of_lookup_2 _ _ _ He')).
  by rewrite Hk, Hk', lex_ltb_irrefl in Hlt.
Qed.

(** An output that may be gathered. *)
Definition available (s : State D) (v : contents) (height : Height) (o : Output) : Prop :=
  o ∈ v_unspent v ∧ o_height o ≤ height ∧ m_used_keyimages (m_memory_state s) !! o_key_image o = None.

Definition of_address (a : list Z) (o : Output) : Prop := a = [] ∨ o_address o = a.

Lemma entry_read {A} (w : WalletState D) (v : contents) (a : list Z) (height : Z) (fn : A → Output → result (bool * A))
    (acc : bool * A) e o : shows w v → entry_of v a e o →
  unspent_entry w a height fn acc e =
    (if o_height o >? height then Ok (false, acc) else '(go_on, x) ← fn acc.2 o; Ok (go_on, (go_on, x))) ∧
  of_address a o.
Proof.
  intros Hs (Ho & Hk & Hx). pose proof (co_outputs _ (sh_ok _ _ _ Hs)) as Hall. apply Forall_app in Hall as [Hall _].
  rewrite Forall_forall in Hall. destruct (output_ranges o (Hall o Ho)) as (_ & Bam & Bgi & Bh).
  unfold unspent_entry. rewrite Hk. unfold suffix_of. rewrite parse_he_am_gi by done. cbn [mbind result_bind].
  case_bool_decide as Hnil.
  - rewrite Hx. destruct (encoding_ok ser_Output o (Hall o Ho)) as (_ & _ & ->). split; [done|by left].
  - rewrite (read_output _ v o Hs Ho). cbn [mbind result_bind of_option]. rewrite bool_decide_true by done.
    split; [done|by right].
Qed.

(** What [api_add_unspent] does with an output. *)
Definition push_unspent (s : State D) (max : Amount) (recently : gmap (Amount * Z) Output) :
    list Output * Amount → Output → result (bool * (list Output * Amount)) := λ '(outs, sum) output,
  if negb (is_memory_spent (get_used_key_images s) output) &&
     bool_decide (recently !! (o_amount output, o_global_index output) = None) then
    let outs := outs ++ [output] in
    let sum := if o_dust output then sum else u64 (sum + o_amount output) in
    Ok (negb ((max <=? sum) && (10000 <=? Z.of_nat (length outs))), (outs, sum))
  else Ok (true, (outs, sum)).

Lemma push_unspent_ok s max recently st o :
  push_unspent s max recently st o = Ok (true, st) ∨
  m_used_keyimages (m_memory_state s) !! o_key_image o = None ∧
  ∃ go_on sum, push_unspent s max recently st o = Ok (go_on, (st.1 ++ [o], sum)).
Proof.
  destruct st as [outs sum]. unfold push_unspent. destruct (_ && _) eqn:Hkeep; [right|by left].
  apply andb_true_iff in Hkeep as [Hmem _]. unfold is_memory_spent in Hmem.
  apply negb_true_iff, bool_decide_eq_false in Hmem. split; [by apply eq_None_not_Some|]. by eexists _, _.
Qed.

Lemma visit_unspent (s : State D) (v : contents) (a : list Z) (height max : Z) (recently : gmap (Amount * Z) Output)
    es os (b0 : bool) st : shows (basic (main s)) v → Forall2 (entry_of v a) es os → NoDup os →
  ∃ b l t, visit (unspent_entry (basic (main s)) a height (push_unspent s max recently)) es (b0, st) =
      Ok (b, (st.1 ++ l, t)) ∧
    NoDup l ∧ l ⊆ os ∧ Forall (λ o, available s v height o ∧ of_address a o) l.
Proof.
  intros Hs Hes. revert b0 st. induction Hes as [|e o es os He Hes IH]; intros b0 st Hnd.
  { exists b0, [], st.2. rewrite app_nil_r, <- surjective_pairing. split_and!; done || constructor. }
  apply NoDup_cons in Hnd as [Hni Hnd]. cbn [visit].
  destruct (entry_read (basic (main s)) v a height (push_unspent s max recently) (b0, st) e o Hs He) as [-> Hof].
  destruct He as (Ho & _). destruct (Z.gtb_spec (o_height o) height) as [Hgt|Hle].
  { exists b0, [], st.2. rewrite app_nil_r, <- surjective_pairing.
    split_and!; [done|constructor|apply list_subseteq_nil|constructor]. }
  cbn [snd]. destruct (push_unspent_ok s max recently st o) as [->|(Hav & go_on & sum & ->)]; cbn [mbind result_bind].
  { destruct (IH true st Hnd) as (b & l & t & -> & Hl & Hlos & Hal).
    exists b, l, t. split_and!; [done..| |done]. intros x Hx'. right. by apply Hlos. }
  destruct go_on.
  - destruct (IH true (st.1 ++ [o], sum) Hnd) as (b & l & t & -> & Hl & Hlos & Hal).
    exists b, (o :: l), t. cbn [fst]. rewrite <- app_assoc. split; [done|]. split; [|split; [|by constructor]].
    + constructor; [|done]. intros Hin. by apply Hni, Hlos.
    + intros x [->|Hx']%elem_of_cons; [by left|right; by apply Hlos].
  - exists false, [o], sum. split; [done|]. split; [by apply NoDup_singleton|]. split; [|by apply Forall_singleton].
    intros x ->%list_elem_of_singleton. by left.
Qed.

(** The log of unlocked outputs can be read. *)
Definition readable (s : State D) : Prop :=
  ∀ a height, ∃ m, api_get_unlocked_outputs (basic (main s)) a height UINT32_MAX = Ok m.

Lemma add_unspent_ok s v a height max st : shows (basic (main s)) v → readable s → plain a →
  Forall (plain ∘ o_address) (v_unspent v) →
  ∃ b l t, add_unspent s st a height max = Ok (b, (st.1 ++ l, t)) ∧ NoDup l ∧
    Forall (λ o, available s v height o ∧ of_address a o) l.
Proof.
  intros Hs Hr Ha Hp. unfold add_unspent, api_add_unspent. destruct (Hr a height) as [recently ->].
  cbn [mbind result_bind]. unfold for_each_in_unspent_index.
  destruct (for_cursor_ok (m_db (basic (main s)))
      (if bool_decide (a = []) then chars "un" else ADDRESS_UNSPENT_prefix a)
      (write_varint_sqlite4 (u32 (UINT32_MAX + 1)))
      (λ acc c, unspent_entry (basic (main s)) a height (push_unspent s max recently) acc (suffix c, data c))
      (unspent_entry (basic (main s)) a height (push_unspent s max recently))) as (es & Hes & Hloop).
  { by destruct (bool_decide _). } { done. }
  destruct (entries_of _ v a _ _ Hs Ha Hp Hes) as (os & Hos & Hnd).
  destruct (visit_unspent s v a height max recently es os true st Hs Hos Hnd) as (b & l & t & Hv & Hl & _ & Hal).
  exists b, l, t. split; [|done]. etransitivity; [|exact Hv]. rewrite <- Hloop. rewrite <- surjective_pairing. reflexivity.
Qed.

(** ** What is gathered *)

Record gathered (s : State D) (v : contents) (height : Height) (wanted : list (list Z)) (us : list Output) : Prop := {
  ga_nodup : NoDup us;
  ga_available : Forall (available s v height) us;
  ga_wanted : Forall (λ o, [] ∈ wanted ∨ o_address o ∈ wanted) us;
}.

(** Addresses that do not ask for an output twice: one, or distinct ones. *)
Definition apart (addresses : list (list Z)) : Prop :=
  addresses = [[]] ∨ NoDup addresses ∧ [] ∉ addresses.

Lemma gather_step s v height wanted a addresses us l :
  NoDup (a :: addresses) → [] ∉ a :: addresses → a ∈ wanted →
  gathered s v height wanted us → Forall (λ o, o_address o ∉ a :: addresses) us →
  NoDup l → Forall (λ o, available s v height o ∧ of_address a o) l →
  gathered s v height wanted (us ++ l) ∧ Forall (λ o, o_address o ∉ addresses) (us ++ l).
Proof.
  intros [Hna _]%NoDup_cons Hnil Hwant [Hnd Hav Hw] Hout Hl Hal. rewrite Forall_forall in Hav, Hout, Hal.
  assert (∀ o, o ∈ l → o_address o = a) as Haddr.
  { intros o Ho. destruct (Hal o Ho) as [_ [->|?]]; [|done]. destruct Hnil. by left. }
  split; [split|].
  - apply NoDup_app. split_and!; [done| |done]. intros o Ho Hol. apply (Hout o Ho). rewrite (Haddr o Hol). by left.
  - apply Forall_app. split; apply Forall_forall; [done|]. intros o Ho. by apply Hal.
  - apply Forall_app. split; [done|]. apply Forall_forall. intros o Ho. right. by rewrite (Haddr o Ho).
  - apply Forall_app. split; apply Forall_forall; intros o Ho Hin.
    + apply (Hout o Ho). by right.
    + rewrite (Haddr o Ho) in Hin. done.
Qed.

Section gather.
Context (s : State D) (v : contents) (height : Height) (wanted : list (list Z)).
Hypothesis shown : shows (basic (main s)) v.
Hypothesis unlocked_readable : readable s.
Hypothesis outputs_plain : Forall (plain ∘ o_address) (v_unspent v).

Lemma gather_enough_from addresses max st : Forall plain addresses → NoDup addresses → [] ∉ addresses →
  addresses ⊆ wanted → gathered s v height wanted st.1 → Forall (λ o, o_address o ∉ addresses) st.1 →
  ∃ st', gather_enough s addresses height max st = Ok st' ∧ gathered s v height wanted st'.1.
Proof using All.
  revert st. induction addresses as [|a addresses IH]; intros st Hp Hnd Hnil Hin Hg Hout; cbn [gather_enough]; [by exists st|].
  apply Forall_cons in Hp as [Ha Hp].
  destruct (add_unspent_ok s v a height max st shown unlocked_readable Ha outputs_plain) as (b & l & t & -> & Hl & Hal).
  cbn [mbind result_bind].
  destruct (gather_step s v height wanted a addresses st.1 l Hnd Hnil (Hin a ltac:(by left)) Hg Hout Hl Hal) as [Hg' Hout'].
  apply NoDup_cons in Hnd as [_ Hnd].
  destruct b; [|by eexists]. apply IH; [done..| | |done|done]; set_solver.
Qed.

Lemma gather_all_from addresses st : Forall plain addresses → NoDup addresses → [] ∉ addresses →
  addresses ⊆ wanted → gathered s v height wanted st.1 → Forall (λ o, o_address o ∉ addresses) st.1 →
  ∃ st', for_each (λ st ad, '(_, st) ← add_unspent s st ad height UINT64_MAX; Ok st) addresses st = Ok st' ∧
    gathered s v height wanted st'.1.
Proof using All.
  revert st. induction addresses as [|a addresses IH]; intros st Hp Hnd Hnil Hin Hg Hout; cbn [for_each]; [by exists st|].
  apply Forall_cons in Hp as [Ha Hp].
  destruct (add_unspent_ok s v a height UINT64_MAX st shown unlocked_readable Ha outputs_plain) as (b & l & t & -> & Hl & Hal).
  cbn [mbind result_bind].
  destruct (gather_step s v height wanted a addresses st.1 l Hnd Hnil (Hin a ltac:(by left)) Hg Hout Hl Hal) as [Hg' Hout'].
  apply NoDup_cons in Hnd as [_ Hnd]. apply IH; [done..| | |done|done]; set_solver.
Qed.

Lemma gather_one max : [] ∈ wanted → ∃ b l t, add_unspent s ([], 0) [] height max = Ok (b, (l, t)) ∧ gathered s v height wanted l.
Proof using All.
  intros Hw. destruct (add_unspent_ok s v [] height max ([], 0) shown unlocked_readable) as (b & l & t & -> & Hl & Hal);
    [by intros ?%elem_of_nil|done|].
  exists b, l, t. split; [done|]. split; [done|..]; (eapply Forall_impl; [exact Hal|]); intros o []; [done|by left].
Qed.

Lemma gather_ok max : apart wanted → Forall plain wanted →
  (∃ st, gather_enough s wanted height max ([], 0) = Ok st ∧ gathered s v height wanted st.1) ∧
  (∃ st, gather_all s wanted height = Ok st ∧ gathered s v height wanted st.1).
Proof using All.
  assert (gathered s v height wanted []) as H0' by (split; constructor).
  intros [Hone|[Hnd Hnil]] Hp.
  - assert ([] ∈ wanted) as Hw by (rewrite Hone; by left).
    split; [destruct (gather_one max Hw) as (b & l & t & Hg & Hok)|destruct (gather_one UINT64_MAX Hw) as (b & l & t & Hg & Hok)];
      exists (l, t); (split; [|done]); unfold gather_all; rewrite Hone; cbn [gather_enough for_each]; rewrite Hg; cbn [mbind result_bind]; by destruct b.
  - split; [by apply gather_enough_from|]. unfold gather_all. by apply gather_all_from.
Qed.

End gather.
End laws.
End WalletCoins.
