(* ===== verification/PaymentLaws.v ===== *)
(** * Paying from the wallet: the transaction

    The amounts of a request, the outputs they are split into, the coins that
    are selected, the outputs to hide among, and what comes of signing. *)

From S2P Require Import Prelude Varint Containers Words Seria Text CryptoNote TransactionExtra Amounts Blocks Currency Db Store Headers ChainState Redo Scalars ScalarLaws Crypto CryptoLaws WalletData Wallet WalletIndex WalletLaws WalletSpec Selector SelectorLaws Builder BuilderLaws WalletSyncing RandomOutputs WalletNode WalletCoins.
Import Containers Codec CryptoNote TransactionExtra Amounts Blocks Currency Crypto CryptoLaws WalletData Builder BuilderLaws WalletSyncing RandomOutputs WalletNode WalletCoins.

Local Open Scope Z_scope.

Module PaymentLaws.

(** ** Addresses in a request *)

Lemma decode_loop_plain block res_num order v : Base58.decode_loop block res_num order = Some v → 47 ∉ block.
Proof.
  revert res_num order. induction block as [|c block IH]; intros res_num order Hd; [by apply not_elem_of_nil|].
  cbn [Base58.decode_loop] in Hd. destruct (Z.ltb_spec (Base58.reverse_alphabet c) 0) as [|Hc]; [done|].
  destruct (Words.mul128 _ _) as [lo hi]. destruct (_ || _); [done|]. apply not_elem_of_cons. split; [|by eapply IH].
  intros <-. by apply Hc.
Qed.

Lemma decode_block_plain block b : Base58.decode_block block = Ok (Some b) → 47 ∉ block.
Proof.
  unfold Base58.decode_block. destruct (negb _); [done|]. intros Hd. inv_ok Hd. destruct (_ <=? 0); [done|].
  destruct (Base58.decode_loop (rev block) 0 1) as [v|] eqn:Hl; [|done]. apply decode_loop_plain in Hl.
  by rewrite (Permutation_rev block).
Qed.

Lemma decode_blocks_plain n enc b : Base58.decode_blocks n enc = Ok (Some b) → 47 ∉ enc.
Proof.
  revert enc b. induction n as [|n IH]; intros enc b Hd; cbn [Base58.decode_blocks] in Hd.
  - destruct enc as [|c enc]; [by intros ?%elem_of_nil|]. by eapply decode_block_plain.
  - inv_ok Hd. destruct a as [b1|]; [|done]. inv_ok Hd. destruct a as [b2|]; [|done].
    apply decode_block_plain in Ha. apply IH in Ha0.
    rewrite <- (take_drop Base58.full_encoded_block_size enc). set_solver.
Qed.

Section address.
Context (currency : Currency) (cn_fast_hash : list Z → Hash) (key_isvalid : PublicKey → bool).
Abbreviation parse := (parse_account_address_string cn_fast_hash currency key_isvalid).

Lemma parsed_address str a : parse str = Ok (Some a) →
  plain str ∧ str ≠ [] ∧ key_isvalid (spend_public_key a) = true ∧ key_isvalid (view_public_key a) = true.
Proof.
  unfold parse_account_address_string, parse_account_address_with_prefix. intros Hp. inv_ok Hp.
  destruct a0 as [[prefix adr]|]; [|done]. destruct (negb _); [done|]. injection Hp as ->.
  inv_ok Ha. destruct a0 as [[tag data]|]; [|done].
  destruct (from_binary _ data) as [adr| |]; [|done..]. destruct (_ && _) eqn:Hk; [|done]. injection Ha as -> ->.
  apply andb_true_iff in Hk as [Hk1 Hk2].
  unfold Base58.decode_addr in Ha0. inv_ok Ha0. destruct a0 as [dec|]; [|done].
  unfold Base58.decode in Ha. destruct (bool_decide_reflect (str = [])) as [->|Hnil].
  - injection Ha as <-. cbn in Ha0. done.
  - inv_ok Ha. destruct (_ <? 0); [done|]. apply decode_blocks_plain in Ha. done.
Qed.
End address.

(** ** Amounts by address *)

Definition nonneg (c : gmap AccountPublicAddress Amount) : Prop := map_Forall (λ _ v, 0 ≤ v) c.
Definition paid (c : gmap AccountPublicAddress Amount) : Z := sum (map_to_list c).*2.
Definition owed (c : gmap AccountPublicAddress Amount) (a : AccountPublicAddress) : Z := default 0 (c !! a).

Lemma sum_permutation l k : l ≡ₚ k → sum l = sum k.
Proof. unfold sum. induction 1; cbn; lia. Qed.
Lemma sum_items x l : sum (x :: l) = x + sum l.
Proof. done. Qed.

Lemma paid_insert c a x : paid (<[a := x]> c) + owed c a = paid c + x.
Proof.
  unfold paid, owed. rewrite <- insert_delete_eq.
  rewrite (sum_permutation _ _ (fmap_Permutation snd _ _ (map_to_list_insert (delete a c) a x (lookup_delete_eq c a)))).
  rewrite fmap_cons, sum_items. cbn [snd].
  destruct (c !! a) as [y|] eqn:E; cbn [default from_option id].
  - rewrite <- (insert_delete_id c a y E) at 2.
    rewrite (sum_permutation _ _ (fmap_Permutation snd _ _ (map_to_list_insert (delete a c) a y (lookup_delete_eq c a)))).
    rewrite fmap_cons, sum_items. cbn [snd]. lia.
  - rewrite delete_id by done. lia.
Qed.

Lemma sum_nonneg_items l : Forall (λ x, 0 ≤ x) l → 0 ≤ sum l.
Proof. induction 1; rewrite ?sum_items; [done|lia]. Qed.
Lemma sum_member x l : Forall (λ x, 0 ≤ x) l → x ∈ l → x ≤ sum l.
Proof.
  induction 1 as [|y l Hy Hl IH]; [by intros ?%elem_of_nil|]. rewrite sum_items.
  pose proof (sum_nonneg_items l Hl). intros [->|Hx]%elem_of_cons; [lia|]. specialize (IH Hx). lia.
Qed.

Lemma nonneg_values c : nonneg c → Forall (λ x, 0 ≤ x) (map_to_list c).*2.
Proof.
  intros Hc. apply Forall_fmap, Forall_forall. intros [a x] Hx%elem_of_map_to_list. by eapply Hc.
Qed.

Lemma owed_bounds c a : nonneg c → 0 ≤ owed c a ≤ paid c.
Proof.
  intros Hc. unfold owed. pose proof (sum_nonneg_items _ (nonneg_values c Hc)).
  destruct (c !! a) as [x|] eqn:E; cbn; [|unfold paid; lia]. split; [by eapply Hc|].
  apply sum_member; [by apply nonneg_values|]. apply list_elem_of_fmap. exists (a, x). split; [done|].
  by apply elem_of_map_to_list.
Qed.

Lemma add_to_address_ok c a x : nonneg c → 0 ≤ x → paid c + x < 2 ^ 64 →
  nonneg (add_to_address c a x) ∧ paid (add_to_address c a x) = paid c + x ∧
  ∀ b, owed (add_to_address c a x) b = owed c b + if decide (b = a) then x else 0.
Proof.
  intros Hc Hx Hlt. unfold add_to_address. fold (owed c a). pose proof (owed_bounds c a Hc).
  rewrite u64_small by lia. pose proof (paid_insert c a (owed c a + x)). split_and!.
  - apply map_Forall_insert_2; [lia|done].
  - lia.
  - intros b. unfold owed at 1. destruct (decide (b = a)) as [->|Hne].
    + rewrite lookup_insert_eq. done.
    + rewrite lookup_insert_ne by done. fold (owed c b). lia.
Qed.

(** ** Transfers *)

Section transfers.
Context `{Curve} (currency : Currency) (cn_fast_hash : list Z → Hash).
Abbreviation parse := (parse_address currency cn_fast_hash).

(** What the transfers ask for an address. *)
Definition asked (trs : list Transfer) (a : AccountPublicAddress) : Z :=
  sum ((λ tr, match parse (tr_address tr) with
              | Ok (Some b) => if decide (a = b) then tr_amount tr else 0
              | _ => 0
              end) <$> trs).
Definition asked_total (trs : list Transfer) : Z := sum (tr_amount <$> trs).

Lemma add_transfers_ok trs c history t c' history' t' : nonneg c → t = paid c →
  Forall (λ tr, 0 ≤ tr_amount tr) trs → paid c + asked_total trs < 2 ^ 64 →
  for_each (add_transfer currency cn_fast_hash) trs (c, history, t) = Ok (c', history', t') →
  nonneg c' ∧ t' = paid c' ∧ paid c' = paid c + asked_total trs ∧
  (∀ a, owed c' a = owed c a + asked trs a) ∧
  (∀ a, is_Some (c' !! a) → is_Some (c !! a) ∨ decodes (spend_public_key a) ∧ decodes (view_public_key a)).
Proof.
  revert c history t. induction trs as [|tr trs IH]; intros c history t Hc Ht Hnn Hlt Hr; cbn [for_each] in Hr.
  { injection Hr as <- _ <-. unfold asked_total, asked. cbn. split_and!; [done|done|lia|intros; lia|by left]. }
  apply Forall_cons in Hnn as [Htr Hnn]. unfold asked_total in *. rewrite fmap_cons, sum_items in *.
  assert (0 ≤ sum (tr_amount <$> trs)) by (apply sum_nonneg_items, Forall_fmap; done).
  inv_ok Hr. destruct a as [[c1 h1] t1]. unfold add_transfer in Ha. inv_ok Ha. rename a0 into parsed, a1 into addr.
  destruct parsed as [addr'|]; [|done]. injection Ha2 as ->. injection Ha as <- <- <-.
  destruct (add_to_address_ok c addr (tr_amount tr) Hc Htr) as (H1 & H2 & H3); [lia|].
  pose proof (owed_bounds c addr Hc). pose proof (sum_nonneg_items _ (nonneg_values c Hc)) as Hp. fold (paid c) in Hp.
  apply IH in Hr as (I1 & I2 & I3 & I4 & I5); [|done| |done|lia]; [|rewrite u64_small; lia].
  split_and!; [done|done|lia| |].
  - intros b. rewrite I4, H3. unfold asked. rewrite fmap_cons, sum_items.
    rewrite Ha1. lia.
  - intros b Hb. destruct (I5 b Hb) as [Hin|?]; [|by right]. unfold add_to_address in Hin.
    destruct (decide (b = addr)) as [->|Hne]; [|left; by rewrite lookup_insert_ne in Hin].
    right. apply parsed_address in Ha1 as (_ & _ & Hk1 & Hk2). unfold key_isvalid in *.
    by apply bool_decide_eq_true in Hk1, Hk2.
Qed.
End transfers.

(** ** Outputs *)

Definition flat (outs : list (AccountPublicAddress * list Amount)) : list OutputDesc :=
  outs ≫= λ aa, (λ da, {| od_amount := da; od_addr := aa.1 |}) <$> aa.2.
Definition to_addr (a : AccountPublicAddress) (ds : list OutputDesc) : Z :=
  sum (od_amount <$> filter (λ d, od_addr d = a) ds).

Lemma to_addr_perm a ds ds' : ds ≡ₚ ds' → to_addr a ds = to_addr a ds'.
Proof. intros Hp. unfold to_addr. apply sum_permutation. by rewrite Hp. Qed.

Lemma add_outputs_ok outs b : ∃ total,
  add_outputs outs b = {| m_transaction := m_transaction b; m_input_descs := m_input_descs b;
    m_output_descs := m_output_descs b ++ flat outs; m_extra := m_extra b; m_outputs_amount := total;
    m_inputs_amount := m_inputs_amount b |}.
Proof.
  unfold add_outputs, flat. revert b. induction outs as [|[a l] outs IH]; intros b; cbn [foldl mbind list_bind].
  { exists (m_outputs_amount b). rewrite app_nil_r. by destruct b. }
  assert (∃ total, foldl (λ b da, (add_output b da a).1) b l =
    {| m_transaction := m_transaction b; m_input_descs := m_input_descs b;
       m_output_descs := m_output_descs b ++ ((λ da, {| od_amount := da; od_addr := a |}) <$> l);
       m_extra := m_extra b; m_outputs_amount := total; m_inputs_amount := m_inputs_amount b |}) as [t1 H1].
  { clear IH. revert b. induction l as [|da l IHl]; intros b; cbn [foldl].
    - exists (m_outputs_amount b). cbn. rewrite app_nil_r. by destruct b.
    - destruct (IHl (add_output b da a).1) as [t ->]. exists t. cbn. by rewrite <- app_assoc. }
  cbn [fst snd]. rewrite H1. destruct (IH {| m_transaction := m_transaction b; m_input_descs := m_input_descs b;
       m_output_descs := m_output_descs b ++ ((λ da, {| od_amount := da; od_addr := a |}) <$> l);
       m_extra := m_extra b; m_outputs_amount := t1; m_inputs_amount := m_inputs_amount b |}) as [t2 ->].
  exists t2. cbn. by rewrite <- app_assoc.
Qed.

Definition splits (e : AccountPublicAddress * Amount) (aa : AccountPublicAddress * list Amount) : Prop :=
  aa.1 = e.1 ∧ sum aa.2 = e.2 ∧ Forall (λ x, 0 < x) aa.2.

Section decomposed.
Context (currency : Currency).

Lemma decompose_entries es acc : Forall (λ e, in_u 64 e.2) es →
  ∃ outs, for_each (λ l aa, amounts ← decompose_amount aa.2 (default_dust_threshold currency); Ok (l ++ [(aa.1, amounts)]))
    es acc = Ok (acc ++ outs) ∧ Forall2 splits es outs.
Proof.
  revert acc. induction es as [|[a x] es IH]; intros acc He; cbn [for_each].
  { exists []. rewrite app_nil_r. split; [done|constructor]. }
  apply Forall_cons in He as [Hx He]. cbn [fst snd] in *.
  destruct (decompose_amount_sum x (default_dust_threshold currency) Hx) as (l & -> & Hs & Hp).
  cbn [mbind result_bind]. destruct (IH (acc ++ [(a, l)]) He) as (outs & -> & Ho).
  exists ((a, l) :: outs). rewrite <- app_assoc. split; [done|]. by constructor.
Qed.

Lemma splits_flat es outs : Forall2 splits es outs →
  sum (od_amount <$> flat outs) = sum es.*2 ∧
  (∀ a, to_addr a (flat outs) = sum (filter (λ e, e.1 = a) es).*2) ∧
  Forall (λ d, 0 < od_amount d ∧ od_addr d ∈ es.*1) (flat outs).
Proof.
  induction 1 as [|[a x] [a' l] es outs (Ha & Hs & Hp) _ (I1 & I2 & I3)]; [done|]. cbn [fst snd] in *. subst a'.
  unfold flat in *. cbn [mbind list_bind fst snd]. set (mine := (λ da, _) <$> l) in *.
  assert (od_amount <$> mine = l) as Hm by (unfold mine; rewrite <- list_fmap_compose; by rewrite list_fmap_id).
  split_and!.
  - rewrite fmap_app, sum_app, Hm, I1. cbn [fmap list_fmap snd]. rewrite sum_items. lia.
  - intros b. unfold to_addr in *. rewrite filter_app, fmap_app, sum_app, I2. rewrite filter_cons.
    cbn [fst]. destruct (decide (a = b)) as [->|Hne].
    + assert (filter (λ d, od_addr d = b) mine = mine) as ->.
      { unfold mine. clear. induction l as [|y l IH]; [done|]. cbn [fmap list_fmap]. rewrite filter_cons_True by done. by rewrite IH. }
      rewrite Hm. rewrite fmap_cons, sum_items. cbn [snd]. lia.
    + assert (filter (λ d, od_addr d = b) mine = []) as ->.
      { unfold mine. clear -Hne. induction l as [|y l IH]; [done|]. cbn [fmap list_fmap]. by rewrite filter_cons_False. }
      done.
  - apply Forall_app. split.
    + unfold mine. apply Forall_fmap. eapply Forall_impl; [exact Hp|]. intros y Hy. cbn. split; [done|by left].
    + eapply Forall_impl; [exact I3|]. intros d [? ?]. split; [done|by right].
Qed.

Lemma filtered_sum (a : AccountPublicAddress) (l k : list (AccountPublicAddress * Amount)) : l ≡ₚ k →
  sum (filter (λ e, e.1 = a) l).*2 = sum (filter (λ e, e.1 = a) k).*2.
Proof. intros Hp. apply sum_permutation, fmap_Permutation. by rewrite Hp. Qed.

Lemma owed_entries (c : gmap AccountPublicAddress Amount) a : sum (filter (λ e, e.1 = a) (map_entries c)).*2 = owed c a.
Proof.
  rewrite (filtered_sum _ _ _ (map_entries_perm c)).
  unfold owed. induction c as [|b x c Hb IH] using map_ind.
  { by rewrite map_to_list_empty, lookup_empty. }
  rewrite (filtered_sum _ _ _ (map_to_list_insert c b x Hb)).
  rewrite filter_cons. cbn [fst]. destruct (decide (b = a)) as [->|Hne].
  - rewrite lookup_insert_eq, fmap_cons, sum_items, IH, Hb. cbn. lia.
  - by rewrite lookup_insert_ne.
Qed.

Lemma decomposed_ok c : nonneg c → paid c < 2 ^ 64 →
  ∃ outs, decomposed_outputs currency c = Ok outs ∧ sum (od_amount <$> flat outs) = paid c ∧
    (∀ a, to_addr a (flat outs) = owed c a) ∧
    Forall (λ d, in_u 64 (od_amount d) ∧ od_amount d ≠ 0 ∧ is_Some (c !! od_addr d)) (flat outs).
Proof.
  intros Hc Hlt. unfold decomposed_outputs.
  assert (sum (map_entries c).*2 = paid c) as Hsum by (apply sum_permutation, fmap_Permutation, map_entries_perm).
  destruct (decompose_entries (map_entries c) []) as (outs & -> & Ho).
  { apply Forall_forall. intros [a x] Hx%elem_of_map_entries. pose proof (owed_bounds c a Hc) as Hb. unfold owed in Hb.
    rewrite Hx in Hb. cbn in *. unfold in_u. lia. }
  exists outs. split; [done|]. destruct (splits_flat _ _ Ho) as (H1 & H2 & H3). split; [lia|]. split.
  - intros a. by rewrite H2, owed_entries.
  - assert (Forall (λ x, 0 ≤ x) (od_amount <$> flat outs)) as Hall.
    { apply Forall_fmap. eapply Forall_impl; [exact H3|]. cbn. intros d []. lia. }
    rewrite Forall_forall in H3 |- *. intros d Hd. destruct (H3 d Hd) as [Hpos Hin].
    pose proof (sum_member _ _ Hall (list_elem_of_fmap_2 od_amount _ _ Hd)). split; [unfold in_u; lia|]. split; [lia|].
    apply list_elem_of_fmap in Hin as ([a x] & -> & Hin). exists x. by apply elem_of_map_entries.
Qed.
End decomposed.

End PaymentLaws.
