(* ===== verification/Payments.v ===== *)
(** * Paying from the wallet: theorems

    A request that passes the checks, from its transfers to the signed
    transaction: the coins, the fee, the outputs to hide among, and what the
    nodes make of it. *)

From S2P Require Import Prelude Varint Containers Words Seria Text CryptoNote TransactionExtra Amounts Blocks Currency Db Store Headers ChainState Redo Scalars ScalarLaws Crypto CryptoLaws WalletData Wallet WalletIndex WalletLaws WalletSpec Selector SelectorLaws Builder BuilderLaws WalletSyncing RandomOutputs RandomOutputsLaws WalletNode WalletCoins PaymentLaws.
Import Containers Codec CryptoNote TransactionExtra Amounts Blocks Currency Db Store Headers ScalarLaws Crypto CryptoLaws WalletData Wallet WalletIndex WalletLaws WalletSpec SelectorLaws Builder BuilderLaws WalletSyncing RandomOutputs RandomOutputsLaws WalletNode WalletCoins PaymentLaws.

Local Open Scope Z_scope.

Module Payments.

Section payment.
Context {D : Type} `{LmdbLaws D} `{Hlaws : CurveLaws} (currency : Currency) (cn_fast_hash : list Z → Hash).
Hypothesis hash_bytes : ∀ data, byte_string 32 (cn_fast_hash data).
Abbreviation parse := (parse_address currency cn_fast_hash).

(** ** What the wallet holds *)

(** An output that a record of the wallet owns. *)
Definition owned (s : State D) (o : Output) : Prop :=
  un_ok o ∧ small_index o ∧ has_image o = true ∧
  ∃ addr r, parse (o_address o) = Ok (Some addr) ∧ records s !! spend_public_key addr = Some r ∧
    record_spend_public_key r = spend_public_key addr ∧
    let ack := {| address := addr; spend_secret_key := record_spend_secret_key r;
                  view_secret_key := m_view_secret_key (m_wallet (main s)) |} in
    keys_ok ack ∧ ours cn_fast_hash ack o.

Record wallet_ready (s : State D) (v : contents) : Prop := {
  wr_shows : shows currency (basic (main s)) v;
  wr_readable : readable s;
  wr_owned : Forall (owned s) (v_unspent v);
  wr_worth : worth (v_unspent v) < 2 ^ 64;
  wr_length : Z.of_nat (length (v_unspent v)) < 2 ^ 64;
}.

Lemma owned_plain s us : Forall (owned s) us → Forall (plain ∘ o_address) us.
Proof.
  intros Ho. eapply Forall_impl; [exact Ho|]. intros o (_ & _ & _ & addr & r & Hp & _).
  by destruct (parsed_address _ _ _ _ _ Hp).
Qed.

Lemma worth_submseteq l k : Forall un_ok k → l ⊆+ k → 0 ≤ worth l ≤ worth k.
Proof.
  intros Hk Hl. apply submseteq_Permutation in Hl as [r Hr]. rewrite Hr in Hk |- *. rewrite worth_app.
  apply Forall_app in Hk as [H1 H2].
  enough (∀ x, Forall un_ok x → 0 ≤ worth x) as Hnn by (pose proof (Hnn _ H1); pose proof (Hnn _ H2); lia).
  clear. induction 1 as [|u x [[Hu _] _] _ IH]; [done|]. rewrite worth_cons. lia.
Qed.

Lemma gathered_bounds s v height wanted us : wallet_ready s v → gathered s v height wanted us →
  us ⊆+ v_unspent v ∧ Forall (owned s) us ∧ Forall un_ok us ∧ 0 ≤ worth us < 2 ^ 64 ∧ Z.of_nat (length us) < 2 ^ 64 ∧
  NoDup (o_key_image <$> us).
Proof.
  intros [Hs _ Ho Hw Hl] [Hnd Hav _].
  assert (us ⊆ v_unspent v) as Hin by (intros o Hin; rewrite Forall_forall in Hav; by apply Hav).
  assert (us ⊆+ v_unspent v) as Hsub by (by apply NoDup_submseteq).
  assert (Forall (owned s) us) as Hown.
  { rewrite Forall_forall in Ho |- *. intros o Hou. by apply Ho, Hin. }
  assert (∀ l, Forall (owned s) l → Forall un_ok l) as Hun by (intros l Hall; eapply Forall_impl; [exact Hall|]; by intros o []).
  split; [done|]. split; [done|]. split; [by apply Hun|].
  pose proof (worth_submseteq us _ (Hun _ Ho) Hsub). pose proof (submseteq_length _ _ Hsub). split; [lia|]. split; [lia|].
  apply NoDup_fmap_2_strong; [|done]. intros x y Hx Hy Heq.
  assert (∀ o, o ∈ us → v_images v !! o_key_image o = Some (output_heamgi o)) as Hfresh.
  { intros o Hou. apply (co_fresh _ (sh_ok _ _ _ Hs)); [by apply Hin|]. rewrite Forall_forall in Hown. by apply (Hown o Hou). }
  eapply (place_inj currency); [exact Hs|by apply Hin|by apply Hin|]. pose proof (Hfresh x Hx) as E1. pose proof (Hfresh y Hy) as E2.
  rewrite Heq, E2 in E1. congruence.
Qed.

(** ** The checks of a request *)

Lemma only_records_ok (s : State D) addresses rs rs' : rs ⊆ records s → for_each (only_record currency cn_fast_hash s) addresses rs = Ok rs' →
  rs ⊆ rs' ∧ rs' ⊆ records s ∧
  Forall (λ a, ∃ addr r, parse a = Ok (Some addr) ∧ records s !! spend_public_key addr = Some r ∧
    rs' !! spend_public_key addr = Some r) addresses.
Proof.
  revert rs. induction addresses as [|a addresses IH]; intros rs Hrs Hr; cbn [for_each] in Hr.
  { injection Hr as <-. by split_and!. }
  inv_ok Hr. rename a0 into rs1. unfold only_record in Ha. inv_ok Ha. destruct a0 as [addr|]; [|done].
  destruct (get_only_record _ _ _) as [rs2|] eqn:Hg; [|done]. injection Ha as ->.
  unfold get_only_record in Hg. fold (records s) in Hg. destruct (records s !! spend_public_key addr) as [r|] eqn:Hrec; [|done].
  cbn [mbind option_bind] in Hg. destruct (_ || _); [done|]. injection Hg as <-.
  apply IH in Hr as (I1 & I2 & I3); [|case_bool_decide; [done|by apply insert_subseteq_l]].
  split; [|split; [done|constructor; [|done]]].
  - etransitivity; [|exact I1]. case_bool_decide as Hp; [done|]. apply insert_subseteq. by apply eq_None_not_Some.
  - exists addr, r. split; [done|]. split; [done|]. eapply lookup_weaken; [|exact I1].
    case_bool_decide as Hp; [|apply lookup_insert_eq]. destruct Hp as [r' Hr']. rewrite Hr'.
    pose proof (lookup_weaken _ _ _ _ Hr' Hrs) as E. congruence.
Qed.

Record request_checked (s : State D) (rq : CreateTransaction) (ck : Checked) : Prop := {
  rc_height : 0 ≤ ck_height ck;
  rc_change : parse (change_address rq) = Ok (Some (ck_change_addr ck));
  rc_any : any_spend_address rq = bool_decide (spend_addresses rq = []);
  rc_records : Forall (λ a, ∃ addr r, parse a = Ok (Some addr) ∧ records s !! spend_public_key addr = Some r ∧
    ck_only_records ck !! spend_public_key addr = Some r) (spend_addresses rq);
}.

Lemma check_request_ok s status rq ck : check_request currency cn_fast_hash s status rq = Ok ck → request_checked s rq ck.
Proof.
  unfold check_request. intros Hr. inv_ok Hr.
  match goal with Hp : parse_address _ _ (change_address rq) = Ok ?p |- _ => destruct p as [addr|]; [|done] end.
  match goal with Hp : of_option (Some addr) _ = Ok _ |- _ => injection Hp as -> end.
  match goal with Hp : for_each _ _ _ = Ok _ |- _ => apply only_records_ok in Hp as (_ & _ & Hrec); [|apply map_empty_subseteq] end.
  injection Hr as <-. split; cbn; [|done| |done].
  - unfold from_tip. destruct (Z.ltb_spec (confirmed_height_or_depth rq) 0); lia.
  - case_bool_decide; destruct (any_spend_address rq); done.
Qed.

Lemma request_addresses s rq ck : request_checked s rq ck → NoDup (spend_addresses rq) →
  apart (addresses_of rq) ∧ Forall plain (addresses_of rq).
Proof.
  intros [_ _ _ Hrec] Hnd. unfold addresses_of. case_bool_decide.
  - split; [by left|]. constructor; [|done]. unfold plain. by intros ?%elem_of_nil.
  - split; [right; split; [done|]|].
    + intros Hin. rewrite Forall_forall in Hrec. destruct (Hrec _ Hin) as (addr & r & Hp & _).
      by apply parsed_address in Hp as (_ & Hnil & _).
    + eapply Forall_impl; [exact Hrec|]. intros a (addr & r & Hp & _). by apply parsed_address in Hp as [].
Qed.

(** The records of the request have the keys of what was gathered. *)
Lemma gathered_coins s v height rq ck us : wallet_ready s v → request_checked s rq ck →
  gathered s v height (addresses_of rq) us →
  Forall (coin_ok cn_fast_hash currency (m_view_secret_key (m_wallet (main s)))
    (if any_spend_address rq then records s else ck_only_records ck)) us.
Proof.
  intros Hw [_ _ Hany Hrec] Hg. destruct (gathered_bounds _ _ _ _ _ Hw Hg) as (_ & Hown & _).
  destruct Hg as [_ _ Hwant]. rewrite Forall_forall in Hown, Hwant. rewrite Forall_forall in Hrec. apply Forall_forall. intros o Ho.
  destruct (Hown o Ho) as ((Ha & _) & Hsm & _ & addr & r & Hp & Hlook & Hr & Hk & Hours).
  split; [done|]. split; [done|]. eexists. split; [|split; [exact Hk|exact Hours]].
  unfold sender_keys_of. fold (parse (o_address o)). rewrite Hp. cbn [mbind result_bind].
  assert ((if any_spend_address rq then records s else ck_only_records ck) !! spend_public_key addr = Some r) as ->.
  { rewrite Hany. specialize (Hwant o Ho). unfold addresses_of in Hwant. case_bool_decide as Hnil; [done|].
    destruct Hwant as [Hin|Hin].
    - destruct (Hrec _ Hin) as (addr' & r' & Hp' & _). by apply parsed_address in Hp' as (_ & ? & _).
    - destruct (Hrec _ Hin) as (addr' & r' & Hp' & Hl' & Ho'). rewrite Hp in Hp'. injection Hp' as <-. congruence. }
  rewrite bool_decide_true by done. done.
Qed.

(** ** The coins *)

(** What stands for the node's last status and the request in the selection. *)
Section select.
Context (s : State D) (v : contents) (status : Status) (rq : CreateTransaction) (ck : Checked).
Abbreviation height := (u32 (ck_height ck)).
Abbreviation median := (next_block_effective_median_size status).
Abbreviation anonymity := (t_anonymity (transaction rq)).
Abbreviation usable_coin := (Selector.usable currency (WalletSyncing.tip_height s) (bh_timestamp (tip s)) height).
Abbreviation candidates us := (filter (λ un, usable_coin un = true) us).

Record coins_for (total total_outputs change : Z) (selector : Selector.State) : Prop := {
  cf_gathered : ∃ us, gathered s v height (addresses_of rq) us ∧
    paid_by (candidates us) anonymity currency total total_outputs (ck_fee_per_byte ck) (limit_of median) selector change;
}.

Hypothesis wallet_is_ready : wallet_ready s v.
Hypothesis request_is_checked : request_checked s rq ck.
Hypothesis addresses_differ : NoDup (spend_addresses rq).
Hypothesis median_fits : 0 ≤ median ∧ 120 * median < 2 ^ 64.

Lemma selection_fuel_enough total : amounts_ok currency total (ck_fee_per_byte ck) (limit_of median) →
  (rounds currency (ck_fee_per_byte ck) (limit_of median) 200 (minimum_fee currency) <
   selection_fuel currency (ck_fee_per_byte ck) median)%nat.
Proof.
  intros (Ht & _ & Hm & Hf & He & _). unfold rounds, selection_fuel, fee_limit. fold (limit_of median).
  set (b := ck_fee_per_byte ck * limit_of median) in *. assert (0 ≤ b) by (unfold b; nia). clearbody b.
  set (m := minimum_fee currency) in *. set (t := default_dust_threshold currency) in *.
  assert ((m `max` (b + t)) / t ≤ (m + b + t) / t) by (apply Z.div_le_mono; lia).
  assert (0 ≤ m / t) by (apply Z.div_pos; lia). lia.
Qed.

Definition cannot_select : list string :=
  ["Outputs cannot be selected for transaction NOT_ENOUGH_FUNDS";
   "Outputs cannot be selected for transaction TRANSACTION_DOES_NOT_FIT_IN_BLOCK"]%string.

Lemma select_coins_ok total total_outputs :
  amounts_ok currency total (ck_fee_per_byte ck) (limit_of median) →
  (∃ m, select_coins currency s status rq ck total total_outputs = Throw m ∧ m ∈ cannot_select) ∨
  ∃ selector change, select_coins currency s status rq ck total total_outputs = Ok (selector, change) ∧
    coins_for total total_outputs change selector.
Proof using All.
  intros Ham. destruct (request_addresses _ _ _ request_is_checked addresses_differ) as [Hap Hpl].
  destruct (gather_ok currency s v height (addresses_of rq) (wr_shows _ _ wallet_is_ready) (wr_readable _ _ wallet_is_ready)
    (owned_plain _ _ (wr_owned _ _ wallet_is_ready)) (u64 (total * 2)) Hap Hpl) as [([us1 t1] & Hg1 & H1) ([us2 t2] & Hg2 & H2)].
  cbn [fst] in H1, H2. unfold select_coins. rewrite Hg1, Hg2. cbn [mbind result_bind].
  set (level := if _ =? 0 then _ else _).
  assert (∀ us, gathered s v height (addresses_of rq) us → ∃ sel a,
    Selector.select_optimal_outputs currency (selection_fuel currency (ck_fee_per_byte ck) median)
      (WalletSyncing.tip_height s) (bh_timestamp (tip s)) height median anonymity total total_outputs
      (ck_fee_per_byte ck) level (Selector.reset us) = Ok (sel, a) ∧
    answer_ok (candidates us) anonymity currency total total_outputs (ck_fee_per_byte ck) (limit_of median) sel a) as Hsel.
  { intros us Hus. destruct (gathered_bounds _ _ _ _ _ wallet_is_ready Hus) as (_ & _ & Hun & [_ Hw] & Hl & _).
    destruct median_fits. apply select_optimal_outputs_ok; [done..|by eapply selection_fuel_enough]. }
  destruct (Hsel us1 H1) as (sel1 & a1 & -> & Ha1). cbn [mbind result_bind].
  destruct a1 as [change|m1]; [right; exists sel1, change; split; [done|]; by split; exists us1|].
  destruct (Hsel us2 H2) as (sel2 & a2 & -> & Ha2). cbn [mbind result_bind].
  destruct a2 as [change|m2]; [right; exists sel2, change; split; [done|]; by split; exists us2|].
  left. destruct Ha2 as [[-> _]|[-> _]]; (eexists; split; [reflexivity|]); cbn; set_solver.
Qed.
End select.

(** ** The outputs *)

Definition payment_fields (payment_id : Hash) : list TransactionExtraField :=
  if bool_decide (payment_id = null_hash) then []
  else [TransactionExtraNonce (set_payment_id_to_transaction_extra_nonce payment_id)].

(** The builder before any input. *)
Definition fresh_builder (unlock : Z) (payment_id : Hash) (b : TransactionBuilder) : Prop :=
  m_input_descs b = [] ∧ m_output_descs b = [] ∧ m_extra b = payment_fields payment_id ∧
  version (tx_prefix (m_transaction b)) = current_transaction_version currency ∧
  unlock_time (tx_prefix (m_transaction b)) = unlock.

Lemma payment_id_ok unlock payment_id : byte_string 32 payment_id →
  ∃ b, (if bool_decide (payment_id = null_hash) then Ok (make_TransactionBuilder currency unlock)
        else set_payment_id (make_TransactionBuilder currency unlock) payment_id) = Ok b ∧
    fresh_builder unlock payment_id b ∧ nonce_only (m_extra b).
Proof.
  intros [Hb Hl]. unfold fresh_builder, payment_fields. case_bool_decide.
  { eexists. split; [reflexivity|]. split; [done|by left]. }
  set (nonce := set_payment_id_to_transaction_extra_nonce payment_id).
  assert (bytes nonce ∧ Z.of_nat (length nonce) ≤ 255) as [Hnb Hnl].
  { unfold nonce, set_payment_id_to_transaction_extra_nonce. split.
    - constructor; [by apply (bool_decide_unpack _); vm_compute|done].
    - cbn. rewrite Hl. lia. }
  assert (fields_ok [TransactionExtraNonce nonce]) as Hok by (cbn; unfold TX_EXTRA_NONCE_MAX_COUNT; repeat split; (done || lia)).
  destruct (write_parse_loop _ [] Hok) as (e & Hw & _). cbn [app] in Hw.
  unfold set_payment_id, set_extra_nonce, set_extra. cbn [m_extra make_TransactionBuilder set_field filter list_filter app].
  fold nonce. change (set_field (TransactionExtraNonce nonce) []) with [TransactionExtraNonce nonce].
  unfold serialize. rewrite Hw. cbn [mbind result_bind mret result_ret]. eexists. split; [reflexivity|].
  split; [done|]. right. by exists nonce.
Qed.

Lemma transfers_positive trs st st' : for_each (add_transfer currency cn_fast_hash) trs st = Ok st' →
  Forall (λ tr, 0 < tr_amount tr) trs.
Proof.
  revert st. induction trs as [|tr trs IH]; intros st Hr; cbn [for_each] in Hr; [constructor|].
  inv_ok Hr. destruct st as [[c h] t]. unfold add_transfer in Ha. inv_ok Ha. constructor; [lia|]. by eapply IH.
Qed.

Lemma asked_positive trs : trs ≠ [] → Forall (λ tr, 0 < tr_amount tr) trs → 0 < asked_total trs.
Proof.
  intros Hne Hpos. unfold asked_total. destruct trs as [|tr trs]; [done|]. apply Forall_cons in Hpos as [Hp Hps].
  rewrite fmap_cons, sum_items. assert (0 ≤ sum (tr_amount <$> trs)); [|lia].
  apply sum_nonneg_items, Forall_fmap. eapply Forall_impl; [exact Hps|]. cbn. intros; lia.
Qed.

(** What is asked and the change, as outputs. *)
Record outputs_for (rq : CreateTransaction) (ck : Checked) (change : Z) (outs : list OutputDesc) : Prop := {
  of_sum : sum (od_amount <$> outs) = asked_total (t_transfers (transaction rq)) + change;
  of_addresses a : to_addr a outs = asked currency cn_fast_hash (t_transfers (transaction rq)) a +
    if decide (a = ck_change_addr ck) then change else 0;
  of_ok : Forall (λ d, address_ok (od_addr d) ∧ in_u 64 (od_amount d) ∧ od_amount d ≠ 0) outs;
}.

Lemma outputs_few rq ck change outs : outputs_for rq ck change outs →
  asked_total (t_transfers (transaction rq)) + change < 2 ^ 64 → Z.of_nat (length outs) < 2 ^ 64.
Proof.
  intros [Hsum _ Hok] Hlt. rewrite <- Hsum in Hlt. eapply Z.le_lt_trans; [|exact Hlt]. clear -Hok.
  induction Hok as [|d outs (_ & Hu & Hnz) _ IH]; [done|]. rewrite fmap_cons, sum_items. cbn [length]. unfold in_u in Hu. lia.
Qed.

Section start.
Context (s : State D) (v : contents) (status : Status) (rq : CreateTransaction) (ck : Checked).
Abbreviation total := (asked_total (t_transfers (transaction rq))).
Hypothesis wallet_is_ready : wallet_ready s v.
Hypothesis request_is_checked : request_checked s rq ck.
Hypothesis addresses_differ : NoDup (spend_addresses rq).
Hypothesis median_fits : 0 ≤ next_block_effective_median_size status ∧ 120 * next_block_effective_median_size status < 2 ^ 64.
Hypothesis amounts_fit : amounts_ok currency total (ck_fee_per_byte ck) (limit_of (next_block_effective_median_size status)).
Hypothesis payment_id_bytes : byte_string 32 (t_payment_id (transaction rq)).
Hypothesis some_transfers : t_transfers (transaction rq) ≠ [].

Lemma change_addr_ok : address_ok (ck_change_addr ck).
Proof using request_is_checked.
  destruct request_is_checked as [_ Hp _ _]. apply parsed_address in Hp as (_ & _ & H1 & H2).
  unfold key_isvalid in *. by apply bool_decide_eq_true in H1, H2.
Qed.

Lemma start_ok st : for_each (add_transfer currency cn_fast_hash) (t_transfers (transaction rq)) (∅, ∅, 0) = Ok st →
  let r := start_transaction currency cn_fast_hash s status rq ck in
  (∃ m, r = Throw m ∧ m ∈ cannot_select) ∨
  ∃ b selector history change n, r = Ok (b, selector, history) ∧
    coins_for s v status rq ck total n change selector ∧
    outputs_for rq ck change (m_output_descs b) ∧ m_input_descs b = [] ∧
    m_extra b = payment_fields (t_payment_id (transaction rq)) ∧ nonce_only (m_extra b) ∧
    version (tx_prefix (m_transaction b)) = current_transaction_version currency ∧
    unlock_time (tx_prefix (m_transaction b)) = t_unlock_time (transaction rq).
Proof using All.
  intros Htr. cbn zeta. destruct st as [[combined history] sent]. pose proof (transfers_positive _ _ _ Htr) as Hpos.
  pose proof (asked_positive _ some_transfers Hpos) as Htot.
  assert (total < 2 ^ 64) as Hlt by (destruct amounts_fit as (? & ? & ? & ? & ? & ?); unfold fee_limit in *; lia).
  destruct (add_transfers_ok currency cn_fast_hash (t_transfers (transaction rq)) ∅ ∅ 0 combined history sent)
    as (Hnn & -> & Hpaid & Howed & Haddr); [by apply map_Forall_empty|done| |done|done|].
  { eapply Forall_impl; [exact Hpos|]. cbn. intros; lia. }
  change (paid ∅) with 0 in Hpaid. rewrite Z.add_0_l in Hpaid.
  unfold start_transaction.
  destruct (payment_id_ok (t_unlock_time (transaction rq)) _ payment_id_bytes) as (b & -> & (Hbi & Hbo & Hbe & Hbv & Hbu) & Hbn).
  cbn [mbind result_bind]. rewrite Htr. cbn [mbind result_bind].
  destruct (decomposed_ok currency combined Hnn) as (outs1 & -> & _); [lia|]. cbn [mbind result_bind].
  rewrite Hpaid, (proj2 (Z.eqb_neq total 0)) by lia. cbn [negb check mbind result_bind].
  set (n := Z.of_nat _).
  destruct (select_coins_ok s v status rq ck wallet_is_ready request_is_checked addresses_differ median_fits total n amounts_fit)
    as [(m & -> & Hm)|(selector & change & -> & Hcoins)]; [by left; exists m|right].
  cbn [mbind result_bind].
  destruct Hcoins as [(us & Hg & Hpays)]. pose proof Hpays as (rest & fee & Hperm & Hworth & Hfee & _ & _ & Hch & _).
  destruct (gathered_bounds _ _ _ _ _ wallet_is_ready Hg) as (_ & _ & Hun & [_ Hw] & _).
  assert (worth (Selector.used_unspents selector) ≤ worth us) as Hle.
  { apply worth_submseteq; [done|]. transitivity (Selector.used_unspents selector ++ rest); [by apply submseteq_inserts_r|].
    rewrite Hperm. apply sublist_submseteq, sublist_filter. }
  destruct amounts_fit as (_ & _ & Hmf & _).
  set (combined' := if 0 <? change then add_to_address _ _ _ else _).
  assert (nonneg combined' ∧ paid combined' = total + change ∧
    (∀ a, owed combined' a = asked currency cn_fast_hash (t_transfers (transaction rq)) a +
       if decide (a = ck_change_addr ck) then change else 0) ∧
    ∀ a, is_Some (combined' !! a) → address_ok a) as (Hnn' & Hpaid' & Howed' & Haddr').
  { assert (∀ a, owed combined a = asked currency cn_fast_hash (t_transfers (transaction rq)) a) as Ho1
      by (intros a; by rewrite Howed).
    assert (∀ a, is_Some (combined !! a) → address_ok a) as Ha1.
    { intros a Ha. destruct (Haddr a Ha) as [Hem|?]; [|done]. by rewrite lookup_empty in Hem. }
    unfold combined'. destruct (Z.ltb_spec 0 change) as [Hc|Hc].
    - destruct (add_to_address_ok combined (ck_change_addr ck) change Hnn) as (H1 & H2 & H3); [lia..|].
      split; [done|]. split; [lia|]. split; [intros a; rewrite H3; by rewrite Ho1|].
      intros a. unfold add_to_address. destruct (decide (a = ck_change_addr ck)) as [->|Hne].
      + intros _. apply change_addr_ok.
      + rewrite lookup_insert_ne by done. apply Ha1.
    - assert (change = 0) as -> by lia. split; [done|]. split; [lia|]. split; [|done].
      intros a. rewrite Ho1. destruct (decide _); lia. }
  destruct (decomposed_ok currency combined' Hnn') as (outs & -> & Hsum & Hto & Hall); [lia|]. cbn [mbind result_bind].
  destruct (add_outputs_ok outs b) as [t ->].
  eexists _, selector, _, change, n. split; [reflexivity|]. split; [by split; exists us|].
  cbn [m_output_descs m_input_descs m_extra m_transaction]. rewrite Hbo. cbn [app]. split; [|done].
  split.
  - by rewrite Hsum.
  - intros a. by rewrite Hto.
  - eapply Forall_impl; [exact Hall|]. intros d (? & ? & ?). split; [by apply Haddr'|done].
Qed.
End start.

(** ** The transaction *)

(** The images that a transaction spends. *)
Definition images (tx : Transaction) : list KeyImage :=
  omap (λ i, match i with KeyInput _ _ ki => Some ki | CoinbaseInput _ => None end) (inputs (tx_prefix tx)).

Lemma images_of tx ins : inputs (tx_prefix tx) = input_of <$> ins → images tx = in_key_image <$> ins.
Proof. unfold images. intros ->. induction ins as [|d ins IH]; [done|]. cbn. by rewrite <- IH. Qed.

(** A coin of the wallet as a node has it: there, unspent and unlocked. *)
Definition on_chain {B : Type} `{ChainState.IBlockChainState B} (chain : B) (h : Height) (t : Timestamp) (o : Output) : Prop :=
  ChainState.read_keyimage chain (o_key_image o) = Ok None ∧
  ∃ unp, ChainState.read_amount_output chain (o_amount o) (o_global_index o) = Ok (Some unp) ∧
    ChainState.o_public_key unp = o_public_key o ∧
    is_transaction_spend_time_unlocked currency (ChainState.o_unlock_time unp) h t = true.

(** Not before, and without wrapping. *)
Definition not_before (h h' : Height) (t t' : Timestamp) : Prop :=
  0 ≤ h ≤ h' ∧ h' + locked_tx_allowed_delta_blocks currency < 2 ^ 32 ∧
  0 ≤ t ≤ t' ∧ t' + locked_tx_allowed_delta_seconds currency < 2 ^ 32 ∧
  0 ≤ locked_tx_allowed_delta_blocks currency ∧ 0 ≤ locked_tx_allowed_delta_seconds currency.

Lemma unlocked_later unlock h h' t t' : not_before h h' t t' →
  is_transaction_spend_time_unlocked currency unlock h t = true →
  is_transaction_spend_time_unlocked currency unlock h' t' = true.
Proof.
  intros (? & ? & ? & ? & ? & ?). unfold is_transaction_spend_time_unlocked. rewrite !u32_small by lia.
  destruct (_ <? _); rewrite !Z.leb_le; lia.
Qed.

Section chain.
Context {B : Type} `{ChainState.IBlockChainState B} (chain : B).

(** Another node, perhaps with another store, that has the outputs of the chain
    up to a height: the keys and unlock times; they may be spent there, and
    what is above the height may differ. *)
Definition shares_up_to (h : Height) {B' : Type} `{ChainState.IBlockChainState B'} (chain' : B') : Prop :=
  ∀ amount i unp, ChainState.read_amount_output chain amount i = Ok (Some unp) → ChainState.o_height unp ≤ h →
    ∃ unp', ChainState.read_amount_output chain' amount i = Ok (Some unp') ∧
      ChainState.o_public_key unp' = ChainState.o_public_key unp ∧
      ChainState.o_unlock_time unp' = ChainState.o_unlock_time unp.

(** An output that nobody is known to have spent, not above the height, and
    unlocked there. *)
Definition confirmed_output (h : Height) (t : Timestamp) (amount : Amount) (i : Z) : Prop :=
  ∃ unp, ChainState.read_amount_output chain amount i = Ok (Some unp) ∧ ChainState.o_spent unp = false ∧
    ChainState.o_height unp ≤ h ∧ is_transaction_spend_time_unlocked currency (ChainState.o_unlock_time unp) h t = true.

(** The input of a coin: its ring, as the nodes decode it, has the coin once
    and besides it distinct confirmed outputs of the amount. *)
Definition hidden (h : Height) (t : Timestamp) (o : Output) (i : TransactionInput) : Prop :=
  ∃ indexes, i = KeyInput (o_amount o) indexes (o_key_image o) ∧
    let ring := Redo.global_indexes indexes in
    StronglySorted Z.lt ring ∧ o_global_index o ∈ ring ∧
    Forall (λ i, i = o_global_index o ∨ confirmed_output h t (o_amount o) i) ring.

(** What the transaction is that pays a request: coins of the wallet are
    spent, each hidden among outputs of the chain, a fee is paid, and the rest
    goes where it was asked to go. *)
Record payment (s : State D) (v : contents) (status : Status) (rq : CreateTransaction) (ck : Checked)
    (tip_timestamp : Timestamp) (tx : Transaction) (coins : list Output) (outs : list OutputDesc) (tx_key : SecretKey)
    (fee change : Z) : Prop := {
  pa_coins : NoDup coins ∧ Forall (available s v (u32 (ck_height ck))) coins ∧
    Forall (λ o, Selector.usable currency (WalletSyncing.tip_height s) (bh_timestamp (tip s)) (u32 (ck_height ck)) o = true) coins;
  pa_allowed : Forall (λ o, any_spend_address rq = true ∨ o_address o ∈ spend_addresses rq) coins;
  pa_worth : worth coins = asked_total (t_transfers (transaction rq)) + fee + change;
  pa_fee : minimum_fee currency ≤ fee <
    fee_limit currency (ck_fee_per_byte ck) (limit_of (next_block_effective_median_size status)) +
      default_dust_threshold currency;
  pa_images : images tx ≡ₚ o_key_image <$> coins;
  pa_semantic check : Redo.validate_semantic key_isvalid false tx check = inr fee;
  pa_outputs : length (outputs (tx_prefix tx)) = length outs ∧
    ∀ i d o, outs !! i = Some d → outputs (tx_prefix tx) !! i = Some o → made_for cn_fast_hash tx_key i d o;
  pa_paid : outputs_for rq ck change outs;
  pa_key : valid tx_key ∧ get_transaction_public_key_from_extra (extra (tx_prefix tx)) = public_of tx_key;
  pa_payment_id : get_payment_id_from_tx_extra (extra (tx_prefix tx)) =
    if bool_decide (t_payment_id (transaction rq) = null_hash) then None else Some (t_payment_id (transaction rq));
  pa_unlock : unlock_time (tx_prefix tx) = t_unlock_time (transaction rq);
  pa_hidden : ∃ hiding, hiding ≡ₚ coins ∧
    Forall2 (hidden (u32 (ck_height ck)) tip_timestamp) hiding (inputs (tx_prefix tx));
  pa_rings (B' : Type) (I : ChainState.IBlockChainState B') (chain' : B') h t :
    shares_up_to (u32 (ck_height ck)) chain' → not_before (u32 (ck_height ck)) h tip_timestamp t →
    Forall (on_chain chain' h t) coins →
    ∃ args, Redo.ring_jobs currency cn_fast_hash chain' [tx] h t = Ok (inr args) ∧
      Forall (accepts cn_fast_hash) args ∧ length args = length coins;
}.

Section finish.
Context (sort_outputs : list Output → list Output) (rnd : nat → list Z).
Context (shuffle_outputs : list OutputDesc → list OutputDesc) (shuffle_inputs : list InputDesc → list InputDesc).
Hypothesis sort_perm : ∀ l, sort_outputs l ≡ₚ l.
Hypothesis sort_sorted : ∀ l, StronglySorted gi_le (sort_outputs l).
Hypothesis rnd_bytes : ∀ j, byte_string 64 (rnd j).
Hypothesis shuffle_outputs_perm : ∀ l, shuffle_outputs l ≡ₚ l.
Hypothesis shuffle_inputs_perm : ∀ l, shuffle_inputs l ≡ₚ l.
Hypothesis chain_numbered : numbered chain decodes.

Definition offered_member (h : Height) (t : Timestamp) (amount : Amount) (o : Output) : Prop :=
  offered currency chain decodes amount h t o.

Lemma offered_ok h t amount o : offered_member h t amount o → member_ok amount o ∧ small_index o.
Proof.
  intros (Hgi & unp & _ & Hdec & Ho & _). unfold gi in *. split; [|exact Hgi].
  split; [by rewrite Ho|]. split; [unfold in_u; lia|by rewrite Ho].
Qed.

Lemma hidden_spendable {B' : Type} `{ChainState.IBlockChainState B'} (chain' : B') h0 t0 h t o d :
  shares_up_to h0 chain' → not_before h0 h t0 t → on_chain chain' h t o →
  hides cn_fast_hash (offered_member h0 t0) o d → ring_spendable currency chain' h t d.
Proof.
  intros Hshare Hlater [Hki (unp & Hr & Hk & Hu)] [_ [Ha Hi _] Hring]. split; [by rewrite Hi|]. rewrite Ha.
  eapply Forall_impl; [exact Hring|]. intros o' [->|(_ & unp1 & Hr1 & _ & Ho' & _ & Hh & Hu')]; [by exists unp|].
  destruct (Hshare _ _ _ Hr1 Hh) as (unp2 & Hr2 & Hk2 & Hu2).
  exists unp2. split; [exact Hr2|]. split; [by rewrite Ho'|]. rewrite Hu2. by eapply unlocked_later.
Qed.

Lemma hides_hidden h t o d : hides cn_fast_hash (offered_member h t) o d → hidden h t o (input_of d).
Proof.
  intros [Hd [Ha Hi Hreal] Hring]. exists (in_output_indexes d). unfold input_of. rewrite Ha, Hi. split; [done|]. cbn zeta.
  rewrite (rr_indexes _ _ Hd), global_indexes_relative; cycle 1.
  { apply Forall_fmap. eapply Forall_impl; [exact (rr_members _ _ Hd)|]. by intros o' (_ & ? & _). }
  split; [apply (rr_sorted _ _ Hd)|]. split; [by eapply list_elem_of_fmap_2, list_elem_of_lookup_2|].
  apply Forall_fmap. eapply Forall_impl; [exact Hring|]. intros o' [->|(_ & unp & Hr & _ & _ & Hs & Hh & Hu)]; [by left|].
  right. by exists unp.
Qed.

Lemma inputs_hidden h t coins ds ins : Forall2 (hides cn_fast_hash (offered_member h t)) coins ds → ins ≡ₚ ds →
  ∃ hiding, hiding ≡ₚ coins ∧ Forall2 (hidden h t) hiding (input_of <$> ins).
Proof.
  intros Hh Hp. apply Forall2_flip in Hh. symmetry in Hp. destruct (Permutation_Forall2 Hp Hh) as (hiding & Hperm & Hf).
  exists hiding. split; [by symmetry|]. apply Forall2_flip in Hf. apply Forall2_fmap_r. eapply Forall2_impl; [exact Hf|].
  intros o d Hd. by apply hides_hidden.
Qed.

Lemma spent_facts P coins ds : Forall2 (hides cn_fast_hash P) coins ds →
  in_amount <$> ds = o_amount <$> coins ∧ in_key_image <$> ds = o_key_image <$> coins ∧ length ds = length coins.
Proof. induction 1 as [|o d coins ds [_ [Ha Hi _] _] _ (I1 & I2 & I3)]; [done|]. cbn. by rewrite Ha, Hi, I1, I2, I3. Qed.

Lemma payment_fields_read fields payment_id e key : byte_string 32 payment_id → fields = payment_fields payment_id →
  parse_transaction_extra e = (true, set_field (TransactionExtraPublicKey key) fields) →
  get_payment_id_from_tx_extra e = if bool_decide (payment_id = null_hash) then None else Some payment_id.
Proof.
  intros [_ Hl] ->. unfold get_payment_id_from_tx_extra, payment_fields. intros ->. case_bool_decide; [done|].
  cbn. unfold get_payment_id_from_transaction_extra_nonce, set_payment_id_to_transaction_extra_nonce. cbn [length].
  rewrite Hl. done.
Qed.

Lemma chosen_facts (s : State D) v h wanted P `{!∀ o, Decision (P o)} us chosen rest : gathered s v h wanted us →
  chosen ++ rest ≡ₚ filter P us → gathered s v h wanted chosen ∧ Forall P chosen.
Proof.
  intros [Hnd Hav Hw] Hperm.
  assert (∀ o, o ∈ chosen → P o ∧ o ∈ us) as Hin.
  { intros o Ho. assert (o ∈ filter P us) as Hf by (rewrite <- Hperm; apply elem_of_app; by left).
    by apply list_elem_of_filter in Hf. }
  assert (NoDup (chosen ++ rest)) as Hc by (rewrite Hperm; by apply NoDup_filter).
  rewrite Forall_forall in Hav, Hw. split; [split|].
  - by apply NoDup_app in Hc as [].
  - apply Forall_forall. intros o Ho. by apply Hav, Hin.
  - apply Forall_forall. intros o Ho. by apply Hw, Hin.
  - apply Forall_forall. intros o Ho. by apply Hin.
Qed.

Section built.
Context (s : State D) (v : contents) (status : Status) (rq : CreateTransaction) (ck : Checked) (tip_timestamp : Timestamp).
Abbreviation total := (asked_total (t_transfers (transaction rq))).
Abbreviation h0 := (u32 (ck_height ck)).
Hypothesis wallet_is_ready : wallet_ready s v.
Hypothesis request_is_checked : request_checked s rq ck.
Hypothesis positive : 0 < total ∧ 0 ≤ minimum_fee currency.
Hypothesis anonymity_small : 0 ≤ t_anonymity (transaction rq) < 2 ^ 32 - 1.
Hypothesis payment_id_bytes : byte_string 32 (t_payment_id (transaction rq)).
Hypothesis version_byte : in_u 8 (current_transaction_version currency).
Hypothesis unlock_time_fits : in_u 64 (t_unlock_time (transaction rq)).

(** A signed transaction of a builder that spends the coins. *)
Lemma signs_payment b coins ds ins outs tx_key tx fee change :
  builder_ok cn_fast_hash b → signs cn_fast_hash b ins outs tx_key tx → m_input_descs b = ds →
  Forall2 (hides cn_fast_hash (offered_member h0 tip_timestamp)) coins ds →
  Forall (λ o, Selector.usable currency (WalletSyncing.tip_height s) (bh_timestamp (tip s)) h0 o = true) coins →
  gathered s v h0 (addresses_of rq) coins →
  worth coins = total + fee + change →
  minimum_fee currency ≤ fee < fee_limit currency (ck_fee_per_byte ck) (limit_of (next_block_effective_median_size status)) +
    default_dust_threshold currency → 0 ≤ change →
  outputs_for rq ck change (m_output_descs b) → m_extra b = payment_fields (t_payment_id (transaction rq)) →
  unlock_time (tx_prefix (m_transaction b)) = t_unlock_time (transaction rq) →
  payment s v status rq ck tip_timestamp tx coins outs tx_key fee change.
Proof using All.
  intros Hb Hsg Hds Hhide Huse Hg Hworth Hfee Hch Hout Hex Hun. destruct positive as [Hpos Hmf].
  destruct (spent_facts _ _ _ Hhide) as (Ham & Hki & Hlen).
  destruct (gathered_bounds _ _ _ _ _ wallet_is_ready Hg) as (_ & _ & _ & [_ Hw] & _ & Hnd).
  pose proof (of_sum _ _ _ _ Hout) as Hsum.
  assert (sum (in_amount <$> m_input_descs b) = worth coins) as Hin by (rewrite Hds, Ham; done).
  split.
  - split; [apply Hg|]. split; [apply Hg|done].
  - eapply Forall_impl; [apply (ga_wanted _ _ _ _ _ Hg)|]. intros o. unfold addresses_of.
    rewrite (rc_any _ _ _ request_is_checked). case_bool_decide as Hnil; [by left|]. intros [Hin'|?]; [|by right].
    destruct request_is_checked as [_ _ _ Hrec]. rewrite Forall_forall in Hrec.
    destruct (Hrec _ Hin') as (addr & r & Hp & _). by apply parsed_address in Hp as (_ & ? & _).
  - done.
  - done.
  - by rewrite (images_of _ ins), <- Hki, <- Hds, (sg_ins _ _ _ _ _ _ Hsg) by apply Hsg.
  - intros check. rewrite (signed_semantic cn_fast_hash hash_bytes b ins outs tx_key tx check Hb Hsg).
    + f_equal. lia.
    + rewrite Hds. intros ->. apply Forall2_nil_inv_r in Hhide as ->. unfold worth in Hworth. cbn in Hworth. lia.
    + by rewrite Hds, Hki.
    + eapply Forall_impl; [apply (of_ok _ _ _ _ Hout)|]. by intros d (_ & _ & ?).
    + lia.
  - split; [apply (sg_length _ _ _ _ _ _ Hsg)|apply (sg_outputs _ _ _ _ _ _ Hsg)].
  - destruct Hout as [Hs1 Hs2 Hs3]. pose proof (sg_outs _ _ _ _ _ _ Hsg) as Hperm. split.
    + by rewrite <- Hs1, (sum_permutation _ _ (fmap_Permutation od_amount _ _ Hperm)).
    + intros a. by rewrite <- Hs2, (to_addr_perm a _ _ Hperm).
    + by rewrite Hperm.
  - split; [apply (sg_key _ _ _ _ _ _ Hsg)|]. eapply extra_public_key; [apply (bo_extra _ _ Hb)|].
    apply (sg_extra _ _ _ _ _ _ Hsg).
  - eapply payment_fields_read; [done|exact Hex|apply (sg_extra _ _ _ _ _ _ Hsg)].
  - by rewrite (sg_unlock _ _ _ _ _ _ Hsg).
  - rewrite (sg_inputs _ _ _ _ _ _ Hsg). eapply inputs_hidden; [exact Hhide|]. rewrite <- Hds. apply (sg_ins _ _ _ _ _ _ Hsg).
  - intros B' I chain' h t Hshare Hlater Hon.
    destruct (signed_jobs cn_fast_hash currency chain' h t b ins outs tx_key tx Hb Hsg) as (args & Hjobs & Hacc & Hl).
    { rewrite Hds. clear -Hhide Hlater Hshare Hon. induction Hhide as [|o d coins ds Ho _ IH]; [constructor|].
      apply Forall_cons in Hon as [Hon1 Hon2]. constructor; [by eapply hidden_spendable|by apply IH]. }
    exists args. split; [done|]. split; [done|]. by rewrite Hl, Hds.
Qed.
End built.

(** C3: Creating a transaction never goes wrong silently.  For a request that
    passed the checks, with addresses that differ and transfers that parse, the
    wallet either reports that no coins can be selected or that the node had
    too few outputs to hide among, or returns a transaction that pays exactly
    what was asked: it spends distinct, available, unlocked coins of the
    addresses allowed, worth the transfers, a fee of at least the minimum and
    the change; every address gets what its transfers and the change sum to, in
    outputs made for its keys; the payment id and unlock time are those
    requested.  Each coin is hidden among distinct outputs of its amount that
    the node it asked has unspent, unlocked and not above the confirmed height.
    The transaction passes the checks that need no chain, with that fee; and any
    node that has the outputs up to the confirmed height as the asked one does,
    and has the coins unspent and unlocked, accepts all its rings, from the
    confirmed height and the time of the asked node's tip on, whatever else its
    chain holds above that height. *)
Theorem payment_is_valid (s : State D) v status rq ck st tip_height tip_timestamp draws :
  wallet_ready s v → NoDup (spend_addresses rq) →
  check_request currency cn_fast_hash s status rq = Ok ck →
  t_transfers (transaction rq) ≠ [] →
  for_each (add_transfer currency cn_fast_hash) (t_transfers (transaction rq)) (∅, ∅, 0) = Ok st →
  0 ≤ next_block_effective_median_size status ∧ 120 * next_block_effective_median_size status < 2 ^ 64 →
  amounts_ok currency (asked_total (t_transfers (transaction rq))) (ck_fee_per_byte ck)
    (limit_of (next_block_effective_median_size status)) →
  0 ≤ t_anonymity (transaction rq) < 2 ^ 32 - 1 → byte_string 32 (t_payment_id (transaction rq)) →
  in_u 8 (current_transaction_version currency) → in_u 64 (t_unlock_time (transaction rq)) →
  let r := new_transaction currency cn_fast_hash sort_outputs rnd shuffle_outputs shuffle_inputs chain tip_height
             tip_timestamp draws s status rq ck in
  (∃ m, r = Throw m ∧ m ∈ "Not enough anonymity for amount"%string :: cannot_select) ∨
  ∃ tx history coins outs tx_key fee change, r = Ok (tx, history) ∧
    payment s v status rq ck tip_timestamp tx coins outs tx_key fee change.
Proof using All.
  intros Hw Hnd Hck Hne Htr Hmed Ham Han Hpid Hver Hunl. cbn zeta.
  pose proof (check_request_ok _ _ _ _ Hck) as Hrc. pose proof (transfers_positive _ _ _ Htr) as Hpos.
  unfold new_transaction.
  destruct (start_ok s v status rq ck Hw Hrc Hnd Hmed Ham Hpid Hne st Htr)
    as [(m & -> & Hm)|(b & sel & history & change & n & -> & Hcoins & Hout & Hbi & Hbe & Hbn & Hbv & Hbu)].
  { left. exists m. split; [done|]. by right. }
  cbn [mbind result_bind]. set (outs_count := u32 _).
  destruct (random_response_ok currency chain decodes chain_numbered draws tip_height tip_timestamp
    (Selector.ra_amounts sel) outs_count (ck_height ck)) as (ra & -> & Hra); [unfold outs_count; apply u32_bound|].
  replace (ck_height ck <? 0) with false in Hra by (pose proof (rc_height _ _ _ Hrc); lia).
  cbn [mbind result_bind].
  destruct Hcoins as [(us & Hg & rest & fee & Hperm & Hworth & Hfee & _ & _ & Hch & _)].
  destruct (chosen_facts s v _ _ _ _ _ _ Hg Hperm) as [Hgc Huse].
  unfold finish_transaction, add_mixed_inputs. set (coins := Selector.used_unspents sel) in *.
  assert (builder_ok cn_fast_hash b) as Hb.
  { split; [by rewrite Hbv|by rewrite Hbu|done|by rewrite Hbi|].
    eapply Forall_impl; [apply (of_ok _ _ _ _ Hout)|]. by intros d (? & ? & ?). }
  destruct (add_mixed_inputs_loop cn_fast_hash hash_bytes sort_outputs sort_perm sort_sorted currency
    (m_view_secret_key (m_wallet (main s))) (if any_spend_address rq then records s else ck_only_records ck)
    (t_anonymity (transaction rq)) Han (offered_member (u32 (ck_height ck)) tip_timestamp) (offered_ok _ _) coins ra b)
    as [->|(ra' & b' & ds & -> & Hb' & Hds & Hhide & Hod & Hxe & Htx)];
    [by eapply gathered_coins|exact Hra|exact Hb|by left; eexists; split; [done|left]|right].
  cbn [mbind result_bind mret result_ret]. rewrite Hbi in Hds. cbn [app] in Hds.
  destruct (gathered_bounds _ _ _ _ _ Hw Hgc) as (_ & _ & _ & _ & Hlen & _).
  destruct (spent_facts _ _ _ Hhide) as (_ & _ & Hdl).
  destruct (sign_ok cn_fast_hash hash_bytes rnd shuffle_outputs shuffle_inputs rnd_bytes shuffle_outputs_perm
    shuffle_inputs_perm b' (m_tx_derivation_seed (m_wallet (main s))) 0 Hb')
    as (ins & outs & tx_key & tx & b2 & draws' & -> & Hsg); [by rewrite Hds, Hdl| |].
  { rewrite Hod. eapply outputs_few; [exact Hout|]. destruct (gathered_bounds _ _ _ _ _ Hw Hgc) as (_ & _ & _ & [_ ?] & _).
    unfold coins in *. destruct Ham as (_ & _ & ? & _). lia. }
  exists tx, history, coins, outs, tx_key, fee, change. split; [done|].
  destruct Ham as (_ & _ & Hmf & _).
  eapply signs_payment; try done.
  - split; [|done]. by apply asked_positive.
  - by rewrite Hod.
  - by rewrite Hxe.
  - by rewrite Htx.
Qed.

End finish.
End chain.

End payment.
End Payments.
