(* ===== verification/PaymentSample.v ===== *)
(** * A payment

    A wallet with one coin pays an address from it: an instance of
    [payment_is_valid]. *)

From S2P Require Import Prelude Varint Containers Words Seria Text CryptoNote TransactionExtra Amounts Blocks Currency Db Store Headers ChainState Redo Scalars ScalarLaws Crypto CryptoLaws WalletData Wallet WalletIndex WalletLaws WalletSpec WalletOpen WalletTheorems Selector SelectorLaws Builder BuilderLaws WalletSyncing WalletPool RandomOutputs RandomOutputsLaws WalletNode WalletCoins PaymentLaws Payments.
Import Containers Codec Varint CryptoNote TransactionExtra Amounts Blocks Currency Db Store Headers ScalarLaws Crypto CryptoLaws WalletData Wallet WalletIndex WalletLaws WalletSpec WalletOpen WalletTheorems SelectorLaws Builder BuilderLaws WalletSyncing WalletPool RandomOutputs RandomOutputsLaws WalletNode WalletCoins PaymentLaws Payments.

Local Open Scope Z_scope.

Module PaymentSample.

#[local] Existing Instance Cyclic.cyclic.

(** ** A chain that is only read: the outputs of one amount *)

Definition coin_amount : Amount := 900000000.

#[local] Instance ledger : ChainState.IBlockChainState (list ChainState.Output) := {|
  ChainState.store_keyimage _ _ _ := Throw "read only";
  ChainState.delete_keyimage _ _ := Throw "read only";
  ChainState.read_keyimage _ _ := Ok None;
  ChainState.push_amount_output _ _ _ _ _ := Throw "read only";
  ChainState.pop_amount_output _ _ _ _ := Throw "read only";
  ChainState.next_global_index_for_amount l a := Ok (if a =? coin_amount then Z.of_nat (length l) else 0);
  ChainState.read_amount_output l a i := Ok (if a =? coin_amount then l !! Z.to_nat i else None);
  ChainState.spend_output _ _ _ := Throw "read only";
|}.

(** ** The wallet *)

Definition address_of (spend : SecretKey) : AccountPublicAddress :=
  {| spend_public_key := sample_public spend; view_public_key := sample_public sample_view |}.
Definition address_text (spend : SecretKey) : list Z := run (account_address_as_string sum_hash mainnet (address_of spend)) [].
Definition our_keys : AccountKeys :=
  {| address := address_of sample_spend; spend_secret_key := sample_spend; view_secret_key := sample_view |}.

Definition coin_keys : KeyPair * KeyImage :=
  some_of (generate_key_image_helper sum_hash our_keys sample_tx_public 0) ({| public_key := []; secret_key := [] |}, []).
Definition coin : Output :=
  {| o_amount := coin_amount; o_public_key := public_key coin_keys.1; o_global_index := 1; o_unlock_time := 0;
     o_index_in_transaction := 0; o_height := 1; o_key_image := coin_keys.2;
     o_transaction_public_key := sample_tx_public; o_address := address_text sample_spend; o_dust := false |}.

Definition purse : WalletState memory_db * Amount := run (Wallet.add_incoming_output mainnet wallet_0 coin) (wallet_0, 0).
(** The wallet, synchronized to another height. *)
Definition at_height (w : WalletState memory_db) (h : Height) : WalletState memory_db :=
  {| m_db := m_db w; m_tip_height := h; m_tail_height := 0; m_tip := m_tip w; current_undo_map := current_undo_map w |}.
Definition purse_state : State memory_db :=
  {| main := {| basic := at_height purse.1 20; m_wallet := sample_keys |};
     m_tx_pool_version := 0; m_pq_version := 0; m_memory_state := no_delta; m_pool_hashes := ∅; payment_queue := ∅ |}.

Definition chain_output (key : PublicKey) : ChainState.Output :=
  {| ChainState.o_unlock_time := 0; ChainState.o_public_key := key; ChainState.o_height := 1;
     ChainState.o_spent := false |}.
Definition sample_chain : list ChainState.Output :=
  [chain_output (sample_public (small_scalar 21)); chain_output (o_public_key coin); chain_output (sample_public (small_scalar 22))].

(** ** The request *)

Definition sample_status : Status :=
  {| status_request := {| top_block_hash := null_hash; transaction_pool_version := 0; outgoing_peer_count := 0;
                          incoming_peer_count := 0; lower_level_error := [] |};
     top_block_height := 20; top_known_block_height := 20; top_block_difficulty := 0; recommended_fee_per_byte := 100;
     top_block_timestamp := 0; top_block_timestamp_median := 0; next_block_effective_median_size := 20000 |}.
Definition sample_request : CreateTransaction :=
  {| transaction := {| t_unlock_time := 0;
                       t_transfers := [{| tr_address := address_text (small_scalar 31); tr_amount := 300000000;
                                          tr_ours := false; tr_locked := false; tr_outputs := [] |}];
                       t_payment_id := replicate 32 5; t_anonymity := 2; t_hash := null_hash; t_fee := 0;
                       t_public_key := null_hash; t_extra := []; t_coinbase := false; t_amount := 0; t_block_height := 0;
                       t_block_hash := null_hash; t_timestamp := 0; t_binary_size := 0 |};
     spend_addresses := [address_text sample_spend]; any_spend_address := false;
     change_address := address_text sample_spend; confirmed_height_or_depth := 10; fee_per_byte := 0;
     optimization := "minimal"; save_history := false; prevent_conflict_with_transactions := [] |}.
Definition sample_checked : Checked :=
  run (check_request mainnet sum_hash purse_state sample_status sample_request)
    {| ck_height := 0; ck_fee_per_byte := 0; ck_change_addr := address_of sample_spend; ck_only_records := ∅ |}.

#[local] Instance gi_le_dec : RelDecision gi_le.
Proof. intros x y. unfold gi_le. apply _. Defined.
#[local] Instance gi_le_total : Total gi_le.
Proof. intros x y. unfold gi_le. lia. Qed.
#[local] Instance gi_le_trans : Transitive gi_le.
Proof. intros x y z. unfold gi_le. lia. Qed.
Definition by_index (l : list Output) : list Output := merge_sort gi_le l.

Definition result_tx :=
  new_transaction mainnet sum_hash by_index (λ j, le_bytes 64 (Z.of_nat j + 1)) (λ l, l) (λ l, l)
    sample_chain 20 0 (λ _ k n, Z.of_nat k) purse_state sample_status sample_request sample_checked.

Abbreviation purse_contents := (spec_add no_contents coin false).1.

(** ** The conditions *)

Lemma output_c_ok o : byte_string 32 (o_public_key o) → in_u 32 (o_global_index o) → in_u 64 (o_amount o) →
  in_u 64 (o_unlock_time o) → in_u 32 (o_index_in_transaction o) → in_u 32 (o_height o) →
  byte_string 32 (o_key_image o) → byte_string 32 (o_transaction_public_key o) →
  bytes (o_address o) ∧ in_u 64 (Z.of_nat (length (o_address o))) → c_ok ser_Output o.
Proof. intros [] ? ? ? ? ? [] [] []. unfold ser_Output. cbn. by split_and!. Qed.

Lemma coin_c_ok : c_ok ser_Output coin.
Proof. apply output_c_ok; apply (bool_decide_unpack _); vm_compute; exact I. Qed.

Lemma shows_at_height w h v : shows mainnet w v → shows mainnet (at_height w h) v.
Proof. intros [Hi Hb Ho]. split; [done| |done]. by eapply balances_agree. Qed.

Lemma purse_filled : Wallet.add_incoming_output mainnet wallet_0 coin = Ok purse.
Proof. unfold purse. apply run_ok. vm_compute. reflexivity. Qed.

Lemma incoming_shows (w : WalletState memory_db) v o r : shows mainnet w v → c_ok ser_Output o → room 1 v →
  Wallet.add_incoming_output mainnet w o = Ok r → shows mainnet r.1 (spec_add v o false).1.
Proof. destruct r as [w' am]. intros Hs Ho Hr Ha. by destruct (add_output_spec mainnet w v o false w' am Hs Ho Hr Ha). Qed.

Lemma purse_room : room 1 no_contents.
Proof. vm_compute. reflexivity. Qed.

Lemma purse_shows_1 : shows mainnet purse.1 purse_contents.
Proof. exact (incoming_shows wallet_0 no_contents coin purse (proj1 wallet_0_ok) coin_c_ok purse_room purse_filled). Qed.

Lemma purse_shows : shows mainnet (basic (main purse_state)) purse_contents.
Proof. exact (shows_at_height purse.1 20 purse_contents purse_shows_1). Qed.

(** Nothing was unlocked: the log of unlocked outputs is empty. *)
Lemma readable_empty (s : State memory_db) :
  map_Forall (λ k _, ¬ UNLOCKED_prefix `prefix_of` k) (proj1_sig (m_db (basic (main s)))) → readable s.
Proof.
  intros Hnone a height. unfold api_get_unlocked_outputs, read_unlock_index. destruct (_ && _); [by eexists|].
  destruct (for_cursor_ok (m_db (basic (main s))) UNLOCKED_prefix (write_varint_sqlite4 (u32 (height + 1)))
    (λ add c, unlock_entry a UINT32_MAX add (suffix c, data c)) (unlock_entry a UINT32_MAX)) as (es & Hes & ->); [done|done|].
  destruct es as [|[k x] es]; [by eexists|]. exfalso.
  assert ((k, x) ∈ (k, x) :: es) as Hin by (by left). apply Hes in Hin as [Hg _].
  eapply Hnone; [exact Hg|]. by exists k.
Qed.

Lemma sample_public_of sec : valid sec → sample_public sec = public_of sec.
Proof. apply scalarmult_base_public. Qed.

Lemma coin_owned : owned mainnet sum_hash purse_state coin.
Proof.
  split; [split; [|done]|split; [|split]].
  - apply (bool_decide_unpack _). vm_compute. exact I.
  - unfold small_index. vm_compute. split; [discriminate|done].
  - vm_compute. reflexivity.
  - exists (address_of sample_spend), sample_record.
    split; [vm_compute; reflexivity|]. split; [vm_compute; reflexivity|]. split; [reflexivity|]. split.
    + split; [apply reduced_valid|]. split; [apply reduced_valid|]. apply sample_public_of, reduced_valid.
    + split; [eexists; exact (@ge_frombytes_tobytes _ Cyclic.cyclic_laws (ge_scalarmult_base sample_tx_secret))|]. split; [vm_compute; split; [discriminate|done]|].
      exists coin_keys.1. split; [vm_compute; reflexivity|done].
Qed.

Lemma purse_ready : wallet_ready mainnet sum_hash purse_state purse_contents.
Proof.
  assert (v_unspent purse_contents = [coin]) as Hv by (vm_compute; reflexivity).
  split; rewrite ?Hv.
  - apply purse_shows.
  - apply readable_empty. apply (bool_decide_unpack _). vm_compute. exact I.
  - constructor; [apply coin_owned|constructor].
  - vm_compute. reflexivity.
  - vm_compute. reflexivity.
Qed.

#[local] Instance decodes_dec key : Decision (decodes key).
Proof. unfold decodes. apply _. Defined.

Lemma ledger_numbered (l : list ChainState.Output) : Forall (λ o, decodes (ChainState.o_public_key o)) l →
  Z.of_nat (length l) < 2 ^ 31 → numbered l decodes.
Proof.
  intros Hl Hlen. split.
  - intros amount. eexists. split; [reflexivity|]. destruct (amount =? coin_amount); cbn; lia.
  - intros amount n i [= <-] Hi. cbn. destruct (amount =? coin_amount); [|lia].
    destruct (lookup_lt_is_Some_2 l (Z.to_nat i)) as [unp Hunp]; [lia|]. exists unp. rewrite Hunp. split; [done|].
    rewrite Forall_forall in Hl. by apply Hl, (list_elem_of_lookup_2 _ (Z.to_nat i)).
Qed.

Lemma sample_chain_numbered : numbered sample_chain decodes.
Proof. apply ledger_numbered; [|done]. repeat constructor; apply (bool_decide_unpack _); vm_compute; exact I. Qed.

(** ** The payment *)

Definition draws : nat → nat → Z → Z := λ _ k _, Z.of_nat k.
Definition outcome : result (Transaction * gset AccountPublicAddress) :=
  new_transaction mainnet sum_hash by_index (λ j, le_bytes 64 (Z.of_nat j + 1)) (λ l, l) (λ l, l) sample_chain 20 0 draws
    purse_state sample_status sample_request sample_checked.

Definition sample_transfers : gmap AccountPublicAddress Amount * gset AccountPublicAddress * Amount :=
  run (for_each (add_transfer mainnet sum_hash) (t_transfers (transaction sample_request)) (∅, ∅, 0)) (∅, ∅, 0).

(** Another node: there every output has been spent in the meantime, and the
    chain is longer. *)
Definition spent_output (o : ChainState.Output) : ChainState.Output :=
  {| ChainState.o_unlock_time := ChainState.o_unlock_time o; ChainState.o_public_key := ChainState.o_public_key o;
     ChainState.o_height := ChainState.o_height o; ChainState.o_spent := true |}.
Definition other_node (l more : list ChainState.Output) : list ChainState.Output := (spent_output <$> l) ++ more.

Lemma other_node_shares l more h : shares_up_to l h (other_node l more).
Proof.
  intros amount i unp. cbn. intros [= Hu] _. destruct (amount =? coin_amount); [|done]. exists (spent_output unp).
  split; [|done]. unfold other_node. f_equal. apply lookup_app_l_Some. by rewrite list_lookup_fmap, Hu.
Qed.

Lemma payment_is_valid_witness :
  ((∃ m, outcome = Throw m ∧ m ∈ "Not enough anonymity for amount"%string :: cannot_select) ∨
   ∃ tx history coins outs tx_key fee change, outcome = Ok (tx, history) ∧
     payment mainnet sum_hash sample_chain purse_state purse_contents sample_status sample_request sample_checked 0
       tx coins outs tx_key fee change) ∧
  (∀ more, shares_up_to sample_chain (u32 (ck_height sample_checked)) (other_node sample_chain more) ∧
     Forall (on_chain mainnet (other_node sample_chain more) 30 7) [coin]) ∧
  match outcome with
  | Ok (tx, _) => out_amount <$> outputs (tx_prefix tx) = [9000000; 90000000; 300000000; 500000000]
  | _ => False
  end.
Proof.
  split; [|split; [intros more; split; [apply other_node_shares|] |vm_compute; reflexivity]]; cycle 1.
  { constructor; [|constructor]. split; [reflexivity|]. exists (spent_output (chain_output (o_public_key coin))).
    split; [reflexivity|]. split; reflexivity. }
  apply (@payment_is_valid memory_db memory_lmdb memory_lmdb_laws Cyclic.cyclic Cyclic.cyclic_laws mainnet sum_hash
    sum_hash_bytes _ ledger sample_chain by_index (λ j, le_bytes 64 (Z.of_nat j + 1)) (λ l, l) (λ l, l)) with (st := sample_transfers).
  - intros l. apply merge_sort_Permutation.
  - intros l. apply (StronglySorted_merge_sort _).
  - apply draws_bytes.
  - done.
  - done.
  - apply sample_chain_numbered.
  - apply purse_ready.
  - apply (bool_decide_unpack _). vm_compute. exact I.
  - unfold sample_checked. apply run_ok. vm_compute. reflexivity.
  - discriminate.
  - unfold sample_transfers. apply run_ok. vm_compute. reflexivity.
  - vm_compute. split; [discriminate|reflexivity].
  - unfold amounts_ok. vm_compute. repeat split; (reflexivity || discriminate).
  - vm_compute. split; [discriminate|reflexivity].
  - apply (bool_decide_unpack _). vm_compute. exact I.
  - apply (bool_decide_unpack _). vm_compute. exact I.
  - apply (bool_decide_unpack _). vm_compute. exact I.
Defined.

(** ** An address given twice

    Its coins are gathered twice, and one coin can be spent by two inputs. *)

Definition repeated_request : CreateTransaction :=
  {| transaction := {| t_unlock_time := 0;
                       t_transfers := [{| tr_address := address_text (small_scalar 31); tr_amount := 1000000000;
                                          tr_ours := false; tr_locked := false; tr_outputs := [] |}];
                       t_payment_id := null_hash; t_anonymity := 2; t_hash := null_hash; t_fee := 0;
                       t_public_key := null_hash; t_extra := []; t_coinbase := false; t_amount := 0; t_block_height := 0;
                       t_block_hash := null_hash; t_timestamp := 0; t_binary_size := 0 |};
     spend_addresses := [address_text sample_spend; address_text sample_spend]; any_spend_address := false;
     change_address := address_text sample_spend; confirmed_height_or_depth := 10; fee_per_byte := 0;
     optimization := "minimal"; save_history := false; prevent_conflict_with_transactions := [] |}.

Lemma repeated_address_spends_twice :
  match (ck ← check_request mainnet sum_hash purse_state sample_status repeated_request;
         new_transaction mainnet sum_hash by_index (λ j, le_bytes 64 (Z.of_nat j + 1)) (λ l, l) (λ l, l) sample_chain 20 0
           draws purse_state sample_status repeated_request ck) with
  | Ok (tx, _) => images tx = [o_key_image coin; o_key_image coin]
  | _ => False
  end.
Proof. vm_compute. reflexivity. Qed.

End PaymentSample.
