(* ===== verification/HeaderLaws.v ===== *)
(** * Headers and the main chain: theorems

    The header caches change no answer, the index of the main chain and its
    tip agree with the headers, and the walks find what they look for. *)

From S2P Require Import Prelude Varint Containers Seria Text CryptoNote Blocks Currency Db Store Pool Redo Headers.
Import Containers Codec Varint CryptoNote Blocks Currency Db Redo Headers.

Local Open Scope Z_scope.

Module HeaderLaws.

Definition is_hash (h : Hash) : Prop := c_ok ser_Hash h.

(** ** The keys of the chain do not meet *)

Inductive ckey :=
| KBlock (bid : Hash) | KHeader (bid : Hash) | KIndices (bid : Hash) | KTransaction (tid : Hash)
| KChain (height : Height) | KTime (timestamp : Timestamp) (height : Height)
| KChildren (bid : Hash) | KTips (cd : Difficulty) (bid : Hash).

Global Instance ckey_eq_dec : EqDecision ckey.
Proof. solve_decision. Defined.

Definition key_of (k : ckey) : Key :=
  match k with
  | KBlock bid => BLOCK_key bid
  | KHeader bid => HEADER_key bid
  | KIndices bid => block_indices_key bid
  | KTransaction tid => TRANSATION_key tid
  | KChain height => TIP_CHAIN_key height
  | KTime timestamp height => TIMESTAMP_BLOCK_key timestamp height
  | KChildren bid => CHILDREN_key bid
  | KTips cd bid => CD_TIPS_key cd bid
  end.

Definition ckey_ok (k : ckey) : Prop :=
  match k with
  | KBlock h | KHeader h | KIndices h | KTransaction h | KChildren h => is_hash h
  | KChain height => in_u 32 height
  | KTime timestamp height => in_u 32 timestamp ∧ in_u 32 height
  | KTips cd bid => in_u 64 cd ∧ is_hash bid
  end.


Lemma varint_inj a b : in_u 64 a → in_u 64 b → write_varint_sqlite4 a = write_varint_sqlite4 b → a = b.
Proof.
  intros Ha Hb Heq. destruct (write_varint_sqlite4_app_inj a b [] [] Ha Hb); [by rewrite Heq|done].
Qed.

Lemma block_key_inj (x y : Hash) (c d : Z) : is_hash x → is_hash y → x ++ [c] = y ++ [d] → x = y ∧ c = d.
Proof.
  intros [_ Hx] [_ Hy] Heq. apply app_inj_1 in Heq; [|congruence]. destruct Heq as [-> [= ->]]. done.
Qed.

Lemma key_of_inj k k' : ckey_ok k → ckey_ok k' → key_of k = key_of k' → k = k'.
Proof.
  intros Hk Hk' Heq.
  destruct k, k'; try discriminate Heq; cbn [ckey_ok] in Hk, Hk'; injection Heq as Heq;
    try (apply block_key_inj in Heq as [-> ?]; [done|done|done]).
  all: try (by rewrite Heq).
  - apply varint_inj in Heq; [by rewrite Heq|by apply in_u_32_64..].
  - apply write_varint_sqlite4_app_inj in Heq as [-> Heq]; [|apply in_u_32_64, Hk|apply in_u_32_64, Hk'].
    apply varint_inj in Heq; [by rewrite Heq|apply in_u_32_64, Hk|apply in_u_32_64, Hk'].
  - apply write_varint_sqlite4_app_inj in Heq as [-> ->]; [done|apply Hk|apply Hk'].
Qed.

Lemma key_of_other k : Store.other_key (key_of k).
Proof. by destruct k. Qed.

Lemma length_varint v : in_u 64 v → (length (write_varint_sqlite4 v) ≤ 9)%nat.
Proof.
  intros Hv. pose proof (length_write_varint_sqlite4 v Hv) as Hl. unfold get_varint_sqlite4_size in Hl.
  repeat case_match; lia.
Qed.

Lemma key_of_length k : ckey_ok k → (0 < length (key_of k) ≤ 64)%nat.
Proof.
  intros Hk. destruct k; cbn [ckey_ok] in Hk;
    unfold key_of, BLOCK_key, HEADER_key, block_indices_key, TRANSATION_key, TIP_CHAIN_key, TIMESTAMP_BLOCK_key,
      CHILDREN_key, CD_TIPS_key; rewrite !length_app; try (destruct Hk as [_ ->]; cbn; lia).
  - pose proof (length_varint height (in_u_32_64 _ Hk)). cbn. lia.
  - pose proof (length_varint _ (in_u_32_64 _ (proj1 Hk))). pose proof (length_varint height (in_u_32_64 _ (proj2 Hk))). cbn. lia.
  - destruct Hk as [Hcd [_ ->]]. pose proof (length_varint _ Hcd). cbn. lia.
Qed.

Section db.
Context {D : Type} `{LmdbLaws D}.

(** What the database holds at a key of the chain. *)
Definition at_key (d : D) (k : ckey) : option (list Z) := get d (key_of k).

(** Writing at one key of the chain. *)
Definition wrote (d : D) (k : ckey) (x : option (list Z)) (d' : D) : Prop :=
  mdb_env_get_maxkeysize d' = mdb_env_get_maxkeysize d ∧
  (∀ k', ckey_ok k' → at_key d' k' = if decide (key_of k' = key_of k) then x else at_key d k') ∧
  (∀ k', k' ≠ key_of k → get d' k' = get d k').

Definition roomy (d : D) : Prop := (64 ≤ mdb_env_get_maxkeysize d)%nat.

Lemma key_of_fits d k : roomy d → ckey_ok k → key_ok d (key_of k).
Proof. intros Hr Hk. pose proof (key_of_length k Hk). unfold key_ok, roomy in *. lia. Qed.

Lemma written_wrote d k x d' : written d (key_of k) x d' → wrote d k x d'.
Proof.
  intros [Hm Hw]. split; [done|]. split; [intros k' _; apply Hw|]. intros k' Hne.
  rewrite Hw. by destruct (decide (k' = key_of k)).
Qed.

Lemma put_key d k v (no : bool) : roomy d → ckey_ok k → (no = true → at_key d k = None) →
  ∃ d', put d (key_of k) v no = Ok d' ∧ wrote d k (Some v) d'.
Proof.
  intros Hr Hk Hno. destruct (put_ok d (key_of k) v no (key_of_fits _ _ Hr Hk) Hno) as (d' & Hp & Hw).
  exists d'. split; [done|by apply written_wrote].
Qed.

Lemma del_key d k (must : bool) : roomy d → ckey_ok k → (must = true → is_Some (at_key d k)) →
  ∃ d', del d (key_of k) must = Ok d' ∧ wrote d k None d'.
Proof.
  intros Hr Hk Hm. destruct (del_ok d (key_of k) must (key_of_fits _ _ Hr Hk) Hm) as (d' & Hp & Hw).
  exists d'. split; [done|by apply written_wrote].
Qed.

Lemma wrote_same d k x d' k' : wrote d k x d' → ckey_ok k → ckey_ok k' → k ≠ k' → at_key d' k' = at_key d k'.
Proof.
  intros (_ & Hw & _) Hk Hk' Hne. rewrite Hw by done.
  destruct (decide _) as [Heq|]; [|done]. by apply key_of_inj in Heq.
Qed.
Lemma wrote_at d k x d' : wrote d k x d' → ckey_ok k → at_key d' k = x.
Proof. intros (_ & Hw & _) Hk. rewrite Hw by done. by destruct (decide _). Qed.

End db.

(** ** What the headers and the index show *)

(** A well-formed tree of headers over the genesis block. *)
Record tree_ok (genesis : Hash) (hs : gmap Hash api_BlockHeader) : Prop := {
  tr_ok bid h : hs !! bid = Some h → bh_hash h = bid ∧ c_ok ser_api_BlockHeader h;
  tr_parent bid h : hs !! bid = Some h → bh_height h ≠ 0 →
    ∃ p, hs !! bh_previous_block_hash h = Some p ∧ bh_height h = bh_height p + 1;
  tr_genesis bid h : hs !! bid = Some h → bh_height h = 0 → bid = genesis;
}.

(** [main] is a path in the tree from the genesis block on. *)
Record main_ok (hs : gmap Hash api_BlockHeader) (main : list api_BlockHeader) : Prop := {
  mn_height i h : main !! i = Some h → bh_height h = Z.of_nat i ∧ hs !! bh_hash h = Some h;
  mn_link i h h' : main !! i = Some h → main !! S i = Some h' → bh_previous_block_hash h' = bh_hash h;
  mn_length : Z.of_nat (length main) < 2 ^ 32 - 1;
}.

Section chain.
Context {D : Type} `{LmdbLaws D} (currency : Currency).

Definition genesis : Hash := genesis_block_hash currency.

(** The database and the cache hold the headers [hs]. *)
Record headers_show (b : BlockChain D) (hs : gmap Hash api_BlockHeader) : Prop := {
  hd_room : roomy (m_db b);
  hd_tree : tree_ok genesis hs;
  hd_header bid : is_hash bid →
    match hs !! bid with
    | Some h => ∃ ba, to_binary ser_api_BlockHeader h = Ok ba ∧ at_key (m_db b) (KHeader bid) = Some ba
    | None => at_key (m_db b) (KHeader bid) = None
    end;
  hd_cache bid h : header_cache b !! bid = Some h → hs !! bid = Some h;
}.

(** And the index, the tip and its window show [main]. *)
Record chain_shows (b : BlockChain D) (hs : gmap Hash api_BlockHeader) (main : list api_BlockHeader) : Prop := {
  cs_headers : headers_show b hs;
  cs_main : main_ok hs main;
  cs_index x : in_u 32 x → at_key (m_db b) (KChain x) = bh_hash <$> main !! Z.to_nat x;
  cs_tip : match last main with
    | Some t => m_tip_bid b = bh_hash t ∧ m_tip_cumulative_difficulty b = bh_cumulative_difficulty t
    | None => True
    end;
  cs_height : m_tip_height b = u32 (Z.of_nat (length main) - 1);
  (** The window is an end of the main chain. *)
  cs_window : ∃ k, m_header_tip_window b = drop k main ∧ (main ≠ [] → (k < length main)%nat);
}.

Lemma header_fields h : c_ok ser_api_BlockHeader h →
  is_hash (bh_previous_block_hash h) ∧ in_u 32 (bh_height h) ∧ is_hash (bh_hash h) ∧
  in_u 64 (bh_cumulative_difficulty h).
Proof. intros (_ & _ & _ & Hp & _ & Hh & Hha & _ & Hcd & _). done. Qed.

Lemma tree_hash hs bid h : tree_ok genesis hs → hs !! bid = Some h → is_hash bid ∧ bh_hash h = bid.
Proof.
  intros Ht Hb. destruct (tr_ok _ _ Ht _ _ Hb) as [<- Hok]. split; [|done]. by apply header_fields.
Qed.

(** ** Reading headers *)

(** [m] reads [a], and changes the header cache only. *)
Definition reads {A : Type} (b : BlockChain D) (hs : gmap Hash api_BlockHeader) (main : list api_BlockHeader)
    (m : result (A * BlockChain D)) (a : A) : Prop :=
  ∃ c, m = Ok (a, with_cache b c) ∧ chain_shows (with_cache b c) hs main.

Lemma headers_with_cache b hs c : headers_show b hs →
  (∀ bid h, c !! bid = Some h → hs !! bid = Some h) → headers_show (with_cache b c) hs.
Proof. intros [] Hc. by split. Qed.

Lemma shows_with_cache b hs main c : chain_shows b hs main →
  (∀ bid h, c !! bid = Some h → hs !! bid = Some h) → chain_shows (with_cache b c) hs main.
Proof. intros [] Hc. split; try done. by apply headers_with_cache. Qed.

Lemma reads_bind {A B : Type} b hs main (m : result (A * BlockChain D)) (f : A * BlockChain D → result (B * BlockChain D)) a x :
  reads b hs main m a →
  (∀ c, chain_shows (with_cache b c) hs main → reads (with_cache b c) hs main (f (a, with_cache b c)) x) →
  reads b hs main (m ≫= f) x.
Proof.
  intros (c & -> & Hs) Hf. cbn [mbind result_bind]. destruct (Hf c Hs) as (c' & Hfc & Hs').
  exists c'. split; [exact Hfc|exact Hs'].
Qed.

Lemma reads_ret {A : Type} b hs main (a : A) : chain_shows b hs main → reads b hs main (Ok (a, b)) a.
Proof. intros Hs. exists (header_cache b). destruct b. done. Qed.

(** The tip window holds the main chain, so its candidate is the header of
    that height. *)
Lemma window_candidate_ok b hs main hint : chain_shows b hs main → in_u 32 hint →
  window_candidate b hint = Ok None ∨
  ∃ h, window_candidate b hint = Ok (Some h) ∧ hs !! bh_hash h = Some h.
Proof.
  intros Hs Hh. destruct (cs_window _ _ _ Hs) as (k & Hw & Hk). pose proof (cs_height _ _ _ Hs) as Htip.
  pose proof (mn_length _ _ (cs_main _ _ _ Hs)) as Hlen.
  unfold window_candidate. rewrite Hw, Htip. destruct main as [|h0 main']; [by left|].
  specialize (Hk ltac:(done)). assert (1 ≤ length (h0 :: main'))%nat as Hpos by (cbn; lia).
  set (main := h0 :: main') in *. clearbody main.
  assert (u32 (Z.of_nat (length main) - 1) = Z.of_nat (length main) - 1) as ->.
  { apply Z.mod_small. lia. }
  rewrite length_drop.
  assert (u64 (Z.of_nat (length main) - 1 - Z.of_nat (length main - k) + 1) = Z.of_nat k) as ->.
  { unfold u64. rewrite Z.mod_small; lia. }
  destruct (_ && (Z.of_nat k <=? hint)) eqn:Hg; [|by left]. right.
  apply andb_true_iff in Hg as [[_ Hle]%andb_true_iff Hge].
  apply Z.leb_le in Hle, Hge. unfold in_u in Hh.
  assert (u32 (Z.of_nat (length main) - 1 - hint) = Z.of_nat (length main) - 1 - hint) as ->
    by (apply Z.mod_small; lia).
  assert (Z.to_nat (u64 (Z.of_nat (length main - k) - 1 - (Z.of_nat (length main) - 1 - hint))) =
    (Z.to_nat hint - k)%nat) as -> by (unfold u64; rewrite Z.mod_small; lia).
  rewrite lookup_drop. replace (k + (Z.to_nat hint - k))%nat with (Z.to_nat hint) by lia.
  destruct (lookup_lt_is_Some_2 main (Z.to_nat hint)) as [h Hl]; [lia|].
  rewrite Hl. exists h. split; [done|]. by apply (mn_height _ _ (cs_main _ _ _ Hs) _ _ Hl).
Qed.

Lemma read_cached_headers b hs bid : headers_show b hs → is_hash bid →
  ∃ c, read_cached currency b bid = Ok (hs !! bid, with_cache b c) ∧
    ∀ bid h, c !! bid = Some h → hs !! bid = Some h.
Proof.
  intros Hs Hb. unfold read_cached. destruct (header_cache b !! bid) as [h|] eqn:Hc.
  { rewrite (hd_cache _ _ Hs _ _ Hc). exists (header_cache b). split; [by destruct b|apply (hd_cache _ _ Hs)]. }
  assert (∃ c, (if Z.of_nat (size (header_cache b)) >? u32 (largest_window currency b * 10)
    then with_cache b ∅ else b) = with_cache b c ∧ headers_show (with_cache b c) hs) as (c & -> & Hs').
  { destruct (_ >? _).
    - exists ∅. split; [done|]. by apply headers_with_cache.
    - exists (header_cache b). by destruct b. }
  pose proof (hd_header _ _ Hs' bid Hb) as Hh. unfold at_key in Hh. cbn [key_of] in Hh.
  destruct (hs !! bid) as [h|] eqn:Hl.
  - destruct Hh as (ba & Hba & ->). destruct (tr_ok _ _ (hd_tree _ _ Hs) _ _ Hl) as [_ Hok].
    destruct (from_to_binary ser_api_BlockHeader h Hok) as (ba' & Hba' & _ & Hfrom).
    rewrite Hba in Hba'. injection Hba' as <-. rewrite Hfrom. cbn [mbind result_bind].
    eexists. split; [done|]. intros bid' h' Hin. cbn in Hin.
    apply lookup_insert_Some in Hin as [[<- <-]|[_ Hin]]; [done|]. by apply (hd_cache _ _ Hs').
  - rewrite Hh. exists c. split; [done|]. apply (hd_cache _ _ Hs').
Qed.

Lemma read_cached_ok b hs main bid : chain_shows b hs main → is_hash bid →
  reads b hs main (read_cached currency b bid) (hs !! bid).
Proof.
  intros Hs Hb. destruct (read_cached_headers b hs bid (cs_headers _ _ _ Hs) Hb) as (c & Hr & Hc).
  exists c. split; [done|]. by apply shows_with_cache.
Qed.

Lemma read_header_ok b hs main bid hint : chain_shows b hs main → is_hash bid → in_u 32 hint →
  reads b hs main (read_header currency b bid hint) (hs !! bid).
Proof.
  intros Hs Hb Hh. unfold read_header.
  destruct (window_candidate_ok b hs main hint Hs Hh) as [->|(h & -> & Hl)]; cbn [mbind result_bind].
  - by apply read_cached_ok.
  - case_bool_decide as Heq; [|by apply read_cached_ok]. subst bid. rewrite Hl. by apply reads_ret.
Qed.

Lemma expect_header_ok b hs main bid hint h : chain_shows b hs main → hs !! bid = Some h → in_u 32 hint →
  reads b hs main (expect_header currency b bid hint) h.
Proof.
  intros Hs Hl Hh. unfold expect_header.
  destruct (tree_hash _ _ _ (hd_tree _ _ (cs_headers _ _ _ Hs)) Hl) as [Hb _].
  eapply reads_bind; [by apply read_header_ok|]. intros c Hc. rewrite Hl. by apply reads_ret.
Qed.

(** ** Storing headers, pushing and popping *)

(** [b'] is [b] with the database changed at one key of the chain. *)
Definition wrote_chain (b : BlockChain D) (k : ckey) (x : option (list Z)) (b' : BlockChain D) : Prop :=
  wrote (m_db b) k x (m_db b') ∧ node b' = node (with_m_db b (m_db b')).

Lemma roomy_wrote d k x d' : roomy d → wrote d k x d' → roomy d'.
Proof. intros Hr [Hm _]. unfold roomy. by rewrite Hm. Qed.

Lemma headers_wrote b b' hs k x : headers_show b hs → wrote (m_db b) k x (m_db b') → ckey_ok k →
  (∀ bid, k ≠ KHeader bid) → header_cache b' = header_cache b → headers_show b' hs.
Proof.
  intros [Hr Ht Hh Hc] Hw Hk Hne Hcc. split; [by eapply roomy_wrote|done| |by rewrite Hcc].
  intros bid Hb. rewrite (wrote_same _ _ _ _ (KHeader bid) Hw) by done. by apply Hh.
Qed.

Lemma index_wrote b hs main d k x : chain_shows b hs main → wrote (m_db b) k x d → ckey_ok k →
  (∀ h, k ≠ KChain h) → ∀ x, in_u 32 x → at_key d (KChain x) = bh_hash <$> main !! Z.to_nat x.
Proof.
  intros Hs Hw Hk Hne y Hy. rewrite (wrote_same _ _ _ _ (KChain y) Hw) by done. by apply (cs_index _ _ _ Hs).
Qed.

Lemma store_header_ok b hs main bid h : chain_shows b hs main → hs !! bid = None →
  bh_hash h = bid → c_ok ser_api_BlockHeader h →
  tree_ok genesis (<[bid := h]> hs) →
  ∃ d, store_header b bid h = Ok (with_m_db b d) ∧ (∃ ba, wrote (m_db b) (KHeader bid) (Some ba) d) ∧
    chain_shows (with_m_db b d) (<[bid := h]> hs) main.
Proof.
  intros Hs Hnone Hh Hok Ht. pose proof (proj1 (proj2 (proj2 (header_fields h Hok)))) as Hb. rewrite Hh in Hb.
  destruct (from_to_binary ser_api_BlockHeader h Hok) as (ba & Hba & _).
  pose proof (hd_header _ _ (cs_headers _ _ _ Hs) bid Hb) as Hat. rewrite Hnone in Hat.
  destruct (put_key (m_db b) (KHeader bid) ba true (hd_room _ _ (cs_headers _ _ _ Hs)) Hb) as (d & Hp & Hw); [done|].
  exists d. unfold store_header. rewrite Hba. cbn [mbind result_bind].
  change (HEADER_key bid) with (key_of (KHeader bid)). rewrite Hp. cbn [mbind result_bind].
  split; [done|]. split; [by exists ba|]. pose proof (index_wrote _ _ _ _ _ _ Hs Hw Hb) as Hi.
  destruct Hs as [[Hr Hts Hhd Hc] [Hmh Hml Hmn] _ Htip Hhe Hwin].
  assert (∀ bid' h', hs !! bid' = Some h' → <[bid := h]> hs !! bid' = Some h') as Hext.
  { intros bid' h' Hin. rewrite lookup_insert_ne; [done|]. intros ->. by rewrite Hnone in Hin. }
  split; try done; [split; try done| |by apply Hi].
  - by eapply roomy_wrote.
  - intros bid' Hb'. change (m_db (with_m_db b d)) with d. destruct (decide (bid = bid')) as [<-|Hne].
    + rewrite lookup_insert_eq. exists ba. split; [done|]. by eapply wrote_at.
    + rewrite lookup_insert_ne by done.
      rewrite (wrote_same _ _ _ _ (KHeader bid') Hw) by (done || congruence). by apply Hhd.
  - intros bid' h' Hc'%Hc. by apply Hext.
  - split; try done. intros i x Hi'. destruct (Hmh i x Hi') as [? Hin]. split; [done|]. by apply Hext.
Qed.

(** The windows of the currency are not empty. *)
Definition windows_ok : Prop := ∀ b : BlockChain D, 0 < u32 (largest_window currency b * 2).

Lemma last_lookup_length {A} (l : list A) : last l = l !! (length l - 1)%nat.
Proof. rewrite last_lookup. f_equal. lia. Qed.

Lemma window_start b hs main : chain_shows b hs main →
  ∃ k, m_header_tip_window b = drop k main ∧ (k ≤ length main)%nat ∧ (main ≠ [] → (k < length main)%nat).
Proof.
  intros Hs. destruct (cs_window _ _ _ Hs) as (k & Hk & Hlt). destruct main as [|h main].
  - exists 0%nat. split_and!; [by rewrite Hk, drop_nil|done|done].
  - exists k. specialize (Hlt ltac:(done)). split_and!; [done|lia|done].
Qed.

Lemma last_drop_lt {A} (l : list A) k : (k < length l)%nat → last (drop k l) = last l.
Proof.
  intros Hk. rewrite !last_lookup_length, lookup_drop, length_drop. f_equal. lia.
Qed.

Lemma main_ok_snoc hs main h : main_ok hs main → hs !! bh_hash h = Some h →
  bh_height h = Z.of_nat (length main) →
  (∀ t, last main = Some t → bh_previous_block_hash h = bh_hash t) →
  Z.of_nat (length main) + 1 < 2 ^ 32 - 1 → main_ok hs (main ++ [h]).
Proof.
  intros [Hh Hl Hn] Hin Hhe Hp Hlen. split.
  - intros i x [Hi|[Hge Hi]]%lookup_app_Some; [by apply Hh|].
    apply list_lookup_singleton_Some in Hi as [Hi <-]. split; [|done]. rewrite Hhe. lia.
  - intros i x y [Hx|[Hge Hx]]%lookup_app_Some [Hy|[Hge' Hy]]%lookup_app_Some.
    + by eapply Hl.
    + apply list_lookup_singleton_Some in Hy as [Hy <-]. apply Hp. rewrite last_lookup_length, <- Hx. f_equal. lia.
    + apply lookup_lt_Some in Hy. lia.
    + apply list_lookup_singleton_Some in Hx as [Hx _]. apply list_lookup_singleton_Some in Hy as [Hy _]. lia.
  - rewrite length_app. cbn. lia.
Qed.

Lemma main_ok_app hs main more : main_ok hs (main ++ more) → main_ok hs main.
Proof.
  intros [Hh Hl Hn]. split.
  - intros i x Hi. apply Hh. by apply lookup_app_l_Some.
  - intros i x y Hx Hy. by eapply Hl; apply lookup_app_l_Some.
  - rewrite length_app in Hn. lia.
Qed.

Lemma push_chain_ok b hs main h : windows_ok → chain_shows b hs main → hs !! bh_hash h = Some h →
  bh_height h = Z.of_nat (length main) →
  (∀ t, last main = Some t → bh_previous_block_hash h = bh_hash t) →
  Z.of_nat (length main) + 1 < 2 ^ 32 - 1 →
  ∃ b', push_chain currency b h = Ok b' ∧ chain_shows b' hs (main ++ [h]) ∧
    wrote_chain b (KChain (bh_height h)) (Some (bh_hash h)) b'.
Proof.
  intros Hwin Hs Hin Hhe Hp Hlen. pose proof (cs_height _ _ _ Hs) as Htip.
  assert (u32 (m_tip_height b + 1) = bh_height h) as Hnew.
  { rewrite Htip, Hhe. unfold u32. rewrite Zplus_mod_idemp_l. rewrite Z.mod_small; lia. }
  assert (in_u 32 (bh_height h)) as Hh32 by (rewrite Hhe; unfold in_u; lia).
  assert (at_key (m_db b) (KChain (bh_height h)) = None) as Hfree.
  { rewrite (cs_index _ _ _ Hs) by done. rewrite Hhe, Nat2Z.id, lookup_ge_None_2; done. }
  destruct (put_key (m_db b) (KChain (bh_height h)) (bh_hash h) true (hd_room _ _ (cs_headers _ _ _ Hs)) Hh32) as (d & Hput & Hw); [done|].
  unfold push_chain. rewrite Hnew. cbn [to_binary ser_Hash c_binary c_put mbind result_bind].
  change (TIP_CHAIN_key (bh_height h)) with (key_of (KChain (bh_height h))). rewrite Hput. cbn [mbind result_bind].
  eexists. split; [reflexivity|]. split; [|split; [exact Hw|done]].
  assert (0 < u32 (largest_window currency (with_tip (with_m_db b d) (bh_hash h) (bh_cumulative_difficulty h)
    (bh_height h) (m_header_tip_window b ++ [h])) * 2)) as Hlim by apply Hwin.
  match type of Hlim with 0 < ?l => set (limit := l) in *; clearbody limit end.
  cbn [with_tip m_header_tip_window m_tip_bid m_tip_cumulative_difficulty m_tip_height].
  pose proof (main_ok_snoc _ _ _ (cs_main _ _ _ Hs) Hin Hhe Hp Hlen) as Hmain'.
  pose proof (window_start _ _ _ Hs) as (k & Hk & Hkle & Hk').
  destruct Hs as [Hhs Hmn Hi _ Hhe' _]. split; cbn; try done.
  - by eapply (headers_wrote b).
  - intros x Hx. change (Store.m_db _) with d. destruct (decide (x = bh_height h)) as [->|Hne].
    + rewrite (wrote_at _ _ _ _ Hw Hh32), Hhe, Nat2Z.id, lookup_app_r, Nat.sub_diag; done.
    + rewrite (wrote_same _ _ _ _ (KChain x) Hw) by (done || congruence). rewrite Hi by done.
      unfold in_u in Hx. destruct (decide (Z.to_nat x < length main)%nat); [by rewrite lookup_app_l|].
      rewrite !lookup_ge_None_2; [done| |lia]. rewrite length_app. cbn. lia.
  - by rewrite last_snoc.
  - rewrite length_app, Hhe. cbn. unfold u32. rewrite Z.mod_small; lia.
  - unfold shrink. rewrite Hk. rewrite length_app, length_drop. cbn [length].
    exists (k + (length main - k + 1 - Z.to_nat limit))%nat. split.
    + rewrite <- (drop_app_le main [h] k) by done. by rewrite drop_drop.
    + intros _. rewrite length_app. cbn. lia.
Qed.

(** *** The tip window *)

(** How many headers the window holds at most. *)
Definition window_limit (b : BlockChain D) : Z := u32 (largest_window currency b * 2).

Lemma push_chain_window (b b1 : BlockChain D) h : windows_ok → push_chain currency b h = Ok b1 →
  m_header_tip_window b1 = shrink (window_limit b1) (m_header_tip_window b ++ [h]) ∧ header_cache b1 = header_cache b.
Proof. intros Hw Hp. unfold push_chain in Hp. inv_ok Hp. injection Hp as <-. split; reflexivity. Qed.

(** Twice a window that is not empty holds two headers. *)
Lemma window_limit_two b : windows_ok → 2 ≤ window_limit b.
Proof.
  intros Hw. specialize (Hw b). unfold window_limit, u32 in *. Z.div_mod_to_equations. lia.
Qed.

Lemma pop_pushed_window (b b1 b2 : BlockChain D) h bid : windows_ok →
  m_header_tip_window b1 = shrink (window_limit b1) (m_header_tip_window b ++ [h]) →
  pop_chain currency b1 bid = Ok b2 → (0 < length (m_header_tip_window b))%nat →
  m_header_tip_window b2 = shrink (window_limit b1 - 1) (m_header_tip_window b) ∧ header_cache b2 = header_cache b1.
Proof.
  intros Hw Hwin Hpop Hne. pose proof (window_limit_two b1 Hw) as H2. generalize dependent (window_limit b1). intros l Hwin H2.
  assert (take (length (m_header_tip_window b1) - 1) (m_header_tip_window b1) = shrink (l - 1) (m_header_tip_window b)) as Htake.
  { rewrite Hwin. unfold shrink. rewrite length_app. cbn [length]. set (w := m_header_tip_window b) in *.
    rewrite drop_app_le by lia. rewrite length_app, length_drop. cbn [length].
    replace (length w + 1 - Z.to_nat l)%nat with (length w - Z.to_nat (l - 1))%nat by lia.
    rewrite take_app_le by (rewrite length_drop; lia). apply take_ge. rewrite length_drop. lia. }
  assert (shrink (l - 1) (m_header_tip_window b) ≠ []) as Hnil.
  { unfold shrink. intros E%(f_equal length). rewrite length_drop in E. cbn in E. lia. }
  unfold pop_chain in Hpop. rewrite Htake in Hpop. inv_ok Hpop. injection Hpop as <-.
  rewrite bool_decide_eq_false_2 in Ha3 by done. injection Ha3 as <-. done.
Qed.

(** Popping the tip [t], down to [p]. *)
Lemma pop_chain_ok b hs main p t : chain_shows b hs (main ++ [t]) → last main = Some p →
  ∃ b', pop_chain currency b (bh_hash p) = Ok b' ∧ chain_shows b' hs main ∧
    wrote_chain b (KChain (bh_height t)) None b'.
Proof.
  intros Hs Hp. pose proof (cs_height _ _ _ Hs) as Htip. pose proof (cs_main _ _ _ Hs) as Hmn.
  pose proof (mn_length _ _ Hmn) as Hlen. rewrite length_app in Htip, Hlen. cbn in Htip, Hlen.
  assert (length main ≠ 0%nat) as Hpos by (by destruct main).
  assert (m_tip_height b = Z.of_nat (length main)) as Htip' by (rewrite Htip; unfold u32; rewrite Z.mod_small; lia).
  destruct (mn_height _ _ Hmn (length main) t) as [Hht Hint]; [by rewrite lookup_app_r, Nat.sub_diag|].
  destruct (mn_height _ _ Hmn (length main - 1) p) as [Hhp Hinp].
  { rewrite lookup_app_l by lia. by rewrite <- last_lookup_length. }
  assert (in_u 32 (m_tip_height b)) as Hh32 by (rewrite Htip'; unfold in_u; lia).
  destruct (window_start _ _ _ Hs) as (k & Hk & Hkle & Hklt). specialize (Hklt ltac:(by destruct main)).
  rewrite length_app in Hklt. cbn in Hklt.
  assert (m_header_tip_window b = drop k main ++ [t]) as Hwin by (rewrite Hk, drop_app_le; [done|lia]).
  unfold pop_chain.
  assert (negb (m_tip_height b =? 0) && negb (bool_decide (m_header_tip_window b = [])) = true) as ->.
  { rewrite Hwin. rewrite bool_decide_eq_false_2 by (by destruct (drop k main)). rewrite Htip'.
    destruct (Z.eqb_spec (Z.of_nat (length main)) 0); [lia|done]. }
  cbn [mbind result_bind check].
  destruct (del_key (m_db b) (KChain (m_tip_height b)) true (hd_room _ _ (cs_headers _ _ _ Hs)) Hh32) as (d & Hdel & Hw).
  { intros _. rewrite (cs_index _ _ _ Hs) by done. rewrite Htip', Nat2Z.id, lookup_app_r, Nat.sub_diag by done. by eexists. }
  change (TIP_CHAIN_key (m_tip_height b)) with (key_of (KChain (m_tip_height b))). rewrite Hdel. cbn [mbind result_bind].
  assert (u32 (m_tip_height b - 1) = Z.of_nat (length main) - 1) as -> by (rewrite Htip'; unfold u32; rewrite Z.mod_small; lia).
  assert (take (length (m_header_tip_window b) - 1) (m_header_tip_window b) = drop k main) as ->.
  { rewrite Hwin, length_app. cbn. rewrite Nat.add_sub. by rewrite take_app_length. }
  set (b1 := with_tip (with_m_db b d) (bh_hash p) (m_tip_cumulative_difficulty b)
    (Z.of_nat (length main) - 1) (drop k main)).
  assert (headers_show b1 hs) as Hb1.
  { eapply (headers_wrote b); [apply (cs_headers _ _ _ Hs)|exact Hw|done|done|done]. }
  assert (is_hash (bh_hash p)) as Hph by (by apply (tree_hash hs (bh_hash p) p); [apply (hd_tree _ _ Hb1)|]).
  assert (∀ c w j, w = drop j main → (j < length main)%nat → (∀ bid h, c !! bid = Some h → hs !! bid = Some h) →
    chain_shows (with_tip (with_cache b1 c) (bh_hash p) (bh_cumulative_difficulty p) (Z.of_nat (length main) - 1) w)
      hs main) as Hshow.
  { intros c w j -> Hj Hc. pose proof (main_ok_app _ _ _ Hmn) as Hmn'. split; cbn; try done.
    - destruct Hb1. by split.
    - intros x Hx. change (Store.m_db _) with d. destruct (decide (x = m_tip_height b)) as [->|Hne].
      + rewrite (wrote_at _ _ _ _ Hw Hh32), Htip', Nat2Z.id, lookup_ge_None_2; done.
      + rewrite (wrote_same _ _ _ _ (KChain x) Hw) by (done || congruence). rewrite (cs_index _ _ _ Hs) by done.
        unfold in_u in Hx. destruct (decide (Z.to_nat x < length main)%nat); [by rewrite lookup_app_l|].
        rewrite !lookup_ge_None_2; [done|lia|]. rewrite length_app. cbn. lia.
    - by rewrite Hp.
    - unfold u32. rewrite Z.mod_small; lia.
    - by exists j. }
  assert (expect_chain b1 (m_tip_height b1) = Ok (bh_hash p)) as ->.
  { unfold expect_chain, read_chain. change (get (m_db b1) _) with (at_key d (KChain (Z.of_nat (length main) - 1))).
    rewrite (wrote_same _ _ _ _ (KChain (Z.of_nat (length main) - 1)) Hw); [|done|unfold ckey_ok, in_u; lia|].
    2: { rewrite Htip'. intros [= Heq]. lia. }
    rewrite (cs_index _ _ _ Hs) by (unfold in_u; lia).
    replace (Z.to_nat (Z.of_nat (length main) - 1)) with (length main - 1)%nat by lia.
    rewrite lookup_app_l by lia. rewrite <- last_lookup_length, Hp. cbn [fmap option_fmap option_map].
    destruct (from_to_binary ser_Hash (bh_hash p) Hph) as (ba & [= <-] & _ & ->). done. }
  cbn [mbind result_bind]. rewrite (bool_decide_eq_true_2 (bh_hash p = m_tip_bid b1)) by done. cbn [check mbind result_bind].
  change (m_header_tip_window b1) with (drop k main).
  destruct (bool_decide (drop k main = [])) eqn:Hdrop; cbn [mbind result_bind].
  - destruct (read_cached_headers b1 hs (bh_hash p) Hb1 Hph) as (c & Hread & Hc).
    assert (expect_header currency b1 (m_tip_bid b1) 0 = Ok (p, with_cache b1 c)) as ->.
    { unfold expect_header, read_header. 
      assert (window_candidate b1 0 = Ok None) as ->.
      { unfold window_candidate. apply bool_decide_eq_true in Hdrop. cbn [b1 with_tip m_header_tip_window m_tip_height].
        rewrite Hdrop. cbn [length]. destruct (_ && _) eqn:Hg; [|done].
        apply andb_true_iff in Hg as [_ Hge]. apply Z.leb_le in Hge. unfold u64 in Hge.
        rewrite Z.mod_small in Hge; lia. }
      cbn [mbind result_bind]. change (m_tip_bid b1) with (bh_hash p). rewrite Hread, Hinp. done. }
    cbn [mbind result_bind]. unfold get_tip. cbn [b1 with_tip with_cache m_header_tip_window m_tip_bid last].
    rewrite bool_decide_eq_true_2 by done. cbn [mbind result_bind].
    eexists. split; [reflexivity|]. split; [|split; [|done]].
    + apply (Hshow c [p] (length main - 1)%nat); [|lia|exact Hc].
      rewrite last_lookup_length in Hp. rewrite (drop_S main p) by done. rewrite drop_ge by lia. done.
    + rewrite Hht, <- Htip'. exact Hw.
  - apply bool_decide_eq_false in Hdrop.
    assert (k < length main)%nat as Hk' by (destruct (decide (k < length main)%nat); [done|by rewrite drop_ge in Hdrop by lia]).
    unfold get_tip. cbn [b1 with_tip m_header_tip_window m_tip_bid]. rewrite last_drop_lt by done. rewrite Hp.
    rewrite bool_decide_eq_true_2 by done. cbn [mbind result_bind].
    eexists. split; [reflexivity|]. split; [|split; [|done]].
    + apply (Hshow (header_cache b) (drop k main) k); [done|done|]. apply (hd_cache _ _ (cs_headers _ _ _ Hs)).
    + rewrite Hht, <- Htip'. exact Hw.
Qed.

(** ** Walks *)

(** [l] are the headers from block [top] down to [bottom], without it. *)
Inductive path (hs : gmap Hash api_BlockHeader) : Hash → list Hash → Hash → Prop :=
| path_nil bid : path hs bid [] bid
| path_cons bid h l bottom :
    hs !! bid = Some h → path hs (bh_previous_block_hash h) l bottom → path hs bid (bid :: l) bottom.

Lemma path_app hs top l middle l' bottom : path hs top l middle → path hs middle l' bottom → path hs top (l ++ l') bottom.
Proof. induction 1; [done|]. intros. cbn. by econstructor; [|apply IHpath]. Qed.

(** Two paths down from one block: one of them ends on the other. *)
Lemma path_split hs top l m l' m' : path hs top l m → path hs top l' m' →
  (∃ k, path hs m k m') ∨ m' ∈ l.
Proof.
  intros Hp. revert l' m'. induction Hp as [bid|bid h l bottom Hh Hp IH]; intros l' m' Hp'; [left; by exists l'|].
  inversion Hp' as [|? h' k ? Hh' Hk]; subst; [right; by left|].
  rewrite Hh in Hh'. injection Hh' as <-. destruct (IH _ _ Hk) as [?|?]; [by left|right; by right].
Qed.

Section walks.
Context (hs : gmap Hash api_BlockHeader) (Ht : tree_ok genesis hs).

Lemma path_height top l bottom h x : path hs top l bottom → hs !! top = Some h → hs !! bottom = Some x →
  (∀ bid, bid ∈ l → ∃ y, hs !! bid = Some y ∧ bh_height x < bh_height y) → bh_height x ≤ bh_height h.
Proof.
  intros Hp Hh Hx Hl. inversion Hp; subst.
  - rewrite Hh in Hx. injection Hx as ->. done.
  - destruct (Hl top) as (y & Hy & ?); [by left|]. rewrite Hh in Hy. injection Hy as ->. lia.
Qed.

(** From a header of the tree down to a height. *)
Lemma go_down_ok main fuel b hid ha height :
  chain_shows b hs main → hs !! hid = Some ha → 0 ≤ height → (Z.to_nat (bh_height ha - height) ≤ fuel)%nat →
  ∃ bottom hb l c, go_down currency fuel b hid ha height = Ok (bottom, hb, l, with_cache b c) ∧
    chain_shows (with_cache b c) hs main ∧ path hs hid l bottom ∧ hs !! bottom = Some hb ∧
    bh_height hb = Z.min (bh_height ha) height ∧
    (∀ bid, bid ∈ l → ∃ y, hs !! bid = Some y ∧ height < bh_height y ≤ bh_height ha).
Proof.
  revert b hid ha. induction fuel as [|fuel IH]; intros b hid ha Hs Hid Hh0 Hf.
  - cbn [go_down]. destruct (Z.gtb_spec (bh_height ha) height); [lia|]. exists hid, ha, [], (header_cache b). split_and!; [by destruct b|by destruct b|constructor|done|lia|].
    by intros bid ?%elem_of_nil.
  - cbn [go_down]. destruct (Z.gtb_spec (bh_height ha) height) as [Hg|Hg].
    + destruct (tr_parent _ _ Ht _ _ Hid) as (p & Hp & Hhp); [lia|].
      destruct (expect_header_ok b hs main _ 0 p Hs Hp) as (c & -> & Hs1); [done|]. cbn [mbind result_bind].
      destruct (IH (with_cache b c) _ p Hs1 Hp Hh0) as (bottom & hb & l & c' & -> & Hs2 & Hpath & Hb & Hhb & Hl); [lia|].
      cbn [mbind result_bind]. exists bottom, hb, (hid :: l), c'. split_and!; [done|done|by econstructor|done|lia|].
      intros bid [->|(y & Hy & ?)%Hl]%elem_of_cons; [exists ha|exists y]; (split; [done|lia]).
    + exists hid, ha, [], (header_cache b). split_and!; [by destruct b|by destruct b|constructor|done|lia|].
      by intros bid ?%elem_of_nil.
Qed.

(** Two headers of the same height, down to where their paths meet. *)
Lemma go_common_ok main fuel b hid1 hid2 ha1 ha2 :
  chain_shows b hs main → hs !! hid1 = Some ha1 → hs !! hid2 = Some ha2 → bh_height ha1 = bh_height ha2 →
  (Z.to_nat (bh_height ha1) ≤ fuel)%nat →
  ∃ common l1 l2 c hc, go_common currency fuel b hid1 hid2 ha1 ha2 = Ok (common, l1, l2, with_cache b c) ∧
    chain_shows (with_cache b c) hs main ∧ path hs hid1 l1 common ∧ path hs hid2 l2 common ∧
    hs !! common = Some hc ∧
    (∀ bid, bid ∈ l1 → ∃ y, hs !! bid = Some y ∧ bh_height hc < bh_height y ≤ bh_height ha1) ∧
    (∀ bid, bid ∈ l2 → ∃ y, hs !! bid = Some y ∧ bh_height hc < bh_height y ≤ bh_height ha1) ∧
    (∀ bid, bid ∈ l1 → bid ∉ l2).
Proof.
  revert b hid1 hid2 ha1 ha2. induction fuel as [|fuel IH]; intros b hid1 hid2 ha1 ha2 Hs H1 H2 Hh Hf;
    cbn [go_common]; destruct (decide (hid1 = hid2)) as [->|Hne].
  1, 3: rewrite bool_decide_eq_true_2 by done; exists hid2, [], [], (header_cache b), ha2;
    (split_and!; [by destruct b|by destruct b|constructor|constructor|done| | |]); by intros bid ?%elem_of_nil.
  - exfalso. apply Hne. destruct (tr_ok _ _ Ht _ _ H1) as [_ Hok]. apply header_fields in Hok as (_ & [? _] & _).
    rewrite (tr_genesis _ _ Ht _ _ H1), (tr_genesis _ _ Ht _ _ H2) by lia. done.
  - rewrite bool_decide_eq_false_2 by done.
    assert (bh_height ha1 ≠ 0) as Hnz.
    { intros Hz. apply Hne. rewrite (tr_genesis _ _ Ht _ _ H1), (tr_genesis _ _ Ht _ _ H2) by lia. done. }
    destruct (tr_parent _ _ Ht _ _ H1 Hnz) as (p1 & Hp1 & Hq1).
    destruct (tr_parent _ _ Ht _ _ H2) as (p2 & Hp2 & Hq2); [congruence|].
    destruct (expect_header_ok b hs main _ 0 p1 Hs Hp1) as (c & -> & Hs1); [done|]. cbn [mbind result_bind].
    destruct (expect_header_ok _ hs main _ 0 p2 Hs1 Hp2) as (c' & -> & Hs2); [done|]. cbn [mbind result_bind].
    destruct (IH _ _ _ p1 p2 Hs2 Hp1 Hp2) as (common & l1 & l2 & c'' & hc & -> & Hs3 & Hl1 & Hl2 & Hc & Hin1 & Hin2 & Hd);
      [lia|lia|].
    cbn [mbind result_bind].
    assert (bh_height hc ≤ bh_height p1) as Hle.
    { eapply (path_height _ l1 common p1 hc); [done..|]. intros bid (y & ? & ?)%Hin1. exists y. split; [done|lia]. }
    exists common, (hid1 :: l1), (hid2 :: l2), c'', hc. split_and!; [done|done|by econstructor|by econstructor|done| | |].
    + intros bid [->|(y & Hy & ?)%Hin1]%elem_of_cons; [exists ha1|exists y]; (split; [done|lia]).
    + intros bid [->|(y & Hy & ?)%Hin2]%elem_of_cons; [exists ha2|exists y]; (split; [done|lia]).
    + intros bid [->|Hb1]%elem_of_cons [->|Hb2]%elem_of_cons.
      * done.
      * apply Hin2 in Hb2 as (y & Hy & ?). rewrite H1 in Hy. injection Hy as <-. lia.
      * apply Hin1 in Hb1 as (y & Hy & ?). rewrite H2 in Hy. injection Hy as <-. lia.
      * by apply (Hd bid).
Qed.

End walks.

Lemma get_common_block_ok b hs main bid1 bid2 : chain_shows b hs main → is_Some (hs !! bid1) → is_Some (hs !! bid2) →
  ∃ common l1 l2 c, get_common_block currency b bid1 bid2 = Ok (common, l1, l2, with_cache b c) ∧
    chain_shows (with_cache b c) hs main ∧ path hs bid1 l1 common ∧ path hs bid2 l2 common ∧
    (∃ hc, hs !! common = Some hc ∧ ∀ bid, bid ∈ l1 ++ l2 → ∃ y, hs !! bid = Some y ∧ bh_height hc < bh_height y) ∧
    (∀ bid, bid ∈ l1 → bid ∉ l2) ∧
    ∀ other k1 k2, path hs bid1 k1 other → path hs bid2 k2 other → ∃ k, path hs common k other.
Proof.
  intros Hs [h1 H1] [h2 H2]. pose proof (hd_tree _ _ (cs_headers _ _ _ Hs)) as Ht.
  assert (∀ bid h, hs !! bid = Some h → 0 ≤ bh_height h) as Hpos.
  { intros bid h Hl. destruct (tr_ok _ _ Ht _ _ Hl) as [_ Hok]. by apply header_fields in Hok as (_ & [? _] & _). }
  pose proof (Hpos _ _ H1). pose proof (Hpos _ _ H2).
  unfold get_common_block.
  destruct (expect_header_ok b hs main _ 0 h1 Hs H1) as (c & -> & Hs1); [done|]. cbn [mbind result_bind].
  destruct (expect_header_ok _ hs main _ 0 h2 Hs1 H2) as (c' & -> & Hs2); [done|]. cbn [mbind result_bind].
  destruct (go_down_ok hs Ht main (Z.to_nat (bh_height h1 + bh_height h2)) _ bid1 h1 (bh_height h2) Hs2 H1)
    as (d1 & g1 & u1 & c3 & -> & Hs3 & Hp1 & Hd1 & Hg1 & Hu1); [lia|lia|]. cbn [mbind result_bind].
  destruct (go_down_ok hs Ht main (Z.to_nat (bh_height h1 + bh_height h2)) _ bid2 h2 (bh_height g1) Hs3 H2)
    as (d2 & g2 & u2 & c4 & -> & Hs4 & Hp2 & Hd2 & Hg2 & Hu2); [lia|lia|]. cbn [mbind result_bind].
  destruct (go_common_ok hs Ht main (Z.to_nat (bh_height h1 + bh_height h2)) _ d1 d2 g1 g2 Hs4 Hd1 Hd2)
    as (common & l1 & l2 & c5 & hc & -> & Hs5 & Hl1 & Hl2 & Hc & Hin1 & Hin2 & Hd); [lia|lia|].
  cbn [mbind result_bind].
  pose proof (path_app _ _ _ _ _ _ Hp1 Hl1) as Hq1. pose proof (path_app _ _ _ _ _ _ Hp2 Hl2) as Hq2.
  assert (∀ bid, bid ∈ u1 ++ l1 → bid ∉ u2 ++ l2) as Hdis.
  { intros bid [Hb|Hb]%elem_of_app [Hb'|Hb']%elem_of_app.
    4: by apply (Hd bid).
    1: apply Hu1 in Hb as (y & Hy & ?); apply Hu2 in Hb' as (z & Hz & ?).
    2: apply Hu1 in Hb as (y & Hy & ?); apply Hin2 in Hb' as (z & Hz & ?).
    3: apply Hin1 in Hb as (y & Hy & ?); apply Hu2 in Hb' as (z & Hz & ?).
    all: rewrite Hy in Hz; injection Hz as <-; lia. }
  assert (bh_height hc ≤ bh_height g1) as Hle.
  { apply (path_height hs d1 l1 common g1 hc Hl1 Hd1 Hc). intros bid (y & ? & ?)%Hin1. exists y. split; [done|lia]. }
  exists common, (u1 ++ l1), (u2 ++ l2), c5. split_and!; [done|done|done|done| |done|].
  { exists hc. split; [done|]. intros bid. rewrite !elem_of_app.
    intros [[(y & ? & ?)%Hu1|(y & ? & ?)%Hin1]|[(y & ? & ?)%Hu2|(y & ? & ?)%Hin2]]; exists y; (split; [done|lia]). }
  intros other k1 k2 Hk1 Hk2. destruct (path_split _ _ _ _ _ _ Hq1 Hk1) as [?|Ho1]; [done|].
  destruct (path_split _ _ _ _ _ _ Hq2 Hk2) as [?|Ho2]; [done|]. by destruct (Hdis other).
Qed.

(** ** Reading the main chain *)

Lemma read_chain_ok b hs main x : chain_shows b hs main → in_u 32 x →
  read_chain b x = Ok (bh_hash <$> main !! Z.to_nat x).
Proof.
  intros Hs Hx. unfold read_chain. change (get (m_db b) _) with (at_key (m_db b) (KChain x)).
  rewrite (cs_index _ _ _ Hs) by done. destruct (main !! Z.to_nat x) as [h|] eqn:Hl; [|done].
  cbn [fmap option_fmap option_map]. destruct (mn_height _ _ (cs_main _ _ _ Hs) _ _ Hl) as [_ Hin].
  destruct (tree_hash _ _ _ (hd_tree _ _ (cs_headers _ _ _ Hs)) Hin) as [Hh _].
  destruct (from_to_binary ser_Hash (bh_hash h) Hh) as (ba & [= <-] & _ & ->). done.
Qed.

Lemma expect_chain_ok b hs main i h : chain_shows b hs main → main !! i = Some h →
  expect_chain b (Z.of_nat i) = Ok (bh_hash h).
Proof.
  intros Hs Hi. unfold expect_chain. rewrite (read_chain_ok b hs main); [|done|].
  - by rewrite Nat2Z.id, Hi.
  - apply lookup_lt_Some in Hi. pose proof (mn_length _ _ (cs_main _ _ _ Hs)). unfold in_u. lia.
Qed.

Lemma tip_height_ok b hs main : chain_shows b hs main → main ≠ [] → m_tip_height b = Z.of_nat (length main) - 1.
Proof.
  intros Hs Hne. rewrite (cs_height _ _ _ Hs). pose proof (mn_length _ _ (cs_main _ _ _ Hs)).
  assert (length main ≠ 0%nat) by (by destruct main). unfold u32. rewrite Z.mod_small; lia.
Qed.

Lemma main_genesis b hs main h : chain_shows b hs main → main !! 0%nat = Some h → bh_hash h = genesis.
Proof.
  intros Hs H0'. destruct (mn_height _ _ (cs_main _ _ _ Hs) _ _ H0') as [Hh Hin].
  by eapply (tr_genesis _ _ (hd_tree _ _ (cs_headers _ _ _ Hs))).
Qed.

Lemma get_tip_ok b hs main t : chain_shows b hs main → last main = Some t → get_tip b = Ok t.
Proof.
  intros Hs Hl. destruct (window_start _ _ _ Hs) as (k & Hk & _ & Hlt).
  assert (main ≠ []) as Hne by (by intros ->).
  unfold get_tip. rewrite Hk, last_drop_lt, Hl by (by apply Hlt).
  pose proof (cs_tip _ _ _ Hs) as Ht. rewrite Hl in Ht. rewrite bool_decide_eq_true_2; [done|apply Ht].
Qed.

(** The offsets from the tip that [get_sparse_chain] visits. *)
Definition jump_at (size : Z) : Z := if size <=? 10 then size else 8 + 2 ^ (size - 9).

Lemma jump_step size : 0 ≤ size → jump_at size < 2 ^ 31 →
  (if size + 1 <=? 10 then Ok (u32 (jump_at size + 1))
   else if size + 1 - 10 <? 31 then Ok (u32 (jump_at size + 2 ^ (size + 1 - 10)))
   else Undefined "1 << (tip_path.size() - 10)") = Ok (jump_at (size + 1)) ∧ jump_at size < jump_at (size + 1) ∧
  size ≤ 39.
Proof.
  intros Hs. unfold jump_at. destruct (Z.leb_spec size 10) as [H10|H10].
  - intros _. destruct (Z.leb_spec (size + 1) 10).
    + unfold u32. rewrite Z.mod_small by lia. split_and!; [done|lia|lia].
    + assert (size = 10) as -> by lia. done.
  - intros Hlt. assert (size - 9 < 31) as Hsz.
    { apply (Z.pow_lt_mono_r_iff 2); lia. }
    destruct (Z.leb_spec (size + 1) 10); [lia|]. destruct (Z.ltb_spec (size + 1 - 10) 31); [|lia].
    replace (size + 1 - 10) with (size - 9) by lia. replace (size + 1 - 9) with (size - 9 + 1) by lia.
    rewrite Z.pow_add_r by lia. change (2 ^ 1) with 2. pose proof (Z.pow_pos_nonneg 2 (size - 9)).
    unfold u32. rewrite Z.mod_small by lia. split_and!; [f_equal; lia|lia|lia].
Qed.

Lemma sparse_loop_ok b hs main fuel size : chain_shows b hs main → main ≠ [] → Z.of_nat (length main) ≤ 2 ^ 31 →
  0 ≤ size → (41 ≤ fuel + Z.to_nat size)%nat →
  ∃ js path, sparse_loop fuel b size (jump_at size) = Ok path ∧
    Forall2 (λ j bid, ∃ h, main !! Z.to_nat (m_tip_height b - j) = Some h ∧ bh_hash h = bid) js path ∧
    StronglySorted Z.lt js ∧ Forall (λ j, jump_at size ≤ j ≤ m_tip_height b) js ∧
    (jump_at size ≤ m_tip_height b → head js = Some (jump_at size)) ∧ (length js ≤ 40 - Z.to_nat size)%nat.
Proof.
  intros Hs Hne Hlen. pose proof (tip_height_ok b hs main Hs Hne) as Htip.
  revert size. induction fuel as [|fuel IH]; intros size Hsz Hf; cbn [sparse_loop];
    destruct (Z.leb_spec (jump_at size) (m_tip_height b)) as [Hle|Hgt].
  - exfalso. destruct (jump_step size Hsz) as (_ & _ & ?); [lia|]. lia.
  - exists [], []. split_and!; [done|by constructor|constructor|constructor|lia|cbn; lia].
  - destruct (jump_step size Hsz) as (Hstep & Hlt & H39); [lia|].
    assert (0 ≤ jump_at size) as Hj0.
    { pose proof (Z.pow_nonneg 2 (size - 9)). unfold jump_at. destruct (size <=? 10); lia. }
    destruct (lookup_lt_is_Some_2 main (Z.to_nat (m_tip_height b - jump_at size))) as [h Hl]; [lia|].
    replace (u32 (m_tip_height b - jump_at size)) with (Z.of_nat (Z.to_nat (m_tip_height b - jump_at size))).
    2: { unfold u32. rewrite Z.mod_small; lia. }
    rewrite (expect_chain_ok b hs main _ h Hs Hl). cbn [mbind result_bind]. rewrite Hstep. cbn [mbind result_bind].
    destruct (IH (size + 1)) as (js & path & -> & Hall & Hsort & Hrange & Hhead & Hlj); [lia|lia|].
    cbn [mbind result_bind]. exists (jump_at size :: js), (bh_hash h :: path).
    split_and!; [done|constructor; [by exists h|done]| | |done|cbn; lia].
    + constructor; [done|]. eapply Forall_impl; [exact Hrange|]. intros j ?. cbn in *. lia.
    + constructor; [lia|]. eapply Forall_impl; [exact Hrange|]. intros j ?. cbn in *. lia.
  - exists [], []. split_and!; [done|by constructor|constructor|constructor|lia|cbn; lia].
Qed.

(** The sparse chain: blocks of the main chain at falling heights, from the
    tip to the genesis block. *)
Lemma get_sparse_chain_ok b hs main : chain_shows b hs main → main ≠ [] → Z.of_nat (length main) ≤ 2 ^ 31 →
  ∃ heights chain, get_sparse_chain currency b = Ok chain ∧
    Forall2 (λ i bid, ∃ h, main !! i = Some h ∧ bh_hash h = bid) heights chain ∧
    StronglySorted (λ i j, j < i)%nat heights ∧
    head heights = Some (length main - 1)%nat ∧ last heights = Some 0%nat ∧ (length heights ≤ 41)%nat.
Proof.
  intros Hs Hne Hlen. pose proof (tip_height_ok b hs main Hs Hne) as Htip.
  assert (length main ≠ 0%nat) as Hpos by (by destruct main).
  destruct (sparse_loop_ok b hs main 64 0 Hs Hne Hlen) as (js & path & Hp & Hall & Hsort & Hrange & Hhead & Hlj); [lia|lia|].
  unfold get_sparse_chain. change (sparse_loop 64 b 0 (jump_at 0)) with (sparse_loop 64 b 0 0) in Hp. rewrite Hp.
  cbn [mbind result_bind]. change (jump_at 0) with 0 in *. specialize (Hhead ltac:(lia)).
  set (tip := m_tip_height b) in *.
  assert (Forall2 (λ i bid, ∃ h, main !! i = Some h ∧ bh_hash h = bid) ((λ j, Z.to_nat (tip - j)) <$> js) path) as Hall'
    by (by apply Forall2_fmap_l).
  assert (StronglySorted (λ i j, j < i)%nat ((λ j, Z.to_nat (tip - j)) <$> js)) as Hsort'.
  { clear -Hsort Hrange. induction Hsort as [|j js Hs IH Hj]; [constructor|]. cbn.
    apply Forall_cons in Hrange as [Hr1 Hr2]. constructor; [by apply IH|]. apply Forall_fmap.
    rewrite Forall_forall in *. intros k Hk. specialize (Hj k Hk). specialize (Hr2 k Hk). cbn in *. lia. }
  destruct (last path) as [bid|] eqn:Hlast.
  2: { apply last_None in Hlast. subst path. inversion Hall; subst. done. }
  cbn [of_option mbind result_bind].
  assert (∃ i, last ((λ j, Z.to_nat (tip - j)) <$> js) = Some i ∧ ∃ h, main !! i = Some h ∧ bh_hash h = bid)
    as (i & Hi & h & Hh & Hbid).
  { apply last_Some in Hlast as [p' ->]. apply Forall2_app_inv_r in Hall' as (l1 & l2 & _ & Hl2 & ->).
    inversion Hl2 as [|i ? ? ? Hx Hnil]; subst. inversion Hnil; subst. exists i. by rewrite last_snoc. }
  case_bool_decide as Hg.
  - eexists _, path. split; [done|]. split_and!; [exact Hall'|exact Hsort'| | |].
    + destruct js; [done|]. cbn in Hhead |- *. injection Hhead as ->. f_equal. lia.
    + rewrite Hi. f_equal. destruct (mn_height _ _ (cs_main _ _ _ Hs) _ _ Hh) as [Hhe Hin].
      destruct (lookup_lt_is_Some_2 main 0) as [g Hg0]; [lia|].
      destruct (mn_height _ _ (cs_main _ _ _ Hs) _ _ Hg0) as [Hge Hging].
      pose proof (main_genesis b hs main g Hs Hg0) as Hgen. unfold genesis in Hgen.
      rewrite Hbid, Hg, <- Hgen, Hging in Hin. injection Hin as <-. lia.
    + rewrite length_fmap. lia.
  - destruct (lookup_lt_is_Some_2 main 0) as [g Hg0]; [lia|].
    pose proof (main_genesis b hs main g Hs Hg0) as Hgen.
    assert (i ≠ 0%nat) as Hi0 by (intros ->; rewrite Hh in Hg0; injection Hg0 as <-; by apply Hg; rewrite <- Hbid).
    eexists (_ ++ [0%nat]), _. split; [done|]. split_and!.
    + apply Forall2_app; [exact Hall'|]. constructor; [|constructor]. by exists g.
    + apply StronglySorted_app_2; [|done|by repeat constructor]. intros x y Hx ->%list_elem_of_singleton.
      apply last_Some in Hi as [l Hl]. rewrite Hl in Hx, Hsort'.
      apply elem_of_app in Hx as [Hx|Hx%list_elem_of_singleton]; [|lia].
      pose proof (StronglySorted_app_1_elem_of _ _ _ x i Hsort' Hx) as Hlt. specialize (Hlt ltac:(by left)). cbn in Hlt. lia.
    + destruct js; [done|]. cbn in Hhead |- *. injection Hhead as ->. f_equal. lia.
    + by rewrite last_snoc.
    + rewrite length_app, length_fmap. cbn. lia.
Qed.

(** The blocks [l] are not the genesis block. *)
Definition above_genesis (hs : gmap Hash api_BlockHeader) (l : list Hash) : Prop :=
  ∀ bid, bid ∈ l → ∃ y, hs !! bid = Some y ∧ bh_height y ≠ 0.

(** Down from a header to the main chain. *)
Lemma to_main_chain_ok fuel b hs main header : chain_shows b hs main → main ≠ [] →
  hs !! bh_hash header = Some header → (Z.to_nat (bh_height header) ≤ fuel)%nat →
  ∃ h l c, to_main_chain currency fuel b header = Ok (h, with_cache b c) ∧ chain_shows (with_cache b c) hs main ∧
    path hs (bh_hash header) l (bh_hash h) ∧ main !! Z.to_nat (bh_height h) = Some h ∧ above_genesis hs l.
Proof.
  intros Hs Hne. revert b header Hs. induction fuel as [|fuel IH]; intros b header Hs Hin Hf;
    pose proof (hd_tree _ _ (cs_headers _ _ _ Hs)) as Ht;
    destruct (tr_ok _ _ Ht _ _ Hin) as [_ Hok]; apply header_fields in Hok as (_ & Hh32 & _);
    cbn [to_main_chain]; destruct (Z.eqb_spec (bh_height header) 0) as [Hz|Hz].
  1, 3: exists header, [], (header_cache b); (split_and!; [by destruct b|by destruct b|constructor| |by intros ? ?%elem_of_nil]);
    rewrite Hz; (destruct main as [|g main']; [done|]); cbn; f_equal;
    destruct (mn_height _ _ (cs_main _ _ _ Hs) 0 g eq_refl) as [Hg Hging];
    rewrite (tr_genesis _ _ Ht _ _ Hin Hz), <- (tr_genesis _ _ Ht _ _ Hging Hg), Hging in Hin; by injection Hin.
  - unfold in_u in Hh32. lia.
  - rewrite (read_chain_ok b hs main) by done. cbn [mbind result_bind].
    case_bool_decide as Heq.
    + exists header, [], (header_cache b). split_and!; [by destruct b|by destruct b|constructor| |by intros ? ?%elem_of_nil].
      destruct (main !! Z.to_nat (bh_height header)) as [h|] eqn:Hl; [|done]. injection Heq as Heq.
      destruct (mn_height _ _ (cs_main _ _ _ Hs) _ _ Hl) as [_ Hl2]. rewrite Heq, Hin in Hl2. congruence.
    + destruct (tr_parent _ _ Ht _ _ Hin Hz) as (p & Hp & Hhp).
      destruct (expect_header_ok b hs main _ 0 p Hs Hp) as (c & -> & Hs1); [done|]. cbn [mbind result_bind].
      destruct (tr_ok _ _ Ht _ _ Hp) as [Hpp _].
      destruct (IH (with_cache b c) p Hs1) as (h & l & c' & -> & Hs2 & Hpath & Hmain & Habove); [by rewrite Hpp|lia|].
      exists h, (bh_hash header :: l), c'. split_and!; [done|done| |done|].
      * econstructor; [exact Hin|]. by rewrite <- Hpp.
      * intros bid [->|Hb]%elem_of_cons; [by exists header|by apply Habove].
Qed.

Lemma chain_from_ok n b hs main i : chain_shows b hs main → main ≠ [] → (i ≤ length main)%nat →
  chain_from n b (Z.of_nat i) = Ok (bh_hash <$> take n (drop i main)).
Proof.
  intros Hs Hne. pose proof (tip_height_ok b hs main Hs Hne) as Htip.
  pose proof (mn_length _ _ (cs_main _ _ _ Hs)) as Hlen.
  revert i. induction n as [|n IH]; intros i Hi; [done|]. cbn [chain_from].
  destruct (Z.leb_spec (Z.of_nat i) (m_tip_height b)) as [Hle|Hgt].
  - destruct (lookup_lt_is_Some_2 main i) as [h Hl]; [lia|].
    rewrite (expect_chain_ok b hs main i h Hs Hl). cbn [mbind result_bind].
    replace (u32 (Z.of_nat i + 1)) with (Z.of_nat (S i)) by (unfold u32; rewrite Z.mod_small; lia).
    rewrite IH by lia. cbn [mbind result_bind]. by rewrite (drop_S main h i Hl).
  - rewrite drop_ge by lia. by rewrite take_nil.
Qed.

(** The first block of the locator that is known decides. *)
Lemma get_sync_headers_chain_ok b hs main locator max_count : chain_shows b hs main → main ≠ [] →
  Forall is_hash locator → Exists (λ bid, is_Some (hs !! bid)) locator →
  ∃ lit l h c, get_sync_headers_chain currency b locator max_count =
      Ok (bh_hash <$> take max_count (drop (Z.to_nat (bh_height h)) main), bh_height h, with_cache b c) ∧
    chain_shows (with_cache b c) hs main ∧ lit ∈ locator ∧ path hs lit l (bh_hash h) ∧
    main !! Z.to_nat (bh_height h) = Some h ∧ above_genesis hs l.
Proof.
  intros Hs Hne Hall Hex. revert b Hs. induction locator as [|lit locator IH]; intros b Hs; [by inversion Hex|].
  apply Forall_cons in Hall as [Hlit Hall]. cbn [get_sync_headers_chain].
  destruct (read_header_ok b hs main lit 0 Hs Hlit) as (c & -> & Hs1); [done|]. cbn [mbind result_bind].
  destruct (hs !! lit) as [header|] eqn:Hl.
  - pose proof (hd_tree _ _ (cs_headers _ _ _ Hs)) as Ht. destruct (tr_ok _ _ Ht _ _ Hl) as [Hh Hok].
    destruct (to_main_chain_ok (Z.to_nat (bh_height header)) _ hs main header Hs1 Hne)
      as (h & l & c' & -> & Hs2 & Hpath & Hmain & Habove); [by rewrite Hh|done|]. cbn [mbind result_bind].
    pose proof (lookup_lt_Some _ _ _ Hmain) as Hlt.
    destruct (mn_height _ _ (cs_main _ _ _ Hs) _ _ Hmain) as [Hhe _].
    rewrite Hhe, (chain_from_ok _ _ hs main) by (done || lia). cbn [mbind result_bind].
    exists lit, l, h, c'. rewrite <- Hhe. split_and!; [done|done|by left|by rewrite <- Hh|done|done].
  - destruct IH with (b := with_cache b c) as (lit' & l & h & c' & -> & Hs2 & Hin & Hpath & Hmain & Habove); [done| |done|].
    + inversion Hex as [? ? Hx|]; subst; [|done]. rewrite Hl in Hx. by destruct Hx.
    + exists lit', l, h, c'. split_and!; [done|done|by right|done|done|done].
Qed.

End chain.

(** Where the block trees of two nodes meet, they agree. *)
Definition agree (hs1 hs2 : gmap Hash api_BlockHeader) : Prop := ∀ bid h1 h2,
  hs1 !! bid = Some h1 → hs2 !! bid = Some h2 →
  bh_previous_block_hash h1 = bh_previous_block_hash h2 ∧ bh_height h1 = bh_height h2.

(** A path down from a block of another node's main chain stays on it. *)
Lemma path_on_main hs1 main1 hs2 i h top l bottom : main_ok hs1 main1 → agree hs1 hs2 →
  main1 !! i = Some h → top = bh_hash h → path hs2 top l bottom → above_genesis hs2 l →
  ∃ j y, main1 !! j = Some y ∧ bh_hash y = bottom.
Proof.
  intros Hm Ha Hi Htop Hp. revert i h Hi Htop. induction Hp as [bid|bid h2 l bottom H2 Hp IH]; intros i h Hi Htop Hab.
  - exists i, h. by rewrite Htop.
  - destruct (mn_height _ _ Hm _ _ Hi) as [Hhe Hin]. subst bid.
    destruct (Ha _ _ _ Hin H2) as [Hprev Hheq].
    destruct (Hab (bh_hash h)) as (y & Hy & Hnz); [by left|]. rewrite H2 in Hy. injection Hy as <-.
    destruct i as [|i]; [lia|].
    destruct (lookup_lt_is_Some_2 main1 i) as [p Hpi]; [apply lookup_lt_Some in Hi; lia|].
    apply (IH i p Hpi).
    + rewrite <- Hprev. by apply (mn_link _ _ Hm i).
    + intros b Hb. apply Hab. by right.
Qed.

(** ** A small chain of the test network *)

Definition testnet : Currency :=
  ltac:(let r := eval vm_compute in (make_Currency zero_hash true) in
        match r with Ok ?c => exact c end).

Definition sample_header (height : Height) (hash previous : Hash) : api_BlockHeader := {|
  bh_major_version := 1; bh_minor_version := 0; bh_timestamp := 1500000000 + height;
  bh_previous_block_hash := previous; bh_nonce := 0; bh_height := height; bh_hash := hash; bh_reward := 0;
  bh_cumulative_difficulty := height + 1; bh_difficulty := 1; bh_base_reward := 0; bh_block_size := 100;
  bh_transactions_cumulative_size := 0; bh_already_generated_coins := 0;
  bh_already_generated_transactions := height + 1; bh_size_median := 0; bh_effective_size_median := 0;
  bh_timestamp_median := 0; bh_total_fee_amount := 0 |}.

(** The genesis block and two children of it. *)
Definition header_g : api_BlockHeader := sample_header 0 (genesis_block_hash testnet) null_hash.
Definition header_1 : api_BlockHeader := sample_header 1 (replicate 32 1) (genesis_block_hash testnet).
Definition header_f : api_BlockHeader := sample_header 1 (replicate 32 2) (genesis_block_hash testnet).

Definition init_chain : BlockChain memory_db := {|
  node := {| store := Store.empty_store; pool := Pool.Pool.empty_pool |};
  m_tip_bid := null_hash; m_tip_cumulative_difficulty := 0; m_tip_height := u32 (-1); header_cache := ∅;
  m_header_tip_window := []; m_next_median_timestamp := 0; m_next_median_size := 0 |}.

Definition hs_g : gmap Hash api_BlockHeader := {[bh_hash header_g := header_g]}.
Definition hs_f : gmap Hash api_BlockHeader := <[bh_hash header_f := header_f]> (<[bh_hash header_1 := header_1]> hs_g).

Lemma init_chain_shows currency : chain_shows currency init_chain ∅ [].
Proof.
  assert (∀ k, get (m_db init_chain) k = None) as Hget by (intros k; apply lookup_empty).
  assert (roomy (m_db init_chain)) as Hroom by (unfold roomy; cbn; unfold MAX_KEY_SIZE; lia).
  assert (tree_ok (genesis currency) ∅) as Ht by (by split; intros ? ? ?%lookup_empty_Some).
  assert (main_ok ∅ []) as Hm by done.
  split; [split; [done|done| |done]|done| |done|done|by exists 0%nat].
  - intros bid _. rewrite lookup_empty. apply Hget.
  - intros x _. apply Hget.
Qed.

Lemma testnet_windows_ok : windows_ok (D := memory_db) testnet.
Proof.
  intros b. unfold largest_window. generalize (u32 (m_tip_height b + 1)). intros x.
  unfold get_difficulty_blocks_count, get_timestamp_check_window.
  by destruct (hardfork_v2_height testnet <=? x), (x <=? hardfork_v2_height testnet).
Qed.

Lemma tree_ok_insert g hs h : tree_ok g hs → hs !! bh_hash h = None → c_ok ser_api_BlockHeader h →
  (if decide (bh_height h = 0) then bh_hash h = g
   else ∃ p, hs !! bh_previous_block_hash h = Some p ∧ bh_height h = bh_height p + 1) →
  tree_ok g (<[bh_hash h := h]> hs).
Proof.
  intros [Hok Hp Hg] Hnone Hc Hh.
  assert (∀ bid p, hs !! bid = Some p → <[bh_hash h := h]> hs !! bid = Some p) as Hext.
  { intros bid p Hb. rewrite lookup_insert_ne; [done|]. intros <-. by rewrite Hnone in Hb. }
  split; intros bid x [[<- <-]|[Hne Hx]]%lookup_insert_Some.
  - done.
  - by apply Hok.
  - intros Hnz. rewrite decide_False in Hh by done. destruct Hh as (p & Hpl & ?). exists p. split; [by apply Hext|done].
  - intros Hnz. destruct (Hp _ _ Hx Hnz) as (p & Hpl & ?). exists p. split; [by apply Hext|done].
  - intros Hz. by rewrite decide_True in Hh.
  - by apply Hg.
Qed.

Lemma sample_ok : c_ok ser_api_BlockHeader header_g ∧ c_ok ser_api_BlockHeader header_1 ∧
  c_ok ser_api_BlockHeader header_f.
Proof. repeat split; done || by apply (bool_decide_unpack _). Qed.

(** The genesis block is the main chain, its children are stored. *)
Lemma sample_chain_shows : ∃ b : BlockChain memory_db, chain_shows testnet b hs_f [header_g].
Proof.
  destruct sample_ok as (Hcg & Hc1 & Hcf).
  assert (tree_ok (genesis testnet) hs_g) as Htg.
  { apply tree_ok_insert; [by split; intros ? ? ?%lookup_empty_Some|done|done|done]. }
  assert (tree_ok (genesis testnet) (<[bh_hash header_1 := header_1]> hs_g)) as Ht1.
  { apply tree_ok_insert; [done|done|done|]. by exists header_g. }
  assert (tree_ok (genesis testnet) hs_f) as Htf.
  { apply tree_ok_insert; [done|done|done|]. by exists header_g. }
  destruct (store_header_ok testnet init_chain ∅ [] (bh_hash header_g) header_g (init_chain_shows testnet))
    as (d1 & _ & _ & Hs1); [done..|].
  destruct (push_chain_ok testnet _ hs_g [] header_g testnet_windows_ok Hs1) as (b1 & _ & Hs2 & _); [done..|].
  destruct (store_header_ok testnet b1 hs_g [header_g] (bh_hash header_1) header_1 Hs2) as (d3 & _ & _ & Hs3); [done..|].
  destruct (store_header_ok testnet _ _ [header_g] (bh_hash header_f) header_f Hs3) as (d4 & _ & _ & Hs4); [done..|].
  by eexists.
Qed.

(** ** Properties *)

(** C35: The caches never change an answer: with the headers [hs] in the
    database, a tip window at the end of the main chain and any part of [hs]
    in the cache, [read_header] gives, for every hint and whether or not the
    cache is full and has to be cleared, the header [hs] has for the block or
    that there is none, and all of this still holds afterwards. *)
Theorem read_header_transparent {D : Type} `{LmdbLaws D} (currency : Currency) (b : BlockChain D) hs main bid hint :
  chain_shows currency b hs main → is_hash bid → in_u 32 hint →
  ∃ c, read_header currency b bid hint = Ok (hs !! bid, with_cache b c) ∧
    chain_shows currency (with_cache b c) hs main.
Proof. apply read_header_ok. Qed.

Lemma read_header_transparent_witness : ∃ b c,
  read_header testnet b (replicate 32 2) 1 = Ok (Some header_f, with_cache (D := memory_db) b c).
Proof.
  destruct sample_chain_shows as [b Hb].
  destruct (read_header_transparent testnet b hs_f [header_g] (replicate 32 2) 1 Hb) as (c & Hr & _).
  - by apply (bool_decide_unpack _).
  - done.
  - by exists b, c.
Defined.

(** C37: The search for the common block of two blocks ends, with the lowest
    block both descend from: the blocks it lists on either side are the paths
    down to it, they have none in common, and every block that both descend
    from is an ancestor of it. *)
Theorem get_common_block_lowest {D : Type} `{LmdbLaws D} (currency : Currency) (b : BlockChain D) hs main bid1 bid2 :
  chain_shows currency b hs main → is_Some (hs !! bid1) → is_Some (hs !! bid2) →
  ∃ common chain1 chain2 c, get_common_block currency b bid1 bid2 = Ok (common, chain1, chain2, with_cache b c) ∧
    path hs bid1 chain1 common ∧ path hs bid2 chain2 common ∧ (∀ bid, bid ∈ chain1 → bid ∉ chain2) ∧
    ∀ other l1 l2, path hs bid1 l1 other → path hs bid2 l2 other → ∃ l, path hs common l other.
Proof.
  intros Hs H1 H2. destruct (get_common_block_ok currency b hs main bid1 bid2 Hs H1 H2)
    as (common & l1 & l2 & c & Hg & _ & Hp1 & Hp2 & _ & Hd & Hlow). by exists common, l1, l2, c.
Qed.

Lemma get_common_block_lowest_witness : ∃ b common chain1 chain2 c,
  get_common_block (D := memory_db) testnet b (replicate 32 1) (replicate 32 2) =
    Ok (common, chain1, chain2, with_cache b c) ∧ path hs_f (replicate 32 1) chain1 common.
Proof.
  destruct sample_chain_shows as [b Hb].
  destruct (get_common_block_lowest testnet b hs_f [header_g] (replicate 32 1) (replicate 32 2) Hb)
    as (common & chain1 & chain2 & c & Hg & Hp & _).
  - by exists header_1.
  - by exists header_f.
  - by exists b, common, chain1, chain2, c.
Defined.

(** C36: Pushing a block on the main chain and popping it are inverse: the
    header of a child of the tip becomes the tip, is found under its height
    and leaves every other height as it was; popping it restores the tip, its
    difficulty and every answer of the index.  The window of recent headers is
    exactly the old one with the new header, less the oldest above twice the
    largest window of the rules; popping takes the new header off again, so
    that the window is as it was, but for a header that had to go from a full
    one. *)
Theorem push_pop_chain {D : Type} `{LmdbLaws D} (currency : Currency) (b : BlockChain D) hs main p h :
  windows_ok (D := D) currency → chain_shows currency b hs (main ++ [p]) →
  hs !! bh_hash h = Some h → bh_previous_block_hash h = bh_hash p → bh_height h = bh_height p + 1 →
  Z.of_nat (length main) + 2 < 2 ^ 32 - 1 →
  ∃ b1 b2, push_chain currency b h = Ok b1 ∧ get_tip b1 = Ok h ∧ m_tip_height b1 = bh_height h ∧
    m_header_tip_window b1 = shrink (window_limit currency b1) (m_header_tip_window b ++ [h]) ∧
    read_chain b1 (bh_height h) = Ok (Some (bh_hash h)) ∧
    (∀ x, in_u 32 x → x ≠ bh_height h → read_chain b1 x = read_chain b x) ∧
    pop_chain currency b1 (bh_hash p) = Ok b2 ∧
    m_tip_bid b2 = m_tip_bid b ∧ m_tip_height b2 = m_tip_height b ∧
    m_tip_cumulative_difficulty b2 = m_tip_cumulative_difficulty b ∧ get_tip b2 = get_tip b ∧
    m_header_tip_window b2 = shrink (window_limit currency b1 - 1) (m_header_tip_window b) ∧
    header_cache b2 = header_cache b ∧
    ∀ x, in_u 32 x → read_chain b2 x = read_chain b x.
Proof.
  intros Hw Hs Hin Hprev Hh Hlen.
  assert (bh_height h = Z.of_nat (length (main ++ [p]))) as Hhe.
  { destruct (mn_height _ _ (cs_main _ _ _ _ Hs) (length main) p) as [Hp _];
      [by rewrite lookup_app_r, Nat.sub_diag|]. rewrite Hh, Hp, length_app. cbn. lia. }
  destruct (push_chain_ok currency b hs (main ++ [p]) h Hw Hs Hin Hhe) as (b1 & Hpush & Hs1 & _).
  { intros t Ht. rewrite last_snoc in Ht. by injection Ht as <-. }
  { rewrite length_app. cbn. lia. }
  destruct (pop_chain_ok currency b1 hs (main ++ [p]) p h Hs1) as (b2 & Hpop & Hs2 & _); [by rewrite last_snoc|].
  assert (∀ b b' : BlockChain D, chain_shows currency b hs (main ++ [p]) → chain_shows currency b' hs (main ++ [p]) →
    m_tip_bid b' = m_tip_bid b ∧ m_tip_cumulative_difficulty b' = m_tip_cumulative_difficulty b) as Htip.
  { intros c c' Hc Hc'. pose proof (cs_tip _ _ _ _ Hc) as Ht. pose proof (cs_tip _ _ _ _ Hc') as Ht'.
    rewrite last_snoc in Ht, Ht'. destruct Ht as [-> ->], Ht' as [-> ->]. done. }
  assert (in_u 32 (bh_height h)) as Hh32.
  { rewrite Hhe, length_app. unfold in_u. cbn. lia. }
  destruct (push_chain_window currency b b1 h Hw Hpush) as [Hwin Hcache].
  destruct (window_start _ _ _ _ Hs) as (k & Hk & _ & Hklt). specialize (Hklt ltac:(by destruct main)).
  destruct (pop_pushed_window currency b b1 b2 h (bh_hash p) Hw Hwin Hpop) as [Hwin2 Hcache2].
  { rewrite Hk, length_drop. lia. }
  exists b1, b2. split_and!; [exact Hpush| | |exact Hwin| | |exact Hpop|by apply Htip| |by apply Htip| |exact Hwin2|congruence|].
  - eapply get_tip_ok; [exact Hs1|]. by rewrite last_snoc.
  - rewrite (tip_height_ok _ _ _ _ Hs1) by (by destruct main). rewrite length_app, Hhe. cbn. lia.
  - rewrite (read_chain_ok _ _ _ _ _ Hs1), Hhe, Nat2Z.id, lookup_app_r, Nat.sub_diag by done. done.
  - intros x Hx Hne. rewrite (read_chain_ok _ _ _ _ _ Hs1), (read_chain_ok _ _ _ _ _ Hs) by done.
    destruct (decide (Z.to_nat x < length (main ++ [p]))%nat); [by rewrite (lookup_app_l (main ++ [p]))|].
    unfold in_u in Hx. rewrite !lookup_ge_None_2; [done|lia|]. rewrite (length_app (main ++ [p])). cbn. lia.
  - by rewrite (cs_height _ _ _ _ Hs2), (cs_height _ _ _ _ Hs).
  - rewrite (get_tip_ok _ _ _ _ p Hs2), (get_tip_ok _ _ _ _ p Hs) by (by rewrite last_snoc). done.
  - intros x Hx. by rewrite (read_chain_ok _ _ _ _ _ Hs2), (read_chain_ok _ _ _ _ _ Hs).
Qed.

Lemma push_pop_chain_witness : ∃ b b1 b2 : BlockChain memory_db,
  push_chain testnet b header_1 = Ok b1 ∧ pop_chain testnet b1 (bh_hash header_g) = Ok b2 ∧ get_tip b2 = get_tip b.
Proof.
  destruct sample_chain_shows as [b Hb].
  destruct (push_pop_chain testnet b hs_f [] header_g header_1)
    as (b1 & b2 & Hp & _ & _ & _ & _ & _ & Hpop & _ & _ & _ & Ht & _).
  - apply testnet_windows_ok.
  - exact Hb.
  - done.
  - done.
  - done.
  - done.
  - by exists b, b1, b2.
Defined.

(** C38: Two nodes that share the genesis block can always sync.  Take the
    sparse chain of one node, at most 41 hashes of its main chain, as the
    locator; the other node answers with blocks of its own main chain, from a
    height on at which the main chains of both have the same block, as many as
    it has up to the count asked for. *)
Theorem sync_connects {D1 D2 : Type} `{LmdbLaws D1} `{LmdbLaws D2} (currency : Currency)
    (b1 : BlockChain D1) hs1 main1 (b2 : BlockChain D2) hs2 main2 max_count :
  chain_shows currency b1 hs1 main1 → chain_shows currency b2 hs2 main2 → main1 ≠ [] → main2 ≠ [] →
  Z.of_nat (length main1) ≤ 2 ^ 31 → agree hs1 hs2 →
  ∃ locator (start : nat) h1 h2 c,
    get_sparse_chain currency b1 = Ok locator ∧ (length locator ≤ 41)%nat ∧
    main1 !! start = Some h1 ∧ main2 !! start = Some h2 ∧ bh_hash h1 = bh_hash h2 ∧
    get_sync_headers_chain currency b2 locator max_count =
      Ok (bh_hash <$> take max_count (drop start main2), Z.of_nat start, with_cache b2 c).
Proof.
  intros Hs1 Hs2 Hne1 Hne2 Hlen Ha.
  pose proof (hd_tree _ _ _ (cs_headers _ _ _ _ Hs1)) as Ht1.
  destruct (get_sparse_chain_ok currency b1 hs1 main1 Hs1 Hne1 Hlen)
    as (heights & locator & Hsp & Hall & _ & _ & Hlast & Hle).
  assert (∀ bid, bid ∈ locator → ∃ i h, main1 !! i = Some h ∧ bh_hash h = bid) as Hloc.
  { intros bid (k & Hk)%list_elem_of_lookup. destruct (Forall2_lookup_r _ _ _ _ _ Hall Hk) as (i & _ & h & Hh & Hb).
    by exists i, h. }
  destruct (get_sync_headers_chain_ok currency b2 hs2 main2 locator max_count Hs2 Hne2)
    as (lit & l & h2 & c & Hget & _ & Hlit & Hpath & Hmain2 & Habove).
  - apply Forall_forall. intros bid (i & h & Hi & <-)%Hloc.
    destruct (mn_height _ _ (cs_main _ _ _ _ Hs1) _ _ Hi) as [_ Hin]. by apply (tree_hash currency hs1 _ h).
  - apply last_Some in Hlast as [hs' ->]. apply Forall2_app_inv_l in Hall as (k1 & k2 & _ & Hk2 & ->).
    inversion Hk2 as [|? g ? ? (h & Hh & <-) Hnil]; subst. apply Exists_app. right. constructor.
    rewrite (main_genesis currency b1 hs1 main1 h Hs1 Hh). destruct main2 as [|g2 main2']; [done|].
    rewrite <- (main_genesis currency b2 hs2 _ g2 Hs2 eq_refl).
    destruct (mn_height _ _ (cs_main _ _ _ _ Hs2) 0 g2 eq_refl) as [_ Hg]. by exists g2.
  - destruct (Hloc lit Hlit) as (i & h & Hi & Hh).
    destruct (path_on_main hs1 main1 hs2 i h lit l (bh_hash h2) (cs_main _ _ _ _ Hs1) Ha Hi (eq_sym Hh) Hpath Habove)
      as (j & h1 & Hj & Hhash).
    destruct (mn_height _ _ (cs_main _ _ _ _ Hs1) _ _ Hj) as [Hhj Hin1].
    destruct (mn_height _ _ (cs_main _ _ _ _ Hs2) _ _ Hmain2) as [Hh2 Hin2].
    rewrite Hhash in Hin1. destruct (Ha _ _ _ Hin1 Hin2) as [_ Heq].
    assert (Z.to_nat (bh_height h2) = j) as Hjj by lia. rewrite Hjj in Hmain2, Hget.
    exists locator, j, h1, h2, c. split_and!; [done| |done|done|done|].
    + apply Forall2_length in Hall. lia.
    + rewrite Hget. do 3 f_equal. lia.
Qed.

Lemma sync_connects_witness : ∃ (b : BlockChain memory_db) locator chain start c,
  get_sparse_chain testnet b = Ok locator ∧
  get_sync_headers_chain testnet b locator 10 = Ok (chain, start, with_cache b c).
Proof.
  destruct sample_chain_shows as [b Hb].
  destruct (sync_connects testnet b hs_f [header_g] b hs_f [header_g] 10 Hb Hb)
    as (locator & start & h1 & h2 & c & Hl & _ & _ & _ & _ & Hg).
  - done.
  - done.
  - done.
  - intros bid h1 h2 Hh1 Hh2. rewrite Hh1 in Hh2. injection Hh2 as <-. done.
  - eexists b, locator, _, _, c. split; [exact Hl|exact Hg].
Defined.

End HeaderLaws.
