(* ===== verification/Consensus.v ===== *)
(** * Consensus rules of a block (src/src/Core/BlockChain.cpp: PreparedBlock;
    src/src/Core/BlockChainState.cpp: [check_standalone_consensus],
    [calculate_consensus_values], [tip_changed],
    [create_mining_block_template]; src/src/common/Math.hpp)

    What a block must satisfy before it is tried on the chain's state, and the
    block template that miners get.  Hashes, key checks and the clock are
    external. *)

From S2P Require Import Prelude Varint Containers Seria Text CryptoNote Amounts TransactionExtra Blocks Currency Difficulty Db ChainState Store Pool Redo Headers.
Import Containers Codec Varint CryptoNote Amounts TransactionExtra Blocks Currency Difficulty Db ChainState Redo Headers.

Local Open Scope Z_scope.

Module Consensus.

(** ** common::median_value

    [w] is the width of the element type: the sum of the two middle elements
    is of that type. *)
Definition median_value (w : Z) (v : list Z) : Z :=
  let n := (length v / 2)%nat in
  let v := Difficulty.sort v in
  match v with
  | [] => 0
  | _ =>
      if Nat.odd (length v) then nth n v 0
      else ((nth (n - 1) v 0 + nth n v 0) mod 2 ^ w) / 2
  end.

(** ** Raw and prepared blocks *)

Record RawBlock := { raw_block : BinaryArray; raw_transactions : list BinaryArray }.

Definition ser_RawBlock : codec RawBlock :=
  c_iso (λ '(b, t), {| raw_block := b; raw_transactions := t |}) (λ r, (raw_block r, raw_transactions r))
    (c_seq c_bytes (λ _, c_vector c_bytes)).

Definition default_transaction : Transaction :=
  {| tx_prefix := {| version := 0; unlock_time := 0; inputs := []; outputs := []; extra := [] |}; signatures := [] |}.
Definition default_template : BlockTemplate := {|
  header := {| major_version := 0; minor_version := 0; nonce := 0; Blocks.timestamp := 0; previous_block_hash := null_hash |};
  parent_block := default_parent_block; base_transaction := default_transaction; transaction_hashes := [] |}.

Record PreparedBlock := {
  block_data : BinaryArray;
  pb_raw : RawBlock;
  block : Block;
  bid : Hash;
  base_transaction_hash : Hash;
  coinbase_tx_size : Z;
  parent_block_size : Z;
  long_block_hash : Hash;
}.

(** [ser_members(ParentBlock &)]: the parent block by itself. *)
Definition ser_bare_ParentBlock : codec ParentBlock :=
  c_iso
    (λ '(major, (minor, (prev, (count, (branch, (base, bbranch)))))),
       {| pb_major_version := major; pb_minor_version := minor; pb_previous_block_hash := prev;
          transaction_count := count; base_transaction_branch := branch; pb_base_transaction := base;
          blockchain_branch := bbranch |})
    (λ pb, (pb_major_version pb, (pb_minor_version pb, (pb_previous_block_hash pb, (transaction_count pb,
      (base_transaction_branch pb, (pb_base_transaction pb, blockchain_branch pb)))))))
    (c_seq (c_varint 8) (λ _, c_seq (c_varint 8) (λ _, c_seq ser_Hash (λ _, c_seq (c_varint 16) (λ _,
       c_seq (c_vector ser_Hash) (λ _, c_seq ser_BaseTransaction (λ _, c_vector ser_Hash))))))).

Section prepare.
Context (cn_fast_hash cn_slow_hash cn_lite_slow_hash_v1 : list Z → Hash).
(** The header as far as it was read from bytes that do not start with one:
    whatever the archive had assigned when it threw. *)
Context (partial_header : BinaryArray → BlockTemplate).

(** [seria::from_binary(bheader, ..)]: whether it returned, and the header. *)
Definition header_from_binary (ba : BinaryArray) : bool * BlockTemplate :=
  match c_get ser_BlockTemplate ba with
  | Ok (h, rest) => (bool_decide (rest = []), h)
  | _ => (false, partial_header ba)
  end.

(** The transactions read before the first that cannot be. *)
Fixpoint transactions_from_binary (l : list BinaryArray) : bool * list Transaction :=
  match l with
  | [] => (true, [])
  | raw :: l =>
      match from_binary ser_Transaction raw with
      | Ok tx => let '(ok, txs) := transactions_from_binary l in (ok, tx :: txs)
      | _ => (false, [])
      end
  end.

(** [Block::from_raw_block] on a fresh block: its result and the block. *)
Definition from_raw_block (raw : RawBlock) : bool * Block :=
  let '(ok, h) := header_from_binary (raw_block raw) in
  if ok then
    let '(ok, txs) := transactions_from_binary (raw_transactions raw) in
    (ok, {| block_header := h; block_transactions := txs |})
  else (false, {| block_header := h; block_transactions := [] |}).

Fixpoint transactions_to_binary (l : list Transaction) : result (list BinaryArray) :=
  match l with
  | [] => Ok []
  | tx :: l => ba ← to_binary ser_Transaction tx; rest ← transactions_to_binary l; Ok (ba :: rest)
  end.

(** [Block::to_raw_block]; [None] when it returns false. *)
Definition to_raw_block (b : Block) : option RawBlock :=
  match (ba ← to_binary ser_BlockTemplate (block_header b);
         txs ← transactions_to_binary (block_transactions b);
         Ok {| raw_block := ba; raw_transactions := txs |}) with
  | Ok raw => Some raw
  | _ => None
  end.

(** What both constructors do once they have the raw block; [context] says
    whether the long hash is to be computed. *)
Definition prepare (context : bool) (block_data : BinaryArray) (raw : RawBlock) : result PreparedBlock :=
  let '(ok, b) := from_raw_block raw in
  bid ← (if ok : bool then get_block_hash cn_fast_hash (block_header b) else Ok null_hash);
  parent_block_size ←
    (if 2 <=? major_version (header (block_header b))
     then binary_size ser_bare_ParentBlock (parent_block (block_header b))
     else Ok 0);
  coinbase_tx_size ← binary_size ser_Transaction (base_transaction (block_header b));
  base_transaction_hash ← get_transaction_hash cn_fast_hash (base_transaction (block_header b));
  long_block_hash ←
    (if context then get_block_long_hash cn_fast_hash cn_slow_hash cn_lite_slow_hash_v1 (block_header b)
     else Ok null_hash);
  Ok {| block_data := block_data; pb_raw := raw; block := b; bid := bid;
        base_transaction_hash := base_transaction_hash; coinbase_tx_size := coinbase_tx_size;
        parent_block_size := parent_block_size; long_block_hash := long_block_hash |}.

(** [PreparedBlock(BinaryArray &&, context)]. *)
Definition prepare_block_data (context : bool) (ba : BinaryArray) : result PreparedBlock :=
  raw ← from_binary ser_RawBlock ba;
  prepare context ba raw.

(** [PreparedBlock(RawBlock &&, context)]. *)
Definition prepare_block (context : bool) (raw : RawBlock) : result PreparedBlock :=
  block_data ← to_binary ser_RawBlock raw;
  prepare context block_data raw.

End prepare.

(** [block.header] of a prepared block. *)
Definition template (pb : PreparedBlock) : BlockTemplate := block_header (block pb).

(** A header with the fields that validation fills in. *)
Record consensus_fields := {
  f_size_median : Z; f_timestamp_median : Timestamp; f_effective_size_median : Z; f_block_size : Z;
  f_transactions_cumulative_size : Z; f_difficulty : Difficulty; f_cumulative_difficulty : Difficulty;
  f_base_reward : Amount; f_reward : Amount; f_already_generated_coins : Amount;
  f_already_generated_transactions : Z; f_total_fee_amount : Amount;
}.
Definition fill (info : api_BlockHeader) (f : consensus_fields) : api_BlockHeader := {|
  bh_major_version := bh_major_version info; bh_minor_version := bh_minor_version info;
  bh_timestamp := bh_timestamp info; bh_previous_block_hash := bh_previous_block_hash info;
  bh_nonce := bh_nonce info; bh_height := bh_height info; bh_hash := bh_hash info;
  bh_reward := f_reward f; bh_cumulative_difficulty := f_cumulative_difficulty f;
  bh_difficulty := f_difficulty f; bh_base_reward := f_base_reward f; bh_block_size := f_block_size f;
  bh_transactions_cumulative_size := f_transactions_cumulative_size f;
  bh_already_generated_coins := f_already_generated_coins f;
  bh_already_generated_transactions := f_already_generated_transactions f;
  bh_size_median := f_size_median f; bh_effective_size_median := f_effective_size_median f;
  bh_timestamp_median := f_timestamp_median f; bh_total_fee_amount := f_total_fee_amount f |}.

Section rules.
Context {D : Type} `{Lmdb D} (currency : Currency).
Context (cn_fast_hash cn_slow_hash cn_lite_slow_hash_v1 : list Z → Hash) (key_isvalid : PublicKey → bool).

(** The size and timestamp medians for the block after [prev_info]. *)
Definition calculate_consensus_values (b : BlockChain D) (prev_info : api_BlockHeader) :
    result (Z * Timestamp * BlockChain D) :=
  '(window, b) ← get_tip_segment currency b prev_info (reward_blocks_window currency) true;
  let next_median_size := median_value 32 (bh_block_size <$> window) in
  let check_window := get_timestamp_check_window currency (u32 (m_tip_height b + 1)) in
  '(window, b) ← get_tip_segment currency b prev_info check_window false;
  let next_median_timestamp :=
    if check_window <=? Z.of_nat (length window) then median_value 32 (bh_timestamp <$> window) else 0 in
  Ok (next_median_size, next_median_timestamp, b).

Definition tip_changed (b : BlockChain D) : result (BlockChain D) :=
  tip ← get_tip b;
  '(size, timestamp, b) ← calculate_consensus_values b tip;
  Ok (with_medians b timestamp size).

(** The difficulty of the block after [prev_info], from the window of headers
    that ends there; the genesis block is not in it. *)
Definition difficulty_after (b : BlockChain D) (prev_info : api_BlockHeader) (index : Height) :
    result (Difficulty * BlockChain D) :=
  let blocks_count :=
    Z.min (bh_height prev_info) (get_difficulty_blocks_count currency (u32 (m_tip_height b + 1))) in
  '(window, b) ← get_tip_segment currency b prev_info blocks_count false;
  difficulty ← next_difficulty currency index (bh_timestamp <$> window) (bh_cumulative_difficulty <$> window);
  Ok (difficulty, b).

(** The loop over the raw transactions: their total size, or the error. *)
Fixpoint check_raw_transactions (max_size : Z) (raws : list BinaryArray) (txs : list Transaction)
    (hashes : list Hash) (cumulative_size : Z) : result (string + Z) :=
  match raws, txs, hashes with
  | raw :: raws, tx :: txs, hash :: hashes =>
      if Z.of_nat (length raw) >? max_size then Ok (inl "RAW_TRANSACTION_SIZE_TOO_BIG"%string)
      else
        tid ← get_transaction_hash cn_fast_hash tx;
        if negb (bool_decide (tid = hash)) then Ok (inl "TRANSACTION_ABSENT_IN_POOL"%string)
        else check_raw_transactions max_size raws txs hashes (cumulative_size + Z.of_nat (length raw))
  | [], _, _ => Ok (inr cumulative_size)
  | _, _, _ => Throw "vector::at"
  end.

(** The miner's outputs: their sum, or the error. *)
Fixpoint check_miner_outputs (check_keys : bool) (outs : list TransactionOutput) (miner_reward : Z) : string + Z :=
  match outs with
  | [] => inr miner_reward
  | o :: outs =>
      if out_amount o =? 0 then inl "OUTPUT_ZERO_AMOUNT"%string
      else
        let '(KeyOutput key) := out_target o in
        if check_keys && negb (key_isvalid key) then inl "OUTPUT_INVALID_KEY"%string
        else if UINT64_MAX - out_amount o <? miner_reward then inl "OUTPUTS_AMOUNT_OVERFLOW"%string
        else check_miner_outputs check_keys outs (miner_reward + out_amount o)
  end.

Fixpoint cumulative_fee (txs : list Transaction) (fee : Amount) : option Amount :=
  match txs with
  | [] => Some fee
  | tx :: txs =>
      match get_tx_fee_opt (tx_prefix tx) with
      | None => None
      | Some f => cumulative_fee txs (u64 (fee + f))
      end
  end.

Fixpoint check_transactions (check_keys : bool) (txs : list Transaction) : string + unit :=
  match txs with
  | [] => inr tt
  | tx :: txs =>
      match validate_semantic key_isvalid false tx check_keys with
      | inl e => inl e
      | inr _ => check_transactions check_keys txs
      end
  end.

(** The coinbase: one input, of this height, locked for the unlock window. *)
Definition check_miner_transaction (tx : TransactionPrefix) (height : Height) : string + unit :=
  match inputs tx with
  | [CoinbaseInput block_index] =>
      if negb (block_index =? height) then inl "BASE_INPUT_WRONG_BLOCK_INDEX"%string
      else if negb (unlock_time tx =? u32 (height + mined_money_unlock_window currency)) then
        inl "WRONG_TRANSACTION_UNLOCK_TIME"%string
      else inr tt
  | [KeyInput _ _ _] => inl "INPUT_UNEXPECTED_TYPE"%string
  | _ => inl "INPUT_WRONG_COUNT"%string
  end.

(** The checkpoint, or the proof of work. *)
Definition check_work (pb : PreparedBlock) (height : Height) (hash : Hash) (difficulty : Difficulty) (check_pow : bool) :
    result (string + unit) :=
  in_zone ← is_in_sw_checkpoint_zone currency height;
  if in_zone : bool then
    Ok (if (check_sw_checkpoint currency height hash).1 then inr tt
        else inl "CHECKPOINT_BLOCK_HASH_MISMATCH"%string)
  else if negb check_pow then Ok (inr tt)
  else
    long_hash ←
      (if negb (bool_decide (long_block_hash pb = null_hash)) then Ok (long_block_hash pb)
       else get_block_long_hash cn_fast_hash cn_slow_hash cn_lite_slow_hash_v1 (template pb));
    strong ← check_proof_of_work cn_fast_hash currency long_hash (template pb) difficulty;
    Ok (if strong : bool then inr tt else inl "PROOF_OF_WORK_TOO_WEAK"%string).

(** Goes on with the value, or returns the error. *)
Definition or_error {A} (m : result (string + A)) (b : BlockChain D)
    (k : A → result ((string + api_BlockHeader) * BlockChain D)) : result ((string + api_BlockHeader) * BlockChain D) :=
  r ← m; match r with inl e => Ok (inl e, b) | inr a => k a end.
Definition or_fail (ok : bool) (e : string) : result (string + unit) := Ok (if ok then inr tt else inl e).

(** [check_standalone_consensus]: the error, or [info] with the fields that it
    fills in.  [info] has the header's own fields already. *)
Definition check_standalone_consensus (b : BlockChain D) (now : Timestamp) (pb : PreparedBlock)
    (info prev_info : api_BlockHeader) (check_pow : bool) : result ((string + api_BlockHeader) * BlockChain D) :=
  let txs := block_transactions (block pb) in
  let raws := raw_transactions (pb_raw pb) in
  let t := template pb in
  let height := bh_height info in
  let version := major_version (header t) in
  or_error (or_fail ((length txs =? length (transaction_hashes t))%nat && (length txs =? length raws)%nat)
              "WRONG_TRANSACTIONS_COUNT") b (λ _,
  '(size_median, timestamp_median, b) ←
    (if negb (bool_decide (m_tip_bid b = bh_hash prev_info)) then calculate_consensus_values b prev_info
     else Ok (m_next_median_size b, m_next_median_timestamp b, b));
  let effective_size_median :=
    Z.max size_median (block_granted_full_reward_zone_by_block_version currency version) in
  max_tx_size ← (if bool_decide (raws = []) then Ok 0 else max_transaction_allowed_size currency effective_size_median);
  or_error (check_raw_transactions max_tx_size raws txs (transaction_hashes t) 0) b (λ cumulative_size,
  let block_size := u32 (coinbase_tx_size pb + cumulative_size) in
  max_size ← max_block_cumulative_size currency height;
  or_error (or_fail (block_size <=? max_size) "CUMULATIVE_BLOCK_SIZE_TOO_BIG") b (λ _,
  or_error (or_fail (version =? get_block_major_version_for_height currency height) "WRONG_VERSION") b (λ _,
  or_error (or_fail (negb ((version =? 2) && (pb_major_version (parent_block t) >? 1))) "PARENT_BLOCK_WRONG_VERSION") b (λ _,
  or_error (or_fail (negb ((2 <=? version) && (parent_block_size pb >? 2048))) "PARENT_BLOCK_SIZE_TOO_BIG") b (λ _,
  or_error (or_fail (timestamp (header t) <=? u32 (now + get_block_future_time_limit currency (u32 (m_tip_height b + 1))))
              "TIMESTAMP_TOO_FAR_IN_FUTURE") b (λ _,
  or_error (or_fail (timestamp_median <=? timestamp (header t)) "TIMESTAMP_TOO_FAR_IN_PAST") b (λ _,
  or_error (Ok (check_miner_transaction (tx_prefix (base_transaction t)) height)) b (λ _,
  in_zone ← is_in_sw_checkpoint_zone currency height;
  let check_keys := negb in_zone in
  or_error (Ok (check_miner_outputs check_keys (outputs (tx_prefix (base_transaction t))) 0)) b (λ miner_reward,
  '(difficulty, b) ← difficulty_after b prev_info (bh_height prev_info);
  or_error (or_fail (negb (difficulty =? 0)) "DIFFICULTY_OVERHEAD") b (λ _,
  or_error (Ok (match cumulative_fee txs 0 with Some fee => inr fee | None => inl "WRONG_AMOUNT"%string end)) b (λ fee,
  '(base_reward, _) ← get_block_reward currency version effective_size_median 0 (bh_already_generated_coins prev_info) 0;
  '(reward, emission_change) ←
    get_block_reward currency version effective_size_median block_size (bh_already_generated_coins prev_info) fee;
  or_error (or_fail (miner_reward =? reward) "BLOCK_REWARD_MISMATCH") b (λ _,
  or_error (Ok (check_transactions check_keys txs)) b (λ _,
  or_error (check_work pb height (bh_hash info) difficulty check_pow) b (λ _,
  Ok (inr (fill info {|
    f_size_median := size_median; f_timestamp_median := timestamp_median;
    f_effective_size_median := effective_size_median; f_block_size := block_size;
    f_transactions_cumulative_size := u32 cumulative_size; f_difficulty := difficulty;
    f_cumulative_difficulty := u64 (bh_cumulative_difficulty prev_info + difficulty);
    f_base_reward := base_reward; f_reward := reward;
    f_already_generated_coins := u64 (bh_already_generated_coins prev_info + emission_change);
    f_already_generated_transactions := u64 (bh_already_generated_transactions prev_info + Z.of_nat (length txs) + 1);
    f_total_fee_amount := fee |}), b)))))))))))))))).

End rules.

End Consensus.
