(* ===== verification/ConsensusLaws.v ===== *)
(** * Consensus rules of a block: theorems *)

From S2P Require Import Prelude Varint Containers Seria Text CryptoNote Amounts TransactionExtra Blocks Currency Difficulty Db ChainState Store Pool Redo Headers Consensus.
Import Containers Codec Varint CryptoNote Amounts TransactionExtra Blocks Currency Difficulty Db ChainState Redo Headers Consensus.

Local Open Scope Z_scope.

Module ConsensusLaws.

(** ** Sums without wrap-around *)

Definition input_amount (i : TransactionInput) : Amount := match i with KeyInput a _ _ => a | CoinbaseInput _ => 0 end.
Fixpoint sum_inputs (ins : list TransactionInput) : Z :=
  match ins with [] => 0 | i :: ins => input_amount i + sum_inputs ins end.
Fixpoint sum_outputs (outs : list TransactionOutput) : Z :=
  match outs with [] => 0 | o :: outs => out_amount o + sum_outputs outs end.
(** What transactions take from the chain and what they give to it. *)
Fixpoint spent (txs : list Transaction) : Z :=
  match txs with [] => 0 | tx :: txs => sum_inputs (inputs (tx_prefix tx)) + spent txs end.
Fixpoint created (txs : list Transaction) : Z :=
  match txs with [] => 0 | tx :: txs => sum_outputs (outputs (tx_prefix tx)) + created txs end.

(** Amounts are 64-bit words. *)
Definition amounts_ok (tx : TransactionPrefix) : Prop :=
  Forall (λ i, in_u 64 (input_amount i)) (inputs tx) ∧ Forall (λ o, in_u 64 (out_amount o)) (outputs tx).

Lemma sum_inputs_nonneg ins : Forall (λ i, in_u 64 (input_amount i)) ins → 0 ≤ sum_inputs ins.
Proof. unfold in_u. induction 1; cbn; lia. Qed.
Lemma sum_outputs_nonneg outs : Forall (λ o, in_u 64 (out_amount o)) outs → 0 ≤ sum_outputs outs.
Proof. unfold in_u. induction 1; cbn; lia. Qed.

(** ** Raw blocks *)

Section raw.
Context (partial_header : BinaryArray → BlockTemplate).

Lemma transactions_roundtrip txs : Forall (c_ok ser_Transaction) txs →
  ∃ raws, transactions_to_binary txs = Ok raws ∧ transactions_from_binary raws = (true, txs).
Proof.
  induction 1 as [|tx txs Htx _ (raws & Hr & Hf)]; [by exists []|].
  destruct (from_to_binary ser_Transaction tx Htx) as (ba & Hp & _ & Hg).
  exists (ba :: raws). cbn [transactions_to_binary transactions_from_binary]. rewrite Hp, Hg, Hf.
  cbn [mbind result_bind]. by rewrite Hr.
Qed.

(** A block survives its raw form. *)
Lemma raw_block_roundtrip blk :
  template_ok (block_header blk) → Forall (c_ok ser_Transaction) (block_transactions blk) →
  ∃ raw, to_raw_block blk = Some raw ∧ from_raw_block partial_header raw = (true, blk).
Proof.
  intros Ht Htxs. destruct (put_total (c := ser_BlockTemplate) _ Ht) as (ba & Hp & _).
  pose proof (get_put (c := ser_BlockTemplate) _ ba [] Ht Hp) as Hg. rewrite app_nil_r in Hg.
  destruct (transactions_roundtrip _ Htxs) as (raws & Hr & Hf).
  exists {| raw_block := ba; raw_transactions := raws |}. unfold to_raw_block, from_raw_block, header_from_binary, to_binary.
  rewrite Hp. cbn [mbind result_bind raw_block raw_transactions]. rewrite Hr, Hg, Hf. by destruct blk.
Qed.

(** Bytes after the header make [from_raw_block] fail, but the header has been
    assigned by then: the prepared block has the whole header and no hash. *)
Lemma excess_data_keeps_header h ba x rest raws : template_ok h → to_binary ser_BlockTemplate h = Ok ba →
  from_raw_block partial_header {| raw_block := ba ++ x :: rest; raw_transactions := raws |} =
    (false, {| block_header := h; block_transactions := [] |}).
Proof.
  intros Ht Hp. unfold from_raw_block, header_from_binary. cbn [raw_block raw_transactions].
  by rewrite (get_put (c := ser_BlockTemplate) h ba (x :: rest) Ht Hp).
Qed.

Lemma excess_data_has_no_hash cn_fast_hash cn_slow_hash cn_lite_slow_hash_v1 context h ba x rest raws pb :
  template_ok h → to_binary ser_BlockTemplate h = Ok ba →
  prepare_block cn_fast_hash cn_slow_hash cn_lite_slow_hash_v1 partial_header context {| raw_block := ba ++ x :: rest; raw_transactions := raws |} = Ok pb →
  template pb = h ∧ bid pb = null_hash.
Proof.
  intros Ht Hp Hpb. unfold prepare_block in Hpb. inv_ok Hpb. unfold prepare in Hpb.
  rewrite (excess_data_keeps_header h ba x rest raws Ht Hp) in Hpb.
  inv_ok Hpb. injection Hpb as <-. by injection Ha0 as <-.
Qed.

End raw.

(** Two timestamps after January 2038: the sum in the median wraps. *)
Example median_value_wraps : median_value 32 [2 ^ 31; 2 ^ 31 + 2] = 1.
Proof. reflexivity. Qed.

Section semantic.
Variable key_isvalid : PublicKey → bool.

Lemma validate_outputs_sum check outs s r : Forall (λ o, in_u 64 (out_amount o)) outs → 0 ≤ s < 2 ^ 64 →
  validate_outputs key_isvalid check outs s = inr r → r = s + sum_outputs outs ∧ r < 2 ^ 64.
Proof.
  intros Ho. revert s. induction Ho as [|o outs Ha Ho IH]; intros s Hs Hv.
  - injection Hv as <-. cbn. lia.
  - cbn in Hv. destruct (out_amount o =? 0); [done|]. destruct (out_target o).
    destruct (_ && _); [done|]. destruct (Z.ltb_spec (UINT64_MAX - out_amount o) s) as [|Hle]; [done|].
    unfold UINT64_MAX, in_u in *. apply IH in Hv as [-> ?]; [|lia]. cbn. lia.
Qed.

(** The miner's outputs are summed the same way. *)
Lemma check_miner_outputs_sum check outs s r : Forall (λ o, in_u 64 (out_amount o)) outs → 0 ≤ s < 2 ^ 64 →
  check_miner_outputs key_isvalid check outs s = inr r → r = s + sum_outputs outs ∧ r < 2 ^ 64.
Proof. apply validate_outputs_sum. Qed.

Lemma validate_inputs_sum ins ki s r : Forall (λ i, in_u 64 (input_amount i)) ins → 0 ≤ s < 2 ^ 64 →
  validate_inputs false ins ki s = inr r → r = s + sum_inputs ins ∧ r < 2 ^ 64.
Proof.
  intros Hi. revert ki s. induction Hi as [|i ins Ha Hi IH]; intros ki s Hs Hv.
  - injection Hv as <-. cbn. lia.
  - destruct i as [bi|a idx k]; [done|]. cbn in Hv, Ha.
    destruct (bool_decide _); [done|]. destruct (bool_decide _); [done|]. destruct (bool_decide _); [done|].
    destruct (Z.ltb_spec (UINT64_MAX - a) s) as [|Hle]; [done|]. unfold UINT64_MAX, in_u in *.
    apply IH in Hv as [-> ?]; [|lia]. cbn. lia.
Qed.

(** A valid transaction creates no more than it spends, and neither sum wraps. *)
Lemma validate_semantic_sums tx check fee : amounts_ok (tx_prefix tx) →
  validate_semantic key_isvalid false tx check = inr fee →
  fee = sum_inputs (inputs (tx_prefix tx)) - sum_outputs (outputs (tx_prefix tx)) ∧
  0 ≤ sum_outputs (outputs (tx_prefix tx)) ≤ sum_inputs (inputs (tx_prefix tx)) ∧
  sum_inputs (inputs (tx_prefix tx)) < 2 ^ 64.
Proof.
  intros [Hi Ho]. unfold validate_semantic. destruct (bool_decide _); [done|].
  destruct (validate_outputs _ _ _ _) as [|o] eqn:Hov; [done|].
  destruct (validate_inputs _ _ _ _) as [|i] eqn:Hiv; [done|].
  apply validate_outputs_sum in Hov as [-> ?]; [|done|lia]. apply validate_inputs_sum in Hiv as [-> ?]; [|done|lia].
  pose proof (sum_outputs_nonneg _ Ho). destruct (Z.gtb_spec (0 + sum_outputs (outputs (tx_prefix tx)))
    (0 + sum_inputs (inputs (tx_prefix tx)))) as [|Hle]; [done|]. cbn [andb].
  destruct (_ && _); [done|]. destruct (_ && _); [done|]. injection 1 as <-.
  unfold u64. rewrite Z.mod_small; lia.
Qed.

Lemma foldl_inputs_exact ins s : Forall (λ i, in_u 64 (input_amount i)) ins → 0 ≤ s → s + sum_inputs ins < 2 ^ 64 →
  foldl (λ a i, match i with KeyInput amount _ _ => u64 (a + amount) | _ => a end) s ins = s + sum_inputs ins.
Proof.
  intros Hi. revert s. induction Hi as [|i ins Ha Hi IH]; intros s Hs Hlt; [cbn; lia|].
  pose proof (sum_inputs_nonneg _ Hi). destruct i as [bi|a idx k]; cbn in *; unfold in_u in *.
  - rewrite IH; lia.
  - rewrite u64_small by lia. rewrite IH; lia.
Qed.

Lemma foldl_outputs_exact outs s : Forall (λ o, in_u 64 (out_amount o)) outs → 0 ≤ s → s + sum_outputs outs < 2 ^ 64 →
  foldl (λ a o, u64 (a + out_amount o)) s outs = s + sum_outputs outs.
Proof.
  intros Ho. revert s. induction Ho as [|o outs Ha Ho IH]; intros s Hs Hlt; [cbn; lia|].
  pose proof (sum_outputs_nonneg _ Ho). cbn in *. unfold in_u in *. rewrite u64_small by lia. rewrite IH; lia.
Qed.

(** The fee of a transaction that creates no more than it spends. *)
Lemma valid_fee tx : amounts_ok (tx_prefix tx) →
  0 ≤ sum_outputs (outputs (tx_prefix tx)) ≤ sum_inputs (inputs (tx_prefix tx)) → sum_inputs (inputs (tx_prefix tx)) < 2 ^ 64 →
  get_tx_fee_opt (tx_prefix tx) = Some (sum_inputs (inputs (tx_prefix tx)) - sum_outputs (outputs (tx_prefix tx))).
Proof.
  intros [Hi Ho] Hle Hlt. unfold get_tx_fee_opt, amount_in, amount_out.
  rewrite foldl_inputs_exact, foldl_outputs_exact by (done || lia).
  destruct (Z.ltb_spec (0 + sum_inputs (inputs (tx_prefix tx))) (0 + sum_outputs (outputs (tx_prefix tx)))); [lia|].
  by rewrite !Z.add_0_l.
Qed.

(** The fees of valid transactions, as [get_tx_fee] computes them. *)
Lemma valid_fees check txs f r : Forall (λ tx, amounts_ok (tx_prefix tx)) txs →
  check_transactions key_isvalid check txs = inr tt → cumulative_fee txs f = Some r →
  0 ≤ created txs ≤ spent txs ∧ r mod 2 ^ 64 = (f + (spent txs - created txs)) mod 2 ^ 64 ∧
  (txs = [] ∨ in_u 64 r).
Proof.
  intros Hall. revert f. induction Hall as [|tx txs Htx Hall IH]; intros f Hc Hf.
  - injection Hf as ->. cbn. split_and!; [lia|lia|f_equal; lia|by left].
  - cbn in Hc, Hf. destruct (validate_semantic _ _ _ _) as [|fee] eqn:Hv; [done|].
    apply validate_semantic_sums in Hv as (-> & Hle & Hlt); [|done]. destruct Htx as [Hi Ho].
    rewrite (valid_fee tx (conj Hi Ho) Hle Hlt) in Hf.
    destruct (IH _ Hc Hf) as (Hle' & Hmod & Hr). cbn.
    split_and!; [lia|lia| |right].
    + rewrite Hmod. unfold u64. rewrite Zplus_mod_idemp_l. f_equal. lia.
    + destruct Hr as [->|Hr]; [|done]. cbn in Hf. injection Hf as <-. unfold u64, in_u. apply Z.mod_pos_bound. lia.
Qed.

End semantic.

Section check.
Context {D : Type} `{LmdbLaws D} (currency : Currency).
Context (cn_fast_hash cn_slow_hash cn_lite_slow_hash_v1 : list Z → Hash) (key_isvalid : PublicKey → bool).

Lemma or_error_inv {A : Type} m (b b' : BlockChain D) (k : A → result ((string + api_BlockHeader) * BlockChain D)) x :
  or_error m b k = Ok (inr x, b') → ∃ a, m = Ok (inr a) ∧ k a = Ok (inr x, b').
Proof.
  unfold or_error. intros Hk. inv_ok Hk. destruct a as [e|a]; [done|]. by exists a.
Qed.

Lemma or_fail_inv ok e a : or_fail ok e = Ok (inr a) → ok = true.
Proof. by destruct ok. Qed.

(** What an accepted block has passed, of what the theorems need. *)
Lemma check_standalone_inv (b b' : BlockChain D) now pb info prev pow info' :
  check_standalone_consensus currency cn_fast_hash cn_slow_hash cn_lite_slow_hash_v1 key_isvalid b now pb info prev pow
    = Ok (inr info', b') →
  let t := template pb in
  let coinbase := tx_prefix (base_transaction t) in
  let txs := block_transactions (block pb) in
  ∃ median block_size fee check emission,
    block_granted_full_reward_zone_by_block_version currency (major_version (header t)) ≤ median ∧ 0 ≤ block_size ∧
    major_version (header t) = get_block_major_version_for_height currency (bh_height info) ∧
    bh_timestamp_median info' ≤ timestamp (header t) ∧
    check_miner_transaction currency coinbase (bh_height info) = inr tt ∧
    check_miner_outputs key_isvalid check (outputs coinbase) 0 = inr (bh_reward info') ∧
    cumulative_fee txs 0 = Some fee ∧ bh_total_fee_amount info' = fee ∧
    get_block_reward currency (major_version (header t)) median block_size (bh_already_generated_coins prev) fee
      = Ok (bh_reward info', emission) ∧
    bh_already_generated_coins info' = u64 (bh_already_generated_coins prev + emission) ∧
    check_transactions key_isvalid check txs = inr tt ∧
    bh_difficulty info' ≠ 0 ∧
    bh_cumulative_difficulty info' = u64 (bh_cumulative_difficulty prev + bh_difficulty info') ∧
    check_work currency cn_fast_hash cn_slow_hash cn_lite_slow_hash_v1 pb (bh_height info) (bh_hash info)
      (bh_difficulty info') pow = Ok (inr tt).
Proof.
  intros Hc t coinbase txs. unfold check_standalone_consensus in Hc.
  apply or_error_inv in Hc as ([] & _ & Hc).
  inv_ok Hc. destruct a as [[size_median timestamp_median] b1]. inv_ok Hc.
  apply or_error_inv in Hc as (cumulative_size & _ & Hc). inv_ok Hc.
  apply or_error_inv in Hc as ([] & _ & Hc).
  apply or_error_inv in Hc as ([] & Hversion%or_fail_inv%Z.eqb_eq & Hc).
  apply or_error_inv in Hc as ([] & _ & Hc). apply or_error_inv in Hc as ([] & _ & Hc).
  apply or_error_inv in Hc as ([] & _ & Hc).
  apply or_error_inv in Hc as ([] & Htime%or_fail_inv%Z.leb_le & Hc).
  apply or_error_inv in Hc as ([] & Hminer & Hc). inv_ok Hc.
  apply or_error_inv in Hc as (miner_reward & Houts & Hc). inv_ok Hc. destruct a2 as [difficulty b2].
  apply or_error_inv in Hc as ([] & Hdiff%or_fail_inv%negb_true_iff%Z.eqb_neq & Hc).
  apply or_error_inv in Hc as (fee & Hfee & Hc).
  inv_ok Hc. destruct a2 as [base_reward e0]. inv_ok Hc. destruct a2 as [reward emission].
  apply or_error_inv in Hc as ([] & Hreward%or_fail_inv%Z.eqb_eq & Hc).
  apply or_error_inv in Hc as ([] & Htxs & Hc). apply or_error_inv in Hc as ([] & Hwork & Hc).
  injection Hc as <- <-. cbn [fill bh_timestamp_median bh_reward bh_total_fee_amount bh_already_generated_coins
    bh_difficulty bh_cumulative_difficulty f_timestamp_median f_reward f_total_fee_amount f_already_generated_coins
    f_difficulty f_cumulative_difficulty].
  injection Hminer as Hminer. injection Houts as Houts. injection Htxs as Htxs. subst miner_reward.
  injection Hfee as Hfee. fold t txs in Hfee.
  destruct (cumulative_fee txs 0) as [fee0|] eqn:Hf; [|congruence]. injection Hfee as ->.
  eexists _, _, fee, _, _. split_and!; [..|exact Hwork]; try exact Ha5; try exact Houts; try done.
  - apply Z.le_max_r.
  - by apply Z.mod_pos_bound.
Qed.

(** The sizes for which the reward is computed at all. *)
Lemma reward_sizes_ok v median size agc fee r : 0 ≤ median → 0 ≤ size →
  get_block_reward currency v median size agc fee = Ok r → sizes_ok median size.
Proof.
  intros Hm Hs Hr. unfold get_block_reward in Hr. destruct (negb _); [done|]. destruct (negb _); [done|].
  inv_ok Hr. rename Ha into Hp. clear Hr. unfold get_penalized_amount in Hp.
  destruct (Z.leb_spec size (u64 (2 * median))) as [H2|]; [cbn [negb] in Hp|done].
  destruct (Z.leb_spec median UINT32_MAX); [cbn [negb] in Hp|done].
  destruct (Z.leb_spec size UINT32_MAX); [|done].
  unfold sizes_ok. split_and!; [done..|]. rewrite u64_small in H2; unfold UINT32_MAX in *; lia.
Qed.

(** Nothing else in the validation bounds the size of a block by twice the
    median: a larger one fails the assertion, where asserts are compiled. *)
Lemma get_block_reward_too_large v median size agc fee : 0 ≤ median ≤ UINT32_MAX → 2 * median < size →
  ∃ w, get_block_reward currency v median size agc fee = Undefined w.
Proof.
  unfold UINT32_MAX. intros Hm Hs. unfold get_block_reward. destruct (negb _); [by eexists|]. destruct (negb _); [by eexists|].
  unfold get_penalized_amount. destruct (Z.leb_spec size (u64 (2 * median))) as [Hle|]; [|by eexists].
  rewrite u64_small in Hle; lia.
Qed.

Lemma check_miner_transaction_inv tx height : check_miner_transaction currency tx height = inr tt →
  inputs tx = [CoinbaseInput height] ∧ unlock_time tx = u32 (height + mined_money_unlock_window currency).
Proof.
  unfold check_miner_transaction. destruct (inputs tx) as [|[bi|??] [|? ?]]; try done.
  destruct (Z.eqb_spec bi height) as [->|]; [|done]. cbn [negb].
  destruct (Z.eqb_spec (unlock_time tx) (u32 (height + mined_money_unlock_window currency))); done.
Qed.

End check.


(** ** A block of the test network *)

Definition sample_hash (_ : list Z) : Hash := replicate 32 7.
Definition testnet : Currency :=
  ltac:(let r := eval vm_compute in (make_Currency sample_hash true) in
        match r with Ok ?c => exact c end).
Definition genesis_info : api_BlockHeader := {|
  bh_major_version := 1; bh_minor_version := 0; bh_timestamp := 1500000000;
  bh_previous_block_hash := null_hash; bh_nonce := 0; bh_height := 0; bh_hash := genesis_block_hash testnet;
  bh_reward := 0; bh_cumulative_difficulty := 1; bh_difficulty := 1; bh_base_reward := 0; bh_block_size := 100;
  bh_transactions_cumulative_size := 0; bh_already_generated_coins := 1000000;
  bh_already_generated_transactions := 1; bh_size_median := 0; bh_effective_size_median := 0;
  bh_timestamp_median := 0; bh_total_fee_amount := 0 |}.
Definition genesis_chain : BlockChain memory_db := {|
  node := {| store := Store.empty_store; pool := Pool.Pool.empty_pool |};
  m_tip_bid := genesis_block_hash testnet; m_tip_cumulative_difficulty := 1; m_tip_height := 0; header_cache := ∅;
  m_header_tip_window := [genesis_info]; m_next_median_timestamp := 0; m_next_median_size := 0 |}.
Definition spending_tx : Transaction := {|
  tx_prefix := {| version := 1; unlock_time := 0; inputs := [KeyInput 1000000 [0] (replicate 32 5)];
    outputs := [{| out_amount := 900000; out_target := KeyOutput (replicate 32 6) |}]; extra := [] |};
  signatures := [[replicate 64 4]] |}.
(** One that pays the miner [reward]. *)
Definition coinbase_tx (reward : Amount) : Transaction := {|
  tx_prefix := {| version := 1; unlock_time := 1 + mined_money_unlock_window testnet; inputs := [CoinbaseInput 1];
    outputs := [{| out_amount := reward; out_target := KeyOutput (replicate 32 8) |}]; extra := [] |};
  signatures := [] |}.
Definition sample_reward : Amount :=
  ltac:(let r := eval vm_compute in (get_block_reward testnet 2 100000 1000 1000000 100000) in
        match r with Ok (?r, _) => exact r end).
Definition sample_prepared (reward : Amount) : PreparedBlock := {|
  block_data := []; pb_raw := {| raw_block := []; raw_transactions := [[]] |};
  block := {| block_header := {|
      header := {| major_version := 2; minor_version := 0; nonce := 0; timestamp := 1500000001;
                   previous_block_hash := genesis_block_hash testnet |};
      parent_block := default_parent_block; base_transaction := coinbase_tx reward;
      transaction_hashes := [replicate 32 7] |};
    block_transactions := [spending_tx] |};
  bid := replicate 32 1; base_transaction_hash := null_hash; coinbase_tx_size := 100; parent_block_size := 0;
  long_block_hash := null_hash |}.
Definition sample_info (pb : PreparedBlock) : api_BlockHeader := {|
  bh_major_version := 1; bh_minor_version := 0; bh_timestamp := 1500000001;
  bh_previous_block_hash := genesis_block_hash testnet; bh_nonce := 0; bh_height := 1; bh_hash := bid pb;
  bh_reward := 0; bh_cumulative_difficulty := 0; bh_difficulty := 0; bh_base_reward := 0; bh_block_size := 0;
  bh_transactions_cumulative_size := 0; bh_already_generated_coins := 0;
  bh_already_generated_transactions := 0; bh_size_median := 0; bh_effective_size_median := 0;
  bh_timestamp_median := 0; bh_total_fee_amount := 0 |}.
Definition sample_check (reward : Amount) (now : Timestamp) :=
  let pb := sample_prepared reward in
  check_standalone_consensus testnet sample_hash sample_hash sample_hash (λ _, true) genesis_chain now pb
    (sample_info pb) genesis_info false.
Definition verdict {A B : Type} (r : result ((string + A) * B)) : option (option string) :=
  match r with Ok (inl e, _) => Some (Some e) | Ok (inr _, _) => Some None | _ => None end.
Lemma verdict_accepted {A B : Type} (r : result ((string + A) * B)) :
  verdict r = Some None → ∃ a b, r = Ok (inr a, b).
Proof. destruct r as [[[e|a] b]| |]; [done|by exists a, b|done..]. Qed.

(** Accepted, and refused for one coin too many or by a clock that is behind. *)
Example sample_accepted : verdict (sample_check sample_reward 1500000000) = Some None.
Proof. vm_compute. reflexivity. Qed.
Example sample_refused :
  verdict (sample_check (sample_reward + 1) 1500000000) = Some (Some "BLOCK_REWARD_MISMATCH"%string) ∧
  verdict (sample_check sample_reward 1499900000) = Some (Some "TIMESTAMP_TOO_FAR_IN_FUTURE"%string).
Proof. vm_compute. done. Qed.

(** ** Properties *)

(** C39: No money appears from nothing: in a block that passes
    [check_standalone_consensus] the coinbase has the one input of its height,
    and it and the transactions of the block create exactly the coins that the
    transactions spend plus the growth of the generated coins, which stay
    within the money supply; the reward in the header is what the coinbase
    pays and the fees are the difference of the other transactions. *)
Theorem accepted_block_conserves_supply {D : Type} `{LmdbLaws D} (currency : Currency)
    (cn_fast_hash cn_slow_hash cn_lite_slow_hash_v1 : list Z → Hash) (key_isvalid : PublicKey → bool)
    (b b' : BlockChain D) now pb info prev pow info' :
  let coinbase := tx_prefix (base_transaction (template pb)) in
  let txs := block_transactions (block pb) in
  let agc := bh_already_generated_coins prev in
  let agc' := bh_already_generated_coins info' in
  check_standalone_consensus currency cn_fast_hash cn_slow_hash cn_lite_slow_hash_v1 key_isvalid b now pb info prev pow
    = Ok (inr info', b') →
  params_ok currency →
  0 ≤ block_granted_full_reward_zone_by_block_version currency (major_version (header (template pb))) →
  0 ≤ agc ≤ money_supply currency → money_supply currency - agc < 2 ^ 62 ∨ 2 ≤ emission_speed_factor currency →
  amounts_ok coinbase → Forall (λ tx, amounts_ok (tx_prefix tx)) txs →
  spent txs - created txs ≤ agc → spent txs - created txs < 2 ^ 62 →
  inputs coinbase = [CoinbaseInput (bh_height info)] ∧
  sum_outputs (outputs coinbase) + created txs = spent txs + (agc' - agc) ∧ 0 ≤ agc' ≤ money_supply currency ∧
  bh_reward info' = sum_outputs (outputs coinbase) ∧ bh_total_fee_amount info' = spent txs - created txs.
Proof.
  intros coinbase txs agc agc' Hc Hp Hz Ha Hbig [_ Hco] Htxs Hfa Hf62.
  apply check_standalone_inv in Hc as (median & size & fee & check & emission & Hmed & Hsize & _ & _ & Hm & Ho & Hf &
    -> & Hr & Hagc & Hv & _).
  fold coinbase in Hm, Ho. fold txs in Hf, Hv. fold agc in Hr, Hagc. fold agc' in Hagc.
  apply check_miner_transaction_inv in Hm as [Hin _].
  apply check_miner_outputs_sum in Ho as [Ho _]; [|done|lia].
  pose proof (valid_fees key_isvalid check txs 0 fee Htxs Hv Hf) as (Hle & Hmod & Hrange).
  assert (fee = spent txs - created txs) as ->.
  { destruct Hrange as [Hnil|Hu]; [rewrite Hnil in Hf |- *; injection Hf as <-; reflexivity|].
    unfold in_u in Hu. rewrite !Z.mod_small in Hmod by lia. lia. }
  pose proof (reward_sizes_ok _ _ _ _ _ _ _ (Z.le_trans _ _ _ Hz Hmed) Hsize Hr) as Hs.
  destruct (block_reward_conserves currency (major_version (header (template pb))) median size agc
    (spent txs - created txs) Hp Hs Ha ltac:(lia) Hf62 Hbig) as (reward & e & Hr' & _ & _ & Hre & Hrange').
  rewrite Hr in Hr'. injection Hr' as Hri <-. destruct Hp as [Hms _]. unfold in_u in Hms.
  rewrite u64_small in Hagc by lia. split_and!; try done; lia.
Qed.

Lemma accepted_block_conserves_supply_witness : ∃ info',
  900000 + sample_reward = 1000000 + (bh_already_generated_coins info' - 1000000) ∧
  bh_total_fee_amount info' = 100000.
Proof.
  destruct (verdict_accepted (sample_check sample_reward 1500000000)) as (info' & b' & Hc); [by vm_compute|].
  destruct (accepted_block_conserves_supply testnet sample_hash sample_hash sample_hash (λ _, true) genesis_chain b'
    1500000000 (sample_prepared sample_reward) (sample_info (sample_prepared sample_reward)) genesis_info false info')
    as (_ & Hs & _ & _ & Hf).
  - exact Hc.
  - clear Hc. by vm_compute.
  - clear Hc. by vm_compute.
  - clear Hc. cbn. lia.
  - clear Hc. right. cbn. lia.
  - clear Hc. split; repeat constructor; by vm_compute.
  - clear Hc. repeat constructor; by vm_compute.
  - clear Hc. cbn. lia.
  - clear Hc. cbn. lia.
  - exists info'. split; [cbn in Hs; lia|exact Hf].
Defined.

End ConsensusLaws.
