(* ===== verification/Mining.v ===== *)
(** * Block templates for miners (src/src/Core/BlockChainState.cpp:
    [create_mining_block_template], [clear_mining_transactions],
    [get_next_effective_median_size])

    How the node fills a block from its pool: the transactions, best paying
    last in the index of fees and so taken first, as far as they fit and can be
    redone together, and a coinbase that pays the reward of a block of exactly
    the size the block will have.  The random keys of the coinbase and the
    clock are arguments. *)

From S2P Require Import Prelude Varint Containers Seria Text CryptoNote Amounts TransactionExtra Blocks Currency Difficulty Db ChainState Store Pool Redo Headers Consensus.
Import Containers Codec Varint CryptoNote Amounts TransactionExtra Blocks Currency Difficulty Db ChainState Redo Headers Consensus.

Local Open Scope Z_scope.

Module Mining.

(** The transactions of templates handed out, with the height of the template. *)
Abbreviation MiningTransactions := (gmap Hash (BinaryArray * Height)) (only parsing).

(** What the loop over the pool has chosen. *)
Record Selection (S : Type) := {
  memory_state : DeltaState S;
  txs_size : Z;
  sel_fee : Amount;
  sel_hashes : list Hash;
  m_mining_transactions : MiningTransactions;
}.
Arguments memory_state {S} s.
Arguments txs_size {S} s.
Arguments sel_fee {S} s.
Arguments sel_hashes {S} s.
Arguments m_mining_transactions {S} s.

(** [m_mining_transactions.insert]: what is there stays. *)
Definition remember (tid : Hash) (binary_tx : BinaryArray) (height : Height) (m : MiningTransactions) :
    MiningTransactions :=
  match m !! tid with Some _ => m | None => <[tid := (binary_tx, height)]> m end.

Definition TRIES_COUNT : nat := 10.

Section template.
Context {D : Type} `{Lmdb D} (currency : Currency) (cn_fast_hash : list Z → Hash).
Context (check_ring_signature : RingSignatureArg → bool * bool).
Context (generate_key_derivation : PublicKey → list Z → option (list Z)).
Context (derive_public_key : list Z → nat → PublicKey → option PublicKey).
(** The key pairs that [random_keypair] gives, one after the other. *)
Context (random_keypair : nat → PublicKey * list Z).

(** Transactions are remembered for three blocks. *)
Definition clear_mining_transactions (b : BlockChain D) (m : MiningTransactions) : MiningTransactions :=
  filter (λ '(_, (_, height)), (m_tip_height b >? u32 (height + 3)) = false) m.

Definition get_next_effective_median_size (b : BlockChain D) : Z :=
  Z.max (m_next_median_size b)
    (block_granted_full_reward_zone_by_block_version currency
       (get_block_major_version_for_height currency (u32 (m_tip_height b + 1)))).

(** The hashes of the index of fees, cheapest first. *)
Definition pool_hashes (p : Pool.Pool.Pool) : list Hash :=
  flat_map (λ '(_, hashes), set_items hashes) (map_entries (Pool.Pool.m_memory_state_fee_tx p)).

(** One turn of the loop. *)
Definition select_transaction (block_size_limit : Z) (height : Height) (p : Pool.Pool.Pool)
    (s : Selection (Node D)) (tid : Hash) : result (Selection (Node D)) :=
  match Pool.Pool.m_memory_state_tx p !! tid with
  | None => Undefined "assert(false)"
  | Some t =>
      let tx_size := Pool.Pool.size (Pool.Pool.binary_tx t) in
      if u64 (txs_size s + tx_size) >? block_size_limit then Ok s
      else
        '(r, _) ← redo_transaction currency cn_fast_hash check_ring_signature (Pool.Pool.pt_tx t) (memory_state s) true;
        match r with
        | inl _ => Ok s
        | inr (memory_state, _) =>
            Ok {| memory_state := memory_state; txs_size := u64 (txs_size s + tx_size);
                  sel_fee := u64 (sel_fee s + Pool.Pool.fee t); sel_hashes := sel_hashes s ++ [tid];
                  m_mining_transactions := remember tid (Pool.Pool.binary_tx t) height (m_mining_transactions s) |}
        end
  end.

Definition select_transactions (block_size_limit : Z) (height : Height) (p : Pool.Pool.Pool) :
    list Hash → Selection (Node D) → result (Selection (Node D)) :=
  for_each (select_transaction block_size_limit height p).

(** The transaction with [extra] in place of its own. *)
Definition with_extra (tx : Transaction) (extra : BinaryArray) : Transaction :=
  let p := tx_prefix tx in {|
  tx_prefix := {| version := version p; unlock_time := unlock_time p; inputs := inputs p; outputs := outputs p;
                  extra := extra |};
  signatures := signatures tx |}.

(** The tries to make a coinbase that pays for the size the block has with
    it: [None] when the template fails.  [tries] are left, [k] key pairs were
    drawn. *)
Fixpoint fit_coinbase (tries : nat) (k : nat) (major : Z) (height : Height) (median : Z) (agc : Amount)
    (txs_size : Z) (fee : Amount) (adr : AccountPublicAddress) (extra_nonce : BinaryArray)
    (cumulative_size : Z) : result (option Transaction) :=
  match tries with
  | O => Ok None
  | S tries =>
      let '(public, secret) := random_keypair k in
      r ← construct_miner_tx currency generate_key_derivation derive_public_key public secret major height median agc
            cumulative_size fee adr extra_nonce 11;
      match r with
      | None => Ok None
      | Some tx =>
          let again := fit_coinbase tries (S k) major height median agc txs_size fee adr extra_nonce in
          let finish (tx : Transaction) :=
            blob_size ← binary_size ser_Transaction tx;
            Ok (if negb (cumulative_size =? txs_size + blob_size) then None else Some tx) in
          coinbase_blob_size ← binary_size ser_Transaction tx;
          if coinbase_blob_size >? cumulative_size - txs_size then again (txs_size + coinbase_blob_size)
          else if coinbase_blob_size <? cumulative_size - txs_size then
            let delta := cumulative_size - txs_size - coinbase_blob_size in
            let tx := with_extra tx (extra (tx_prefix tx) ++ replicate (Z.to_nat delta) 0) in
            blob_size ← binary_size ser_Transaction tx;
            if negb (cumulative_size =? txs_size + blob_size) then
              if negb (cumulative_size + 1 =? txs_size + blob_size) then Ok None
              else
                let tx := with_extra tx (take (length (extra (tx_prefix tx)) - 1) (extra (tx_prefix tx))) in
                blob_size ← binary_size ser_Transaction tx;
                if negb (cumulative_size =? txs_size + blob_size) then again (cumulative_size + (delta - 1))
                else finish tx
            else finish tx
          else finish tx
      end
  end.

(** The header of the template, and its parent block from version 2 on. *)
Definition start_template (b : BlockChain D) (now : Timestamp) (major : Z) : result BlockTemplate :=
  parent_block ←
    (if 2 <=? major then
       mm_extra ← append_merge_mining_tag_to_extra [] 0 null_hash;
       Ok {| pb_major_version := 1; pb_minor_version := 0; pb_previous_block_hash := null_hash;
             transaction_count := 1; base_transaction_branch := [];
             pb_base_transaction := {| version := 0; unlock_time := 0; inputs := []; outputs := []; extra := mm_extra |};
             blockchain_branch := [] |}
     else Ok default_parent_block);
  Ok {| header := {|
          major_version := major;
          minor_version :=
            (if major =? 1 then if upgrade_height_v2 currency =? u32 (-1) then 1 else 0
             else if 2 <=? major then
               if upgrade_height_v3 currency =? u32 (-1) then if major =? 2 then 1 else 0 else 0
             else 0);
          nonce := 0; timestamp := Z.max now (m_next_median_timestamp b); previous_block_hash := m_tip_bid b |};
        parent_block := parent_block; base_transaction := default_transaction; transaction_hashes := [] |}.

(** The most bytes of transactions a template takes. *)
Definition template_size_limit (height : Height) (effective_size_median : Z) : result Z :=
  max_cumulative_size ← max_block_cumulative_size currency height;
  Ok (u32 (Z.min (u32 (125 * effective_size_median) / 100) max_cumulative_size - miner_tx_blob_reserved_size currency)).

(** [create_mining_block_template] at the time [now]: the template with its
    difficulty and height, [None] when it returns false, and the transactions
    handed out. *)
Definition create_mining_block_template (b : BlockChain D) (m : MiningTransactions) (now : Timestamp)
    (adr : AccountPublicAddress) (extra_nonce : BinaryArray) :
    result (option (BlockTemplate * Difficulty * Height) * MiningTransactions * BlockChain D) :=
  let m := clear_mining_transactions b m in
  let height := u32 (m_tip_height b + 1) in
  let major := get_block_major_version_for_height currency height in
  tip ← get_tip b;
  let blocks_count := Z.min (m_tip_height b) (get_difficulty_blocks_count currency (u32 (m_tip_height b + 1))) in
  '(window, b) ← get_tip_segment currency b tip blocks_count false;
  difficulty ← next_difficulty currency height (bh_timestamp <$> window) (bh_cumulative_difficulty <$> window);
  if difficulty =? 0 then Ok (None, m, b)
  else
    t ← start_template b now major;
    let median := Z.max (m_next_median_size b) (block_granted_full_reward_zone_by_block_version currency major) in
    let agc := bh_already_generated_coins tip in
    limit ← template_size_limit height median;
    s ← select_transactions limit height (pool (node b)) (rev (pool_hashes (pool (node b))))
          {| memory_state := Delta.make_DeltaState height (timestamp (header t)) (node b); txs_size := 0; sel_fee := 0;
             sel_hashes := []; m_mining_transactions := m |};
    let m := m_mining_transactions s in
    let '(public, secret) := random_keypair 0 in
    first ← construct_miner_tx currency generate_key_derivation derive_public_key public secret major height median agc
              (txs_size s) (sel_fee s) adr extra_nonce 11;
    match first with
    | None => Ok (None, m, b)
    | Some tx =>
        blob_size ← binary_size ser_Transaction tx;
        coinbase ← fit_coinbase TRIES_COUNT 1 major height median agc (txs_size s) (sel_fee s) adr extra_nonce
                     (txs_size s + blob_size);
        Ok (match coinbase with
            | None => None
            | Some tx =>
                Some ({| header := header t; parent_block := parent_block t; base_transaction := tx;
                         transaction_hashes := sel_hashes s |}, difficulty, height)
            end, m, b)
    end.

End template.

End Mining.
