(* ===== verification/BlockStore.v ===== *)
(** * Blocks and transactions in the database (src/src/Core/BlockChain.cpp;
    src/src/common/BinaryArray.cpp: [slow_memmem])

    Block bodies, the index that finds a transaction inside the body of its
    block, the index of blocks by timestamp, and the counters of children with
    the index of the tips of all branches. *)

From S2P Require Import Prelude Varint Containers Seria Text CryptoNote Blocks Currency Db ChainState Store Pool Redo Headers Consensus.
Import Containers Codec Varint CryptoNote Blocks Currency Db Redo Headers Consensus.

Local Open Scope Z_scope.

Module BlockStore.

(** ** common::slow_memmem

    A buffer is the bytes from a pointer to the end of the object it points
    into; reading past the end is undefined. *)

(** [memchr]: the distance to the first [c] of the next [n] bytes. *)
Fixpoint memchr (buf : list Z) (c : Z) (n : nat) : result (option nat) :=
  match n with
  | O => Ok None
  | S n =>
      match buf with
      | [] => Undefined "memchr"
      | x :: buf => if x =? c then Ok (Some O) else i ← memchr buf c n; Ok (option_map S i)
      end
  end.

(** [memcmp(buf, pat, patlen) == 0]. *)
Definition memcmp_equal (buf pat : list Z) : result bool :=
  if (length buf <? length pat)%nat then Undefined "memcmp"
  else Ok (bool_decide (take (length pat) buf = pat)).

(** The distance to the match.  When [memchr] finds nothing, the difference
    from a null pointer is beyond any [buflen].  A miss moves [buf] past the
    byte that was found, but takes one byte less off [buflen]; [fuel] bounds
    the misses by the bytes there are. *)
Fixpoint memmem_loop (fuel : nat) (buf : list Z) (buflen : nat) (c : Z) (pat : list Z) : result (option nat) :=
  match buflen, fuel with
  | O, _ => Ok None
  | _, O => Undefined "fuel"
  | _, S fuel =>
      found ← memchr buf c buflen;
      match found with
      | None => Ok None
      | Some i =>
          if (buflen <? i + length pat)%nat then Ok None
          else
            same ← memcmp_equal (drop i buf) pat;
            if same : bool then Ok (Some i)
            else rest ← memmem_loop fuel (drop (S i) buf) (buflen - i) c pat; Ok (option_map (Nat.add (S i)) rest)
      end
  end.

Definition slow_memmem (buf : list Z) (buflen : nat) (pat : list Z) : result (option nat) :=
  match pat with
  | [] => Ok None
  | c :: _ => memmem_loop (S (length buf)) buf buflen c pat
  end.

(** ** Positions of transactions *)

Record APITransactionPos := { tp_height : Height; tp_offset : Z; tp_size : Z; tp_index : Z }.

Definition ser_APITransactionPos : codec APITransactionPos :=
  c_iso (λ '(h, (o, (s, i))), {| tp_height := h; tp_offset := o; tp_size := s; tp_index := i |})
    (λ p, (tp_height p, (tp_offset p, (tp_size p, tp_index p))))
    (c_seq (c_varint 32) (λ _, c_seq (c_varint 32) (λ _, c_seq (c_varint 32) (λ _, c_varint 32)))).

Global Instance ser_APITransactionPos_laws : CodecLaws ser_APITransactionPos.
Proof. unfold ser_APITransactionPos. apply c_iso_laws; [by intros []|apply _]. Qed.

Global Instance ser_RawBlock_laws : CodecLaws ser_RawBlock.
Proof. unfold ser_RawBlock. apply c_iso_laws; [by intros []|apply _]. Qed.

(** Where [binary] is in [block_data], after the transaction at [offset]. *)
Definition position_after (block_data : BinaryArray) (offset size : Z) (binary : BinaryArray) (what : string) :
    result (Z * Z) :=
  let start := offset + size in
  ptr ← slow_memmem (drop (Z.to_nat start) block_data) (Z.to_nat (u64 (Z.of_nat (length block_data) - start))) binary;
  ptr ← of_option ptr (Throw what);
  Ok (u32 (start + Z.of_nat ptr), u32 (Z.of_nat (length binary))).

Section store.
Context {D : Type} `{Lmdb D}.

(** ** Block bodies *)

Definition store_block (b : BlockChain D) (bid : Hash) (block_data : BinaryArray) : result (BlockChain D) :=
  d ← put (m_db b) (BLOCK_key bid) block_data true; Ok (with_m_db b d).

Definition read_block_data (b : BlockChain D) (bid : Hash) : option BinaryArray := get (m_db b) (BLOCK_key bid).

(** [read_block(bid, &block_data, &raw_block)]. *)
Definition read_block (b : BlockChain D) (bid : Hash) : result (option (BinaryArray * RawBlock)) :=
  match read_block_data b bid with
  | None => Ok None
  | Some rb => raw ← from_binary ser_RawBlock rb; Ok (Some (rb, raw))
  end.

Definition has_block (b : BlockChain D) (bid : Hash) : bool := bool_decide (is_Some (read_block_data b bid)).

(** ** The transaction index *)

(** What [read_transaction] assigns. *)
Record found_transaction := {
  ft_tx : Transaction; ft_height : Height; ft_block : Hash; ft_index : Z; ft_size : Z;
}.

Definition read_transaction (b : BlockChain D) (tid : Hash) : result (option found_transaction) :=
  match get (m_db b) (TRANSATION_key tid) with
  | None => Ok None
  | Some ba =>
      tpos ← from_binary ser_APITransactionPos ba;
      bid ← expect_chain b (tp_height tpos);
      block_val ← of_option (get (m_db b) (BLOCK_key bid)) (Throw "block must be there if transaction is there");
      _ ← check (u32 (tp_offset tpos + tp_size tpos) <=? Z.of_nat (length block_val)) "Transaction offset corrupted";
      tbody ← (if tp_offset tpos + tp_size tpos <=? Z.of_nat (length block_val)
               then Ok (take (Z.to_nat (tp_size tpos)) (drop (Z.to_nat (tp_offset tpos)) block_val))
               else Undefined "BinaryArray tbody");
      tx ← from_binary ser_Transaction tbody;
      Ok (Some {| ft_tx := tx; ft_height := tp_height tpos; ft_block := bid; ft_index := tp_index tpos;
                  ft_size := tp_size tpos |})
  end.

Definition put_position (b : BlockChain D) (tid : Hash) (tpos : APITransactionPos) : result (BlockChain D) :=
  ba ← to_binary ser_APITransactionPos tpos;
  d ← put (m_db b) (TRANSATION_key tid) ba true;
  Ok (with_m_db b d).

(** The loop over the block's transactions from [index] on: [n] are left. *)
Fixpoint index_transactions (n : nat) (b : BlockChain D) (block_data : BinaryArray) (raws : list BinaryArray)
    (hashes : list Hash) (tpos : APITransactionPos) : result (BlockChain D) :=
  match n with
  | O => Ok b
  | S n =>
      match hashes, raws with
      | tid :: hashes, binary_tx :: raws =>
          '(offset, size) ←
            position_after block_data (tp_offset tpos) (tp_size tpos) binary_tx "binary tx not found in binary block";
          let tpos := {| tp_height := tp_height tpos; tp_offset := offset; tp_size := size;
                         tp_index := u32 (tp_index tpos + 1) |} in
          b ← put_position b tid tpos;
          index_transactions n b block_data raws hashes tpos
      | _, _ => Throw "vector::at"
      end
  end.

Fixpoint unindex_transactions (n : nat) (b : BlockChain D) (hashes : list Hash) : result (BlockChain D) :=
  match n with
  | O => Ok b
  | S n =>
      match hashes with
      | tid :: hashes => d ← del (m_db b) (TRANSATION_key tid) true; unindex_transactions n (with_m_db b d) hashes
      | [] => Throw "vector::at"
      end
  end.

Section blocks.
Context (currency : Currency) (cn_fast_hash : list Z → Hash).
Context (check_ring_signature : RingSignatureArg → bool * bool).

(** [redo_block] of [BlockChain]: [None] when the block is refused. *)
Definition redo_block (b : BlockChain D) (bhash : Hash) (block_data : BinaryArray) (raw : RawBlock) (block : Block)
    (info : api_BlockHeader) (base_transaction_hash : Hash) : result (option (BlockChain D)) :=
  n ← Redo.redo_block currency cn_fast_hash check_ring_signature (node b) bhash block (bh_height info) (bh_timestamp info);
  match n with
  | None => Ok None
  | Some n =>
      let b := with_node b n in
      d ← put (m_db b) (TIMESTAMP_BLOCK_key (bh_timestamp info) (bh_height info)) [] true;
      let b := with_m_db b d in
      coinbase_ba ← to_binary ser_Transaction (base_transaction (block_header block));
      '(offset, size) ← position_after block_data 0 0 coinbase_ba "binary coinbase tx not found in binary block";
      let tpos := {| tp_height := bh_height info; tp_offset := offset; tp_size := size; tp_index := 0 |} in
      b ← put_position b base_transaction_hash tpos;
      b ← index_transactions (length (block_transactions block)) b block_data (raw_transactions raw)
            (transaction_hashes (block_header block)) tpos;
      Ok (Some b)
  end.

Definition undo_block (b : BlockChain D) (bhash : Hash) (block : Block) (height : Height) : result (BlockChain D) :=
  n ← Redo.undo_block (node b) bhash block;
  let b := with_node b n in
  d ← del (m_db b) (TIMESTAMP_BLOCK_key (Blocks.timestamp (header (block_header block))) height) true;
  let b := with_m_db b d in
  tid ← get_transaction_hash cn_fast_hash (base_transaction (block_header block));
  d ← del (m_db b) (TRANSATION_key tid) true;
  unindex_transactions (length (block_transactions block)) (with_m_db b d) (transaction_hashes (block_header block)).

End blocks.

(** ** Branches

    A block without children on any branch is a tip; the counter of children
    is stored unless it is one. *)

Definition ser_counter : codec Z := c_varint 32.
Definition read_counter (b : BlockChain D) (bid : Hash) : result Z :=
  match get (m_db b) (CHILDREN_key bid) with
  | Some rb => from_binary ser_counter rb
  | None => Ok 1
  end.

(** [counter] is an [int] here. *)
Definition check_children_counter (b : BlockChain D) (cd : Difficulty) (bid : Hash) (value : Z) : result unit :=
  counter ← read_counter b bid;
  let counter := if counter <? 2 ^ 31 then counter else counter - 2 ^ 32 in
  let tip := bool_decide (is_Some (get (m_db b) (CD_TIPS_key cd bid))) in
  _ ← check (counter =? value) "check_children_counter index corrupted";
  _ ← check (negb (counter =? 0) || tip) "check_children_counter tip is not in index";
  check ((counter =? 0) || negb tip) "check_children_counter non-tip is in index".

Definition modify_children_counter (b : BlockChain D) (cd : Difficulty) (bid : Hash) (delta : Z) : result (BlockChain D) :=
  counter ← read_counter b bid;
  let counter := u32 (counter + delta) in
  d ← (if counter =? 1 then del (m_db b) (CHILDREN_key bid) false
       else ba ← to_binary ser_counter counter; put (m_db b) (CHILDREN_key bid) ba false);
  d ← (if counter =? 0 then put d (CD_TIPS_key cd bid) [] false else del d (CD_TIPS_key cd bid) false);
  Ok (with_m_db b d).

(** The tip of the least cumulative difficulty. *)
Definition get_oldest_tip (b : BlockChain D) : result (option (Difficulty * Hash)) :=
  let cur := begin (m_db b) (chars "x-tips/") [] in
  if is_end cur then Ok None
  else
    '(cd, rest) ← read_varint_sqlite4 (suffix cur);
    _ ← check (length rest =? 32)%nat "CD_TIPS_PREFIX corrupted";
    Ok (Some (cd, rest)).

Definition prune_branch (currency : Currency) (b : BlockChain D) (cd : Difficulty) (bid : Hash) :
    result (bool * BlockChain D) :=
  if bool_decide (bid = m_tip_bid b) then Ok (false, b)
  else
    check_children_counter b cd bid 0;;
    '(me, b) ← expect_header currency b bid 0;
    '(pa, b) ← expect_header currency b (bh_previous_block_hash me) 0;
    b ← modify_children_counter b cd bid 1;
    b ← modify_children_counter b (bh_cumulative_difficulty pa) (bh_previous_block_hash me) (-1);
    d ← del (m_db b) (BLOCK_key bid) true;
    let b := with_m_db b d in
    d ← del (m_db b) (HEADER_key bid) true;
    Ok (true, with_m_db b d).

(** [test_prune_oldest]: [n] times ten. *)
Fixpoint prune_oldest (n : nat) (currency : Currency) (b : BlockChain D) : result (BlockChain D) :=
  match n with
  | O => Ok b
  | S n =>
      tip ← get_oldest_tip b;
      match tip with
      | None => Ok b
      | Some (cd, bid) => '(_, b) ← prune_branch currency b cd bid; prune_oldest n currency b
      end
  end.
Definition test_prune_oldest (currency : Currency) (b : BlockChain D) : result (BlockChain D) := prune_oldest 10 currency b.

End store.

End BlockStore.
