(* ===== verification/ChainUpdate.v ===== *)
(** * Adding blocks (src/src/Core/BlockChain.cpp: [add_block],
    [reorganize_blocks], [internal_import], [test_undo_everything];
    src/src/Core/BlockChainState.cpp: [on_reorganization], [add_mined_block],
    the constructor)

    How a prepared block gets into the tree of blocks and how the main chain
    follows the branch with the greatest cumulative difficulty. *)

From S2P Require Import Prelude Varint Containers Seria Text CryptoNote Blocks Currency Db ChainState Store Pool Redo Headers Consensus BlockStore.
Import Containers Codec Varint CryptoNote Blocks Currency Db Redo Headers Consensus BlockStore.

Local Open Scope Z_scope.

Module ChainUpdate.

Inductive BroadcastAction := BROADCAST_ALL | NOTHING | BAN.

Definition COMMIT_EVERY_N_BLOCKS : Z := 50000.

Definition default_api_BlockHeader : api_BlockHeader := {|
  bh_major_version := 0; bh_minor_version := 0; bh_timestamp := 0; bh_previous_block_hash := null_hash;
  bh_nonce := 0; bh_height := 0; bh_hash := null_hash; bh_reward := 0; bh_cumulative_difficulty := 0;
  bh_difficulty := 0; bh_base_reward := 0; bh_block_size := 0; bh_transactions_cumulative_size := 0;
  bh_already_generated_coins := 0; bh_already_generated_transactions := 0; bh_size_median := 0;
  bh_effective_size_median := 0; bh_timestamp_median := 0; bh_total_fee_amount := 0 |}.
Definition with_height (info : api_BlockHeader) (height : Height) : api_BlockHeader := {|
  bh_major_version := bh_major_version info; bh_minor_version := bh_minor_version info;
  bh_timestamp := bh_timestamp info; bh_previous_block_hash := bh_previous_block_hash info;
  bh_nonce := bh_nonce info; bh_height := height; bh_hash := bh_hash info; bh_reward := bh_reward info;
  bh_cumulative_difficulty := bh_cumulative_difficulty info; bh_difficulty := bh_difficulty info;
  bh_base_reward := bh_base_reward info; bh_block_size := bh_block_size info;
  bh_transactions_cumulative_size := bh_transactions_cumulative_size info;
  bh_already_generated_coins := bh_already_generated_coins info;
  bh_already_generated_transactions := bh_already_generated_transactions info;
  bh_size_median := bh_size_median info; bh_effective_size_median := bh_effective_size_median info;
  bh_timestamp_median := bh_timestamp_median info; bh_total_fee_amount := bh_total_fee_amount info |}.
(** [prev_info] before it is read: the height is -1. *)
Definition no_prev_info : api_BlockHeader := with_height default_api_BlockHeader (u32 (-1)).

(** The fields of [info] that [add_block] takes from the block. *)
Definition own_fields (info : api_BlockHeader) (pb : PreparedBlock) (height : Height) : api_BlockHeader :=
  let h := header (template pb) in {|
  bh_major_version := major_version h; bh_minor_version := minor_version h; bh_timestamp := Blocks.timestamp h;
  bh_previous_block_hash := previous_block_hash h; bh_nonce := nonce h; bh_height := height; bh_hash := bid pb;
  bh_reward := bh_reward info; bh_cumulative_difficulty := bh_cumulative_difficulty info;
  bh_difficulty := bh_difficulty info; bh_base_reward := bh_base_reward info; bh_block_size := bh_block_size info;
  bh_transactions_cumulative_size := bh_transactions_cumulative_size info;
  bh_already_generated_coins := bh_already_generated_coins info;
  bh_already_generated_transactions := bh_already_generated_transactions info;
  bh_size_median := bh_size_median info; bh_effective_size_median := bh_effective_size_median info;
  bh_timestamp_median := bh_timestamp_median info; bh_total_fee_amount := bh_total_fee_amount info |}.

(** The [catch] of [add_block]: any exception ends the process. *)
Definition or_exit {A} (m : result A) : result A :=
  match m with Throw _ => Throw "std::exit(CRYONEROD_DATABASE_ERROR)" | _ => m end.

(** Transactions of blocks that were taken off the main chain. *)
Abbreviation undone := (gmap Hash (Transaction * BinaryArray)) (only parsing).

(** [insert] keeps what is there; [at] throws past the end. *)
Fixpoint collect_undone (txs : list Transaction) (hashes : list Hash) (raws : list BinaryArray) (m : undone) :
    result undone :=
  match txs with
  | [] => Ok m
  | tx :: txs =>
      match hashes, raws with
      | tid :: hashes, raw :: raws =>
          collect_undone txs hashes raws (match m !! tid with Some _ => m | None => <[tid := (tx, raw)]> m end)
      | _, _ => Throw "vector::at"
      end
  end.

Definition erase_all (hashes : list Hash) (m : undone) : undone := foldl (λ m tid, delete tid m) m hashes.

Section update.
Context {D : Type} `{Lmdb D} (currency : Currency).
Context (cn_fast_hash cn_slow_hash cn_lite_slow_hash_v1 : list Z → Hash) (key_isvalid : PublicKey → bool).
Context (check_ring_signature : RingSignatureArg → bool * bool) (partial_header : BinaryArray → BlockTemplate).

#[local] Abbreviation redo := (BlockStore.redo_block currency cn_fast_hash check_ring_signature) (only parsing).

(** [push_chain] with the call of [tip_changed] that ends it. *)
Definition push_tip (b : BlockChain D) (info : api_BlockHeader) : result (BlockChain D) :=
  b ← push_chain currency b info; tip_changed currency b.

(** ** [on_reorganization] *)

Definition re_add (b : BlockChain D) (tid : Hash) (tx : Transaction) (binary_tx : BinaryArray) (conflict_height : Height) :
    result (BlockChain D * Height) :=
  tip ← get_tip b;
  '(n, _, conflict_height) ←
    Redo.add_transaction currency cn_fast_hash check_ring_signature key_isvalid (node b) tid tx binary_tx
      (u32 (m_tip_height b + 1)) (bh_timestamp tip) conflict_height true;
  Ok (with_node b n, conflict_height).

Fixpoint re_add_all (l : list (Hash * (Transaction * BinaryArray))) (b : BlockChain D) (conflict_height : Height) :
    result (BlockChain D * Height) :=
  match l with
  | [] => Ok (b, conflict_height)
  | (tid, (tx, binary_tx)) :: l =>
      '(b, conflict_height) ← re_add b tid tx binary_tx conflict_height; re_add_all l b conflict_height
  end.

(** The pool without its transactions. *)
Definition clear_pool (p : Pool.Pool.Pool) : Pool.Pool.Pool :=
  with_version Pool.Pool.empty_pool (Pool.Pool.m_tx_pool_version p).
Definition with_pool (b : BlockChain D) (p : Pool.Pool.Pool) : BlockChain D :=
  with_node b {| store := store (node b); pool := p |}.

Definition on_reorganization (b : BlockChain D) (undone_transactions : undone) (undone_blocks : bool) :
    result (BlockChain D) :=
  '(b, conflict_height) ←
    (if undone_blocks then
       re_add_all ((λ e, (e.1, (Pool.Pool.pt_tx e.2, Pool.Pool.binary_tx e.2))) <$>
                     map_entries (Pool.Pool.m_memory_state_tx (pool (node b))))
         (with_pool b (clear_pool (pool (node b)))) 0
     else Ok (b, 0));
  '(b, _) ← re_add_all (map_entries undone_transactions) b conflict_height;
  Ok (with_pool b (with_version (pool (node b)) 2)).

(** ** [reorganize_blocks] *)

(** The loop that undoes the blocks above [common]; every step lowers the tip,
    and [fuel] is its height. *)
Fixpoint undo_to (fuel : nat) (b : BlockChain D) (common : Hash) (m : undone) (undone_blocks : bool) :
    result (BlockChain D * undone * bool) :=
  if bool_decide (m_tip_bid b = common) then Ok (b, m, undone_blocks)
  else
    match fuel with
    | O => Undefined "fuel"
    | S fuel =>
        read ← read_block b (m_tip_bid b);
        '(_, raw) ← of_option read (Throw "Block to undo not found or failed to convert");
        let '(ok, block) := from_raw_block partial_header raw in
        _ ← check ok "Block to undo not found or failed to convert";
        b ← BlockStore.undo_block cn_fast_hash b (m_tip_bid b) block (m_tip_height b);
        m ← collect_undone (block_transactions block) (transaction_hashes (block_header block)) (raw_transactions raw) m;
        b ← pop_chain currency b (previous_block_hash (header (block_header block)));
        b ← tip_changed currency b;
        undo_to fuel b common m true
    end.

(** The loop that redoes the branch, lowest block first; [false] when it
    stopped at a block. *)
Fixpoint redo_branch (chain : list Hash) (b : BlockChain D) (pb : PreparedBlock) (recent_info : api_BlockHeader)
    (m : undone) : result (BlockChain D * undone * bool) :=
  match chain with
  | [] => Ok (b, m, true)
  | chha :: chain =>
      if bool_decide (chha = bid pb) then
        _ ← check (bool_decide (previous_block_hash (header (template pb)) = m_tip_bid b))
              "Unexpected block prev, invariant dead";
        r ← redo b (bid pb) (block_data pb) (pb_raw pb) (block pb) recent_info (base_transaction_hash pb);
        match r with
        | None => Ok (b, m, false)
        | Some b =>
            b ← push_tip b recent_info;
            redo_branch chain b pb recent_info (erase_all (transaction_hashes (template pb)) m)
        end
      else
        read ← read_block b chha;
        match read with
        | None => Ok (b, m, false)
        | Some (block_data, raw) =>
            let '(ok, block) := from_raw_block partial_header raw in
            if negb ok then Ok (b, m, false)
            else
              _ ← check (bool_decide (previous_block_hash (header (block_header block)) = m_tip_bid b))
                    "Unexpected block prev, invariant dead";
              '(info, b) ← expect_header currency b chha 0;
              base_transaction_hash ← get_transaction_hash cn_fast_hash (base_transaction (block_header block));
              r ← redo b chha block_data raw block info base_transaction_hash;
              match r with
              | None => Ok (b, m, false)
              | Some b =>
                  b ← push_tip b info;
                  redo_branch chain b pb recent_info (erase_all (transaction_hashes (block_header block)) m)
              end
        end
  end.

Definition reorganize_blocks (b : BlockChain D) (switch_to_chain : Hash) (recent_pb : PreparedBlock)
    (recent_info : api_BlockHeader) : result (bool * BlockChain D) :=
  '(common, chain1, chain2, b) ← get_common_block currency b (m_tip_bid b) switch_to_chain;
  if negb (forallb (has_block b) chain2) then Ok (false, b)
  else
    '(b, m, undone_blocks) ← undo_to (Z.to_nat (m_tip_height b)) b common ∅ false;
    '(b, m, result) ← redo_branch (rev chain2) b recent_pb recent_info m;
    b ← on_reorganization b m undone_blocks;
    Ok (result, b).

(** ** [add_block] *)

Definition db_commit (b : BlockChain D) : BlockChain D := with_cache b ∅.

(** The body of the [try]: [false] when the block is refused after all. *)
Definition add_checked_block (b : BlockChain D) (pb : PreparedBlock) (info prev_info : api_BlockHeader)
    (have_block : bool) : result (bool * BlockChain D) :=
  let previous := previous_block_hash (header (template pb)) in
  b ← (if have_block then Ok b else store_block b (bid pb) (block_data pb));
  b ← store_header b (bid pb) info;
  b ← (if bool_decide (bid pb = genesis_block_hash currency) then
         r ← redo b (bid pb) (block_data pb) (pb_raw pb) (block pb) info (base_transaction_hash pb);
         b ← of_option r (Throw "Failed to apply genesis block");
         push_tip b info
       else modify_children_counter b (bh_cumulative_difficulty prev_info) previous 1);
  check_children_counter b (bh_cumulative_difficulty info) (bid pb) 1;;
  b ← modify_children_counter b (bh_cumulative_difficulty info) (bid pb) (-1);
  if bh_cumulative_difficulty info >? m_tip_cumulative_difficulty b then
    if bool_decide (m_tip_bid b = previous) then
      r ← redo b (bid pb) (block_data pb) (pb_raw pb) (block pb) info (base_transaction_hash pb);
      match r with
      | None => Ok (false, b)
      | Some b => b ← push_tip b info; Ok (true, b)
      end
    else '(_, b) ← reorganize_blocks b (bid pb) pb info; Ok (true, b)
  else Ok (true, b).

(** [add_block] with the clock's time; the header is the one assigned to
    [*info], when the block was valid. *)
Definition add_block (b : BlockChain D) (now : Timestamp) (pb : PreparedBlock) :
    result (BroadcastAction * option api_BlockHeader * BlockChain D) :=
  '(header, b) ← read_header currency b (bid pb) 0;
  let have_block := has_block b (bid pb) in
  if have_block && bool_decide (is_Some header) then Ok (NOTHING, header, b)
  else
    '(prev_info, b) ←
      (if bool_decide (bid pb = genesis_block_hash currency) then Ok (Some no_prev_info, b)
       else read_header currency b (previous_block_hash (Blocks.header (template pb))) 0);
    match prev_info with
    | None => Ok (NOTHING, header, b)
    | Some prev_info =>
        let info := own_fields (default default_api_BlockHeader header) pb (u32 (bh_height prev_info + 1)) in
        '(checked, b) ←
          check_standalone_consensus currency cn_fast_hash cn_slow_hash cn_lite_slow_hash_v1 key_isvalid b now pb
            info prev_info true;
        match checked with
        | inl _ => Ok (BAN, None, b)
        | inr info =>
            '(accepted, b) ← or_exit (add_checked_block b pb info prev_info have_block);
            if negb accepted then Ok (BAN, Some info, b)
            else
              let b := if m_tip_height b mod COMMIT_EVERY_N_BLOCKS =? COMMIT_EVERY_N_BLOCKS - 1 then db_commit b else b in
              Ok (if bool_decide (bh_hash info = m_tip_bid b) then BROADCAST_ALL else NOTHING, Some info, b)
        end
    end.

(** ** [add_mined_block] *)

(** The raw transactions of a template: from the pool, or from the templates
    handed out. *)
Fixpoint find_binaries (b : BlockChain D) (m_mining_transactions : gmap Hash (BinaryArray * Height))
    (hashes : list Hash) : option (list BinaryArray) :=
  match hashes with
  | [] => Some []
  | tid :: hashes =>
      match (match Pool.Pool.m_memory_state_tx (pool (node b)) !! tid with
             | Some t => Some (Pool.Pool.binary_tx t)
             | None => fst <$> m_mining_transactions !! tid
             end) with
      | None => None
      | Some binary_tx => cons binary_tx <$> find_binaries b m_mining_transactions hashes
      end
  end.

(** The raw block that is to be broadcast comes with the verdict. *)
Definition add_mined_block (b : BlockChain D) (m_mining_transactions : gmap Hash (BinaryArray * Height))
    (now : Timestamp) (raw_block_template : BinaryArray) :
    result (BroadcastAction * option RawBlock * BlockChain D) :=
  t ← from_binary ser_BlockTemplate raw_block_template;
  match find_binaries b m_mining_transactions (transaction_hashes t) with
  | None => Ok (NOTHING, None, b)
  | Some raws =>
      pb ← prepare_block cn_fast_hash cn_slow_hash cn_lite_slow_hash_v1 partial_header false
             {| raw_block := raw_block_template; raw_transactions := raws |};
      '(action, _, b) ← add_block b now pb;
      Ok (action, Some (pb_raw pb), b)
  end.

(** ** Opening the database, import from an older format *)

(** The genesis block, when the database has none. *)
Definition add_genesis_block (b : BlockChain D) (now : Timestamp) : result (BlockChain D) :=
  if m_tip_height b =? u32 (-1) then
    raw ← of_option (to_raw_block {| block_header := genesis_block_template currency; block_transactions := [] |})
            (Throw "Genesis block failed to convert into raw block");
    pb ← prepare_block cn_fast_hash cn_slow_hash cn_lite_slow_hash_v1 partial_header false raw;
    '(action, _, b) ← add_block b now pb;
    match action with BAN => Throw "Genesis block failed to add" | _ => Ok b end
  else Ok b.

(** [internal_import]; [late] tells, block by block, whether the time slice
    is over.  Every turn adds a block of the chain to import, so [fuel] is its
    length. *)
Fixpoint internal_import (fuel : nat) (late : nat → bool) (b : BlockChain D) (now : Timestamp)
    (m_internal_import_chain : list Hash) : result (bool * list Hash * BlockChain D) :=
  let finish :=
    d ← del (m_db b) (chars "internal_import_chain") true;
    Ok (false, [], db_commit (with_m_db b d)) in
  match m_internal_import_chain !! Z.to_nat (u32 (m_tip_height b + 1)) with
  | None => finish
  | Some bid =>
      match fuel with
      | O => Undefined "fuel"
      | S fuel =>
          read ← read_block b bid;
          match read with
          | None => finish
          | Some (_, rb) =>
              pb ← prepare_block cn_fast_hash cn_slow_hash cn_lite_slow_hash_v1 partial_header false rb;
              '(action, _, b) ← add_block b now pb;
              match action with
              | BROADCAST_ALL =>
                  if late fuel then Ok (true, m_internal_import_chain, b)
                  else internal_import fuel late b now m_internal_import_chain
              | _ =>
                  d ← del (m_db b) (chars "internal_import_chain") true;
                  Ok (false, [], db_commit (with_m_db b d))
              end
          end
      end
  end.

(** The loop of [test_undo_everything]. *)
Fixpoint undo_everything (fuel : nat) (b : BlockChain D) (new_tip_height : Height) : result (BlockChain D) :=
  if m_tip_height b >? new_tip_height then
    match fuel with
    | O => Undefined "fuel"
    | S fuel =>
        read ← read_block b (m_tip_bid b);
        match read with
        | None => Ok b
        | Some (_, raw) =>
            let '(ok, block) := from_raw_block partial_header raw in
            if negb ok then Ok b
            else
              b ← BlockStore.undo_block cn_fast_hash b (m_tip_bid b) block (m_tip_height b);
              if bool_decide (m_tip_bid b = genesis_block_hash currency) then Ok b
              else
                b ← pop_chain currency b (previous_block_hash (header (block_header block)));
                b ← tip_changed currency b;
                let b := if m_tip_height b mod COMMIT_EVERY_N_BLOCKS =? 1 then db_commit b else b in
                undo_everything fuel b new_tip_height
        end
    end
  else Ok b.

End update.

End ChainUpdate.
