(* ===== verification/BlockStoreLaws.v ===== *)
(** * Blocks and transactions in the database: theorems *)

From S2P Require Import Prelude Varint Containers Seria Text CryptoNote Blocks Currency Db ChainState Store Pool Redo BlockLaws Headers HeaderLaws Consensus BlockStore.
Import Containers Codec Varint CryptoNote Blocks Currency Db ChainState Redo BlockLaws Headers HeaderLaws Consensus BlockStore.

Local Open Scope Z_scope.

Module BlockStoreLaws.

(** ** slow_memmem *)

(** [pat] is at distance [i] in [buf]. *)
Definition occurs (pat buf : list Z) (i : nat) : Prop :=
  (i + length pat ≤ length buf)%nat ∧ take (length pat) (drop i buf) = pat.

Lemma memchr_first buf c n i : buf !! i = Some c → (i < n)%nat →
  ∃ j, memchr buf c n = Ok (Some j) ∧ (j ≤ i)%nat ∧ ∀ k, (k < j)%nat → buf !! k ≠ Some c.
Proof.
  revert n i. induction buf as [|x buf IH]; intros n i Hi Hn; [done|]. destruct n as [|n]; [lia|].
  cbn [memchr]. destruct (Z.eqb_spec x c) as [->|Hne].
  - exists 0%nat. split_and!; [done|lia|lia].
  - destruct i as [|i]; [by injection Hi as ->|]. destruct (IH n i Hi ltac:(lia)) as (j & -> & Hj & Hfirst).
    exists (S j). split_and!; [done|lia|]. intros [|k] Hk; [by intros [= ->]|]. apply Hfirst. lia.
Qed.

Lemma occurs_head c pat buf i : occurs (c :: pat) buf i → buf !! i = Some c.
Proof.
  intros [_ Ht]. rewrite <- (Nat.add_0_r i), <- lookup_drop.
  destruct (drop i buf) as [|x l]; [done|]. by injection Ht as ->.
Qed.

Lemma memmem_loop_finds fuel buf buflen c pat i :
  occurs (c :: pat) buf i → (length buf ≤ buflen)%nat → (length buf < fuel)%nat →
  ∃ j, memmem_loop fuel buf buflen c (c :: pat) = Ok (Some j) ∧ occurs (c :: pat) buf j ∧
    ∀ k, occurs (c :: pat) buf k → (j ≤ k)%nat.
Proof.
  revert buf buflen i. induction fuel as [|fuel IH]; intros buf buflen i Hi Hlen Hf; [lia|].
  pose proof (occurs_head _ _ _ _ Hi) as Hc. pose proof (lookup_lt_Some _ _ _ Hc) as Hlt. destruct buflen as [|n]; [lia|].
  cbn [memmem_loop]. set (buflen := S n) in *. clearbody buflen.
  destruct (memchr_first buf c buflen i Hc ltac:(lia)) as (j & -> & Hji & Hfirst). cbn [mbind result_bind].
  assert (∀ k, occurs (c :: pat) buf k → (j ≤ k)%nat) as Hmin.
  { intros k Hk%occurs_head. destruct (decide (j ≤ k)%nat); [done|]. exfalso. apply (Hfirst k); [lia|done]. }
  destruct (Nat.ltb_spec buflen (j + length (c :: pat))) as [Hbad|Hroom]; [destruct Hi; lia|].
  unfold memcmp_equal. rewrite length_drop.
  destruct (Nat.ltb_spec (length buf - j) (length (c :: pat))) as [Hbad|Hin]; [destruct Hi; lia|].
  cbn [mbind result_bind]. case_bool_decide as Heq.
  - exists j. split_and!; [done| |done]. split; [destruct Hi; lia|done].
  - assert (S j ≤ i)%nat as Hsj.
    { destruct (decide (j = i)) as [->|]; [|lia]. by destruct Hi. }
    assert (∀ k, (S j ≤ k)%nat → occurs (c :: pat) buf k ↔ occurs (c :: pat) (drop (S j) buf) (k - S j)) as Hshift.
    { intros k Hk. unfold occurs. rewrite length_drop, drop_drop. replace (S j + (k - S j))%nat with k by lia.
      split; (intros [? ?]; split; [lia|done]). }
    destruct (IH (drop (S j) buf) (buflen - j)%nat (i - S j)%nat) as (r & -> & Hr & Hrmin).
    + by apply Hshift.
    + rewrite length_drop. lia.
    + rewrite length_drop. lia.
    + cbn [mbind result_bind option_map]. exists (S j + r)%nat. split_and!; [done| |].
      * apply Hshift; [lia|]. by replace (S j + r - S j)%nat with r by lia.
      * intros k Hk. destruct (decide (k = j)) as [->|]; [by destruct Hk|]. pose proof (Hmin k Hk).
        apply Hshift in Hk; [|lia]. apply Hrmin in Hk. lia.
Qed.

(** What is there is found, at its first place, and without reading past the
    end of the buffer. *)
Lemma slow_memmem_finds buf pat i : pat ≠ [] → occurs pat buf i →
  ∃ j, slow_memmem buf (length buf) pat = Ok (Some j) ∧ occurs pat buf j ∧ ∀ k, occurs pat buf k → (j ≤ k)%nat.
Proof. destruct pat as [|c pat]; [done|]. intros _ Hi. eapply memmem_loop_finds; [done|lia|lia]. Qed.

(** A search that fails may read past the end: after a miss the length is one
    too great. *)
Example slow_memmem_overruns : slow_memmem [7; 8; 7] 3 [7; 9] = Undefined "memcmp".
Proof. reflexivity. Qed.

(** ** Transactions inside the body of their block *)

(** The patterns occur in this order, one after the other. *)
Fixpoint ordered (pats : list (list Z)) (data : list Z) : Prop :=
  match pats with
  | [] => True
  | p :: ps => ∃ pre post, data = pre ++ p ++ post ∧ ordered ps post
  end.

Lemma ordered_more extra pats data : ordered pats data → ordered pats (extra ++ data).
Proof.
  destruct pats as [|p ps]; [done|]. intros (pre & post & -> & Ho). exists (extra ++ pre), post.
  by rewrite app_assoc.
Qed.

Lemma ordered_length pats data : Forall (λ p, p ≠ []) pats → ordered pats data → (length pats ≤ length data)%nat.
Proof.
  intros Hne. revert data. induction Hne as [|p ps Hp _ IH]; intros data Ho; [cbn; lia|].
  destruct Ho as (pre & post & -> & Ho). apply IH in Ho. rewrite !length_app. destruct p; [done|]. cbn in *. lia.
Qed.

Lemma put_items_bytes_ordered raws bs rest : put_items c_bytes raws = Ok bs → ordered raws (bs ++ rest).
Proof.
  revert bs. induction raws as [|raw raws IH]; intros bs Hp; [done|]. cbn [put_items] in Hp. inv_ok Hp.
  cbn [c_bytes c_put] in Ha. inv_ok Ha. injection Ha as <-. injection Hp as <-.
  exists a1, (a0 ++ rest). rewrite <- !app_assoc. split; [done|]. by apply IH.
Qed.

Lemma put_template_has_coinbase t ba cb : to_binary ser_BlockTemplate t = Ok ba →
  to_binary ser_Transaction (base_transaction t) = Ok cb → ∃ pre post, ba = pre ++ cb ++ post.
Proof.
  intros Hp Hc. unfold ser_BlockTemplate, to_binary in *.
  cbn [c_iso c_put] in Hp. cbn [c_seq c_put fst snd] in Hp. inv_ok Hp. injection Hp as <-.
  inv_ok Ha0. injection Ha0 as <-. inv_ok Ha2. injection Ha2 as <-. rewrite Hc in Ha0. injection Ha0 as <-.
  eexists (a ++ a1), _. by rewrite <- !app_assoc.
Qed.

(** The coinbase, then the transactions. *)
Lemma block_data_ordered blk raw data cb : to_raw_block blk = Some raw → to_binary ser_RawBlock raw = Ok data →
  to_binary ser_Transaction (base_transaction (block_header blk)) = Ok cb →
  ordered (cb :: raw_transactions raw) data.
Proof.
  intros Hraw Hdata Hcb. unfold to_raw_block in Hraw.
  destruct (to_binary ser_BlockTemplate _) as [ba| |] eqn:Hba; [|done..]. cbn [mbind result_bind] in Hraw.
  destruct (transactions_to_binary _) as [raws| |]; [|done..]. injection Hraw as <-. cbn [raw_transactions].
  destruct (put_template_has_coinbase _ _ _ Hba Hcb) as (pre & post & ->).
  unfold to_binary, ser_RawBlock in Hdata. cbn [c_iso c_put raw_block raw_transactions] in Hdata.
  cbn [c_seq c_put fst snd] in Hdata. inv_ok Hdata. injection Hdata as <-.
  cbn [c_bytes c_put] in Ha. inv_ok Ha. injection Ha as <-. cbn [c_vector c_put] in Ha0. inv_ok Ha0. injection Ha0 as <-.
  exists (a1 ++ pre), (post ++ a ++ a2). rewrite <- !app_assoc. split; [done|].
  apply ordered_more, ordered_more. rewrite <- (app_nil_r a2). by apply put_items_bytes_ordered.
Qed.

(** [binary] is [size] bytes at [offset]. *)
Definition located (data : list Z) (offset size : Z) (binary : list Z) : Prop :=
  0 ≤ offset ∧ size = Z.of_nat (length binary) ∧ offset + size ≤ Z.of_nat (length data) ∧
  take (Z.to_nat size) (drop (Z.to_nat offset) data) = binary.

Lemma ordered_occurs p ps data : ordered (p :: ps) data →
  ∃ i, occurs p data i ∧ ordered ps (drop (i + length p) data).
Proof.
  intros (pre & post & -> & Ho). exists (length pre). split.
  - split; [rewrite !length_app; lia|]. by rewrite drop_app_length, take_app_length.
  - rewrite <- drop_drop, drop_app_length, drop_app_length. exact Ho.
Qed.

Lemma position_after_ok data offset size bin pats w :
  0 ≤ offset → 0 ≤ size → offset + size ≤ Z.of_nat (length data) → Z.of_nat (length data) < 2 ^ 32 → bin ≠ [] →
  ordered (bin :: pats) (drop (Z.to_nat (offset + size)) data) →
  ∃ o, position_after data offset size bin w = Ok (o, Z.of_nat (length bin)) ∧
    located data o (Z.of_nat (length bin)) bin ∧
    ordered pats (drop (Z.to_nat (o + Z.of_nat (length bin))) data).
Proof.
  intros Ho Hs Hle Hlt Hbin Hord. unfold position_after.
  set (start := offset + size) in *. set (buf := drop (Z.to_nat start) data) in *.
  assert (length buf = length data - Z.to_nat start)%nat as Hbl by (unfold buf; by rewrite length_drop).
  apply ordered_occurs in Hord as (i & Hi & Hrest).
  replace (Z.to_nat (u64 (Z.of_nat (length data) - start))) with (length buf)
    by (rewrite u64_small; lia).
  destruct (slow_memmem_finds buf bin i Hbin Hi) as (j & -> & Hj & Hmin). cbn [mbind result_bind of_option].
  pose proof (Hmin i Hi) as Hji. destruct Hj as [Hjl Hjt].
  rewrite !u32_small by lia. exists (start + Z.of_nat j). split; [done|]. split.
  - split_and!; [lia|done|lia|].
    rewrite Nat2Z.id. replace (Z.to_nat (start + Z.of_nat j)) with (Z.to_nat start + j)%nat by lia.
    rewrite <- drop_drop. exact Hjt.
  - replace (Z.to_nat (start + Z.of_nat j + Z.of_nat (length bin))) with (Z.to_nat start + (j + length bin))%nat by lia.
    rewrite <- drop_drop. fold buf.
    rewrite <- (take_drop (i - j) (drop (j + length bin) buf)). apply ordered_more.
    rewrite drop_drop. by replace (j + length bin + (i - j))%nat with (i + length bin)%nat by lia.
Qed.

(** ** Writing several keys *)

Section several.
Context {D : Type} `{LmdbLaws D}.

(** Only the keys [ks] may hold something else in [d']. *)
Definition but (ks : list ckey) (d d' : D) : Prop :=
  mdb_env_get_maxkeysize d' = mdb_env_get_maxkeysize d ∧ ∀ k, k ∉ key_of <$> ks → get d' k = get d k.

Lemma but_refl d : but [] d d.
Proof. done. Qed.
Lemma wrote_but d k x d' : wrote d k x d' → but [k] d d'.
Proof. intros (Hm & _ & Hw). split; [done|]. intros k' Hk'. apply Hw. intros ->. apply Hk'. by left. Qed.
Lemma but_trans ks ks' d1 d2 d3 : but ks d1 d2 → but ks' d2 d3 → but (ks ++ ks') d1 d3.
Proof.
  intros [Hm Hg] [Hm' Hg']. split; [congruence|]. intros k Hk. rewrite fmap_app, not_elem_of_app in Hk.
  rewrite Hg', Hg; naive_solver.
Qed.
Lemma but_weaken ks ks' d d' : ks ⊆ ks' → but ks d d' → but ks' d d'.
Proof. intros Hs [Hm Hg]. split; [done|]. intros k Hk. apply Hg. set_solver. Qed.
Lemma but_at ks d d' k : but ks d d' → ckey_ok k → Forall ckey_ok ks → k ∉ ks → at_key d' k = at_key d k.
Proof.
  intros [_ Hg] Hk Hks Hn. apply Hg. intros (k' & Heq & Hin)%list_elem_of_fmap.
  rewrite Forall_forall in Hks. by apply key_of_inj in Heq as ->; [|done|apply Hks].
Qed.
(** The same, but for the keys of the key images and outputs. *)
Definition kept_but (ks : list ckey) (d d' : D) : Prop :=
  ∀ k, Store.other_key k → k ∉ key_of <$> ks → get d' k = get d k.
Lemma but_kept ks d d' : but ks d d' → kept_but ks d d'.
Proof. intros [_ Hg] k _ Hk. by apply Hg. Qed.
Lemma kept_trans ks ks' d1 d2 d3 : kept_but ks d1 d2 → kept_but ks' d2 d3 → kept_but (ks ++ ks') d1 d3.
Proof. intros Hg Hg' k Ho Hk. rewrite fmap_app, not_elem_of_app in Hk. rewrite Hg', Hg; naive_solver. Qed.
Lemma kept_at ks d d' k : kept_but ks d d' → ckey_ok k → Forall ckey_ok ks → k ∉ ks → at_key d' k = at_key d k.
Proof.
  intros Hg Hk Hks Hn. apply Hg; [apply key_of_other|]. intros (k' & Heq & Hin)%list_elem_of_fmap.
  rewrite Forall_forall in Hks. by apply key_of_inj in Heq as ->; [|done|apply Hks].
Qed.
Lemma but_roomy ks d d' : but ks d d' → roomy d → roomy d'.
Proof. intros [Hm _]. unfold roomy. by rewrite Hm. Qed.

End several.

(** ** The transaction index *)

Section index.
Context {D : Type} `{LmdbLaws D}.

(** The index has the transaction [binary] as number [index] of the block at
    [height] with body [data]. *)
Definition indexed (d : D) (data : list Z) (height index : Z) (tid : Hash) (binary : list Z) : Prop :=
  ∃ tpos ba, to_binary ser_APITransactionPos tpos = Ok ba ∧ at_key d (KTransaction tid) = Some ba ∧
    c_ok ser_APITransactionPos tpos ∧ tp_height tpos = height ∧ tp_index tpos = index ∧
    located data (tp_offset tpos) (tp_size tpos) binary.

Lemma indexed_but ks (d d' : D) data h i tid bin : but ks d d' → is_hash tid → Forall ckey_ok ks → KTransaction tid ∉ ks →
  indexed d data h i tid bin → indexed d' data h i tid bin.
Proof.
  intros Hb Ht Hks Hn (tpos & ba & Hba & Hat & Hrest). exists tpos, ba. split_and!; [done| |apply Hrest..].
  by rewrite (but_at _ _ _ _ Hb).
Qed.

Lemma put_position_ok (b : BlockChain D) tid tpos data binary : roomy (m_db b) → is_hash tid →
  at_key (m_db b) (KTransaction tid) = None → c_ok ser_APITransactionPos tpos →
  located data (tp_offset tpos) (tp_size tpos) binary →
  ∃ d, put_position b tid tpos = Ok (with_m_db b d) ∧ but [KTransaction tid] (m_db b) d ∧
    indexed d data (tp_height tpos) (tp_index tpos) tid binary.
Proof.
  intros Hr Ht Hfree Hok Hl. destruct (from_to_binary ser_APITransactionPos tpos Hok) as (ba & Hba & _).
  destruct (put_key (m_db b) (KTransaction tid) ba true Hr Ht) as (d & Hp & Hw); [done|].
  exists d. unfold put_position. rewrite Hba. cbn [mbind result_bind].
  change (TRANSATION_key tid) with (key_of (KTransaction tid)). rewrite Hp.
  split_and!; [done|by eapply wrote_but|]. exists tpos, ba. split_and!; try done. by eapply wrote_at.
Qed.

Lemma pos_ok (data : list Z) h o s i : in_u 32 h → in_u 32 i → Z.of_nat (length data) < 2 ^ 32 → 0 ≤ o → 0 ≤ s →
  o + s ≤ Z.of_nat (length data) →
  c_ok ser_APITransactionPos {| tp_height := h; tp_offset := o; tp_size := s; tp_index := i |}.
Proof. intros Hh Hi Hd Ho Hs Hle. unfold in_u in *. split_and!; cbn; unfold in_u; lia. Qed.

Lemma index_transactions_ok (data : list Z) raws : ∀ (b : BlockChain D) hashes tpos,
  roomy (m_db b) → length hashes = length raws → Forall is_hash hashes → NoDup hashes →
  Forall (λ tid, at_key (m_db b) (KTransaction tid) = None) hashes →
  Forall (λ raw, raw ≠ []) raws → Z.of_nat (length data) < 2 ^ 32 → in_u 32 (tp_height tpos) →
  0 ≤ tp_index tpos → tp_index tpos + Z.of_nat (length raws) < 2 ^ 32 →
  0 ≤ tp_offset tpos → 0 ≤ tp_size tpos → tp_offset tpos + tp_size tpos ≤ Z.of_nat (length data) →
  ordered raws (drop (Z.to_nat (tp_offset tpos + tp_size tpos)) data) →
  ∃ d, index_transactions (length raws) b data raws hashes tpos = Ok (with_m_db b d) ∧
    but (KTransaction <$> hashes) (m_db b) d ∧
    ∀ i tid raw, hashes !! i = Some tid → raws !! i = Some raw →
      indexed d data (tp_height tpos) (tp_index tpos + 1 + Z.of_nat i) tid raw.
Proof.
  induction raws as [|raw raws IH]; intros b hashes tpos Hr Hlen Hh Hnd Hfree Hne Hdata Hhe Hi0 Hi Ho Hs Hle Hord;
    destruct hashes as [|tid hashes]; try discriminate Hlen.
  { exists (m_db b). destruct b as [[[]] ]. by split_and!. }
  apply Forall_cons in Hh as [Ht Hh]. apply Forall_cons in Hfree as [Hf Hfree]. apply Forall_cons in Hne as [Hn Hne].
  apply NoDup_cons in Hnd as [Hnin Hnd]. cbn [length] in Hi. injection Hlen as Hlen.
  cbn [length index_transactions].
  destruct (position_after_ok data (tp_offset tpos) (tp_size tpos) raw raws "binary tx not found in binary block"
    Ho Hs Hle Hdata Hn Hord) as (o & -> & Hl & Hord'). cbn [mbind result_bind].
  rewrite u32_small by lia. set (tpos' := {| tp_offset := o |}). pose proof Hl as (Hl0 & _ & Hl1 & _).
  assert (c_ok ser_APITransactionPos tpos') as Hok by (apply (pos_ok data); unfold in_u; lia || done).
  destruct (put_position_ok b tid tpos' data raw Hr Ht Hf Hok Hl) as (d1 & -> & Hb1 & Hx1). cbn [mbind result_bind].
  assert (∀ tid', is_hash tid' → tid' ∈ hashes → KTransaction tid' ∉ [KTransaction tid]) as Hdiff.
  { intros tid' _ Hin Heq%list_elem_of_singleton. by injection Heq as ->. }
  destruct (IH (with_m_db b d1) hashes tpos') as (d2 & -> & Hb2 & Hx2); try done.
  - by eapply but_roomy.
  - rewrite Forall_forall in Hfree, Hh |- *. intros tid' Hin.
    rewrite (but_at _ _ _ _ Hb1); [by apply Hfree|by apply Hh|by apply Forall_singleton|by apply Hdiff, Hin; apply Hh].
  - cbn. lia.
  - cbn. lia.
  - cbn. lia.
  - exists d2. split_and!; [done|by eapply (but_trans [_])|].
    intros [|i] tid' raw' Hti Hri; cbn in Hti, Hri.
    + injection Hti as <-. injection Hri as <-. replace (_ + Z.of_nat 0) with (tp_index tpos + 1) by lia.
      eapply indexed_but; [exact Hb2|done| | |exact Hx1].
      * by apply Forall_fmap.
      * intros (tid' & Heq & Hin)%list_elem_of_fmap. by injection Heq as <-.
    + pose proof (Hx2 i tid' raw' Hti Hri) as Hx. cbn in Hx.
      by replace (tp_index tpos + 1 + Z.of_nat (S i)) with (tp_index tpos + 1 + 1 + Z.of_nat i) by lia.
Qed.

Lemma unindex_transactions_ok hashes : ∀ (b : BlockChain D), roomy (m_db b) → Forall is_hash hashes → NoDup hashes →
  Forall (λ tid, is_Some (at_key (m_db b) (KTransaction tid))) hashes →
  ∃ d, unindex_transactions (length hashes) b hashes = Ok (with_m_db b d) ∧
    but (KTransaction <$> hashes) (m_db b) d ∧ Forall (λ tid, at_key d (KTransaction tid) = None) hashes.
Proof.
  induction hashes as [|tid hashes IH]; intros b Hr Hh Hnd Hs.
  { exists (m_db b). destruct b as [[[]] ]. by split_and!. }
  apply Forall_cons in Hh as [Ht Hh]. apply Forall_cons in Hs as [Hf Hs]. apply NoDup_cons in Hnd as [Hnin Hnd].
  cbn [length unindex_transactions].
  destruct (del_key (m_db b) (KTransaction tid) true Hr Ht) as (d1 & Hd & Hw); [done|].
  change (TRANSATION_key tid) with (key_of (KTransaction tid)). rewrite Hd. cbn [mbind result_bind].
  destruct (IH (with_m_db b d1)) as (d2 & -> & Hb2 & Hx2); try done.
  - by eapply roomy_wrote.
  - rewrite Forall_forall in Hs, Hh |- *. intros tid' Hin. change (m_db (with_m_db b d1)) with d1.
    rewrite (wrote_same _ _ _ _ (KTransaction tid') Hw Ht); [by apply Hs|by apply Hh|]. by intros [= ->].
  - exists d2. split_and!; [done|by eapply (but_trans [_]); [by eapply wrote_but|]|].
    constructor; [|done]. rewrite (but_at _ _ _ (KTransaction tid) Hb2); [by eapply wrote_at|done|by apply Forall_fmap|].
    intros (tid' & Heq & Hin)%list_elem_of_fmap. by injection Heq as <-.
Qed.

End index.

(** ** What other components keep *)

Section frames.
Context {D : Type} `{LmdbLaws D} (currency : Currency).

Lemma key_of_bytes k : ckey_ok k → bytes (key_of k).
Proof.
  intros Hk. assert (∀ s, bytes (chars s)) as Hc.
  { intros s. unfold chars. apply Forall_fmap, Forall_true. intros a. cbn. unfold is_byte.
    pose proof (Ascii.nat_ascii_bounded a). lia. }
  assert (∀ z, in_u 64 z → bytes (write_varint_sqlite4 z)) as Hv by (intros z Hz; by apply bytes_write_varint_sqlite4).
  destruct k; cbn [ckey_ok] in Hk; unfold key_of, BLOCK_key, HEADER_key, block_indices_key, TRANSATION_key,
    TIP_CHAIN_key, TIMESTAMP_BLOCK_key, CHILDREN_key, CD_TIPS_key; rewrite !bytes_app; split_and!;
    try apply Hc; try apply Hk; apply Hv; first [apply Hk|apply in_u_32_64; apply Hk].
Qed.

Lemma store_shows_but ks (s : Store.Store D) v d' : Store.store_shows s v → but ks (Store.m_db s) d' → Forall ckey_ok ks →
  Store.store_shows (Store.with_db s d') v.
Proof.
  intros Hs [Hm Hg] Hks. assert (∀ k, ¬ Store.other_key k → get d' k = get (Store.m_db s) k) as Hsame.
  { intros k Hk. apply Hg. intros (c & -> & _)%list_elem_of_fmap. apply Hk, key_of_other. }
  destruct Hs as [Hsz Hby Hk Hh Ho Honly Hc Hl Hok].
  split; cbn [Store.m_db Store.m_next_gi_for_amount Store.with_db]; try done.
  - by rewrite Hm.
  - intros k Hst. destruct (decide (k ∈ key_of <$> ks)) as [(c & -> & Hin)%list_elem_of_fmap|Hn].
    + apply key_of_bytes. rewrite Forall_forall in Hks. by apply Hks.
    + apply Hby. unfold stored. pose proof (Hg k Hn) as Heq. unfold get in Heq. by rewrite <- Heq.
  - intros ki Hki. rewrite Hsame; [by apply Hk|]. apply Store.keyimage_not_other.
  - intros a gi Ha Hgi. rewrite Hsame; [by apply Ho|]. apply Store.output_not_other.
  - intros k Hst. apply Honly. unfold stored in *.
    pose proof (Hsame (Store.AMOUNT_OUTPUT_PREFIX ++ k)) as Heq. unfold get in Heq. rewrite <- Heq; [done|].
    intros [_ Hn]. by apply (Hn k).
Qed.

Lemma node_shows_but ks (n : Node D) v d' : node_shows n v → but ks (Store.m_db (store n)) d' → Forall ckey_ok ks →
  node_shows (with_store n (Store.with_db (store n) d')) v.
Proof. intros [Hs Hp Hu] Hb Hks. split; [by eapply store_shows_but|done|done]. Qed.

(** The headers and the main chain need only their own keys. *)
Definition chain_key (k : ckey) : Prop := match k with KHeader _ | KChain _ => True | _ => False end.

Lemma shows_frame b hs main n : chain_shows currency b hs main → roomy (Store.m_db (store n)) →
  (∀ k, ckey_ok k → chain_key k → at_key (Store.m_db (store n)) k = at_key (m_db b) k) →
  chain_shows currency (with_node b n) hs main.
Proof.
  intros [[Hr Ht Hh Hc] Hm Hi Htip Hhe Hw] Hroom Hk. split; try done.
  - split; try done. intros bid Hb. change (m_db (with_node b n)) with (Store.m_db (store n)).
    rewrite (Hk (KHeader bid)) by done. by apply Hh.
  - intros x Hx. change (m_db (with_node b n)) with (Store.m_db (store n)). rewrite (Hk (KChain x)) by done. by apply Hi.
Qed.

End frames.

(** ** Redoing and undoing a block with its index *)

Section blocks.
Context {D : Type} `{LmdbLaws D} (currency : Currency) (cn_fast_hash : list Z → Hash).
Context (check_ring_signature : RingSignatureArg → bool * bool).

(** A well-formed block, its raw form, its body and the hashes it is indexed
    under. *)
Record coded (blk : Block) (raw : RawBlock) (data : BinaryArray) (base_hash : Hash) : Prop := {
  cd_template : template_ok (block_header blk);
  cd_txs : Forall (c_ok ser_Transaction) (block_transactions blk);
  cd_raw : to_raw_block blk = Some raw;
  cd_data : to_binary ser_RawBlock raw = Ok data;
  cd_size : Z.of_nat (length data) < 2 ^ 32;
  cd_count : length (transaction_hashes (block_header blk)) = length (block_transactions blk);
  cd_tids : Forall is_hash (base_hash :: transaction_hashes (block_header blk));
  cd_distinct : NoDup (base_hash :: transaction_hashes (block_header blk));
}.

(** What redoing the block changes in the database, next to its effects. *)
Definition block_keys (bid : Hash) (blk : Block) (time : Timestamp) (height : Height) (base_hash : Hash) : list ckey :=
  KIndices bid :: KTime time height :: (KTransaction <$> base_hash :: transaction_hashes (block_header blk)).

(** The chain's state can take the block. *)
Record ready (b : BlockChain D) (v : view) (bid : Hash) (blk : Block) (info : api_BlockHeader) (base_hash : Hash) : Prop := {
  rd_node : node_shows (node b) v;
  rd_room : roomy (m_db b);
  rd_height : in_u 32 (bh_height info);
  rd_time : in_u 32 (bh_timestamp info);
  rd_bid : is_hash bid;
  rd_fits : fits v (block_effects (bh_height info) blk);
  rd_counts : counts_ok (block_txs blk);
  rd_signed : signed currency cn_fast_hash check_ring_signature (node b) blk (bh_height info) (bh_timestamp info);
  rd_free : Forall (λ k, at_key (m_db b) k = None)
              (block_keys bid blk (bh_timestamp info) (bh_height info) base_hash);
}.

Lemma transaction_nonempty tx bin : c_ok ser_Transaction tx → to_binary ser_Transaction tx = Ok bin → bin ≠ [].
Proof.
  intros Hok Hp ->. pose proof (get_put (c := ser_Transaction) tx [] [] Hok Hp) as Hg.
  apply (get_progress (c := ser_Transaction)) in Hg. cbn in Hg. lia.
Qed.

Lemma transactions_to_binary_inv txs raws : transactions_to_binary txs = Ok raws →
  Forall2 (λ tx raw, to_binary ser_Transaction tx = Ok raw) txs raws.
Proof.
  revert raws. induction txs as [|tx txs IH]; intros raws Hr; [by injection Hr as <-|].
  cbn [transactions_to_binary] in Hr. inv_ok Hr. injection Hr as <-. constructor; [done|by apply IH].
Qed.

Lemma coded_binaries blk raw data base_hash : coded blk raw data base_hash →
  ∃ cb, to_binary ser_Transaction (base_transaction (block_header blk)) = Ok cb ∧
    Forall2 (λ tx bin, to_binary ser_Transaction tx = Ok bin) (block_txs blk) (cb :: raw_transactions raw) ∧
    Forall (λ bin, bin ≠ []) (cb :: raw_transactions raw) ∧ ordered (cb :: raw_transactions raw) data.
Proof.
  intros [Ht Htxs Hraw Hdata _ _ _ _].
  assert (c_ok ser_Transaction (base_transaction (block_header blk))) as Hb by (by destruct Ht as (_ & _ & ? & _)).
  destruct (put_total (c := ser_Transaction) _ Hb) as (cb & Hcb & _).
  assert (Forall2 (λ tx bin, to_binary ser_Transaction tx = Ok bin) (block_txs blk) (cb :: raw_transactions raw)) as Hf.
  { constructor; [done|]. apply transactions_to_binary_inv. unfold to_raw_block in Hraw.
    destruct (to_binary ser_BlockTemplate _); [|done..]. cbn [mbind result_bind] in Hraw.
    destruct (transactions_to_binary _); [|done..]. by injection Hraw as <-. }
  exists cb. split_and!; [done|done| |by eapply block_data_ordered].
  assert (Forall (c_ok ser_Transaction) (block_txs blk)) as Hall by (by constructor).
  clear -Hf Hall. induction Hf as [|tx bin txs bins Hp _ IH]; [by constructor|].
  apply Forall_cons in Hall as [Htx Hall]. constructor; [by eapply transaction_nonempty|by apply IH].
Qed.

Lemma block_keys_ok bid blk time height base_hash raw data : is_hash bid → in_u 32 time → in_u 32 height →
  coded blk raw data base_hash → Forall ckey_ok (block_keys bid blk time height base_hash).
Proof.
  intros Hb Ht Hh Hc. constructor; [done|]. constructor; [done|]. apply Forall_fmap. apply (cd_tids _ _ _ _ Hc).
Qed.

(** The state's own part of redoing the block. *)
Lemma redo_node_keys (b : BlockChain D) v bid blk info base_hash : ready b v bid blk info base_hash →
  ∃ n ba, Redo.redo_block currency cn_fast_hash check_ring_signature (node b) bid blk (bh_height info) (bh_timestamp info)
      = Ok (Some n) ∧
    roomy (m_db (with_node b n)) ∧ node_shows n (foldl v_effect v (block_effects (bh_height info) blk)) ∧
    kept_but [KIndices bid] (m_db b) (m_db (with_node b n)) ∧ at_key (m_db (with_node b n)) (KIndices bid) = Some ba.
Proof.
  intros [Hn Hroom Hh Ht Hbid Hfits Hcounts Hsig Hfree]. apply Forall_cons in Hfree as [Hfi _].
  destruct (redo_block_ok currency cn_fast_hash check_ring_signature (node b) v bid blk (bh_height info) (bh_timestamp info)
    Hn Hh Hbid Hfi Hfits Hcounts Hsig) as (n1 & ba & Hredo & Hn1 & _ & Hdb1).
  exists n1, ba. split_and!; [done|apply (Store.st_size _ _ (nd_store _ _ Hn1))|done| |].
  - intros k Ho Hk. change (m_db (with_node b n1)) with (Store.m_db (store n1)). rewrite (Hdb1 _ Ho), decide_False; [done|].
    intros ->. apply Hk. by left.
  - unfold at_key. change (m_db (with_node b n1)) with (Store.m_db (store n1)). rewrite (Hdb1 _ (key_of_other _)). by rewrite decide_True.
Qed.

(** Indexing the coinbase and the other transactions of a block. *)
Lemma index_block_ok (b : BlockChain D) blk raw data base_hash height w : coded blk raw data base_hash →
  roomy (m_db b) → in_u 32 height →
  (∀ tid, tid ∈ base_hash :: transaction_hashes (block_header blk) → at_key (m_db b) (KTransaction tid) = None) →
  ∃ cb offset size d3 d4,
    to_binary ser_Transaction (base_transaction (block_header blk)) = Ok cb ∧
    position_after data 0 0 cb w = Ok (offset, size) ∧
    let tpos := {| tp_height := height; tp_offset := offset; tp_size := size; tp_index := 0 |} in
    put_position b base_hash tpos = Ok (with_m_db b d3) ∧
    index_transactions (length (block_transactions blk)) (with_m_db b d3) data (raw_transactions raw)
      (transaction_hashes (block_header blk)) tpos = Ok (with_m_db b d4) ∧
    but (KTransaction <$> base_hash :: transaction_hashes (block_header blk)) (m_db b) d4 ∧
    ∀ i tid tx, (base_hash :: transaction_hashes (block_header blk)) !! i = Some tid → block_txs blk !! i = Some tx →
      ∃ bin, to_binary ser_Transaction tx = Ok bin ∧ indexed d4 data height (Z.of_nat i) tid bin.
Proof.
  intros Hc Hroom Hh Hfree. destruct (coded_binaries _ _ _ _ Hc) as (cb & Hcb & Hf2 & Hne & Hord).
  pose proof (ordered_length _ _ Hne Hord) as Hcount. cbn [length] in Hcount.
  pose proof (cd_size _ _ _ _ Hc) as Hsize. apply Forall_cons in Hne as [Hnb Hne].
  pose proof (cd_tids _ _ _ _ Hc) as Htids. apply Forall_cons in Htids as [Htb Htids].
  pose proof (cd_distinct _ _ _ _ Hc) as Hnd. apply NoDup_cons in Hnd as [Hnin Hnd].
  assert (length (transaction_hashes (block_header blk)) = length (raw_transactions raw) ∧
    length (block_transactions blk) = length (raw_transactions raw)) as [Hlh Hlt].
  { apply Forall2_length in Hf2 as Hl. injection Hl as Hl. rewrite (cd_count _ _ _ _ Hc). done. }
  destruct (position_after_ok data 0 0 cb (raw_transactions raw) w)
    as (o & Hpos & Hl & Hord2); [lia..|done|exact Hord|]. pose proof Hl as (Hl0 & _ & Hl1 & _).
  set (tpos := {| tp_height := height; tp_offset := o; tp_size := Z.of_nat (length cb); tp_index := 0 |}).
  assert (c_ok ser_APITransactionPos tpos) as Hpok by (apply (pos_ok data); try done; lia).
  destruct (put_position_ok b base_hash tpos data cb Hroom Htb) as (d3 & Hp3 & Hb3 & Hx3); [by apply Hfree; left|done|done|].
  destruct (index_transactions_ok data (raw_transactions raw) (with_m_db b d3) (transaction_hashes (block_header blk)) tpos)
    as (d4 & Hi4 & Hb4 & Hx4); try done; [by eapply but_roomy| |cbn; lia..|].
  { apply Forall_forall. intros tid Hin. rewrite Forall_forall in Htids. change (at_key d3 (KTransaction tid) = None).
    rewrite (but_at _ _ _ (KTransaction tid) Hb3); [by apply Hfree; right|by apply Htids|by apply Forall_singleton|].
    intros Heq%list_elem_of_singleton. by injection Heq as ->. }
  exists cb, o, (Z.of_nat (length cb)), d3, d4. split; [done|]. split; [done|]. cbv zeta. fold tpos.
  split_and!; [exact Hp3|rewrite Hlt; exact Hi4|by eapply (but_trans [_])|].
  intros [|i] tid tx Hti Htx.
  - injection Hti as <-. injection Htx as <-. exists cb. split; [done|].
    eapply indexed_but; [exact Hb4|done|by apply Forall_fmap| |exact Hx3].
    intros (tid & Heq & Hin)%list_elem_of_fmap. by injection Heq as <-.
  - destruct (Forall2_lookup_l _ _ _ _ _ Hf2 Htx) as (bin & Hbin & Hp). exists bin. split; [done|].
    pose proof (Hx4 i tid bin Hti Hbin) as Hx. cbn in Hx.
    by replace (Z.of_nat (S i)) with (1 + Z.of_nat i) by lia.
Qed.

Lemma other_than_transactions k (l : list Hash) : (∀ tid, k ≠ KTransaction tid) → k ∉ KTransaction <$> l.
Proof. intros Hk (tid & -> & _)%list_elem_of_fmap. by apply (Hk tid). Qed.

Lemma redo_block_indexed (b : BlockChain D) v bid blk raw data info base_hash :
  coded blk raw data base_hash → ready b v bid blk info base_hash →
  ∃ b', redo_block currency cn_fast_hash check_ring_signature b bid data raw blk info base_hash = Ok (Some b') ∧
    b' = with_node b (node b') ∧ roomy (m_db b') ∧
    node_shows (node b') (foldl v_effect v (block_effects (bh_height info) blk)) ∧
    kept_but (block_keys bid blk (bh_timestamp info) (bh_height info) base_hash) (m_db b) (m_db b') ∧
    is_Some (at_key (m_db b') (KIndices bid)) ∧
    at_key (m_db b') (KTime (bh_timestamp info) (bh_height info)) = Some [] ∧
    ∀ i tid tx, (base_hash :: transaction_hashes (block_header blk)) !! i = Some tid → block_txs blk !! i = Some tx →
      ∃ bin, to_binary ser_Transaction tx = Ok bin ∧ indexed (m_db b') data (bh_height info) (Z.of_nat i) tid bin.
Proof.
  intros Hc Hr. destruct (redo_node_keys _ _ _ _ _ _ Hr) as (n1 & ba & Hredo & Hroom1 & Hn1 & Hkept1 & Hati).
  pose proof (block_keys_ok bid blk (bh_timestamp info) (bh_height info) base_hash raw data (rd_bid _ _ _ _ _ _ Hr)
    (rd_time _ _ _ _ _ _ Hr) (rd_height _ _ _ _ _ _ Hr) Hc) as Hks.
  destruct Hr as [_ _ Hh Ht Hbid _ _ _ Hfree]. apply Forall_cons in Hfree as [_ Hfree].
  apply Forall_cons in Hfree as [Hft Hfree]. rewrite Forall_fmap, Forall_forall in Hfree.
  assert (∀ k, ckey_ok k → k ≠ KIndices bid → at_key (m_db (with_node b n1)) k = at_key (m_db b) k) as Hat1.
  { intros k Hk Hne. apply (kept_at _ _ _ _ Hkept1 Hk); [by apply Forall_singleton|]. by intros Heq%list_elem_of_singleton. }
  apply Forall_cons in Hks as [_ Hks]. apply Forall_cons in Hks as Hks2. destruct Hks2 as [_ Hktx].
  unfold redo_block. rewrite Hredo. cbn [mbind result_bind]. set (b1 := with_node b n1) in *.
  destruct (put_key (m_db b1) (KTime (bh_timestamp info) (bh_height info)) [] true Hroom1) as (d2 & Hp2 & Hw2); [done| |].
  { intros _. by rewrite Hat1. }
  change (TIMESTAMP_BLOCK_key _ _) with (key_of (KTime (bh_timestamp info) (bh_height info))). rewrite Hp2.
  cbn [mbind result_bind].
  destruct (index_block_ok (with_m_db b1 d2) blk raw data base_hash (bh_height info)
    "binary coinbase tx not found in binary block" Hc) as (cb & o & size & d3 & d4 & -> & Hpos & Hput & Hix & Hb4 & Hx4).
  { by eapply roomy_wrote. } { done. }
  { intros tid Hin. change (at_key d2 (KTransaction tid) = None). rewrite Forall_fmap, Forall_forall in Hktx.
    rewrite (wrote_same _ _ _ _ (KTransaction tid) Hw2) by (done || by apply Hktx). rewrite Hat1 by (done || by apply Hktx).
    by apply Hfree. }
  cbn [mbind result_bind]. rewrite Hpos. cbn [mbind result_bind]. rewrite Hput. cbn [mbind result_bind]. rewrite Hix.
  cbn [mbind result_bind]. eexists. split; [done|]. split; [by destruct b as [[[]] ]|].
  assert (but (KTime (bh_timestamp info) (bh_height info) :: (KTransaction <$> base_hash :: transaction_hashes (block_header blk)))
    (m_db b1) d4) as Hb by (eapply (but_trans [_]); [by eapply wrote_but|exact Hb4]).
  split_and!.
  - by eapply (but_roomy _ _ d4 Hb).
  - exact (node_shows_but _ n1 _ d4 Hn1 Hb Hks).
  - exact (kept_trans [_] _ _ _ _ Hkept1 (but_kept _ _ _ Hb)).
  - exists ba. change (at_key d4 (KIndices bid) = Some ba).
    rewrite (but_at _ _ _ _ Hb); [done|done|done|].
    apply not_elem_of_cons. split; [done|by apply other_than_transactions].
  - change (at_key d4 (KTime (bh_timestamp info) (bh_height info)) = Some []).
    rewrite (but_at _ _ _ _ Hb4); [by eapply wrote_at|done|done|by apply other_than_transactions].
  - exact Hx4.
Qed.

(** The state's own part of undoing the block. *)
Lemma undo_node_keys (b : BlockChain D) v bid blk height :
  node_shows (node b) (foldl v_effect v (block_effects height blk)) → effects_ok v (block_effects height blk) →
  is_hash bid → is_Some (at_key (m_db b) (KIndices bid)) →
  ∃ n, Redo.undo_block (node b) bid blk = Ok n ∧ roomy (m_db (with_node b n)) ∧ node_shows n v ∧
    kept_but [KIndices bid] (m_db b) (m_db (with_node b n)) ∧
    ∀ k, ckey_ok k → at_key (m_db (with_node b n)) k = if decide (k = KIndices bid) then None else at_key (m_db b) k.
Proof.
  intros Hn Hok Hbid Hi.
  destruct (BlockLaws.undo_block_ok (node b) v bid blk height Hn Hok Hbid Hi) as (n1 & Hu & Hn1 & _ & Hdb1).
  exists n1. split_and!; [done|apply (Store.st_size _ _ (nd_store _ _ Hn1))|done| |].
  { intros k Ho Hk. change (m_db (with_node b n1)) with (Store.m_db (store n1)). rewrite (Hdb1 _ Ho), decide_False; [done|].
    intros ->. apply Hk. by left. }
  intros k Hk. unfold at_key at 1. change (m_db (with_node b n1)) with (Store.m_db (store n1)).
  rewrite (Hdb1 _ (key_of_other k)). change (block_indices_key bid) with (key_of (KIndices bid)).
  destruct (decide (k = KIndices bid)) as [->|Hkne]; [by rewrite decide_True|].
  rewrite decide_False; [done|]. by intros ?%key_of_inj.
Qed.

(** Undoing it takes its keys out again. *)
Lemma undo_block_unindexed (b : BlockChain D) v bid blk raw data height base_hash :
  let time := Blocks.timestamp (header (block_header blk)) in
  coded blk raw data base_hash → roomy (m_db b) → is_hash bid → in_u 32 time → in_u 32 height →
  node_shows (node b) (foldl v_effect v (block_effects height blk)) → effects_ok v (block_effects height blk) →
  get_transaction_hash cn_fast_hash (base_transaction (block_header blk)) = Ok base_hash →
  Forall (λ k, is_Some (at_key (m_db b) k)) (block_keys bid blk time height base_hash) →
  ∃ b', undo_block cn_fast_hash b bid blk height = Ok b' ∧ b' = with_node b (node b') ∧ roomy (m_db b') ∧
    node_shows (node b') v ∧ kept_but (block_keys bid blk time height base_hash) (m_db b) (m_db b') ∧
    (∀ k, ckey_ok k → at_key (m_db b') k =
       if decide (k ∈ block_keys bid blk time height base_hash) then None else at_key (m_db b) k).
Proof.
  intros time Hc Hroom Hbid Ht Hh Hn Hok Hbase Hkeys.
  pose proof (block_keys_ok bid blk time height base_hash raw data Hbid Ht Hh Hc) as Hks.
  apply Forall_cons in Hks as Hks1. destruct Hks1 as [_ Hks1]. apply Forall_cons in Hks1 as [_ Hktx]. rewrite Forall_fmap in Hktx.
  apply Forall_cons in Hkeys as [Hi Hkeys]. apply Forall_cons in Hkeys as [Hkt Hkeys]. rewrite Forall_fmap in Hkeys.
  destruct (undo_node_keys b v bid blk height Hn Hok Hbid Hi) as (n1 & Hu & Hroom1 & Hn1 & Hkept1 & Hat1).
  unfold undo_block. rewrite Hu. cbn [mbind result_bind]. set (b1 := with_node b n1) in *.
  destruct (del_key (m_db b1) (KTime time height) true Hroom1) as (d2 & Hd2 & Hw2); [done| |].
  { intros _. rewrite Hat1 by done. by rewrite decide_False. }
  change (TIMESTAMP_BLOCK_key _ _) with (key_of (KTime time height)). rewrite Hd2. cbn [mbind result_bind].
  rewrite Hbase. cbn [mbind result_bind].
  assert (∀ tid, tid ∈ base_hash :: transaction_hashes (block_header blk) → is_Some (at_key d2 (KTransaction tid))) as Hst.
  { rewrite Forall_forall in Hktx, Hkeys. intros tid Hin. rewrite (wrote_same _ _ _ _ (KTransaction tid) Hw2) by (done || by apply Hktx).
    rewrite Hat1 by (by apply Hktx). rewrite decide_False by done. by apply Hkeys. }
  apply Forall_cons in Hktx as Hktx1. destruct Hktx1 as [Htb Htids].
  pose proof (cd_distinct _ _ _ _ Hc) as Hnd. apply NoDup_cons in Hnd as [Hnin Hnd].
  destruct (unindex_transactions_ok (base_hash :: transaction_hashes (block_header blk)) (with_m_db b1 d2))
    as (d4 & Hun & Hb4 & Hnone); [by eapply roomy_wrote|by constructor|apply (cd_distinct _ _ _ _ Hc)|by apply Forall_forall|].
  cbn [length unindex_transactions] in Hun. change (m_db (with_m_db b1 d2)) with d2 in Hun.
  destruct (del d2 (TRANSATION_key base_hash) true) as [d3| |] eqn:Hd3; [|done..]. cbn [mbind result_bind] in Hun.
  change (m_db (with_m_db b1 d2)) with d2. rewrite Hd3. cbn [mbind result_bind]. rewrite <- (cd_count _ _ _ _ Hc).
  eexists. split; [exact Hun|]. split; [by destruct b as [[[]] ]|].
  assert (but (KTime time height :: (KTransaction <$> base_hash :: transaction_hashes (block_header blk))) (m_db b1) d4) as Hb
    by (eapply (but_trans [_]); [by eapply wrote_but|exact Hb4]).
  apply Forall_cons in Hks as [_ Hks]. split_and!.
  - by eapply (but_roomy _ _ d4 Hb).
  - exact (node_shows_but _ n1 _ d4 Hn1 Hb Hks).
  - exact (kept_trans [_] _ _ _ _ Hkept1 (but_kept _ _ _ Hb)).
  - intros k Hk. change (at_key d4 k = if decide (k ∈ block_keys bid blk time height base_hash) then None else at_key (m_db b) k).
    unfold block_keys. destruct (decide (k ∈ KTransaction <$> base_hash :: transaction_hashes (block_header blk))) as [Hin|Hnt].
    + rewrite decide_True by (do 2 right; done). apply list_elem_of_fmap in Hin as (tid & -> & Hin).
      rewrite Forall_forall in Hnone. by apply Hnone.
    + rewrite (but_at _ _ _ _ Hb4) by (done || by apply Forall_fmap). change (m_db (with_m_db b1 d2)) with d2.
      destruct (decide (k = KTime time height)) as [->|Hnk].
      { rewrite decide_True by (right; by left). by eapply wrote_at. }
      rewrite (wrote_same _ _ _ _ k Hw2), Hat1 by done. destruct (decide (k = KIndices bid)) as [->|Hni].
      { rewrite decide_True by (by left). done. }
      rewrite decide_False; [done|]. by intros [|[|]%elem_of_cons]%elem_of_cons.
Qed.

(** ** Reading a transaction back *)

Lemma read_transaction_ok (b : BlockChain D) hs main i info data index tid tx bin :
  chain_shows currency b hs main → main !! i = Some info → at_key (m_db b) (KBlock (bh_hash info)) = Some data →
  Z.of_nat (length data) < 2 ^ 32 → c_ok ser_Transaction tx → to_binary ser_Transaction tx = Ok bin →
  indexed (m_db b) data (bh_height info) index tid bin →
  read_transaction b tid = Ok (Some {| ft_tx := tx; ft_height := bh_height info; ft_block := bh_hash info;
    ft_index := index; ft_size := Z.of_nat (length bin) |}).
Proof.
  intros Hs Hi Hdata Hsize Htx Hbin (tpos & ba & Hba & Hat & Hok & Hh & Hix & Ho & Hsz & Hle & Htake).
  unfold read_transaction. unfold at_key in Hat. cbn [key_of] in Hat. rewrite Hat.
  destruct (from_to_binary ser_APITransactionPos tpos Hok) as (ba' & Hba' & _ & Hfrom).
  rewrite Hba in Hba'. injection Hba' as <-. rewrite Hfrom. cbn [mbind result_bind].
  destruct (mn_height _ _ (cs_main _ _ _ _ Hs) _ _ Hi) as [Hhe _].
  rewrite Hh, Hhe, (expect_chain_ok currency b hs main i info Hs Hi). cbn [mbind result_bind].
  unfold at_key in Hdata. cbn [key_of] in Hdata. rewrite Hdata. cbn [of_option mbind result_bind].
  rewrite u32_small by lia. replace (tp_offset tpos + tp_size tpos <=? Z.of_nat (length data)) with true by lia.
  cbn [check mbind result_bind]. rewrite Htake.
  destruct (from_to_binary ser_Transaction tx Htx) as (bin' & Hbin' & _ & Hfrom').
  rewrite Hbin in Hbin'. injection Hbin' as <-. rewrite Hfrom'. cbn [mbind result_bind]. by rewrite Hix, Hsz.
Qed.

End blocks.

End BlockStoreLaws.
