(* ===== verification/BranchLaws.v ===== *)
(** * The branches of the tree of blocks: theorems

    The counters of children and the index of tips that [add_block] and
    [prune_branch] keep. *)

From S2P Require Import Prelude Varint Containers Seria Text CryptoNote Blocks Currency Db ChainState Store Pool Redo Headers HeaderLaws BlockStore BlockStoreLaws.
Import Containers Codec Varint CryptoNote Blocks Currency Db Redo Headers HeaderLaws BlockStore BlockStoreLaws.

Local Open Scope Z_scope.

Module BranchLaws.

(** ** Children *)

Definition is_child (bid : Hash) (h : api_BlockHeader) : Prop := bh_height h ≠ 0 ∧ bh_previous_block_hash h = bid.
Definition children (hs : gmap Hash api_BlockHeader) (bid : Hash) : nat :=
  size (filter (λ x : Hash * api_BlockHeader, is_child bid x.2) hs).

Lemma children_insert hs bid h x : hs !! bid = None →
  children (<[bid := h]> hs) x = (if decide (is_child x h) then S (children hs x) else children hs x).
Proof.
  intros Hn. unfold children. destruct (decide (is_child x h)) as [Hc|Hc].
  - rewrite map_filter_insert_True by done. rewrite map_size_insert_None; [done|].
    apply map_lookup_filter_None. by left.
  - rewrite map_filter_insert_not' by (done || by rewrite Hn). done.
Qed.

Lemma children_pos hs bid h x : hs !! bid = Some h → is_child x h → children hs x ≠ 0%nat.
Proof.
  intros Hl Hc Hz. unfold children in Hz. apply map_size_empty_inv in Hz.
  assert (filter (λ x0 : Hash * api_BlockHeader, is_child x x0.2) hs !! bid = Some h) as Hf by (by apply map_lookup_filter_Some).
  by rewrite Hz, lookup_empty in Hf.
Qed.

Lemma children_le hs x : (children hs x ≤ size hs)%nat.
Proof. unfold children. apply map_subseteq_size, map_filter_subseteq. Qed.

(** A block that is not in the tree has no children there. *)
Lemma children_absent g hs bid : tree_ok g hs → hs !! bid = None → children hs bid = 0%nat.
Proof.
  intros Ht Hn. destruct (decide (children hs bid = 0%nat)) as [|Hne]; [done|]. exfalso.
  unfold children in Hne. apply map_size_non_empty_iff, map_choose in Hne as (y & h & Hy).
  apply map_lookup_filter_Some in Hy as [Hy [Hh Hp]]. cbn in Hh, Hp.
  destruct (tr_parent _ _ Ht _ _ Hy Hh) as (p & Hpl & _). rewrite Hp in Hpl. by rewrite Hn in Hpl.
Qed.

Section branches.
Context {D : Type} `{LmdbLaws D}.

Definition counter_of (n : nat) : option (list Z) :=
  if decide (n = 1%nat) then None else Some (Store.encoding ser_counter (Z.of_nat n)).

(** The counters count the children of every block, and the index has the
    blocks without any under their cumulative difficulties. *)
Record tips_show (d : D) (hs : gmap Hash api_BlockHeader) : Prop := {
  ts_counter bid : is_hash bid →
    at_key d (KChildren bid) = match hs !! bid with Some _ => counter_of (children hs bid) | None => None end;
  ts_tip cd bid : in_u 64 cd → is_hash bid → is_Some (at_key d (KTips cd bid)) ↔
    ∃ h, hs !! bid = Some h ∧ bh_cumulative_difficulty h = cd ∧ children hs bid = 0%nat;
  ts_only k : stored d (chars "x-tips/" ++ k) → ∃ cd bid, in_u 64 cd ∧ is_hash bid ∧ k = write_varint_sqlite4 cd ++ bid;
}.

Lemma read_counter_ok (b : BlockChain D) hs bid : tips_show (m_db b) hs → is_hash bid → Z.of_nat (size hs) < 2 ^ 32 →
  read_counter b bid = Ok (match hs !! bid with Some _ => Z.of_nat (children hs bid) | None => 1 end).
Proof.
  intros Ht Hb Hsz. unfold read_counter. pose proof (ts_counter _ _ Ht bid Hb) as Hc. unfold at_key in Hc.
  cbn [key_of] in Hc. rewrite Hc. destruct (hs !! bid); [|done]. unfold counter_of. case_decide as Hone; [by rewrite Hone|].
  pose proof (children_le hs bid).
  destruct (Store.encoding_ok ser_counter (Z.of_nat (children hs bid))) as (_ & _ & ->); [|done].
  cbn. unfold in_u. lia.
Qed.

Lemma modify_children_counter_ok (b : BlockChain D) cd bid delta c : roomy (m_db b) → in_u 64 cd → is_hash bid →
  read_counter b bid = Ok c → 0 ≤ c + delta < 2 ^ 32 →
  ∃ d, modify_children_counter b cd bid delta = Ok (with_m_db b d) ∧ but [KChildren bid; KTips cd bid] (m_db b) d ∧
    at_key d (KChildren bid) = counter_of (Z.to_nat (c + delta)) ∧
    at_key d (KTips cd bid) = if decide (c + delta = 0) then Some [] else None.
Proof.
  intros Hr Hcd Hb Hc Hrange. unfold modify_children_counter. rewrite Hc. cbn [mbind result_bind].
  rewrite u32_small by done. set (n := c + delta) in *.
  assert (∃ d, (if n =? 1 then del (m_db b) (CHILDREN_key bid) false
     else ba ← to_binary ser_counter n; put (m_db b) (CHILDREN_key bid) ba false) = Ok d ∧
     wrote (m_db b) (KChildren bid) (counter_of (Z.to_nat n)) d) as (d1 & -> & Hw1).
  { unfold counter_of. change (CHILDREN_key bid) with (key_of (KChildren bid)). destruct (Z.eqb_spec n 1) as [->|Hne].
    - destruct (del_key (m_db b) (KChildren bid) false Hr Hb) as (d & -> & Hw); [done|]. by exists d.
    - rewrite decide_False by lia. destruct (Store.encoding_ok ser_counter n) as (He & _ & _); [done|]. rewrite He.
      cbn [mbind result_bind]. rewrite Z2Nat.id by lia.
      destruct (put_key (m_db b) (KChildren bid) (Store.encoding ser_counter n) false Hr Hb) as (d & -> & Hw); [done|]. by exists d. }
  cbn [mbind result_bind]. pose proof (roomy_wrote _ _ _ _ Hr Hw1) as Hr1.
  assert (∃ d, (if n =? 0 then put d1 (CD_TIPS_key cd bid) [] false else del d1 (CD_TIPS_key cd bid) false) = Ok d ∧
     wrote d1 (KTips cd bid) (if decide (n = 0) then Some [] else None) d) as (d2 & -> & Hw2).
  { change (CD_TIPS_key cd bid) with (key_of (KTips cd bid)). destruct (Z.eqb_spec n 0) as [->|Hne].
    - rewrite decide_True by done. by destruct (put_key d1 (KTips cd bid) [] false Hr1 (conj Hcd Hb)) as (d & -> & Hw); [|exists d].
    - rewrite decide_False by done. by destruct (del_key d1 (KTips cd bid) false Hr1 (conj Hcd Hb)) as (d & -> & Hw); [|exists d]. }
  exists d2. cbn [mbind result_bind]. split_and!; [done| | |].
  - eapply (but_trans [_] [_]); by eapply wrote_but.
  - rewrite (wrote_same _ _ _ _ (KChildren bid) Hw2) by done. by eapply wrote_at.
  - by eapply wrote_at.
Qed.

Lemma tips_key c k : ckey_ok c → key_of c = chars "x-tips/" ++ k →
  ∃ cd bid, in_u 64 cd ∧ is_hash bid ∧ k = write_varint_sqlite4 cd ++ bid.
Proof.
  intros Hc Heq. destruct c; try discriminate Heq. exists cd, bid. cbn [key_of] in Heq. unfold CD_TIPS_key in Heq.
  apply app_inv_head in Heq as <-. by destruct Hc.
Qed.

Lemma tips_only_but ks (d d' : D) : but ks d d' → Forall ckey_ok ks →
  (∀ k, stored d (chars "x-tips/" ++ k) → ∃ cd bid, in_u 64 cd ∧ is_hash bid ∧ k = write_varint_sqlite4 cd ++ bid) →
  ∀ k, stored d' (chars "x-tips/" ++ k) → ∃ cd bid, in_u 64 cd ∧ is_hash bid ∧ k = write_varint_sqlite4 cd ++ bid.
Proof.
  intros [_ Hg] Hks Ho k Hst. destruct (decide (chars "x-tips/" ++ k ∈ key_of <$> ks)) as [(c & Heq & Hin)%list_elem_of_fmap|Hn].
  - rewrite Forall_forall in Hks. by apply (tips_key c); [apply Hks|].
  - apply Ho. unfold stored in *. pose proof (Hg _ Hn) as Heq. unfold get in Heq. by rewrite <- Heq.
Qed.

(** The tree grows by a block [h] under [p]: [p] is no tip any more, the new
    block is one. *)
Lemma add_branch_ok g (b : BlockChain D) hs bid h p : tips_show (m_db b) hs → tree_ok g hs →
  tree_ok g (<[bid := h]> hs) → hs !! bid = None → bh_height h ≠ 0 → hs !! bh_previous_block_hash h = Some p →
  roomy (m_db b) → Z.of_nat (size hs) < 2 ^ 32 - 1 →
  ∃ d1 d2, modify_children_counter b (bh_cumulative_difficulty p) (bh_previous_block_hash h) 1 = Ok (with_m_db b d1) ∧
    check_children_counter (with_m_db b d1) (bh_cumulative_difficulty h) bid 1 = Ok tt ∧
    modify_children_counter (with_m_db b d1) (bh_cumulative_difficulty h) bid (-1) = Ok (with_m_db b d2) ∧
    but [KChildren (bh_previous_block_hash h); KTips (bh_cumulative_difficulty p) (bh_previous_block_hash h);
         KChildren bid; KTips (bh_cumulative_difficulty h) bid] (m_db b) d2 ∧
    tips_show d2 (<[bid := h]> hs).
Proof.
  intros Hts Ht Ht' Hnew Hnz Hp Hr Hsz. set (prev := bh_previous_block_hash h) in *.
  assert (<[bid := h]> hs !! bid = Some h) as Hhin by apply lookup_insert_eq.
  destruct (tr_ok _ _ Ht' _ _ Hhin) as [Hhb Hhok]. destruct (header_fields _ Hhok) as (_ & _ & Hbid & Hcdh). rewrite Hhb in Hbid.
  destruct (tr_ok _ _ Ht _ _ Hp) as [Hpb Hpok]. destruct (header_fields _ Hpok) as (_ & _ & Hprev & Hcdp). rewrite Hpb in Hprev.
  assert (prev ≠ bid) as Hne by (intros Heq; by rewrite Heq, Hnew in Hp).
  pose proof (read_counter_ok b hs prev Hts Hprev ltac:(lia)) as Hc1. rewrite Hp in Hc1.
  pose proof (children_le hs prev) as Hle.
  destruct (modify_children_counter_ok b _ prev 1 _ Hr Hcdp Hprev Hc1 ltac:(lia)) as (d1 & Hm1 & Hb1 & Hk1 & Ht1).
  rewrite decide_False in Ht1 by lia.
  assert (Forall ckey_ok [KChildren prev; KTips (bh_cumulative_difficulty p) prev]) as Hks1 by (by repeat (apply Forall_cons; split)).
  assert (∀ k, ckey_ok k → (∀ cd, k ≠ KTips cd prev) → k ≠ KChildren prev → at_key d1 k = at_key (m_db b) k) as Hsame1.
  { intros k Hk Hkt Hkc. apply (but_at _ _ _ _ Hb1 Hk Hks1). intros [->|[->|[]%elem_of_nil]%elem_of_cons]%elem_of_cons; [done|by eapply Hkt]. }
  assert (at_key d1 (KChildren bid) = None) as Hfree.
  { rewrite Hsame1; [|done|done|congruence]. rewrite (ts_counter _ _ Hts) by done. by rewrite Hnew. }
  assert (at_key d1 (KTips (bh_cumulative_difficulty h) bid) = None) as Hfreet.
  { rewrite Hsame1; [|done|congruence|done]. apply eq_None_not_Some. rewrite (ts_tip _ _ Hts) by done.
    intros (y & Hy & _). by rewrite Hnew in Hy. }
  assert (read_counter (with_m_db b d1) bid = Ok 1) as Hc2.
  { unfold read_counter. unfold at_key in Hfree. cbn [key_of] in Hfree. change (m_db (with_m_db b d1)) with d1. by rewrite Hfree. }
  pose proof (but_roomy _ _ _ Hb1 Hr) as Hr1.
  destruct (modify_children_counter_ok (with_m_db b d1) _ bid (-1) 1 Hr1 Hcdh Hbid Hc2 ltac:(lia)) as (d2 & Hm2 & Hb2 & Hk2 & Ht2).
  rewrite decide_True in Ht2 by done. change (Z.to_nat (1 + -1)) with 0%nat in Hk2.
  change (m_db (with_m_db b d1)) with d1 in Hb2.
  assert (Forall ckey_ok [KChildren bid; KTips (bh_cumulative_difficulty h) bid]) as Hks2 by (by repeat (apply Forall_cons; split)).
  assert (∀ k, ckey_ok k → (∀ cd, k ≠ KTips cd bid) → k ≠ KChildren bid → at_key d2 k = at_key d1 k) as Hsame2.
  { intros k Hk Hkt Hkc. apply (but_at _ _ _ _ Hb2 Hk Hks2). intros [->|[->|[]%elem_of_nil]%elem_of_cons]%elem_of_cons; [done|by eapply Hkt]. }
  exists d1, d2. split_and!; [done| |by destruct b as [[[]] ]|exact (but_trans [_; _] _ _ _ _ Hb1 Hb2)|].
  - unfold check_children_counter. rewrite Hc2. cbn [mbind result_bind]. unfold at_key in Hfreet. cbn [key_of] in Hfreet.
    change (m_db (with_m_db b d1)) with d1. rewrite Hfreet. by rewrite bool_decide_eq_false_2 by (by intros []).
  - assert (∀ x, children (<[bid := h]> hs) x = if decide (x = prev) then S (children hs x) else children hs x) as Hch.
    { intros x. rewrite children_insert by done. unfold is_child. fold prev.
      destruct (decide (x = prev)) as [->|Hx]; [by rewrite decide_True|]. rewrite decide_False; [done|]. naive_solver. }
    pose proof (children_absent _ _ _ Ht Hnew) as Hch0.
    split.
    + intros x Hx. rewrite Hch. destruct (decide (x = bid)) as [->|Hxb].
      { rewrite Hhin, decide_False by done. by rewrite Hch0. }
      rewrite lookup_insert_ne by done. rewrite Hsame2; [|done|done|congruence]. destruct (decide (x = prev)) as [->|Hxp].
      { rewrite Hp, Hk1. f_equal. lia. }
      rewrite Hsame1; [|done|done|congruence]. by apply (ts_counter _ _ Hts).
    + intros cd x Hcd Hx. rewrite Hch. destruct (decide (x = bid)) as [->|Hxb].
      { rewrite Hhin, decide_False, Hch0 by done. destruct (decide (cd = bh_cumulative_difficulty h)) as [->|Hcdn].
        - rewrite Ht2. split; [by exists h|done].
        - rewrite (but_at _ _ _ _ Hb2) by (done || (intros [[=]|[[=]|[]%elem_of_nil]%elem_of_cons]%elem_of_cons; congruence)).
          rewrite Hsame1; [|done|congruence|done]. rewrite (ts_tip _ _ Hts) by done. rewrite Hnew. split; [by intros (? & ? & _)|].
          intros (y & [= <-] & ? & _). congruence. }
      rewrite lookup_insert_ne by done. rewrite Hsame2; [|done|congruence|done]. destruct (decide (x = prev)) as [->|Hxp].
      * split; [|by intros (y & _ & _ & ?)]. intros Hsome. exfalso.
        destruct (decide (cd = bh_cumulative_difficulty p)) as [->|Hcdn]; [rewrite Ht1 in Hsome; by destruct Hsome|].
        rewrite (but_at _ _ _ _ Hb1) in Hsome by (done || (intros [[=]|[[=]|[]%elem_of_nil]%elem_of_cons]%elem_of_cons; congruence)).
        apply (ts_tip _ _ Hts) in Hsome as (y & Hy & <- & _); [|done|done]. rewrite Hp in Hy. by injection Hy as ->.
      * rewrite Hsame1; [|done|congruence|done]. by apply (ts_tip _ _ Hts).
    + eapply tips_only_but; [exact Hb2|done|]. eapply tips_only_but; [exact Hb1|done|]. apply (ts_only _ _ Hts).
Qed.

(** The root: a first block without a parent. *)
Lemma add_root_ok (b : BlockChain D) bid h : tips_show (m_db b) ∅ → c_ok ser_api_BlockHeader h → bh_hash h = bid →
  bh_height h = 0 → roomy (m_db b) →
  ∃ d, check_children_counter b (bh_cumulative_difficulty h) bid 1 = Ok tt ∧
    modify_children_counter b (bh_cumulative_difficulty h) bid (-1) = Ok (with_m_db b d) ∧
    but [KChildren bid; KTips (bh_cumulative_difficulty h) bid] (m_db b) d ∧ tips_show d {[bid := h]}.
Proof.
  intros Hts Hok Hb Hh Hr. destruct (header_fields _ Hok) as (_ & _ & Hbid & Hcd). rewrite Hb in Hbid.
  assert (at_key (m_db b) (KChildren bid) = None) as Hfree by (by rewrite (ts_counter _ _ Hts)).
  assert (∀ cd x, in_u 64 cd → is_hash x → at_key (m_db b) (KTips cd x) = None) as Hfreet.
  { intros cd x Hcd' Hx. apply eq_None_not_Some. rewrite (ts_tip _ _ Hts) by done. intros (y & Hy & _). by rewrite lookup_empty in Hy. }
  assert (read_counter b bid = Ok 1) as Hc by (unfold read_counter; unfold at_key in Hfree; cbn [key_of] in Hfree; by rewrite Hfree).
  destruct (modify_children_counter_ok b _ bid (-1) 1 Hr Hcd Hbid Hc ltac:(lia)) as (d & Hm & Hbut & Hk & Ht).
  rewrite decide_True in Ht by done. change (Z.to_nat (1 + -1)) with 0%nat in Hk.
  exists d. split_and!; [|done|done|].
  - unfold check_children_counter. rewrite Hc. cbn [mbind result_bind]. pose proof (Hfreet _ _ Hcd Hbid) as Hft.
    unfold at_key in Hft. cbn [key_of] in Hft. rewrite Hft. by rewrite bool_decide_eq_false_2 by (by intros []).
  - assert (∀ x, children {[bid := h]} x = 0%nat) as Hch.
    { intros x. rewrite <- insert_empty, children_insert by apply lookup_empty. rewrite decide_False by (by intros [? _]). done. }
    assert (Forall ckey_ok [KChildren bid; KTips (bh_cumulative_difficulty h) bid]) as Hks by (by repeat (apply Forall_cons; split)).
    split.
    + intros x Hx. rewrite Hch. destruct (decide (x = bid)) as [->|Hne]; [by rewrite lookup_singleton_eq|].
      rewrite lookup_singleton_ne by done. rewrite (but_at _ _ _ _ Hbut) by (done || set_solver).
      by rewrite (ts_counter _ _ Hts).
    + intros cd x Hcd' Hx. rewrite Hch.
      destruct (decide (KTips cd x = KTips (bh_cumulative_difficulty h) bid)) as [[= -> ->]|Hne].
      * rewrite Ht, lookup_singleton_eq. split; [by exists h|done].
      * rewrite (but_at _ _ _ _ Hbut), Hfreet by (done || set_solver). split; [by intros []|].
        intros (y & [<- <-]%lookup_singleton_Some & <- & _). done.
    + eapply tips_only_but; [exact Hbut|done|]. apply (ts_only _ _ Hts).
Qed.

(** Keys of other components do not matter. *)
Definition branch_key (k : ckey) : Prop := match k with KChildren _ | KTips _ _ => True | _ => False end.
Lemma tips_show_kept ks (d d' : D) hs : tips_show d hs → kept_but ks d d' → Forall ckey_ok ks →
  Forall (λ k, ¬ branch_key k) ks → tips_show d' hs.
Proof.
  intros [Hc Ht Ho] Hk Hks Hn.
  assert (∀ k, ckey_ok k → branch_key k → at_key d' k = at_key d k) as Hsame.
  { intros k Hkk Hb. apply (kept_at _ _ _ _ Hk Hkk Hks). intros Hin. rewrite Forall_forall in Hn. by apply (Hn k). }
  split.
  - intros bid Hb. rewrite Hsame by done. by apply Hc.
  - intros cd bid Hcd Hb. rewrite Hsame by done. by apply Ht.
  - intros k Hst. destruct (decide (chars "x-tips/" ++ k ∈ key_of <$> ks)) as [(c & Heq & Hin)%list_elem_of_fmap|Hnin].
    + rewrite Forall_forall in Hks. by apply (tips_key c); [apply Hks|].
    + apply Ho. unfold stored in *. pose proof (Hk (chars "x-tips/" ++ k)) as Heq. unfold get in Heq. rewrite <- Heq; [done| |done].
      by split.
Qed.

(** The first key of the index is the tip of the least cumulative difficulty. *)
Lemma get_oldest_tip_ok g (b : BlockChain D) hs : tips_show (m_db b) hs → tree_ok g hs →
  ∃ o, get_oldest_tip b = Ok o ∧
    match o with
    | None => ∀ bid h, hs !! bid = Some h → children hs bid ≠ 0%nat
    | Some (cd, bid) => (∃ h, hs !! bid = Some h ∧ bh_cumulative_difficulty h = cd ∧ children hs bid = 0%nat) ∧
        ∀ bid' h', hs !! bid' = Some h' → children hs bid' = 0%nat → cd ≤ bh_cumulative_difficulty h'
    end.
Proof.
  intros Hts Ht. unfold get_oldest_tip.
  assert (∀ bid h, hs !! bid = Some h → is_hash bid ∧ in_u 64 (bh_cumulative_difficulty h)) as Hok.
  { intros bid h Hh. destruct (tr_ok _ _ Ht _ _ Hh) as [<- Hc]. by apply header_fields in Hc as (_ & _ & ? & ?). }
  assert (∀ bid h, hs !! bid = Some h → children hs bid = 0%nat →
    stored (m_db b) (chars "x-tips/" ++ write_varint_sqlite4 (bh_cumulative_difficulty h) ++ bid)) as Hst.
  { intros bid h Hh Hc. destruct (Hok bid h Hh) as [Hb Hcd]. apply (ts_tip _ _ Hts _ bid Hcd Hb). by exists h. }
  destruct (begin_cursor (m_db b) (chars "x-tips/") []) as (_ & _ & Hcur); [done|]. rewrite app_nil_r in Hcur.
  set (cur := begin (m_db b) (chars "x-tips/") []) in *. destruct (is_end cur).
  - exists None. split; [done|]. intros bid h Hh Hc. eapply Hcur. split; [by apply Hst|]. apply lex_ltb_prefix.
  - destruct Hcur as (_ & _ & [Hstored _] & Hleast).
    destruct (ts_only _ _ Hts _ Hstored) as (cd & bid & Hcd & Hb & Hsuf). rewrite Hsuf.
    rewrite read_write_varint_sqlite4 by done. cbn [mbind result_bind].
    replace (length bid =? 32)%nat with true by (symmetry; apply Nat.eqb_eq, Hb). cbn [check mbind result_bind].
    exists (Some (cd, bid)). split; [done|]. split.
    + apply (ts_tip _ _ Hts); [done..|]. unfold at_key. cbn [key_of]. unfold CD_TIPS_key. rewrite <- Hsuf. exact Hstored.
    + intros bid' h' Hh' Hc'. destruct (Hok bid' h' Hh') as [_ Hcd'].
      destruct (Z.le_gt_cases cd (bh_cumulative_difficulty h')) as [|Hgt]; [done|]. exfalso.
      pose proof (write_varint_sqlite4_lex _ _ bid' bid Hcd' Hcd Hgt) as Hlt. rewrite <- Hsuf in Hlt.
      rewrite (Hleast (write_varint_sqlite4 (bh_cumulative_difficulty h') ++ bid')) in Hlt; [done|].
      split; [by apply Hst|]. apply lex_ltb_prefix.
Qed.

End branches.

End BranchLaws.
