(* ===== verification/ChainLaws.v ===== *)
(** * The node as a whole: theorems about adding blocks *)

From S2P Require Import Prelude Varint Containers Seria Text CryptoNote Blocks Currency Db ChainState Store Pool Redo BlockLaws NodeLaws Headers HeaderLaws Consensus ConsensusLaws BlockStore BlockStoreLaws BranchLaws ChainUpdate.
Import Containers Codec Varint CryptoNote Blocks Currency Db ChainState Redo BlockLaws NodeLaws Headers HeaderLaws Consensus BlockStore BlockStoreLaws BranchLaws ChainUpdate.

Local Open Scope Z_scope.

Module ChainLaws.

(** ** The consensus values of the tip can always be computed *)

Section tip.
Context {D : Type} `{LmdbLaws D} (currency : Currency).

(** The headers from [pi] down to, but without, the genesis block, at most [n]
    of them, and the header they end at. *)
Fixpoint ancestors (hs : gmap Hash api_BlockHeader) (n : nat) (pi : api_BlockHeader) : list api_BlockHeader * api_BlockHeader :=
  match n with
  | O => ([], pi)
  | S n =>
      if bh_height pi =? 0 then ([], pi)
      else
        let '(l, last) := ancestors hs n (default pi (hs !! bh_previous_block_hash pi)) in (pi :: l, last)
  end.
Definition segment (hs : gmap Hash api_BlockHeader) (prev : api_BlockHeader) (window : Height) (add_genesis : bool) :
    list api_BlockHeader :=
  if bh_height prev =? u32 (-1) then [] else
  let '(l, last) := ancestors hs (Z.to_nat window) prev in
  if (Z.of_nat (length l) <? window) && add_genesis then rev (l ++ [last]) else rev l.

Lemma tip_segment_ok hs main n b pi : chain_shows currency b hs main → hs !! bh_hash pi = Some pi →
  reads currency b hs main (tip_segment currency n b pi) (ancestors hs n pi) ∧
  ((length (ancestors hs n pi).1 < n)%nat → bh_height (ancestors hs n pi).2 = 0).
Proof.
  revert b pi. induction n as [|n IH]; intros b pi Hs Hpi.
  { split; [by apply reads_ret|cbn; lia]. }
  cbn [tip_segment ancestors]. destruct (Z.eqb_spec (bh_height pi) 0) as [Hz|Hnz].
  { split; [by apply reads_ret|done]. }
  pose proof (hd_tree _ _ _ (cs_headers _ _ _ _ Hs)) as Ht.
  destruct (tr_parent _ _ Ht _ _ Hpi Hnz) as (p & Hp & Hh).
  destruct (tr_ok _ _ Ht _ _ Hpi) as [_ Hok]. destruct (header_fields _ Hok) as (_ & H32 & _).
  destruct (tr_ok _ _ Ht _ _ Hp) as [Hph Hpok]. destruct (header_fields _ Hpok) as (_ & Hp32 & _).
  unfold in_u in H32, Hp32.
  pose proof (expect_header_ok currency b hs main (bh_previous_block_hash pi) (u32 (bh_height pi - 1)) p Hs Hp
    (u32_bound _)) as (c & He & Hs'). rewrite He, Hp. cbn [mbind result_bind]. change (default pi (Some p)) with p.
  destruct (IH (with_cache b c) p Hs' ltac:(by rewrite Hph)) as [(c' & Hr & Hs2) Hl]. rewrite Hr.
  destruct (ancestors hs n p) as [l last]. cbn in Hl |- *. split; [|intros ?; apply Hl; lia].
  exists c'. split; [done|exact Hs2].
Qed.

Lemma get_tip_segment_ok hs main b prev window add_genesis : chain_shows currency b hs main →
  hs !! bh_hash prev = Some prev → 0 ≤ window →
  reads currency b hs main (get_tip_segment currency b prev window add_genesis) (segment hs prev window add_genesis).
Proof.
  intros Hs Hp Hw. unfold get_tip_segment, segment. destruct (_ =? _); [by apply reads_ret|].
  destruct (tip_segment_ok hs main (Z.to_nat window) b prev Hs Hp) as [(c & Hr & Hs') Hl].
  rewrite Hr. destruct (ancestors hs _ prev) as [l last]. cbn [mbind result_bind fst snd] in *.
  destruct (Z.ltb_spec (Z.of_nat (length l)) window) as [Hlt|]; cbn [andb].
  - destruct add_genesis; [|by exists c]. rewrite Hl by lia. cbn. by exists c.
  - by exists c.
Qed.

(** Parameters of the windows that are not negative. *)
Definition counts_nonneg : Prop := 0 ≤ reward_blocks_window currency ∧
  ∀ x, 0 ≤ get_timestamp_check_window currency x ∧ 0 ≤ get_difficulty_blocks_count currency x.

Lemma calculate_consensus_values_ok hs main b prev : counts_nonneg → chain_shows currency b hs main →
  hs !! bh_hash prev = Some prev → ∃ m, reads currency b hs main (calculate_consensus_values currency b prev) m.
Proof.
  intros [Hr Ht] Hs Hp. unfold calculate_consensus_values.
  destruct (get_tip_segment_ok hs main b prev (reward_blocks_window currency) true Hs Hp Hr) as (c1 & -> & Hs1).
  cbn [mbind result_bind].
  destruct (get_tip_segment_ok hs main (with_cache b c1) prev
    (get_timestamp_check_window currency (u32 (m_tip_height (with_cache b c1) + 1))) false Hs1 Hp (proj1 (Ht _))) as (c2 & -> & Hs2).
  cbn [mbind result_bind]. eexists (_, _), c2. split; [reflexivity|exact Hs2].
Qed.

Lemma shows_with_medians b hs main t s : chain_shows currency b hs main → chain_shows currency (with_medians b t s) hs main.
Proof. intros [[] ]. by split. Qed.

Lemma tip_changed_ok hs main b : counts_nonneg → chain_shows currency b hs main → main ≠ [] →
  ∃ b', tip_changed currency b = Ok b' ∧ chain_shows currency b' hs main ∧ node b' = node b.
Proof.
  intros Hc Hs Hm. unfold tip_changed. destruct (last main) as [t|] eqn:Ht; [|by apply last_None in Ht].
  rewrite (get_tip_ok currency b hs main t Hs Ht). cbn [mbind result_bind].
  assert (hs !! bh_hash t = Some t) as Hin.
  { rewrite last_lookup in Ht. by apply (mn_height _ _ (cs_main _ _ _ _ Hs) _ _ Ht). }
  destruct (calculate_consensus_values_ok hs main b t Hc Hs Hin) as ([size time] & c & -> & Hs').
  cbn [mbind result_bind]. eexists. split; [done|]. split; [by apply shows_with_medians|done].
Qed.

Lemma push_tip_ok b hs main h : counts_nonneg → windows_ok (D := D) currency → chain_shows currency b hs main →
  hs !! bh_hash h = Some h → bh_height h = Z.of_nat (length main) →
  (∀ t, last main = Some t → bh_previous_block_hash h = bh_hash t) → Z.of_nat (length main) + 1 < 2 ^ 32 - 1 →
  ∃ b', push_tip currency b h = Ok b' ∧ chain_shows currency b' hs (main ++ [h]) ∧
    wrote_chain b (KChain (bh_height h)) (Some (bh_hash h)) b'.
Proof.
  intros Hc Hw Hs Hin Hh Hl Hlen.
  destruct (push_chain_ok currency b hs main h Hw Hs Hin Hh Hl Hlen) as (b1 & Hp & Hs1 & Hw1 & Hn1).
  unfold push_tip. rewrite Hp. cbn [mbind result_bind].
  destruct (tip_changed_ok hs (main ++ [h]) b1 Hc Hs1) as (b2 & -> & Hs2 & Hn2); [by destruct main|].
  exists b2. split_and!; [done|done|]. unfold wrote_chain, m_db in *. rewrite Hn2. by split.
Qed.

End tip.

(** ** The state of the whole node *)

(** A block with its raw form, its body and the hash of its coinbase. *)
Record entry := { e_block : Block; e_raw : RawBlock; e_data : BinaryArray; e_base : Hash }.

(** The hashes under which its transactions are indexed. *)
Definition tids (e : entry) : list Hash := e_base e :: transaction_hashes (block_header (e_block e)).
Definition tids_at (blocks : gmap Hash entry) (h : api_BlockHeader) : list Hash :=
  match blocks !! bh_hash h with Some e => tids e | None => [] end.
Definition main_tids (blocks : gmap Hash entry) (main : list api_BlockHeader) : list Hash :=
  concat (tids_at blocks <$> main).
Definition entry_effects (h : api_BlockHeader) (e : entry) : list effect := block_effects (bh_height h) (e_block e).

Lemma main_tids_app blocks main more : main_tids blocks (main ++ more) = main_tids blocks main ++ main_tids blocks more.
Proof. unfold main_tids. by rewrite fmap_app, concat_app. Qed.

Section node.
Context {D : Type} `{LmdbLaws D} (currency : Currency).
Context (cn_fast_hash : list Z → Hash) (check_ring_signature : RingSignatureArg → bool * bool).

(** The body of a block, and what ties it to its header. *)
Record entry_ok (hs : gmap Hash api_BlockHeader) (bid : Hash) (e : entry) : Prop := {
  en_coded : coded (e_block e) (e_raw e) (e_data e) (e_base e);
  en_base : get_transaction_hash cn_fast_hash (base_transaction (block_header (e_block e))) = Ok (e_base e);
  en_info : ∃ h, hs !! bid = Some h ∧ bh_timestamp h = Blocks.timestamp (header (block_header (e_block e))) ∧
    bh_previous_block_hash h = previous_block_hash (header (block_header (e_block e)));
}.

Record bodies_show (d : D) (hs : gmap Hash api_BlockHeader) (blocks : gmap Hash entry) : Prop := {
  bs_body bid : is_hash bid → at_key d (KBlock bid) = e_data <$> blocks !! bid;
  bs_entry bid e : blocks !! bid = Some e → entry_ok hs bid e;
}.

(** The indices name the blocks of the main chain and their transactions. *)
Record index_shows (d : D) (blocks : gmap Hash entry) (main : list api_BlockHeader) : Prop := {
  ix_indices bid : is_hash bid → is_Some (at_key d (KIndices bid)) ↔ bid ∈ bh_hash <$> main;
  ix_time t x : in_u 32 t → in_u 32 x → is_Some (at_key d (KTime t x)) ↔ bh_timestamp <$> main !! Z.to_nat x = Some t;
  ix_txs tid : is_hash tid → is_Some (at_key d (KTransaction tid)) ↔ tid ∈ main_tids blocks main;
  ix_found h e i tid tx : h ∈ main → blocks !! bh_hash h = Some e → tids e !! i = Some tid →
    block_txs (e_block e) !! i = Some tx →
    ∃ bin, to_binary ser_Transaction tx = Ok bin ∧ indexed d (e_data e) (bh_height h) (Z.of_nat i) tid bin;
  ix_once : NoDup (main_tids blocks main);
}.

(** [v] is the result of the blocks of the main chain, one after the other. *)
Inductive history (blocks : gmap Hash entry) : list api_BlockHeader → view → Prop :=
| history_nil : history blocks [] Store.empty_view
| history_snoc main v h e :
    history blocks main v → blocks !! bh_hash h = Some e → effects_ok v (entry_effects h e) →
    history blocks (main ++ [h]) (foldl v_effect v (entry_effects h e)).

Record node_ok (b : BlockChain D) (hs : gmap Hash api_BlockHeader) (blocks : gmap Hash entry)
    (main : list api_BlockHeader) (v : view) : Prop := {
  no_chain : chain_shows currency b hs main;
  no_state : node_shows (node b) v;
  no_bodies : bodies_show (m_db b) hs blocks;
  no_index : index_shows (m_db b) blocks main;
  no_history : history blocks main v;
}.

(** The block fits the state [v], and its signatures are right for it. *)
Record accepts (v : view) (h : api_BlockHeader) (e : entry) : Prop := {
  ac_fits : fits v (entry_effects h e);
  ac_counts : counts_ok (block_txs (e_block e));
  ac_signed (n : Node D) : node_shows n v →
    signed currency cn_fast_hash check_ring_signature n (e_block e) (bh_height h) (bh_timestamp h);
}.

Lemma bodies_show_same d d' hs blocks : (∀ bid, is_hash bid → at_key d' (KBlock bid) = at_key d (KBlock bid)) →
  bodies_show d hs blocks → bodies_show d' hs blocks.
Proof. intros Hk [Hb He]. split; [|done]. intros bid Hbid. rewrite Hk by done. by apply Hb. Qed.

Lemma history_blocks blocks main v h : history blocks main v → h ∈ main → is_Some (blocks !! bh_hash h).
Proof.
  induction 1 as [|main v h' e Hh IH He Hok]; intros Hin; [by apply elem_of_nil in Hin|].
  apply elem_of_app in Hin as [Hin|Heq%list_elem_of_singleton]; [by apply IH|]. subst h'. by exists e.
Qed.

Lemma history_last blocks main h v : history blocks (main ++ [h]) v →
  ∃ w e, history blocks main w ∧ blocks !! bh_hash h = Some e ∧ effects_ok w (entry_effects h e) ∧
    v = foldl v_effect w (entry_effects h e).
Proof.
  inversion 1 as [Heq|main' w h' e Hw He Hok Heq]; [by destruct main|].
  apply app_inj_tail in Heq as [-> ->]. by exists w, e.
Qed.

(** The hashes of the main chain are those of its heights. *)
Lemma main_hash_inj hs main h h' : main_ok hs main → h ∈ main → h' ∈ main → bh_hash h = bh_hash h' → h = h'.
Proof.
  intros Hm (i & Hi)%list_elem_of_lookup (j & Hj)%list_elem_of_lookup Heq.
  destruct (mn_height _ _ Hm _ _ Hi) as [_ Hin], (mn_height _ _ Hm _ _ Hj) as [_ Hjn]. congruence.
Qed.

Lemma main_fresh hs main info : main_ok hs main → hs !! bh_hash info = Some info →
  bh_height info = Z.of_nat (length main) → bh_hash info ∉ bh_hash <$> main.
Proof.
  intros Hm Hin Hh (h & Heq & (i & Hi)%list_elem_of_lookup)%list_elem_of_fmap.
  destruct (mn_height _ _ Hm _ _ Hi) as [Hhi Hin']. rewrite <- Heq, Hin in Hin'. injection Hin' as ->.
  apply lookup_lt_Some in Hi. lia.
Qed.

Lemma indexed_same (d d' : D) data x i tid bin : at_key d' (KTransaction tid) = at_key d (KTransaction tid) →
  indexed d data x i tid bin → indexed d' data x i tid bin.
Proof. intros Heq (tpos & ba & Hba & Hat & Hrest). exists tpos, ba. by rewrite Heq. Qed.

Lemma entry_hashes hs blocks d bid e : bodies_show d hs blocks → blocks !! bid = Some e → Forall is_hash (tids e).
Proof. intros Hb He. apply (cd_tids _ _ _ _ (en_coded _ _ _ (bs_entry _ _ _ Hb _ _ He))). Qed.

Lemma elem_of_main_tids blocks main h e tid : h ∈ main → blocks !! bh_hash h = Some e → tid ∈ tids e →
  tid ∈ main_tids blocks main.
Proof.
  intros Hin He Ht. unfold main_tids. apply elem_of_concat. exists (tids e). split; [|done].
  apply list_elem_of_fmap. exists h. split; [|done]. unfold tids_at. by rewrite He.
Qed.

(** The indices after a block was redone, or undone, on top of [main]. *)
Lemma index_push d d' hs blocks main h e : bodies_show d hs blocks → index_shows d blocks main →
  blocks !! bh_hash h = Some e → bh_height h = Z.of_nat (length main) → is_hash (bh_hash h) →
  in_u 32 (bh_timestamp h) → in_u 32 (bh_height h) → (∀ tid, tid ∈ tids e → tid ∉ main_tids blocks main) →
  let keys := block_keys (bh_hash h) (e_block e) (bh_timestamp h) (bh_height h) (e_base e) in
  (∀ k, ckey_ok k → k ∉ keys → ¬ chain_key k → at_key d' k = at_key d k) →
  is_Some (at_key d' (KIndices (bh_hash h))) → is_Some (at_key d' (KTime (bh_timestamp h) (bh_height h))) →
  (∀ i tid tx, tids e !! i = Some tid → block_txs (e_block e) !! i = Some tx →
    ∃ bin, to_binary ser_Transaction tx = Ok bin ∧ indexed d' (e_data e) (bh_height h) (Z.of_nat i) tid bin) →
  index_shows d' blocks (main ++ [h]).
Proof.
  intros Hbs [Hi Ht Htx Hf Ho] He Hh Hb Ht32 Hh32 Hfresh keys Hsame Hsi Hst Hsx.
  pose proof (entry_hashes _ _ _ _ _ Hbs He) as Htids. pose proof (bs_entry _ _ _ Hbs _ _ He) as Hen.
  assert (main_tids blocks (main ++ [h]) = main_tids blocks main ++ tids e) as Hmt.
  { rewrite main_tids_app. f_equal. unfold main_tids, tids_at. cbn. by rewrite He, app_nil_r. }
  assert (∀ k, k ∈ keys ↔ k = KIndices (bh_hash h) ∨ k = KTime (bh_timestamp h) (bh_height h) ∨ k ∈ KTransaction <$> tids e) as Hkeys.
  { intros k. unfold keys, block_keys. by rewrite !elem_of_cons. }
  assert (∀ tid, KTransaction tid ∈ KTransaction <$> tids e ↔ tid ∈ tids e) as Hin.
  { intros tid. rewrite list_elem_of_fmap. split; [intros (? & [= <-] & ?); done|by exists tid]. }
  split.
  - intros bid Hbid. rewrite fmap_app, elem_of_app, <- Hi by done. cbn. rewrite list_elem_of_singleton.
    destruct (decide (bid = bh_hash h)) as [->|Hne]; [split; [by right|done]|].
    rewrite Hsame; [naive_solver|done| |by intros []]. rewrite Hkeys. intros [[=]|[[=]|(? & [=] & _)%list_elem_of_fmap]]; done.
  - intros t x Ht' Hx. destruct (decide (KTime t x = KTime (bh_timestamp h) (bh_height h))) as [[= -> ->]|Hne].
    + split; [|done]. intros _. rewrite Hh, Nat2Z.id, lookup_app_r, Nat.sub_diag; done.
    + rewrite Hsame; [|done| |by intros []].
      * rewrite Ht by done. destruct (decide (Z.to_nat x < length main)%nat); [by rewrite lookup_app_l|].
        rewrite (lookup_ge_None_2 main) by lia. cbn. split; [done|]. unfold in_u in Hx.
        destruct (decide (Z.to_nat x = length main)) as [Heq|].
        -- rewrite lookup_app_r, Heq, Nat.sub_diag by lia. intros [= <-]. destruct Hne. f_equal. lia.
        -- rewrite lookup_ge_None_2; [done|]. rewrite length_app. cbn. lia.
      * rewrite Hkeys. intros [[=]|[Heq|(? & [=] & _)%list_elem_of_fmap]]; done.
  - intros tid Htid. rewrite Hmt, elem_of_app, <- Htx by done. destruct (decide (tid ∈ tids e)) as [Hint|Hn].
    + split; [by right|]. intros _. apply list_elem_of_lookup in Hint as (i & Hi').
      destruct (lookup_lt_is_Some_2 (block_txs (e_block e)) i) as (tx & Htxi).
      { apply lookup_lt_Some in Hi'. unfold tids, block_txs in *. cbn [length] in *.
        by rewrite <- (cd_count _ _ _ _ (en_coded _ _ _ Hen)). }
      destruct (Hsx i tid tx Hi' Htxi) as (bin & _ & (tpos & ba & _ & -> & _)). by exists ba.
    + rewrite Hsame; [naive_solver|done| |by intros []]. rewrite Hkeys, Hin. intros [[=]|[[=]|]]; done.
  - intros h' e' i tid tx [Hin'|Heq%list_elem_of_singleton]%elem_of_app He' Hti Htxi; [|subst h'; rewrite He in He'; injection He' as <-; by apply Hsx].
    destruct (Hf h' e' i tid tx Hin' He' Hti Htxi) as (bin & Hbin & Hx). exists bin. split; [done|].
    eapply indexed_same; [|exact Hx]. apply list_elem_of_lookup_2 in Hti as Hte. apply Hsame; [| |by intros []].
    + pose proof (entry_hashes _ _ _ _ _ Hbs He') as Hall. rewrite Forall_forall in Hall. by apply Hall.
    + rewrite Hkeys, Hin. intros [[=]|[[=]|Hint]]. apply (Hfresh tid Hint). by eapply elem_of_main_tids.
  - rewrite Hmt. apply NoDup_app. split_and!; [done| |apply (cd_distinct _ _ _ _ (en_coded _ _ _ Hen))].
    intros tid Hin' Hint. by apply (Hfresh tid Hint).
Qed.

Lemma accepted_ready b hs blocks main v h e : node_ok b hs blocks main v → hs !! bh_hash h = Some h →
  blocks !! bh_hash h = Some e → bh_height h = Z.of_nat (length main) → accepts v h e →
  (∀ tid, tid ∈ tids e → tid ∉ main_tids blocks main) →
  ready currency cn_fast_hash check_ring_signature b v (bh_hash h) (e_block e) h (e_base e).
Proof.
  intros [Hs Hn Hbs Hix _] Hin He Hh [Hf Hc Hsig] Hfresh.
  pose proof (hd_tree _ _ _ (cs_headers _ _ _ _ Hs)) as Ht. pose proof (main_fresh _ _ _ (cs_main _ _ _ _ Hs) Hin Hh) as Hnew.
  destruct (tr_ok _ _ Ht _ _ Hin) as [_ Hok]. destruct (header_fields _ Hok) as (_ & Hh32 & Hb & _).
  assert (in_u 32 (bh_timestamp h)) as Ht32 by (by destruct Hok as (_ & _ & ? & _)).
  split; try done; [apply (hd_room _ _ _ (cs_headers _ _ _ _ Hs))|by apply Hsig|].
  assert (∀ k P, (is_Some (at_key (m_db b) k) ↔ P) → ¬ P → at_key (m_db b) k = None) as Hnone.
  { intros k P HP Hn'. apply eq_None_not_Some. by rewrite HP. }
  unfold block_keys. constructor; [|constructor].
  - eapply Hnone; [by apply (ix_indices _ _ _ Hix)|done].
  - eapply Hnone; [by apply (ix_time _ _ _ Hix)|]. rewrite lookup_ge_None_2; [done|lia].
  - apply Forall_fmap, Forall_forall. intros tid Htid. eapply Hnone; [apply (ix_txs _ _ _ Hix)|by apply Hfresh].
    pose proof (entry_hashes _ _ _ _ _ Hbs He) as Hall. rewrite Forall_forall in Hall. by apply Hall.
Qed.

(** Redoing and undoing take transactions out of the pool, and put none in. *)
Lemma index_transactions_pool n (b b' : BlockChain D) data raws hashes tpos :
  index_transactions n b data raws hashes tpos = Ok b' → pool (node b') = pool (node b).
Proof.
  revert b raws hashes tpos. induction n as [|n IH]; intros b raws hashes tpos Hi; [by injection Hi as <-|].
  cbn [index_transactions] in Hi. destruct hashes as [|tid hashes], raws as [|raw raws]; try done. inv_ok Hi. destruct a. inv_ok Hi.
  apply IH in Hi. rewrite Hi. unfold put_position in Ha0. inv_ok Ha0. inv_ok Ha0. by injection Ha0 as <-.
Qed.

Lemma unindex_transactions_pool n (b b' : BlockChain D) hashes :
  unindex_transactions n b hashes = Ok b' → pool (node b') = pool (node b).
Proof.
  revert b hashes. induction n as [|n IH]; intros b hashes Hi; [by injection Hi as <-|].
  cbn [unindex_transactions] in Hi. destruct hashes as [|tid hashes]; [done|]. inv_ok Hi. by apply IH in Hi.
Qed.

Lemma redo_sub (b b' : BlockChain D) bid data raw blk info base :
  redo_block currency cn_fast_hash check_ring_signature b bid data raw blk info base = Ok (Some b') → pool_sub (node b) (node b').
Proof.
  unfold redo_block. intros Hr. inv_ok Hr. destruct a as [n|]; [|done]. apply redo_block_sub in Ha.
  inv_ok Hr. inv_ok Hr. inv_ok Hr. destruct a1. inv_ok Hr. inv_ok Hr. injection Hr as <-. unfold pool_sub in *.
  apply index_transactions_pool in Ha4. rewrite Ha4. unfold put_position in Ha3. inv_ok Ha3. inv_ok Ha3. by injection Ha3 as <-.
Qed.

Lemma undo_sub (b b' : BlockChain D) bid blk height :
  undo_block cn_fast_hash b bid blk height = Ok b' → pool_sub (node b) (node b').
Proof.
  unfold undo_block. intros Hu. inv_ok Hu. apply undo_block_sub in Ha. inv_ok Hu. inv_ok Hu. inv_ok Hu.
  apply unindex_transactions_pool in Hu. unfold pool_sub in *. by rewrite Hu.
Qed.

(** A block that the state accepts can be put on top of the main chain. *)
Lemma redo_push_ok b hs blocks main v h e : counts_nonneg currency → windows_ok (D := D) currency →
  node_ok b hs blocks main v → hs !! bh_hash h = Some h → blocks !! bh_hash h = Some e →
  bh_height h = Z.of_nat (length main) → (∀ t, last main = Some t → bh_previous_block_hash h = bh_hash t) →
  Z.of_nat (length main) + 1 < 2 ^ 32 - 1 → accepts v h e → (∀ tid, tid ∈ tids e → tid ∉ main_tids blocks main) →
  ∃ b1 b2, redo_block currency cn_fast_hash check_ring_signature b (bh_hash h) (e_data e) (e_raw e) (e_block e) h (e_base e)
      = Ok (Some b1) ∧
    push_tip currency b1 h = Ok b2 ∧ node_ok b2 hs blocks (main ++ [h]) (foldl v_effect v (entry_effects h e)) ∧
    kept_but (KChain (bh_height h) :: block_keys (bh_hash h) (e_block e) (bh_timestamp h) (bh_height h) (e_base e))
      (m_db b) (m_db b2) ∧ pool_sub (node b) (node b2).
Proof.
  intros Hcn Hwo Hno Hin He Hh Hl Hlen Hac Hfresh.
  pose proof (accepted_ready _ _ _ _ _ _ _ Hno Hin He Hh Hac Hfresh) as Hready.
  destruct Hno as [Hs Hn Hbs Hix Hhist]. pose proof (bs_entry _ _ _ Hbs _ _ He) as Hen.
  destruct (redo_block_indexed currency cn_fast_hash check_ring_signature b v (bh_hash h) _ _ _ h _ (en_coded _ _ _ Hen) Hready)
    as (b1 & Hredo & Hb1 & Hroom1 & Hn1 & Hkept1 & Hki1 & Hkt1 & Hx1).
  pose proof (block_keys_ok (bh_hash h) (e_block e) (bh_timestamp h) (bh_height h) (e_base e) _ _ (rd_bid _ _ _ _ _ _ _ _ _ Hready)
    (rd_time _ _ _ _ _ _ _ _ _ Hready) (rd_height _ _ _ _ _ _ _ _ _ Hready) (en_coded _ _ _ Hen)) as Hkeys.
  set (keys := block_keys (bh_hash h) (e_block e) (bh_timestamp h) (bh_height h) (e_base e)) in *.
  assert (∀ k, ckey_ok k → k ∉ keys → at_key (m_db b1) k = at_key (m_db b) k) as Hk1 by (intros k Hk Hkn; by eapply kept_at).
  assert (∀ k, chain_key k ∨ (∃ bid, k = KBlock bid) → k ∉ keys) as Hother.
  { intros k Hk Hkin. unfold keys, block_keys in Hkin. rewrite !elem_of_cons, list_elem_of_fmap in Hkin.
    destruct Hkin as [->|[->|(? & -> & _)]]; by destruct Hk as [[]|[? [=]]]. }
  assert (chain_shows currency b1 hs main) as Hs1.
  { rewrite Hb1. apply shows_frame; [done|done|]. intros k Hk Hc. apply Hk1; [done|]. apply Hother. by left. }
  destruct (push_tip_ok currency b1 hs main h Hcn Hwo Hs1 Hin Hh Hl Hlen) as (b2 & Hp2 & Hs2 & Hw2 & Hnode2).
  destruct Hready as [_ _ Hh32 Ht32 Hbid _ _ _ _].
  assert (∀ k, ckey_ok k → ¬ chain_key k → at_key (m_db b2) k = at_key (m_db b1) k) as Hk2.
  { intros k Hk Hc. apply (wrote_same _ _ _ _ k Hw2); [done|done|]. by intros <-. }
  assert (∀ k, ckey_ok k → k ∉ keys → ¬ chain_key k → at_key (m_db b2) k = at_key (m_db b) k) as Hk.
  { intros k Hk Hkn Hc. rewrite Hk2 by done. by apply Hk1. }
  exists b1, b2. split_and!; [done|done| | |].
  3: { apply redo_sub in Hredo. unfold pool_sub. by rewrite Hnode2. }
  2: { intros k Ho Hkn. cbn [fmap list_fmap] in Hkn. apply not_elem_of_cons in Hkn as [Hkc Hkn].
       destruct Hw2 as (_ & _ & Hw2). rewrite Hw2 by done. by apply Hkept1. }
  split.
  - done.
  - rewrite Hnode2. apply (node_shows_but [KChain (bh_height h)] (node b1)); [done|by eapply wrote_but|by apply Forall_singleton].
  - eapply bodies_show_same; [|exact Hbs]. intros bid Hb. apply Hk; [done|apply Hother; by right; eexists|by intros []].
  - eapply (index_push (m_db b) _ hs); [done..| | |].
    + rewrite Hk2; [done|done|by intros []].
    + rewrite Hk2; [by rewrite Hkt1|done|by intros []].
    + intros i tid tx Hti Htx. destruct (Hx1 i tid tx Hti Htx) as (bin & Hbin & Hx). exists bin. split; [done|].
      eapply indexed_same; [|exact Hx]. apply Hk2; [|by intros []]. apply list_elem_of_lookup_2 in Hti.
      pose proof (entry_hashes _ _ _ _ _ Hbs He) as Hall. rewrite Forall_forall in Hall. by apply Hall.
  - econstructor; [done|done|]. apply fits_effects_ok, Hac.
Qed.

Lemma index_pop d d' hs blocks main h e : bodies_show d hs blocks → main_ok hs (main ++ [h]) →
  index_shows d blocks (main ++ [h]) → blocks !! bh_hash h = Some e →
  let keys := block_keys (bh_hash h) (e_block e) (bh_timestamp h) (bh_height h) (e_base e) in
  (∀ k, ckey_ok k → ¬ chain_key k → at_key d' k = if decide (k ∈ keys) then None else at_key d k) →
  index_shows d' blocks main.
Proof.
  intros Hbs Hm [Hi Ht Htx Hf Ho] He keys Hk.
  destruct (mn_height _ _ Hm (length main) h) as [Hh Hin]; [by rewrite lookup_app_r, Nat.sub_diag|].
  pose proof (main_fresh _ _ _ (main_ok_app _ _ _ Hm) Hin Hh) as Hnew.
  assert (main_tids blocks (main ++ [h]) = main_tids blocks main ++ tids e) as Hmt.
  { rewrite main_tids_app. f_equal. unfold main_tids, tids_at. cbn. by rewrite He, app_nil_r. }
  rewrite Hmt in Ho. apply NoDup_app in Ho as (Ho & Hfresh & _).
  assert (∀ k, k ∈ keys ↔ k = KIndices (bh_hash h) ∨ k = KTime (bh_timestamp h) (bh_height h) ∨ k ∈ KTransaction <$> tids e) as Hkeys.
  { intros k. unfold keys, block_keys. by rewrite !elem_of_cons. }
  assert (∀ tid, KTransaction tid ∈ keys ↔ tid ∈ tids e) as Hint.
  { intros tid. rewrite Hkeys, list_elem_of_fmap. split; [|by right; right; exists tid]. by intros [[=]|[[=]|(? & [= <-] & ?)]]. }
  split; [| | | |done].
  - intros bid Hbid. rewrite Hk by (done || by intros []). case_decide as Hd.
    + split; [by intros []|]. intros Hbm. exfalso. rewrite Hkeys in Hd.
      destruct Hd as [[= ->]|[[=]|(? & [=] & _)%list_elem_of_fmap]]. done.
    + rewrite Hi, fmap_app, elem_of_app by done. cbn. rewrite list_elem_of_singleton. split; [|by left].
      intros [|Hbh]; [done|]. destruct Hd. rewrite Hkeys. left. by rewrite Hbh.
  - intros t x Ht' Hx. rewrite Hk by (done || by intros []). case_decide as Hd.
    + split; [by intros []|]. intros Hbm. exfalso. rewrite Hkeys in Hd.
      destruct Hd as [[=]|[[= -> ->]|(? & [=] & _)%list_elem_of_fmap]].
      rewrite Hh, Nat2Z.id, lookup_ge_None_2 in Hbm; done.
    + rewrite Ht by done. unfold in_u in Hx. destruct (decide (Z.to_nat x < length main)%nat); [by rewrite lookup_app_l|].
      rewrite (lookup_ge_None_2 main) by lia. cbn. split; [|done]. destruct (decide (Z.to_nat x = length main)) as [Heq|].
      * rewrite lookup_app_r, Heq, Nat.sub_diag by lia. intros [= <-]. destruct Hd. rewrite Hkeys. right. left.
        f_equal. lia.
      * rewrite lookup_ge_None_2; [done|]. rewrite length_app. cbn. lia.
  - intros tid Htid. rewrite Hk by (done || by intros []). case_decide as Hd.
    + split; [by intros []|]. intros Hbm. exfalso. apply Hint in Hd. by apply (Hfresh tid Hbm).
    + rewrite Htx, Hmt, elem_of_app by done. split; [|by left]. intros [|Hte]; [done|]. destruct Hd. by apply Hint.
  - intros h' e' i tid tx Hin' He' Hti Htxi.
    destruct (Hf h' e' i tid tx) as (bin & Hbin & Hx); [by apply elem_of_app; left|done..|]. exists bin. split; [done|].
    eapply indexed_same; [|exact Hx]. apply list_elem_of_lookup_2 in Hti.
    pose proof (entry_hashes _ _ _ _ _ Hbs He') as Hall. rewrite Forall_forall in Hall.
    rewrite Hk by (by apply Hall || by intros []). rewrite decide_False; [done|]. intros Hd%Hint.
    apply (Hfresh tid); [by eapply elem_of_main_tids|done].
Qed.

(** The top block can be taken off again. *)
Lemma undo_pop_ok b hs blocks main p t w : counts_nonneg currency →
  node_ok b hs blocks (main ++ [t]) w → last main = Some p →
  ∃ e v b1 b2 b3, blocks !! bh_hash t = Some e ∧ m_tip_bid b = bh_hash t ∧ m_tip_height b = bh_height t ∧
    previous_block_hash (header (block_header (e_block e))) = bh_hash p ∧
    undo_block cn_fast_hash b (bh_hash t) (e_block e) (bh_height t) = Ok b1 ∧
    pop_chain currency b1 (bh_hash p) = Ok b2 ∧ tip_changed currency b2 = Ok b3 ∧
    node_ok b3 hs blocks main v ∧ w = foldl v_effect v (entry_effects t e) ∧
    pool_sub (node b) (node b3) ∧
    kept_but (KChain (bh_height t) :: block_keys (bh_hash t) (e_block e) (bh_timestamp t) (bh_height t) (e_base e))
      (m_db b) (m_db b3).
Proof.
  intros Hcn [Hs Hn Hbs Hix Hhist] Hp. pose proof (cs_main _ _ _ _ Hs) as Hm.
  apply history_last in Hhist as (v & e & Hhv & He & Hok & ->). pose proof (bs_entry _ _ _ Hbs _ _ He) as Hen.
  destruct (mn_height _ _ Hm (length main) t) as [Hh Hin]; [by rewrite lookup_app_r, Nat.sub_diag|].
  pose proof (hd_tree _ _ _ (cs_headers _ _ _ _ Hs)) as Ht.
  destruct (tr_ok _ _ Ht _ _ Hin) as [_ Hok']. destruct (header_fields _ Hok') as (_ & Hh32 & Hb & _).
  assert (in_u 32 (bh_timestamp t)) as Ht32 by (by destruct Hok' as (_ & _ & ? & _)).
  destruct (en_info _ _ _ Hen) as (t' & Hin' & Htime & Hprev). rewrite Hin in Hin'. injection Hin' as <-.
  assert (bh_previous_block_hash t = bh_hash p) as Hlink.
  { apply (mn_link _ _ Hm (length main - 1)).
    - rewrite lookup_app_l; [by rewrite <- last_lookup_length|]. destruct main; [done|cbn; lia].
    - replace (S (length main - 1)) with (length main) by (destruct main; [done|cbn; lia]). by rewrite lookup_app_r, Nat.sub_diag. }
  pose proof (cs_tip _ _ _ _ Hs) as Htip. rewrite last_snoc in Htip. destruct Htip as [Htip _].
  pose proof (tip_height_ok currency b hs _ Hs) as Hth. rewrite length_app in Hth. cbn in Hth.
  assert (m_tip_height b = bh_height t) as Htb by (rewrite Hth; [lia|by destruct main]).
  set (keys := block_keys (bh_hash t) (e_block e) (bh_timestamp t) (bh_height t) (e_base e)).
  assert (Forall (λ k, is_Some (at_key (m_db b) k)) keys) as Hkeys.
  { unfold keys, block_keys. constructor; [|constructor].
    - apply (ix_indices _ _ _ Hix); [done|]. rewrite fmap_app. apply elem_of_app. right. by left.
    - apply (ix_time _ _ _ Hix); [done..|]. by rewrite Hh, Nat2Z.id, lookup_app_r, Nat.sub_diag.
    - apply Forall_fmap, Forall_forall. intros tid Htid. pose proof (entry_hashes _ _ _ _ _ Hbs He) as Hall.
      rewrite Forall_forall in Hall. apply (ix_txs _ _ _ Hix); [by apply Hall|].
      eapply elem_of_main_tids; [apply elem_of_app; right; by left|done|done]. }
  unfold keys in Hkeys. rewrite Htime in Hkeys, Ht32.
  destruct (undo_block_unindexed cn_fast_hash b v (bh_hash t) (e_block e) (e_raw e) (e_data e) (bh_height t) (e_base e)
    (en_coded _ _ _ Hen) (hd_room _ _ _ (cs_headers _ _ _ _ Hs)) Hb Ht32 Hh32 Hn Hok (en_base _ _ _ Hen) Hkeys)
    as (b1 & Hu & Hb1 & Hroom1 & Hn1 & Hkept1 & Hk1). rewrite <- Htime in Hk1, Hkept1. fold keys in Hk1, Hkept1.
  assert (∀ k, chain_key k ∨ (∃ bid, k = KBlock bid) → k ∉ keys) as Hother.
  { intros k Hk Hkin. unfold keys, block_keys in Hkin. rewrite !elem_of_cons, list_elem_of_fmap in Hkin.
    destruct Hkin as [->|[->|(? & -> & _)]]; by destruct Hk as [[]|[? [=]]]. }
  assert (chain_shows currency b1 hs (main ++ [t])) as Hs1.
  { rewrite Hb1. apply shows_frame; [done|done|]. intros k Hk Hc. rewrite Hk1 by done. rewrite decide_False; [done|].
    apply Hother. by left. }
  destruct (pop_chain_ok currency b1 hs main p t Hs1 Hp) as (b2 & Hp2 & Hs2 & Hw2 & Hnode2).
  destruct (tip_changed_ok currency hs main b2 Hcn Hs2) as (b3 & Ht3 & Hs3 & Hnode3); [by intros ->|].
  assert (m_db b3 = m_db b2) as Hdb by (unfold m_db; by rewrite Hnode3).
  assert (∀ k, ckey_ok k → ¬ chain_key k → at_key (m_db b3) k = if decide (k ∈ keys) then None else at_key (m_db b) k) as Hk3.
  { intros k Hk Hc. rewrite Hdb, (wrote_same _ _ _ _ k Hw2) by (done || by intros <-). by apply Hk1. }
  exists e, v, b1, b2, b3. split_and!; [done|done|done|by rewrite <- Hprev|done|done|done| |done| |].
  - split; [done| | | |done].
    + rewrite Hnode3, Hnode2. apply (node_shows_but [KChain (bh_height t)] (node b1)); [done|by eapply wrote_but|by apply Forall_singleton].
    + eapply bodies_show_same; [|exact Hbs]. intros bid Hbid. rewrite Hk3 by (done || by intros []). rewrite decide_False; [done|].
      apply Hother. right. by eexists.
    + by eapply (index_pop (m_db b)).
  - apply undo_sub in Hu. unfold pool_sub. by rewrite Hnode3, Hnode2.
  - intros k Ho Hkn. cbn [fmap list_fmap] in Hkn. apply not_elem_of_cons in Hkn as [Hkc Hkn].
    destruct Hw2 as (_ & _ & Hw2). rewrite Hdb, Hw2 by done. by apply Hkept1.
Qed.

(** The index of the tips is left alone by both. *)
Lemma tips_show_blocks (d d' : D) hs blocks bid e time height x : tips_show d hs → bodies_show d hs blocks → blocks !! bid = Some e →
  is_hash bid → in_u 32 time → in_u 32 height → in_u 32 x →
  kept_but (KChain x :: block_keys bid (e_block e) time height (e_base e)) d d' → tips_show d' hs.
Proof.
  intros Hts Hbs He Hb Ht Hh Hx Hk. pose proof (en_coded _ _ _ (bs_entry _ _ _ Hbs _ _ He)) as Hc.
  eapply tips_show_kept; [exact Hts|exact Hk|apply Forall_cons; split; [done|by eapply block_keys_ok]|].
  apply Forall_cons. split; [by intros []|]. unfold block_keys. apply Forall_cons. split; [by intros []|].
  apply Forall_cons. split; [by intros []|]. apply Forall_fmap, Forall_forall. by intros tid _ [].
Qed.

(** ** Paths and the main chain *)

Lemma main_path_split hs main top l common hc : main_ok hs main → (∃ t, last main = Some t ∧ bh_hash t = top) →
  path hs top l common → hs !! common = Some hc → 0 ≤ bh_height hc →
  (∀ bid, bid ∈ l → ∃ y, hs !! bid = Some y ∧ bh_height hc < bh_height y) →
  ∃ pre upper, main = pre ++ upper ∧ l = rev (bh_hash <$> upper) ∧ last pre = Some hc.
Proof.
  intros Hm Htop Hp Hc H0'. revert main Hm Htop. induction Hp as [bid|bid h l bottom Hh Hp IH]; intros main Hm (t & Ht & Hb) Hl.
  - exists main, []. rewrite app_nil_r. split_and!; [done|done|]. rewrite Ht. f_equal.
    rewrite last_lookup in Ht. apply (mn_height _ _ Hm) in Ht as [_ Ht]. rewrite Hb in Ht. congruence.
  - destruct (Hl bid) as (y & Hy & Hlt); [by left|]. rewrite Hh in Hy. injection Hy as <-.
    apply last_Some in Ht as [main' ->].
    destruct (mn_height _ _ Hm (length main') t) as [Hht Hint]; [by rewrite lookup_app_r, Nat.sub_diag|].
    rewrite Hb, Hh in Hint. injection Hint as ->.
    destruct (last main') as [p|] eqn:Hlast; [|apply last_None in Hlast as ->; cbn in Hht; lia].
    assert (bh_previous_block_hash t = bh_hash p) as Hlink.
    { rewrite last_lookup in Hlast. apply (mn_link _ _ Hm (pred (length main'))).
      - rewrite lookup_app_l; [done|]. by apply lookup_lt_Some in Hlast.
      - apply lookup_lt_Some in Hlast. replace (S (pred (length main'))) with (length main') by lia.
        by rewrite lookup_app_r, Nat.sub_diag. }
    destruct (IH Hc main') as (pre & upper & -> & -> & Hpre).
    + by eapply main_ok_app.
    + exists p. by rewrite Hlink.
    + intros bid' Hin. apply Hl. by right.
    + exists pre, (upper ++ [t]). rewrite app_assoc. split_and!; [done| |done].
      rewrite fmap_app, rev_app_distr. cbn. by rewrite Hb.
Qed.

Lemma path_branch hs top l common hc pre : tree_ok (genesis currency) hs → path hs top l common →
  hs !! common = Some hc → (∀ bid, bid ∈ l → ∃ y, hs !! bid = Some y ∧ bh_height hc < bh_height y < 2 ^ 32 - 2) →
  0 ≤ bh_height hc → main_ok hs pre → last pre = Some hc →
  ∃ branch, rev l = bh_hash <$> branch ∧ main_ok hs (pre ++ branch) ∧
    ∃ t, last (pre ++ branch) = Some t ∧ bh_hash t = top ∧ hs !! top = Some t.
Proof.
  intros Ht Hp Hc. induction Hp as [bid|bid h l bottom Hh Hp IH]; intros Hl H0' Hm Hpre.
  - exists []. rewrite app_nil_r. split_and!; [done|done|]. exists hc. split_and!; [done| |done].
    by apply (tr_ok _ _ Ht).
  - destruct (Hl bid) as (y & Hy & Hlt); [by left|]. rewrite Hh in Hy. injection Hy as <-.
    destruct (IH Hc) as (branch & Hrev & Hm' & t & Hlast & Hth & Htin); [|done..|].
    { intros bid' Hin. apply Hl. by right. }
    destruct (tr_parent _ _ Ht _ _ Hh) as (p & Hpin & Hhp); [lia|]. rewrite Htin in Hpin. injection Hpin as <-.
    destruct (tr_ok _ _ Ht _ _ Hh) as [Hhb _].
    assert (bh_height t = Z.of_nat (length (pre ++ branch)) - 1) as Htl.
    { rewrite last_lookup in Hlast. pose proof (lookup_lt_Some _ _ _ Hlast). apply (mn_height _ _ Hm') in Hlast as [-> _]. lia. }
    exists (branch ++ [h]). cbn [rev]. rewrite Hrev, fmap_app, app_assoc. split_and!; [by cbn; rewrite Hhb| |].
    + apply main_ok_snoc; [done|by rewrite Hhb|lia| |lia]. intros t' Ht'. congruence.
    + exists h. by rewrite last_snoc.
Qed.

(** ** Reading blocks back *)

Lemma put_items_bytes_fit raws bs : put_items c_bytes raws = Ok bs → Forall (λ raw, (length raw ≤ length bs)%nat) raws.
Proof.
  revert bs. induction raws as [|raw raws IH]; intros bs Hp; [done|].
  cbn [put_items] in Hp. inv_ok Hp. injection Hp as <-.
  cbn [c_bytes c_put] in Ha. inv_ok Ha. injection Ha as <-. rewrite !length_app.
  constructor; [lia|]. eapply Forall_impl; [by apply IH|]. cbn. lia.
Qed.

Lemma coded_raw_ok blk raw data base : coded blk raw data base → c_ok ser_RawBlock raw.
Proof.
  intros Hc. destruct (coded_binaries _ _ _ _ Hc) as (cb & _ & _ & Hne & Hord).
  pose proof (ordered_length _ _ Hne Hord) as Hn. cbn [length] in Hn.
  destruct Hc as [Ht Htxs Hraw Hdata Hsize _ _ _]. unfold to_raw_block in Hraw.
  destruct (put_total (c := ser_BlockTemplate) _ Ht) as (ba & Hba & Hbytes). unfold to_binary in Hraw. rewrite Hba in Hraw.
  cbn [mbind result_bind] in Hraw.
  destruct (transactions_to_binary _) as [raws| |] eqn:Hraws; [|done..]. injection Hraw as <-.
  unfold to_binary, ser_RawBlock in Hdata. cbn [c_iso c_put raw_block raw_transactions] in Hdata.
  cbn [c_seq c_put fst snd] in Hdata. inv_ok Hdata. injection Hdata as <-.
  cbn [c_bytes c_put] in Ha. inv_ok Ha. injection Ha as <-. cbn [c_vector c_put] in Ha0. inv_ok Ha0. injection Ha0 as <-.
  pose proof (put_items_bytes_fit _ _ Ha2) as Hfit. cbn [raw_transactions] in Hn. rewrite !length_app in Hsize, Hn.
  assert (Forall bytes raws) as Hrb.
  { apply transactions_to_binary_inv in Hraws. clear -Hraws Htxs. induction Hraws as [|tx r txs rs Hp _ IH]; [by constructor|].
    apply Forall_cons in Htxs as [Htx Htxs]. constructor; [|by apply IH].
    destruct (put_total (c := ser_Transaction) tx Htx) as (r' & Hr' & ?). unfold to_binary in Hp. congruence. }
  split; cbn [fst snd raw_block raw_transactions]; unfold in_u.
  - split; [done|]. unfold in_u. lia.
  - split; [unfold in_u; lia|]. rewrite Forall_forall in Hfit, Hrb |- *. intros r Hr. split; [by apply Hrb|].
    pose proof (Hfit r Hr). unfold in_u. lia.
Qed.

Context (partial_header : BinaryArray → BlockTemplate).

Lemma read_block_ok (b : BlockChain D) hs blocks bid e : bodies_show (m_db b) hs blocks → is_hash bid →
  blocks !! bid = Some e →
  read_block b bid = Ok (Some (e_data e, e_raw e)) ∧ from_raw_block partial_header (e_raw e) = (true, e_block e).
Proof.
  intros Hbs Hb He. pose proof (en_coded _ _ _ (bs_entry _ _ _ Hbs _ _ He)) as Hc. split.
  - unfold read_block, read_block_data. pose proof (bs_body _ _ _ Hbs bid Hb) as Hat. unfold at_key in Hat. cbn [key_of] in Hat.
    rewrite Hat, He. cbn [fmap option_fmap option_map].
    destruct (from_to_binary ser_RawBlock (e_raw e) (coded_raw_ok _ _ _ _ Hc)) as (bs & Hp & _ & Hf).
    rewrite (cd_data _ _ _ _ Hc) in Hp. injection Hp as <-. by rewrite Hf.
  - destruct (ConsensusLaws.raw_block_roundtrip partial_header (e_block e) (cd_template _ _ _ _ Hc) (cd_txs _ _ _ _ Hc)) as (raw & Hr & Hf).
    rewrite (cd_raw _ _ _ _ Hc) in Hr. by injection Hr as <-.
Qed.

Lemma has_block_ok (b : BlockChain D) hs blocks bid : bodies_show (m_db b) hs blocks → is_hash bid →
  has_block b bid = bool_decide (is_Some (blocks !! bid)).
Proof.
  intros Hbs Hb. unfold has_block, read_block_data. pose proof (bs_body _ _ _ Hbs bid Hb) as Hat. unfold at_key in Hat.
  cbn [key_of] in Hat. rewrite Hat. apply bool_decide_ext. by rewrite fmap_is_Some.
Qed.

(** ** Undoing and redoing branches *)

Definition add_undone (m : gmap Hash (Transaction * BinaryArray)) (x : Hash * (Transaction * BinaryArray)) :=
  match m !! x.1 with Some _ => m | None => <[x.1 := x.2]> m end.
Definition entry_txs (e : entry) : list (Hash * (Transaction * BinaryArray)) :=
  zip (transaction_hashes (block_header (e_block e))) (zip (block_transactions (e_block e)) (raw_transactions (e_raw e))).
Definition txs_at (blocks : gmap Hash entry) (h : api_BlockHeader) : list (Hash * (Transaction * BinaryArray)) :=
  match blocks !! bh_hash h with Some e => entry_txs e | None => [] end.
(** The transactions of the blocks [l], those of the last block first. *)
Definition undone_list (blocks : gmap Hash entry) (l : list api_BlockHeader) : list (Hash * (Transaction * BinaryArray)) :=
  concat (txs_at blocks <$> rev l).

Lemma collect_undone_ok txs hashes raws m : length hashes = length txs → length raws = length txs →
  collect_undone txs hashes raws m = Ok (foldl add_undone m (zip hashes (zip txs raws))).
Proof.
  revert hashes raws m. induction txs as [|tx txs IH]; intros [|tid hashes] [|raw raws] m Hh Hr; try done.
  cbn [collect_undone zip zip_with foldl]. injection Hh as Hh. injection Hr as Hr. rewrite IH by done. f_equal.
Qed.

Lemma entry_lengths e : coded (e_block e) (e_raw e) (e_data e) (e_base e) →
  length (transaction_hashes (block_header (e_block e))) = length (block_transactions (e_block e)) ∧
  length (raw_transactions (e_raw e)) = length (block_transactions (e_block e)).
Proof.
  intros Hc. split; [apply (cd_count _ _ _ _ Hc)|]. destruct (coded_binaries _ _ _ _ Hc) as (cb & _ & Hf & _).
  apply Forall2_length in Hf. by injection Hf.
Qed.

Lemma node_hash b hs blocks main v h : node_ok b hs blocks main v → h ∈ main → is_hash (bh_hash h).
Proof.
  intros Hno (i & Hi)%list_elem_of_lookup. pose proof (no_chain _ _ _ _ _ Hno) as Hs.
  destruct (mn_height _ _ (cs_main _ _ _ _ Hs) _ _ Hi) as [_ Hin].
  by destruct (tree_hash currency hs _ _ (hd_tree _ _ _ (cs_headers _ _ _ _ Hs)) Hin).
Qed.

Lemma main_block_tips b hs blocks main v h e d' : node_ok b hs blocks main v → hs !! bh_hash h = Some h →
  blocks !! bh_hash h = Some e → tips_show (m_db b) hs →
  kept_but (KChain (bh_height h) :: block_keys (bh_hash h) (e_block e) (bh_timestamp h) (bh_height h) (e_base e)) (m_db b) d' →
  tips_show d' hs.
Proof.
  intros Hno Hin He Hts Hk. pose proof (hd_tree _ _ _ (cs_headers _ _ _ _ (no_chain _ _ _ _ _ Hno))) as Ht.
  destruct (tr_ok _ _ Ht _ _ Hin) as [_ Hok]. destruct (header_fields _ Hok) as (_ & Hh & Hb & _).
  assert (in_u 32 (bh_timestamp h)) as Ht32 by (by destruct Hok as (_ & _ & ? & _)).
  by apply (tips_show_blocks (m_db b) d' hs blocks (bh_hash h) e (bh_timestamp h) (bh_height h) (bh_height h) Hts (no_bodies _ _ _ _ _ Hno) He).
Qed.

Lemma undo_to_ok hs blocks pre c l : counts_nonneg currency → last pre = Some c → ∀ fuel b w m flag,
  node_ok b hs blocks (pre ++ l) w → (length l ≤ fuel)%nat →
  ∃ b' v, undo_to currency cn_fast_hash partial_header fuel b (bh_hash c) m flag =
      Ok (b', foldl add_undone m (undone_list blocks l), match l with [] => flag | _ => true end) ∧
    node_ok b' hs blocks pre v ∧ pool_sub (node b) (node b') ∧ (tips_show (m_db b) hs → tips_show (m_db b') hs).
Proof.
  intros Hcn Hc. induction l as [|t l IH] using rev_ind; intros fuel b w m flag Hno Hf.
  { rewrite app_nil_r in Hno. pose proof (cs_tip _ _ _ _ (no_chain _ _ _ _ _ Hno)) as Htip. rewrite Hc in Htip.
    exists b, w. split; [|done]. destruct Htip as [Htip _].
    destruct fuel; cbn [undo_to]; by rewrite bool_decide_eq_true_2. }
  rewrite length_app in Hf. cbn in Hf. destruct fuel as [|fuel]; [lia|]. rewrite app_assoc in Hno.
  destruct (last (pre ++ l)) as [p|] eqn:Hp; [|apply last_None, app_eq_nil in Hp as [-> _]; done].
  destruct (undo_pop_ok b hs blocks (pre ++ l) p t w Hcn Hno Hp)
    as (e & v & b1 & b2 & b3 & He & Htip & Hth & Hprev & Hu & Hpop & Htc & Hno3 & _ & Hsub & Hkept).
  assert (is_hash (bh_hash t)) as Hb by (eapply node_hash; [exact Hno|apply elem_of_app; right; by left]).
  destruct (read_block_ok b hs blocks (bh_hash t) e (no_bodies _ _ _ _ _ Hno) Hb He) as [Hread Hfrom].
  assert (hs !! bh_hash t = Some t) as Htin.
  { by destruct (mn_height _ _ (cs_main _ _ _ _ (no_chain _ _ _ _ _ Hno)) (length (pre ++ l)) t) as [_ Htin];
      [rewrite lookup_app_r, Nat.sub_diag|]. }
  assert (m_tip_bid b ≠ bh_hash c) as Hne.
  { rewrite Htip. intros Heq. assert (c ∈ pre) as Hcin by (rewrite last_lookup in Hc; by eapply list_elem_of_lookup_2).
    pose proof (cs_main _ _ _ _ (no_chain _ _ _ _ _ Hno)) as Hm.
    assert (t = c) as ->.
    { eapply (main_hash_inj _ _ _ _ Hm); [apply elem_of_app; right; by left|by rewrite !elem_of_app; left; left|done]. }
    destruct (mn_height _ _ Hm (length (pre ++ l)) c) as [Hx _]; [by rewrite lookup_app_r, Nat.sub_diag|].
    apply list_elem_of_lookup in Hcin as (j & Hj). pose proof (lookup_lt_Some _ _ _ Hj).
    destruct (mn_height _ _ Hm j c) as [Hy _]; [by rewrite <- app_assoc, lookup_app_l|]. rewrite length_app in Hx. lia. }
  cbn [undo_to]. rewrite bool_decide_eq_false_2 by done. rewrite Htip, Hread, Hth. cbn [mbind result_bind of_option].
  rewrite Hfrom. cbn [check mbind result_bind]. rewrite Hu. cbn [mbind result_bind].
  destruct (entry_lengths e (en_coded _ _ _ (bs_entry _ _ _ (no_bodies _ _ _ _ _ Hno) _ _ He))) as [Hlh Hlr].
  rewrite (collect_undone_ok _ _ _ _ Hlh Hlr). cbn [mbind result_bind]. rewrite Hprev, Hpop. cbn [mbind result_bind].
  rewrite Htc. cbn [mbind result_bind].
  destruct (IH fuel b3 v (foldl add_undone m (entry_txs e)) true Hno3 ltac:(lia)) as (b' & v' & Hloop & Hno' & Hsub' & Htips').
  exists b', v'. split; [|split_and!; [done|by etrans|intros Hts; by apply Htips', (main_block_tips b hs blocks _ w t e (m_db b3) Hno Htin He)]].
  fold (entry_txs e). rewrite Hloop. unfold undone_list. rewrite rev_app_distr.
  cbn [rev app fmap list_fmap concat]. unfold txs_at at 2. rewrite He, foldl_app. by destruct l.
Qed.

(** The block is refused in the state [v]. *)
Definition refuses (v : view) (h : api_BlockHeader) (e : entry) : Prop := ∀ n : Node D, node_shows n v →
  Redo.redo_block currency cn_fast_hash check_ring_signature n (bh_hash h) (e_block e) (bh_height h) (bh_timestamp h) = Ok None.

(** The blocks of a branch are accepted on top of [main], up to the first that
    is refused: [done] are those accepted, and the flag tells if all are. *)
Inductive branch_run (blocks : gmap Hash entry) :
    list api_BlockHeader → view → list api_BlockHeader → list api_BlockHeader → bool → Prop :=
| run_all main v : branch_run blocks main v [] [] true
| run_refused main v h e rest : blocks !! bh_hash h = Some e → refuses v h e → branch_run blocks main v (h :: rest) [] false
| run_step main v h e rest done ok :
    blocks !! bh_hash h = Some e → accepts v h e → (∀ tid, tid ∈ tids e → tid ∉ main_tids blocks main) →
    branch_run blocks (main ++ [h]) (foldl v_effect v (entry_effects h e)) rest done ok →
    branch_run blocks main v (h :: rest) (h :: done) ok.

(** The block just added, as [blocks] has it. *)
Definition recent (hs : gmap Hash api_BlockHeader) (blocks : gmap Hash entry) (pb : PreparedBlock) (info : api_BlockHeader) : Prop :=
  hs !! bid pb = Some info ∧
  blocks !! bid pb = Some {| e_block := block pb; e_raw := pb_raw pb; e_data := block_data pb; e_base := base_transaction_hash pb |}.

Definition hashes_at (blocks : gmap Hash entry) (h : api_BlockHeader) : list Hash :=
  match blocks !! bh_hash h with Some e => transaction_hashes (block_header (e_block e)) | None => [] end.
Definition erase_branch (blocks : gmap Hash entry) (l : list api_BlockHeader) (m : gmap Hash (Transaction * BinaryArray)) :=
  foldl (λ m h, erase_all (hashes_at blocks h) m) m l.

Lemma node_ok_cache b hs blocks main v c : node_ok b hs blocks main v → chain_shows currency (with_cache b c) hs main →
  node_ok (with_cache b c) hs blocks main v.
Proof. intros [] Hs. by split. Qed.

#[local] Abbreviation redo_chain := (redo_branch currency cn_fast_hash check_ring_signature partial_header) (only parsing).

(** One turn of the loop: what it does is [redo_block] on the entry. *)
Lemma redo_branch_step hs blocks main v b h e rest pb info m : node_ok b hs blocks main v → recent hs blocks pb info →
  hs !! bh_hash h = Some h → blocks !! bh_hash h = Some e → m_tip_bid b = bh_previous_block_hash h →
  ∃ c, chain_shows currency (with_cache b c) hs main ∧
    redo_chain (bh_hash h :: rest) b pb info m =
      (r ← redo_block currency cn_fast_hash check_ring_signature (with_cache b c) (bh_hash h) (e_data e) (e_raw e) (e_block e) h (e_base e);
       match r with
       | None => Ok (with_cache b c, m, false)
       | Some b => b ← push_tip currency b h; redo_chain rest b pb info (erase_all (hashes_at blocks h) m)
       end).
Proof.
  intros Hno [Hri Hrb] Hin He Htip. pose proof (no_chain _ _ _ _ _ Hno) as Hs. pose proof (no_bodies _ _ _ _ _ Hno) as Hbs.
  pose proof (bs_entry _ _ _ Hbs _ _ He) as Hen. destruct (en_info _ _ _ Hen) as (h' & Hin' & _ & Hprev).
  rewrite Hin in Hin'. injection Hin' as <-.
  destruct (tree_hash currency hs _ _ (hd_tree _ _ _ (cs_headers _ _ _ _ Hs)) Hin) as [Hb _].
  destruct (read_block_ok b hs blocks (bh_hash h) e Hbs Hb He) as [Hread Hfrom]. cbn [redo_branch].
  assert (hashes_at blocks h = transaction_hashes (block_header (e_block e))) as -> by (unfold hashes_at; by rewrite He).
  destruct (decide (bh_hash h = bid pb)) as [Heq|Hne].
  - rewrite bool_decide_eq_true_2 by done. rewrite <- Heq in Hri, Hrb. rewrite Hin in Hri. injection Hri as <-.
    rewrite He in Hrb. injection Hrb as ->. exists (header_cache b).
    assert (with_cache b (header_cache b) = b) as -> by (by destruct b).
    split; [done|]. cbn [e_block e_raw e_data e_base] in *. unfold template in *.
    rewrite bool_decide_eq_true_2 by congruence. cbn [check mbind result_bind]. by rewrite <- Heq.
  - rewrite bool_decide_eq_false_2 by done. rewrite Hread. cbn [mbind result_bind]. rewrite Hfrom. cbn [negb].
    rewrite bool_decide_eq_true_2 by congruence. cbn [check mbind result_bind].
    destruct (expect_header_ok currency b hs main (bh_hash h) 0 h Hs Hin) as (c & -> & Hs'); [done|].
    cbn [mbind result_bind]. exists c. split; [done|]. by rewrite (en_base _ _ _ Hen).
Qed.

Lemma redo_branch_ok hs blocks pb info : counts_nonneg currency → windows_ok (D := D) currency → recent hs blocks pb info →
  ∀ main v branch done ok, branch_run blocks main v branch done ok → ∀ b m,
  node_ok b hs blocks main v → main ≠ [] → main_ok hs (main ++ branch) →
  ∃ b' w, redo_chain (bh_hash <$> branch) b pb info m = Ok (b', erase_branch blocks done m, ok) ∧
    node_ok b' hs blocks (main ++ done) w ∧ pool_sub (node b) (node b') ∧ (tips_show (m_db b) hs → tips_show (m_db b') hs).
Proof.
  intros Hcn Hwo Hrec main v branch done ok Hrun.
  induction Hrun as [main v|main v h e rest He Href|main v h e rest done ok He Hac Hfresh Hrun IH]; intros b m Hno Hne Hm.
  { exists b, v. rewrite app_nil_r. split_and!; done. }
  all: cbn [fmap list_fmap].
  all: destruct (mn_height _ _ Hm (length main) h) as [Hh Hin]; [by rewrite lookup_app_r, Nat.sub_diag|].
  all: destruct (last main) as [t|] eqn:Ht; [|by apply last_None in Ht].
  all: assert (bh_previous_block_hash h = bh_hash t) as Hlink by
    (rewrite last_lookup in Ht; apply (mn_link _ _ Hm (pred (length main)));
     [rewrite lookup_app_l; [done|by apply lookup_lt_Some in Ht]|
      apply lookup_lt_Some in Ht; replace (S (pred (length main))) with (length main) by lia; by rewrite lookup_app_r, Nat.sub_diag]).
  all: pose proof (cs_tip _ _ _ _ (no_chain _ _ _ _ _ Hno)) as Htip; rewrite Ht in Htip; destruct Htip as [Htip _].
  all: destruct (redo_branch_step hs blocks main v b h e (bh_hash <$> rest) pb info m Hno Hrec Hin He ltac:(congruence))
    as (c & Hs' & ->).
  - rewrite app_nil_r. exists (with_cache b c), v. split_and!; [|by apply node_ok_cache|done|done].
    unfold redo_block. pose proof (Href (node (with_cache b c)) (no_state _ _ _ _ _ Hno)) as ->. done.
  - pose proof (mn_length _ _ Hm) as Hlen. rewrite length_app in Hlen. cbn [length] in Hlen.
    destruct (redo_push_ok (with_cache b c) hs blocks main v h e Hcn Hwo (node_ok_cache _ _ _ _ _ _ Hno Hs') Hin He Hh)
      as (b1 & b2 & Hr & Hp & Hno2 & Hkept & Hsub); [intros t' Ht'; congruence|lia|done|done|].
    rewrite Hr. cbn [mbind result_bind]. rewrite Hp. cbn [mbind result_bind].
    destruct (IH b2 (erase_all (hashes_at blocks h) m) Hno2) as (b' & w & Hloop & Hno' & Hsub' & Htips'); [by destruct main|by rewrite <- app_assoc|].
    exists b', w. rewrite Hloop. rewrite <- app_assoc in Hno'. split_and!; [done..|by etrans|]. intros Hts. apply Htips'.
    by eapply (main_block_tips (with_cache b c)); [by apply node_ok_cache|..].
Qed.

Lemma history_det blocks main v w : history blocks main v → history blocks main w → v = w.
Proof.
  intros Hv. revert w. induction Hv as [|main v h e Hv IH He Hok]; intros w Hw.
  - inversion Hw as [Heq|main' ? ? ? ? ? ? Heq]; [done|by destruct main'].
  - apply history_last in Hw as (w' & e' & Hw & He' & _ & ->). rewrite He in He'. injection He' as <-. by rewrite (IH _ Hw).
Qed.

(** ** Reorganizing *)

(** Where the main chain and the branch to switch to part. *)
Lemma reorganize_paths b hs blocks main v t top x : node_ok b hs blocks main v → last main = Some t →
  hs !! top = Some x → (∀ bid h, hs !! bid = Some h → bh_height h < 2 ^ 32 - 2) →
  ∃ pre upper branch hc chain1 c, main = pre ++ upper ∧ last pre = Some hc ∧ main_ok hs (pre ++ branch) ∧
    last (pre ++ branch) = Some x ∧
    get_common_block currency b (m_tip_bid b) top = Ok (bh_hash hc, chain1, rev (bh_hash <$> branch), with_cache b c) ∧
    chain_shows currency (with_cache b c) hs main.
Proof.
  intros Hno Ht Hx Hbound. pose proof (no_chain _ _ _ _ _ Hno) as Hs. pose proof (cs_main _ _ _ _ Hs) as Hm.
  pose proof (hd_tree _ _ _ (cs_headers _ _ _ _ Hs)) as Htree.
  pose proof (cs_tip _ _ _ _ Hs) as Htip. rewrite Ht in Htip. destruct Htip as [Htip _].
  assert (hs !! bh_hash t = Some t) as Htin by (rewrite last_lookup in Ht; by apply (mn_height _ _ Hm) in Ht as [_ ?]).
  destruct (get_common_block_ok currency b hs main (bh_hash t) top Hs) as (common & l1 & l2 & c & Hg & Hs' & Hp1 & Hp2 &
    (hc & Hhc & Hlow) & _); [by eexists|by eexists|].
  destruct (tr_ok _ _ Htree _ _ Hhc) as [Hhcb Hhcok]. apply header_fields in Hhcok as (_ & [Hpos _] & _).
  destruct (main_path_split hs main (bh_hash t) l1 common hc Hm) as (pre & upper & -> & -> & Hpre); [by exists t|done|done|done| |].
  { intros bid Hin. apply Hlow, elem_of_app. by left. }
  destruct (path_branch hs top l2 common hc pre Htree Hp2 Hhc) as (branch & Hrev & Hm' & t' & Hlast & Hth & Htop); [|done| |done|].
  { intros bid Hin. destruct (Hlow bid) as (y & Hy & Hlt); [apply elem_of_app; by right|]. exists y. split; [done|].
    split; [done|by eapply Hbound]. }
  { by eapply main_ok_app. }
  rewrite Hx in Htop. injection Htop as <-.
  exists pre, upper, branch, hc, (rev (bh_hash <$> upper)), c. split_and!; try done.
  rewrite Htip, Hg, Hhcb, <- Hrev. by rewrite rev_involutive.
Qed.

Context (key_isvalid : PublicKey → bool).

Lemma reorganize_blocks_ok b hs blocks main v t pb info : counts_nonneg currency → windows_ok (D := D) currency →
  node_ok b hs blocks main v → last main = Some t → recent hs blocks pb info →
  (∀ bid h, hs !! bid = Some h → bh_height h < 2 ^ 32 - 2) →
  ∃ pre upper branch, main = pre ++ upper ∧ pre ≠ [] ∧ main_ok hs (pre ++ branch) ∧ last (pre ++ branch) = Some info ∧
    ∀ w done ok, history blocks pre w → Forall (λ h, is_Some (blocks !! bh_hash h)) branch →
      branch_run blocks pre w branch done ok →
      ∃ b' w', node_ok b' hs blocks (pre ++ done) w' ∧ pool_sub (node b) (node b') ∧ (tips_show (m_db b) hs → tips_show (m_db b') hs) ∧
        reorganize_blocks currency cn_fast_hash key_isvalid check_ring_signature partial_header b (bid pb) pb info =
          (b'' ← on_reorganization currency cn_fast_hash key_isvalid check_ring_signature b'
             (erase_branch blocks done (foldl add_undone ∅ (undone_list blocks upper))) (negb (bool_decide (upper = [])));
           Ok (ok, b'')).
Proof.
  intros Hcn Hwo Hno Ht Hrec Hbound.
  destruct (reorganize_paths b hs blocks main v t (bid pb) info Hno Ht (proj1 Hrec) Hbound)
    as (pre & upper & branch & hc & chain1 & c & -> & Hpre & Hm & Hlast & Hg & Hs').
  exists pre, upper, branch. split_and!; [done|by intros ->|done|done|]. intros w done ok Hw Hbodies Hrun.
  pose proof (node_ok_cache _ _ _ _ _ _ Hno Hs') as Hno1.
  assert (forallb (has_block (with_cache b c)) (rev (bh_hash <$> branch)) = true) as Hhas.
  { apply forallb_forall. intros bid Hin. apply in_rev, list_elem_of_In, list_elem_of_fmap in Hin as (h & -> & Hin).
    assert (is_hash (bh_hash h)) as Hb.
    { apply list_elem_of_lookup in Hin as (j & Hj). destruct (mn_height _ _ Hm (length pre + j) h) as [_ Hh].
      - rewrite lookup_app_r by lia. by replace (length pre + j - length pre)%nat with j by lia.
      - by destruct (tree_hash currency hs _ _ (hd_tree _ _ _ (cs_headers _ _ _ _ Hs')) Hh). }
    rewrite (has_block_ok _ hs blocks _ (no_bodies _ _ _ _ _ Hno1) Hb). apply bool_decide_eq_true.
    rewrite Forall_forall in Hbodies. by apply Hbodies. }
  destruct (undo_to_ok hs blocks pre hc upper Hcn Hpre (Z.to_nat (m_tip_height (with_cache b c))) (with_cache b c) v ∅ false Hno1)
    as (b1 & v1 & Hundo & Hno2 & Hsub1 & Htips1).
  { pose proof (tip_height_ok currency _ hs _ Hs') as Hth. rewrite length_app in Hth.
    assert (length pre ≠ 0)%nat by (by destruct pre). rewrite Hth; [lia|by destruct pre]. }
  rewrite (history_det _ _ _ _ Hw (no_history _ _ _ _ _ Hno2)) in Hrun.
  destruct (redo_branch_ok hs blocks pb info Hcn Hwo Hrec pre v1 branch done ok Hrun b1
    (foldl add_undone ∅ (undone_list blocks upper)) Hno2) as (b2 & w2 & Hredo & Hno3 & Hsub2 & Htips2); [by intros ->|done|].
  exists b2, w2. split; [done|]. split; [by etrans|]. split; [by intros Hts; apply Htips2, Htips1|]. unfold reorganize_blocks. rewrite Hg. cbn [mbind result_bind]. rewrite Hhas. cbn [negb].
  rewrite Hundo. cbn [mbind result_bind]. rewrite rev_involutive, Hredo. cbn [mbind result_bind]. by destruct upper.
Qed.

(** ** Storing a block *)

Lemma indexed_but_free ks (d d' : D) data x i tid bin : but ks d d' → Forall ckey_ok ks → is_hash tid →
  (∀ tid, KTransaction tid ∉ ks) → indexed d data x i tid bin → indexed d' data x i tid bin.
Proof. intros Hb Hks Ht Hn. by eapply indexed_but. Qed.

(** Keys that neither the headers, the main chain nor its indices use. *)
Definition free_key (k : ckey) : Prop := match k with KBlock _ | KChildren _ | KTips _ _ => True | _ => False end.

Lemma index_shows_but ks d d' hs blocks main : bodies_show d hs blocks → but ks d d' → Forall ckey_ok ks → Forall free_key ks →
  index_shows d blocks main → index_shows d' blocks main.
Proof.
  intros Hbs Hb Hks Hfree [Hi Ht Htx Hf Ho].
  assert (∀ k, ckey_ok k → ¬ free_key k → at_key d' k = at_key d k) as Hsame.
  { intros k Hk Hnf. apply (but_at _ _ _ _ Hb Hk Hks). intros Hin. rewrite Forall_forall in Hfree. by apply Hnf, Hfree. }
  split; [| | | |done].
  - intros bid Hbid. rewrite Hsame by (done || by intros []). by apply Hi.
  - intros t x Ht' Hx. rewrite Hsame by (done || by intros []). by apply Ht.
  - intros tid Htid. rewrite Hsame by (done || by intros []). by apply Htx.
  - intros h e i tid tx Hin He Hti Htxi. destruct (Hf h e i tid tx Hin He Hti Htxi) as (bin & Hbin & Hx). exists bin.
    split; [done|]. eapply indexed_same; [|exact Hx]. apply list_elem_of_lookup_2 in Hti.
    pose proof (entry_hashes _ _ _ _ _ Hbs He) as Hall. rewrite Forall_forall in Hall. apply Hsame; [by apply Hall|by intros []].
Qed.

Lemma node_ok_but ks b hs blocks main v d' : node_ok b hs blocks main v → but ks (m_db b) d' → Forall ckey_ok ks →
  Forall free_key ks → (∀ bid, KBlock bid ∉ ks) → node_ok (with_m_db b d') hs blocks main v.
Proof.
  intros [Hs Hn Hbs Hix Hh] Hb Hks Hfree Hnb. split; [| | | |done].
  - apply shows_frame; [done|by eapply but_roomy, (hd_room _ _ _ (cs_headers _ _ _ _ Hs))|]. intros k Hk Hc.
    apply (but_at _ _ _ _ Hb Hk Hks). intros Hin. rewrite Forall_forall in Hfree. specialize (Hfree _ Hin). by destruct k.
  - by eapply node_shows_but.
  - eapply bodies_show_same; [|exact Hbs]. intros bid Hbid. by apply (but_at _ _ _ _ Hb).
  - by eapply index_shows_but.
Qed.

(** A block that is new is stored, with its header. *)
Lemma store_block_ok b hs blocks main v bid h e : node_ok b hs blocks main v → hs !! bid = None → blocks !! bid = None →
  bh_hash h = bid → c_ok ser_api_BlockHeader h → tree_ok (genesis currency) (<[bid := h]> hs) →
  entry_ok (<[bid := h]> hs) bid e → (∀ h', h' ∈ main → bh_hash h' ≠ bid) →
  ∃ d1 d2, store_block b bid (e_data e) = Ok (with_m_db b d1) ∧ store_header (with_m_db b d1) bid h = Ok (with_m_db b d2) ∧
    but [KBlock bid; KHeader bid] (m_db b) d2 ∧
    node_ok (with_m_db b d2) (<[bid := h]> hs) (<[bid := e]> blocks) main v.
Proof.
  intros Hno Hnh Hnb Hbid Hok Htree Hen Hmain. pose proof Hno as [Hs Hn Hbs Hix Hh].
  assert (is_hash bid) as Hb by (rewrite <- Hbid; by apply header_fields).
  pose proof (hd_room _ _ _ (cs_headers _ _ _ _ Hs)) as Hroom.
  destruct (put_key (m_db b) (KBlock bid) (e_data e) true Hroom Hb) as (d1 & Hp1 & Hw1).
  { intros _. rewrite (bs_body _ _ _ Hbs) by done. by rewrite Hnb. }
  pose proof (wrote_but _ _ _ _ Hw1) as Hb1.
  assert (chain_shows currency (with_m_db b d1) hs main) as Hs1.
  { apply shows_frame; [done|by eapply but_roomy|]. intros k Hk Hc. apply (but_at _ _ _ _ Hb1 Hk); [by apply Forall_singleton|].
    intros ->%list_elem_of_singleton. done. }
  destruct (store_header_ok currency (with_m_db b d1) hs main bid h Hs1 Hnh Hbid Hok Htree) as (d2 & Hst & (ba & Hw2) & Hs2).
  assert (but [KBlock bid; KHeader bid] (m_db b) d2) as Hb2.
  { eapply (but_trans [_] [_]); [exact Hb1|]. by eapply wrote_but. }
  exists d1, d2. split_and!; [|by destruct b as [[[]] ]|done|].
  { unfold store_block. change (BLOCK_key bid) with (key_of (KBlock bid)). by rewrite Hp1. }
  assert (Forall ckey_ok [KBlock bid; KHeader bid]) as Hks.
  { apply Forall_cons. split; [exact Hb|]. by apply Forall_singleton. }
  assert (∀ k, ckey_ok k → k ∉ [KBlock bid; KHeader bid] → at_key d2 k = at_key (m_db b) k) as Hsame.
  { intros k Hk Hkn. by apply (but_at _ _ _ _ Hb2 Hk). }
  split.
  - by destruct b as [[[]] ].
  - apply (node_shows_but [KBlock bid; KHeader bid] (node b) v d2 Hn Hb2 Hks).
  - split.
    + intros bid' Hbid'. change (m_db (with_m_db b d2)) with d2. destruct (decide (bid' = bid)) as [->|Hne].
      * rewrite (wrote_same _ _ _ _ (KBlock bid) Hw2) by done. change (m_db (with_m_db b d1)) with d1.
        rewrite (wrote_at _ _ _ _ Hw1) by done. by rewrite lookup_insert_eq.
      * rewrite lookup_insert_ne by done. rewrite Hsame; [by apply (bs_body _ _ _ Hbs)|done|set_solver].
    + intros bid' e' [[<- <-]|[Hne He']]%lookup_insert_Some; [done|].
      destruct (bs_entry _ _ _ Hbs _ _ He') as [Hc Hbase (h' & Hh' & Ht & Hp)]. split; [done|done|]. exists h'.
      split; [|done]. rewrite lookup_insert_ne; [done|congruence].
  - assert (∀ h', h' ∈ main → <[bid := e]> blocks !! bh_hash h' = blocks !! bh_hash h') as Hsameb.
    { intros h' Hin. apply lookup_insert_ne. intros Heq. by apply (Hmain h' Hin). }
    assert (main_tids (<[bid := e]> blocks) main = main_tids blocks main) as Hmt.
    { unfold main_tids. f_equal. apply list_fmap_ext. intros j h' Hj. unfold tids_at. rewrite Hsameb; [done|]. by eapply list_elem_of_lookup_2. }
    destruct Hix as [Hi Ht Htx Hf Ho]. split; rewrite ?Hmt; [| | | |done].
    + intros bid' Hbid'. change (m_db (with_m_db b d2)) with d2. rewrite Hsame; [by apply Hi|done|set_solver].
    + intros t x Ht' Hx. change (m_db (with_m_db b d2)) with d2. rewrite Hsame; [by apply Ht|done|set_solver].
    + intros tid Htid. change (m_db (with_m_db b d2)) with d2. rewrite Hsame; [by apply Htx|done|set_solver].
    + intros h' e' i tid tx Hin He' Hti Htxi. rewrite Hsameb in He' by done.
      destruct (Hf h' e' i tid tx Hin He' Hti Htxi) as (bin & Hbin & Hx). exists bin. split; [done|].
      eapply indexed_same; [|exact Hx]. apply list_elem_of_lookup_2 in Hti.
      pose proof (entry_hashes hs blocks (m_db b) _ _ Hbs He') as Hall. rewrite Forall_forall in Hall.
      apply Hsame; [by apply Hall|set_solver].
  - assert (∀ main, history blocks main v → (∀ h', h' ∈ main → bh_hash h' ≠ bid) → history (<[bid := e]> blocks) main v) as Hgo;
      [|by apply Hgo].
    clear -Hnb. intros main Hh. induction Hh as [|main v h' e' Hh IH He Hok]; intros Hm; [constructor|]. econstructor; [|..|done].
    + apply IH. intros h'' Hin. apply Hm, elem_of_app. by left.
    + rewrite lookup_insert_ne; [done|]. intros Heq. apply (Hm h'); [apply elem_of_app; right; by left|done].
Qed.

(** ** Validation only reads *)

Section validation.
Context (cn_slow_hash cn_lite_slow_hash_v1 : list Z → Hash).

Lemma or_error_sound {A : Type} (Q : (string + api_BlockHeader) * BlockChain D → Prop) m (b : BlockChain D)
    (k : A → result ((string + api_BlockHeader) * BlockChain D)) x :
  or_error m b k = Ok x → (∀ e, Q (inl e, b)) → (∀ a, m = Ok (inr a) → k a = Ok x → Q x) → Q x.
Proof.
  unfold or_error. intros Hk He Ha. inv_ok Hk. destruct a as [e|a]; [|by eapply Ha].
  injection Hk as <-. apply He.
Qed.

Lemma difficulty_after_ok hs main b prev index : counts_nonneg currency → chain_shows currency b hs main →
  hs !! bh_hash prev = Some prev → ∀ d b', difficulty_after currency b prev index = Ok (d, b') →
  ∃ c, b' = with_cache b c ∧ chain_shows currency b' hs main.
Proof.
  intros [_ Hc] Hs Hp d b' Hd. unfold difficulty_after in Hd.
  assert (0 ≤ bh_height prev) as Hpos.
  { destruct (tr_ok _ _ (hd_tree _ _ _ (cs_headers _ _ _ _ Hs)) _ _ Hp) as [_ Hok].
    by apply header_fields in Hok as (_ & [? _] & _). }
  destruct (get_tip_segment_ok currency hs main b prev
    (Z.min (bh_height prev) (get_difficulty_blocks_count currency (u32 (m_tip_height b + 1)))) false Hs Hp) as (c & Hr & Hs').
  { apply Z.min_glb; [done|apply Hc]. }
  rewrite Hr in Hd. cbn [mbind result_bind] in Hd. inv_ok Hd. injection Hd as _ <-. by exists c.
Qed.

(** The verdict comes with the node as it was, but for the header cache, and
    with the fields of [info] that it does not compute. *)
Lemma check_standalone_sound hs main b now pb info prev pow x : counts_nonneg currency → chain_shows currency b hs main →
  hs !! bh_hash prev = Some prev →
  check_standalone_consensus currency cn_fast_hash cn_slow_hash cn_lite_slow_hash_v1 key_isvalid b now pb info prev pow = Ok x →
  (∃ c, x.2 = with_cache b c ∧ chain_shows currency x.2 hs main) ∧
  match x.1 with inl _ => True | inr info' => ∃ f, info' = fill info f end.
Proof.
  intros Hcn Hs Hp Hc. unfold check_standalone_consensus in Hc.
  set (Q := λ y : (string + api_BlockHeader) * BlockChain D, (∃ c, y.2 = with_cache b c ∧ chain_shows currency y.2 hs main) ∧
    match y.1 with inl _ => True | inr info' => ∃ f, info' = fill info f end).
  change (Q x). assert (∀ e, Q (inl e, b)) as HQ0.
  { intros e. split; [|done]. exists (header_cache b). by destruct b. }
  apply (or_error_sound Q) in Hc; [done|done|]. clear Hc. intros _ _ Hc. inv_ok Hc. destruct a as [[size time] b1].
  assert (∃ c, b1 = with_cache b c ∧ chain_shows currency b1 hs main) as (c1 & Hb1 & Hs1).
  { destruct (negb _).
    - destruct (calculate_consensus_values_ok currency hs main b prev Hcn Hs Hp) as (m & c & Hr & Hs').
      rewrite Hr in Ha. injection Ha as _ <-. by exists c.
    - injection Ha as _ _ <-. exists (header_cache b). by destruct b. }
  assert (∀ e, Q (inl e, b1)) as HQ1 by (intros e; split; [by exists c1|done]). clear HQ0.
  inv_ok Hc. apply (or_error_sound Q) in Hc; [done|done|]. clear Hc. intros cumulative_size _ Hc. inv_ok Hc.
  do 6 (apply (or_error_sound Q) in Hc; [done|done|]; clear Hc; intros _ _ Hc).
  apply (or_error_sound Q) in Hc; [done|done|]. clear Hc. intros _ _ Hc. inv_ok Hc.
  apply (or_error_sound Q) in Hc; [done|done|]. clear Hc. intros miner_reward _ Hc. inv_ok Hc. destruct a2 as [difficulty b2].
  destruct (difficulty_after_ok hs main b1 prev _ Hcn Hs1 Hp _ _ Ha3) as (c2 & Hb2 & Hs2).
  assert (∀ e, Q (inl e, b2)) as HQ2 by (intros e; split; [exists c2; split; [cbn; by rewrite Hb2, Hb1|exact Hs2]|done]).
  apply (or_error_sound Q) in Hc; [done|done|]. clear Hc. intros _ _ Hc.
  apply (or_error_sound Q) in Hc; [done|done|]. clear Hc. intros fee _ Hc.
  inv_ok Hc. destruct a2 as [base_reward e0]. inv_ok Hc. destruct a2 as [reward emission].
  do 3 (apply (or_error_sound Q) in Hc; [done|done|]; clear Hc; intros _ _ Hc).
  injection Hc as <-. split; [exists c2; split; [cbn; by rewrite Hb2, Hb1|exact Hs2]|]. by eexists.
Qed.

End validation.

(** ** Adding a checked block *)

Record whole (b : BlockChain D) (hs : gmap Hash api_BlockHeader) (blocks : gmap Hash entry)
    (main : list api_BlockHeader) (v : view) : Prop := {
  wh_node : node_ok b hs blocks main v;
  wh_tips : tips_show (m_db b) hs;
}.

Definition new_entry (pb : PreparedBlock) : entry :=
  {| e_block := block pb; e_raw := pb_raw pb; e_data := block_data pb; e_base := base_transaction_hash pb |}.

(** A prepared block that is not in the tree, its parent [p] there, and the
    header that validation made for it. *)
Record fresh_block (hs : gmap Hash api_BlockHeader) (blocks : gmap Hash entry) (pb : PreparedBlock) (info p : api_BlockHeader) : Prop := {
  fb_header : hs !! bid pb = None;
  fb_body : blocks !! bid pb = None;
  fb_parent : hs !! previous_block_hash (header (template pb)) = Some p;
  fb_height : bh_height info = bh_height p + 1;
  fb_hash : bh_hash info = bid pb;
  fb_prev : bh_previous_block_hash info = previous_block_hash (header (template pb));
  fb_time : bh_timestamp info = Blocks.timestamp (header (template pb));
  fb_info : c_ok ser_api_BlockHeader info;
  fb_coded : coded (block pb) (pb_raw pb) (block_data pb) (base_transaction_hash pb);
  fb_base : get_transaction_hash cn_fast_hash (base_transaction (template pb)) = Ok (base_transaction_hash pb);
}.

Lemma fresh_tree hs blocks pb info p : tree_ok (genesis currency) hs → fresh_block hs blocks pb info p →
  tree_ok (genesis currency) (<[bid pb := info]> hs) ∧ bh_height info ≠ 0 ∧ bid pb ≠ genesis currency.
Proof.
  intros Ht [Hn _ Hp Hh Hb Hprev _ Hok _ _].
  destruct (tr_ok _ _ Ht _ _ Hp) as [_ Hpok]. destruct (header_fields _ Hpok) as (_ & [Hpos _] & _).
  split_and!; [|lia|].
  - rewrite <- Hb. apply tree_ok_insert; [done|by rewrite Hb|done|]. rewrite decide_False by lia. exists p. by rewrite Hprev.
  - intros Hg. assert (∃ g, hs !! genesis currency = Some g) as [g Hgin].
    { clear -Ht Hp. remember (Z.to_nat (bh_height p)) as n eqn:Hn. revert Hn Hp. generalize (previous_block_hash (header (template pb))).
      revert p. induction n as [|n IH]; intros p x Hn Hp; destruct (tr_ok _ _ Ht _ _ Hp) as [_ Hok];
        destruct (header_fields _ Hok) as (_ & [Hpos _] & _).
      - exists p. rewrite <- (tr_genesis _ _ Ht _ _ Hp); [done|lia].
      - destruct (tr_parent _ _ Ht _ _ Hp) as (q & Hq & Hhq); [lia|]. eapply (IH q); [|exact Hq]. lia. }
    rewrite Hg in Hn. congruence.
Qed.

Lemma fresh_entry hs blocks pb info p : fresh_block hs blocks pb info p →
  entry_ok (<[bid pb := info]> hs) (bid pb) (new_entry pb).
Proof.
  intros [Hn _ Hp Hh Hb Hprev Htime Hok Hc Hbase]. split; [done|done|]. exists info. split; [apply lookup_insert_eq|].
  by rewrite Htime, Hprev.
Qed.

(** Everything up to the question whether the block changes the main chain. *)
Lemma add_checked_block_stores b hs blocks main v pb info p : whole b hs blocks main v →
  fresh_block hs blocks pb info p → Z.of_nat (size hs) < 2 ^ 32 - 1 →
  ∃ b1, whole b1 (<[bid pb := info]> hs) (<[bid pb := new_entry pb]> blocks) main v ∧
    m_tip_bid b1 = m_tip_bid b ∧ m_tip_cumulative_difficulty b1 = m_tip_cumulative_difficulty b ∧
    pool (node b1) = pool (node b) ∧
    add_checked_block currency cn_fast_hash key_isvalid check_ring_signature partial_header b pb info p false =
      (if bh_cumulative_difficulty info >? m_tip_cumulative_difficulty b then
         if bool_decide (m_tip_bid b = previous_block_hash (header (template pb))) then
           r ← redo_block currency cn_fast_hash check_ring_signature b1 (bid pb) (block_data pb) (pb_raw pb) (block pb) info
                 (base_transaction_hash pb);
           match r with
           | None => Ok (false, b1)
           | Some b => b ← push_tip currency b info; Ok (true, b)
           end
         else
           '(_, b) ← reorganize_blocks currency cn_fast_hash key_isvalid check_ring_signature partial_header b1 (bid pb) pb info;
           Ok (true, b)
       else Ok (true, b1)).
Proof.
  intros [Hno Hts] Hf Hsz. pose proof (no_chain _ _ _ _ _ Hno) as Hs. pose proof (hd_tree _ _ _ (cs_headers _ _ _ _ Hs)) as Ht.
  destruct (fresh_tree _ _ _ _ _ Ht Hf) as (Ht' & Hnz & Hg). pose proof (fresh_entry _ _ _ _ _ Hf) as Hen.
  destruct Hf as [Hn Hnb Hp Hh Hb Hprev Htime Hok Hc Hbase].
  assert (∀ h', h' ∈ main → bh_hash h' ≠ bid pb) as Hmain.
  { intros h' (j & Hj)%list_elem_of_lookup Heq. destruct (mn_height _ _ (cs_main _ _ _ _ Hs) _ _ Hj) as [_ Hin].
    rewrite Heq in Hin. congruence. }
  destruct (store_block_ok b hs blocks main v (bid pb) info (new_entry pb) Hno Hn Hnb Hb Hok Ht' Hen Hmain)
    as (d1 & d2 & Hst1 & Hst2 & Hbut & Hno2). cbn [new_entry e_data] in Hst1.
  assert (is_hash (bid pb)) as Hbid by (rewrite <- Hb; by apply header_fields).
  assert (Forall ckey_ok [KBlock (bid pb); KHeader (bid pb)]) as Hks by (by repeat (apply Forall_cons; split)).
  assert (tips_show d2 hs) as Hts2.
  { eapply tips_show_kept; [exact Hts|by apply but_kept|done|]. apply Forall_cons. split; [by intros []|].
    apply Forall_singleton. by intros []. }
  rewrite <- Hprev in Hp.
  destruct (add_branch_ok (genesis currency) (with_m_db b d2) hs (bid pb) info p Hts2 Ht Ht' Hn Hnz Hp
    (hd_room _ _ _ (cs_headers _ _ _ _ (no_chain _ _ _ _ _ Hno2))) Hsz) as (d3 & d4 & Hm1 & Hck & Hm2 & Hbut4 & Hts4).
  exists (with_m_db (with_m_db b d2) d4). split_and!; [|done|done|done|].
  - split; [|done]. eapply node_ok_but; [exact Hno2|exact Hbut4| | |].
    + destruct (tr_ok _ _ Ht _ _ Hp) as [Hpb Hpok]. destruct (header_fields _ Hpok) as (_ & _ & Hph & Hpcd).
      destruct (header_fields _ Hok) as (_ & _ & _ & Hcd). rewrite Hpb in Hph. by repeat (apply Forall_cons; split).
    + by repeat (apply Forall_cons; split).
    + intros x. set_solver.
  - unfold add_checked_block. rewrite Hst1. cbn [mbind result_bind]. rewrite Hst2. cbn [mbind result_bind].
    rewrite bool_decide_eq_false_2 by done. rewrite <- Hprev. rewrite Hm1. cbn [mbind result_bind]. rewrite Hck.
    cbn [mbind result_bind]. rewrite Hm2. cbn [mbind result_bind]. done.
Qed.

(** A prepared block that is not in the tree, and whose parent [p] is. *)
Record arrives (hs : gmap Hash api_BlockHeader) (blocks : gmap Hash entry) (pb : PreparedBlock) (p : api_BlockHeader) : Prop := {
  av_hash : is_hash (bid pb);
  av_header : hs !! bid pb = None;
  av_body : blocks !! bid pb = None;
  av_parent : hs !! previous_block_hash (header (template pb)) = Some p;
  av_height : bh_height p + 1 < 2 ^ 32;
  av_coded : coded (block pb) (pb_raw pb) (block_data pb) (base_transaction_hash pb);
  av_base : get_transaction_hash cn_fast_hash (base_transaction (template pb)) = Ok (base_transaction_hash pb);
}.

(** The fields that [add_block] gives the header before validation. *)
Definition started (pb : PreparedBlock) (p : api_BlockHeader) : api_BlockHeader :=
  own_fields default_api_BlockHeader pb (u32 (bh_height p + 1)).

Lemma arrives_fresh hs blocks pb p f : tree_ok (genesis currency) hs → arrives hs blocks pb p →
  c_ok ser_api_BlockHeader (fill (started pb p) f) → fresh_block hs blocks pb (fill (started pb p) f) p.
Proof.
  intros Ht [Hb Hn Hnb Hp Hh Hc Hbase] Hok. split; try done.
  destruct (tr_ok _ _ Ht _ _ Hp) as [_ Hpok]. destruct (header_fields _ Hpok) as (_ & [Hpos _] & _).
  cbn. unfold u32. rewrite Z.mod_small; lia.
Qed.

Lemma whole_cache b hs blocks main v c : whole b hs blocks main v → chain_shows currency (with_cache b c) hs main →
  whole (with_cache b c) hs blocks main v.
Proof. intros [Hno Ht] Hs. split; [by apply node_ok_cache|done]. Qed.

Lemma whole_commit b hs blocks main v : whole b hs blocks main v → whole (db_commit b) hs blocks main v.
Proof.
  intros Hw. apply whole_cache; [done|]. destruct (no_chain _ _ _ _ _ (wh_node _ _ _ _ _ Hw)) as [[Hr Ht Hh Hc] Hm Hi Htip Hhe Hwi].
  by split.
Qed.

Lemma genesis_known hs bid h : tree_ok (genesis currency) hs → hs !! bid = Some h → is_Some (hs !! genesis currency).
Proof.
  intros Ht. remember (Z.to_nat (bh_height h)) as n eqn:Hn. revert h bid Hn.
  induction n as [|n IH]; intros h bid Hn Hh; destruct (tr_ok _ _ Ht _ _ Hh) as [_ Hok];
    destruct (header_fields _ Hok) as (_ & [Hpos _] & _).
  - exists h. rewrite <- (tr_genesis _ _ Ht _ _ Hh); [done|lia].
  - destruct (tr_parent _ _ Ht _ _ Hh) as (q & Hq & Hhq); [lia|]. eapply (IH q); [|exact Hq]. lia.
Qed.

Lemma not_genesis hs blocks pb p : tree_ok (genesis currency) hs → arrives hs blocks pb p → bid pb ≠ genesis currency.
Proof.
  intros Ht Ha Heq. destruct (genesis_known _ _ _ Ht (av_parent _ _ _ _ Ha)) as [g Hg].
  rewrite <- Heq, (av_header _ _ _ _ Ha) in Hg. done.
Qed.

Section add_block.
Context (cn_slow_hash cn_lite_slow_hash_v1 : list Z → Hash).

#[local] Abbreviation add := (add_block currency cn_fast_hash cn_slow_hash cn_lite_slow_hash_v1 key_isvalid
  check_ring_signature partial_header) (only parsing).
#[local] Abbreviation validate := (check_standalone_consensus currency cn_fast_hash cn_slow_hash cn_lite_slow_hash_v1
  key_isvalid) (only parsing).

(** What follows the validation. *)
Definition settle (b : BlockChain D) (pb : PreparedBlock) (p : api_BlockHeader) (checked : string + api_BlockHeader) :
    result (BroadcastAction * option api_BlockHeader * BlockChain D) :=
  match checked with
  | inl _ => Ok (BAN, None, b)
  | inr info =>
      '(accepted, b) ← or_exit (add_checked_block currency cn_fast_hash key_isvalid check_ring_signature partial_header b pb info p false);
      if negb accepted then Ok (BAN, Some info, b)
      else
        let b := if m_tip_height b mod COMMIT_EVERY_N_BLOCKS =? COMMIT_EVERY_N_BLOCKS - 1 then db_commit b else b in
        Ok (if bool_decide (bh_hash info = m_tip_bid b) then BROADCAST_ALL else NOTHING, Some info, b)
  end.

(** The verdict of the validation on a node that shows what this one shows. *)
Lemma add_block_settles b hs blocks main v now pb p : counts_nonneg currency → whole b hs blocks main v → arrives hs blocks pb p →
  ∃ c, whole (with_cache b c) hs blocks main v ∧ ∀ checked b1, validate (with_cache b c) now pb (started pb p) p true = Ok (checked, b1) →
    add b now pb = settle b1 pb p checked ∧ whole b1 hs blocks main v ∧ (∃ c', b1 = with_cache b c') ∧
    match checked with inl _ => True | inr info => ∃ f, info = fill (started pb p) f end.
Proof.
  intros Hcn Hw Ha. pose proof (no_chain _ _ _ _ _ (wh_node _ _ _ _ _ Hw)) as Hs. pose proof (hd_tree _ _ _ (cs_headers _ _ _ _ Hs)) as Ht.
  destruct (read_header_ok currency b hs main (bid pb) 0 Hs (av_hash _ _ _ _ Ha)) as (c1 & Hr1 & Hs1); [done|].
  pose proof (av_parent _ _ _ _ Ha) as Hp. destruct (tree_hash currency hs _ _ Ht Hp) as [Hph Hpb].
  destruct (read_header_ok currency (with_cache b c1) hs main (previous_block_hash (header (template pb))) 0 Hs1 Hph)
    as (c2 & Hr2 & Hs2); [done|]. change (with_cache (with_cache b c1) c2) with (with_cache b c2) in *.
  exists c2. pose proof (whole_cache _ _ _ _ _ _ Hw Hs2) as Hw2. split; [done|]. intros checked b1 Hc.
  destruct (check_standalone_sound cn_slow_hash cn_lite_slow_hash_v1 hs main (with_cache b c2) now pb (started pb p) p true _ Hcn Hs2
    ltac:(by rewrite Hpb) Hc) as [(c3 & Hb1 & Hs3) Hf]. cbn [fst snd] in Hb1, Hs3, Hf.
  split_and!; [|rewrite Hb1; apply whole_cache; [done|by rewrite <- Hb1]|by exists c3|done].
  unfold add_block. rewrite Hr1. cbn [mbind result_bind]. rewrite (av_header _ _ _ _ Ha), bool_decide_eq_false_2 by (by intros []).
  rewrite andb_false_r. rewrite bool_decide_eq_false_2 by (by apply (not_genesis hs blocks pb p)).
  rewrite Hr2. cbn [mbind result_bind]. rewrite Hp. cbn [default from_option id].
  rewrite (has_block_ok (with_cache b c1) hs blocks (bid pb)), (av_body _ _ _ _ Ha), bool_decide_eq_false_2;
    [|by intros []|apply (no_bodies _ _ _ _ _ (wh_node _ _ _ _ _ Hw2))|by apply (av_hash _ _ _ _ Ha)].
  unfold started in *. rewrite Hc. cbn [mbind result_bind]. done.
Qed.

End add_block.

End node.

End ChainLaws.
