(* ===== verification/UpdateLaws.v ===== *)
(** * Adding a block: theorems

    What [add_block] does with a block that arrives: it extends the main chain,
    makes the node switch to another branch, is kept on a branch of its own, or
    is refused, and the node is whole again whichever it is. *)

From S2P Require Import Prelude Varint Containers Seria Text CryptoNote Amounts Blocks Currency Db ChainState Store Pool Redo BlockLaws NodeLaws Headers HeaderLaws Consensus ConsensusLaws BlockStore BlockStoreLaws BranchLaws ChainUpdate ChainLaws.
Import Containers Codec Varint CryptoNote Blocks Currency Db ChainState Redo BlockLaws NodeLaws Headers HeaderLaws Consensus BlockStore BlockStoreLaws BranchLaws ChainUpdate ChainLaws.

Local Open Scope Z_scope.

Module UpdateLaws.

(** ** The transactions that return to the pool *)

Abbreviation returned := (Hash * (Transaction * BinaryArray))%type (only parsing).

(** They were read from their bytes once. *)
Definition parsed (x : returned) : Prop := c_ok ser_Transaction x.2.1 ∧ x.2.2 ≠ [].
(** The chain has room for their outputs. *)
Definition room_for (v : view) (x : returned) : Prop :=
  ∀ a, Z.of_nat (length (v_outs v a)) + Z.of_nat (length (outputs (tx_prefix x.2.1))) < 2 ^ 32.
Definition raws_size (l : list returned) : Z := foldr (λ x n, Pool.Pool.size x.2.2 + n) 0 l.
Definition pool_list (p : Pool.Pool.Pool) : list returned :=
  (λ e, (e.1, (Pool.Pool.pt_tx e.2, Pool.Pool.binary_tx e.2))) <$> map_entries (Pool.Pool.m_memory_state_tx p).

Lemma raws_size_nonneg l : 0 ≤ raws_size l.
Proof. unfold raws_size. induction l as [|x l IH]; cbn [foldr]; [done|]. unfold Pool.Pool.size at 1. lia. Qed.

Lemma raws_size_perm l l' : l ≡ₚ l' → raws_size l = raws_size l'.
Proof. unfold raws_size. induction 1; cbn [foldr]; congruence || lia. Qed.

Lemma pool_list_size p : Pool.Pool.pool_ok p → raws_size (pool_list p) = Pool.Pool.m_memory_state_total_size p.
Proof.
  intros Hp. rewrite (Pool.Pool.po_total _ Hp). unfold pool_list. generalize (Pool.Pool.m_memory_state_tx p). clear.
  intros m. rewrite (raws_size_perm _ ((λ e, (e.1, (Pool.Pool.pt_tx e.2, Pool.Pool.binary_tx e.2))) <$> map_to_list m))
    by (by rewrite map_entries_perm).
  induction m as [|tid t m Hm IH] using map_ind; [done|]. rewrite Pool.Pool.total_insert, <- IH by done.
  rewrite (raws_size_perm _ ((λ e, (e.1, (Pool.Pool.pt_tx e.2, Pool.Pool.binary_tx e.2))) <$> (tid, t) :: map_to_list m))
    by (by rewrite map_to_list_insert). done.
Qed.

(** ** Switching to another branch *)

(** The transactions that were in blocks that left the main chain, less those
    in blocks that joined it. *)
Definition undone_map (blocks : gmap Hash entry) (upper joined : list api_BlockHeader) : gmap Hash (Transaction * BinaryArray) :=
  erase_branch blocks joined (foldl add_undone ∅ (undone_list blocks upper)).

Lemma erase_branch_subseteq blocks l m : erase_branch blocks l m ⊆ m.
Proof.
  revert m. induction l as [|h l IH]; intros m; [done|]. cbn. etrans; [apply IH|]. unfold erase_all.
  generalize (hashes_at blocks h). intros hashes. revert m. induction hashes as [|x hashes IHh]; intros m; [done|]. cbn.
  etrans; [apply IHh|apply delete_subseteq].
Qed.

Lemma add_undone_elem l m tid x : foldl add_undone m l !! tid = Some x → (tid, x) ∈ l ∨ m !! tid = Some x.
Proof.
  revert m. induction l as [|[k y] l IH]; intros m Hl; [by right|]. cbn in Hl. apply IH in Hl as [Hl|Hl]; [left; by right|].
  unfold add_undone in Hl. cbn in Hl. destruct (m !! k) eqn:Hk; [by right|].
  apply lookup_insert_Some in Hl as [[<- <-]|[_ Hl]]; [left; by left|by right].
Qed.

Lemma entry_parsed e x : coded (e_block e) (e_raw e) (e_data e) (e_base e) → x ∈ entry_txs e → parsed x.
Proof.
  intros Hc Hx. destruct (coded_binaries _ _ _ _ Hc) as (cb & _ & Hf & Hne & _).
  unfold entry_txs in Hx. destruct x as [tid [tx raw]]. apply elem_of_zip_r in Hx. cbn in Hx.
  apply list_elem_of_lookup in Hx as (j & Hj). apply lookup_zip_with_Some in Hj as (tx' & raw' & Heq & Htx & Hraw).
  injection Heq as <- <-. pose proof (cd_txs _ _ _ _ Hc) as Hok. split; cbn.
  - rewrite Forall_lookup in Hok. by eapply Hok.
  - rewrite Forall_lookup in Hne. by apply (Hne (S j)).
Qed.

Lemma pool_list_sub (P : returned → Prop) p p' : Pool.Pool.m_memory_state_tx p' ⊆ Pool.Pool.m_memory_state_tx p →
  Forall P (pool_list p) → Forall P (pool_list p').
Proof.
  rewrite !Forall_forall. intros Hs HP x (e & -> & He)%list_elem_of_fmap. destruct e as [tid pt].
  apply HP, list_elem_of_fmap. exists (tid, pt). split; [done|]. apply elem_of_map_entries in He. apply elem_of_map_entries.
  by eapply lookup_weaken.
Qed.

(** A highest block has no children. *)
Lemma leaf_exists g hs bid h : tree_ok g hs → hs !! bid = Some h →
  ∃ x y, hs !! x = Some y ∧ children hs x = 0%nat.
Proof.
  intros Ht. remember (Z.to_nat (2 ^ 32 - bh_height h)) as n eqn:Hn. revert bid h Hn.
  induction n as [n IH] using lt_wf_ind. intros bid h Hn Hh.
  destruct (decide (children hs bid = 0%nat)) as [|Hne]; [by exists bid, h|].
  unfold children in Hne. apply map_size_non_empty_iff, map_choose in Hne as (x & y & Hy).
  apply map_lookup_filter_Some in Hy as [Hy [Hz Hp]]. cbn in Hz, Hp.
  destruct (tr_parent _ _ Ht _ _ Hy Hz) as (p & Hpl & Hhy). rewrite Hp, Hh in Hpl. injection Hpl as <-.
  destruct (tr_ok _ _ Ht _ _ Hy) as [_ Hok]. apply header_fields in Hok as (_ & [_ Hlt] & _).
  eapply (IH (Z.to_nat (2 ^ 32 - bh_height y))); [|reflexivity|exact Hy]. lia.
Qed.

Section reorganization.
Context {D : Type} `{LmdbLaws D} (currency : Currency).
Context (cn_fast_hash : list Z → Hash) (key_isvalid : PublicKey → bool).
Context (check_ring_signature : RingSignatureArg → bool * bool) (partial_header : BinaryArray → BlockTemplate).

#[local] Abbreviation node_good := (node_ok currency cn_fast_hash) (only parsing).

Lemma node_ok_pool b hs blocks main v p : node_good b hs blocks main v →
  node_shows {| store := store (node b); pool := p |} v → node_good (with_pool b p) hs blocks main v.
Proof.
  intros [[[] ] Hn Hb Hi Hh] Hp. split; [|done|done|done|done]. by split.
Qed.

Lemma with_pool_twice (b : BlockChain D) p q : with_pool (with_pool b p) q = with_pool b q.
Proof. done. Qed.

Lemma re_add_ok b hs blocks main v x c : node_good b hs blocks main v → main ≠ [] → parsed x → room_for v x →
  Pool.Pool.m_memory_state_total_size (pool (node b)) + Pool.Pool.size x.2.2 < 2 ^ 63 →
  ∃ p c', re_add currency cn_fast_hash key_isvalid check_ring_signature b x.1 x.2.1 x.2.2 c = Ok (with_pool b p, c') ∧
    node_good (with_pool b p) hs blocks main v ∧
    Pool.Pool.m_memory_state_total_size p ≤ Pool.Pool.m_memory_state_total_size (pool (node b)) + Pool.Pool.size x.2.2.
Proof.
  intros Hno Hne [Hok Hraw] Hroom Hsize. destruct (last main) as [t|] eqn:Ht; [|by apply last_None in Ht].
  unfold re_add. rewrite (get_tip_ok currency b hs main t (no_chain _ _ _ _ _ _ _ Hno) Ht). cbn [mbind result_bind].
  destruct (add_transaction_ok currency cn_fast_hash check_ring_signature key_isvalid (node b) v x.1 x.2.1 x.2.2
    (u32 (m_tip_height b + 1)) (bh_timestamp t) c (no_state _ _ _ _ _ _ _ Hno) Hok Hraw (u32_bound _) Hroom Hsize)
    as (p & r & c' & -> & Hn & Hs). cbn [mbind result_bind]. exists p, c'. split_and!; [done|by apply node_ok_pool|done].
Qed.

Lemma re_add_all_ok l hs blocks main v : main ≠ [] → Forall parsed l → Forall (room_for v) l → ∀ b c, node_good b hs blocks main v →
  Pool.Pool.m_memory_state_total_size (pool (node b)) + raws_size l < 2 ^ 63 →
  ∃ p c', re_add_all currency cn_fast_hash key_isvalid check_ring_signature l b c = Ok (with_pool b p, c') ∧
    node_good (with_pool b p) hs blocks main v ∧
    Pool.Pool.m_memory_state_total_size p ≤ Pool.Pool.m_memory_state_total_size (pool (node b)) + raws_size l.
Proof.
  intros Hne Hp Hr. induction Hp as [|x l Hx Hp IH]; intros b c Hno Hsize.
  { exists (pool (node b)), c. split_and!; [by destruct b as [[]]|by destruct b as [[]]|cbn; lia]. }
  apply Forall_cons in Hr as [Hrx Hr]. cbn [raws_size foldr] in Hsize. fold (raws_size l) in Hsize.
  pose proof (raws_size_nonneg l). destruct x as [tid [tx raw]]. cbn [re_add_all].
  destruct (re_add_ok b hs blocks main v (tid, (tx, raw)) c Hno Hne Hx Hrx) as (p & c1 & Hre & Hno1 & Hs1); [lia|].
  cbn [fst snd] in Hre, Hs1, Hsize. rewrite Hre. cbn [mbind result_bind].
  destruct (IH Hr (with_pool b p) c1 Hno1) as (p2 & c2 & -> & Hno2 & Hs2); [cbn; lia|].
  exists p2, c2. split_and!; [done|done|]. cbn in Hs2 |- *. fold (raws_size l). lia.
Qed.

(** The pool is filled again, and nothing else changes. *)
Lemma on_reorganization_ok b hs blocks main v m flag : node_good b hs blocks main v → main ≠ [] →
  Forall parsed (pool_list (pool (node b))) → Forall (room_for v) (pool_list (pool (node b))) →
  Forall parsed (map_entries m) → Forall (room_for v) (map_entries m) →
  Pool.Pool.m_memory_state_total_size (pool (node b)) + raws_size (map_entries m) < 2 ^ 63 →
  ∃ p, on_reorganization currency cn_fast_hash key_isvalid check_ring_signature b m flag = Ok (with_pool b p) ∧
    node_good (with_pool b p) hs blocks main v.
Proof.
  intros Hno Hne Hpp Hpr Hmp Hmr Hsize. pose proof (raws_size_nonneg (map_entries m)) as Hpos.
  pose proof (nd_pool _ _ (no_state _ _ _ _ _ _ _ Hno)) as Hp. pose proof (pool_list_size _ Hp) as Hps.
  assert (∃ p c, (if flag then re_add_all currency cn_fast_hash key_isvalid check_ring_signature (pool_list (pool (node b)))
      (with_pool b (clear_pool (pool (node b)))) 0 else Ok (b, 0)) = Ok (with_pool b p, c) ∧
    node_good (with_pool b p) hs blocks main v ∧
    Pool.Pool.m_memory_state_total_size p ≤ Pool.Pool.m_memory_state_total_size (pool (node b))) as (p1 & c1 & Hfirst & Hno1 & Hs1).
  { destruct flag.
    - destruct (re_add_all_ok (pool_list (pool (node b))) hs blocks main v Hne Hpp Hpr (with_pool b (clear_pool (pool (node b)))) 0)
        as (p & c & -> & Hno1 & Hs); [|cbn; lia|exists p, c; split_and!; [done|done|cbn in Hs; lia]].
      apply node_ok_pool; [done|]. destruct (no_state _ _ _ _ _ _ _ Hno) as [Hst _ _]. split; [done| |].
      + destruct Pool.Pool.empty_pool_ok. by split.
      + cbn. intros ki tid Hl. by rewrite lookup_empty in Hl.
    - exists (pool (node b)), 0. split_and!; [by destruct b as [[]]|by destruct b as [[]]|lia]. }
  unfold on_reorganization. fold (pool_list (pool (node b))). rewrite Hfirst. cbn [mbind result_bind].
  destruct (re_add_all_ok (map_entries m) hs blocks main v Hne Hmp Hmr (with_pool b p1) c1 Hno1)
    as (p2 & c2 & -> & Hno2 & _); [cbn; lia|]. cbn [mbind result_bind].
  exists (with_version p2 2). split; [done|]. apply node_ok_pool; [done|].
  destruct (no_state _ _ _ _ _ _ _ Hno2) as [Hst Hp2 Hu2]. split; [done| |exact Hu2]. destruct Hp2. by split.
Qed.

(** ** The outcomes *)

#[local] Abbreviation settles := (settle currency cn_fast_hash check_ring_signature partial_header key_isvalid) (only parsing).
#[local] Abbreviation whole_node := (whole currency cn_fast_hash) (only parsing).
#[local] Abbreviation fresh := (fresh_block cn_fast_hash) (only parsing).

Lemma main_tids_insert blocks main bid e : (∀ h, h ∈ main → bh_hash h ≠ bid) →
  main_tids (<[bid := e]> blocks) main = main_tids blocks main.
Proof.
  intros Hm. unfold main_tids. f_equal. apply list_fmap_ext. intros j h Hj. unfold tids_at.
  rewrite lookup_insert_ne; [done|]. intros Heq. apply (Hm h); [by eapply list_elem_of_lookup_2|done].
Qed.

Lemma absent_from_main (b : BlockChain D) hs blocks main v bid : whole_node b hs blocks main v → hs !! bid = None →
  ∀ h, h ∈ main → bh_hash h ≠ bid.
Proof.
  intros Hw Hn h (j & Hj)%list_elem_of_lookup Heq.
  destruct (mn_height _ _ (cs_main _ _ _ _ (no_chain _ _ _ _ _ _ _ (wh_node _ _ _ _ _ _ _ Hw))) _ _ Hj) as [_ Hin].
  rewrite Heq in Hin. congruence.
Qed.

(** The main chain gets the block, and the node says so. *)
Lemma settle_on_top (b : BlockChain D) hs blocks main v info t : whole_node b hs blocks main v → last main = Some t →
  bh_hash t = bh_hash info → ∃ b', whole_node b' hs blocks main v ∧
    (let b := if m_tip_height b mod COMMIT_EVERY_N_BLOCKS =? COMMIT_EVERY_N_BLOCKS - 1 then db_commit b else b in
     Ok (if bool_decide (bh_hash info = m_tip_bid b) then BROADCAST_ALL else NOTHING, Some info, b)) =
    Ok (BROADCAST_ALL, Some info, b').
Proof.
  intros Hw Ht Hi. cbv zeta. set (b' := if _ =? _ then _ else b). exists b'.
  assert (whole_node b' hs blocks main v) as Hw' by (unfold b'; destruct (_ =? _); [by apply whole_commit|done]).
  split; [done|]. pose proof (cs_tip _ _ _ _ (no_chain _ _ _ _ _ _ _ (wh_node _ _ _ _ _ _ _ Hw'))) as Htip. rewrite Ht in Htip.
  destruct Htip as [-> _]. by rewrite bool_decide_eq_true_2.
Qed.

Lemma settle_elsewhere (b : BlockChain D) hs blocks main v info t : whole_node b hs blocks main v → last main = Some t →
  bh_hash t ≠ bh_hash info → ∃ b', whole_node b' hs blocks main v ∧
    (let b := if m_tip_height b mod COMMIT_EVERY_N_BLOCKS =? COMMIT_EVERY_N_BLOCKS - 1 then db_commit b else b in
     Ok (if bool_decide (bh_hash info = m_tip_bid b) then BROADCAST_ALL else NOTHING, Some info, b)) =
    Ok (NOTHING, Some info, b').
Proof.
  intros Hw Ht Hi. cbv zeta. set (b' := if _ =? _ then _ else b). exists b'.
  assert (whole_node b' hs blocks main v) as Hw' by (unfold b'; destruct (_ =? _); [by apply whole_commit|done]).
  split; [done|]. pose proof (cs_tip _ _ _ _ (no_chain _ _ _ _ _ _ _ (wh_node _ _ _ _ _ _ _ Hw'))) as Htip. rewrite Ht in Htip.
  destruct Htip as [-> _]. rewrite bool_decide_eq_false_2; [done|]. by intros Heq; apply Hi.
Qed.

Lemma settle_extends b hs blocks main v pb info p t : counts_nonneg currency → windows_ok (D := D) currency →
  whole_node b hs blocks main v → last main = Some t → fresh hs blocks pb info p →
  previous_block_hash (header (template pb)) = bh_hash t → bh_cumulative_difficulty t < bh_cumulative_difficulty info →
  Z.of_nat (base.size hs) < 2 ^ 32 - 1 → Z.of_nat (length main) + 1 < 2 ^ 32 - 1 →
  accepts currency cn_fast_hash check_ring_signature v info (new_entry pb) →
  (∀ tid, tid ∈ tids (new_entry pb) → tid ∉ main_tids blocks main) →
  ∃ b', settles b pb p (inr info) = Ok (BROADCAST_ALL, Some info, b') ∧
    whole_node b' (<[bid pb := info]> hs) (<[bid pb := new_entry pb]> blocks) (main ++ [info])
      (foldl v_effect v (entry_effects info (new_entry pb))).
Proof.
  intros Hcn Hwo Hw Ht Hf Hprev Hcd Hsz Hlen Hac Hfresh.
  destruct (add_checked_block_stores currency cn_fast_hash check_ring_signature partial_header key_isvalid b hs blocks main v pb info p
    Hw Hf Hsz) as (b1 & Hw1 & Htip1 & Hcd1 & Hpool1 & Hadd).
  pose proof (cs_tip _ _ _ _ (no_chain _ _ _ _ _ _ _ (wh_node _ _ _ _ _ _ _ Hw))) as Htip. rewrite Ht in Htip. destruct Htip as [Htb Htc].
  pose proof (fb_hash _ _ _ _ _ _ Hf) as Hbid. pose proof (fb_prev _ _ _ _ _ _ Hf) as Hip.
  assert (bh_height info = Z.of_nat (length main)) as Hh.
  { rewrite (fb_height _ _ _ _ _ _ Hf). pose proof (fb_parent _ _ _ _ _ _ Hf) as Hp. rewrite last_lookup in Ht.
    destruct (mn_height _ _ (cs_main _ _ _ _ (no_chain _ _ _ _ _ _ _ (wh_node _ _ _ _ _ _ _ Hw))) _ _ Ht) as [Hth Hin].
    rewrite Hprev, Hin in Hp. injection Hp as <-. rewrite Hth. apply lookup_lt_Some in Ht. lia. }
  destruct (redo_push_ok currency cn_fast_hash check_ring_signature b1 (<[bid pb := info]> hs) (<[bid pb := new_entry pb]> blocks) main v
    info (new_entry pb) Hcn Hwo (wh_node _ _ _ _ _ _ _ Hw1)) as (b2 & b3 & Hr & Hp & Hno3 & Hk & _); try done.
  { rewrite Hbid. apply lookup_insert_eq. } { rewrite Hbid. apply lookup_insert_eq. }
  { intros t' Ht'. rewrite Ht in Ht'. injection Ht' as <-. congruence. }
  { rewrite main_tids_insert; [done|]. eapply absent_from_main; [exact Hw|apply Hf]. }
  assert (whole_node b3 (<[bid pb := info]> hs) (<[bid pb := new_entry pb]> blocks) (main ++ [info])
      (foldl v_effect v (entry_effects info (new_entry pb)))) as Hw3.
  { split; [done|]. eapply (main_block_tips currency cn_fast_hash b1); [apply (wh_node _ _ _ _ _ _ _ Hw1)| | |apply (wh_tips _ _ _ _ _ _ _ Hw1)|exact Hk];
      rewrite Hbid; apply lookup_insert_eq. }
  destruct (settle_on_top _ _ _ _ _ info info Hw3 ltac:(by rewrite last_snoc) eq_refl) as (b' & Hw' & Hres).
  exists b'. split; [|done]. unfold settle. rewrite Hadd, Htb, Htc. replace (_ >? _) with true by lia.
  rewrite bool_decide_eq_true_2 by done. cbn [e_block e_raw e_data e_base new_entry] in Hr. rewrite Hbid in Hr.
  rewrite Hr. cbn [mbind result_bind]. rewrite Hp. exact Hres.
Qed.

Lemma settle_beside b hs blocks main v pb info p t : whole_node b hs blocks main v → last main = Some t →
  fresh hs blocks pb info p → bh_cumulative_difficulty info ≤ bh_cumulative_difficulty t → Z.of_nat (base.size hs) < 2 ^ 32 - 1 →
  ∃ b', settles b pb p (inr info) = Ok (NOTHING, Some info, b') ∧
    whole_node b' (<[bid pb := info]> hs) (<[bid pb := new_entry pb]> blocks) main v.
Proof.
  intros Hw Ht Hf Hcd Hsz.
  destruct (add_checked_block_stores currency cn_fast_hash check_ring_signature partial_header key_isvalid b hs blocks main v pb info p
    Hw Hf Hsz) as (b1 & Hw1 & Htip1 & Hcd1 & Hpool1 & Hadd).
  pose proof (cs_tip _ _ _ _ (no_chain _ _ _ _ _ _ _ (wh_node _ _ _ _ _ _ _ Hw))) as Htip. rewrite Ht in Htip. destruct Htip as [Htb Htc].
  destruct (settle_elsewhere b1 _ _ _ _ info t Hw1 Ht) as (b' & Hw' & Hres).
  { rewrite (fb_hash _ _ _ _ _ _ Hf). eapply absent_from_main; [exact Hw|apply Hf|]. rewrite last_lookup in Ht. by eapply list_elem_of_lookup_2. }
  exists b'. split; [|done]. unfold settle. rewrite Hadd, Htc. replace (_ >? _) with false by lia. exact Hres.
Qed.

(** A block that its state refuses is kept all the same. *)
Lemma settle_banned b hs blocks main v pb info p t : whole_node b hs blocks main v → last main = Some t →
  fresh hs blocks pb info p → previous_block_hash (header (template pb)) = bh_hash t →
  bh_cumulative_difficulty t < bh_cumulative_difficulty info → Z.of_nat (base.size hs) < 2 ^ 32 - 1 →
  refuses (D := D) currency cn_fast_hash check_ring_signature v info (new_entry pb) →
  ∃ b', settles b pb p (inr info) = Ok (BAN, Some info, b') ∧
    whole_node b' (<[bid pb := info]> hs) (<[bid pb := new_entry pb]> blocks) main v.
Proof.
  intros Hw Ht Hf Hprev Hcd Hsz Href.
  destruct (add_checked_block_stores currency cn_fast_hash check_ring_signature partial_header key_isvalid b hs blocks main v pb info p
    Hw Hf Hsz) as (b1 & Hw1 & Htip1 & Hcd1 & Hpool1 & Hadd).
  pose proof (cs_tip _ _ _ _ (no_chain _ _ _ _ _ _ _ (wh_node _ _ _ _ _ _ _ Hw))) as Htip. rewrite Ht in Htip. destruct Htip as [Htb Htc].
  exists b1. split; [|done]. unfold settle. rewrite Hadd, Htb, Htc. replace (_ >? _) with true by lia.
  rewrite bool_decide_eq_true_2 by done. unfold redo_block.
  pose proof (Href (node b1) (no_state _ _ _ _ _ _ _ (wh_node _ _ _ _ _ _ _ Hw1))) as Hr. rewrite (fb_hash _ _ _ _ _ _ Hf) in Hr.
  cbn [e_block new_entry] in Hr. by rewrite Hr.
Qed.

Lemma undone_parsed d hs blocks upper joined : bodies_show cn_fast_hash d hs blocks →
  Forall parsed (map_entries (undone_map blocks upper joined)).
Proof.
  intros Hbs. apply Forall_forall. intros [tid x] Hx%elem_of_map_entries.
  eapply lookup_weaken in Hx; [|apply erase_branch_subseteq]. apply add_undone_elem in Hx as [Hx|Hx]; [|by rewrite lookup_empty in Hx].
  unfold undone_list in Hx. apply elem_of_concat in Hx as (l & (h & -> & _)%list_elem_of_fmap & Hx). unfold txs_at in Hx.
  destruct (blocks !! bh_hash h) as [e|] eqn:He; [|by apply elem_of_nil in Hx].
  eapply entry_parsed; [|exact Hx]. apply (bs_entry _ _ _ _ Hbs _ _ He).
Qed.

#[local] Abbreviation run := (branch_run (D := D) currency cn_fast_hash check_ring_signature) (only parsing).

Lemma branch_run_prefix blocks main v branch joined ok : run blocks main v branch joined ok →
  ∃ rest, branch = joined ++ rest ∧ if ok then rest = [] else rest ≠ [].
Proof.
  induction 1 as [main v|main v h e rest He Hr|main v h e rest joined ok He Ha Hf Hrun (more & -> & Hm)]; [by exists []|by eexists|].
  by exists more.
Qed.

(** The block at the end of a branch is the tip if all the branch was taken. *)
Lemma branch_run_tip hs blocks pre v branch joined ok info : main_ok hs (pre ++ branch) → last (pre ++ branch) = Some info →
  pre ≠ [] → run blocks pre v branch joined ok →
  ∃ t, last (pre ++ joined) = Some t ∧ if ok then t = info else bh_hash t ≠ bh_hash info.
Proof.
  intros Hm Hl Hne Hrun. destruct (branch_run_prefix _ _ _ _ _ _ Hrun) as (rest & -> & Hrest).
  destruct (last (pre ++ joined)) as [t|] eqn:Ht; [|apply last_None, app_eq_nil in Ht as [? _]; done].
  exists t. split; [done|]. destruct ok; [subst rest; rewrite app_nil_r in Hl; congruence|].
  rewrite last_lookup in Ht, Hl. rewrite app_assoc in Hm, Hl. pose proof (lookup_lt_Some _ _ _ Ht) as Hlt.
  destruct (mn_height _ _ Hm (pred (length (pre ++ joined))) t) as [Hh _]; [by rewrite lookup_app_l|].
  destruct (mn_height _ _ Hm _ _ Hl) as [Hi _]. intros Heq.
  assert (t = info) as ->.
  { eapply (main_hash_inj _ _ _ _ Hm); [|by eapply list_elem_of_lookup_2|done]. apply elem_of_app. left. by eapply list_elem_of_lookup_2. }
  rewrite length_app in Hi. destruct rest; [done|]. cbn in Hi. lia.
Qed.

Lemma settle_switches b hs blocks main v pb info p t : counts_nonneg currency → windows_ok (D := D) currency →
  whole_node b hs blocks main v → last main = Some t → fresh hs blocks pb info p →
  previous_block_hash (header (template pb)) ≠ bh_hash t → bh_cumulative_difficulty t < bh_cumulative_difficulty info →
  Z.of_nat (base.size hs) < 2 ^ 32 - 1 → (∀ bid h, hs !! bid = Some h → bh_height h < 2 ^ 32 - 3) →
  let hs' := <[bid pb := info]> hs in
  let blocks' := <[bid pb := new_entry pb]> blocks in
  ∃ pre upper branch, main = pre ++ upper ∧ pre ≠ [] ∧ main_ok hs' (pre ++ branch) ∧ last (pre ++ branch) = Some info ∧
    ∀ w joined ok w', history blocks' pre w → Forall (λ h, is_Some (blocks' !! bh_hash h)) branch →
      run blocks' pre w branch joined ok → history blocks' (pre ++ joined) w' →
      let back := map_entries (undone_map blocks' upper joined) in
      Forall parsed (pool_list (pool (node b))) → Forall (room_for w') (pool_list (pool (node b)) ++ back) →
      Pool.Pool.m_memory_state_total_size (pool (node b)) + raws_size back < 2 ^ 63 →
      ∃ b', settles b pb p (inr info) = Ok (if ok then BROADCAST_ALL else NOTHING, Some info, b') ∧
        whole_node b' hs' blocks' (pre ++ joined) w'.
Proof.
  intros Hcn Hwo Hw Ht Hf Hprev Hcd Hsz Hheights hs' blocks'.
  destruct (add_checked_block_stores currency cn_fast_hash check_ring_signature partial_header key_isvalid b hs blocks main v pb info p
    Hw Hf Hsz) as (b1 & Hw1 & Htip1 & Hcd1 & Hpool1 & Hadd). fold hs' blocks' in Hw1.
  pose proof (cs_tip _ _ _ _ (no_chain _ _ _ _ _ _ _ (wh_node _ _ _ _ _ _ _ Hw))) as Htip. rewrite Ht in Htip. destruct Htip as [Htb Htc].
  destruct (reorganize_blocks_ok currency cn_fast_hash check_ring_signature partial_header key_isvalid b1 hs' blocks' main v t pb info
    Hcn Hwo (wh_node _ _ _ _ _ _ _ Hw1) Ht) as (pre & upper & branch & Hmain & Hne & Hm & Hlast & Hreorg).
  { split; apply lookup_insert_eq. }
  { intros bid' h [[<- <-]|[_ Hh]]%lookup_insert_Some; [|by apply Hheights in Hh; lia].
    rewrite (fb_height _ _ _ _ _ _ Hf). pose proof (Hheights _ _ (fb_parent _ _ _ _ _ _ Hf)). lia. }
  exists pre, upper, branch. split_and!; try done. intros w joined ok w' Hhist Hbodies Hrun Hhist' back Hparsed Hroom Hsize.
  destruct (Hreorg w joined ok Hhist Hbodies Hrun) as (b2 & w2 & Hno2 & Hsub & Htips & Hres).
  assert (w2 = w') as -> by (eapply history_det; [apply (no_history _ _ _ _ _ _ _ Hno2)|done]).
  assert (Pool.Pool.m_memory_state_tx (pool (node b2)) ⊆ Pool.Pool.m_memory_state_tx (pool (node b))) as Hsub'.
  { rewrite <- Hpool1. exact Hsub. }
  apply Forall_app in Hroom as [Hroom1 Hroom2].
  destruct (on_reorganization_ok b2 hs' blocks' (pre ++ joined) w'
    (undone_map blocks' upper joined) (negb (bool_decide (upper = []))) Hno2) as (p2 & Hon & Hno3).
  { by destruct pre. } { by apply (pool_list_sub _ (pool (node b))). } { by apply (pool_list_sub _ (pool (node b))). }
  { eapply undone_parsed. apply (no_bodies _ _ _ _ _ _ _ Hno2). } { done. }
  { pose proof (nd_pool _ _ (no_state _ _ _ _ _ _ _ Hno2)) as Hp2. pose proof (nd_pool _ _ (no_state _ _ _ _ _ _ _ (wh_node _ _ _ _ _ _ _ Hw))) as Hp.
    rewrite (Pool.Pool.po_total _ Hp2). pose proof (total_subseteq _ _ Hsub'). rewrite (Pool.Pool.po_total _ Hp) in Hsize. fold back. lia. }
  assert (whole_node (with_pool b2 p2) hs' blocks' (pre ++ joined) w') as Hw3.
  { split; [done|]. apply Htips, (wh_tips _ _ _ _ _ _ _ Hw1). }
  destruct (branch_run_tip _ _ _ _ _ _ _ _ Hm Hlast Hne Hrun) as (t' & Ht' & Hti).
  unfold settle. rewrite Hadd, Htb, Htc. replace (_ >? _) with true by lia. rewrite bool_decide_eq_false_2 by congruence.
  rewrite Hres. fold (undone_map blocks' upper joined). rewrite Hon. cbn [mbind result_bind or_exit negb]. destruct ok.
  - subst t'. by destruct (settle_on_top _ _ _ _ _ info info Hw3 Ht' eq_refl) as (b' & Hw' & Hset); exists b'.
  - by destruct (settle_elsewhere _ _ _ _ _ info t' Hw3 Ht' Hti) as (b' & Hw' & Hset); exists b'.
Qed.

(** A node without blocks. *)
Record blank (b : BlockChain D) : Prop := {
  bl_chain : chain_shows currency b ∅ [];
  bl_state : node_shows (node b) Store.empty_view;
  bl_keys k : ckey_ok k → at_key (m_db b) k = None;
  bl_tips : tips_show (m_db b) ∅;
}.

Lemma blank_node b : blank b → node_good b ∅ ∅ [] Store.empty_view.
Proof.
  intros [Hs Hn Hk Ht]. split; [done|done| | |constructor].
  - split; [|done]. intros bid Hb. rewrite Hk by done. by rewrite lookup_empty.
  - split.
    + intros bid Hb. rewrite Hk by done. split; [by intros []|by intros ?%elem_of_nil].
    + intros t x Ht' Hx. rewrite Hk by done. by rewrite lookup_nil.
    + intros tid Htid. rewrite Hk by done. split; [by intros []|by intros ?%elem_of_nil].
    + by intros h e i tid tx ?%elem_of_nil.
    + constructor.
Qed.

(** The genesis block opens the main chain of a blank node. *)
Lemma add_genesis_ok b pb info prev : counts_nonneg currency → windows_ok (D := D) currency → blank b →
  bid pb = genesis_block_hash currency → bh_hash info = bid pb → bh_height info = 0 → c_ok ser_api_BlockHeader info →
  bh_timestamp info = Blocks.timestamp (header (template pb)) →
  bh_previous_block_hash info = previous_block_hash (header (template pb)) →
  coded (block pb) (pb_raw pb) (block_data pb) (base_transaction_hash pb) →
  get_transaction_hash cn_fast_hash (base_transaction (template pb)) = Ok (base_transaction_hash pb) →
  accepts (D := D) currency cn_fast_hash check_ring_signature Store.empty_view info (new_entry pb) →
  ∃ b', add_checked_block currency cn_fast_hash key_isvalid check_ring_signature partial_header b pb info prev false = Ok (true, b') ∧
    whole_node b' {[bid pb := info]} {[bid pb := new_entry pb]} [info] (foldl v_effect Store.empty_view (entry_effects info (new_entry pb))).
Proof.
  intros Hcn Hwo Hbl Hg Hb Hh Hok Htime Hprev Hc Hbase Hac. pose proof (blank_node b Hbl) as Hno.
  assert (tree_ok (genesis currency) (<[bid pb := info]> ∅)) as Ht.
  { rewrite <- Hb. apply tree_ok_insert; [apply (hd_tree _ _ _ (cs_headers _ _ _ _ (bl_chain _ Hbl)))|done|done|].
    rewrite decide_True by done. by rewrite Hb. }
  destruct (store_block_ok currency cn_fast_hash partial_header key_isvalid b ∅ ∅ [] Store.empty_view (bid pb) info (new_entry pb) Hno)
    as (d1 & d2 & Hst1 & Hst2 & Hbut & Hno2); try done.
  { split; [done|done|]. exists info. by rewrite lookup_insert_eq. } { by intros h' ?%elem_of_nil. }
  assert (is_hash (bid pb)) as Hbid by (rewrite <- Hb; by apply header_fields).
  destruct (redo_push_ok currency cn_fast_hash check_ring_signature (with_m_db b d2) (<[bid pb := info]> ∅) (<[bid pb := new_entry pb]> ∅) []
    Store.empty_view info (new_entry pb) Hcn Hwo Hno2) as (b3 & b4 & Hr & Hp & Hno4 & Hk & _); try done.
  { rewrite Hb. apply lookup_insert_eq. } { rewrite Hb. apply lookup_insert_eq. } { by intros tid _ ?%elem_of_nil. }
  assert (tips_show (m_db b4) ∅) as Hts4.
  { eapply (tips_show_kept ([KBlock (bid pb); KHeader (bid pb)] ++ KChain (bh_height info) ::
      block_keys (bh_hash info) (e_block (new_entry pb)) (bh_timestamp info) (bh_height info) (e_base (new_entry pb)))).
    - apply (bl_tips _ Hbl).
    - eapply kept_trans; [by apply but_kept|exact Hk].
    - destruct Hok as (_ & _ & Ht32 & _ & _ & Hh32 & _). cbn [app]. rewrite Hb. do 3 (apply Forall_cons; split; [done|]).
      by eapply block_keys_ok.
    - cbn [app]. do 5 (apply Forall_cons; split; [by intros []|]). apply Forall_fmap, Forall_forall. by intros tid _ []. }
  destruct (add_root_ok b4 (bid pb) info Hts4 Hok Hb Hh) as (d5 & Hck & Hm & Hbut5 & Hts5).
  { apply (hd_room _ _ _ (cs_headers _ _ _ _ (no_chain _ _ _ _ _ _ _ Hno4))). }
  exists (with_m_db b4 d5). split; [|split; [|done]].
  - unfold add_checked_block. cbn [new_entry e_data] in Hst1. rewrite Hst1. cbn [mbind result_bind]. rewrite Hst2.
    cbn [mbind result_bind]. rewrite bool_decide_eq_true_2 by done. cbn [new_entry e_data e_block e_raw e_base] in Hr. rewrite Hb in Hr.
    rewrite Hr. cbn [mbind result_bind of_option]. rewrite Hp. cbn [mbind result_bind]. rewrite Hck. cbn [mbind result_bind]. rewrite Hm.
    cbn [mbind result_bind]. pose proof (cs_tip _ _ _ _ (no_chain _ _ _ _ _ _ _ Hno4)) as [_ Hcd].
    change (m_tip_cumulative_difficulty (with_m_db b4 d5)) with (m_tip_cumulative_difficulty b4). rewrite Hcd.
    by replace (_ >? _) with false by lia.
  - destruct (header_fields _ Hok) as (_ & _ & _ & Hcd). eapply node_ok_but; [exact Hno4|exact Hbut5| | |].
    + by repeat (apply Forall_cons; split).
    + by repeat (apply Forall_cons; split).
    + intros x. set_solver.
Qed.

(** A block of the tree is not looked at again. *)
Lemma known_block_ignored slow lite b hs blocks main v now pb e h : whole_node b hs blocks main v →
  is_hash (bid pb) → hs !! bid pb = Some h → blocks !! bid pb = Some e →
  ∃ c, add_block currency cn_fast_hash slow lite key_isvalid check_ring_signature partial_header b now pb =
    Ok (NOTHING, Some h, with_cache b c).
Proof.
  intros Hw Hb Hh He. pose proof (no_chain _ _ _ _ _ _ _ (wh_node _ _ _ _ _ _ _ Hw)) as Hs.
  destruct (read_header_ok currency b hs main (bid pb) 0 Hs Hb) as (c & Hr & Hs1); [done|]. exists c.
  unfold add_block. rewrite Hr. cbn [mbind result_bind]. rewrite Hh.
  rewrite (has_block_ok cn_fast_hash (with_cache b c) hs blocks (bid pb)); [|apply (no_bodies _ _ _ _ _ _ _ (wh_node _ _ _ _ _ _ _ Hw))|done].
  by rewrite He.
Qed.

End reorganization.

(** ** Validation, then the outcome *)

Section validated.
Context {D : Type} `{LmdbLaws D} (currency : Currency).
Context (cn_fast_hash cn_slow_hash cn_lite_slow_hash_v1 : list Z → Hash) (key_isvalid : PublicKey → bool).
Context (check_ring_signature : RingSignatureArg → bool * bool) (partial_header : BinaryArray → BlockTemplate).

#[local] Abbreviation add := (add_block (D := D) currency cn_fast_hash cn_slow_hash cn_lite_slow_hash_v1 key_isvalid
  check_ring_signature partial_header) (only parsing).
#[local] Abbreviation whole_node := (whole (D := D) currency cn_fast_hash) (only parsing).

(** Validation says [checked] of the block on [p], whichever headers are
    cached. *)
Definition validates (b : BlockChain D) hs blocks main v (now : Timestamp) (pb : PreparedBlock) (p : api_BlockHeader)
    (good : string + api_BlockHeader → Prop) : Prop :=
  ∀ c, whole_node (with_cache b c) hs blocks main v → ∃ checked b1,
    check_standalone_consensus currency cn_fast_hash cn_slow_hash cn_lite_slow_hash_v1 key_isvalid (with_cache b c) now pb
      (started pb p) p true = Ok (checked, b1) ∧ good checked.

Lemma add_block_validates b hs blocks main v now pb p good : counts_nonneg currency → whole_node b hs blocks main v →
  arrives cn_fast_hash hs blocks pb p → validates b hs blocks main v now pb p good →
  ∃ checked b1, good checked ∧ whole_node b1 hs blocks main v ∧ pool (node b1) = pool (node b) ∧
    add b now pb = settle currency cn_fast_hash check_ring_signature partial_header key_isvalid b1 pb p checked ∧
    match checked with inl _ => True | inr info => c_ok ser_api_BlockHeader info → fresh_block cn_fast_hash hs blocks pb info p end.
Proof.
  intros Hcn Hw Ha Hv.
  destruct (add_block_settles currency cn_fast_hash check_ring_signature partial_header key_isvalid cn_slow_hash cn_lite_slow_hash_v1
    b hs blocks main v now pb p Hcn Hw Ha) as (c & Hwc & Hc).
  destruct (Hv c Hwc) as (checked & b1 & Hval & Hgood). destruct (Hc _ _ Hval) as (Hadd & Hw1 & (c' & Hb1) & Hinfo).
  exists checked, b1. split_and!; [done|done|by rewrite Hb1|done|]. destruct checked as [e|info]; [done|].
  destruct Hinfo as [f ->]. intros Hok. eapply arrives_fresh; [|done|done].
  apply (hd_tree _ _ _ (cs_headers _ _ _ _ (no_chain _ _ _ _ _ _ _ (wh_node _ _ _ _ _ _ _ Hw)))).
Qed.

End validated.

End UpdateLaws.
