(* ===== verification/SampleNode.v ===== *)
(** * A small node of the test network

    Its main chain is the genesis block and one block on it; another block on
    the genesis block is beside the main chain.  The blocks are real ones,
    with merge-mined proofs of work for the difficulty of a young network; the
    theorems about [add_block] are tried on them. *)

From stdpp Require Import functions.
From S2P Require Import Prelude Varint Containers Seria Text CryptoNote Amounts Blocks Currency Db ChainState Store Pool Redo BlockLaws NodeLaws Headers HeaderLaws Consensus ConsensusLaws BlockStore BlockStoreLaws BranchLaws ChainUpdate ChainLaws UpdateLaws.
Import Containers Codec Varint CryptoNote Blocks Currency Db ChainState Redo BlockLaws NodeLaws Headers HeaderLaws Consensus BlockStore BlockStoreLaws BranchLaws ChainUpdate ChainLaws UpdateLaws.

Local Open Scope Z_scope.

Module SampleNode.

(** ** Blocks of one transaction *)

Section coinbase.
Context {D : Type} `{LmdbLaws D} (currency : Currency).
Context (cn_fast_hash : list Z → Hash) (check_ring_signature : RingSignatureArg → bool * bool).

(** A block with a coinbase alone is accepted by any state that has room. *)
Lemma coinbase_accepts v h e :
  block_transactions (e_block e) = [] → omap Pool.Pool.key_image_of (inputs (tx_prefix (base_transaction (block_header (e_block e))))) = [] →
  c_ok ser_Transaction (base_transaction (block_header (e_block e))) → in_u 32 (bh_height h) →
  (∀ a, Z.of_nat (length (v_outs v a) + length (outputs (tx_prefix (base_transaction (block_header (e_block e)))))) < 2 ^ 32) →
  is_in_sw_checkpoint_zone currency (u32 (bh_height h + 1)) = Ok false →
  accepts (D := D) currency cn_fast_hash check_ring_signature v h e.
Proof.
  intros Htx Hin Hok Hh Hroom Hz. set (tx := base_transaction (block_header (e_block e))) in *.
  destruct (transaction_ranges tx Hok) as [[_ Ho Hu] (_ & _ & _ & [Hlen _] & _)].
  assert (entry_effects h e = output_effect (bh_height h) (unlock_time (tx_prefix tx)) <$> outputs (tx_prefix tx)) as Hes.
  { unfold entry_effects, block_effects, block_txs. fold tx. rewrite Htx. cbn. rewrite app_nil_r. unfold tx_effects.
    revert Hin. generalize (output_effect (bh_height h) (unlock_time (tx_prefix tx)) <$> outputs (tx_prefix tx)).
    clear. induction (inputs (tx_prefix tx)) as [|[bi|a idx ki] ins IH]; intros l Hi; [done| |done]. cbn. by apply IH. }
  split; [rewrite Hes; split| |].
  - assert (∀ outs, stores (output_effect (bh_height h) (unlock_time (tx_prefix tx)) <$> outs) = []) as -> by (by induction outs).
    constructor.
  - intros ki x (o & Heq & _)%list_elem_of_fmap. done.
  - intros a o (x & Heq & Hx)%list_elem_of_fmap. rewrite Forall_forall in Ho. destruct (Ho x Hx) as [Ha Hk].
    destruct x as [amount [key]]. injection Heq as -> ->. cbn in Ha, Hk. split; [|done].
    split; [exact Ha|]. split; [exact Hu|split; [exact Hk|by split]].
  - intros a. assert (∀ outs, length (pushes (output_effect (bh_height h) (unlock_time (tx_prefix tx)) <$> outs)) = length outs) as ->.
    { intros outs. induction outs as [|o outs IH]; [done|]. cbn in *. by f_equal. } apply Hroom.
  - assert (∀ outs, spends (output_effect (bh_height h) (unlock_time (tx_prefix tx)) <$> outs) = []) as -> by (by induction outs).
    constructor.
  - intros a gi (o & Heq & _)%list_elem_of_fmap. done.
  - split; unfold block_txs; rewrite Htx; [done|]. fold tx. apply Forall_singleton. exact Hlen.
  - intros n _. right. split; [done|]. exists []. by rewrite Htx.
Qed.

End coinbase.

(** ** The network *)

(** A stand-in for the hash: the first bytes, and a sum over all. *)
Definition sample_hash (l : list Z) : Hash := take 31 (l ++ replicate 31 0) ++ [foldl (λ s b, (s * 31 + b) mod 256) 7 l].
Definition test_net : Currency :=
  ltac:(let r := eval vm_compute in (make_Currency sample_hash true) in
        match r with Ok ?c => exact c end).

(** The genesis block of the test network stands in for the header of a
    template that is refused. *)
Definition no_header (_ : BinaryArray) : BlockTemplate := genesis_block_template test_net.
Definition sample_prepare (t : BlockTemplate) : result PreparedBlock :=
  raw ← of_option (to_raw_block {| block_header := t; block_transactions := [] |}) (Throw "");
  prepare_block sample_hash sample_hash sample_hash no_header false raw.
Definition mined_template (height : Height) (time : Timestamp) (previous : Hash) (reward : Amount) : BlockTemplate := {|
  header := {| major_version := 2; minor_version := 0; timestamp := time; nonce := 0; previous_block_hash := previous |};
  parent_block := {| pb_major_version := 1; pb_minor_version := 0; pb_previous_block_hash := null_hash;
    transaction_count := 1; base_transaction_branch := []; pb_base_transaction := default_prefix; blockchain_branch := [] |};
  base_transaction := {| tx_prefix := {| version := 1; unlock_time := height + 10; inputs := [CoinbaseInput height];
    outputs := [{| out_amount := reward; out_target := KeyOutput (replicate 32 8) |}]; extra := [time - 1500000000] |}; signatures := [] |};
  transaction_hashes := [] |}.
Definition mine (height : Height) (time : Timestamp) (previous : Hash) (reward : Amount) : result PreparedBlock :=
  t ← fix_merge_mining_tag sample_hash (mined_template height time previous reward); sample_prepare t.

Definition base_reward_1 : Amount := 281474976710655.
Definition pb_g : PreparedBlock :=
  ltac:(let r := eval vm_compute in (sample_prepare (genesis_block_template test_net)) in match r with Ok ?p => exact p end).
Definition pb_1 : PreparedBlock :=
  ltac:(let r := eval vm_compute in (mine 1 1500000001 (bid pb_g) base_reward_1) in match r with Ok ?p => exact p end).
Definition pb_f : PreparedBlock :=
  ltac:(let r := eval vm_compute in (mine 1 1500000002 (bid pb_g) base_reward_1) in match r with Ok ?p => exact p end).

Definition sample_info (pb : PreparedBlock) (height : Height) (cd : Difficulty) (coins : Amount) : api_BlockHeader := {|
  bh_major_version := major_version (header (template pb)); bh_minor_version := 0; bh_timestamp := Blocks.timestamp (header (template pb));
  bh_previous_block_hash := previous_block_hash (header (template pb)); bh_nonce := nonce (header (template pb));
  bh_height := height; bh_hash := bid pb; bh_reward := 0; bh_cumulative_difficulty := cd; bh_difficulty := 1;
  bh_base_reward := 0; bh_block_size := 100; bh_transactions_cumulative_size := 0; bh_already_generated_coins := coins;
  bh_already_generated_transactions := height + 1; bh_size_median := 0; bh_effective_size_median := 0;
  bh_timestamp_median := 0; bh_total_fee_amount := 0 |}.
Definition info_g : api_BlockHeader := sample_info pb_g 0 1 0.

(** The fields of a node that validation looks at. *)
Definition at_tip (n : Node memory_db) (window : list api_BlockHeader) (t : api_BlockHeader) (c : gmap Hash api_BlockHeader) : BlockChain memory_db := {|
  node := n; m_tip_bid := bh_hash t; m_tip_cumulative_difficulty := bh_cumulative_difficulty t; m_tip_height := bh_height t;
  header_cache := c; m_header_tip_window := window; m_next_median_timestamp := 0; m_next_median_size := 0 |}.
Definition no_node : Node memory_db := {| store := Store.empty_store; pool := Pool.Pool.empty_pool |}.
Definition key_isvalid (_ : PublicKey) : bool := true.
Definition check_ring (_ : RingSignatureArg) : bool * bool := (true, false).
Definition sample_validate (b : BlockChain memory_db) (now : Timestamp) (pb : PreparedBlock) (p : api_BlockHeader) :=
  check_standalone_consensus test_net sample_hash sample_hash sample_hash key_isvalid b now pb (started pb p) p true.

(** The headers that validation makes. *)
Definition info_1 : api_BlockHeader :=
  ltac:(let r := eval vm_compute in (sample_validate (at_tip no_node [info_g] info_g ∅) 1500000003 pb_1 info_g) in
        match r with Ok (inr ?i, _) => exact i end).
Definition info_f : api_BlockHeader :=
  ltac:(let r := eval vm_compute in (sample_validate (at_tip no_node [info_g; info_1] info_1 ∅) 1500000003 pb_f info_g) in
        match r with Ok (inr ?i, _) => exact i end).
Definition base_reward_2 : Amount :=
  ltac:(let r := eval vm_compute in (get_block_reward test_net 2 20000 50 (bh_already_generated_coins info_f) 0) in
        match r with Ok (?a, _) => exact a end).
Definition pb_f2 : PreparedBlock :=
  ltac:(let r := eval vm_compute in (mine 2 1500000003 (bid pb_f) base_reward_2) in match r with Ok ?p => exact p end).
Definition info_f2 : api_BlockHeader :=
  ltac:(let r := eval vm_compute in (sample_validate (at_tip no_node [info_g; info_1] info_1 ∅) 1500000003 pb_f2 info_f) in
        match r with Ok (inr ?i, _) => exact i end).

(** ** They are well formed *)

Lemma test_counts : counts_nonneg test_net.
Proof.
  split; [done|]. intros x. unfold get_timestamp_check_window, get_difficulty_blocks_count.
  by destruct (hardfork_v2_height test_net <=? x), (x <=? hardfork_v2_height test_net).
Qed.

Lemma test_windows : windows_ok (D := memory_db) test_net.
Proof.
  intros b. unfold largest_window. generalize (u32 (m_tip_height b + 1)). intros x.
  unfold get_difficulty_blocks_count, get_timestamp_check_window.
  by destruct (hardfork_v2_height test_net <=? x), (x <=? hardfork_v2_height test_net).
Qed.

Lemma sample_infos : c_ok ser_api_BlockHeader info_g ∧ c_ok ser_api_BlockHeader info_1 ∧ c_ok ser_api_BlockHeader info_f ∧
  c_ok ser_api_BlockHeader info_f2.
Proof. repeat split; done || by apply (bool_decide_unpack _). Qed.

Definition coded_block (pb : PreparedBlock) : Prop :=
  coded (block pb) (pb_raw pb) (block_data pb) (base_transaction_hash pb) ∧
  get_transaction_hash sample_hash (base_transaction (template pb)) = Ok (base_transaction_hash pb).

#[local] Ltac prove_coded pb := split; [split; [unfold template_ok; simpl; unfold ser_blockchain_branch; repeat (split || apply Forall_cons); try done; by apply (bool_decide_unpack _)|
  constructor|vm_compute; reflexivity|vm_compute; reflexivity|done|done|by apply (bool_decide_unpack _)|by apply (bool_decide_unpack _)]|vm_compute; reflexivity].

Lemma coded_g : coded_block pb_g.
Proof. prove_coded pb_g. Qed.
Lemma coded_1 : coded_block pb_1.
Proof. prove_coded pb_1. Qed.
Lemma coded_f : coded_block pb_f.
Proof. prove_coded pb_f. Qed.
Lemma coded_f2 : coded_block pb_f2.
Proof. prove_coded pb_f2. Qed.

(** ** The node before any block *)

Lemma init_blank : blank test_net init_chain.
Proof.
  assert (∀ k, get (m_db init_chain) k = None) as Hget by (intros k; apply lookup_empty).
  split; [apply init_chain_shows|apply empty_node_shows|intros k _; apply Hget|].
  split.
  - intros bid _. rewrite lookup_empty. apply Hget.
  - intros cd bid _ _. unfold at_key. rewrite Hget. split; [by intros []|]. intros (h & Hh & _). by rewrite lookup_empty in Hh.
  - intros k [x Hk]. by rewrite Hget in Hk.
Qed.

(** ** What validation says, whatever the database and the cache hold *)

Lemma validate_1 n c : ∃ b, sample_validate (at_tip n [info_g] info_g c) 1500000003 pb_1 info_g = Ok (inr info_1, b).
Proof. eexists. vm_compute. reflexivity. Qed.
Lemma validate_f n c : ∃ b, sample_validate (at_tip n [info_g; info_1] info_1 c) 1500000003 pb_f info_g = Ok (inr info_f, b).
Proof. eexists. vm_compute. reflexivity. Qed.
Lemma validate_f2 n c : ∃ b, sample_validate (at_tip n [info_g; info_1] info_1 c) 1500000003 pb_f2 info_f = Ok (inr info_f2, b).
Proof. eexists. vm_compute. reflexivity. Qed.
(** The same block, for a clock that is behind. *)
Lemma validate_early n c : ∃ e b, sample_validate (at_tip n [info_g] info_g c) 1499000000 pb_1 info_g = Ok (inl e, b).
Proof. eexists _, _. vm_compute. reflexivity. Qed.

(** ** The nodes *)

#[local] Abbreviation whole_node := (whole (D := memory_db) test_net sample_hash) (only parsing).

(** A node with its pool and its cache emptied. *)
Lemma whole_at_tip b hs blocks main v t k : whole_node b hs blocks main v → last main = Some t → (k < length main)%nat →
  whole_node (at_tip {| store := store (node b); pool := Pool.Pool.empty_pool |} (drop k main) t ∅) hs blocks main v.
Proof.
  intros [[Hs Hn Hb Hi Hh] Ht] Hl Hk. split; [|done]. split; [| |done|done|done].
  - destruct Hs as [[Hr Htr Hhd _] Hm Hix Htip Hhe Hw].
    split; [split; [done|done|done|cbn; by intros ? ? ?%lookup_empty_Some]|done|done|by rewrite Hl| |by exists k].
    cbn. rewrite last_lookup in Hl. destruct (mn_height _ _ Hm _ _ Hl) as [-> _]. pose proof (mn_length _ _ Hm).
    unfold u32. rewrite Z.mod_small; lia.
  - split; [apply (nd_store _ _ Hn)|apply Pool.Pool.empty_pool_ok|cbn; by intros ? ? ?%lookup_empty_Some].
Qed.

Lemma length_after v es a : (length (v_outs (foldl v_effect v es) a) ≤ length (v_outs v a) + length (pushes es))%nat.
Proof.
  revert v. induction es as [|e es IH]; intros v; [cbn; lia|]. cbn [foldl]. etrans; [apply IH|]. destruct e as [a' gi|ki h|a' o]; cbn.
  - destruct (decide (a' = a)) as [<-|]; [by rewrite fn_lookup_alter, length_alter|by rewrite fn_lookup_alter_ne].
  - done.
  - destruct (decide (a' = a)) as [<-|]; [rewrite fn_lookup_insert, length_app; cbn; unfold pushes; lia|rewrite fn_lookup_insert_ne by done; unfold pushes; lia].
Qed.

Definition v_g : view := foldl v_effect Store.empty_view (entry_effects info_g (new_entry pb_g)).
Definition v_1 : view := foldl v_effect v_g (entry_effects info_1 (new_entry pb_1)).
Definition v_f : view := foldl v_effect v_g (entry_effects info_f (new_entry pb_f)).
Definition v_f2 : view := foldl v_effect v_f (entry_effects info_f2 (new_entry pb_f2)).

Lemma coded_base pb : coded_block pb → c_ok ser_Transaction (base_transaction (template pb)).
Proof. intros [[Ht _ _ _ _ _ _ _] _]. by destruct Ht as (_ & _ & ? & _). Qed.

Lemma accepts_g : accepts (D := memory_db) test_net sample_hash check_ring Store.empty_view info_g (new_entry pb_g).
Proof. apply coinbase_accepts; [done|done|apply (coded_base _ coded_g)|done| |done]. intros a. by vm_compute. Qed.

Lemma accepts_mined v pb info : coded_block pb → block_transactions (block pb) = [] →
  omap Pool.Pool.key_image_of (inputs (tx_prefix (base_transaction (template pb)))) = [] → 0 ≤ bh_height info < 100 →
  (length (outputs (tx_prefix (base_transaction (template pb)))) ≤ 1)%nat →
  (∀ a, (length (v_outs v a) ≤ 200)%nat) → accepts (D := memory_db) test_net sample_hash check_ring v info (new_entry pb).
Proof.
  intros Hc Htx Hin Hh Ho Hv. apply coinbase_accepts; [done|done|by apply coded_base| | |].
  - unfold in_u. lia.
  - intros a. specialize (Hv a). change (e_block (new_entry pb)) with (block pb). unfold template in Ho. lia.
  - unfold is_in_sw_checkpoint_zone. cbn. f_equal. unfold u32. rewrite Z.mod_small by lia. lia.
Qed.

Lemma small_views a : (length (v_outs v_g a) ≤ 200)%nat ∧ (length (v_outs v_1 a) ≤ 200)%nat ∧ (length (v_outs v_f a) ≤ 200)%nat.
Proof.
  assert (length (v_outs v_g a) ≤ 100)%nat as Hg.
  { etrans; [apply length_after|]. apply Nat.leb_le. vm_compute. reflexivity. }
  pose proof (length_after v_g (entry_effects info_1 (new_entry pb_1)) a) as H1.
  pose proof (length_after v_g (entry_effects info_f (new_entry pb_f)) a) as Hf. fold v_1 in H1. fold v_f in Hf.
  assert (length (pushes (entry_effects info_1 (new_entry pb_1))) = 1%nat) as H1' by (vm_compute; reflexivity).
  assert (length (pushes (entry_effects info_f (new_entry pb_f))) = 1%nat) as Hf' by (vm_compute; reflexivity). lia.
Qed.

Definition hs_g : gmap Hash api_BlockHeader := {[bid pb_g := info_g]}.
Definition blocks_g : gmap Hash entry := {[bid pb_g := new_entry pb_g]}.
Definition hs_1 := <[bid pb_1 := info_1]> hs_g.
Definition blocks_1 := <[bid pb_1 := new_entry pb_1]> blocks_g.
Definition hs_f := <[bid pb_f := info_f]> hs_1.
Definition blocks_f := <[bid pb_f := new_entry pb_f]> blocks_1.

Lemma node_g_exists : ∃ n, whole_node (at_tip n [info_g] info_g ∅) hs_g blocks_g [info_g] v_g.
Proof.
  destruct (add_genesis_ok test_net sample_hash key_isvalid check_ring no_header init_chain pb_g info_g no_prev_info test_counts test_windows
    init_blank) as (b & _ & Hw); try first [done|apply sample_infos|apply coded_g|apply accepts_g].
  eexists. apply (whole_at_tip b _ _ [info_g] _ info_g 0 Hw); [done|cbn; lia].
Qed.

#[local] Abbreviation fresh := (fresh_block sample_hash) (only parsing).

Lemma fresh_1 : fresh hs_g blocks_g pb_1 info_1 info_g.
Proof. split; try first [done|apply sample_infos|apply coded_1]. Qed.

Lemma fresh_f : fresh hs_1 blocks_1 pb_f info_f info_g.
Proof. split; try first [done|apply sample_infos|apply coded_f]. Qed.

Lemma arrives_1 : arrives sample_hash hs_g blocks_g pb_1 info_g.
Proof. split; [by apply (bool_decide_unpack _)|vm_compute; reflexivity|vm_compute; reflexivity|vm_compute; reflexivity|done|apply coded_1|apply coded_1]. Qed.

Lemma arrives_f2 : arrives sample_hash hs_f blocks_f pb_f2 info_f.
Proof. split; [by apply (bool_decide_unpack _)|vm_compute; reflexivity|vm_compute; reflexivity|vm_compute; reflexivity|done|apply coded_f2|apply coded_f2]. Qed.

Lemma arrives_f : arrives sample_hash hs_1 blocks_1 pb_f info_g.
Proof. split; [by apply (bool_decide_unpack _)|vm_compute; reflexivity|vm_compute; reflexivity|vm_compute; reflexivity|done|apply coded_f|apply coded_f]. Qed.

Lemma node_1_exists : ∃ n, whole_node (at_tip n [info_g; info_1] info_1 ∅) hs_1 blocks_1 [info_g; info_1] v_1.
Proof.
  destruct node_g_exists as [n Hw].
  destruct (settle_extends test_net sample_hash key_isvalid check_ring no_header _ hs_g blocks_g [info_g] v_g pb_1 info_1 info_g info_g
    test_counts test_windows Hw) as (b1 & _ & Hw1); try done.
  { apply fresh_1. } { apply accepts_mined; [apply coded_1|done..|]. intros a. apply small_views. }
  { unfold main_tids. apply Forall_forall. by apply (bool_decide_unpack _). }
  eexists. apply (whole_at_tip b1 _ _ [info_g; info_1] _ info_1 0 Hw1); [done|cbn; lia].
Qed.

(** Two blocks on the genesis block, the first of them on the main chain. *)
Lemma node_f_exists : ∃ n, whole_node (at_tip n [info_g; info_1] info_1 ∅) hs_f blocks_f [info_g; info_1] v_1 ∧
  pool n = pool no_node.
Proof.
  destruct node_1_exists as [n Hw].
  destruct (settle_beside test_net sample_hash key_isvalid check_ring no_header _ hs_1 blocks_1 [info_g; info_1] v_1 pb_f info_f info_g info_1
    Hw) as (b2 & _ & Hw2); try done.
  { apply fresh_f. }
  eexists. split; [apply (whole_at_tip b2 _ _ [info_g; info_1] _ info_1 0 Hw2); [done|cbn; lia]|done].
Qed.

(** ** The branch of the second block, with a block that makes it longer *)

Definition hs_f2 := <[bid pb_f2 := info_f2]> hs_f.
Definition blocks_f2 := <[bid pb_f2 := new_entry pb_f2]> blocks_f.

Lemma accepts_f : accepts (D := memory_db) test_net sample_hash check_ring v_g info_f (new_entry pb_f).
Proof. apply accepts_mined; [apply coded_f|done|done|done|vm_compute; lia|]. intros a. apply small_views. Qed.
Lemma accepts_f2 : accepts (D := memory_db) test_net sample_hash check_ring v_f info_f2 (new_entry pb_f2).
Proof. apply accepts_mined; [apply coded_f2|done|done|done|vm_compute; lia|]. intros a. apply small_views. Qed.

Lemma history_g : history blocks_f2 [info_g] v_g.
Proof.
  apply (history_snoc _ [] _ info_g (new_entry pb_g)); [constructor|vm_compute; reflexivity|].
  apply fits_effects_ok, (ac_fits _ _ _ _ _ _ accepts_g).
Qed.
Lemma history_f2 : history blocks_f2 [info_g; info_f; info_f2] v_f2.
Proof.
  apply (history_snoc _ [info_g; info_f] v_f info_f2 (new_entry pb_f2)); [|vm_compute; reflexivity|apply fits_effects_ok, (ac_fits _ _ _ _ _ _ accepts_f2)].
  apply (history_snoc _ [info_g] v_g info_f (new_entry pb_f)); [apply history_g|vm_compute; reflexivity|].
  apply fits_effects_ok, (ac_fits _ _ _ _ _ _ accepts_f).
Qed.

Lemma branch_f2 : branch_run (D := memory_db) test_net sample_hash check_ring blocks_f2 [info_g] v_g [info_f; info_f2] [info_f; info_f2] true.
Proof.
  apply (run_step _ _ _ _ _ _ info_f (new_entry pb_f)); [vm_compute; reflexivity|apply accepts_f| |].
  { unfold main_tids. apply Forall_forall. by apply (bool_decide_unpack _). }
  apply (run_step _ _ _ _ _ _ info_f2 (new_entry pb_f2)); [vm_compute; reflexivity|apply accepts_f2| |apply run_all].
  unfold main_tids. apply Forall_forall. by apply (bool_decide_unpack _).
Qed.

(** The only way to the new block. *)
Lemma path_f2 l : main_ok hs_f2 l → last l = Some info_f2 → l = [info_g; info_f; info_f2].
Proof.
  intros Hm Hl. rewrite last_lookup in Hl. destruct (mn_height _ _ Hm _ _ Hl) as [Hh _].
  change (bh_height info_f2) with 2 in Hh. destruct l as [|x [|y [|z [|w l]]]]; cbn in Hh; try (exfalso; lia); [].
  injection Hl as ->. pose proof (mn_link _ _ Hm 1 y info_f2 eq_refl eq_refl) as Hy.
  destruct (mn_height _ _ Hm 1 y eq_refl) as [_ Hyin]. rewrite <- Hy in Hyin. vm_compute in Hyin. injection Hyin as <-.
  pose proof (mn_link _ _ Hm 0 x _ eq_refl eq_refl) as Hx. destruct (mn_height _ _ Hm 0 x eq_refl) as [_ Hxin].
  rewrite <- Hx in Hxin. vm_compute in Hxin. injection Hxin as <-. reflexivity.
Qed.

End SampleNode.
