(* ===== verification/MiningLaws.v ===== *)
(** * Block templates for miners: theorems

    The coinbase of a template pays for exactly the size the block has with
    it, the transactions chosen fit the limit, and a block mined from a
    template passes the validation of [add_block]. *)

From S2P Require Import Prelude Varint Containers Seria Text CryptoNote Amounts TransactionExtra Blocks Currency Difficulty Db ChainState Store Pool Redo BlockLaws NodeLaws Headers HeaderLaws Consensus ConsensusLaws BlockStore BlockStoreLaws BranchLaws ChainUpdate ChainLaws UpdateLaws SampleNode Mining.
Import Containers Codec Varint CryptoNote Amounts TransactionExtra Blocks Currency Difficulty Db ChainState Redo BlockLaws NodeLaws Headers HeaderLaws Consensus ConsensusLaws BlockStore BlockStoreLaws BranchLaws ChainUpdate ChainLaws UpdateLaws SampleNode Mining.

Local Open Scope Z_scope.

Module MiningLaws.

#[local] Abbreviation PoolTx := Pool.Pool.PoolTransaction (only parsing).

(** ** The coinbase *)

(** [tx] is [tx0] with [n] bytes of padding. *)
Definition padded (n : nat) (tx0 tx : Transaction) : Prop := tx = with_extra tx0 (extra (tx_prefix tx0) ++ replicate n 0).

Lemma padded_0 tx : padded 0 tx tx.
Proof. unfold padded. cbn. rewrite app_nil_r. by destruct tx as [[] ?]. Qed.

Lemma padded_shrink n tx0 tx : padded (S n) tx0 tx →
  padded n tx0 (with_extra tx (take (length (extra (tx_prefix tx)) - 1) (extra (tx_prefix tx)))).
Proof.
  intros ->. unfold padded, with_extra. cbn [tx_prefix extra version unlock_time inputs outputs signatures]. do 2 f_equal.
  rewrite length_app, length_replicate, take_app, take_replicate, (take_ge (extra _)) by lia. do 2 f_equal. lia.
Qed.

Section fit.
Context (currency : Currency).
Context (generate_key_derivation : PublicKey → list Z → option (list Z)).
Context (derive_public_key : list Z → nat → PublicKey → option PublicKey).
Context (random_keypair : nat → PublicKey * list Z).

(** The coinbase that is kept was built for the size the block has with it. *)
Lemma fit_coinbase_inv tries k major height median agc txs_size fee adr nonce cumulative tx :
  fit_coinbase currency generate_key_derivation derive_public_key random_keypair tries k major height median agc txs_size
    fee adr nonce cumulative = Ok (Some tx) →
  ∃ tx0 n public secret blob, padded n tx0 tx ∧ binary_size ser_Transaction tx = Ok blob ∧
    construct_miner_tx currency generate_key_derivation derive_public_key public secret major height median agc
      (txs_size + blob) fee adr nonce 11 = Ok (Some tx0).
Proof.
  revert k cumulative. induction tries as [|tries IH]; intros k cumulative Hf; [done|].
  cbn [fit_coinbase] in Hf. destruct (random_keypair k) as [public secret]. inv_ok Hf. destruct a as [tx0|]; [|done].
  inv_ok Hf. rename a into size0.
  assert (∀ n tx', padded n tx0 tx' →
    (blob ← binary_size ser_Transaction tx'; Ok (if negb (cumulative =? txs_size + blob) then None else Some tx')) = Ok (Some tx) →
    ∃ tx0 n public secret blob, padded n tx0 tx ∧ binary_size ser_Transaction tx = Ok blob ∧
      construct_miner_tx currency generate_key_derivation derive_public_key public secret major height median agc
        (txs_size + blob) fee adr nonce 11 = Ok (Some tx0)) as Hfinish.
  { intros n tx' Hp Hx. inv_ok Hx. destruct (Z.eqb_spec cumulative (txs_size + a)) as [->|]; [|done].
    injection Hx as <-. by exists tx0, n, public, secret, a. }
  destruct (_ >? _); [by eapply IH|].
  destruct (Z.ltb_spec size0 (cumulative - txs_size)); [|by apply (Hfinish 0%nat tx0 (padded_0 _))].
  inv_ok Hf. destruct (negb _); [|by eapply (Hfinish _ _ eq_refl)].
  destruct (negb _); [done|]. inv_ok Hf. destruct (negb _); [by eapply IH|].
  destruct (Z.to_nat _) as [|n] eqn:Hn; [lia|]. by eapply (Hfinish n), Hf; apply padded_shrink.
Qed.

End fit.

Lemma check_miner_outputs_ok key_isvalid check outs s : Forall (λ o, 0 < out_amount o) outs →
  Forall (λ o, ∃ key, out_target o = KeyOutput key ∧ key_isvalid key = true) outs → 0 ≤ s → s + sum (out_amount <$> outs) < 2 ^ 64 →
  check_miner_outputs key_isvalid check outs s = inr (s + sum (out_amount <$> outs)).
Proof.
  intros Hp. revert s. induction Hp as [|o outs Ho Hp IH]; intros s Hk Hs Hlt; [cbn; by rewrite Z.add_0_r|].
  apply Forall_cons in Hk as [(key & Hkey & Hv) Hk].
  change (sum (out_amount <$> (o :: outs))) with (out_amount o + sum (out_amount <$> outs)) in *.
  assert (0 ≤ sum (out_amount <$> outs)) by (apply sum_nonneg; by apply Forall_fmap).
  cbn [check_miner_outputs]. destruct (Z.eqb_spec (out_amount o) 0); [lia|]. rewrite Hkey, Hv. cbn [negb]. rewrite andb_false_r.
  unfold UINT64_MAX. destruct (Z.ltb_spec (2 ^ 64 - 1 - out_amount o) s); [lia|]. rewrite IH by (done || lia). f_equal. lia.
Qed.

(** ** The transactions *)

Definition size_of (ts : list PoolTx) : Z := foldr (λ t n, Pool.Pool.size (Pool.Pool.binary_tx t) + n) 0 ts.
Definition fees_of (ts : list PoolTx) : Amount := foldl (λ f t, u64 (f + Pool.Pool.fee t)) 0 ts.

Lemma size_of_app ts ts' : size_of (ts ++ ts') = size_of ts + size_of ts'.
Proof. induction ts as [|t ts IH]; [done|]. cbn. fold (size_of (ts ++ ts')). fold (size_of ts). lia. Qed.
Lemma size_of_nonneg ts : 0 ≤ size_of ts.
Proof. induction ts as [|t ts IH]; [done|]. cbn. fold (size_of ts). unfold Pool.Pool.size. lia. Qed.

Section select.
Context {D : Type} `{LmdbLaws D} (currency : Currency) (cn_fast_hash : list Z → Hash).
Context (check_ring_signature : RingSignatureArg → bool * bool).

(** The selection is [ts], found in the pool under the hashes chosen, and fits
    the limit. *)
Record picks (p : Pool.Pool.Pool) (limit : Z) (s : Selection (Node D)) (ts : list PoolTx) : Prop := {
  pk_pool : Forall2 (λ tid t, Pool.Pool.m_memory_state_tx p !! tid = Some t) (sel_hashes s) ts;
  pk_size : txs_size s = size_of ts;
  pk_limit : ts = [] ∨ size_of ts ≤ limit;
  pk_fee : sel_fee s = fees_of ts;
}.

Lemma picks_nothing p limit ms m :
  picks p limit {| memory_state := ms; txs_size := 0; sel_fee := 0; sel_hashes := []; m_mining_transactions := m |} [].
Proof. split; cbn; [constructor|done|by left|done]. Qed.

Lemma select_transaction_picks limit height p s s' ts tid : limit < 2 ^ 63 → Pool.Pool.pool_ok p → picks p limit s ts →
  select_transaction currency cn_fast_hash check_ring_signature limit height p s tid = Ok s' → ∃ ts', picks p limit s' ts'.
Proof.
  intros Hl Hp [Hpool Hsize Hlimit Hfee] Hs. unfold select_transaction in Hs.
  destruct (Pool.Pool.m_memory_state_tx p !! tid) as [t|] eqn:Ht; [|done].
  destruct (Z.gtb_spec (u64 (txs_size s + Pool.Pool.size (Pool.Pool.binary_tx t))) limit) as [|Hle]; [injection Hs as <-; by exists ts|].
  inv_ok Hs. destruct a as [[e|[ms gis]] h]; [injection Hs as <-; by exists ts|]. injection Hs as <-.
  pose proof (size_of_nonneg ts) as Hnn. pose proof (Pool.Pool.pool_tx_size p tid t Hp Ht) as Htx.
  assert (size_of ts < 2 ^ 63) as Hb by (destruct Hlimit as [->|]; [cbn; lia|lia]).
  rewrite Hsize, u64_small in Hle by lia.
  exists (ts ++ [t]). split; cbn.
  - apply Forall2_app; [done|]. by constructor.
  - rewrite size_of_app, Hsize, u64_small by lia. cbn. lia.
  - right. rewrite size_of_app. cbn. lia.
  - unfold fees_of. by rewrite foldl_snoc, Hfee.
Qed.

Lemma select_transactions_picks limit height p hashes s s' ts : limit < 2 ^ 63 → Pool.Pool.pool_ok p → picks p limit s ts →
  select_transactions currency cn_fast_hash check_ring_signature limit height p hashes s = Ok s' → ∃ ts', picks p limit s' ts'.
Proof.
  intros Hl Hp. unfold select_transactions. revert s ts. induction hashes as [|tid hashes IH]; intros s ts Hs Hf.
  { injection Hf as <-. by exists ts. }
  cbn [for_each] in Hf. inv_ok Hf. destruct (select_transaction_picks _ _ _ _ _ _ _ Hl Hp Hs Ha) as [ts' Hs']. by eapply IH.
Qed.

End select.

(** ** Transactions of the pool are valid *)

Section checked.
Context (cn_fast_hash : list Z → Hash) (key_isvalid : PublicKey → bool).

(** What [add_transaction] and its callers see to. *)
Record tx_checked (tid : Hash) (t : PoolTx) : Prop := {
  tc_ok : c_ok ser_Transaction (Pool.Pool.pt_tx t);
  tc_binary : to_binary ser_Transaction (Pool.Pool.pt_tx t) = Ok (Pool.Pool.binary_tx t);
  tc_hash : get_transaction_hash cn_fast_hash (Pool.Pool.pt_tx t) = Ok tid;
  tc_valid : ∃ fee, validate_semantic key_isvalid false (Pool.Pool.pt_tx t) true = inr fee;
  tc_fee : get_tx_fee_opt (tx_prefix (Pool.Pool.pt_tx t)) = Some (Pool.Pool.fee t);
}.
Definition pool_checked (p : Pool.Pool.Pool) : Prop := ∀ tid t, Pool.Pool.m_memory_state_tx p !! tid = Some t → tx_checked tid t.

Lemma pool_checked_sub p p' : Pool.Pool.m_memory_state_tx p' ⊆ Pool.Pool.m_memory_state_tx p → pool_checked p → pool_checked p'.
Proof. intros Hsub Hp tid t Ht. apply Hp. by eapply lookup_weaken. Qed.

Lemma transaction_amounts tx : c_ok ser_Transaction tx → amounts_ok (tx_prefix tx).
Proof.
  intros Hok. destruct (transaction_ranges tx Hok) as [[Hi Ho _] _].
  split; [eapply Forall_impl; [exact Hi|]|eapply Forall_impl; [exact Ho|]].
  - intros [bi|a idx ki]; [done|]. by intros [? _].
  - by intros o [? _].
Qed.

Lemma add_transaction_checked {D : Type} `{Lmdb D} currency check_ring_signature (n n' : Node D) tid tx binary_tx h t c r c' :
  c_ok ser_Transaction tx → to_binary ser_Transaction tx = Ok binary_tx → get_transaction_hash cn_fast_hash tx = Ok tid →
  pool_checked (pool n) →
  add_transaction currency cn_fast_hash check_ring_signature key_isvalid n tid tx binary_tx h t c true = Ok (n', r, c') →
  pool_checked (pool n').
Proof.
  intros Hok Hbin Htid Hp Ha. unfold add_transaction in Ha. case_bool_decide; [by injection Ha as <- _ _|].
  inv_ok Ha. inv_ok Ha. destruct a0; [by injection Ha as <- _ _|]. inv_ok Ha. destruct a0; [by injection Ha as <- _ _|].
  inv_ok Ha. destruct a0; [by injection Ha as <- _ _|].
  destruct (validate_semantic _ _ _ _) as [|fee] eqn:Hv; [by injection Ha as <- _ _|].
  inv_ok Ha. destruct a0 as [[|[d gis]] c1]; [by injection Ha as <- _ _|]. inv_ok Ha. destruct a0 as [p verdict]. injection Ha as <- _ _.
  apply add_to_pool_sub in Ha5 as [Hsub|Hsub]; [|by eapply pool_checked_sub].
  intros tid1 t1 Ht1. eapply lookup_weaken in Ht1; [|exact Hsub]. apply lookup_insert_Some in Ht1 as [[<- <-]|[_ Ht1]]; [|by apply Hp].
  split; cbn [Pool.Pool.pt_tx Pool.Pool.binary_tx Pool.Pool.fee]; try done; [by eexists|]. pose proof (transaction_amounts _ Hok) as Ham.
  destruct (validate_semantic_sums _ _ _ _ Ham Hv) as (_ & Hle & Hlt). unfold get_tx_fee. by rewrite (valid_fee key_isvalid tx Ham Hle Hlt).
Qed.

(** *** What the validation of a block makes of them *)

#[local] Abbreviation found p := (Forall2 (λ tid t, Pool.Pool.m_memory_state_tx p !! tid = Some t)) (only parsing).

Lemma found_checked p tids ts : pool_checked p → found p tids ts → Forall2 tx_checked tids ts.
Proof. intros Hp Hf. eapply Forall2_impl; [exact Hf|]. intros tid t. apply Hp. Qed.

Lemma check_raw_ok max tids ts c : Forall2 tx_checked tids ts → size_of ts ≤ max →
  check_raw_transactions cn_fast_hash max (Pool.Pool.binary_tx <$> ts) (Pool.Pool.pt_tx <$> ts) tids c = Ok (inr (c + size_of ts)).
Proof.
  intros Hts. revert c. induction Hts as [|tid t tids ts Ht Hts IH]; intros c Hm; [cbn; by rewrite Z.add_0_r|].
  cbn [fmap list_fmap check_raw_transactions size_of foldr] in *. fold (size_of ts) in *. pose proof (size_of_nonneg ts).
  unfold Pool.Pool.size in *. destruct (Z.gtb_spec (Z.of_nat (length (Pool.Pool.binary_tx t))) max); [lia|].
  rewrite (tc_hash _ _ Ht). cbn [mbind result_bind]. rewrite bool_decide_eq_true_2 by done. cbn [negb].
  rewrite IH by lia. f_equal. f_equal. lia.
Qed.

Lemma cumulative_fee_ok tids ts f : Forall2 tx_checked tids ts →
  cumulative_fee (Pool.Pool.pt_tx <$> ts) f = Some (foldl (λ f t, u64 (f + Pool.Pool.fee t)) f ts).
Proof.
  intros Hts. revert f. induction Hts as [|tid t tids ts Ht Hts IH]; intros f; [done|].
  cbn. by rewrite (tc_fee _ _ Ht), <- IH.
Qed.

Lemma check_transactions_ok tids ts : Forall2 tx_checked tids ts →
  check_transactions key_isvalid true (Pool.Pool.pt_tx <$> ts) = inr tt.
Proof. induction 1 as [|tid t tids ts Ht Hts IH]; [done|]. cbn. by destruct (tc_valid _ _ Ht) as [fee ->]. Qed.

Lemma transactions_read tids ts : Forall2 tx_checked tids ts →
  transactions_from_binary (Pool.Pool.binary_tx <$> ts) = (true, Pool.Pool.pt_tx <$> ts).
Proof.
  induction 1 as [|tid t tids ts Ht Hts IH]; [done|]. cbn [fmap list_fmap transactions_from_binary].
  destruct (from_to_binary ser_Transaction _ (tc_ok _ _ Ht)) as (ba & Hp & _ & Hg).
  rewrite (tc_binary _ _ Ht) in Hp. injection Hp as <-. by rewrite Hg, IH.
Qed.

Lemma find_binaries_ok {D : Type} `{Lmdb D} (b : BlockChain D) m tids ts : found (pool (node b)) tids ts →
  find_binaries b m tids = Some (Pool.Pool.binary_tx <$> ts).
Proof. induction 1 as [|tid t tids ts Ht Hts IH]; [done|]. cbn. by rewrite Ht, IH. Qed.

End checked.

(** ** The template *)

Section template.
Context {D : Type} `{LmdbLaws D} (currency : Currency) (cn_fast_hash : list Z → Hash).
Context (check_ring_signature : RingSignatureArg → bool * bool).
Context (generate_key_derivation : PublicKey → list Z → option (list Z)).
Context (derive_public_key : list Z → nat → PublicKey → option PublicKey).
Context (random_keypair : nat → PublicKey * list Z).

#[local] Abbreviation create := (create_mining_block_template (D := D) currency cn_fast_hash check_ring_signature
  generate_key_derivation derive_public_key random_keypair) (only parsing).

(** The blocks whose difficulties the next difficulty depends on. *)
Definition difficulty_window (b : BlockChain D) (hs : gmap Hash api_BlockHeader) (tip : api_BlockHeader) : list api_BlockHeader :=
  segment hs tip (Z.min (bh_height tip) (get_difficulty_blocks_count currency (u32 (m_tip_height b + 1)))) false.
Definition effective_median (b : BlockChain D) (major : Z) : Z :=
  Z.max (m_next_median_size b) (block_granted_full_reward_zone_by_block_version currency major).

(** A coinbase for a block of [size] bytes with transactions that pay [fee]. *)
Record pays (height : Height) (major median : Z) (agc : Amount) (size : Z) (fee : Amount) (tx : TransactionPrefix) : Prop := {
  py_reward : ∃ emission, get_block_reward currency major median size agc fee = Ok (sum (out_amount <$> outputs tx), emission);
  py_word : in_u 64 (sum (out_amount <$> outputs tx));
  py_input : inputs tx = [CoinbaseInput height];
  py_unlock : unlock_time tx = u32 (height + mined_money_unlock_window currency);
  py_positive : Forall (λ o, 0 < out_amount o) (outputs tx);
  py_keys : Forall (λ o, ∃ d i a key, out_target o = KeyOutput key ∧ derive_public_key d i a = Some key) (outputs tx);
}.

(** What a template is, for the tip [tip] and the pool's transactions [ts]. *)
Record template_for (b : BlockChain D) (hs : gmap Hash api_BlockHeader) (tip : api_BlockHeader) (now : Timestamp)
    (t : BlockTemplate) (difficulty : Difficulty) (height : Height) (ts : list PoolTx) : Prop := {
  tf_height : height = u32 (m_tip_height b + 1);
  tf_major : major_version (header t) = get_block_major_version_for_height currency height;
  tf_time : timestamp (header t) = Z.max now (m_next_median_timestamp b);
  tf_previous : previous_block_hash (header t) = m_tip_bid b;
  tf_nonzero : difficulty ≠ 0;
  tf_difficulty : next_difficulty currency height (bh_timestamp <$> difficulty_window b hs tip)
    (bh_cumulative_difficulty <$> difficulty_window b hs tip) = Ok difficulty;
  tf_found : Forall2 (λ tid t, Pool.Pool.m_memory_state_tx (pool (node b)) !! tid = Some t) (transaction_hashes t) ts;
  tf_limit : ∃ limit, template_size_limit currency height (effective_median b (major_version (header t))) = Ok limit ∧
    (ts = [] ∨ size_of ts ≤ limit);
  tf_coinbase : ∃ blob, binary_size ser_Transaction (base_transaction t) = Ok blob ∧
    pays height (major_version (header t)) (effective_median b (major_version (header t))) (bh_already_generated_coins tip)
      (size_of ts + blob) (fees_of ts) (tx_prefix (base_transaction t));
}.

Lemma padded_pays n tx0 tx height major median agc size fee : padded n tx0 tx →
  pays height major median agc size fee (tx_prefix tx0) → pays height major median agc size fee (tx_prefix tx).
Proof. intros ->. by intros []. Qed.

Lemma coinbase_pays public secret major height median agc size fee adr nonce tx :
  construct_miner_tx currency generate_key_derivation derive_public_key public secret major height median agc size fee
    adr nonce 11 = Ok (Some tx) → pays height major median agc size fee (tx_prefix tx).
Proof.
  intros Hc. apply construct_miner_tx_inv in Hc as (reward & emission & Hr & Hw & Hi & <- & Hp & Hk & _ & Hu); [|done].
  split; try done. by exists emission.
Qed.

Lemma template_size_limit_bound height median limit : template_size_limit currency height median = Ok limit → limit < 2 ^ 63.
Proof. unfold template_size_limit. intros Hl. inv_ok Hl. injection Hl as <-. pose proof (u32_bound (Z.min (u32 (125 * median) / 100) a - miner_tx_blob_reserved_size currency)). unfold in_u in *. lia. Qed.

Lemma start_template_inv (b : BlockChain D) now major t : start_template currency b now major = Ok t →
  major_version (header t) = major ∧ timestamp (header t) = Z.max now (m_next_median_timestamp b) ∧
  previous_block_hash (header t) = m_tip_bid b.
Proof. unfold start_template. intros Hs. inv_ok Hs. by injection Hs as <-. Qed.

Lemma tip_shows b hs main tip : chain_shows currency b hs main → last main = Some tip →
  hs !! bh_hash tip = Some tip ∧ m_tip_bid b = bh_hash tip ∧ m_tip_height b = bh_height tip ∧ 0 ≤ bh_height tip.
Proof.
  intros Hs Hl. assert (main !! (length main - 1)%nat = Some tip) as Hidx by (rewrite <- Hl, last_lookup; f_equal; lia).
  destruct (mn_height _ _ (cs_main _ _ _ _ Hs) _ _ Hidx) as [Hth Htip]. pose proof (lookup_lt_Some _ _ _ Hidx).
  pose proof (mn_length _ _ (cs_main _ _ _ _ Hs)). pose proof (cs_tip _ _ _ _ Hs) as Ht. rewrite Hl in Ht.
  split_and!; [done|apply Ht| |lia]. rewrite (cs_height _ _ _ _ Hs), Hth. unfold u32. rewrite Z.mod_small; lia.
Qed.

Lemma create_template_for b hs main v tip m now adr nonce t difficulty height m' b' : counts_nonneg currency →
  chain_shows currency b hs main → node_shows (node b) v → last main = Some tip →
  create b m now adr nonce = Ok (Some (t, difficulty, height), m', b') →
  (∃ c, b' = with_cache b c ∧ chain_shows currency b' hs main) ∧ ∃ ts, template_for b hs tip now t difficulty height ts.
Proof.
  intros [_ Hcn] Hs Hn Hl Hc. unfold create_mining_block_template in Hc.
  rewrite (get_tip_ok currency b hs main tip Hs Hl) in Hc. cbn [mbind result_bind] in Hc.
  destruct (tip_shows _ _ _ _ Hs Hl) as (Htip & _ & Heq & Hpos).
  destruct (get_tip_segment_ok currency hs main b tip
    (Z.min (m_tip_height b) (get_difficulty_blocks_count currency (u32 (m_tip_height b + 1)))) false Hs Htip) as (c & Hr & Hs').
  { apply Z.min_glb; [lia|apply Hcn]. }
  rewrite Hr in Hc. cbn [mbind result_bind] in Hc. inv_ok Hc. rename a into d. rename Ha into Hd.
  destruct (Z.eqb_spec d 0) as [|Hnz]; [done|].
  inv_ok Hc. rename a into t0, a0 into limit, a1 into s, Ha0 into Hlimit, Ha1 into Hsel.
  apply start_template_inv in Ha as (Hmajor & Htime & Hprev).
  destruct (random_keypair 0) as [public secret].
  inv_ok Hc. destruct a as [tx0|]; [|done]. inv_ok Hc. destruct a0 as [tx|]; [|done].
  injection Hc as <- <- <- _ <-.
  apply (select_transactions_picks currency cn_fast_hash check_ring_signature _ _ _ _ _ _ [] (template_size_limit_bound _ _ _ Hlimit)
    (nd_pool _ _ Hn) (picks_nothing _ _ _ _)) in Hsel as (ts & [Hpool Hsize Hlim Hfee]).
  apply fit_coinbase_inv in Ha1 as (tx1 & n & pub & sec & blob & Hpad & Hblob & Hcon).
  split; [by exists c|]. exists ts.
  split; cbn [header parent_block base_transaction transaction_hashes]; rewrite ?Hmajor; try done.
  - unfold difficulty_window. by rewrite <- Heq.
  - by exists limit.
  - exists blob. split; [done|]. eapply padded_pays; [exact Hpad|]. rewrite <- Hsize, <- Hfee. by eapply coinbase_pays.
Qed.

End template.

(** ** A block mined from a template *)

(** [t'] is [t] with the nonce and the parent block that a miner found. *)
Record mined (t t' : BlockTemplate) : Prop := {
  mi_hashes : transaction_hashes t' = transaction_hashes t;
  mi_base : base_transaction t' = base_transaction t;
  mi_major : major_version (header t') = major_version (header t);
  mi_time : timestamp (header t') = timestamp (header t);
  mi_previous : previous_block_hash (header t') = previous_block_hash (header t);
}.

(** The sizes for which the limit of a template keeps the block within the
    bounds of the validation: what is set aside for the coinbase is less than
    the median and the greatest block, and the coinbase is not more. *)
Record template_room (currency : Currency) (height : Height) (median coinbase : Z) : Prop := {
  rm_reserved : 0 ≤ miner_tx_blob_reserved_size currency < median;
  rm_median : 125 * median < 2 ^ 32;
  rm_block : ∃ max, max_block_cumulative_size currency height = Ok max ∧ miner_tx_blob_reserved_size currency ≤ max;
  rm_transaction : 125 * median / 100 - miner_tx_blob_reserved_size currency ≤ max_tx_size currency;
  rm_coinbase : coinbase ≤ miner_tx_blob_reserved_size currency;
}.

Lemma template_room_limit currency height median coinbase limit : template_room currency height median coinbase →
  template_size_limit currency height median = Ok limit →
  0 ≤ limit ≤ max_tx_size currency ∧ limit ≤ 2 * median - miner_tx_blob_reserved_size currency ∧
  ∃ max, max_block_cumulative_size currency height = Ok max ∧ limit + miner_tx_blob_reserved_size currency ≤ max < 2 ^ 32.
Proof.
  intros [[Hr Hr'] Hm (max & Hmax & Hle) Ht Hc] Hl. unfold template_size_limit in Hl. rewrite Hmax in Hl.
  cbn [mbind result_bind] in Hl. injection Hl as <-.
  assert (max < 2 ^ 32) as Hmax32.
  { unfold max_block_cumulative_size in Hmax. destruct (negb _); [done|]. destruct (negb _); [done|]. injection Hmax as <-. apply u32_bound. }
  unfold u32 at 2 4 6. rewrite (Z.mod_small (125 * median)) by lia.
  assert (median ≤ 125 * median / 100 ≤ 2 * median) by (split; [apply Z.div_le_lower_bound; lia|apply Z.div_le_upper_bound; lia]).
  unfold u32. rewrite Z.mod_small by lia. split_and!; try lia. exists max. split; [done|lia].
Qed.

(** The rule for the difficulty is the same at a height and the one below, but
    at the forks. *)
Lemma next_difficulty_steady currency height ts ds :
  height + 1 ≠ hardfork_v1_height currency → height ≠ hardfork_v2_height currency →
  next_difficulty currency height ts ds = next_difficulty currency (height + 1) ts ds.
Proof.
  intros H1 H2. unfold next_difficulty, next_difficulty_v1.
  replace (height + 1 <=? hardfork_v2_height currency) with (height <=? hardfork_v2_height currency) by lia.
  by replace (hardfork_v1_height currency <=? height + 1) with (hardfork_v1_height currency <=? height) by lia.
Qed.

(** A reward that can be computed can be computed for an empty block. *)
Lemma reward_of_empty_block currency v median size agc fee r : 0 ≤ median → 2 * median < 2 ^ 64 →
  get_block_reward currency v median size agc fee = Ok r → ∃ r', get_block_reward currency v median 0 agc 0 = Ok r'.
Proof.
  intros Hm H2 Hr. unfold get_block_reward in *. destruct (negb _); [done|]. destruct (negb _); [done|].
  assert (∀ a, get_penalized_amount a median 0 = Ok (if a =? 0 then 0 else a)) as Hz.
  { intros a. inv_ok Hr. unfold get_penalized_amount in *. destruct (negb (size <=? _)); [done|].
    destruct (negb (median <=? UINT32_MAX)) eqn:H32; [done|]. unfold u64. rewrite Z.mod_small by lia.
    replace (0 <=? 2 * median) with true by lia. cbn [negb]. destruct (Z.eqb_spec a 0); [done|].
    by replace (0 <=? median) with true by lia. }
  rewrite !Hz. cbn [mbind result_bind]. destruct (2 <=? v); cbn [mbind result_bind]; by eexists.
Qed.

Section validation.
Context {D : Type} `{LmdbLaws D} (currency : Currency).
Context (cn_fast_hash cn_slow_hash cn_lite_slow_hash_v1 : list Z → Hash) (key_isvalid : PublicKey → bool).

Lemma or_error_pass {A} (m : result (string + A)) (b : BlockChain D) k a (Q : (string + api_BlockHeader) * BlockChain D → Prop) :
  m = Ok (inr a) → (∃ x, k a = Ok x ∧ Q x) → ∃ x, or_error m b k = Ok x ∧ Q x.
Proof. intros ->. done. Qed.

Lemma bind_pass {A B : Type} (m : result A) (k : A → result B) a (Q : B → Prop) :
  m = Ok a → (∃ x, k a = Ok x ∧ Q x) → ∃ x, (m ≫= k) = Ok x ∧ Q x.
Proof. intros ->. done. Qed.

Lemma or_fail_pass ok e : ok = true → or_fail ok e = Ok (inr tt).
Proof. by intros ->. Qed.

(** The block that [add_mined_block] prepares. *)
Lemma prepared_block partial_header t' blob tids ts pb :
  template_ok t' → to_binary ser_BlockTemplate t' = Ok blob → Forall2 (tx_checked cn_fast_hash key_isvalid) tids ts →
  prepare_block cn_fast_hash cn_slow_hash cn_lite_slow_hash_v1 partial_header false
    {| raw_block := blob; raw_transactions := Pool.Pool.binary_tx <$> ts |} = Ok pb →
  block pb = {| block_header := t'; block_transactions := Pool.Pool.pt_tx <$> ts |} ∧
  raw_transactions (pb_raw pb) = Pool.Pool.binary_tx <$> ts ∧ long_block_hash pb = null_hash ∧
  binary_size ser_Transaction (base_transaction t') = Ok (coinbase_tx_size pb).
Proof.
  intros Ht Hblob Hts Hp. unfold prepare_block in Hp. inv_ok Hp. unfold prepare in Hp.
  pose proof (get_put (c := ser_BlockTemplate) _ blob [] Ht Hblob) as Hg. rewrite app_nil_r in Hg.
  unfold from_raw_block, header_from_binary in Hp. cbn [raw_block raw_transactions] in Hp. rewrite Hg in Hp.
  rewrite bool_decide_eq_true_2 in Hp by done. rewrite (transactions_read _ _ _ _ Hts) in Hp. cbn [block_header] in Hp.
  inv_ok Hp. injection Hp as <-. cbn. split_and!; try done. by match goal with Hl : Ok _ = Ok ?x |- ?x = _ => injection Hl as <- end.
Qed.

Lemma difficulty_of_template b hs main tip height difficulty : counts_nonneg currency → chain_shows currency b hs main → last main = Some tip →
  height = u32 (bh_height tip + 1) → height ≠ hardfork_v1_height currency → height ≠ hardfork_v2_height currency + 1 →
  next_difficulty currency height (bh_timestamp <$> difficulty_window currency b hs tip)
    (bh_cumulative_difficulty <$> difficulty_window currency b hs tip) = Ok difficulty →
  ∃ c, difficulty_after currency b tip (bh_height tip) = Ok (difficulty, with_cache b c).
Proof.
  intros [_ Hcn] Hs Hl Hh Hf1 Hf2 Hd. destruct (tip_shows currency b hs main tip Hs Hl) as (Hin & Hbid & Htip & Hpos).
  assert (height = bh_height tip + 1) as ->.
  { rewrite Hh, <- Htip, (cs_height _ _ _ _ Hs). pose proof (mn_length _ _ (cs_main _ _ _ _ Hs)).
    destruct main; [done|]. unfold u32. rewrite Zplus_mod_idemp_l, !Z.mod_small; cbn [length] in *; lia. }
  unfold difficulty_after. destruct (get_tip_segment_ok currency hs main b tip
    (Z.min (bh_height tip) (get_difficulty_blocks_count currency (u32 (m_tip_height b + 1)))) false Hs Hin) as (c & Hr & _).
  { apply Z.min_glb; [done|apply Hcn]. }
  rewrite Hr. cbn [mbind result_bind]. fold (difficulty_window currency b hs tip).
  rewrite next_difficulty_steady, Hd by lia. by exists c.
Qed.

(** The validation of the mined block [pb] at the time [now]; the window of
    timestamps it reads is the one the template was made with. *)
Lemma mined_block_passes derive_public_key hs main b now0 now t difficulty height ts tip t' pb :
  counts_nonneg currency → chain_shows currency b hs main → last main = Some tip → pool_checked cn_fast_hash key_isvalid (pool (node b)) →
  (∀ d i a key, derive_public_key d i a = Some key → key_isvalid key = true) →
  template_for currency derive_public_key b hs tip now0 t difficulty height ts → mined t t' →
  block pb = {| block_header := t'; block_transactions := Pool.Pool.pt_tx <$> ts |} →
  raw_transactions (pb_raw pb) = Pool.Pool.binary_tx <$> ts → long_block_hash pb = null_hash →
  binary_size ser_Transaction (base_transaction t') = Ok (coinbase_tx_size pb) →
  is_in_sw_checkpoint_zone currency height = Ok false →
  height ≠ hardfork_v1_height currency → height ≠ hardfork_v2_height currency + 1 →
  template_room currency height (effective_median currency b (major_version (header t))) (coinbase_tx_size pb) →
  Blocks.timestamp (header t') ≤ u32 (now + get_block_future_time_limit currency height) →
  pb_major_version (parent_block t') ≤ 1 → parent_block_size pb ≤ 2048 →
  (∃ long, get_block_long_hash cn_fast_hash cn_slow_hash cn_lite_slow_hash_v1 t' = Ok long ∧
     check_proof_of_work cn_fast_hash currency long t' difficulty = Ok true) →
  ∃ x, check_standalone_consensus currency cn_fast_hash cn_slow_hash cn_lite_slow_hash_v1 key_isvalid b now pb
         (started pb tip) tip true = Ok x ∧ ∃ info, x.1 = inr info ∧ bh_difficulty info = difficulty.
Proof.
  intros Hcn Hs Hl Hpool Hkeys [Hheight Hmajor Htime Hprev Hnz Hdiff Hfound (limit & Hlimit & Hfits) (blob & Hblob & Hpays)]
    [Hmh Hmb Hmm Hmt Hmp] Hblock Hraw Hlong Hsize Hzone Hf1 Hf2 Hroom Hfuture Hpbv Hpbs Hwork.
  pose proof (found_checked _ _ _ _ _ Hpool Hfound) as Hts. rewrite <- Hmh in Hts. rewrite Hmb, Hblob in Hsize. injection Hsize as Hsize.
  destruct (tip_shows currency b hs main tip Hs Hl) as (Hin & Hbid & Htip & Hpos).
  assert (u32 (bh_height tip + 1) = height) as Hh by (by rewrite Hheight, Htip).
  destruct (template_room_limit _ _ _ _ _ Hroom Hlimit) as (Hlim & Hlim2 & max & Hmax & Hblk).
  destruct Hroom as [[Hr0 Hr] Hm Hrb Hrt Hrc]. set (median := effective_median _ _ _) in *.
  pose proof (size_of_nonneg ts) as Hnn. assert (size_of ts ≤ limit) as Hle by (destruct Hfits as [->|]; [cbn; lia|done]).
  assert (0 ≤ blob) as Hb0.
  { unfold binary_size in Hblob. inv_ok Hblob. injection Hblob as <-. lia. }
  assert (u32 (coinbase_tx_size pb + size_of ts) = size_of ts + blob) as Hbs.
  { unfold u32. rewrite Z.mod_small; lia. }
  destruct Hpays as [(emission & Hrew) Hword Hinput Hunlock Hposo Hko]. rewrite <- Hmb in *.
  unfold check_standalone_consensus. unfold template. rewrite Hblock, Hraw. cbn [block_header block_transactions started own_fields bh_height bh_hash].
  rewrite Hh, Hmm. set (major := major_version (header t)) in *.
  eapply or_error_pass.
  { apply or_fail_pass. rewrite !length_fmap. rewrite (Forall2_length _ _ _ Hts). by rewrite !Nat.eqb_refl. }
  eapply bind_pass.
  { rewrite bool_decide_eq_true_2 by done. reflexivity. }
  cbn beta iota. fold (effective_median currency b major). fold median.
  assert (∃ max_tx, (if bool_decide (Pool.Pool.binary_tx <$> ts = []) then Ok 0 else max_transaction_allowed_size currency median) =
    Ok max_tx ∧ size_of ts ≤ max_tx) as (max_tx & Hmt' & Hlemax).
  { case_bool_decide as He; [apply fmap_nil_inv in He as ->; by exists 0|]. unfold max_transaction_allowed_size.
    unfold u32. rewrite !Z.mod_small by lia. replace (_ <? median * 2) with true by lia. eexists. split; [done|]. cbn. lia. }
  eapply bind_pass; [exact Hmt'|]. cbn beta.
  eapply or_error_pass; [by apply (check_raw_ok cn_fast_hash key_isvalid)|]. cbn beta. rewrite Z.add_0_l, Hbs.
  eapply bind_pass; [exact Hmax|]. cbn beta.
  eapply or_error_pass; [apply or_fail_pass; lia|]. cbn beta.
  eapply or_error_pass; [apply or_fail_pass; by apply Z.eqb_eq|]. cbn beta.
  eapply or_error_pass; [apply or_fail_pass; lia|]. cbn beta.
  eapply or_error_pass; [apply or_fail_pass; lia|]. cbn beta.
  eapply or_error_pass; [apply or_fail_pass; rewrite <- Hheight; lia|]. cbn beta.
  eapply or_error_pass; [apply or_fail_pass; rewrite Hmt, Htime; lia|]. cbn beta.
  eapply or_error_pass.
  { unfold check_miner_transaction. rewrite Hinput, Hunlock, !Z.eqb_refl. reflexivity. }
  cbn beta. eapply bind_pass; [exact Hzone|]. cbn beta zeta.
  eapply or_error_pass.
  { f_equal. apply check_miner_outputs_ok; [done| |lia|unfold in_u in Hword; lia].
    eapply Forall_impl; [exact Hko|]. intros o (d & i & a & key & ? & ?). exists key. by eauto. }
  cbn beta. rewrite Z.add_0_l.
  destruct (difficulty_of_template b hs main tip height difficulty Hcn Hs Hl ltac:(congruence) Hf1 Hf2 Hdiff) as (c & Hda).
  eapply bind_pass; [exact Hda|]. cbn beta iota.
  eapply or_error_pass; [apply or_fail_pass; lia|]. cbn beta.
  eapply or_error_pass; [by rewrite (cumulative_fee_ok cn_fast_hash key_isvalid _ _ _ Hts)|]. cbn beta. fold (fees_of ts).
  destruct (reward_of_empty_block currency major median _ _ _ _ ltac:(lia) ltac:(lia) Hrew) as [[base e0] Hbase].
  eapply bind_pass; [exact Hbase|]. cbn beta iota.
  eapply bind_pass; [exact Hrew|]. cbn beta iota.
  eapply or_error_pass; [apply or_fail_pass, Z.eqb_refl|]. cbn beta.
  eapply or_error_pass; [cbn [negb]; by rewrite (check_transactions_ok cn_fast_hash key_isvalid _ _ Hts)|]. cbn beta.
  eapply or_error_pass.
  { unfold check_work. rewrite Hzone, Hlong. cbn [mbind result_bind negb]. rewrite bool_decide_eq_true_2 by done. cbn [negb].
    unfold template. rewrite Hblock. destruct Hwork as (long & Hlong' & Hwork). cbn [block_header]. rewrite Hlong'. cbn [mbind result_bind].
    rewrite Hwork. reflexivity. }
  eexists. split; [reflexivity|]. eexists. split; [reflexivity|]. done.
Qed.

End validation.

(** ** Properties *)

Section properties.
Context {D : Type} `{LmdbLaws D} (currency : Currency).
Context (cn_fast_hash cn_slow_hash cn_lite_slow_hash_v1 : list Z → Hash) (key_isvalid : PublicKey → bool).
Context (check_ring_signature : RingSignatureArg → bool * bool) (partial_header : BinaryArray → BlockTemplate).
Context (generate_key_derivation : PublicKey → list Z → option (list Z)).
Context (derive_public_key : list Z → nat → PublicKey → option PublicKey).
Context (random_keypair : nat → PublicKey * list Z).

(** C6: What the node hands out it takes back: a block mined from a template of
    [create_mining_block_template], with whichever nonce and parent block
    carry the proof of work for the difficulty handed out, passes the
    validation of [add_block]: the size limit, the reward for exactly this
    size, the fees, the medians and the difficulty agree.  The transactions of
    the block are found when it comes back.  Heights at the forks of the
    difficulty are left out, and the sizes must leave room for the coinbase. *)
Theorem mined_block_validates b hs blocks main v tip m now adr nonce t difficulty height m' b' t' blob coinbase now' :
  counts_nonneg currency → whole currency cn_fast_hash b hs blocks main v → last main = Some tip →
  pool_checked cn_fast_hash key_isvalid (pool (node b)) →
  (∀ d i a key, derive_public_key d i a = Some key → key_isvalid key = true) →
  create_mining_block_template (D := D) currency cn_fast_hash check_ring_signature generate_key_derivation derive_public_key
    random_keypair b m now adr nonce = Ok (Some (t, difficulty, height), m', b') →
  mined t t' → template_ok t' → to_binary ser_BlockTemplate t' = Ok blob →
  is_in_sw_checkpoint_zone currency height = Ok false →
  height ≠ hardfork_v1_height currency → height ≠ hardfork_v2_height currency + 1 →
  binary_size ser_Transaction (base_transaction t) = Ok coinbase →
  template_room currency height (effective_median currency b (major_version (header t))) coinbase →
  Blocks.timestamp (header t') ≤ u32 (now' + get_block_future_time_limit currency height) →
  pb_major_version (parent_block t') ≤ 1 →
  (∃ long, get_block_long_hash cn_fast_hash cn_slow_hash cn_lite_slow_hash_v1 t' = Ok long ∧
     check_proof_of_work cn_fast_hash currency long t' difficulty = Ok true) →
  ∃ raws, find_binaries b' m' (transaction_hashes t') = Some raws ∧
    ∀ pb, prepare_block cn_fast_hash cn_slow_hash cn_lite_slow_hash_v1 partial_header false
            {| raw_block := blob; raw_transactions := raws |} = Ok pb → parent_block_size pb ≤ 2048 →
      validates currency cn_fast_hash cn_slow_hash cn_lite_slow_hash_v1 key_isvalid b' hs blocks main v now' pb tip
        (λ checked, ∃ info, checked = inr info ∧ bh_difficulty info = difficulty).
Proof.
  intros Hcn Hw Hl Hpool Hkeys Hc Hm Ht' Hblob Hzone Hf1 Hf2 Hcoin Hroom Hfuture Hpbv Hwork.
  pose proof (wh_node _ _ _ _ _ _ _ Hw) as Hno.
  destruct (create_template_for currency cn_fast_hash check_ring_signature generate_key_derivation derive_public_key random_keypair
    b hs main v tip m now adr nonce t difficulty height m' b' Hcn (no_chain _ _ _ _ _ _ _ Hno) (no_state _ _ _ _ _ _ _ Hno) Hl Hc)
    as [(c & -> & _) [ts Htf]].
  pose proof (tf_found _ _ _ _ _ _ _ _ _ _ Htf) as Hfound. rewrite <- (mi_hashes _ _ Hm) in Hfound.
  exists (Pool.Pool.binary_tx <$> ts). split; [by apply find_binaries_ok|]. intros pb Hpb Hpbs c' Hw'.
  destruct (prepared_block cn_fast_hash cn_slow_hash cn_lite_slow_hash_v1 key_isvalid partial_header t' blob _ ts pb Ht' Hblob
    (found_checked _ _ _ _ _ Hpool Hfound) Hpb) as (Hblock & Hraw & Hlong & Hsize).
  assert (coinbase = coinbase_tx_size pb) as -> by (rewrite (mi_base _ _ Hm) in Hsize; congruence).
  destruct (mined_block_passes currency cn_fast_hash cn_slow_hash cn_lite_slow_hash_v1 key_isvalid derive_public_key hs main
    (with_cache (with_cache b c) c') now now' t difficulty height ts tip t' pb) as ([checked b1] & Hx & Hgood); try done.
  - apply (no_chain _ _ _ _ _ _ _ (wh_node _ _ _ _ _ _ _ Hw')).
  - by destruct Htf; split.
  - exists checked, b1. split; [exact Hx|exact Hgood].
Qed.

End properties.

(** A template on the genesis block of the test network, and what a miner makes
    of it: the root of the merge-mining tag. *)
Definition sample_create (n : Node memory_db) :=
  create_mining_block_template test_net sample_hash check_ring (λ _ _, Some []) (λ _ _ _, Some (replicate 32 8))
    (λ _, (replicate 32 1, replicate 32 2)) (at_tip n [info_g] info_g ∅) ∅ 1500000001
    {| spend_public_key := replicate 32 3; view_public_key := replicate 32 4 |} [7; 7].
Definition sample_created : BlockTemplate * Difficulty * Height :=
  ltac:(let r := eval vm_compute in (sample_create no_node) in match r with Ok (Some ?x, _, _) => exact x end).
Definition sample_mined : BlockTemplate :=
  ltac:(let r := eval vm_compute in (fix_merge_mining_tag sample_hash sample_created.1.1) in match r with Ok ?x => exact x end).
Definition sample_blob : BinaryArray :=
  ltac:(let r := eval vm_compute in (to_binary ser_BlockTemplate sample_mined) in match r with Ok ?x => exact x end).
Definition sample_coinbase : Z :=
  ltac:(let r := eval vm_compute in (binary_size ser_Transaction (base_transaction sample_created.1.1)) in match r with Ok ?x => exact x end).

Definition sample_long : Hash :=
  ltac:(let r := eval vm_compute in (get_block_long_hash sample_hash sample_hash sample_hash sample_mined) in match r with Ok ?x => exact x end).

Lemma sample_create_ok s : ∃ m' b', sample_create {| store := s; pool := Pool.Pool.empty_pool |} = Ok (Some sample_created, m', b').
Proof. eexists _, _. vm_compute. reflexivity. Qed.

Lemma sample_mined_ok : template_ok sample_mined.
Proof. unfold template_ok; simpl; unfold ser_blockchain_branch; repeat (split || apply Forall_cons); try done; by apply (bool_decide_unpack _). Qed.

Lemma sample_room : template_room test_net 1 20000 sample_coinbase.
Proof. split; [vm_compute; by split|done|eexists; split; [vm_compute; reflexivity|done]|vm_compute; done|vm_compute; done]. Qed.

Lemma mined_block_validates_witness : ∃ n m' b', sample_create n = Ok (Some sample_created, m', b') ∧
  ∃ raws, find_binaries b' m' [] = Some raws ∧
    ∀ pb, prepare_block sample_hash sample_hash sample_hash no_header false
            {| raw_block := sample_blob; raw_transactions := raws |} = Ok pb → parent_block_size pb ≤ 2048 →
      validates test_net sample_hash sample_hash sample_hash key_isvalid b' hs_g blocks_g [info_g] v_g 1500000003 pb info_g
        (λ checked, ∃ info, checked = inr info ∧ bh_difficulty info = 1).
Proof.
  destruct node_g_exists as [n0 Hw0]. pose proof (whole_at_tip _ _ _ _ _ info_g 0 Hw0 eq_refl ltac:(cbn; lia)) as Hw.
  destruct (sample_create_ok (store n0)) as (m' & b' & Hc). eexists _, m', b'. split; [exact Hc|].
  apply (mined_block_validates test_net sample_hash sample_hash sample_hash key_isvalid check_ring no_header (λ _ _, Some [])
    (λ _ _ _, Some (replicate 32 8)) (λ _, (replicate 32 1, replicate 32 2)) _ hs_g blocks_g [info_g] v_g info_g ∅ 1500000001
    {| spend_public_key := replicate 32 3; view_public_key := replicate 32 4 |} [7; 7] sample_created.1.1 1 1 m' b' sample_mined sample_blob
    sample_coinbase 1500000003 test_counts Hw eq_refl).
  - intros tid t Ht. exfalso. revert Ht. exact (lookup_empty_Some tid t).
  - intros. reflexivity.
  - exact Hc.
  - split; reflexivity.
  - apply sample_mined_ok.
  - vm_compute. reflexivity.
  - reflexivity.
  - vm_compute. discriminate.
  - vm_compute. discriminate.
  - vm_compute. reflexivity.
  - apply sample_room.
  - vm_compute. discriminate.
  - vm_compute. discriminate.
  - exists sample_long. split; [vm_compute; reflexivity|vm_compute; reflexivity].
Defined.

End MiningLaws.
