(* ===== verification/NodeTheorems.v ===== *)
(** * The node: properties of [add_block]

    What happens to the node when a block arrives, what can be read from it
    afterwards, and what happens to its pool when a transaction arrives. *)

From stdpp Require Import functions.
From S2P Require Import Prelude Varint Containers Seria Text CryptoNote Amounts Blocks Currency Db ChainState Store Pool Redo BlockLaws NodeLaws Headers HeaderLaws Consensus ConsensusLaws BlockStore BlockStoreLaws BranchLaws ChainUpdate ChainLaws UpdateLaws SampleNode.
Import Containers Codec Varint CryptoNote Blocks Currency Db ChainState Redo BlockLaws NodeLaws Headers HeaderLaws Consensus BlockStore BlockStoreLaws BranchLaws ChainUpdate ChainLaws UpdateLaws SampleNode.

Local Open Scope Z_scope.

Module NodeTheorems.

Section properties.
Context {D : Type} `{LmdbLaws D} (currency : Currency).
Context (cn_fast_hash cn_slow_hash cn_lite_slow_hash_v1 : list Z → Hash) (key_isvalid : PublicKey → bool).
Context (check_ring_signature : RingSignatureArg → bool * bool) (partial_header : BinaryArray → BlockTemplate).

#[local] Abbreviation add := (add_block (D := D) currency cn_fast_hash cn_slow_hash cn_lite_slow_hash_v1 key_isvalid
  check_ring_signature partial_header) (only parsing).
#[local] Abbreviation whole_node := (whole (D := D) currency cn_fast_hash) (only parsing).

(** C1: A valid block on the tip, more difficult in sum as every such block is,
    whose transactions the state accepts becomes the new tip: [add_block] has
    it broadcast, and the node is whole again, with the block and its header
    stored, its effects applied, the main chain, the indices of its
    transactions, the counters of children and the index of tips extended. *)
Theorem add_block_extends b hs blocks main v now pb info t :
  counts_nonneg currency → windows_ok (D := D) currency → whole_node b hs blocks main v → last main = Some t →
  arrives cn_fast_hash hs blocks pb t → previous_block_hash (header (template pb)) = bh_hash t →
  validates currency cn_fast_hash cn_slow_hash cn_lite_slow_hash_v1 key_isvalid b hs blocks main v now pb t (λ checked, checked = inr info) → c_ok ser_api_BlockHeader info →
  bh_cumulative_difficulty t < bh_cumulative_difficulty info →
  Z.of_nat (base.size hs) < 2 ^ 32 - 1 → Z.of_nat (length main) + 1 < 2 ^ 32 - 1 →
  accepts (D := D) currency cn_fast_hash check_ring_signature v info (new_entry pb) →
  (∀ tid, tid ∈ tids (new_entry pb) → tid ∉ main_tids blocks main) →
  ∃ b', add b now pb = Ok (BROADCAST_ALL, Some info, b') ∧
    whole_node b' (<[bid pb := info]> hs) (<[bid pb := new_entry pb]> blocks) (main ++ [info])
      (foldl v_effect v (entry_effects info (new_entry pb))).
Proof.
  intros Hcn Hwo Hw Ht Ha Hprev Hv Hok Hcd Hsz Hlen Hac Hfr.
  destruct (add_block_validates currency cn_fast_hash cn_slow_hash cn_lite_slow_hash_v1 key_isvalid check_ring_signature partial_header b hs blocks main v now pb t _ Hcn Hw Ha Hv) as (checked & b1 & -> & Hw1 & _ & Hadd & Hf).
  rewrite Hadd. by apply (settle_extends currency cn_fast_hash key_isvalid check_ring_signature partial_header b1 hs blocks main v pb info t t); try apply Hf.
Qed.

(** C2: A valid block on another branch that makes it the more difficult one
    has the node switch: the main chain is undone to where the branches part
    and the branch is redone on it, block by block, as far as its blocks are
    accepted there; the node is whole again with that main chain and the
    pool holds what is left of it and of the transactions undone.  Only when
    all of the branch was accepted is the block broadcast; when one of its
    blocks was refused the node stays where it stopped. *)
Theorem add_block_switches b hs blocks main v now pb info p t :
  counts_nonneg currency → windows_ok (D := D) currency → whole_node b hs blocks main v → last main = Some t →
  arrives cn_fast_hash hs blocks pb p → previous_block_hash (header (template pb)) ≠ bh_hash t →
  validates currency cn_fast_hash cn_slow_hash cn_lite_slow_hash_v1 key_isvalid b hs blocks main v now pb p (λ checked, checked = inr info) → c_ok ser_api_BlockHeader info →
  bh_cumulative_difficulty t < bh_cumulative_difficulty info →
  Z.of_nat (base.size hs) < 2 ^ 32 - 1 → (∀ bid h, hs !! bid = Some h → bh_height h < 2 ^ 32 - 3) →
  let hs' := <[bid pb := info]> hs in
  let blocks' := <[bid pb := new_entry pb]> blocks in
  ∃ pre upper branch, main = pre ++ upper ∧ pre ≠ [] ∧ main_ok hs' (pre ++ branch) ∧ last (pre ++ branch) = Some info ∧
    ∀ w joined ok w', history blocks' pre w → Forall (λ h, is_Some (blocks' !! bh_hash h)) branch →
      branch_run (D := D) currency cn_fast_hash check_ring_signature blocks' pre w branch joined ok →
      history blocks' (pre ++ joined) w' →
      let back := map_entries (undone_map blocks' upper joined) in
      Forall parsed (pool_list (pool (node b))) → Forall (room_for w') (pool_list (pool (node b)) ++ back) →
      Pool.Pool.m_memory_state_total_size (pool (node b)) + raws_size back < 2 ^ 63 →
      ∃ b', add b now pb = Ok (if ok then BROADCAST_ALL else NOTHING, Some info, b') ∧
        whole_node b' hs' blocks' (pre ++ joined) w'.
Proof.
  intros Hcn Hwo Hw Ht Ha Hprev Hv Hok Hcd Hsz Hheights hs' blocks'.
  destruct (add_block_validates currency cn_fast_hash cn_slow_hash cn_lite_slow_hash_v1 key_isvalid check_ring_signature partial_header b hs blocks main v now pb p _ Hcn Hw Ha Hv) as (checked & b1 & -> & Hw1 & Hpool & Hadd & Hf).
  destruct (settle_switches currency cn_fast_hash key_isvalid check_ring_signature partial_header b1 hs blocks main v pb info p t
    Hcn Hwo Hw1 Ht (Hf Hok) Hprev Hcd Hsz Hheights) as (pre & upper & branch & Hm & Hne & Hmo & Hl & Hset).
  exists pre, upper, branch. split_and!; [done..|]. rewrite Hpool in Hset. rewrite Hadd. exact Hset.
Qed.

(** C4: [add_block] bans the sender of a block that fails validation, and the
    node is as it was; it also bans the sender of a valid block on the tip
    that the state refuses, but then the block and its header stay in the
    node, whose main chain does not change, and the same block sent again is
    only ignored.  A block that makes no branch the more difficult one is
    kept, and nothing is broadcast. *)
Theorem add_block_bans b hs blocks main v now pb info p t :
  counts_nonneg currency → whole_node b hs blocks main v → last main = Some t → arrives cn_fast_hash hs blocks pb p →
  Z.of_nat (base.size hs) < 2 ^ 32 - 1 → c_ok ser_api_BlockHeader info →
  (validates currency cn_fast_hash cn_slow_hash cn_lite_slow_hash_v1 key_isvalid b hs blocks main v now pb p (λ checked, ∃ e, checked = inl e) →
     ∃ b', add b now pb = Ok (BAN, None, b') ∧ whole_node b' hs blocks main v) ∧
  (validates currency cn_fast_hash cn_slow_hash cn_lite_slow_hash_v1 key_isvalid b hs blocks main v now pb p (λ checked, checked = inr info) →
     let kept b' := whole_node b' (<[bid pb := info]> hs) (<[bid pb := new_entry pb]> blocks) main v in
     (previous_block_hash (header (template pb)) = bh_hash t → bh_cumulative_difficulty t < bh_cumulative_difficulty info →
        refuses (D := D) currency cn_fast_hash check_ring_signature v info (new_entry pb) →
        ∃ b', add b now pb = Ok (BAN, Some info, b') ∧ kept b' ∧ ∃ c, add b' now pb = Ok (NOTHING, Some info, with_cache b' c)) ∧
     (bh_cumulative_difficulty info ≤ bh_cumulative_difficulty t →
        ∃ b', add b now pb = Ok (NOTHING, Some info, b') ∧ kept b')).
Proof.
  intros Hcn Hw Ht Ha Hsz Hok. split.
  - intros Hv. destruct (add_block_validates currency cn_fast_hash cn_slow_hash cn_lite_slow_hash_v1 key_isvalid check_ring_signature partial_header b hs blocks main v now pb p _ Hcn Hw Ha Hv) as (checked & b1 & [e ->] & Hw1 & _ & Hadd & _).
    exists b1. by rewrite Hadd.
  - intros Hv kept. destruct (add_block_validates currency cn_fast_hash cn_slow_hash cn_lite_slow_hash_v1 key_isvalid check_ring_signature partial_header b hs blocks main v now pb p _ Hcn Hw Ha Hv) as (checked & b1 & -> & Hw1 & _ & Hadd & Hf).
    specialize (Hf Hok). rewrite Hadd. split.
    + intros Hprev Hcd Href.
      destruct (settle_banned currency cn_fast_hash key_isvalid check_ring_signature partial_header b1 hs blocks main v pb info p t
        Hw1 Ht Hf Hprev Hcd Hsz Href) as (b' & Hset & Hw'). exists b'. split_and!; [done|done|].
      eapply known_block_ignored; [exact Hw'|apply Ha|apply lookup_insert_eq|apply lookup_insert_eq].
    + intros Hcd. by eapply settle_beside.
Qed.

(** C19: Every transaction of the main chain is found under its hash: reading
    it gives the transaction, its block with its height, its place in the
    block and its size. *)
Theorem main_transactions_readable b hs blocks main v i h e j tid tx :
  whole_node b hs blocks main v → main !! i = Some h → blocks !! bh_hash h = Some e →
  tids e !! j = Some tid → block_txs (e_block e) !! j = Some tx →
  ∃ bin, to_binary ser_Transaction tx = Ok bin ∧
    read_transaction b tid = Ok (Some {| ft_tx := tx; ft_height := bh_height h; ft_block := bh_hash h;
      ft_index := Z.of_nat j; ft_size := Z.of_nat (length bin) |}).
Proof.
  intros Hw Hh He Htid Htx. pose proof (wh_node _ _ _ _ _ _ _ Hw) as Hno.
  pose proof (no_bodies _ _ _ _ _ _ _ Hno) as Hbs. pose proof (en_coded _ _ _ _ (bs_entry _ _ _ _ Hbs _ _ He)) as Hc.
  pose proof (list_elem_of_lookup_2 _ _ _ Hh) as Hin.
  destruct (ix_found _ _ _ (no_index _ _ _ _ _ _ _ Hno) h e j tid tx Hin He Htid Htx) as (bin & Hbin & Hx).
  exists bin. split; [done|].
  eapply (read_transaction_ok currency cn_fast_hash); [exact (no_chain _ _ _ _ _ _ _ Hno)|exact Hh| |apply (cd_size _ _ _ _ Hc)| |exact Hbin|exact Hx].
  - rewrite (bs_body _ _ _ _ Hbs); [by rewrite He|]. by eapply node_hash.
  - destruct j as [|j]; cbn in Htx; [|pose proof (cd_txs _ _ _ _ Hc) as Hok; rewrite Forall_lookup in Hok; by eapply Hok].
    injection Htx as <-. by destruct (cd_template _ _ _ _ Hc) as (_ & _ & ? & _).
Qed.

(** The index of tips gives the branch to prune: [get_oldest_tip] finds a
    block without children, and no block without children has a lesser
    cumulative difficulty. *)
Lemma oldest_tip_is_lowest_leaf b hs blocks main v : whole_node b hs blocks main v → main ≠ [] →
  ∃ cd bid h, get_oldest_tip b = Ok (Some (cd, bid)) ∧ hs !! bid = Some h ∧ bh_cumulative_difficulty h = cd ∧
    children hs bid = 0%nat ∧
    ∀ bid' h', hs !! bid' = Some h' → children hs bid' = 0%nat → cd ≤ bh_cumulative_difficulty h'.
Proof.
  intros [Hno Hts] Hne.
  destruct (get_oldest_tip_ok (genesis currency) b hs Hts) as (o & Ho & Hlow).
  { apply (hd_tree _ _ _ (cs_headers _ _ _ _ (no_chain _ _ _ _ _ _ _ Hno))). }
  destruct main as [|m main]; [done|].
  destruct (mn_height _ _ (cs_main _ _ _ _ (no_chain _ _ _ _ _ _ _ Hno)) 0 m eq_refl) as [_ Hin].
  destruct (leaf_exists (genesis currency) hs (bh_hash m) m) as (x & y & Hx & Hc); [|done|].
  { apply (hd_tree _ _ _ (cs_headers _ _ _ _ (no_chain _ _ _ _ _ _ _ Hno))). }
  rewrite Ho. destruct o as [[cd bid]|]; [|by destruct (Hlow _ _ Hx)]. destruct Hlow as [(h & Hh & Hcd & Hch) Hlow].
  by exists cd, bid, h.
Qed.

(** C5: A transaction that arrives as bytes gets a verdict, whatever it is: the
    node neither fails nor loses its form.  The chain stays as it is, the
    pool's indices stay consistent, no two transactions of the pool spend the
    same key image and none spends one that the chain has spent. *)
Theorem transaction_gets_verdict (n : Node D) v tid tx blob h t c :
  node_shows n v → bytes blob → from_binary ser_Transaction blob = Ok tx → in_u 32 h →
  (∀ a, Z.of_nat (length (v_outs v a)) + Z.of_nat (length (outputs (tx_prefix tx))) < 2 ^ 32) →
  Pool.Pool.m_memory_state_total_size (pool n) + Z.of_nat (length blob) < 2 ^ 63 →
  ∃ n' r c', add_transaction currency cn_fast_hash check_ring_signature key_isvalid n tid tx blob h t c true = Ok (n', r, c') ∧
    store n' = store n ∧ node_shows n' v ∧
    (∀ tid1 t1 tid2 t2 ki, Pool.Pool.m_memory_state_tx (pool n') !! tid1 = Some t1 →
       Pool.Pool.m_memory_state_tx (pool n') !! tid2 = Some t2 → ki ∈ Pool.Pool.tx_kis t1 → ki ∈ Pool.Pool.tx_kis t2 → tid1 = tid2) ∧
    (∀ tid1 t1 ki, Pool.Pool.m_memory_state_tx (pool n') !! tid1 = Some t1 → ki ∈ Pool.Pool.tx_kis t1 → v_keys v ki = None).
Proof.
  intros Hn Hb Hf Hh Hroom Hsize. destruct (to_from_binary ser_Transaction blob tx Hb Hf) as [Hok Hput].
  destruct (add_transaction_ok currency cn_fast_hash check_ring_signature key_isvalid n v tid tx blob h t c Hn Hok)
    as (p & r & c' & Hadd & Hn' & _); try done.
  { intros ->. by apply (put_nonempty (c := ser_Transaction) tx [] Hok Hput). }
  exists {| store := store n; pool := p |}, r, c'. split_and!; [done|done|done| |].
  - apply Pool.Pool.pool_spends_once, (nd_pool _ _ Hn').
  - intros tid1 t1 ki H1 Hki. apply (nd_unspent _ _ Hn' ki tid1). apply (Pool.Pool.po_ki _ (nd_pool _ _ Hn')). by exists t1.
Qed.

End properties.

(** ** On the test network *)

#[local] Abbreviation sample_add := (add_block test_net sample_hash sample_hash sample_hash key_isvalid check_ring no_header) (only parsing).
#[local] Abbreviation whole_node := (whole (D := memory_db) test_net sample_hash) (only parsing).

Lemma fresh_tids_1 tid : tid ∈ tids (new_entry pb_1) → tid ∉ main_tids blocks_g [info_g].
Proof. unfold main_tids. revert tid. apply Forall_forall. by apply (bool_decide_unpack _). Qed.

Lemma sample_accepts_1 : accepts (D := memory_db) test_net sample_hash check_ring v_g info_1 (new_entry pb_1).
Proof. apply accepts_mined; [apply coded_1|done|done|done|vm_compute; lia|]. intros a. apply small_views. Qed.

Lemma add_block_extends_witness : ∃ b b', sample_add b 1500000003 pb_1 = Ok (BROADCAST_ALL, Some info_1, b') ∧
  m_tip_bid b = bid pb_g ∧ whole_node b' hs_1 blocks_1 [info_g; info_1] v_1.
Proof.
  destruct node_g_exists as [n Hw].
  destruct (add_block_extends test_net sample_hash sample_hash sample_hash key_isvalid check_ring no_header _ hs_g blocks_g [info_g] v_g
    1500000003 pb_1 info_1 info_g test_counts test_windows Hw) as (b' & Hadd & Hw').
  - reflexivity.
  - apply arrives_1.
  - reflexivity.
  - intros c _. destruct (validate_1 n c) as [b Hb]. exists (inr info_1), b. split; [exact Hb|reflexivity].
  - apply sample_infos.
  - reflexivity.
  - reflexivity.
  - reflexivity.
  - apply sample_accepts_1.
  - apply fresh_tids_1.
  - exists (at_tip n [info_g] info_g ∅), b'. split; [exact Hadd|]. split; [reflexivity|exact Hw'].
Defined.

(** A clock that is behind has the block refused; a second block on the
    genesis block is kept beside the first. *)
Lemma add_block_bans_witness :
  (∃ b b', sample_add b 1499000000 pb_1 = Ok (BAN, None, b') ∧ whole_node b' hs_g blocks_g [info_g] v_g) ∧
  (∃ b b', sample_add b 1500000003 pb_f = Ok (NOTHING, Some info_f, b') ∧ whole_node b' hs_f blocks_f [info_g; info_1] v_1).
Proof.
  split.
  - destruct node_g_exists as [n Hw].
    destruct (add_block_bans test_net sample_hash sample_hash sample_hash key_isvalid check_ring no_header _ hs_g blocks_g [info_g] v_g
      1499000000 pb_1 info_1 info_g info_g test_counts Hw) as [Hban _]; [reflexivity|apply arrives_1|reflexivity|apply sample_infos|].
    destruct Hban as (b' & Hadd & Hw').
    { intros c _. destruct (validate_early n c) as (e & b & Hb). exists (inl e), b. split; [exact Hb|by exists e]. }
    eexists _, b'. split; [exact Hadd|exact Hw'].
  - destruct node_1_exists as [n Hw].
    destruct (add_block_bans test_net sample_hash sample_hash sample_hash key_isvalid check_ring no_header _ hs_1 blocks_1 [info_g; info_1] v_1
      1500000003 pb_f info_f info_g info_1 test_counts Hw) as [_ Hkeep]; [reflexivity|apply arrives_f|reflexivity|apply sample_infos|].
    destruct Hkeep as [_ Hkeep].
    { intros c _. destruct (validate_f n c) as [b Hb]. exists (inr info_f), b. split; [exact Hb|reflexivity]. }
    destruct Hkeep as (b' & Hadd & Hw'); [vm_compute; discriminate|]. eexists _, b'. split; [exact Hadd|exact Hw'].
Defined.

Lemma nothing_undone : map_entries (undone_map blocks_f2 [info_1] [info_f; info_f2]) = [].
Proof. vm_compute. reflexivity. Qed.

Lemma add_block_switches_witness : ∃ b b', m_tip_bid b = bid pb_1 ∧
  sample_add b 1500000003 pb_f2 = Ok (BROADCAST_ALL, Some info_f2, b') ∧
  whole_node b' hs_f2 blocks_f2 [info_g; info_f; info_f2] v_f2.
Proof.
  destruct node_f_exists as (n & Hw & Hpool). exists (at_tip n [info_g; info_1] info_1 ∅).
  destruct (add_block_switches test_net sample_hash sample_hash sample_hash key_isvalid check_ring no_header _ hs_f blocks_f
    [info_g; info_1] v_1 1500000003 pb_f2 info_f2 info_f info_1 test_counts test_windows Hw)
    as (pre & upper & branch & Hmain & Hne & Hm & Hl & Hswitch).
  - reflexivity.
  - apply arrives_f2.
  - vm_compute. discriminate.
  - intros c _. destruct (validate_f2 n c) as [b Hb]. exists (inr info_f2), b. split; [exact Hb|reflexivity].
  - apply sample_infos.
  - reflexivity.
  - reflexivity.
  - intros x h Hh. unfold hs_f, hs_1, hs_g in Hh. rewrite !lookup_insert_Some, lookup_singleton_Some in Hh.
    destruct Hh as [[_ <-]|[_ [[_ <-]|[_ [_ <-]]]]]; reflexivity.
  - pose proof (path_f2 _ Hm Hl) as Hpath. assert (pre = [info_g] ∧ upper = [info_1] ∧ branch = [info_f; info_f2]) as (-> & -> & ->).
    { clear -Hmain Hne Hpath. destruct pre as [|x [|y pre]]; [done|..].
      - injection Hmain as <- <-. by injection Hpath as <-.
      - exfalso. cbn in Hmain, Hpath. injection Hmain as _ Hy _. injection Hpath as _ Hy' _. rewrite <- Hy in Hy'. by vm_compute in Hy'. }
    destruct (Hswitch v_g [info_f; info_f2] true v_f2) as (b' & Hadd & Hw').
    + apply history_g.
    + by apply (bool_decide_unpack _).
    + apply branch_f2.
    + apply history_f2.
    + cbn [at_tip node]. rewrite Hpool. constructor.
    + cbv zeta. fold blocks_f2. rewrite nothing_undone, app_nil_r. cbn [at_tip node]. rewrite Hpool. constructor.
    + cbv zeta. fold blocks_f2. rewrite nothing_undone. cbn [at_tip node]. rewrite Hpool. reflexivity.
    + exists b'. split; [reflexivity|]. split; [exact Hadd|exact Hw'].
Defined.

Lemma main_transactions_readable_witness : ∃ b : BlockChain memory_db,
  read_transaction b (base_transaction_hash pb_g) = Ok (Some {| ft_tx := base_transaction (template pb_g); ft_height := 0;
    ft_block := bid pb_g; ft_index := 0; ft_size := coinbase_tx_size pb_g |}).
Proof.
  destruct node_g_exists as [n Hw]. exists (at_tip n [info_g] info_g ∅).
  destruct (main_transactions_readable test_net sample_hash _ hs_g blocks_g [info_g] v_g 0 info_g (new_entry pb_g) 0
    (base_transaction_hash pb_g) (base_transaction (template pb_g)) Hw) as (bin & Hbin & Hread).
  - reflexivity.
  - vm_compute. reflexivity.
  - reflexivity.
  - reflexivity.
  - assert (Z.of_nat (length bin) = coinbase_tx_size pb_g) as <-; [|exact Hread].
    vm_compute in Hbin. injection Hbin as <-. reflexivity.
Defined.

Lemma oldest_tip_is_lowest_leaf_witness : ∃ (b : BlockChain memory_db) x,
  get_oldest_tip b = Ok (Some (2, x)) ∧ x ∈ [bid pb_1; bid pb_f].
Proof.
  destruct node_f_exists as (n & Hw & _). exists (at_tip n [info_g; info_1] info_1 ∅).
  destruct (oldest_tip_is_lowest_leaf test_net sample_hash _ hs_f blocks_f [info_g; info_1] v_1 Hw)
    as (cd & x & h & Ho & Hh & Hcd & Hc & _); [done|]. exists x.
  unfold hs_f, hs_1, hs_g in Hh. rewrite !lookup_insert_Some, lookup_singleton_Some in Hh.
  destruct Hh as [[<- <-]|[_ [[<- <-]|[_ [<- <-]]]]].
  - subst cd. split; [exact Ho|right; by left].
  - subst cd. split; [exact Ho|by left].
  - exfalso. vm_compute in Hc. done.
Defined.

Lemma transaction_gets_verdict_witness : ∃ blob n' r c',
  add_transaction test_net sample_hash check_ring key_isvalid no_node [1] (base_transaction (template pb_1)) blob 1 0 0 true = Ok (n', r, c') ∧
  store n' = store no_node.
Proof.
  destruct (to_binary ser_Transaction (base_transaction (template pb_1))) as [blob| |] eqn:Hb; [|exfalso; by vm_compute in Hb..].
  exists blob.
  destruct (transaction_gets_verdict (D := memory_db) test_net sample_hash key_isvalid check_ring no_node Store.empty_view [1]
    (base_transaction (template pb_1)) blob 1 0 0) as (n' & r & c' & Hadd & Hs & _).
  - apply empty_node_shows.
  - vm_compute in Hb. injection Hb as <-. by apply (bool_decide_unpack _).
  - vm_compute in Hb. injection Hb as <-. vm_compute. reflexivity.
  - done.
  - intros a. reflexivity.
  - vm_compute in Hb. injection Hb as <-. reflexivity.
  - by exists n', r, c'.
Defined.

End NodeTheorems.
